(* ===== verification/_CoqProject ===== *)
-Q . S2P
Prelude.v
Grep.v
Umalloc.v
UmallocRep.v
UmallocClient.v
Printf.v
Sh.v
ShRead.v
ShReturns.v
ShLine.v
SchedCommon.v
Lottery.v
Mlfq.v
MlfqImproved.v
Annealing.v
Blocks.v
Machine.v
User.v
ShRun.v
Forktest.v
Wp.v
StringC.v
Spinlock.v
Kalloc.v
Vm.v
VmRep.v
VmInst.v
VmMap.v
VmCopy.v
VmBytes.v
VmFree.v
VmKernel.v
Start.v
Sched.v
Uart.v
Sleeplock.v
Bio.v
Virtio.v
VirtioCalls.v
Log.v
LogCalls.v
Pipe.v
File.v
Proc.v
Fs.v
FsBlocks.v
FsInode.v
Itable.v
Namei.v
Mkfs.v
MkfsRep.v
ProcExit.v
Syscall.v
Exec.v
SysPath.v
Console.v
ConsoleLine.v
ProcFirst.v
Trap.v
TrapCalls.v
Boot.v
FirstRun.v
