(* ===== verification/Prelude.v ===== *)
(** * A verification of the xv6 kernel with system call enhancements and of
    the scheduling simulators

    The repository has two parts.  [src/schedulling_algorithms] holds five
    stand-alone C programs that simulate process scheduling.
    [src/System Call Enhancements in xv6 OS] is the xv6 kernel for RISC-V with
    a few system calls added ([sfork], [setpriority], [cpuutilization],
    [count_zombies], tagged pipes).  This library models both in Rocq and
    proves what the code promises.

    ** Files

    Shared: this file (machine integers, record update, the [run] monad of
    user programs, loops with fuel, lemmas on lists and array slices).

    Simulators (values of the [run] monad: a result, undefined behaviour, or
    out of fuel):
    - [SchedCommon], [Lottery]: [sched_algo_lottery_existing.c] (and
      [_improved.c], the same text);
    - [Mlfq]: [sched_algo_mlfq_existing.c]; [MlfqImproved]:
      [sched_algo_mlfqs_improved.c];
    - [Annealing]: [sched_algo_sa.c].

    User programs: [Grep]: [user/grep.c] (the same monad); [Umalloc],
    [UmallocRep], [UmallocClient]: [user/umalloc.c], with the heap as a map
    from the addresses of 16-byte cells to headers; [Sh]: the parser of
    [user/sh.c], [ShRead], [ShReturns], [ShLine]: what it reads and that it
    returns.  [User]: programs as interaction trees, whose events are system
    calls, and what such a program may do; over it [ShRun]: [runcmd], [getcmd]
    and [main] of the shell, and [Forktest]: [user/forktest.c].

    Host tool: [Mkfs], [MkfsRep]: [mkfs/mkfs.c], with the image as a state.

    Kernel (functions of the [M] monad of [Machine], named as in the source):
    - [Machine]: the global variables, memory and registers as one record
      [mach]; constants of [param.h], [riscv.h], [memlayout.h]; [struct]s as
      records; the monad;
    - [StringC]: [string.c]; [Spinlock]: [spinlock.c], with the lock word as a
      transition system over all harts in [Spinlock.Smp];
    - [Kalloc]: [kalloc.c]; [Vm]: [vm.c] and [proc_mapstacks]; page tables as
      maps: [VmRep] (what a table means, [walk]), [VmInst] (an instance),
      [VmMap] ([mappages], [uvmunmap]), [VmCopy] ([uvmcopy]), [VmBytes]
      ([copyin], [copyout]), [VmFree] ([uvmfree]), [VmKernel] ([kvmmake]);
    - [Sched]: the parts of [proc.c] that schedule, sleep, wake and kill;
      [Proc]: processes and [fork]; [ProcExit]: what [wait] and [reparent] do;
    - [Sleeplock]: [sleeplock.c]; [Pipe]: [pipe.c]; [File]: [file.c] and
      [pipealloc];
    - [Wp]: total-correctness rules for kernel code; [Blocks]: fields of disk
      blocks; [Bio]: [bio.c]; [Log], [LogCalls]: [log.c];
    - [Fs]: the definitions for all of [fs.c]; [FsBlocks]: transactions, the
      free map, [balloc] and [bfree]; [FsInode]: [bmap] and [readi];
      [Itable]: the inode table; [Namei]: directories and paths;
    - [Exec]: [exec.c];
    - [Virtio], [VirtioCalls]: [virtio_disk.c]; [Uart]: [uart.c]; [Console],
      [ConsoleLine]: [console.c] and [uartintr];
    - [Trap], [TrapCalls]: [trap.c], [plic.c] and the supervisor registers;
    - [Syscall]: [syscall.c], [sysproc.c] and the part of [sysfile.c] that
      works on descriptors, pipes and arguments; [SysPath]: the calls of
      [sysfile.c] on paths;
    - [Printf]: [printf.c], as functions to the characters they print;
    - [Start]: [start.c] and the machine-mode registers, on a hart of its own;
    - [ProcFirst]: [userinit] and [initcode]; [Boot]: [main.c], the loop of
      [scheduler] and [forkret]; [FirstRun]: what [forkret] does.

    ** How the parts interact

    A kernel function runs on one hart in the state [mach].  It returns
    ([Ret]), panics, faults on a null or missing object, spins on a lock
    another hart holds, blocks because nothing resumes it, or runs out of
    fuel.  [sched], and through it [sleep], [yield], [wait], the pipe calls
    and [acquiresleep], hands the processor over: what happens meanwhile is
    the list of state transformers [env], over which theorems quantify.
    Objects that C names by address (locks, channels, processes, files,
    inodes, buffers) are named by table index.  Pages, page tables, trap
    frames and user memory are bytes of the finite map [mem].  The devices
    are the record [devices]: what their registers will read as, what was
    written to them, and the memory a driver shares with its device.

    Interfaces (type classes): [Linker] gives the addresses that the linker
    script and the assembly files determine; [FsOps], used by [File] and
    [Proc], the inode operations and the device switch, with the law [IdupLaw]
    on [idup]; [PathCalls], used by [Syscall], the system calls on paths.
    [SysPath] gives the instances of both from [Fs], [Log] and the device
    switch [Devices], and proves the law; [Console] gives the instance of
    [Devices].  [Disk], with the law [DiskLaw], the block transfers [Bio] asks
    the driver for; the law is the transfer as its caller sees it, the instance
    in [Virtio] the driver that sleeps while the device works.  [Vectors] gives
    the addresses of the trap vectors.  [TaggedPipe] the functions the
    repository declares but never defines.

    ** What the theorems show

    - Locks: mutual exclusion under every interleaving of the harts, and the
      protocol of [acquire]/[release]/[push_off]/[pop_off] on every branch.
    - Memory: [kalloc]/[kfree] refine a stack of pages, no page is owned
      twice, [kinit] frees each page once.
    - Virtual memory: a page table in memory represents a map from addresses to
      entries ([VmRep.pt_rep], [VmRep.leaf]); [mappages] and [uvmunmap] update
      it, [uvmcopy] gives a child its own pages, [uvmfree] loses no page,
      [copyout] and [copyin] move bytes where the map allows it, [kvmmake]
      makes the address space of the kernel.
    - Boot: [start] leaves machine mode with the registers [main] relies on;
      [main] initialises every part and switches to the first process, which
      mounts the file system and enters user space at its first instruction.
    - Processes: [sleep] gives up its lock atomically, [wakeup] and [kill]
      reach exactly their targets, [fork] and [allocproc] on every branch,
      [wait] reaps the first zombie child, [reparent] hands over all
      children.
    - Pipes and files: a pipe refines a bounded queue of bytes; reference
      counts of the file table.
    - Buffer cache: every operation keeps an abstract view of the contents of
      each block ([Bio.cache_rep]); [bread] on every branch; [binit].
    - Log: [commit] is atomic and recovery is idempotent, wherever in the
      sequence of block writes the machine stops; [log_write], [begin_op] and
      [end_op] on every branch.
    - File system: [balloc] and [bfree] maintain the free map; the inode table
      refines a map from inode numbers to reference counts; [namei] and
      [nameiparent] find what the elements of a path lead to in the directory
      tree and leave exactly one new reference.
    - [grep]: the matcher decides the language of a pattern, and the loop
      prints the matching lines however the input arrives.
    - [printf]: the output of a format is the output of its pieces, with
      canonical numerals; [printint] overruns its buffer exactly on numbers of
      more than sixteen characters.
    - Shell: the parser returns on every line, and reads back every printed
      command with its precedences, redirections and words, with any white
      space; the shell runs what is typed: the programs, their order and their
      descriptors.  The test of fork forks and waits as often as it can.
    - Disk driver: what a transfer publishes decodes, for a device, to the
      transfer asked for; when it is completed, whatever ran in between, the
      caller returns and the descriptors are free again; the interrupt handler
      hands back each completed buffer.
    - Console: [uartputc] is a bounded queue in front of the line; the
      interrupt handler edits an abstract input line; [consoleread] delivers
      the finished part of it up to a line end.
    - Traps: a system call from user space and back, preemption by the clock,
      and traps in the kernel that are transparent to the interrupted code.
    - [mkfs]: the image holds the files it was given as the kernel reads
      inodes, directories and the free map, and the kernel resolves their names.
    - [malloc] and [free]: the free blocks are a ring in the order of their
      addresses; [malloc] cuts a block off, [free] merges; whatever a program
      does, its blocks never overlap and keep their data.
    - Simulators: total correctness of the lottery, feedback queue and
      annealing programs on well-formed inputs, and the exact conditions
      under which they fail.

    ** Fuel and bounds

    Loops that are not structural take fuel; each correctness theorem states
    how much is enough (for the simulators a bound from the input: the total
    burst or number of ticks; for the kernel the number of pages, slots or
    bytes a loop visits).  Integers are [Z] with the wrap-around of their C
    type written out ([u8], [u32], [u64], [i32]).

    ** Not modelled

    Assembly ([swtch.S], [trampoline.S], [kernelvec.S], [entry.S]): [swtch] is
    where [env] acts, the rest is the addresses in [Linker] and [Vectors].
    [panic] is an outcome, not the printing that precedes it.  The translation
    cache and the fences that order it.  [printf] takes its lock in [main] and in
    the trap code; the messages of [fs.c] and of [syscall.c] are added to the
    console as one piece without it.
    The second [scheduler] at the end of [proc.c] dereferences an
    uninitialised pointer and does not compile.  [calculate_avg] of the
    simulators prints floating point averages.  [main] of [grep] opens the files
    it is given.  [user/testsfork.c] and [user/cpuutilization.c] make one system
    call each.

    ** What is left

    [writei], [itrunc], [dirlink], the calls on paths and [exec] are defined and
    have no theorem of their own yet: each needs the invariant of [Namei]
    carried through changes of the tree.  The harts share the lock word in
    [Spinlock.Smp] only; elsewhere the other harts are [env]. *)
From stdpp Require Import base tactics list gmap numbers strings.
From Stdlib Require Import ZArith Lia.

Open Scope Z_scope.

(** ** Machine integers

    The C types used by the sources: 32-bit [int] and [uint], 64-bit
    [uint64].  Unsigned arithmetic wraps; the wrap-around is written out
    with these functions at every place where the source relies on it. *)

Definition u8 (x : Z) : Z := x mod 2 ^ 8.
Definition u32 (x : Z) : Z := x mod 2 ^ 32.
Definition u64 (x : Z) : Z := x mod 2 ^ 64.
Definition i32 (x : Z) : Z := (x + 2 ^ 31) mod 2 ^ 32 - 2 ^ 31.

Definition INT_MAX : Z := 2147483647.

Definition in_i32 (x : Z) : Prop := - 2 ^ 31 <= x < 2 ^ 31.

Lemma i32_id (x : Z) : in_i32 x -> i32 x = x.
Proof. unfold in_i32, i32. intros H. rewrite Z.mod_small; lia. Qed.

Lemma i32_range (x : Z) : in_i32 (i32 x).
Proof.
  unfold in_i32, i32.
  pose proof (Z.mod_pos_bound (x + 2 ^ 31) (2 ^ 32) ltac:(lia)). lia.
Qed.

Lemma u32_id (x : Z) : 0 <= x < 2 ^ 32 -> u32 x = x.
Proof. intros. unfold u32. by apply Z.mod_small. Qed.

Lemma u32_range (x : Z) : 0 <= u32 x < 2 ^ 32.
Proof. apply Z.mod_pos_bound. lia. Qed.

Lemma u64_id (x : Z) : 0 <= x < 2 ^ 64 -> u64 x = x.
Proof. intros. unfold u64. by apply Z.mod_small. Qed.

Lemma u64_range (x : Z) : 0 <= u64 x < 2 ^ 64.
Proof. apply Z.mod_pos_bound. lia. Qed.

(** ** Record update

    [r <| fld := v |>] is the C assignment [r.fld = v] and
    [r <| fld ::= f |>] is [r.fld = f(r.fld)].  A record type takes part by
    giving its eta expansion as an instance of [Settable]. *)

Class Settable (R : Type) : Type := eta_fields : R -> R.

Class Setter {R E : Type} (fld : R -> E) : Type := update_with : (E -> E) -> R -> R.
Arguments update_with {R E} fld {_} f r /.

Ltac derive_setter :=
  lazymatch goal with
  | |- @Setter ?R ?E ?fld =>
      refine (fun (f : E -> E) (r : R) => ltac:(
        let inst := constr:(_ : Settable R) in
        let body := eval hnf in (inst r) in
        lazymatch body with
        | context C [fld r] => let t := context C [f (fld r)] in exact t
        end))
  end.

#[global] Hint Extern 1 (Setter _) => derive_setter : typeclass_instances.

#[warnings="-postfix-notation-not-level-1"]
Notation "r <| fld := v |>" := (update_with fld (fun _ => v) r)
  (at level 12, left associativity, format "r  <| fld  :=  v |>").
#[warnings="-postfix-notation-not-level-1"]
Notation "r <| fld ::= f |>" := (update_with fld f r)
  (at level 12, left associativity, format "r  <| fld  ::=  f |>").

(** ** Runs of a user program

    The scheduling simulators are ordinary C programs: a run produces a
    value, meets undefined behaviour, or has not finished within the fuel
    it was given. *)

Inductive ub : Set :=
| NullDeref        (* dereference of a null pointer *)
| OutOfBounds      (* access outside an array *)
| DivByZero        (* division or remainder by zero *)
| Uninitialised.   (* use of a variable scanf did not assign *)

#[global] Instance ub_eq_dec : EqDecision ub.
Proof. solve_decision. Defined.

Inductive run (A : Type) : Type :=
| Done (a : A)
| Undef (u : ub)
| OutOfFuel.
Arguments Done {A} a.
Arguments Undef {A} u.
Arguments OutOfFuel {A}.

#[global] Instance run_ret : MRet run := fun _ a => Done a.
#[global] Instance run_bind : MBind run := fun _ _ k m =>
  match m with
  | Done a => k a
  | Undef u => Undef u
  | OutOfFuel => OutOfFuel
  end.

Lemma run_bind_Done {A B} (k : A -> run B) a : (Done a ≫= k) = k a.
Proof. done. Qed.

Lemma run_bind_inv {A B} (k : A -> run B) m b :
  (m ≫= k) = Done b -> exists a, m = Done a /\ k a = Done b.
Proof. destruct m; naive_solver. Qed.

Definition or_undef {A} (u : ub) (o : option A) : run A :=
  match o with Some a => Done a | None => Undef u end.

Lemma or_undef_inv {A} u (o : option A) a : or_undef u o = Done a -> o = Some a.
Proof. destruct o; naive_solver. Qed.

(** *** Loops with fuel

    [iter fuel step s] runs a loop whose body [step] either continues with
    a new loop state or leaves the loop with a result. *)

Fixpoint iter {S A} (fuel : nat) (step : S -> run (S + A)) (s : S) : run A :=
  match fuel with
  | O => OutOfFuel
  | Datatypes.S n =>
      r ← step s;
      match r with
      | inl s' => iter n step s'
      | inr a => Done a
      end
  end.

Section iter_rules.
Context {S A : Type} (step : S -> run (S + A)).

(** Total correctness of a loop: an invariant, a variant that decreases at
    each iteration, and a postcondition established at the exit. *)
Lemma iter_total (I : S -> Prop) (Q : A -> Prop) (m : S -> Z) :
  (forall s, I s -> 0 <= m s) ->
  (forall s, I s -> exists r, step s = Done r /\
     match r with
     | inl s' => I s' /\ m s' < m s
     | inr a => Q a
     end) ->
  forall fuel s, I s -> m s < Z.of_nat fuel ->
  exists a, iter fuel step s = Done a /\ Q a.
Proof.
  intros Hpos Hstep fuel.
  induction fuel as [|n IH]; intros s HI Hm.
  - specialize (Hpos s HI). lia.
  - destruct (Hstep s HI) as ([s'|a] & Hs & Hr); simpl; rewrite Hs; simpl.
    + destruct Hr as [HI' Hlt]. apply IH; [done|lia].
    + eauto.
Qed.

(** The same with the number of iterations left as an index of the invariant. *)
Lemma iter_counted (I : nat -> S -> Prop) (Q : A -> Prop) :
  (forall k s, I k s -> exists r, step s = Done r /\
     match r with
     | inl s' => exists k', k = Datatypes.S k' /\ I k' s'
     | inr a => Q a
     end) ->
  forall fuel k s, I k s -> (k < fuel)%nat ->
  exists a, iter fuel step s = Done a /\ Q a.
Proof.
  intros Hstep fuel. induction fuel as [|n IH]; intros k s HI Hk; [lia|].
  destruct (Hstep k s HI) as ([s'|a] & Hs & Hr); simpl; rewrite Hs; simpl; [|eauto].
  destruct Hr as (k' & -> & HI'). apply (IH k'); [done|lia].
Qed.

(** Partial correctness, for a loop that may also run into undefined
    behaviour or out of fuel. *)
Lemma iter_partial (I : S -> Prop) (Q : A -> Prop) :
  (forall s r, I s -> step s = Done r ->
     match r with inl s' => I s' | inr a => Q a end) ->
  forall fuel s a, I s -> iter fuel step s = Done a -> Q a.
Proof.
  intros Hstep fuel.
  induction fuel as [|n IH]; intros s a HI Hit; [done|].
  simpl in Hit. apply run_bind_inv in Hit as ([s'|b] & Hs & Hit).
  - specialize (Hstep _ _ HI Hs). simpl in Hstep. eauto.
  - specialize (Hstep _ _ HI Hs). by simplify_eq.
Qed.

(** A loop whose invariant forbids leaving it never returns. *)
Lemma iter_diverges (I : S -> Prop) :
  (forall s, I s -> exists s', step s = Done (inl s') /\ I s') ->
  forall fuel s, I s -> iter fuel step s = OutOfFuel.
Proof.
  intros Hstep fuel.
  induction fuel as [|n IH]; intros s HI; [done|].
  destruct (Hstep s HI) as (s' & Hs & HI'). simpl. rewrite Hs. simpl. auto.
Qed.

(** More fuel never changes a finished run. *)
Lemma iter_mono fuel1 fuel2 s a :
  (fuel1 <= fuel2)%nat -> iter fuel1 step s = Done a ->
  iter fuel2 step s = Done a.
Proof.
  revert fuel2 s. induction fuel1 as [|n IH]; intros [|n2] s Hle Hit; try done.
  - lia.
  - simpl in *. apply run_bind_inv in Hit as ([s'|b] & -> & Hit); simpl; [|done].
    apply IH; [lia|done].
Qed.
End iter_rules.

(** ** Input

    [scanf] with a [%d] conversion: the next integer of the input; when the
    input is exhausted the variable keeps its indeterminate value, whose use
    is undefined. *)
Definition scan_int (input : list Z) : run (Z * list Z) :=
  match input with
  | [] => Undef Uninitialised
  | v :: rest => Done (v, rest)
  end.

(** ** Characters *)

(** The bytes of a string literal. *)
Definition path_bytes (path : string) : list Z :=
  (fun c => Z.of_N (Ascii.N_of_ascii c)) <$> String.list_ascii_of_string path.

(** ** Sums over lists *)

Definition sumZ {A} (f : A -> Z) (l : list A) : Z := foldr (fun x acc => f x + acc) 0 l.
Arguments sumZ : simpl never.

Lemma sumZ_nil {A} (f : A -> Z) : sumZ f [] = 0.
Proof. done. Qed.

Lemma sumZ_cons {A} (f : A -> Z) x l : sumZ f (x :: l) = f x + sumZ f l.
Proof. done. Qed.

Lemma sumZ_app {A} (f : A -> Z) l1 l2 : sumZ f (l1 ++ l2) = sumZ f l1 + sumZ f l2.
Proof. induction l1; [done|]. rewrite <- app_comm_cons, !sumZ_cons. lia. Qed.

Lemma sumZ_nonneg {A} (f : A -> Z) l : Forall (fun x => 0 <= f x) l -> 0 <= sumZ f l.
Proof. induction 1; [done|]. rewrite sumZ_cons. lia. Qed.

Lemma sumZ_alter {A} (f : A -> Z) (g : A -> A) l i x :
  l !! i = Some x -> sumZ f (alter g i l) = sumZ f l + f (g x) - f x.
Proof.
  revert i. induction l as [|y l IH]; intros [|i] Hi; simplify_eq/=.
  - rewrite !sumZ_cons. lia.
  - rewrite !sumZ_cons, (IH _ Hi). lia.
Qed.

Lemma list_insert_as_alter {A} (l : list A) i (y : A) : <[i := y]> l = alter (fun _ => y) i l.
Proof. revert i. induction l as [|x l IH]; intros [|i]; csimpl; congruence. Qed.

Lemma sumZ_insert {A} (f : A -> Z) l i (x y : A) :
  l !! i = Some x -> sumZ f (<[i := y]> l) = sumZ f l + f y - f x.
Proof. intros H. by rewrite list_insert_as_alter, (sumZ_alter _ _ _ _ _ H). Qed.

Lemma fmap_insert_same {A B} (f : A -> B) (l : list A) i (x y : A) :
  l !! i = Some x -> f y = f x -> f <$> <[i := y]> l = f <$> l.
Proof.
  intros Hi Hf. rewrite list_fmap_insert, Hf. apply list_insert_id.
  by rewrite list_lookup_fmap, Hi.
Qed.

Lemma sumZ_ext {A} (f g : A -> Z) l :
  Forall (fun x => f x = g x) l -> sumZ f l = sumZ g l.
Proof. induction 1; [done|]. rewrite !sumZ_cons. lia. Qed.

Lemma sumZ_fmap {A B} (f : B -> Z) (g : A -> B) l : sumZ f (g <$> l) = sumZ (f ∘ g) l.
Proof. induction l; [done|]. rewrite fmap_cons, !sumZ_cons. simpl. lia. Qed.

Lemma sumZ_le {A} (f g : A -> Z) l :
  Forall (fun x => f x <= g x) l -> sumZ f l <= sumZ g l.
Proof. induction 1; [done|]. rewrite !sumZ_cons. lia. Qed.

Lemma sumZ_elem {A} (f : A -> Z) l i x :
  Forall (fun x => 0 <= f x) l -> l !! i = Some x -> f x <= sumZ f l.
Proof.
  intros HF. revert i. induction HF as [|y l Hy HF IH]; intros [|i] Hi; simplify_eq/=.
  - rewrite sumZ_cons. pose proof (sumZ_nonneg f l HF). lia.
  - rewrite sumZ_cons. specialize (IH _ Hi). lia.
Qed.

(** Largest value of [f] on a list, at least [d]. *)
Definition maxZ {A} (f : A -> Z) (d : Z) (l : list A) : Z :=
  foldr (fun x acc => Z.max (f x) acc) d l.
Arguments maxZ : simpl never.

Lemma maxZ_cons {A} (f : A -> Z) d x l : maxZ f d (x :: l) = Z.max (f x) (maxZ f d l).
Proof. done. Qed.

Lemma maxZ_ge_default {A} (f : A -> Z) d l : d <= maxZ f d l.
Proof. induction l; [done|]. rewrite maxZ_cons. lia. Qed.

Lemma maxZ_elem {A} (f : A -> Z) d l x : x ∈ l -> f x <= maxZ f d l.
Proof. induction 1; rewrite maxZ_cons; lia. Qed.

Lemma maxZ_le {A} (f : A -> Z) d l b :
  d <= b -> Forall (fun x => f x <= b) l -> maxZ f d l <= b.
Proof. intros Hd. induction 1; [done|]. rewrite maxZ_cons. lia. Qed.

Lemma maxZ_fmap {A B} (f : B -> Z) (g : A -> B) d l : maxZ f d (g <$> l) = maxZ (f ∘ g) d l.
Proof. induction l; [done|]. rewrite fmap_cons, !maxZ_cons. simpl. congruence. Qed.

Lemma maxZ_alter {A} (f : A -> Z) (g : A -> A) d l i :
  (forall x, f (g x) = f x) -> maxZ f d (alter g i l) = maxZ f d l.
Proof.
  intros Hg. revert i. induction l as [|y l IH]; intros [|i]; csimpl; [done..| |].
  - by rewrite !maxZ_cons, Hg.
  - by rewrite !maxZ_cons, IH.
Qed.

Lemma maxZ_insert {A} (f : A -> Z) d l i (x y : A) :
  l !! i = Some x -> f x <= f y -> maxZ f d (<[i := y]> l) = Z.max (f y) (maxZ f d l).
Proof.
  revert i. induction l as [|z l IH]; intros [|i] Hi Hle; simplify_eq/=.
  - rewrite !maxZ_cons. lia.
  - rewrite !maxZ_cons, (IH i) by done. lia.
Qed.

Lemma maxZ_attained {A} (f : A -> Z) d l : maxZ f d l = d \/ exists x, x ∈ l /\ maxZ f d l = f x.
Proof.
  induction l as [|x l IH]; [by left|]. rewrite maxZ_cons.
  destruct (Z.max_spec (f x) (maxZ f d l)) as [[_ ->]|[_ ->]].
  - destruct IH as [?|(y & ? & ?)]; [by left|]. right. exists y. split; [by right|done].
  - right. exists x. split; [by left|done].
Qed.

(** Exchanging two cells permutes a list. *)
Lemma insert_delete_perm {A} (l : list A) i x y :
  l !! i = Some x -> <[i := y]> l ≡ₚ y :: delete i l.
Proof.
  revert i. induction l as [|z l IH]; intros [|i] Hi; simplify_eq/=; [done|].
  rewrite (IH i) by done. apply Permutation_swap.
Qed.

Lemma insert_swap_perm {A} (l : list A) i j x y :
  i <> j -> l !! i = Some x -> l !! j = Some y -> <[j := x]> (<[i := y]> l) ≡ₚ l.
Proof.
  intros Hij Hi Hj.
  assert (Hj' : <[i := y]> l !! j = Some y) by by rewrite list_lookup_insert_ne.
  rewrite (insert_delete_perm _ j y) by done.
  assert (Hd : delete j (<[i := y]> l) ≡ₚ delete i l).
  { apply (Permutation_cons_inv (a := y)). rewrite <- (insert_delete_perm l i x) by done.
    symmetry. by apply delete_Permutation. }
  rewrite Hd. symmetry. by apply delete_Permutation.
Qed.

(** A list altered at one index keeps every observation the alteration keeps. *)
Lemma fmap_alter_id {A B} (f : A -> B) (g : A -> A) (l : list A) i :
  (forall x, f (g x) = f x) -> f <$> alter g i l = f <$> l.
Proof.
  intros Hg. revert i. induction l as [|y l IH]; intros [|i]; csimpl; [done..| |].
  - by rewrite Hg.
  - f_equal. apply IH.
Qed.

Lemma Forall_weaken {A} (P Q : A -> Prop) (l : list A) :
  Forall P l -> (forall x, P x -> Q x) -> Forall Q l.
Proof. induction 1; eauto. Qed.

(** Counting the integers of an interval that satisfy a predicate. *)

Lemma filter_all {A} (P : A -> Prop) `{!forall x, Decision (P x)} (l : list A) :
  Forall P l -> filter P l = l.
Proof. induction 1; [done|]. rewrite filter_cons_True by done. congruence. Qed.

Lemma filter_none {A} (P : A -> Prop) `{!forall x, Decision (P x)} (l : list A) :
  Forall (fun x => ~ P x) l -> filter P l = [].
Proof. induction 1; [done|]. by rewrite filter_cons_False. Qed.

Lemma filter_seqZ_interval (P : Z -> Prop) `{!forall x, Decision (P x)} a n lo hi :
  (forall x, a <= x < a + n -> P x <-> lo <= x < hi) ->
  a <= lo -> hi <= a + n -> lo <= hi ->
  length (filter P (seqZ a n)) = Z.to_nat (hi - lo).
Proof.
  intros HP Hlo Hhi Hle.
  replace n with ((lo - a) + ((hi - lo) + (a + n - hi))) by lia.
  rewrite !seqZ_app, !filter_app, !length_app by lia.
  replace (a + (lo - a)) with lo by lia.
  replace (lo + (hi - lo)) with hi by lia.
  rewrite (filter_none P (seqZ a _)), (filter_all P (seqZ lo _)), (filter_none P (seqZ hi _)).
  - rewrite length_seqZ. simpl. lia.
  - apply Forall_forall. intros x Hx%elem_of_seqZ. rewrite HP by lia. lia.
  - apply Forall_forall. intros x Hx%elem_of_seqZ. rewrite HP by lia. lia.
  - apply Forall_forall. intros x Hx%elem_of_seqZ. rewrite HP by lia. lia.
Qed.

(** ** Slices of arrays

    The cells of an array from index [f] to index [r], both included: the
    contents of an array queue with front [f] and rear [r]. *)

Definition slice {A} (f r : Z) (row : list A) : list A :=
  take (Z.to_nat (r - f + 1)) (drop (Z.to_nat f) row).

Lemma slice_length {A} f r (row : list A) :
  0 <= f -> r < Z.of_nat (length row) -> f <= r + 1 ->
  Z.of_nat (length (slice f r row)) = r - f + 1.
Proof. intros. unfold slice. rewrite length_take, length_drop. lia. Qed.

Lemma slice_snoc {A} f r (row : list A) (x : A) :
  0 <= f <= r + 1 -> r + 1 < Z.of_nat (length row) ->
  slice f (r + 1) (<[Z.to_nat (r + 1) := x]> row) = slice f r row ++ [x].
Proof.
  intros Hf Hr. unfold slice. rewrite drop_insert_ge by lia.
  replace (Z.to_nat (r + 1 - f + 1)) with (S (Z.to_nat (r - f + 1))) by lia.
  replace (Z.to_nat (r + 1) - Z.to_nat f)%nat with (Z.to_nat (r - f + 1)) by lia.
  rewrite (take_S_r _ _ x).
  - by rewrite take_insert_ge by lia.
  - apply list_lookup_insert_eq. rewrite length_drop. lia.
Qed.

Lemma slice_cons {A} f r (row : list A) :
  0 <= f <= r -> r < Z.of_nat (length row) ->
  exists x, row !! Z.to_nat f = Some x /\ slice f r row = x :: slice (f + 1) r row.
Proof.
  intros Hf Hr. destruct (lookup_lt_is_Some_2 row (Z.to_nat f)) as [x Hx]; [lia|].
  exists x. split; [done|]. unfold slice.
  replace (Z.to_nat (r - f + 1)) with (S (Z.to_nat (r - (f + 1) + 1))) by lia.
  rewrite (drop_S _ x) by done. simpl.
  by replace (Z.to_nat (f + 1)) with (S (Z.to_nat f)) by lia.
Qed.

Lemma slice_empty {A} f (row : list A) : slice (f + 1) f row = [].
Proof. unfold slice. by replace (Z.to_nat (f - (f + 1) + 1)) with 0%nat by lia. Qed.

(** ** Tactics *)

(** Split every boolean test on integers in sight and hand the facts to lia. *)
Ltac zb :=
  repeat match goal with
  | H : context [Z.eqb ?a ?b] |- _ => destruct (Z.eqb_spec a b)
  | |- context [Z.eqb ?a ?b] => destruct (Z.eqb_spec a b)
  | H : context [Z.leb ?a ?b] |- _ => destruct (Z.leb_spec a b)
  | |- context [Z.leb ?a ?b] => destruct (Z.leb_spec a b)
  | H : context [Z.ltb ?a ?b] |- _ => destruct (Z.ltb_spec a b)
  | |- context [Z.ltb ?a ?b] => destruct (Z.ltb_spec a b)
  end; simplify_eq/=; try done; try lia.

(** Invert the binds of a finished run. *)
Ltac run_inv :=
  repeat match goal with
  | H : (_ ≫= _) = Done _ |- _ => apply run_bind_inv in H as (? & ? & ?)
  | H : or_undef _ _ = Done _ |- _ => apply or_undef_inv in H
  end; simplify_eq/=.

Create HintDb sched.
#[export] Hint Resolve sumZ_nonneg maxZ_ge_default maxZ_elem : sched.
