(* ===== verification/Grep.v ===== *)
(** * grep

    Model of [user/grep.c]: the regular expression matcher and the loop that
    reads a file in pieces and prints the lines that match.  A C string is
    the list of its bytes before the terminating zero. *)
From stdpp Require Import base tactics list numbers.
From S2P Require Import Prelude.

Open Scope Z_scope.

Definition CARET : Z := 94.
Definition DOLLAR : Z := 36.
Definition STAR : Z := 42.
Definition DOT : Z := 46.
Definition NEWLINE : Z := 10.

(** ** The matcher *)

(** [re[0]] and [re[1]]. *)
Definition at0 (re : list Z) : Z := default 0 (re !! 0%nat).
Definition at1 (re : list Z) : Z := default 0 (re !! 1%nat).

(** [matchstar(c, re, text)], with [matchhere(re, .)] as [m]. *)
Fixpoint matchstar (c : Z) (m : list Z -> bool) (text : list Z) : bool :=
  if m text then true
  else match text with
       | [] => false
       | x :: text => if (x =? c) || (c =? DOT) then matchstar c m text else false
       end.

Fixpoint matchhere (re text : list Z) : bool :=
  match re with
  | [] => true
  | c :: re' =>
      if at0 re' =? STAR then
        match re' with
        | [] => false
        | _ :: re'' => matchstar c (matchhere re'') text
        end
      else if (c =? DOLLAR) && (at0 re' =? 0) then (at0 text =? 0)
      else match text with
           | [] => false
           | x :: text' => if (c =? DOT) || (c =? x) then matchhere re' text' else false
           end
  end.

(** [do ... while ( *text++ is not zero)] of [match]. *)
Fixpoint match_from (re text : list Z) : bool :=
  if matchhere re text then true
  else match text with
       | [] => false
       | _ :: text => match_from re text
       end.

Definition match_ (re text : list Z) : bool :=
  if at0 re =? CARET then matchhere (tail re) text else match_from re text.

(** ** Reading and printing *)

Definition BUFSIZE : nat := 1024.

(** The input still to be read, and how many bytes (less one) the next calls
    of [read] are willing to return. *)
Record input := mkInput { pending : list Z; sizes : list nat }.

(** [read(fd, p, k)]: at least one byte unless the input has ended or [k] is
    zero. *)
Definition read (k : nat) (i : input) : list Z * input :=
  let n := Nat.min k (S (default 0%nat (head (sizes i)))) in
  (take n (pending i), mkInput (drop n (pending i)) (tail (sizes i))).

(** The bytes before the first zero byte. *)
Fixpoint until_nul (l : list Z) : run (list Z) :=
  match l with
  | [] => Undef OutOfBounds
  | x :: l => if x =? 0 then Done [] else s ← until_nul l; Done (x :: s)
  end.

(** [strchr(s, c)] as an offset from [s]. *)
Fixpoint strchr (l : list Z) (c : Z) : run (option nat) :=
  match l with
  | [] => Undef OutOfBounds
  | x :: l => if x =? c then Done (Some 0%nat)
              else if x =? 0 then Done None
              else r ← strchr l c; Done (option_map S r)
  end.

Definition store (buf : list Z) (i : nat) (v : Z) : run (list Z) :=
  if (i <? length buf)%nat then Done (<[i := v]> buf) else Undef OutOfBounds.

Definition copy_in (buf : list Z) (i : nat) (l : list Z) : run (list Z) :=
  if (i + length l <=? length buf)%nat then Done (list_inserts i l buf) else Undef OutOfBounds.

(** The inner loop: one line of the buffer from [p] on. *)
Definition line_step (pattern : list Z) (st : list Z * nat * list Z) :
    run (list Z * nat * list Z + list Z * nat * list Z) :=
  let '(buf, p, out) := st in
  q ← strchr (drop p buf) NEWLINE;
  match q with
  | None => Done (inr (buf, p, out))
  | Some d =>
      let q := (p + d)%nat in
      buf ← store buf q 0;
      line ← until_nul (drop p buf);
      if match_ pattern line then
        buf ← store buf q NEWLINE;
        Done (inl (buf, S q, out ++ take (S q - p) (drop p buf)))
      else Done (inl (buf, S q, out))
  end.

(** The outer loop; the state is the buffer, [m], the input and what was
    printed. *)
Definition grep_step (pattern : list Z) (st : list Z * nat * input * list Z) :
    run (list Z * nat * input * list Z + list Z) :=
  let '(buf, m, i, out) := st in
  let '(d, i) := read (BUFSIZE - m - 1) i in
  if (length d =? 0)%nat then Done (inr out)
  else
    buf ← copy_in buf m d;
    let m := (m + length d)%nat in
    buf ← store buf m 0;
    r ← iter (S BUFSIZE) (line_step pattern) (buf, 0%nat, out);
    let '(buf, p, out) := r in
    if (0 <? m)%nat then
      let m := (m - p)%nat in
      buf ← copy_in buf 0 (take m (drop p buf));
      Done (inl (buf, m, i, out))
    else Done (inl (buf, m, i, out)).

Definition grep (fuel : nat) (pattern : list Z) (i : input) : run (list Z) :=
  iter fuel (grep_step pattern) (replicate BUFSIZE 0, 0%nat, i, []).

Example grep_ex : grep 20 [97; 42; 98; 36]
  (mkInput [120;97;98;10;97;98;99;10;98;10;97] [2%nat;3%nat]) = Done [120;97;98;10;98;10].
Proof. vm_compute. reflexivity. Qed.

(** ** The language of a pattern *)

(** What a pattern means: a sequence of single characters and stars, which
    may be anchored at the start and at the end of the text. *)
Inductive atom : Set := Exactly (c : Z) | AnyChar.
Inductive piece : Set := One (a : atom) | Many (a : atom).
Record regexp : Set := mkRegexp { from_start : bool; pieces : list piece; to_end : bool }.

Definition atom_ok (a : atom) (x : Z) : Prop :=
  match a with Exactly c => x = c | AnyChar => True end.

(** The words of a sequence of pieces. *)
Inductive denotes : list piece -> list Z -> Prop :=
| denotes_nil : denotes [] []
| denotes_one a r x u : atom_ok a x -> denotes r u -> denotes (One a :: r) (x :: u)
| denotes_many a r u w : Forall (atom_ok a) u -> denotes r w -> denotes (Many a :: r) (u ++ w).

Definition matches (r : regexp) (text : list Z) : Prop :=
  exists pre u post, text = pre ++ u ++ post /\ denotes (pieces r) u /\
    (from_start r = true -> pre = []) /\ (to_end r = true -> post = []).

(** Reading a pattern. *)
Definition atom_of (c : Z) : atom := if c =? DOT then AnyChar else Exactly c.

Fixpoint body (re : list Z) : list piece * bool :=
  match re with
  | [] => ([], false)
  | c :: re' =>
      if at0 re' =? STAR then
        match re' with
        | [] => ([], false)
        | _ :: re'' => let '(r, b) := body re'' in (Many (atom_of c) :: r, b)
        end
      else if (c =? DOLLAR) && (at0 re' =? 0) then ([], true)
      else let '(r, b) := body re' in (One (atom_of c) :: r, b)
  end.

Definition parse (re : list Z) : regexp :=
  let '(r, b) := body (if at0 re =? CARET then tail re else re) in
  mkRegexp (at0 re =? CARET) r b.

(** ** The matcher decides the language *)

Lemma atom_of_ok c x : atom_ok (atom_of c) x <-> (c =? DOT) || (c =? x) = true.
Proof.
  unfold atom_of. destruct (Z.eqb_spec c DOT); cbn; [done|].
  rewrite Z.eqb_eq. naive_solver.
Qed.

Lemma matchstar_iff c m text :
  matchstar c m text = true <->
  exists u w, text = u ++ w /\ Forall (atom_ok (atom_of c)) u /\ m w = true.
Proof.
  induction text as [|x text IH]; cbn [matchstar].
  - destruct (m []) eqn:E.
    + split; [|done]. intros _. by exists [], [].
    + split; [done|]. intros (u & w & Ht & _ & Hm). symmetry in Ht. apply app_eq_nil in Ht as [_ ->]. congruence.
  - destruct (m (x :: text)) eqn:E.
    + split; [|done]. intros _. by exists [], (x :: text).
    + destruct ((x =? c) || (c =? DOT)) eqn:Hx.
      * rewrite IH. split.
        -- intros (u & w & -> & Hu & Hm). exists (x :: u), w. split; [done|]. split; [|done].
           constructor; [|done]. apply atom_of_ok. rewrite orb_comm, (Z.eqb_sym c x). done.
        -- intros ([|y u] & w & Ht & Hu & Hm); cbn in Ht; [congruence|]. injection Ht as <- ->.
           apply list.Forall_cons in Hu as [_ Hu]. by exists u, w.
      * split; [done|]. intros ([|y u] & w & Ht & Hu & Hm); cbn in Ht; [congruence|]. injection Ht as <- ->.
        apply list.Forall_cons in Hu as [Hy _]. apply atom_of_ok in Hy.
        rewrite orb_comm, (Z.eqb_sym x c) in Hx. congruence.
Qed.

(** Text bytes are not zero. *)
Notation text_ok := (Forall (fun x : Z => x <> 0)).

Lemma at0_zero l : text_ok l -> (at0 l =? 0) = true <-> l = [].
Proof.
  intros H. destruct H as [|x l Hx _]; [done|]. cbn. rewrite Z.eqb_eq. naive_solver.
Qed.

Lemma matchhere_iff re text :
  text_ok re -> text_ok text ->
  matchhere re text = true <->
  exists u post, text = u ++ post /\ denotes (body re).1 u /\ ((body re).2 = true -> post = []).
Proof.
  remember (length re) as n eqn:Hn. assert (Hle : (length re <= n)%nat) by lia. clear Hn.
  revert re text Hle. induction n as [|n IH]; intros re text Hle Hre Ht.
  { destruct re; [|cbn in Hle; lia]. cbn. split; [|done]. intros _. exists [], text. by repeat constructor. }
  destruct Hre as [|c re' Hc Hre'].
  { cbn. split; [|done]. intros _. exists [], text. by repeat constructor. }
  cbn [matchhere body length] in *. destruct (Z.eqb_spec (at0 re') STAR) as [Hs|Hs].
  - destruct Hre' as [|c' re'' Hc' Hre'']; [done|]. cbn [length] in Hle.
    rewrite matchstar_iff. destruct (body re'') as [r b] eqn:Eb. cbn [fst snd].
    split.
    + intros (u & w & -> & Hu & Hm). apply Forall_app in Ht as [_ Hw].
      apply IH in Hm as (u' & post & -> & Hd & Hp); [|lia|done|done]. rewrite Eb in Hd, Hp.
      exists (u ++ u'), post. split; [by rewrite app_assoc|]. split; [by constructor|done].
    + intros (u & post & -> & Hd & Hp). inversion Hd as [| |a r' u1 w1 Hu Hw]; subst.
      exists u1, (w1 ++ post). split; [by rewrite app_assoc|]. split; [done|].
      apply IH; [lia|done| |].
      * apply Forall_app in Ht as [Ht1 Ht2]. apply Forall_app in Ht1 as [_ Ht1]. by apply Forall_app.
      * rewrite Eb. by exists w1, post.
  - destruct ((c =? DOLLAR) && (at0 re' =? 0)) eqn:Hd.
    + cbn [fst snd]. rewrite at0_zero by done. split.
      * intros ->. exists [], []. by repeat constructor.
      * intros (u & post & -> & Hu & Hp). inversion Hu. by rewrite Hp.
    + destruct (body re') as [r b] eqn:Eb. cbn [fst snd]. destruct Ht as [|x text' Hx Ht'].
      * split; [done|]. intros (u & post & E & Hu & _). inversion Hu; subst. done.
      * destruct ((c =? DOT) || (c =? x)) eqn:Hm.
        -- rewrite IH by (done || lia). rewrite Eb. split.
           ++ intros (u & post & -> & Hu & Hp). exists (x :: u), post. split; [done|]. split; [|done].
              constructor; [by apply atom_of_ok|done].
           ++ intros (u & post & E & Hu & Hp). inversion Hu as [|a r' x' u' Hx' Hu'|]; subst. cbn in E. simplify_eq.
              by exists u', post.
        -- split; [done|]. intros (u & post & E & Hu & _). inversion Hu as [|a r' x' u' Hx' Hu'|]; subst.
           cbn in E. simplify_eq. apply atom_of_ok in Hx'. congruence.
Qed.

Lemma match_from_iff re text :
  match_from re text = true <-> exists pre rest, text = pre ++ rest /\ matchhere re rest = true.
Proof.
  induction text as [|x text IH]; cbn [match_from].
  - destruct (matchhere re []) eqn:E.
    + split; [|done]. intros _. by exists [], [].
    + split; [done|]. intros (pre & rest & Ht & Hm). symmetry in Ht. apply app_eq_nil in Ht as [_ ->]. congruence.
  - destruct (matchhere re (x :: text)) eqn:E.
    + split; [|done]. intros _. by exists [], (x :: text).
    + rewrite IH. split.
      * intros (pre & rest & -> & Hm). by exists (x :: pre), rest.
      * intros ([|y pre] & rest & Ht & Hm); cbn in Ht; [congruence|]. injection Ht as <- ->. by exists pre, rest.
Qed.

(** C23. The matcher decides the language of the pattern: [match] succeeds
    exactly when some part of the text is a word of the pattern, a part that
    begins at the start of the text after [^] and ends at its end before a
    final [$]. *)
Theorem match_decides (re text : list Z) :
  text_ok re -> text_ok text -> match_ re text = true <-> matches (parse re) text.
Proof.
  intros Hre Ht. unfold match_, matches, parse. destruct (at0 re =? CARET).
  - assert (Hre' : text_ok (tail re)) by (by destruct Hre). rewrite matchhere_iff by done.
    destruct (body (tail re)) as [r b]. cbn. split.
    + intros (u & post & -> & Hd & Hp). by exists [], u, post.
    + intros (pre & u & post & -> & Hd & Hpre & Hp). rewrite Hpre by done. by exists u, post.
  - rewrite match_from_iff. destruct (body re) as [r b] eqn:Eb. cbn. split.
    + intros (pre & rest & -> & Hm). apply Forall_app in Ht as [_ Hr].
      apply matchhere_iff in Hm as (u & post & -> & Hd & Hp); [|done..]. rewrite Eb in Hd, Hp.
      by exists pre, u, post.
    + intros (pre & u & post & -> & Hd & _ & Hp). exists pre, (u ++ post). split; [done|].
      apply Forall_app in Ht as [_ Hr]. apply matchhere_iff; [done|done|]. rewrite Eb. by exists u, post.
Qed.

(** ** The lines that are printed *)

(** The complete lines of a text, and what follows the last newline. *)
Fixpoint lines_of (t : list Z) : list (list Z) * list Z :=
  match t with
  | [] => ([], [])
  | x :: t =>
      let '(ls, r) := lines_of t in
      if x =? NEWLINE then ([] :: ls, r)
      else match ls with
           | [] => ([], x :: r)
           | l :: ls => ((x :: l) :: ls, r)
           end
  end.

(** The lines up to the first one that does not fit into the buffer. *)
Fixpoint fitting (ls : list (list Z)) : list (list Z) :=
  match ls with
  | [] => []
  | l :: ls => if (length l <=? BUFSIZE - 2)%nat then l :: fitting ls else []
  end.

Definition unlines (ls : list (list Z)) : list Z := concat ((fun l => l ++ [NEWLINE]) <$> ls).
Definition wanted (pattern : list Z) (ls : list (list Z)) : list Z :=
  unlines (filter (fun l => match_ pattern l = true) ls).

Notation line_ok := (Forall (fun x : Z => x <> 0 /\ x <> NEWLINE)).

Lemma unlines_cons l ls : unlines (l :: ls) = l ++ NEWLINE :: unlines ls.
Proof. unfold unlines. cbn. by rewrite <- app_assoc. Qed.

Lemma wanted_app pattern ls1 ls2 : wanted pattern (ls1 ++ ls2) = wanted pattern ls1 ++ wanted pattern ls2.
Proof. unfold wanted, unlines. by rewrite list.filter_app, fmap_app, concat_app. Qed.

Lemma lines_of_spec t : text_ok t ->
  t = unlines (lines_of t).1 ++ (lines_of t).2 /\ Forall line_ok (lines_of t).1 /\ line_ok (lines_of t).2.
Proof.
  induction 1 as [|x t Hx Ht (E & H1 & H2)]; [by repeat constructor|]. cbn [lines_of].
  destruct (lines_of t) as [ls r]. cbn [fst snd] in *. destruct (Z.eqb_spec x NEWLINE) as [->|Hne].
  - cbn [fst snd]. split; [rewrite unlines_cons; cbn; by rewrite <- E|]. by repeat constructor.
  - destruct ls as [|l ls]; cbn [fst snd].
    + split; [cbn in *; by rewrite E at 1|]. by repeat constructor.
    + apply list.Forall_cons in H1 as [Hl H1]. split.
      * rewrite unlines_cons in *. cbn. by rewrite E at 1.
      * by repeat constructor.
Qed.

Lemma lines_of_piece r t : line_ok r ->
  lines_of (r ++ t) = match (lines_of t).1 with
                      | [] => ([], r ++ (lines_of t).2)
                      | l :: ls => ((r ++ l) :: ls, (lines_of t).2)
                      end.
Proof.
  induction 1 as [|x r [Hx Hn] Hr IH]; cbn [app lines_of].
  - destruct (lines_of t) as [[|l ls] r']; done.
  - rewrite IH. destruct (lines_of t) as [[|l ls] r']; cbn [fst snd];
      by rewrite (proj2 (Z.eqb_neq x NEWLINE) Hn).
Qed.

Lemma lines_of_unlines ls t : Forall line_ok ls ->
  lines_of (unlines ls ++ t) = (ls ++ (lines_of t).1, (lines_of t).2).
Proof.
  induction 1 as [|l ls Hl _ IH]; [cbn; by destruct (lines_of t)|].
  rewrite unlines_cons, <- app_assoc. rewrite (lines_of_piece l) by done.
  cbn [app lines_of]. rewrite IH. cbn. by rewrite app_nil_r.
Qed.

Lemma fitting_app ls1 ls2 :
  Forall (fun l => length l <= BUFSIZE - 2)%nat ls1 -> fitting (ls1 ++ ls2) = ls1 ++ fitting ls2.
Proof.
  induction 1 as [|l ls Hl _ IH]; [done|]. cbn [app fitting].
  by rewrite (proj2 (Nat.leb_le _ _) Hl), IH.
Qed.

(** ** The inner loop *)

Lemma strchr_line l more : line_ok l -> strchr (l ++ NEWLINE :: more) NEWLINE = Done (Some (length l)).
Proof.
  induction 1 as [|x l [Hx Hn] _ IH]; [done|]. cbn [app strchr length].
  by rewrite (proj2 (Z.eqb_neq x _) Hn), (proj2 (Z.eqb_neq x _) Hx), IH.
Qed.

Lemma strchr_none l more : line_ok l -> strchr (l ++ 0 :: more) NEWLINE = Done None.
Proof.
  induction 1 as [|x l [Hx Hn] _ IH]; [done|]. cbn [app strchr].
  by rewrite (proj2 (Z.eqb_neq x _) Hn), (proj2 (Z.eqb_neq x _) Hx), IH.
Qed.

Lemma until_nul_line l more : line_ok l -> until_nul (l ++ 0 :: more) = Done l.
Proof.
  induction 1 as [|x l [Hx _] _ IH]; [done|]. cbn [app until_nul].
  by rewrite (proj2 (Z.eqb_neq x _) Hx), IH.
Qed.

Lemma insert_in_drop (buf : list Z) p l x y more :
  drop p buf = l ++ x :: more -> drop p (<[(p + length l)%nat := y]> buf) = l ++ y :: more.
Proof.
  intros E. rewrite drop_insert_ge by lia. rewrite E.
  replace (p + length l - p)%nat with (length l + 0)%nat by lia. by rewrite insert_app_r.
Qed.

Lemma drop_after (buf : list Z) p l x more :
  drop p buf = l ++ x :: more -> drop (S (p + length l)) buf = more.
Proof.
  intros E. replace (S (p + length l)) with (p + S (length l))%nat by lia.
  rewrite <- drop_drop, E. rewrite drop_app_ge by lia.
  by replace (S (length l) - length l)%nat with 1%nat by lia.
Qed.

Lemma store_Done buf i v : (i < length buf)%nat -> store buf i v = Done (<[i := v]> buf).
Proof. intros H. unfold store. by rewrite (proj2 (Nat.ltb_lt _ _) H). Qed.

Lemma copy_in_Done buf i l : (i + length l <= length buf)%nat -> copy_in buf i l = Done (list_inserts i l buf).
Proof. intros H. unfold copy_in. by rewrite (proj2 (Nat.leb_le _ _) H). Qed.

Lemma line_step_line pattern buf p out l more :
  line_ok l -> drop p buf = l ++ NEWLINE :: more ->
  exists buf', line_step pattern (buf, p, out) = Done (inl (buf', S (p + length l), out ++ wanted pattern [l])) /\
    length buf' = length buf /\ drop (S (p + length l)) buf' = more.
Proof.
  intros Hl E.
  assert (Hlen : (p + length l < length buf)%nat).
  { apply (f_equal length) in E. rewrite length_drop, length_app in E. cbn in E. lia. }
  unfold line_step. rewrite E, (strchr_line l more) by done. cbn [mbind run_bind].
  cbv zeta. rewrite (store_Done buf) by done. cbn [mbind run_bind].
  assert (E0 := insert_in_drop buf p l _ 0 more E). rewrite E0, (until_nul_line l more) by done.
  cbn [mbind run_bind]. unfold wanted. rewrite filter_cons, filter_nil.
  destruct (match_ pattern l) eqn:Hm.
  - rewrite decide_True, store_Done by (done || by rewrite length_insert). cbn [mbind run_bind].
    assert (E1 := insert_in_drop _ p l _ NEWLINE more E0). eexists. split; [|split].
    + rewrite E1. do 4 f_equal. rewrite unlines_cons. replace (S (p + length l) - p)%nat with (length l + 1)%nat by lia.
      by rewrite take_app_add.
    + by rewrite !length_insert.
    + by apply (drop_after _ p l NEWLINE).
  - rewrite decide_False by done. eexists. split; [by rewrite app_nil_r|].
    split; [by rewrite length_insert|]. by apply (drop_after _ p l 0).
Qed.

Lemma line_loop pattern ls fuel buf p out rest junk :
  Forall line_ok ls -> line_ok rest -> drop p buf = unlines ls ++ rest ++ 0 :: junk ->
  (length ls < fuel)%nat ->
  exists buf', iter fuel (line_step pattern) (buf, p, out) =
      Done (buf', (p + length (unlines ls))%nat, out ++ wanted pattern ls) /\
    length buf' = length buf /\ drop (p + length (unlines ls)) buf' = rest ++ 0 :: junk.
Proof.
  intros Hls Hrest. revert fuel buf p out. induction Hls as [|l ls Hl _ IH]; intros fuel buf p out E Hf.
  - destruct fuel as [|fuel]; [cbn in Hf; lia|]. cbn [iter]. unfold line_step. rewrite E. cbn [unlines fmap list_fmap concat app].
    rewrite strchr_none by done. exists buf. cbn [length]. rewrite app_nil_r, Nat.add_0_r. done.
  - destruct fuel as [|fuel]; [cbn in Hf; lia|]. cbn [length] in Hf.
    rewrite unlines_cons, <- app_assoc in E. cbn [app] in E.
    destruct (line_step_line pattern buf p out l _ Hl E) as (buf1 & E1 & L1 & D1).
    destruct (IH fuel buf1 (S (p + length l)) (out ++ wanted pattern [l]) D1 ltac:(lia)) as (buf2 & E2 & L2 & D2).
    exists buf2. cbn [iter]. rewrite E1. cbn [mbind run_bind]. rewrite E2.
    rewrite unlines_cons, length_app. cbn [length].
    replace (p + (length l + S (length (unlines ls))))%nat with (S (p + length l) + length (unlines ls))%nat by lia.
    split; [by rewrite <- app_assoc, <- wanted_app|]. split; [congruence|done].
Qed.

(** ** The outer loop *)

Lemma line_ok_text l : line_ok l -> text_ok l.
Proof. intros H. eapply Forall_weaken; [exact H|]. by intros x [? _]. Qed.

Lemma read_piece k i d i' : read k i = (d, i') ->
  pending i = d ++ pending i' /\ (length d <= k)%nat /\ ((0 < k)%nat -> pending i <> [] -> (0 < length d)%nat).
Proof.
  unfold read. intros [= <- <-]. cbn. split; [by rewrite take_drop|]. rewrite length_take. split; [lia|].
  intros Hk Hp. destruct (pending i); [done|]. cbn [length]. lia.
Qed.

Lemma lines_of_short t : text_ok t -> (length t < BUFSIZE)%nat ->
  Forall (fun l => length l <= BUFSIZE - 2)%nat (lines_of t).1.
Proof.
  intros Ht Hl. destruct (lines_of_spec t Ht) as (E & _ & _). apply list.Forall_forall. intros l Hin.
  apply list_elem_of_split in Hin as (l1 & l2 & Es). rewrite Es in E. apply (f_equal length) in E.
  unfold unlines in E. rewrite fmap_app, concat_app, fmap_cons, !length_app in E. cbn in E.
  rewrite !length_app in E. cbn in E. lia.
Qed.

(** What one iteration does with the bytes the buffer holds. *)
Lemma grep_fills pattern buf m d :
  length buf = BUFSIZE -> line_ok (take m buf) -> text_ok d -> (0 < length d)%nat ->
  (m + length d < BUFSIZE)%nat ->
  forall out i k, read (BUFSIZE - m - 1) k = (d, i) ->
  let c := take m buf ++ d in
  exists buf', grep_step pattern (buf, m, k, out) =
      Done (inl (buf', length (lines_of c).2, i, out ++ wanted pattern (lines_of c).1)) /\
    length buf' = BUFSIZE /\ take (length (lines_of c).2) buf' = (lines_of c).2.
Proof.
  intros Hbuf Hm Hd Hd0 Hle out i k Hr c. unfold grep_step. rewrite Hr.
  rewrite (proj2 (Nat.eqb_neq _ _)) by lia. rewrite copy_in_Done by lia. cbn [mbind run_bind]. cbv zeta.
  rewrite store_Done by (rewrite length_inserts; lia). cbn [mbind run_bind].
  set (b1 := <[(m + length d)%nat := 0]> (list_inserts m d buf)).
  assert (L1 : length b1 = BUFSIZE) by (unfold b1; by rewrite length_insert, length_inserts).
  assert (Lm : length (take m buf) = m) by (rewrite length_take; lia).
  assert (Hc : text_ok c) by (apply Forall_app; split; [by apply line_ok_text|done]).
  destruct (lines_of_spec c Hc) as (Ec & Hls & Hrest). destruct (lines_of c) as [ls rest]. cbn [fst snd] in *.
  assert (Eb : exists junk, b1 = c ++ 0 :: junk).
  { exists (drop (S (m + length d)) b1). rewrite <- (take_drop (m + length d) b1) at 1. f_equal.
    - unfold b1. rewrite take_insert_ge by lia. apply list_eq. intros j. unfold c.
      destruct (decide (j < m + length d)%nat) as [Hj|Hj].
      + rewrite lookup_take_lt by done. destruct (decide (j < m)%nat) as [Hjm|Hjm].
        * rewrite list_lookup_inserts_lt, lookup_app_l, lookup_take_lt by lia. done.
        * rewrite list_lookup_inserts, lookup_app_r by lia. by rewrite Lm.
      + rewrite lookup_take_ge, lookup_ge_None_2; [done| |lia]. rewrite length_app. lia.
    - apply drop_S. unfold b1. apply list_lookup_insert_eq. rewrite length_inserts. lia. }
  destruct Eb as [junk Eb].
  assert (Hlen : (length (unlines ls) + length rest)%nat = (m + length d)%nat).
  { rewrite <- length_app, <- Ec. unfold c. rewrite length_app. lia. }
  assert (Hn : (length ls <= length (unlines ls))%nat).
  { clear. induction ls as [|l ls IH]; [done|]. rewrite unlines_cons, length_app. cbn [length]. lia. }
  destruct (line_loop pattern ls (S BUFSIZE) b1 0 out rest junk) as (b2 & E2 & L2 & D2); [done|done| |lia|].
  { rewrite drop_0, Eb, Ec. by rewrite <- app_assoc. }
  rewrite E2. cbn [mbind run_bind Nat.add]. rewrite (proj2 (Nat.ltb_lt 0 _)) by lia.
  replace (m + length d - length (unlines ls))%nat with (length rest) by lia.
  cbn [Nat.add] in D2. rewrite D2, take_app_length. rewrite copy_in_Done by lia. cbn [mbind run_bind].
  eexists. split; [done|]. split; [rewrite length_inserts; congruence|].
  apply list_eq. intros j. destruct (decide (j < length rest)%nat) as [Hj|Hj].
  - rewrite lookup_take_lt, list_lookup_inserts by lia. f_equal. lia.
  - by rewrite lookup_take_ge, lookup_ge_None_2 by lia.
Qed.

Lemma grep_loop pattern fuel buf m i out :
  length buf = BUFSIZE -> (m < BUFSIZE)%nat -> line_ok (take m buf) -> text_ok (pending i) ->
  (length (pending i) < fuel)%nat ->
  iter fuel (grep_step pattern) (buf, m, i, out) =
  Done (out ++ wanted pattern (fitting (lines_of (take m buf ++ pending i)).1)).
Proof.
  remember (length (pending i)) as n eqn:Hn. revert fuel buf m i out Hn.
  induction (lt_wf n) as [n _ IH]. intros fuel buf m i out -> Hbuf Hm Hl Hp Hf.
  destruct fuel as [|fuel]; [lia|]. cbn [iter].
  assert (Lm : length (take m buf) = m) by (rewrite length_take; lia).
  destruct (read (BUFSIZE - m - 1) i) as [d i'] eqn:Hr. assert (Hr' := Hr).
  apply read_piece in Hr' as (Ep & Hd & Hd0).
  destruct (decide (0 < length d)%nat) as [Hpos|Hzero].
  - rewrite Ep in Hp. apply Forall_app in Hp as [Hpd Hpi].
    destruct (grep_fills pattern buf m d Hbuf Hl Hpd Hpos ltac:(lia) out i' i Hr) as (b' & -> & Lb & Eb).
    cbn [mbind run_bind]. set (c := take m buf ++ d) in *.
    assert (Hc : text_ok c) by (apply Forall_app; split; [by apply line_ok_text|done]).
    destruct (lines_of_spec c Hc) as (Ec & Hls & Hrest).
    assert (Lc : length c = (m + length d)%nat) by (unfold c; rewrite length_app; lia).
    assert (Hlr : (length (lines_of c).2 <= m + length d)%nat).
    { assert (E := f_equal length Ec). rewrite length_app in E. lia. }
    assert (Hlt : (length (pending i') < length (pending i))%nat) by (rewrite Ep, length_app; lia).
    rewrite (IH _ Hlt) by (done || lia || by rewrite Eb). rewrite Eb, <- app_assoc.
    f_equal. f_equal. rewrite <- wanted_app. f_equal.
    assert (Et : take m buf ++ pending i = unlines (lines_of c).1 ++ (lines_of c).2 ++ pending i').
    { rewrite Ep, !app_assoc. f_equal. exact Ec. }
    rewrite Et, lines_of_unlines by done. cbn [fst].
    rewrite fitting_app; [done|]. apply lines_of_short; [done|]. lia.
  - unfold grep_step. rewrite Hr. rewrite (proj2 (Nat.eqb_eq (length d) 0)) by lia. cbn [mbind run_bind].
    assert (Hw : fitting (lines_of (take m buf ++ pending i)).1 = []); [|rewrite Hw; by rewrite app_nil_r].
    rewrite lines_of_piece by done. destruct (lines_of (pending i)).1 as [|l ls] eqn:El; [done|].
    cbn [fst fitting]. assert (Hne : pending i <> []) by (intros E; rewrite E in El; done).
    assert (Hk : (BUFSIZE - m - 1 = 0)%nat) by (destruct (decide (0 < BUFSIZE - m - 1)%nat); [|lia]; exfalso; auto).
    rewrite (proj2 (Nat.leb_gt _ _)); [done|]. rewrite length_app. unfold BUFSIZE in *. lia.
Qed.

(** C24. What [grep] prints does not depend on how [read] cuts the input into
    pieces: for every text without zero bytes and every sequence of sizes it
    terminates, without an access outside its buffer, and has printed exactly
    the lines that match, in order, up to the first line that does not fit
    into the buffer with its newline.  That line, everything after it, and
    text after the last newline are not searched. *)
Theorem grep_prints_matching_lines (pattern text : list Z) (sz : list nat) (fuel : nat) :
  text_ok text -> (length text < fuel)%nat ->
  grep fuel pattern (mkInput text sz) = Done (wanted pattern (fitting (lines_of text).1)).
Proof.
  intros Ht Hf. unfold grep. rewrite grep_loop; [done|apply length_replicate|unfold BUFSIZE; lia|constructor|done|done].
Qed.

(** The pattern [a*b$]. *)
Lemma match_decides_witness : matches (parse [97; 42; 98; 36]) [120; 97; 97; 98].
Proof.
  apply (match_decides [97; 42; 98; 36] [120; 97; 97; 98]).
  - repeat constructor; discriminate.
  - repeat constructor; discriminate.
  - vm_compute. reflexivity.
Defined.

(** Three lines, read in pieces of 1, 2 and 5 bytes. *)
Lemma grep_prints_matching_lines_witness :
  grep 12 [94; 97] (mkInput [97; 98; 10; 98; 97; 10; 97; 10; 97] [0%nat; 1%nat; 4%nat]) =
  Done [97; 98; 10; 97; 10].
Proof.
  rewrite (grep_prints_matching_lines [94; 97] [97; 98; 10; 98; 97; 10; 97; 10; 97] [0%nat; 1%nat; 4%nat] 12).
  - vm_compute. reflexivity.
  - repeat constructor; discriminate.
  - cbn. lia.
Defined.
