(* ===== verification/Umalloc.v ===== *)
(** * The memory allocator of user programs

    Model of [user/umalloc.c].  A header is a cell of 16 bytes, the link
    [s.ptr] and the size [s.size] in cells; the memory of the allocator maps
    the address of each cell to what a header there would hold.  What [sbrk]
    answers, and so what else the program does with it, is a list. *)
From stdpp Require Import base tactics list numbers gmap.
From S2P Require Import Prelude.

Open Scope Z_scope.

Record heap := mkHeap {
  cells : gmap Z (Z * Z);             (* ptr, size *)
  freep : Z;
  grants : list (option Z)            (* the results of [sbrk], [None] for -1 *)
}.

#[global] Instance heap_settable : Settable heap := fun h => mkHeap (cells h) (freep h) (grants h).

(** A run of the program on its heap. *)
Definition H (A : Type) : Type := heap -> run (A * heap).

#[global] Instance H_ret : MRet H := fun _ a h => Done (a, h).
#[global] Instance H_bind : MBind H := fun _ _ k m h =>
  match m h with Done (a, h') => k a h' | Undef u => Undef u | OutOfFuel => OutOfFuel end.

Fixpoint hloop {S A} (fuel : nat) (step : S -> H (S + A)) (s : S) : H A :=
  match fuel with
  | O => fun _ => OutOfFuel
  | Datatypes.S n => r ← step s; match r with inl s' => hloop n step s' | inr a => mret a end
  end.

Definition HEADER : Z := 16.

(** [p->s.ptr] and [p->s.size]. *)
Definition cell (p : Z) : H (Z * Z) := fun h => match cells h !! p with Some c => Done (c, h) | None => Undef NullDeref end.
Definition get_ptr (p : Z) : H Z := c ← cell p; mret (fst c).
Definition get_size (p : Z) : H Z := c ← cell p; mret (snd c).
Definition update (f : heap -> heap) : H unit := fun h => Done (tt, f h).
Definition set_ptr (p v : Z) : H unit := c ← cell p; update (fun h => h <| cells ::= <[p := (v, snd c)]> |>).
Definition set_size (p v : Z) : H unit := c ← cell p; update (fun h => h <| cells ::= <[p := (fst c, v)]> |>).

Definition get_freep : H Z := fun h => Done (freep h, h).
Definition set_freep (p : Z) : H unit := update (fun h => h <| freep := p |>).

(** The cells of [n] bytes from [p] on, cleared. *)
Definition fresh (p : Z) (n : nat) : gmap Z (Z * Z) := list_to_map ((fun i => (p + HEADER * Z.of_nat i, (0, 0))) <$> seq 0 n).

Definition sbrk (n : Z) : H Z := fun h =>
  match grants h with
  | Some p :: g => Done (p, h <| cells ::= fun m => fresh p (Z.to_nat (n / HEADER)) ∪ m |> <| grants := g |>)
  | None :: g => Done (-1, h <| grants := g |>)
  | [] => Done (-1, h)
  end.

Section umalloc.
Context (fuel : nat) (base : Z).

(** The loop of [free] that looks for the place of [bp]. *)
Definition place_step (bp p : Z) : H (Z + Z) :=
  next ← get_ptr p;
  mret (if (p <? bp) && (bp <? next) then inr p
        else if (next <=? p) && ((p <? bp) || (bp <? next)) then inr p
        else inl next).

(** Merge [bp] with the block after it, or link it to that. *)
Definition join_right (bp p : Z) : H unit :=
  bsize ← get_size bp;
  next ← get_ptr p;
  if bp + HEADER * bsize =? next then
    nsize ← get_size next;
    set_size bp (u32 (bsize + nsize));;
    nnext ← get_ptr next;
    set_ptr bp nnext
  else set_ptr bp next.

(** Merge the block before [bp] with it, or link that to it. *)
Definition join_left (bp p : Z) : H unit :=
  psize ← get_size p;
  if p + HEADER * psize =? bp then
    bsize ← get_size bp;
    set_size p (u32 (psize + bsize));;
    bnext ← get_ptr bp;
    set_ptr p bnext
  else set_ptr p bp.

Definition free (ap : Z) : H unit :=
  let bp := ap - HEADER in
  p ← get_freep;
  p ← hloop fuel (place_step bp) p;
  join_right bp p;;
  join_left bp p;;
  set_freep p.

Definition morecore (nu : Z) : H Z :=
  let nu := if nu <? 4096 then 4096 else nu in
  p ← sbrk (i32 (u64 (nu * HEADER)));
  if p =? -1 then mret 0
  else
    set_size p nu;;
    free (p + HEADER);;
    get_freep.

(** The loop of [malloc]; the loop state is [prevp] and [p]. *)
Definition malloc_step (nunits : Z) (st : Z * Z) : H (Z * Z + Z) :=
  let '(prevp, p) := st in
  size ← get_size p;
  if nunits <=? size then
    p ← (if size =? nunits then next ← get_ptr p; set_ptr prevp next;; mret p
         else
           set_size p (u32 (size - nunits));;
           size ← get_size p;
           let p := p + HEADER * size in
           set_size p nunits;;
           mret p);
    set_freep prevp;;
    mret (inr (p + HEADER))
  else
    f ← get_freep;
    if p =? f then
      p ← morecore nunits;
      if p =? 0 then mret (inr 0) else next ← get_ptr p; mret (inl (p, next))
    else next ← get_ptr p; mret (inl (p, next)).

Definition malloc (nbytes : Z) : H Z :=
  let nunits := u32 ((nbytes + HEADER - 1) / HEADER + 1) in
  prevp ← get_freep;
  prevp ← (if prevp =? 0 then
             set_freep base;; set_ptr base base;; set_size base 0;; mret base
           else mret prevp);
  p ← get_ptr prevp;
  hloop fuel (malloc_step nunits) (prevp, p).

End umalloc.
