(* ===== verification/UmallocRep.v ===== *)
(** * What the allocator of user programs promises

    The free blocks form a ring of headers in the order of their addresses,
    which starts at the header [base].  [free] puts a block into its place and
    merges it with its neighbours; [malloc] takes a block out of the first free
    block that is large enough. *)
From stdpp Require Import base tactics list numbers gmap.
From S2P Require Import Prelude Umalloc.

Open Scope Z_scope.

(** ** Rings of headers *)

(** A block: the address of its header, and its size in cells. *)
Notation node := (Z * Z)%type.
Definition stop_of (x : node) : Z := x.1 + HEADER * x.2.

Definition head_addr (l : list node) (e : Z) : Z := match l with x :: _ => x.1 | [] => e end.

(** The headers of [l] are linked one to the next, the last to [e]. *)
Fixpoint seg (m : gmap Z (Z * Z)) (l : list node) (e : Z) : Prop :=
  match l with
  | [] => True
  | x :: l => m !! x.1 = Some (head_addr l e, x.2) /\ seg m l e
  end.

Definition ring (m : gmap Z (Z * Z)) (l : list node) : Prop := seg m l (head_addr l 0).

Lemma head_addr_app l1 l2 e : head_addr (l1 ++ l2) e = head_addr l1 (head_addr l2 e).
Proof. by destruct l1. Qed.

Lemma seg_app m l1 l2 e : seg m (l1 ++ l2) e <-> seg m l1 (head_addr l2 e) /\ seg m l2 e.
Proof. induction l1 as [|x l1 IH]; cbn [seg app]; [tauto|]. rewrite IH, head_addr_app. tauto. Qed.

Lemma ring_rotate m l1 l2 : ring m (l1 ++ l2) -> ring m (l2 ++ l1).
Proof.
  destruct l1 as [|x l1], l2 as [|y l2]; unfold ring; rewrite ?app_nil_r; try done.
  rewrite !seg_app, !head_addr_app. cbn [head_addr]. tauto.
Qed.

Lemma seg_frame m m' l e : (forall x, x ∈ l -> m' !! x.1 = m !! x.1) -> seg m l e -> seg m' l e.
Proof.
  induction l as [|x l IH]; intros Hm H; [done|]. cbn [seg] in *. destruct H as [H1 H2]. split; [rewrite Hm; [done|left]|].
  apply IH; [|done]. intros y Hy. apply Hm. by right.
Qed.

Lemma seg_insert m l e a c : a ∉ l.*1 -> seg m l e -> seg (<[a := c]> m) l e.
Proof.
  intros Ha. apply seg_frame. intros x Hx. apply lookup_insert_ne. intros ->. apply Ha, list_elem_of_fmap. by exists x.
Qed.

(** ** Runs *)

Lemma h_bind {A B} (m : H A) (k : A -> H B) h a h' : m h = Done (a, h') -> (m ≫= k) h = k a h'.
Proof. intros E. unfold mbind, H_bind. by rewrite E. Qed.

Lemma get_ptr_ok p h c : cells h !! p = Some c -> get_ptr p h = Done (c.1, h).
Proof. intros E. unfold get_ptr, cell. erewrite h_bind by (rewrite E; reflexivity). done. Qed.

Lemma get_size_ok p h c : cells h !! p = Some c -> get_size p h = Done (c.2, h).
Proof. intros E. unfold get_size, cell. erewrite h_bind by (rewrite E; reflexivity). done. Qed.

Definition with_cell (p : Z) (c : Z * Z) (h : heap) : heap := h <| cells ::= <[p := c]> |>.

Lemma set_ptr_ok p v h c : cells h !! p = Some c -> set_ptr p v h = Done (tt, with_cell p (v, c.2) h).
Proof. intros E. unfold set_ptr, cell. erewrite h_bind by (rewrite E; reflexivity). done. Qed.

Lemma set_size_ok p v h c : cells h !! p = Some c -> set_size p v h = Done (tt, with_cell p (c.1, v) h).
Proof. intros E. unfold set_size, cell. erewrite h_bind by (rewrite E; reflexivity). done. Qed.

(** ** The place of a block *)

(** The loop of [free] ends at [p], whose successor is [next]. *)
Definition stops (bp p next : Z) : bool := ((p <? bp) && (bp <? next)) || ((next <=? p) && ((p <? bp) || (bp <? next))).

Fixpoint passes (bp : Z) (l : list node) (e : Z) : Prop :=
  match l with [] => True | x :: l => stops bp x.1 (head_addr l e) = false /\ passes bp l e end.

Lemma passes_app bp l1 l2 e : passes bp (l1 ++ l2) e <-> passes bp l1 (head_addr l2 e) /\ passes bp l2 e.
Proof. induction l1 as [|x l1 IH]; cbn [passes app]; [tauto|]. rewrite IH, head_addr_app. tauto. Qed.

Lemma place_step_ok bp x next h : cells h !! x = Some next ->
  place_step bp x h = Done (if stops bp x next.1 then inr x else inl next.1, h).
Proof.
  intros E. unfold place_step. erewrite h_bind by (apply get_ptr_ok, E). unfold stops, mret, H_ret.
  by destruct ((x <? bp) && (bp <? next.1)), ((next.1 <=? x) && ((x <? bp) || (bp <? next.1))).
Qed.

Lemma place_walk bp h a s : forall l rest e fuel, seg (cells h) (l ++ (a, s) :: rest) e -> passes bp l a ->
  stops bp a (head_addr rest e) = true -> (length l < fuel)%nat ->
  hloop fuel (place_step bp) (head_addr (l ++ (a, s) :: rest) e) h = Done (a, h).
Proof.
  induction l as [|x l IH]; intros rest e [|fuel] Hs Hp Hstop Hf; cbn [length] in Hf; try lia; cbn [hloop].
  - cbn [app head_addr seg fst snd] in *. destruct Hs as [Hs _]. erewrite h_bind by (apply place_step_ok, Hs). cbn [fst]. by rewrite Hstop.
  - cbn [app head_addr seg passes fst snd] in *. destruct Hs as [Hx Hs], Hp as [Hx' Hp]. erewrite h_bind by (apply place_step_ok, Hx).
    cbn [fst]. rewrite head_addr_app. cbn [head_addr fst]. rewrite Hx'. rewrite <- (IH rest e fuel) by (done || lia).
    by rewrite head_addr_app.
Qed.

(** ** Ordered blocks *)

Definition LIM : Z := 2 ^ 36.

(** The blocks of [l] lie above [lo] in the order of their addresses, with
    gaps between them. *)
Fixpoint ordered (lo : Z) (l : list node) : Prop :=
  match l with
  | [] => lo <= LIM
  | x :: l => lo < x.1 /\ 0 < x.2 /\ ordered (stop_of x) l
  end.

Definition within (x : node) (u : Z) : Prop := x.1 <= u < stop_of x.

(** The addresses in the blocks of [l]. *)
Fixpoint covers (l : list node) (u : Z) : Prop :=
  match l with [] => False | x :: l => within x u \/ covers l u end.

(** Where a list of blocks that starts above [lo] ends. *)
Fixpoint endof (lo : Z) (l : list node) : Z := match l with [] => lo | x :: l => endof (stop_of x) l end.

Lemma covers_app l1 l2 u : covers (l1 ++ l2) u <-> covers l1 u \/ covers l2 u.
Proof. induction l1 as [|x l1 IH]; cbn [covers app]; [tauto|]. rewrite IH. tauto. Qed.

Lemma covers_elem l u : covers l u <-> exists x, x ∈ l /\ within x u.
Proof.
  induction l as [|x l IH]; cbn [covers].
  - split; [done|]. intros (x & Hx & _). by apply elem_of_nil in Hx.
  - rewrite IH. split.
    + intros [H|(y & Hy & H)]; [exists x; split; [left|done]|exists y; split; [by right|done]].
    + intros (y & Hy & H). apply elem_of_cons in Hy as [->|Hy]; [by left|right; by exists y].
Qed.

Lemma ordered_le lo l : ordered lo l -> lo <= LIM.
Proof. revert lo. induction l as [|x l IH]; intros lo H; [done|]. cbn [ordered] in H. destruct H as (H1 & H2 & H3). apply IH in H3. unfold stop_of, HEADER in *. lia. Qed.

Lemma ordered_app lo l1 l2 : ordered lo (l1 ++ l2) <-> ordered lo l1 /\ ordered (endof lo l1) l2.
Proof.
  revert lo. induction l1 as [|x l1 IH]; intros lo; cbn [ordered app endof]; [|rewrite IH; tauto].
  split; [|tauto]. intros H. split; [by eapply ordered_le|done].
Qed.

Lemma ordered_weaken lo lo' l : lo' <= lo -> ordered lo l -> ordered lo' l.
Proof. destruct l as [|x l]; cbn [ordered]; [lia|]. intros H (H1 & H2 & H3). split; [lia|done]. Qed.

Lemma endof_snoc lo l x : endof lo (l ++ [x]) = stop_of x.
Proof. revert lo. induction l as [|y l IH]; intros lo; [done|]. apply IH. Qed.

Lemma endof_ge lo l : ordered lo l -> lo <= endof lo l.
Proof.
  revert lo. induction l as [|x l IH]; intros lo H; [done|]. cbn [ordered endof] in *. destruct H as (H1 & H2 & H3). apply IH in H3.
  unfold stop_of, HEADER in *. lia.
Qed.

Lemma ordered_bounds lo l x : ordered lo l -> x ∈ l -> lo < x.1 /\ 0 < x.2 /\ stop_of x <= LIM /\ stop_of x <= endof lo l.
Proof.
  revert lo. induction l as [|y l IH]; intros lo H Hx; [by apply elem_of_nil in Hx|]. cbn [ordered endof] in *. destruct H as (H1 & H2 & H3).
  apply elem_of_cons in Hx as [->|Hx].
  - split; [done|]. split; [done|]. split; [by eapply ordered_le|by apply endof_ge].
  - destruct (IH _ H3 Hx) as (I1 & I2 & I3 & I4). unfold stop_of, HEADER in *. split_and!; lia.
Qed.

Lemma ordered_addr lo l x : ordered lo l -> x ∈ l.*1 -> lo < x.
Proof. intros H ([a s] & -> & Hx)%list_elem_of_fmap. by apply (ordered_bounds lo l (a, s)). Qed.

(** A block put before others, merged with the first if they touch. *)
Definition glue (x : node) (l : list node) : list node :=
  match l with
  | y :: l' => if stop_of x =? y.1 then (x.1, x.2 + y.2) :: l' else x :: l
  | [] => [x]
  end.

(** [x] ends at or before the first block of [l]. *)
Definition fits_before (x : node) (l : list node) : Prop :=
  match l with [] => stop_of x <= LIM | y :: l => stop_of x <= y.1 /\ 0 < y.2 /\ ordered (stop_of y) l end.

Lemma glue_ordered lo x l : lo < x.1 -> 0 < x.2 -> fits_before x l -> ordered lo (glue x l).
Proof.
  intros H1 H2 H3. unfold glue, fits_before in *. destruct l as [|y l]; [done|]. destruct H3 as (H3 & H4 & H5).
  destruct (Z.eqb_spec (stop_of x) (y.1)) as [E|E]; cbn [ordered fst snd].
  - split; [done|]. split; [lia|]. unfold stop_of in *. cbn [fst snd]. unfold HEADER in *. by replace (x.1 + 16 * (x.2 + y.2)) with (y.1 + 16 * y.2) by lia.
  - split; [done|]. split; [done|]. split; [lia|]. done.
Qed.

Lemma glue_covers x l u : 0 < x.2 -> fits_before x l -> covers (glue x l) u <-> within x u \/ covers l u.
Proof.
  intros H2 H3. unfold glue, fits_before in *. destruct l as [|y l]; [done|]. destruct H3 as (H3 & H4 & H5).
  destruct (Z.eqb_spec (stop_of x) (y.1)) as [E|E]; [|done]. cbn [covers]. unfold within, stop_of, HEADER in *. cbn [fst snd].
  assert ((x.1 <= u < x.1 + 16 * (x.2 + y.2)) <-> (x.1 <= u < x.1 + 16 * x.2) \/ (y.1 <= u < y.1 + 16 * y.2)) by lia. tauto.
Qed.


(** ** Merging *)

(** Only the cell [p] differs. *)
Definition only_cell (p : Z) (h h' : heap) : Prop :=
  freep h' = freep h /\ grants h' = grants h /\ forall u, u <> p -> cells h' !! u = cells h !! u.

Lemma with_cell_only p c h : only_cell p h (with_cell p c h).
Proof. split; [done|]. split; [done|]. intros u Hu. cbn. by rewrite lookup_insert_ne. Qed.

Lemma with_cell_twice p c c' h : with_cell p c (with_cell p c' h) = with_cell p c h.
Proof. unfold with_cell. cbn. by rewrite insert_insert_eq. Qed.

Lemma with_cell_here p c h : cells (with_cell p c h) !! p = Some c.
Proof. cbn. by rewrite lookup_insert_eq. Qed.

Lemma join_right_ok base bp z a s post junk h : cells h !! bp = Some (junk, z) -> cells h !! a = Some (head_addr post base, s) ->
  seg (cells h) post base -> bp ∉ post.*1 -> base < bp -> 0 < bp -> 0 < z -> fits_before (bp, z) post ->
  exists z' g h', join_right bp a h = Done (tt, h') /\ glue (bp, z) post = (bp, z') :: g /\ z <= z' /\
    cells h' !! bp = Some (head_addr g base, z') /\ seg (cells h) g base /\ only_cell bp h h'.
Proof.
  intros Hbp Ha Hs Hn Hbase H0 Hz Hf. unfold join_right. erewrite h_bind by (apply get_size_ok, Hbp). erewrite h_bind by (apply get_ptr_ok, Ha). cbn [fst snd].
  unfold glue. destruct post as [|y post]; cbn [head_addr] in *.
  - destruct (Z.eqb_spec (bp + HEADER * z) base) as [E|_]; [unfold HEADER in E; lia|]. erewrite set_ptr_ok by exact Hbp.
    eexists z, [], _. split; [done|]. split; [done|]. split; [lia|]. split; [apply with_cell_here|]. split; [done|apply with_cell_only].
  - cbn [seg] in Hs. destruct Hs as [Hy Hs], Hf as (F1 & F2 & F3). change (bp + HEADER * z) with (stop_of (bp, z)). destruct (Z.eqb_spec (stop_of (bp, z)) (y.1)) as [E|E].
    + erewrite h_bind by (apply get_size_ok, Hy). cbn [fst snd]. erewrite h_bind by (apply set_size_ok, Hbp). cbn [fst].
      assert (Hne : y.1 <> bp). { intros E'. apply Hn. cbn. rewrite E'. left. }
      erewrite h_bind; [|apply get_ptr_ok; cbn; rewrite lookup_insert_ne by done; exact Hy]. cbn [fst].
      erewrite set_ptr_ok by apply with_cell_here. rewrite with_cell_twice. cbn [snd].
      apply ordered_le in F3. unfold stop_of, HEADER, LIM in *. cbn [fst snd] in *. rewrite u32_id by lia.
      eexists (z + y.2), post, _. split; [done|]. split; [done|]. split; [lia|]. split; [apply with_cell_here|]. split; [done|apply with_cell_only].
    + erewrite set_ptr_ok by exact Hbp. eexists z, (y :: post), _. split; [done|]. split; [done|]. split; [lia|]. split; [apply with_cell_here|]. split; [done|apply with_cell_only].
Qed.

Lemma join_left_ok bp z a s next c h : cells h !! bp = Some (next, z) -> cells h !! a = Some (c, s) -> a <> bp -> 0 <= s -> 0 < a -> 0 < z ->
  bp + HEADER * z <= LIM -> stop_of (a, s) <= bp ->
  exists h', join_left bp a h = Done (tt, h') /\ only_cell a h h' /\
    cells h' !! a = Some (if stop_of (a, s) =? bp then (next, s + z) else (bp, s)).
Proof.
  intros Hbp Ha Hne Hs H0 Hz Hl Hst. unfold join_left. erewrite h_bind by (apply get_size_ok, Ha). cbn [snd]. change (a + HEADER * s) with (stop_of (a, s)).
  destruct (Z.eqb_spec (stop_of (a, s)) bp) as [E|E].
  - erewrite h_bind by (apply get_size_ok, Hbp). cbn [snd]. erewrite h_bind by (apply set_size_ok, Ha). cbn [fst].
    erewrite h_bind; [|apply get_ptr_ok; cbn; rewrite lookup_insert_ne by done; exact Hbp]. cbn [fst].
    erewrite set_ptr_ok by apply with_cell_here. rewrite with_cell_twice. cbn [snd].
    unfold stop_of, HEADER, LIM in *. cbn [fst snd] in *. rewrite u32_id by lia. eexists. split; [done|]. split; [apply with_cell_only|apply with_cell_here].
  - erewrite set_ptr_ok by exact Ha. eexists. split; [done|]. split; [apply with_cell_only|apply with_cell_here].
Qed.

(** ** The state of the allocator *)

Definition mapped (m : gmap Z (Z * Z)) (x : node) : Prop := forall i, 0 <= i < x.2 -> is_Some (m !! (x.1 + HEADER * i)).

(** The free blocks are [fl]. *)
Record heap_ok (base : Z) (h : heap) (fl : list node) : Prop := mkHeapOk {
  ho_base : 0 < base;
  ho_ring : ring (cells h) ((base, 0) :: fl);
  ho_order : ordered base fl;
  ho_freep : freep h ∈ ((base, 0) :: fl).*1;
  ho_mapped : Forall (mapped (cells h)) fl
}.

(** A block with its header and its memory. *)
Definition held (h : heap) (x : node) : Prop := 0 < x.2 /\ (exists junk, cells h !! x.1 = Some (junk, x.2)) /\ mapped (cells h) x.

(** A block apart from the blocks of [l]. *)
Record apart (base : Z) (x : node) (l : list node) : Prop := mkApart {
  ap_above : base < x.1;
  ap_size : 0 < x.2;
  ap_limit : stop_of x <= LIM;
  ap_apart : forall y, y ∈ l -> stop_of y <= x.1 \/ stop_of x <= y.1
}.

(** The place of a block. *)
Lemma place_split lo x l : ordered lo l -> lo <= x.1 -> 0 < x.2 -> stop_of x <= LIM ->
  (forall y, y ∈ l -> stop_of y <= x.1 \/ stop_of x <= y.1) ->
  exists pre post, l = pre ++ post /\ endof lo pre <= x.1 /\ fits_before x post.
Proof.
  revert lo. induction l as [|y l IH]; intros lo Ho Hlo Hz Hlim Ha; [by exists [], []|]. cbn [ordered] in Ho. destruct Ho as (H1 & H2 & H3).
  destruct (Ha y ltac:(left)) as [H|H].
  - destruct (IH (stop_of y) H3 H Hz Hlim) as (pre & post & -> & I1 & I2); [intros w Hw; apply Ha; by right|]. by exists (y :: pre), post.
  - by exists [], (y :: l).
Qed.

(** Addresses rise along the list, up to [e]. *)
Fixpoint rising (l : list node) (e : Z) : Prop := match l with [] => True | x :: l => x.1 < head_addr l e /\ rising l e end.

Lemma rising_app l1 l2 e : rising (l1 ++ l2) e <-> rising l1 (head_addr l2 e) /\ rising l2 e.
Proof. induction l1 as [|x l1 IH]; cbn [rising app]; [tauto|]. rewrite IH, head_addr_app. tauto. Qed.

Lemma ordered_rising lo l x l2 : ordered lo (l ++ x :: l2) -> rising l x.1.
Proof.
  revert lo. induction l as [|y l IH]; intros lo H; [done|]. cbn [app ordered rising] in *. destruct H as (H1 & H2 & H3). split; [|by eapply IH].
  assert (H4 : y.1 < stop_of y) by (unfold stop_of, HEADER; lia). destruct l as [|z l]; cbn [app ordered head_addr] in *; lia.
Qed.

Lemma passes_low bp l a : rising l a -> a < bp -> passes bp l a /\ head_addr l a <= a.
Proof.
  induction l as [|x l IH]; intros Hr Ha; cbn [rising passes head_addr] in *; [done|]. destruct Hr as [H1 H2]. destruct (IH H2 Ha) as [I1 I2].
  split; [|lia]. split; [|done]. unfold stops. destruct (Z.ltb_spec bp (head_addr l a)), (Z.leb_spec (head_addr l a) x.1); lia.
Qed.

Lemma passes_high bp base lo l : ordered lo l -> (forall x, x ∈ l -> bp < x.1) -> base < bp -> passes bp l base.
Proof.
  revert lo. induction l as [|x l IH]; intros lo Ho Hh Hb; cbn [ordered passes] in *; [done|]. destruct Ho as (H1 & H2 & H3).
  split; [|apply (IH _ H3); [intros y Hy; apply Hh; by right|done]]. assert (Hx := Hh x ltac:(left)). unfold stops.
  destruct (Z.ltb_spec x.1 bp); [lia|]. cbn [andb orb]. destruct l as [|y l]; cbn [head_addr].
  - destruct (Z.ltb_spec bp base); [lia|]. by rewrite andb_false_r.
  - cbn [ordered] in H3. assert (x.1 < y.1) by (unfold stop_of, HEADER in H3; lia). destruct (Z.leb_spec y.1 x.1); [lia|done].
Qed.

(** The header before the place. *)
Lemma last_node base pre : exists l a s, (base, 0) :: pre = l ++ [(a, s)] /\ stop_of (a, s) = endof base pre /\
  ((l = [] /\ pre = [] /\ a = base /\ s = 0) \/ exists l', l = (base, 0) :: l' /\ pre = l' ++ [(a, s)]).
Proof.
  destruct pre as [|x pre _] using rev_ind.
  - exists [], base, 0. split; [done|]. split; [unfold stop_of, HEADER; cbn; lia|by left].
  - exists ((base, 0) :: pre), x.1, x.2. rewrite endof_snoc. destruct x as [a s]. split; [done|]. split; [done|]. right. by exists pre.
Qed.

Lemma last_node_rising base pre l a s : (base, 0) :: pre = l ++ [(a, s)] -> ordered base pre -> rising l a.
Proof.
  intros E Ho. destruct l as [|y l]; [done|]. injection E as <- ->. cbn [rising]. split; [|exact (ordered_rising base l (a, s) [] Ho)].
  assert (H := ordered_addr base (l ++ [(a, s)])). cbn [fst]. destruct l as [|y l]; cbn [head_addr]; apply H; try done; cbn; left.
Qed.

Lemma place_found base bp h l a s post lo fuel : ring (cells h) (l ++ (a, s) :: post) -> head_addr (l ++ (a, s) :: post) 0 = base ->
  rising l a -> base <= a -> a < bp -> ordered lo post -> (forall x, x ∈ post -> bp < x.1) ->
  freep h ∈ (l ++ (a, s) :: post).*1 -> (length (l ++ (a, s) :: post) < fuel)%nat ->
  hloop fuel (place_step bp) (freep h) h = Done (a, h).
Proof.
  intros Hr Hb Hl Hba Ha Ho Hp ([f z] & Ef & Hy)%list_elem_of_fmap Hf. cbn [fst] in Ef. rewrite Ef.
  assert (Hlow : forall A B, l = A ++ B -> f = head_addr (B ++ [(a, s)]) 0 -> hloop fuel (place_step bp) f h = Done (a, h)).
  { intros A B -> ->. rewrite <- app_assoc in Hr. apply ring_rotate in Hr. rewrite <- app_assoc in Hr. cbn [app] in Hr.
    apply rising_app in Hl as [_ Hl]. apply passes_low with (bp := bp) in Hl as [Hl _]; [|done].
    apply (place_walk bp h a s B (post ++ A) _ fuel) in Hr; [by rewrite head_addr_app in Hr; rewrite head_addr_app|done| |rewrite !length_app in Hf; cbn [length] in Hf; lia].
    unfold stops. destruct post as [|y post]; [|cbn [app head_addr]; assert (H := Hp y ltac:(left)); lia].
    replace (head_addr _ _) with base; [lia|]. rewrite <- Hb, <- app_assoc, !head_addr_app. by destruct A. }
  apply elem_of_app in Hy as [(A & B & E)%list_elem_of_split|[E|(P & Q & ->)%list_elem_of_split]%elem_of_cons].
  - by apply (Hlow A ((f, z) :: B)).
  - apply (Hlow l []); [by rewrite app_nil_r|by injection E].
  - replace (l ++ (a, s) :: P ++ (f, z) :: Q) with ((l ++ (a, s) :: P) ++ (f, z) :: Q) in Hr by (by rewrite <- app_assoc).
    apply ring_rotate in Hr. rewrite app_assoc in Hr. apply ordered_app in Ho as [_ Ho].
    assert (Hb' : head_addr (l ++ [(a, s)]) 0 = base) by (rewrite <- Hb, !head_addr_app; done).
    rewrite <- (place_walk bp h a s (((f, z) :: Q) ++ l) P _ fuel Hr); [done| | |rewrite !length_app in *; cbn [length] in *; rewrite ?length_app in *; cbn [length] in *; lia].
    + apply passes_app. split; [|by apply passes_low]. replace (head_addr l a) with base by (rewrite <- Hb', head_addr_app; done).
      apply (passes_high bp base _ _ Ho); [|lia]. intros x Hx. apply Hp, elem_of_app. by right.
    + unfold stops. replace (head_addr P _) with (head_addr (P ++ (f, z) :: Q) 0) by (rewrite head_addr_app; done).
      assert (H : bp < head_addr (P ++ (f, z) :: Q) 0); [|lia]. destruct P as [|w P]; cbn [app head_addr]; apply Hp; left.
Qed.

(** ** Giving back *)

(** The block [x] put among the free blocks [l]. *)
Fixpoint put (x : node) (l : list node) : list node :=
  match l with
  | [] => [x]
  | y :: l' => if stop_of y <=? x.1 then glue y (put x l') else glue x l
  end.

Lemma glue_head x l : exists z g, glue x l = (x.1, z) :: g.
Proof. unfold glue. destruct x as [a s], l as [|y l]; [eauto|]. destruct (_ =? _); eauto. Qed.

Lemma put_split lo x pre post : ordered lo (pre ++ post) -> 0 < x.2 -> endof lo pre <= x.1 -> fits_before x post ->
  put x (pre ++ post) = match last pre with Some y => removelast pre ++ glue y (glue x post) | None => glue x post end.
Proof.
  revert lo. induction pre as [|y pre IH]; intros lo Ho Hx He Hf; cbn [app put].
  - destruct post as [|y post]; [done|]. cbn [put fits_before] in *. destruct Hf as (H1 & H2 & _). unfold stop_of, HEADER in *.
    destruct (Z.leb_spec (y.1 + 16 * y.2) x.1); [lia|done].
  - cbn [app ordered endof] in *. destruct Ho as (H1 & H2 & H3). assert (H4 := He). apply ordered_app in H3 as H5. apply proj1, endof_ge in H5.
    destruct (Z.leb_spec (stop_of y) x.1); [|lia]. rewrite (IH _ H3 Hx He Hf). destruct pre as [|w pre]; [done|].
    change (last (y :: w :: pre)) with (last (w :: pre)). change (removelast (y :: w :: pre)) with (y :: removelast (w :: pre)).
    cbn [app ordered] in H3. assert (Hg : forall L z, glue y ((w.1, z) :: L) = y :: (w.1, z) :: L).
    { intros L z. unfold glue. cbn [fst]. by destruct (Z.eqb_spec (stop_of y) w.1); [lia|]. }
    destruct pre as [|v pre].
    + cbn [last removelast app]. destruct (glue_head w (glue x post)) as (z & g & ->). apply Hg.
    + change (removelast (w :: v :: pre)) with (w :: removelast (v :: pre)). destruct (last _) as [b|] eqn:E; [|by apply last_None in E].
      destruct w as [wa ws]. apply Hg.
Qed.

Lemma put_block_ok lo x l : ordered lo l -> lo < x.1 -> 0 < x.2 -> stop_of x <= LIM -> (forall y, y ∈ l -> stop_of y <= x.1 \/ stop_of x <= y.1) ->
  ordered lo (put x l) /\ forall u, covers (put x l) u <-> within x u \/ covers l u.
Proof.
  revert lo. induction l as [|y l IH]; intros lo Ho Hx Hz Hl Ha; cbn [put]; [done|]. cbn [ordered] in Ho. destruct Ho as (H1 & H2 & H3).
  destruct (Ha y ltac:(left)) as [H|H].
  - destruct (Z.leb_spec (stop_of y) x.1); [|lia]. destruct (IH (stop_of y - 1)) as [I1 I2]; try done.
    { eapply ordered_weaken; [|done]. lia. } { lia. } { intros w Hw. apply Ha. by right. }
    assert (Hf : fits_before y (put x l)). { apply ordered_le in H3. destruct (put x l) as [|w L]; [done|]. cbn [ordered fits_before] in *. split_and!; [lia|tauto|tauto]. }
    split; [by apply glue_ordered|]. intros u. rewrite glue_covers by done. cbn [covers]. rewrite I2. tauto.
  - destruct (Z.leb_spec (stop_of y) x.1); [unfold stop_of, HEADER in *; lia|].
    split; [by apply glue_ordered|]. intros u. by rewrite glue_covers.
Qed.

Lemma rising_lt l e x : rising l e -> x ∈ l -> x.1 < e.
Proof.
  intros Hr Hx. assert (Hh : forall l' y, y.1 = y.1 -> rising (y :: l') e -> y.1 < e).
  { intros l' y _. revert y. induction l' as [|w l' IH]; intros y [H1 H2]; cbn [head_addr] in *; [done|]. specialize (IH w H2). lia. }
  apply list_elem_of_split in Hx as (A & B & ->). apply rising_app in Hr as [_ Hr]. by eapply Hh.
Qed.

Lemma mapped_mono m m' x : (forall u, is_Some (m !! u) -> is_Some (m' !! u)) -> mapped m x -> mapped m' x.
Proof. intros H Hx i Hi. by apply H, Hx. Qed.

Lemma mapped_glue m x l : mapped m x -> Forall (mapped m) l -> Forall (mapped m) (glue x l).
Proof.
  intros Hx Hl. unfold glue. destruct Hl as [|y l Hy Hl]; [by repeat constructor|]. destruct (Z.eqb_spec (stop_of x) y.1) as [E|E]; [|by repeat constructor].
  constructor; [|done]. intros i Hi. cbn [fst snd] in *. destruct (decide (i < x.2)); [apply Hx; lia|].
  replace (x.1 + HEADER * i) with (y.1 + HEADER * (i - x.2)) by (rewrite <- E; unfold stop_of; lia). apply Hy. lia.
Qed.

Lemma mapped_put m x l : mapped m x -> Forall (mapped m) l -> Forall (mapped m) (put x l).
Proof. intros Hx Hl. induction Hl as [|y l Hy Hl IH]; cbn [put]; [by repeat constructor|]. destruct (_ <=? _); apply mapped_glue; auto. Qed.

(** A cell that changes stays mapped. *)
Lemma only_cell_mapped p h h' u : only_cell p h h' -> is_Some (cells h' !! p) -> is_Some (cells h !! u) -> is_Some (cells h' !! u).
Proof. intros (_ & _ & H) Hp Hu. destruct (decide (u = p)) as [->|]; [done|]. by rewrite H. Qed.

Lemma free_ok base fuel h fl x junk : heap_ok base h fl -> apart base x fl -> cells h !! x.1 = Some (junk, x.2) -> mapped (cells h) x ->
  (S (length fl) < fuel)%nat ->
  exists h', free fuel (x.1 + HEADER) h = Done (tt, h') /\ heap_ok base h' (put x fl) /\ grants h' = grants h /\
    (forall u, is_Some (cells h !! u) -> is_Some (cells h' !! u)) /\
    forall u, u <> x.1 -> u ∉ ((base, 0) :: fl).*1 -> cells h' !! u = cells h !! u.
Proof.
  intros [H0 Hr Ho Hfp Hm] [A1 A2 A3 A4] Hc Hmx Hf. destruct x as [bp z]. cbn [fst snd] in *.
  destruct (place_split base (bp, z) fl Ho ltac:(cbn; lia) A2 A3 A4) as (pre & post & -> & Hend & Hfit). cbn [fst] in Hend.
  assert (Hput := put_split base (bp, z) pre post Ho A2 Hend Hfit).
  apply ordered_app in Ho as H. destruct H as [Hpre Hpost].
  destruct (last_node base pre) as (l & a & s & El & Es & Hcase). assert (Hrise := last_node_rising base pre l a s El Hpre).
  assert (Enodes : (base, 0) :: pre ++ post = l ++ (a, s) :: post). { change ((base, 0) :: pre ++ post) with (((base, 0) :: pre) ++ post). by rewrite El, <- app_assoc. }
  assert (Hhead : forall r e, head_addr (l ++ (a, s) :: r) e = base). { intros r e. apply (f_equal (fun n => head_addr (n ++ r) e)) in El. rewrite <- app_assoc in El. exact (eq_sym El). }
  assert (Hs : 0 <= s /\ base <= a). { destruct Hcase as [(_ & _ & -> & ->)|(l' & -> & ->)]; [lia|]. destruct (ordered_bounds base (l' ++ [(a, s)]) (a, s) Hpre) as (B1 & B2 & _); [apply elem_of_app; right; left|]. cbn [fst snd] in *. lia. }
  assert (Hab : a < bp). { destruct Hcase as [(_ & _ & -> & ->)|(l' & -> & ->)]; [lia|]. destruct (ordered_bounds base (l' ++ [(a, s)]) (a, s) Hpre) as (B1 & B2 & _); [apply elem_of_app; right; left|]. unfold stop_of, HEADER in Es. cbn [fst snd] in *. lia. }
  assert (Hafter : forall y, y ∈ post -> bp < y.1).
  { destruct post as [|w post]; [by intros y Hy%elem_of_nil|]. cbn [fits_before] in Hfit. destruct Hfit as (F1 & F2 & F3). unfold stop_of, HEADER in *. cbn [fst snd] in *.
    intros y [->|Hy]%elem_of_cons; [lia|]. apply (ordered_bounds _ _ y) in F3 as [F3 _]; [lia|done]. }
  rewrite Enodes in Hr, Hfp. unfold free. rewrite Z.add_simpl_r. change ((get_freep ≫= ?k) h) with (k (freep h) h). cbv beta.
  erewrite h_bind; [|eapply (place_found base bp h l a s post); eauto; [apply Hs|]; rewrite <- Enodes; exact Hf].
  unfold ring in Hr. rewrite Hhead in Hr. apply seg_app in Hr as [Hr1 Hr2]. cbn [head_addr seg fst snd] in Hr1, Hr2. destruct Hr2 as [Hr2 Hr3].
  destruct (join_right_ok base bp z a s post junk h Hc Hr2 Hr3) as (z' & g & h1 & E1 & Eg & Hz' & J1 & J2 & J3); try done; [|lia|].
  { intros (y & Ey & Hy)%list_elem_of_fmap. apply Hafter in Hy. lia. }
  erewrite h_bind by exact E1. destruct J3 as (J3 & J4 & J5).
  assert (Hg : ordered base ((bp, z') :: g)). { rewrite <- Eg. by apply glue_ordered. }
  cbn [ordered] in Hg. destruct Hg as (_ & G2 & G3). assert (G4 := ordered_le _ _ G3).
  destruct (join_left_ok bp z' a s (head_addr g base) (head_addr post base) h1) as (h2 & E2 & (K1 & K2 & K3) & K4); first [exact J1|lia|exact G4|by rewrite J5 by lia|by rewrite Es|idtac].
  erewrite h_bind by exact E2. unfold set_freep, update. eexists. split; [done|].
  assert (Hmono : forall u, is_Some (cells h !! u) -> is_Some (cells h2 !! u)).
  { intros u Hu. apply (only_cell_mapped a h1 h2); [done|by rewrite K4|]. apply (only_cell_mapped bp h h1); [done|by rewrite J1|done]. }
  set (nodes := l ++ glue (a, s) ((bp, z') :: g)).
  assert (En : (base, 0) :: put (bp, z) (pre ++ post) = nodes).
  { rewrite Hput. unfold nodes. destruct Hcase as [(-> & -> & -> & ->)|(l' & -> & ->)].
    - cbn [last app]. rewrite Eg. unfold glue. unfold stop_of. cbn [fst snd]. rewrite Z.mul_0_r, Z.add_0_r. by destruct (Z.eqb_spec base bp); [lia|].
    - rewrite last_snoc, removelast_last, Eg. done. }
  assert (Ehead : head_addr nodes 0 = base). { by rewrite <- En. }
  split; [|split; [by rewrite <- K2 in J4|split; [done|]]].
  - split; try done.
    + unfold ring. cbn [cells]. rewrite En, Ehead. unfold nodes. apply seg_app. split.
      * apply (seg_frame (cells h)).
        { intros y Hy. apply (rising_lt l a) in Hy; [|done]. cbn. rewrite K3, J5; [done|lia|lia]. }
        unfold glue. cbn [fst]. by destruct (_ =? bp).
      * assert (Hsg : seg (cells h2) g base). { apply (seg_frame (cells h)); [|done]. intros y Hy. apply (ordered_bounds _ _ y G3) in Hy. unfold stop_of, HEADER in Hy. cbn [fst snd] in Hy. rewrite K3, J5; [done|lia|lia]. }
        unfold glue. cbn [fst snd]. destruct (_ =? bp) eqn:E; cbn [seg head_addr fst snd]; [by split|]. split; [done|]. split; [|done]. rewrite K3 by lia. done.
    + by apply put_block_ok.
    + cbn [freep]. rewrite En. unfold nodes. rewrite fmap_app. apply elem_of_app. right. unfold glue. destruct (_ =? _); left.
    + cbn. apply mapped_put; [by eapply mapped_mono|]. eapply list.Forall_impl; [exact Hm|]. intros y. by apply mapped_mono.
  - intros u Hu1 Hu2. rewrite Enodes, fmap_app in Hu2. cbn. rewrite K3, J5; [done|done|]. intros ->. apply Hu2, elem_of_app. right. left.
Qed.

(** Away from [base] and the free blocks no cell is the header of a node. *)
Lemma uncovered base fl u : ordered base fl -> u <> base -> ~ covers fl u -> u ∉ ((base, 0) :: fl).*1.
Proof.
  intros Ho Hb Hu [->|([a s] & -> & Hx)%list_elem_of_fmap]%elem_of_cons; [done|]. apply Hu, covers_elem. exists (a, s). split; [done|].
  apply (ordered_bounds _ _ _ Ho) in Hx. unfold within, stop_of, HEADER. cbn [fst snd] in *. lia.
Qed.

(** ** Taking out *)

(** A block of [n] cells at [r] cut off the end of a free block. *)
Definition carve (n : Z) (l l' : list node) (r : Z) : Prop := exists pre x post, l = pre ++ x :: post /\ n <= x.2 /\ r = stop_of x - HEADER * n /\
  l' = pre ++ (if x.2 =? n then [] else [(x.1, x.2 - n)]) ++ post.

Lemma carve_ok base n l l' r : carve n l l' r -> 0 < n -> ordered base l ->
  ordered base l' /\ apart base (r, n) l' /\ (forall u, covers l u <-> covers l' u \/ within (r, n) u).
Proof.
  intros (pre & [a s] & post & -> & Hn & -> & ->) H0 Ho. cbn [fst snd] in *. apply ordered_app in Ho as [O1 O2]. cbn [ordered] in O2.
  destruct O2 as (O2 & O3 & O4). cbn [fst snd] in *. assert (O5 := endof_ge _ _ O1). assert (O6 := ordered_le _ _ O4). unfold stop_of in O4, O6. unfold HEADER in *. cbn [fst snd] in *.
  split; [|split; [split|]]; unfold stop_of; cbn [fst snd]; unfold HEADER; try lia.
  - apply ordered_app. split; [done|]. destruct (Z.eqb_spec s n); cbn [app ordered fst snd]; unfold stop_of, HEADER; cbn [fst snd].
    + eapply ordered_weaken; [|exact O4]. lia.
    + split; [done|]. split; [lia|]. eapply ordered_weaken; [|exact O4]. lia.
  - intros [b t] [Hy|[Hy|Hy]%elem_of_app]%elem_of_app.
    + apply (ordered_bounds _ _ _ O1) in Hy. unfold stop_of, HEADER in Hy. cbn [fst snd] in *. lia.
    + destruct (Z.eqb_spec s n); [by apply elem_of_nil in Hy|]. apply list_elem_of_singleton in Hy. injection Hy as -> ->. cbn [fst snd]. lia.
    + apply (ordered_bounds _ _ _ O4) in Hy. unfold stop_of, HEADER in Hy. cbn [fst snd] in *. lia.
  - intros u. rewrite !covers_app. cbn [covers]. unfold within, stop_of, HEADER. cbn [fst snd].
    destruct (Z.eqb_spec s n) as [->|E]; cbn [covers]; unfold within, stop_of, HEADER; cbn [fst snd].
    + replace (a + 16 * n - 16 * n) with a by lia. tauto.
    + assert ((a <= u < a + 16 * s) <-> (a <= u < a + 16 * (s - n)) \/ (a + 16 * s - 16 * n <= u < a + 16 * s - 16 * n + 16 * n)) by lia. tauto.
Qed.

(** Two blocks next to each other in the ring, and the others. *)
Lemma neighbours base fl P b t a s Q : ordered base fl -> (base, 0) :: fl = P ++ (b, t) :: (a, s) :: Q ->
  b <> a /\ (forall w, w ∈ P -> w.1 < b) /\ (forall w, w ∈ Q -> a + HEADER * s < w.1) /\ base <= b /\ 0 <= t /\ b + HEADER * t < a /\ 0 < s /\ a + HEADER * s <= LIM.
Proof.
  intros Ho E.
  destruct P as [|p0 P]; [injection E as <- <- ->|injection E as <- ->].
  - cbn [ordered] in Ho. destruct Ho as (O1 & O2 & O3). unfold stop_of in *. cbn [fst snd] in *. split_and!; try lia; [by intros w Hw%elem_of_nil| |by apply ordered_le in O3].
    intros w Hw. by apply (ordered_bounds _ _ _ O3) in Hw as [Hw _].
  - assert (Hr' := ordered_rising base P (b, t) ((a, s) :: Q) Ho). apply ordered_app in Ho as [O1 O2]. cbn [ordered] in O2. destruct O2 as (O2 & O2' & O3 & O4 & O5).
    apply endof_ge in O1. unfold stop_of in *. unfold HEADER in *. cbn [fst snd] in *. split_and!; try lia; [| |by apply ordered_le in O5].
    + intros w [->|Hw]%elem_of_cons; cbn [fst]; [lia|]. by apply (rising_lt P b w).
    + intros w Hw. by apply (ordered_bounds _ _ _ O5) in Hw as [Hw _].
Qed.

Lemma malloc_fit base fuel n h fl P y x Q : heap_ok base h fl -> (base, 0) :: fl = P ++ y :: x :: Q -> 0 < n -> n <= x.2 ->
  exists h' fl' r, malloc_step fuel n (y.1, x.1) h = Done (inr (r + HEADER), h') /\ carve n fl fl' r /\ heap_ok base h' fl' /\ grants h' = grants h /\
    held h' (r, n) /\ (forall u, is_Some (cells h !! u) -> is_Some (cells h' !! u)) /\
    forall u, u <> base -> ~ covers fl u -> cells h' !! u = cells h !! u.
Proof.
  intros [H0 Hr Ho Hfp Hm] E Hn Hle. destruct x as [a s], y as [b t]. cbn [fst snd] in *.
  assert (Hunc := uncovered base fl). assert (Hb := neighbours _ _ _ _ _ _ _ _ Ho E).
  destruct Hb as (Hba & HP & HQ & Hbase & Ht & Hbt & Hs & Hlim).
  assert (Hhead : forall r, head_addr (P ++ (b, t) :: r) 0 = base). { intros r. destruct P as [|p0 P]; [by injection E as <- _ _|by injection E as <- _]. }
  assert (Hfl : fl = tail (P ++ [(b, t)]) ++ (a, s) :: Q). { destruct P as [|p0 P]; [by injection E as _ _ ->|injection E as _ ->]. cbn [app tail]. by rewrite <- app_assoc. }
  rewrite E in Hr, Hfp. unfold ring in Hr. rewrite Hhead in Hr. apply seg_app in Hr as [Hr1 Hr2]. cbn [seg head_addr fst snd] in Hr1, Hr2. destruct Hr2 as (Hr2 & Hr3 & Hr4).
  assert (Hcar : carve n fl (tail (P ++ [(b, t)]) ++ (if s =? n then [] else [(a, s - n)]) ++ Q) (a + HEADER * s - HEADER * n)). { eexists _, (a, s), Q. split; [exact Hfl|]. cbn [fst snd]. by split. }
  assert (Hcut := carve_ok base _ _ _ _ Hcar Hn Ho). destruct Hcut as (C1 & C2 & C3).
  assert (Hnodes : forall M, (base, 0) :: tail (P ++ [(b, t)]) ++ M = P ++ (b, t) :: M). { intros M. destruct P as [|p0 P]; [by injection E as -> -> _|injection E as -> _]. cbn [app tail]. by rewrite <- app_assoc. }
  assert (Hms : mapped (cells h) (a, s)). { rewrite Hfl in Hm. apply Forall_app in Hm as [_ Hm]. by apply list.Forall_cons in Hm as [Hm _]. }
  unfold malloc_step. erewrite h_bind by (apply get_size_ok, Hr3). cbn [snd]. destruct (Z.leb_spec n s); [|lia].
  unfold LIM, HEADER in *. destruct (Z.eqb_spec s n) as [->|Hne].
  - erewrite h_bind; [|erewrite h_bind by (apply get_ptr_ok, Hr3); erewrite h_bind by (apply set_ptr_ok, Hr2); reflexivity].
    unfold set_freep, update. eexists _, _, a. split; [reflexivity|]. split; [replace (a + 16 * n - 16 * n) with a in Hcar by lia; exact Hcar|].
    cbn [app] in *. split; [split|]; try done.
    + unfold ring. cbn [cells]. rewrite Hnodes, Hhead. apply seg_app. cbn [head_addr fst snd seg]. split; [apply seg_frame with (cells h); [|done]; intros w Hw; apply HP in Hw; apply lookup_insert_ne; lia|].
      split; [cbn; by rewrite lookup_insert_eq|]. apply seg_frame with (cells h); [|done]. intros w Hw. apply HQ in Hw. apply lookup_insert_ne. lia.
    + cbn [freep fst]. rewrite Hnodes, fmap_app. apply elem_of_app. right. left.
    + cbn. rewrite Hfl in Hm. apply Forall_app in Hm as [M1 M2]. apply list.Forall_cons in M2 as [_ M2].
      apply Forall_app. split; (eapply list.Forall_impl; [eassumption|]); intros w; apply mapped_mono; intros u Hu; rewrite lookup_insert; case_decide; eauto.
    + assert (Hmono : forall u, is_Some (cells h !! u) -> is_Some (<[b := (head_addr Q base, t)]> (cells h) !! u)) by (intros u Hu; rewrite lookup_insert; case_decide; eauto).
      split; [done|]. split; [|split; [exact Hmono|]].
      { split; [done|]. split; [eexists; cbn; rewrite lookup_insert_ne; [exact Hr3|done]|]. by eapply mapped_mono. }
      intros u U1 U2. specialize (Hunc u Ho U1 U2). cbn. apply lookup_insert_ne. intros ->. apply Hunc. rewrite E, fmap_app. apply elem_of_app. right. left.
  - set (a' := a + 16 * s - 16 * n). destruct (Hms (s - n)) as [[c1 c2] Hc]; [cbn; lia|]. cbn [fst] in Hc.
    unfold HEADER in Hc. assert (Ea : a + 16 * (s - n) = a') by (unfold a'; lia). rewrite Ea in Hc.
    erewrite h_bind; [|erewrite h_bind by (apply set_size_ok, Hr3); cbn [fst]; erewrite h_bind by (apply get_size_ok, with_cell_here); cbn [snd]; rewrite u32_id by lia; rewrite Ea;
      erewrite h_bind; [|apply (set_size_ok _ _ _ (c1, c2)); cbn; rewrite lookup_insert_ne by (unfold a'; lia); exact Hc]; reflexivity].
    unfold set_freep, update. eexists _, _, a'. split; [reflexivity|]. split; [exact Hcar|]. cbn [app fst] in *. split; [split|]; try done.
    + unfold ring. cbn [cells]. rewrite Hnodes, Hhead. apply seg_app. cbn [head_addr fst snd seg]. split; [|split; [|split]].
      * apply seg_frame with (cells h); [|done]. intros w Hw. apply HP in Hw. cbn. rewrite !lookup_insert_ne; [done|lia|unfold a'; lia].
      * cbn. rewrite !lookup_insert_ne; [done|lia|unfold a'; lia].
      * cbn. rewrite lookup_insert_ne by (unfold a'; lia). by rewrite lookup_insert_eq.
      * apply seg_frame with (cells h); [|done]. intros w Hw. apply HQ in Hw. cbn. rewrite !lookup_insert_ne; [done|lia|unfold a'; lia].
    + cbn [freep fst]. rewrite Hnodes, fmap_app. apply elem_of_app. right. left.
    + rewrite Hfl in Hm. apply Forall_app in Hm as [M1 M2]. apply list.Forall_cons in M2 as [M0 M2].
      assert (Hmono : forall w, mapped (cells h) w -> mapped (<[a' := (c1, n)]> (<[a := (head_addr Q base, s - n)]> (cells h))) w).
      { intros w. apply mapped_mono. intros u Hu. rewrite !lookup_insert. repeat case_decide; eauto. }
      apply Forall_app. split; [by eapply list.Forall_impl|]. constructor; [|by eapply list.Forall_impl].
      intros i Hi. apply (Hmono _ M0). cbn [snd] in *. lia.
    + assert (Hmono : forall u, is_Some (cells h !! u) -> is_Some (<[a' := (c1, n)]> (<[a := (head_addr Q base, s - n)]> (cells h)) !! u)) by (intros u Hu; rewrite !lookup_insert; repeat case_decide; eauto).
      split; [done|]. split; [|split; [exact Hmono|]].
      { split; [done|]. split; [eexists; cbn; by rewrite lookup_insert_eq|]. intros i Hi. cbn [fst snd] in *. apply Hmono.
        replace (a' + HEADER * i) with (a + HEADER * (s - n + i)) by (unfold HEADER, a'; lia). apply Hms. cbn [snd]. lia. }
      intros u U1 U2. specialize (Hunc u Ho U1 U2). cbn. rewrite !lookup_insert_ne; [done| |].
      * intros ->. apply Hunc. rewrite E, fmap_app. apply elem_of_app. right. right. left.
      * intros <-. apply U2, C3. right. unfold within, stop_of, HEADER. cbn [fst snd]. lia.
Qed.

(** ** The search of [malloc] *)

Definition small (n : Z) (x : node) : Prop := x.2 < n.
Definition last_addr (prev : Z) (l : list node) : Z := match last l with Some y => y.1 | None => prev end.

Lemma last_addr_cons prev x l : last_addr prev (x :: l) = last_addr x.1 l.
Proof. unfold last_addr. destruct l as [|y l]; [done|]. change (last (x :: y :: l)) with (last (y :: l)). destruct (last (y :: l)) eqn:E; [done|]. by apply last_None in E. Qed.

Lemma last_addr_snoc prev l y : last_addr prev (l ++ [y]) = y.1.
Proof. unfold last_addr. by rewrite last_snoc. Qed.

(** A step at a block that is too small. *)
Lemma malloc_step_small fuel n h prev x e : cells h !! x.1 = Some (e, x.2) -> small n x -> x.1 <> freep h ->
  malloc_step fuel n (prev, x.1) h = Done (inl (x.1, e), h).
Proof.
  intros Hx Hs Hf. unfold malloc_step. erewrite h_bind by (apply get_size_ok, Hx). cbn [snd]. unfold small in Hs. destruct (Z.leb_spec n x.2); [lia|].
  change ((get_freep ≫= ?k) h) with (k (freep h) h). cbv beta. destruct (Z.eqb_spec x.1 (freep h)); [done|].
  by erewrite h_bind by (apply get_ptr_ok, Hx).
Qed.

Lemma malloc_walk fuel n h e k : forall l prev, seg (cells h) l e -> Forall (small n) l -> freep h ∉ l.*1 ->
  hloop (length l + k) (malloc_step fuel n) (prev, head_addr l e) h = hloop k (malloc_step fuel n) (last_addr prev l, e) h.
Proof.
  induction l as [|x l IH]; intros prev Hs Hl Hf; [done|]. cbn [length seg head_addr Nat.add hloop] in *. destruct Hs as [Hx Hs].
  apply list.Forall_cons in Hl as [Hx' Hl]. rewrite fmap_cons in Hf. apply not_elem_of_cons in Hf as [Hf1 Hf2].
  erewrite h_bind by (apply malloc_step_small; [exact Hx|done|done]). by rewrite last_addr_cons, IH.
Qed.

Lemma heap_nodup base fl : ordered base fl -> NoDup ((base, 0) :: fl).*1.
Proof.
  intros Ho. rewrite fmap_cons. apply list.NoDup_cons. split; [intros Hb; cbn in Hb; apply (ordered_addr _ _ _ Ho) in Hb; lia|].
  revert Ho. generalize base. induction fl as [|x fl IH]; intros lo Ho; [constructor|]. cbn [ordered] in Ho. destruct Ho as (H1 & H2 & H3).
  rewrite fmap_cons. apply list.NoDup_cons. split; [|by eapply IH]. intros Hx. apply (ordered_addr _ _ _ H3) in Hx. unfold stop_of, HEADER in Hx. lia.
Qed.

(** The ring seen from [freep]. *)
Lemma freep_split base h fl : heap_ok base h fl -> exists A s B, (base, 0) :: fl = A ++ (freep h, s) :: B /\ freep h ∉ A.*1 /\ freep h ∉ B.*1 /\
  seg (cells h) A (freep h) /\ cells h !! freep h = Some (head_addr B base, s) /\ seg (cells h) B base /\ head_addr A (freep h) = base.
Proof.
  intros [H0 Hr Ho Hfp Hm]. apply list_elem_of_fmap in Hfp as ([f s] & Ef & (A & B & E)%list_elem_of_split). cbn [fst] in Ef. subst f.
  assert (Hnd := heap_nodup _ _ Ho). rewrite E, fmap_app, fmap_cons in Hnd. apply list.NoDup_app in Hnd as (_ & N2 & N3). apply list.NoDup_cons in N3 as [N3 _].
  exists A, s, B. assert (Hh : head_addr A (freep h) = base). { apply (f_equal (fun l => head_addr l 0)) in E. rewrite head_addr_app in E. by cbn [head_addr fst] in E. }
  unfold ring in Hr. cbn [head_addr fst] in Hr. rewrite E in Hr. apply seg_app in Hr as [R1 R2]. cbn [seg head_addr fst snd] in R1, R2.
  split_and!; try done; try apply R2. intros HA. apply (N2 _ HA). left.
Qed.

Lemma freep_pos base h fl : heap_ok base h fl -> 0 < freep h.
Proof. intros [H0 _ Ho Hf _]. apply elem_of_cons in Hf as [->|Hf]; [done|]. apply (ordered_addr _ _ _ Ho) in Hf. lia. Qed.

Lemma first_fit n l : Exists (fun x => n <= x.2) l -> exists A x B, l = A ++ x :: B /\ Forall (small n) A /\ n <= x.2.
Proof.
  induction l as [|y l IH]; intros He; [by inversion He|]. destruct (Z.leb_spec n y.2); [by exists [], y, l|].
  apply Exists_cons in He as [He|He]; [lia|]. destruct (IH He) as (A & x & B & -> & HA & Hx). exists (y :: A), x, B. split_and!; [done|by constructor|done].
Qed.

Lemma small_or_fits n l : Forall (small n) l \/ Exists (fun x => n <= x.2) l.
Proof.
  induction l as [|y l [IH|IH]]; [by left| |right; by apply Exists_cons_tl]. destruct (Z.leb_spec n y.2); [right; by apply Exists_cons_hd|left; by constructor].
Qed.

Lemma small_not_fits n l : Forall (small n) l -> ~ Exists (fun x => n <= x.2) l.
Proof. induction 1 as [|y l Hy Hl IH]; intros He; [inversion He|]. apply Exists_cons in He as [He|He]; [unfold small in Hy; lia|done]. Qed.

(** A block that is large enough is found. *)
Lemma search_fits base fuel k n h fl c : heap_ok base h fl -> 0 < n -> Exists (fun x => n <= x.2) fl -> cells h !! freep h = Some c -> (S (length fl) < k)%nat ->
  exists h' fl' r, hloop k (malloc_step fuel n) (freep h, c.1) h = Done (r + HEADER, h') /\ carve n fl fl' r /\ heap_ok base h' fl' /\ grants h' = grants h /\
    held h' (r, n) /\ (forall u, is_Some (cells h !! u) -> is_Some (cells h' !! u)) /\
    forall u, u <> base -> ~ covers fl u -> cells h' !! u = cells h !! u.
Proof.
  intros Hok Hn He Hc Hk. destruct (freep_split _ _ _ Hok) as (A & s & B & E & HA & HB & S1 & S2 & S3 & S4).
  rewrite S2 in Hc. injection Hc as <-. cbn [fst].
  assert (Hlen : (length A + length B = length fl)%nat). { apply (f_equal length) in E. rewrite length_app in E. cbn [length] in E. lia. }
  assert (Hnodes : Exists (fun x : node => n <= x.2) (A ++ (freep h, s) :: B)) by (rewrite <- E; by apply Exists_cons_tl).
  assert (Hsplit : Exists (fun x : node => n <= x.2) B \/ Forall (small n) B /\ Exists (fun x : node => n <= x.2) (A ++ [(freep h, s)])).
  { destruct (small_or_fits n B) as [Hs|Hs]; [right|by left]. split; [done|].
    change (A ++ (freep h, s) :: B) with (A ++ [(freep h, s)] ++ B) in Hnodes. rewrite app_assoc in Hnodes. apply Exists_app in Hnodes as [Hx|Hx]; [done|].
    by apply small_not_fits in Hs. }
  destruct Hsplit as [HeB|[HsB HeA]].
  - apply first_fit in HeB as (L & x & R & -> & HL & Hx). apply seg_app in S3 as [S3 S3']. cbn [head_addr] in S3. rewrite fmap_app in HB.
    replace k with (length L + S (k - length L - 1))%nat by (rewrite length_app in Hlen; lia).
    rewrite head_addr_app. cbn [head_addr]. rewrite malloc_walk; [|done|done|intros HB'; apply HB, elem_of_app; by left].
    destruct (exists_last (l := (freep h, s) :: L)) as (L0 & y & EL); [done|].
    assert (Hp : last_addr (freep h) L = y.1) by (rewrite <- (last_addr_cons 0 (freep h, s)), EL; apply last_addr_snoc).
    rewrite Hp. destruct (malloc_fit base fuel n h fl (A ++ L0) y x R Hok) as (h' & fl' & r & M1 & M2); [|done|done|].
    { rewrite E. change ((freep h, s) :: L ++ x :: R) with (((freep h, s) :: L) ++ x :: R). rewrite EL, <- !app_assoc. done. }
    exists h', fl', r. split; [|exact M2]. cbn [hloop]. by erewrite h_bind by exact M1.
  - assert (E' : A ++ (freep h, s) :: B = (A ++ [(freep h, s)]) ++ B) by (by rewrite <- app_assoc).
    apply first_fit in HeA as (L & x & R & EA & HL & Hx).
    assert (SA : seg (cells h) (A ++ [(freep h, s)]) (head_addr B base)) by (apply seg_app; cbn [seg head_addr fst snd]; done).
    rewrite EA in SA. apply seg_app in SA as [SA _]. cbn [head_addr] in SA.
    destruct (exists_last (l := L)) as (L0 & y & ->). { intros ->. destruct A as [|a0 A]; [injection E as _ <- _|injection E as <- _]; injection EA as <- _; cbn in Hx; lia. }
    assert (HfL : freep h ∉ (L0 ++ [y]).*1).
    { assert (Hnd := heap_nodup _ _ (ho_order _ _ _ Hok)). rewrite E, E', EA, <- app_assoc, fmap_app in Hnd. apply list.NoDup_app in Hnd as (_ & N2 & _). intros HL'. apply (N2 _ HL').
      rewrite fmap_app. apply elem_of_app. left. destruct (exists_last (l := x :: R)) as (R0 & z & ER); [done|]. rewrite ER, app_assoc in EA. apply app_inj_tail in EA as [_ <-]. rewrite ER, fmap_app. apply elem_of_app. right. left. }
    assert (HlenA : (length (L0 ++ [y]) <= length A)%nat). { apply (f_equal length) in EA. rewrite !length_app in *. cbn [length] in *. lia. }
    replace k with (length B + (length (L0 ++ [y]) + S (k - length B - length (L0 ++ [y]) - 1)))%nat by lia.
    rewrite malloc_walk by done.
    assert (Hb : head_addr (L0 ++ [y]) x.1 = base) by (rewrite <- S4; apply (f_equal (fun l => head_addr l 0)) in EA; rewrite !head_addr_app in EA; rewrite head_addr_app; exact (eq_sym EA)).
    assert (W := fun k => malloc_walk fuel n h x.1 k (L0 ++ [y]) (last_addr (freep h) B) SA HL HfL). rewrite Hb in W. rewrite W, last_addr_snoc.
    destruct (malloc_fit base fuel n h fl L0 y x (R ++ B) Hok) as (h' & fl' & r & M1 & M2); [|done|done|].
    { rewrite E, E', EA, <- !app_assoc. done. }
    exists h', fl', r. split; [|exact M2]. cbn [hloop]. by erewrite h_bind by exact M1.
Qed.

(** ** More memory *)

Lemma fresh_none p n u : ~ within (p, n) u -> fresh p (Z.to_nat n) !! u = None.
Proof.
  intros Hu. destruct (fresh p (Z.to_nat n) !! u) eqn:E; [|done]. exfalso. apply Hu. unfold fresh in E. apply elem_of_list_to_map_2, list_elem_of_fmap in E as (i & Ei & Hi).
  injection Ei as -> _. apply elem_of_seq in Hi. unfold within, stop_of, HEADER. cbn [fst snd]. lia.
Qed.

Lemma fresh_some p n i : 0 <= i < n -> is_Some (fresh p (Z.to_nat n) !! (p + HEADER * i)).
Proof.
  intros Hi. destruct (fresh p (Z.to_nat n) !! (p + HEADER * i)) eqn:E; [eauto|]. exfalso. unfold fresh in E. apply not_elem_of_list_to_map_2 in E. apply E.
  apply list_elem_of_fmap. exists (p + HEADER * i, (0, 0)). split; [done|]. apply list_elem_of_fmap. exists (Z.to_nat i). split; [by rewrite Z2Nat.id by lia|]. apply elem_of_seq. lia.
Qed.

Lemma glue_length x l : (length (glue x l) <= S (length l))%nat.
Proof. unfold glue. destruct l as [|y l]; [done|]. destruct (_ =? _); cbn [length]; lia. Qed.

Lemma put_length x l : (length (put x l) <= S (length l))%nat.
Proof.
  induction l as [|y l IH]; cbn [put length]; [done|]. destruct (_ <=? _); [assert (H := glue_length y (put x l)); lia|apply glue_length].
Qed.

Lemma glue_fits n x l : 0 <= x.2 -> Forall (fun y => 0 <= y.2) l -> Exists (fun x => n <= x.2) (x :: l) -> Exists (fun x => n <= x.2) (glue x l).
Proof.
  intros Hx Hl He. unfold glue. destruct Hl as [|y l Hy Hl]; [done|]. destruct (_ =? _); [|done].
  apply Exists_cons in He as [He|[He|He]%Exists_cons]; [apply Exists_cons_hd; cbn; lia|apply Exists_cons_hd; cbn; lia|by apply Exists_cons_tl].
Qed.

Lemma glue_nonneg x l : 0 <= x.2 -> Forall (fun y => 0 <= y.2) l -> Forall (fun y => 0 <= y.2) (glue x l).
Proof. intros Hx Hl. unfold glue. destruct Hl as [|y l Hy Hl]; [by repeat constructor|]. destruct (_ =? _); repeat (constructor; cbn; [lia|]); done. Qed.

Lemma put_nonneg x l : 0 <= x.2 -> Forall (fun y => 0 <= y.2) l -> Forall (fun y => 0 <= y.2) (put x l).
Proof. intros Hx. induction 1 as [|y l Hy Hl IH]; cbn [put]; [by repeat constructor|]. destruct (_ <=? _); apply glue_nonneg; auto. Qed.

Lemma put_fits n x l : n <= x.2 -> 0 <= x.2 -> Forall (fun y => 0 <= y.2) l -> Exists (fun x => n <= x.2) (put x l).
Proof.
  intros Hn Hx. induction 1 as [|y l Hy Hl IH]; cbn [put]; [by apply Exists_cons_hd|]. destruct (_ <=? _); apply glue_fits; auto using put_nonneg.
Qed.

Lemma ordered_nonneg lo l : ordered lo l -> Forall (fun y => 0 <= y.2) l.
Proof. intros Ho. apply list.Forall_forall. intros y Hy. apply (ordered_bounds _ _ _ Ho) in Hy. lia. Qed.

(** The free blocks stay as they are when their cells do. *)
Lemma heap_ok_frame base h h' fl : heap_ok base h fl -> freep h' = freep h -> (forall u, is_Some (cells h !! u) -> is_Some (cells h' !! u)) ->
  (forall u, u = base \/ covers fl u -> cells h' !! u = cells h !! u) -> heap_ok base h' fl.
Proof.
  intros [H0 Hr Ho Hfp Hm] Hf Hmono Hu. split; [done| |done|by rewrite Hf|by eapply list.Forall_impl; [exact Hm|intros x; apply mapped_mono]].
  eapply seg_frame; [|exact Hr]. intros x [->|Hx]%elem_of_cons; apply Hu; [by left|right]. apply covers_elem. exists x. split; [done|].
  apply (ordered_bounds _ _ _ Ho) in Hx. unfold within, stop_of, HEADER. lia.
Qed.

Definition grant_size (n : Z) : Z := if n <? 4096 then 4096 else n.

Lemma apart_outside base x l u : apart base x l -> u = base \/ covers l u -> ~ within x u.
Proof.
  intros [A1 A2 A3 A4] [->|(y & Hy & Hu)%covers_elem]; [unfold within; lia|]. apply A4 in Hy. unfold within in *. lia.
Qed.

Lemma sbrk_ok h n p g : grants h = Some p :: g -> 0 <= n -> HEADER * n < 2 ^ 31 ->
  sbrk (i32 (u64 (n * HEADER))) h = Done (p, h <| cells ::= fun m => fresh p (Z.to_nat n) ∪ m |> <| grants := g |>).
Proof.
  intros Hg Hn Hl. unfold HEADER in *. rewrite u64_id by lia. rewrite i32_id by (unfold in_i32; lia). unfold sbrk. rewrite Hg. unfold HEADER. by rewrite Z.div_mul by lia.
Qed.

Lemma morecore_ok base fuel n h fl p g : heap_ok base h fl -> grants h = Some p :: g -> 0 < n -> HEADER * grant_size n < 2 ^ 31 ->
  apart base (p, grant_size n) fl -> (S (length fl) < fuel)%nat ->
  exists h', morecore fuel n h = Done (freep h', h') /\ heap_ok base h' (put (p, grant_size n) fl) /\ grants h' = g /\
    (forall u, is_Some (cells h !! u) -> is_Some (cells h' !! u)) /\
    forall u, u <> base -> ~ covers fl u -> ~ within (p, grant_size n) u -> cells h' !! u = cells h !! u.
Proof.
  intros Hok Hg Hn Hl Hap Hf. set (nu := grant_size n) in *. assert (Hnu : 0 < nu) by apply Hap. assert (H0 := ho_base _ _ _ Hok).
  unfold morecore. change (if n <? 4096 then 4096 else n) with nu. erewrite h_bind by (apply sbrk_ok; [exact Hg|lia|lia]).
  set (h1 := h <| cells ::= _ |> <| grants := g |>). assert (Hp := ap_above _ _ _ Hap). cbn [fst] in Hp. destruct (Z.eqb_spec p (-1)); [lia|].
  assert (Hfr : forall u, ~ within (p, nu) u -> cells h1 !! u = cells h !! u).
  { intros u Hu. cbn. apply lookup_union_r. by apply fresh_none. }
  assert (Hin : mapped (cells h1) (p, nu)). { intros i Hi. cbn. apply lookup_union_is_Some. left. by apply fresh_some. }
  destruct (Hin 0 ltac:(cbn; lia)) as [c Hc]. cbn [fst] in Hc. rewrite Z.mul_0_r, Z.add_0_r in Hc.
  erewrite h_bind by (apply set_size_ok, Hc). set (h2 := with_cell p (c.1, nu) h1).
  assert (Hmono : forall u, is_Some (cells h !! u) -> is_Some (cells h2 !! u)).
  { intros u Hu. cbn. rewrite lookup_insert. case_decide; [eauto|]. apply lookup_union_is_Some. by right. }
  assert (Hok2 : heap_ok base h2 fl).
  { apply (heap_ok_frame base h); [done|done|done|]. intros u Hu. assert (Hw := apart_outside _ _ _ _ Hap Hu). cbn. rewrite lookup_insert_ne; [by apply Hfr|].
    intros <-. apply Hw. unfold within, stop_of, HEADER. cbn [fst snd]. lia. }
  destruct (free_ok base fuel h2 fl (p, nu) c.1 Hok2 Hap) as (h' & F1 & F2 & F3 & F4 & F5); [apply with_cell_here| |done|].
  { eapply mapped_mono; [|exact Hin]. intros u Hu. cbn. rewrite lookup_insert. case_decide; eauto. }
  cbn [fst] in F1. erewrite h_bind by exact F1. exists h'. split; [done|]. split; [done|]. split; [by rewrite F3|]. split; [auto|].
  intros u U1 U2 U3. rewrite F5.
  - cbn. rewrite lookup_insert_ne; [by apply Hfr|]. intros <-. apply U3. unfold within, stop_of, HEADER. cbn [fst snd]. lia.
  - cbn [fst]. intros ->. apply U3. unfold within, stop_of, HEADER. cbn [fst snd]. lia.
  - apply uncovered; [by destruct Hok|done|done].
Qed.

(** ** [malloc] *)

Definition nunits (nbytes : Z) : Z := (nbytes + HEADER - 1) / HEADER + 1.

(** Before the first call the ring is not made yet. *)
Definition alloc_ok (base : Z) (h : heap) (fl : list node) : Prop :=
  heap_ok base h fl \/ (freep h = 0 /\ fl = [] /\ 0 < base <= LIM /\ is_Some (cells h !! base)).

(** What the cells outside the free blocks keep. *)
Definition kept (base : Z) (fl : list node) (h h' : heap) : Prop :=
  (forall u, is_Some (cells h !! u) -> is_Some (cells h' !! u)) /\ forall u, u <> base -> ~ covers fl u -> cells h' !! u = cells h !! u.

Lemma kept_refl base fl h : kept base fl h h.
Proof. by split. Qed.

Lemma kept_trans base fl h1 h2 h3 : kept base fl h1 h2 -> kept base fl h2 h3 -> kept base fl h1 h3.
Proof. intros [A1 A2] [B1 B2]. split; [auto|]. intros u U1 U2. by rewrite B2, A2. Qed.

(** The memory that a call of [malloc] cuts the block out of: the free blocks,
    with the answer of [sbrk] when none of them is large enough. *)
Inductive supply (n : Z) (fl : list node) : option Z -> list node -> Prop :=
| Supply_free ans : Exists (fun x => n <= x.2) fl -> supply n fl ans fl
| Supply_more p : Forall (small n) fl -> supply n fl (Some p) (put (p, grant_size n) fl).

Definition fresh_answer (base n : Z) (fl : list node) (ans : option Z) : Prop :=
  match ans with Some p => apart base (p, grant_size n) fl | None => True end.

(** The ring of an allocator that was not used yet. *)
Lemma malloc_init base h fl : alloc_ok base h fl -> exists h1, heap_ok base h1 fl /\ grants h1 = grants h /\ kept base fl h h1 /\
  forall fuel nb, malloc fuel base nb h = malloc fuel base nb h1.
Proof.
  intros [Hok|(Hf & -> & H0 & [c Hc])].
  - exists h. split_and!; try done.
  - exists (with_cell base (base, 0) (h <| freep := base |>)). split; [|split; [done|split]].
    + split; [lia| | | |constructor].
      * unfold ring. cbn. by rewrite lookup_insert_eq.
      * cbn. lia.
      * cbn. left.
    + split; [intros u Hu; cbn; rewrite lookup_insert; case_decide; eauto|]. intros u U1 U2. cbn. by rewrite lookup_insert_ne.
    + intros fuel nb. unfold malloc.
      change ((get_freep ≫= ?k) h) with (k (freep h) h). change ((get_freep ≫= ?k) (with_cell base (base, 0) (h <| freep := base |>))) with (k base (with_cell base (base, 0) (h <| freep := base |>))).
      cbv beta. rewrite Hf. destruct (Z.eqb_spec base 0); [lia|]. change (0 =? 0) with true. cbv match.
      erewrite h_bind; [reflexivity|]. change ((set_freep base ;; ?k) h) with (k (h <| freep := base |>)).
      erewrite h_bind by (apply (set_ptr_ok _ _ _ c); exact Hc). erewrite h_bind by (apply set_size_ok, with_cell_here).
      cbn [fst]. by rewrite with_cell_twice.
Qed.

(** A step back at [freep]. *)
Lemma malloc_step_freep fuel n h prev s e : cells h !! freep h = Some (e, s) -> s < n ->
  malloc_step fuel n (prev, freep h) h = match morecore fuel n h with
  | Done (q, h') => if q =? 0 then Done (inr 0, h') else (next ← get_ptr q; mret (inl (q, next))) h'
  | Undef u => Undef u
  | OutOfFuel => OutOfFuel
  end.
Proof.
  intros Hc Hs. unfold malloc_step. erewrite h_bind by (apply get_size_ok, Hc). cbn [snd]. destruct (Z.leb_spec n s); [lia|].
  change ((get_freep ≫= ?k) h) with (k (freep h) h). cbv beta. rewrite Z.eqb_refl.
  unfold mbind at 1, H_bind at 1. destruct (morecore fuel n h) as [[q h']| |]; [|done|done]. by destruct (q =? 0).
Qed.

Lemma malloc_fail_or_more fuel n h fl base k : heap_ok base h fl -> Forall (small n) fl -> 0 < n -> exists c, cells h !! freep h = Some c /\
  hloop (length fl + S k) (malloc_step fuel n) (freep h, c.1) h =
  match morecore fuel n h with
  | Done (q, h') => if q =? 0 then Done (0, h') else (next ← get_ptr q; hloop k (malloc_step fuel n) (q, next)) h'
  | Undef u => Undef u
  | OutOfFuel => OutOfFuel
  end.
Proof.
  intros Hok Hs Hn. destruct (freep_split _ _ _ Hok) as (A & s & B & E & HA & HB & S1 & S2 & S3 & S4).
  exists (head_addr B base, s). split; [done|]. cbn [fst].
  assert (Hlen : (length A + length B = length fl)%nat). { apply (f_equal length) in E. rewrite length_app in E. cbn [length] in E. lia. }
  assert (Hall : Forall (small n) (A ++ (freep h, s) :: B)) by (rewrite <- E; by constructor).
  apply Forall_app in Hall as [HsA HsB]. apply list.Forall_cons in HsB as [Hsf HsB].
  replace (length fl + S k)%nat with (length B + (length A + S k))%nat by lia. rewrite malloc_walk by done.
  assert (W := fun k => malloc_walk fuel n h (freep h) k A (last_addr (freep h) B) S1 HsA HA). rewrite S4 in W. rewrite W. clear W.
  cbn [hloop]. unfold mbind at 1, H_bind at 1. erewrite malloc_step_freep by (exact S2 || exact Hsf).
  destruct (morecore fuel n h) as [[q h']| |]; [|done|done]. destruct (Z.eqb_spec q 0); [done|].
  unfold mbind, H_bind, mret, H_ret. by destruct (get_ptr q h') as [[next h'']| |].
Qed.

Lemma malloc_run base fuel nb h fl ans g : alloc_ok base h fl -> grants h = ans :: g -> 0 <= nb <= 2 ^ 31 - 2 * HEADER ->
  fresh_answer base (nunits nb) fl ans -> (2 * length fl + 3 < fuel)%nat ->
  exists h', (malloc fuel base nb h = Done (0, h') /\ Forall (small (nunits nb)) fl /\ ans = None /\ heap_ok base h' fl /\ kept base fl h h') \/
  exists fl0 fl' r, malloc fuel base nb h = Done (r + HEADER, h') /\ supply (nunits nb) fl ans fl0 /\ carve (nunits nb) fl0 fl' r /\
    heap_ok base h' fl' /\ held h' (r, nunits nb) /\ kept base fl0 h h' /\ (fl0 = fl \/ grants h' = g).
Proof.
  intros Ha Hg Hnb Hfr Hf. destruct (malloc_init _ _ _ Ha) as (h1 & Hok & Hg1 & Hk1 & E). rewrite Hg in Hg1. set (n := nunits nb) in *.
  assert (Hn : 0 < n /\ HEADER * grant_size n < 2 ^ 31). { unfold n, nunits, grant_size, HEADER in *. assert (H := Z.mul_div_le (nb + 16 - 1) 16). assert (0 <= (nb + 16 - 1) / 16) by (apply Z.div_pos; lia). destruct (_ <? 4096); lia. }
  destruct Hn as [Hn Hl]. assert (H0 := ho_base _ _ _ Hok).
  destruct (freep_split _ _ _ Hok) as (A & s & B & _ & _ & _ & _ & S2 & _ & _). set (c := (head_addr B base, s)) in S2.
  assert (Hf1 := freep_pos _ _ _ Hok).
  assert (Estart : malloc fuel base nb h = hloop fuel (malloc_step fuel n) (freep h1, c.1) h1).
  { rewrite E. unfold malloc. change ((get_freep ≫= ?k) h1) with (k (freep h1) h1). cbv beta. destruct (Z.eqb_spec (freep h1) 0); [lia|].
    erewrite h_bind by reflexivity. erewrite h_bind by (apply get_ptr_ok, S2).
    change ((nb + HEADER - 1) / HEADER + 1) with n. rewrite u32_id; [done|]. unfold grant_size, HEADER in Hl. destruct (Z.ltb_spec n 4096); lia. }
  rewrite Estart. destruct (small_or_fits n fl) as [Hs|Hs].
  - destruct (malloc_fail_or_more fuel n h1 fl base (fuel - length fl - 1) Hok Hs Hn) as (c' & Hc' & M). rewrite S2 in Hc'. injection Hc' as <-.
    replace (length fl + S (fuel - length fl - 1))%nat with fuel in M by lia. rewrite M. destruct ans as [p|].
    + destruct (morecore_ok base fuel n h1 fl p g Hok Hg1 Hn Hl Hfr) as (h2 & -> & Hok2 & Hg2 & Hm2 & Hk2); [lia|].
      assert (Hord := ho_order _ _ _ Hok).
      assert (Hf2 := freep_pos _ _ _ Hok2).
      destruct (Z.eqb_spec (freep h2) 0); [lia|]. destruct (freep_split _ _ _ Hok2) as (A2 & s2 & B2 & _ & _ & _ & _ & T2 & _ & _).
      erewrite h_bind by (apply get_ptr_ok, T2).
      destruct (search_fits base fuel (fuel - length fl - 1) n h2 (put (p, grant_size n) fl) (head_addr B2 base, s2) Hok2 Hn) as (h' & fl' & r & R1 & R2 & R3 & R4 & R5 & R6 & R7); [| exact T2| |].
      { apply put_fits; [unfold grant_size; cbn; destruct (Z.ltb_spec n 4096); lia|unfold grant_size; cbn; destruct (Z.ltb_spec n 4096); lia|by eapply ordered_nonneg]. }
      { assert (H := put_length (p, grant_size n) fl). lia. }
      exists h'. right. exists (put (p, grant_size n) fl), fl', r. split; [exact R1|]. split; [by constructor|]. split; [done|]. split; [done|]. split; [done|].
      split; [|right; by rewrite R4]. split; [intros u Hu; apply R6, Hm2, Hk1, Hu|]. intros u U1 U2. assert (Hp := put_block_ok base (p, grant_size n) fl Hord (ap_above _ _ _ Hfr) (ap_size _ _ _ Hfr) (ap_limit _ _ _ Hfr) (ap_apart _ _ _ Hfr)).
      destruct Hp as [_ Hp]. rewrite R7 by done. rewrite Hp in U2. rewrite Hk2 by tauto. apply Hk1; tauto.
    + unfold morecore. erewrite h_bind; [|unfold sbrk; rewrite Hg1; reflexivity]. change (-1 =? -1) with true. cbv match.
      exists (h1 <| grants := g |>). left. split; [done|]. split; [done|]. split; [done|]. split; [by apply (heap_ok_frame base h1)|].
      split; [apply Hk1|apply Hk1].
  - destruct (search_fits base fuel fuel n h1 fl c Hok Hn Hs S2) as (h' & fl' & r & R1 & R2 & R3 & R4 & R5 & R6 & R7); [lia|].
    exists h'. right. exists fl, fl', r. split; [exact R1|]. split; [by constructor|]. split; [done|]. split; [done|]. split; [done|].
    split; [|by left]. apply (kept_trans base fl h h1); [done|]. by split.
Qed.
