(* ===== verification/UmallocClient.v ===== *)
(** * A program that uses the allocator

    The memory that a program holds under any sequence of calls of [malloc] and
    [free] and of stores into its blocks: the calls return, and no two blocks
    and no free block overlap. *)
From stdpp Require Import base tactics list numbers gmap.
From S2P Require Import Prelude Umalloc UmallocRep.

Open Scope Z_scope.

(** ** The program *)

(** A program: its heap, the blocks it holds, and the end of its memory. *)
Record client := mkClient { cheap : heap; live : list (Z * Z); top : Z }.

#[global] Instance client_settable : Settable client := fun c => mkClient (cheap c) (live c) (top c).

(** [Malloc nbytes gap refuse]: other code moves the end of the memory up by
    [gap] first, and the kernel refuses when [refuse] holds.  [Free k] gives
    the [k]-th block back; [Write k i c] stores into its cell [i]. *)
Inductive op := Malloc (nbytes gap : Z) (refuse : bool) | Free (k : nat) | Write (k : nat) (i : Z) (c : Z * Z).

(** The answer of the kernel when [n] cells are asked for. *)
Definition answer (c : client) (n gap : Z) (refuse : bool) : option Z :=
  let p := top c + Z.max 0 gap in
  if refuse || (LIM <? p + HEADER * grant_size n) then None else Some p.

Definition step (fuel : nat) (base : Z) (o : op) (c : client) : run client :=
  match o with
  | Malloc nbytes gap refuse =>
      let n := nunits nbytes in
      let ans := answer c n gap refuse in
      match malloc fuel base nbytes (cheap c <| grants := [ans] |>) with
      | Done (r, h) =>
          Done (mkClient h (if r =? 0 then live c else (r - HEADER, n) :: live c)
                  (match grants h, ans with [], Some p => p + HEADER * grant_size n | _, _ => top c end))
      | Undef u => Undef u
      | OutOfFuel => OutOfFuel
      end
  | Free k =>
      match live c !! k with
      | Some x =>
          match free fuel (x.1 + HEADER) (cheap c) with
          | Done (_, h) => Done (mkClient h (delete k (live c)) (top c))
          | Undef u => Undef u
          | OutOfFuel => OutOfFuel
          end
      | None => Done c
      end
  | Write k i v =>
      match live c !! k with
      | Some x => Done (if (0 <? i) && (i <? x.2) then c <| cheap ::= with_cell (x.1 + HEADER * i) v |> else c)
      | None => Done c
      end
  end.

Fixpoint steps (fuel : nat) (base : Z) (ops : list op) (c : client) : run client :=
  match ops with
  | [] => Done c
  | o :: ops =>
      match step fuel base o c with
      | Done c' => steps fuel base ops c'
      | Undef u => Undef u
      | OutOfFuel => OutOfFuel
      end
  end.

(** Requests for which [nu * sizeof(Header)] is an [int]. *)
Definition valid (o : op) : Prop := match o with Malloc nbytes _ _ => 0 <= nbytes <= 2 ^ 31 - 2 * HEADER | _ => True end.

Definition start (base top : Z) : client := mkClient (mkHeap {[ base := (0, 0) ]} 0 []) [] top.

(** ** Blocks that do not overlap *)

Fixpoint sep (l : list (Z * Z)) : Prop :=
  match l with [] => True | x :: l => (forall u, within x u -> ~ covers l u) /\ sep l end.

Lemma covers_delete l k u : covers (delete k l) u -> covers l u.
Proof. revert k. induction l as [|x l IH]; intros [|k]; cbn [covers delete list_delete]; [done|done|tauto|]. intros [H|H]; [by left|right; by eapply IH]. Qed.

Lemma covers_lookup l k x u : l !! k = Some x -> within x u -> covers l u.
Proof. intros Hx Hu. apply covers_elem. exists x. split; [by eapply list_elem_of_lookup_2|done]. Qed.

Lemma sep_delete l k x : sep l -> l !! k = Some x -> sep (delete k l) /\ forall u, within x u -> ~ covers (delete k l) u.
Proof.
  revert k. induction l as [|y l IH]; intros [|k] Hs Hx; cbn in Hx; try done; cbn [sep delete list_delete covers] in *; destruct Hs as [H1 H2].
  - injection Hx as <-. by split.
  - destruct (IH k H2 Hx) as [I1 I2]. split; [split; [|done]|].
    + intros u Hu Hc. by apply (H1 u), (covers_delete l k).
    + intros u Hu [Hy|Hc]; [|by eapply I2]. apply (H1 u Hy). by eapply covers_lookup.
Qed.

Lemma sep_lookup l i j x y : sep l -> l !! i = Some x -> l !! j = Some y -> i <> j -> forall u, within x u -> ~ within y u.
Proof.
  revert i j. induction l as [|z l IH]; [done|]. intros [|i] [|j] [H1 H2] Hx Hy Hij u Hu Hu'; cbn in Hx, Hy; try done.
  - injection Hx as ->. apply (H1 u Hu). by eapply covers_lookup.
  - injection Hy as ->. apply (H1 u Hu'). by eapply covers_lookup.
  - apply (IH i j H2 Hx Hy ltac:(lia) u Hu Hu').
Qed.

(** Blocks that share no address are apart. *)
Lemma apart_intro base top x fl : ordered base fl -> 0 < x.2 -> top <= LIM -> (forall u, within x u -> base < u < top /\ ~ covers fl u) -> apart base x fl.
Proof.
  intros Ho Hx Ht Hu. assert (H1 := Hu x.1). assert (H2 := Hu (stop_of x - 1)). unfold within, stop_of, HEADER in *. split; [lia|done|unfold stop_of, HEADER; lia|].
  intros y Hy. assert (Hb := ordered_bounds _ _ _ Ho Hy). unfold stop_of, HEADER in *.
  destruct (Z.le_gt_cases (y.1 + 16 * y.2) x.1); [by left|]. right. destruct (Z.le_gt_cases (x.1 + 16 * x.2) y.1); [done|]. exfalso.
  apply (Hu (Z.max x.1 y.1)); [lia|]. apply covers_elem. exists y. split; [done|]. unfold within, stop_of, HEADER. lia.
Qed.

(** ** The invariant *)

(** The program holds its blocks, and [fl] are the free ones. *)
Record client_ok (base : Z) (c : client) (fl : list (Z * Z)) : Prop := mkClientOk {
  co_alloc : alloc_ok base (cheap c) fl;
  co_sep : sep (live c);
  co_free : forall u, covers (live c) u -> ~ covers fl u;
  co_range : forall u, covers (live c) u \/ covers fl u -> base < u < top c;
  co_top : base < top c <= LIM;
  co_held : Forall (held (cheap c)) (live c);
  co_unused : freep (cheap c) = 0 -> live c = []
}.

Lemma alloc_ordered base h fl : alloc_ok base h fl -> ordered base fl.
Proof. intros [[]|(_ & -> & H & _)]; [done|]. cbn. lia. Qed.

Lemma held_within h x : held h x -> within x x.1.
Proof. intros (H & _). unfold within, stop_of, HEADER. lia. Qed.

(** A block stays held while its cells do not change. *)
Lemma held_frame h h' x : (forall u, is_Some (cells h !! u) -> is_Some (cells h' !! u)) -> (forall u, within x u -> cells h' !! u = cells h !! u) -> held h x -> held h' x.
Proof.
  intros Hm Hu Hx. assert (Hw := held_within _ _ Hx). destruct Hx as (H1 & [j H2] & H3). split; [done|]. split; [exists j; by rewrite Hu|]. by eapply mapped_mono.
Qed.

Lemma live_apart base c fl k x : client_ok base c fl -> live c !! k = Some x -> apart base x fl.
Proof.
  intros [C1 C2 C3 C4 C5 C6 C7] Hx. assert (Hh := list.Forall_lookup_1 _ _ _ _ C6 Hx). apply (apart_intro base (top c)); [by eapply alloc_ordered|apply Hh|lia|].
  intros u Hu. assert (Hc := covers_lookup _ _ _ _ Hx Hu). split; [apply C4; by left|by apply C3].
Qed.

(** The memory a call of [malloc] is served from. *)
Lemma supply_length n fl ans fl0 fl' r : supply n fl ans fl0 -> carve n fl0 fl' r -> (length fl' <= S (length fl))%nat.
Proof.
  intros Hs (pre & x & post & E & _ & _ & ->). assert (H : (length fl0 <= S (length fl))%nat) by (destruct Hs; [lia|apply put_length]).
  rewrite E in H. rewrite !length_app in *. cbn [length] in H. destruct (x.2 =? n); cbn [length]; lia.
Qed.

Lemma supply_covers base n fl ans fl0 : ordered base fl -> fresh_answer base n fl ans -> supply n fl ans fl0 ->
  ordered base fl0 /\ forall u, covers fl0 u -> covers fl u \/ exists p, ans = Some p /\ within (p, grant_size n) u.
Proof.
  intros Ho Hf Hs. destruct Hs as [ans Hs|p Hs]; [by split; [|left]|]. destruct Hf as [A1 A2 A3 A4].
  destruct (put_block_ok base _ fl Ho A1 A2 A3 A4) as [P1 P2]. split; [done|]. intros u Hu. apply P2 in Hu as [Hu|Hu]; [right|by left]. by exists p.
Qed.

(** ** The steps keep the invariant *)

(** What a step leaves alone: the blocks held before and after, except the
    cell that the program stores into. *)
Definition stored (o : op) (c : client) (u : Z) : Prop :=
  match o with Write k i _ => exists x, live c !! k = Some x /\ u = x.1 + HEADER * i | _ => False end.
Definition data_kept (o : op) (c c' : client) : Prop :=
  forall x u, x ∈ live c -> x ∈ live c' -> within x u -> ~ stored o c u -> cells (cheap c') !! u = cells (cheap c) !! u.

Definition step_ok (fuel : nat) (base : Z) (o : op) (c : client) (fl : list (Z * Z)) : Prop :=
  exists c' fl', step fuel base o c = Done c' /\ client_ok base c' fl' /\ (length fl' <= S (length fl))%nat /\ data_kept o c c'.

Lemma answer_fresh base c fl n gap refuse : client_ok base c fl -> fresh_answer base n fl (answer c n gap refuse).
Proof.
  intros [C1 C2 C3 C4 C5 C6 C7]. unfold answer. destruct refuse; [done|]. cbn [orb]. destruct (Z.ltb_spec LIM (top c + Z.max 0 gap + HEADER * grant_size n)); [done|].
  cbn [fresh_answer]. assert (Hg : 0 < grant_size n) by (unfold grant_size; destruct (Z.ltb_spec n 4096); lia).
  split; unfold stop_of; cbn [fst snd]; [lia|done|done|]. intros y Hy. left. assert (Hb := ordered_bounds _ _ _ (alloc_ordered _ _ _ C1) Hy).
  assert (Hc : covers fl (y.1 + HEADER * y.2 - 1)). { apply covers_elem. exists y. split; [done|]. unfold within, stop_of, HEADER in *. lia. }
  assert (Hr := C4 _ (or_intror Hc)). unfold stop_of, HEADER in *. lia.
Qed.

Lemma answer_above c n gap refuse p : answer c n gap refuse = Some p -> top c <= p /\ p + HEADER * grant_size n <= LIM.
Proof.
  unfold answer. destruct refuse; [done|]. cbn [orb]. destruct (Z.ltb_spec LIM (top c + Z.max 0 gap + HEADER * grant_size n)); [done|].
  intros [= <-]. lia.
Qed.

(** The blocks of the program are outside what the allocator changes. *)
Lemma live_kept base h h' fl l : kept base fl h h' -> (forall u, covers l u -> u <> base /\ ~ covers fl u) -> Forall (held h) l ->
  Forall (held h') l /\ forall u, covers l u -> cells h' !! u = cells h !! u.
Proof.
  intros [K1 K2] Hl Hh. assert (Hu : forall u, covers l u -> cells h' !! u = cells h !! u) by (intros u Hu; apply K2; by apply Hl).
  split; [|done]. apply list.Forall_forall. intros x Hx. apply (held_frame h); [done| |by eapply list.Forall_forall in Hh].
  intros u Hw. apply Hu, covers_elem. by exists x.
Qed.

Lemma elem_covers l x u : x ∈ l -> within x u -> covers l u.
Proof. intros Hx Hu. apply covers_elem. by exists x. Qed.

Lemma malloc_step_ok fuel base nb gap refuse c fl : client_ok base c fl -> valid (Malloc nb gap refuse) -> (2 * length fl + 3 < fuel)%nat ->
  step_ok fuel base (Malloc nb gap refuse) c fl.
Proof.
  intros Hc Hv Hf. assert (Hfr := answer_fresh base c fl (nunits nb) gap refuse Hc). set (ans := answer c (nunits nb) gap refuse) in *.
  destruct Hc as [C1 C2 C3 C4 C5 C6 C7]. set (h0 := cheap c <| grants := [ans] |>).
  assert (Ho := alloc_ordered _ _ _ C1).
  assert (A0 : alloc_ok base h0 fl). { destruct C1 as [C1|C1]; [left|by right]. by apply (heap_ok_frame base (cheap c)). }
  destruct (malloc_run base fuel nb h0 fl ans [] A0 eq_refl Hv Hfr Hf) as (h' & [(E & Hs & Ea & Hok & Hk)|(fl0 & fl' & r & E & Hs & Hcar & Hok & Hr & Hk & Hg)]).
  - destruct (live_kept base (cheap c) h' fl (live c) Hk) as [L1 L2]; [|done|].
    { intros u Hu. split; [|by apply C3]. assert (H := C4 u (or_introl Hu)). lia. }
    unfold step_ok, step. cbv zeta. fold ans. fold h0. rewrite E, Ea. cbn [Z.eqb]. eexists _, fl. split; [reflexivity|]. split; [|split; [lia|]].
    + split; cbn [cheap live top]; try done; [by left|destruct (grants h'); done|destruct (grants h'); done|intros Hz; apply freep_pos in Hok; lia].
    + intros x u Hx _ Hu _. by apply L2, (elem_covers _ x).
  - destruct (supply_covers base _ fl ans fl0 Ho Hfr Hs) as [Ho0 Hcov].
    assert (Hn : 0 < nunits nb) by apply Hr. destruct (carve_ok base _ _ _ _ Hcar Hn Ho0) as (D1 & D2 & D3). set (top' := match grants h' with [] => match ans with Some p => p + HEADER * grant_size (nunits nb) | None => top c end | _ => top c end).
    assert (Habove := answer_above c (nunits nb) gap refuse). fold ans in Habove.
    assert (Htop : top c <= top' <= LIM).
    { unfold top'. assert (Hgn : 0 < grant_size (nunits nb)) by (unfold grant_size; destruct (Z.ltb_spec (nunits nb) 4096); lia).
      destruct (grants h'); [|lia]. destruct ans as [p|]; [|lia]. specialize (Habove p eq_refl). unfold HEADER in *. lia. }
    assert (Hin0 : forall u, covers fl0 u -> base < u < top').
    { intros u Hu. destruct Hg as [->|Hg]; [assert (H := C4 u (or_intror Hu)); lia|]. unfold top' in *. rewrite Hg in *. destruct (Hcov u Hu) as [Hu'|(p & Ep & Hp)].
      - assert (H := C4 u (or_intror Hu')). lia.
      - specialize (Habove p Ep). rewrite Ep in *. unfold within, stop_of in Hp. cbn [fst snd] in Hp. lia. }
    assert (Hout : forall u, covers (live c) u -> u <> base /\ ~ covers fl0 u).
    { intros u Hu. assert (H := C4 u (or_introl Hu)). split; [lia|]. intros Hu0. destruct (Hcov u Hu0) as [Hu'|(p & Ep & Hp)]; [by eapply C3|].
      specialize (Habove p Ep). unfold within in Hp. cbn [fst snd] in Hp. lia. }
    destruct (live_kept base (cheap c) h' fl0 (live c) Hk Hout C6) as [L1 L2]. assert (Hbase := ap_above _ _ _ D2). assert (H0 := ho_base _ _ _ Hok). cbn [fst] in Hbase.
    unfold step_ok, step. cbv zeta. fold ans. fold h0. rewrite E. destruct (Z.eqb_spec (r + HEADER) 0) as [Ez|_]; [unfold HEADER in Ez; lia|]. rewrite Z.add_simpl_r. fold top'.
    eexists _, fl'. split; [reflexivity|]. split; [|split; [by eapply supply_length|]].
    + split; cbn [cheap live top]; [by left| | | |lia|by constructor|intros Hz; apply freep_pos in Hok; lia].
      * cbn [sep]. split; [|done]. intros u Hu Hl. apply Hout in Hl as [_ Hl]. apply Hl, D3. by right.
      * intros u [Hu|Hu] Hu'; [|apply (Hout u Hu), D3; by left]. destruct D2 as [_ _ _ D2]. apply covers_elem in Hu' as (y & Hy & Hu'). apply D2 in Hy. unfold within in *. lia.
      * intros u [[Hu|Hu]|Hu]; [apply Hin0, D3; by right|assert (H := C4 u (or_introl Hu)); lia|apply Hin0, D3; by left].
    + intros x u Hx _ Hu _. by apply L2, (elem_covers _ x).
Qed.

Lemma free_step_ok fuel base k c fl : client_ok base c fl -> (2 * length fl + 3 < fuel)%nat -> step_ok fuel base (Free k) c fl.
Proof.
  intros Hc Hf. unfold step_ok, step. destruct (live c !! k) as [x|] eqn:Hx; [|by exists c, fl; split_and!; [done|done|lia|]].
  assert (Hap := live_apart _ _ _ _ _ Hc Hx). destruct Hc as [C1 C2 C3 C4 C5 C6 C7]. assert (Hheld := list.Forall_lookup_1 _ _ _ _ C6 Hx). assert (Hx1 := held_within _ _ Hheld). destruct Hheld as (H1 & [junk H2] & H3).
  destruct C1 as [C1|(Hz & _)]; [|by rewrite (C7 Hz) in Hx].
  destruct (free_ok base fuel (cheap c) fl x junk C1 Hap H2 H3) as (h' & E & Hok & Hg & Hm & Hk); [lia|]. rewrite E.
  destruct (sep_delete _ _ _ C2 Hx) as [S1 S2]. assert (Ho := ho_order _ _ _ C1).
  destruct (put_block_ok base x fl Ho (ap_above _ _ _ Hap) (ap_size _ _ _ Hap) (ap_limit _ _ _ Hap) (ap_apart _ _ _ Hap)) as [P1 P2].
  assert (Hout : forall u, covers (delete k (live c)) u -> u <> base /\ ~ covers (put x fl) u).
  { intros u Hu. assert (Hu' := covers_delete _ _ _ Hu). assert (H := C4 u (or_introl Hu')). split; [lia|]. rewrite P2. intros [Hw|Hw]; [by apply (S2 u)|by apply (C3 u)]. }
  assert (Hkept : kept base (put x fl) (cheap c) h').
  { split; [done|]. intros u U1 U2. rewrite P2 in U2. apply Hk; [|apply uncovered; tauto]. intros ->. apply U2. by left. }
  destruct (live_kept base (cheap c) h' (put x fl) (delete k (live c)) Hkept Hout) as [L1 L2].
  { apply list.Forall_forall. intros y Hy. rewrite list.Forall_forall in C6. apply C6. by eapply elem_of_submseteq; [|apply sublist_submseteq, sublist_delete]. }
  eexists _, (put x fl). split; [reflexivity|]. split; [|split; [apply put_length|]].
  - split; cbn [cheap live top]; try done; [by left|intros u Hu; by apply Hout| |intros Hz; apply freep_pos in Hok; lia].
    intros u [Hu|Hu]; [apply C4; left; by eapply covers_delete|]. apply P2 in Hu as [Hu|Hu]; apply C4; [left; by eapply covers_lookup|by right].
  - intros y u _ Hy Hu _. apply L2. by eapply elem_covers.
Qed.

Lemma write_step_ok fuel base k i v c fl : client_ok base c fl -> step_ok fuel base (Write k i v) c fl.
Proof.
  intros Hc. unfold step_ok, step. destruct (live c !! k) as [x|] eqn:Hx; [|by exists c, fl; split_and!; [done|done|lia|]].
  destruct ((0 <? i) && (i <? x.2)) eqn:Hi; [|by exists c, fl; split_and!; [done|done|lia|]].
  destruct Hc as [C1 C2 C3 C4 C5 C6 C7]. set (a := x.1 + HEADER * i). assert (Hw : within x a) by (unfold within, stop_of, a, HEADER; lia).
  assert (Ha := covers_lookup _ _ _ _ Hx Hw). assert (Hm : forall u, is_Some (cells (cheap c) !! u) -> is_Some (cells (with_cell a v (cheap c)) !! u)).
  { intros u Hu. cbn. rewrite lookup_insert. case_decide; eauto. }
  assert (Hne : forall u, u = base \/ covers fl u -> cells (with_cell a v (cheap c)) !! u = cells (cheap c) !! u).
  { intros u Hu. cbn. apply lookup_insert_ne. intros <-. destruct Hu as [->|Hu]; [assert (H := C4 base (or_introl Ha)); lia|by apply (C3 a)]. }
  eexists _, fl. split; [reflexivity|]. split; [|split; [lia|]].
  - split; cbn [cheap live top]; try done.
    + destruct C1 as [C1|(D1 & D2 & D3 & D4)]; [left; by apply (heap_ok_frame base (cheap c))|by rewrite (C7 D1) in Hx].
    + change (Forall (held (with_cell a v (cheap c))) (live c)). apply list.Forall_forall. intros y Hy. rewrite list.Forall_forall in C6. assert (Hh := C6 y Hy). destruct Hh as (H1 & [junk H2] & H3).
      split; [done|]. split; [|by eapply mapped_mono]. exists junk. cbn. rewrite lookup_insert_ne; [done|]. intros E.
      apply list_elem_of_lookup_1 in Hy as [j Hj]. destruct (decide (j = k)) as [->|Hjk]; [rewrite Hx in Hj; injection Hj as <-; unfold a, HEADER in E; lia|].
      apply (sep_lookup _ k j x y C2 Hx Hj (not_eq_sym Hjk) a Hw). rewrite E. by apply (held_within _ _ (C6 y (list_elem_of_lookup_2 _ _ _ Hj))).
  - intros y u _ _ _ Hs. cbn. apply lookup_insert_ne. intros <-. apply Hs. by exists x.
Qed.

Lemma step_all fuel base o c fl : client_ok base c fl -> valid o -> (2 * length fl + 3 < fuel)%nat -> step_ok fuel base o c fl.
Proof. destruct o; [by apply malloc_step_ok|by intros; apply free_step_ok|by intros; apply write_step_ok]. Qed.

Lemma steps_all fuel base ops : forall c fl, client_ok base c fl -> Forall valid ops -> (2 * (length ops + length fl) + 3 < fuel)%nat ->
  exists c' fl', steps fuel base ops c = Done c' /\ client_ok base c' fl' /\ (length fl' <= length ops + length fl)%nat.
Proof.
  induction ops as [|o ops IH]; intros c fl Hc Hv Hf; cbn [steps length] in *; [by exists c, fl|].
  apply list.Forall_cons in Hv as [Hv1 Hv2]. destruct (step_all fuel base o c fl Hc Hv1) as (c1 & fl1 & E & Hc1 & Hl & _); [lia|]. rewrite E.
  destruct (IH c1 fl1 Hc1 Hv2) as (c' & fl' & E' & Hc' & Hl'); [lia|]. exists c', fl'. split_and!; [done|done|lia].
Qed.

Lemma start_ok base top : 0 < base < top -> top <= LIM -> client_ok base (start base top) [].
Proof.
  intros Hb Ht. split; cbn [cheap live start UmallocClient.top covers]; [|done|tauto|tauto|lia|constructor|done].
  right. split; [done|]. split; [done|]. split; [lia|]. cbn. rewrite lookup_singleton_eq. eauto.
Qed.

(** ** What the allocator promises *)

(** C21. A program that calls [malloc] and [free] and stores into its blocks in
    any order, with any growth of its memory between the calls and any refusals
    of the kernel: every call returns; the blocks it holds do not overlap, they
    share no address with a free block, their headers are intact; and a call
    changes no cell of a block that is held before and after it. *)
Theorem malloc_free_safe fuel base top ops o : 0 < base < top -> top <= LIM -> Forall valid (ops ++ [o]) -> (2 * length ops + 3 < fuel)%nat ->
  exists c c' fl', steps fuel base ops (start base top) = Done c /\ step fuel base o c = Done c' /\ client_ok base c' fl' /\ data_kept o c c'.
Proof.
  intros Hb Ht Hv Hf. apply Forall_app in Hv as [Hv1 Hv2]. apply list.Forall_cons in Hv2 as [Hv2 _].
  destruct (steps_all fuel base ops _ [] (start_ok base top Hb Ht) Hv1) as (c & fl & E & Hc & Hl); [cbn; lia|]. cbn [length] in Hl.
  destruct (step_all fuel base o c fl Hc Hv2) as (c' & fl' & E' & Hc' & _ & Hd); [lia|]. by exists c, c', fl'.
Qed.

(** [malloc] returns for every request up to 2^31 - 32 bytes.  The block is cut
    from the end of a free block that was large enough, or, when there was none,
    of one that the memory the kernel granted was merged into; the rest stays
    free.  It answers 0 only when no free block is large enough and the kernel
    refuses.  Nothing outside the free memory changes. *)
Theorem malloc_cuts fuel base nb h fl ans g : alloc_ok base h fl -> grants h = ans :: g -> 0 <= nb <= 2 ^ 31 - 2 * HEADER ->
  fresh_answer base (nunits nb) fl ans -> (2 * length fl + 3 < fuel)%nat ->
  exists h', (malloc fuel base nb h = Done (0, h') /\ Forall (small (nunits nb)) fl /\ ans = None /\ heap_ok base h' fl /\ kept base fl h h') \/
  exists fl0 fl' r, malloc fuel base nb h = Done (r + HEADER, h') /\ supply (nunits nb) fl ans fl0 /\ carve (nunits nb) fl0 fl' r /\
    heap_ok base h' fl' /\ held h' (r, nunits nb) /\ (forall u, covers fl0 u <-> covers fl' u \/ within (r, nunits nb) u) /\ kept base fl0 h h'.
Proof.
  intros Ha Hg Hn Hfr Hf. destruct (malloc_run base fuel nb h fl ans g Ha Hg Hn Hfr Hf) as (h' & [H|(fl0 & fl' & r & E & Hs & Hc & Hok & Hr & Hk & _)]).
  - exists h'. by left.
  - exists h'. right. exists fl0, fl', r. split_and!; try done. eapply (carve_ok base); [exact Hc|by apply Hr|].
    eapply supply_covers; [by eapply alloc_ordered|done|done].
Qed.

(** [free] puts a block into the ring at its place in the order of the
    addresses and merges it with the free blocks it touches on either side: the
    free blocks are those of [put], still in order with gaps between them, and
    the free addresses are the former ones and those of the block.  Nothing
    else changes. *)
Theorem free_merges base fuel h fl x : heap_ok base h fl -> apart base x fl -> held h x -> (S (length fl) < fuel)%nat ->
  exists h', free fuel (x.1 + HEADER) h = Done (tt, h') /\ heap_ok base h' (put x fl) /\
    (forall u, covers (put x fl) u <-> within x u \/ covers fl u) /\
    forall u, u <> x.1 -> u ∉ ((base, 0) :: fl).*1 -> cells h' !! u = cells h !! u.
Proof.
  intros Hok [A1 A2 A3 A4] (_ & [junk Hx] & Hm) Hf. destruct (free_ok base fuel h fl x junk Hok) as (h' & E & Hok' & _ & _ & Hk); try done.
  exists h'. split_and!; try done. by apply (put_block_ok base x fl (ho_order _ _ _ Hok)).
Qed.

(** The product [nu * sizeof(Header)] is cut to an [int]: a request for almost
    four gigabytes is answered with a block of one cell, which holds its header. *)
Example malloc_wraps :
  match malloc 10 64 (2 ^ 32 - 1) (mkHeap {[ 64 := (0, 0) ]} 0 [Some 4096]) with
  | Done (r, h) => r = 4096 + HEADER /\ cells h !! 4096 = Some (64, 2 ^ 28 + 1) /\ cells h !! r = None
  | _ => False
  end.
Proof. vm_compute. done. Qed.

(** ** Instances *)

Lemma malloc_free_safe_witness :
  exists c c' fl', steps 20 64 [Malloc 100 0 false; Malloc 50 4096 false; Write 0 2 (7, 7); Free 1; Malloc 70000 16 false] (start 64 4096) = Done c /\
    step 20 64 (Free 0) c = Done c' /\ client_ok 64 c' fl' /\ data_kept (Free 0) c c'.
Proof. apply malloc_free_safe; [lia|unfold LIM; lia|repeat (apply list.Forall_cons; split; [cbn; unfold HEADER; lia|]); by apply list.Forall_nil|cbn; lia]. Defined.

Lemma malloc_cuts_witness :
  let h := mkHeap {[ 64 := (0, 0) ]} 0 [Some 4096] in
  exists h', (malloc 10 64 100 h = Done (0, h') /\ Forall (small (nunits 100)) [] /\ Some 4096 = None /\ heap_ok 64 h' [] /\ kept 64 [] h h') \/
  exists fl0 fl' r, malloc 10 64 100 h = Done (r + HEADER, h') /\ supply (nunits 100) [] (Some 4096) fl0 /\ carve (nunits 100) fl0 fl' r /\
    heap_ok 64 h' fl' /\ held h' (r, nunits 100) /\ (forall u, covers fl0 u <-> covers fl' u \/ within (r, nunits 100) u) /\ kept 64 fl0 h h'.
Proof.
  intros h. apply (malloc_cuts 10 64 100 h [] (Some 4096) []); [|reflexivity|unfold HEADER; lia| |cbn; lia].
  - right. split; [done|]. split; [done|]. split; [unfold LIM; lia|]. by eexists.
  - split; [done|done|done|]. intros y Hy. by apply elem_of_nil in Hy.
Defined.

Lemma free_merges_witness :
  let h := mkHeap {[ 64 := (4096, 0); 4096 := (64, 2); 4112 := (0, 0); 4128 := (5, 1) ]} 64 [] in
  exists h', free 5 (4128 + HEADER) h = Done (tt, h') /\ heap_ok 64 h' [(4096, 3)] /\
    (forall u, covers [(4096, 3)] u <-> within (4128, 1) u \/ covers [(4096, 2)] u) /\
    forall u, u <> 4128 -> u ∉ [64; 4096] -> cells h' !! u = cells h !! u.
Proof.
  intros h. assert (Hm : mapped (cells h) (4096, 2) /\ mapped (cells h) (4128, 1)).
  { split; intros i Hi; cbn [fst snd] in *; [assert (i = 0 \/ i = 1) as [->| ->] by lia|assert (i = 0) as -> by lia]; by eexists. }
  apply (free_merges 64 5 h [(4096, 2)] (4128, 1)); [| | |cbn; lia].
  - split; [lia|by split_and!|cbn [ordered]; split_and!; done|cbn; left|constructor; [apply Hm|constructor]].
  - split; [done|done|done|]. intros y ->%list_elem_of_singleton. by left.
  - split; [cbn; lia|]. split; [by eexists|apply Hm].
Defined.
