(* ===== verification/Printf.v ===== *)
(** * Formatted output

    Model of [kernel/printf.c]: [printint], [printptr] and [printf], as
    functions to the characters they hand to [consputc].  The format is the
    list of its bytes before the terminating zero. *)
From stdpp Require Import base tactics list numbers.
From S2P Require Import Prelude.

Open Scope Z_scope.

Definition i64 (x : Z) : Z := (x + 2 ^ 63) mod 2 ^ 64 - 2 ^ 63.

Definition MINUS : Z := 45.
Definition PERCENT : Z := 37.

(** ** Code *)

(** ["0123456789abcdef"] *)
Definition digits : list Z := [48; 49; 50; 51; 52; 53; 54; 55; 56; 57; 97; 98; 99; 100; 101; 102].

(** [char buf[16];] and the assignment [buf[i] = c]. *)
Definition PRINTBUF : nat := 16.
Definition set_char (buf : list Z) (i : nat) (c : Z) : run (list Z) :=
  if (i <? length buf)%nat then Done (<[i := c]> buf) else Undef OutOfBounds.

(** The loop [do { buf[i++] = digits[x % base]; } while((x /= base) != 0)]. *)
Definition digit_step (base : Z) (st : list Z * nat * Z) : run (list Z * nat * Z + list Z * nat) :=
  let '(buf, i, x) := st in
  d ← or_undef OutOfBounds (digits !! Z.to_nat (x mod base));
  buf ← set_char buf i d;
  let x := x / base in
  if x =? 0 then Done (inr (buf, S i)) else Done (inl (buf, S i, x)).

(** [xx] is a 64-bit [long long]. *)
Definition printint (xx base : Z) (sign : bool) : run (list Z) :=
  let neg := sign && (xx <? 0) in
  let x := if neg then u64 (- xx) else u64 xx in
  r ← iter 65 (digit_step base) (replicate PRINTBUF 0, 0%nat, x);
  let '(buf, i) := r in
  if neg then buf ← set_char buf i MINUS; Done (rev (take (S i) buf))
  else Done (rev (take i buf)).

(** The loop of [printptr]: [n] digits, the highest first. *)
Fixpoint ptr_digits (n : nat) (x : Z) : list Z :=
  match n with
  | O => []
  | S n => default 0 (digits !! Z.to_nat (Z.shiftr x 60)) :: ptr_digits n (u64 (Z.shiftl x 4))
  end.

Definition printptr (x : Z) : list Z := 48 :: 120 :: ptr_digits 16 x.

(** What [va_arg] finds: an [int], a 64-bit integer, a pointer to a string. *)
Inductive arg : Set := AInt (x : Z) | ALong (x : Z) | AStr (s : option (list Z)).

Definition va_int (args : list arg) : run (Z * list arg) :=
  match args with AInt x :: args => Done (x, args) | _ => Undef Uninitialised end.
Definition va_long (args : list arg) : run (Z * list arg) :=
  match args with ALong x :: args => Done (x, args) | _ => Undef Uninitialised end.
Definition va_str (args : list arg) : run (option (list Z) * list arg) :=
  match args with AStr s :: args => Done (s, args) | _ => Undef Uninitialised end.

(** ["(null)"] *)
Definition null_str : list Z := [40; 110; 117; 108; 108; 41].

Definition at_ (fmt : list Z) (i : nat) : Z := default 0 (fmt !! i).

(** A conversion: [fmt] is the format after the percent sign.  The result is
    the output, the arguments left, and how many bytes the conversion takes,
    or [None] at the end of the format. *)
Definition convert (fmt : list Z) (args : list arg) : run (option (list Z * list arg * nat)) :=
  let c0 := at_ fmt 0 in
  let c1 := if c0 =? 0 then 0 else at_ fmt 1 in
  let c2 := if c1 =? 0 then 0 else at_ fmt 2 in
  let int base sign := a ← va_int args; o ← printint (fst a) base sign; Done (Some (o, snd a, 1%nat)) in
  let long n base sign := a ← va_long args; o ← printint (i64 (fst a)) base sign; Done (Some (o, snd a, n)) in
  let l := 108 in let d := 100 in let u := 117 in let x := 120 in
  if c0 =? d then int 10 true
  else if (c0 =? l) && (c1 =? d) then long 2%nat 10 true
  else if (c0 =? l) && (c1 =? l) && (c2 =? d) then long 3%nat 10 true
  else if c0 =? u then int 10 false
  else if (c0 =? l) && (c1 =? u) then long 2%nat 10 false
  else if (c0 =? l) && (c1 =? l) && (c2 =? u) then long 3%nat 10 false
  else if c0 =? x then int 16 false
  else if (c0 =? l) && (c1 =? x) then long 2%nat 16 false
  else if (c0 =? l) && (c1 =? l) && (c2 =? x) then long 3%nat 16 false
  else if c0 =? 112 then a ← va_long args; Done (Some (printptr (fst a), snd a, 1%nat))
  else if c0 =? 115 then a ← va_str args; Done (Some (default null_str (fst a), snd a, 1%nat))
  else if c0 =? PERCENT then Done (Some ([PERCENT], args, 1%nat))
  else if c0 =? 0 then Done None
  else Done (Some ([PERCENT; c0], args, 1%nat)).

(** One iteration of the loop of [printf]. *)
Definition printf_step (st : list Z * list arg * list Z) : run (list Z * list arg * list Z + list Z) :=
  let '(fmt, args, out) := st in
  match fmt with
  | [] => Done (inr out)
  | cx :: fmt =>
      if negb (cx =? PERCENT) then Done (inl (fmt, args, out ++ [cx]))
      else
        r ← convert fmt args;
        match r with
        | None => Done (inr out)
        | Some (o, args, n) => Done (inl (drop n fmt, args, out ++ o))
        end
  end.

Definition printf (fmt : list Z) (args : list arg) : run (list Z) :=
  iter (S (length fmt)) printf_step (fmt, args, []).

(** ** Numerals *)

(** The value of a digit. *)
Definition digit_val (c : Z) : option Z := (fun r => Z.of_nat r.1) <$> list_find (fun d => d = c) digits.

(** Read digits after a number that was already read. *)
Fixpoint parse_digits (base acc : Z) (s : list Z) : option Z :=
  match s with
  | [] => Some acc
  | c :: s =>
      match digit_val c with
      | Some d => if d <? base then parse_digits base (acc * base + d) s else None
      | None => None
      end
  end.

(** Read a numeral: a sign, and digits without superfluous zeros. *)
Definition canonical (s : list Z) : bool :=
  match s with [] => false | [c] => true | c :: _ => negb (c =? 48) end.

Definition parse_int (base : Z) (s : list Z) : option Z :=
  match s with
  | c :: s' =>
      if c =? MINUS then if canonical s' then Z.opp <$> parse_digits base 0 s' else None
      else if canonical s then parse_digits base 0 s else None
  | [] => None
  end.

Lemma digits_lookup d : 0 <= d < 16 ->
  exists c, digits !! Z.to_nat d = Some c /\ digit_val c = Some d /\ c <> MINUS /\ (c = 48 -> d = 0).
Proof.
  intros Hd. destruct (lookup_lt_is_Some_2 digits (Z.to_nat d)) as [c Hc]; [cbn; lia|]. exists c. split; [done|].
  assert (Hall : forallb (fun d => match digits !! Z.to_nat d with
    | Some c => bool_decide (digit_val c = Some d) && negb (c =? MINUS) && (negb (c =? 48) || (d =? 0))
    | None => false end) (seqZ 0 16) = true) by (vm_compute; reflexivity).
  rewrite forallb_forall in Hall. specialize (Hall d ltac:(apply list_elem_of_In, elem_of_seqZ; lia)).
  rewrite Hc in Hall. apply andb_true_iff in Hall as [[H1%bool_decide_eq_true H2]%andb_true_iff H3].
  split; [done|]. split; [lia|]. intros ->. lia.
Qed.

Section digits.
Context (base : Z) (Hbase : 2 <= base <= 16).

(** The loop has produced [i] digits, and [x] is left of [x0]. *)
Record progress (x0 : Z) (buf : list Z) (i : nat) (x : Z) : Prop := mkProgress {
  pg_len : length buf = PRINTBUF;
  pg_i : (i <= PRINTBUF)%nat;
  pg_x : x = x0 / base ^ Z.of_nat i;
  pg_more : i = 0%nat \/ x <> 0;
  pg_parse : parse_digits base x (rev (take i buf)) = Some x0
}.

Lemma pow_pos_base i : 0 < base ^ Z.of_nat i.
Proof. apply Z.pow_pos_nonneg; lia. Qed.

Lemma set_char_spec buf i c : (i < length buf)%nat ->
  set_char buf i c = Done (<[i := c]> buf) /\ take (S i) (<[i := c]> buf) = take i buf ++ [c].
Proof.
  intros Hi. unfold set_char. rewrite (proj2 (Nat.ltb_lt _ _)) by done. split; [done|].
  rewrite (take_S_r _ i c) by by apply list_lookup_insert_eq. by rewrite take_insert_ge.
Qed.

(** The digits of [x0] that the loop leaves, when they fit. *)
Lemma digits_run x0 fuel buf i x :
  0 <= x0 -> progress x0 buf i x -> (PRINTBUF - i < fuel)%nat ->
  (x0 < base ^ Z.of_nat PRINTBUF -> exists buf' n, iter fuel (digit_step base) (buf, i, x) = Done (buf', n) /\
     length buf' = PRINTBUF /\ (1 <= n <= PRINTBUF)%nat /\ parse_digits base 0 (rev (take n buf')) = Some x0 /\
     canonical (rev (take n buf')) = true /\ (exists c s, rev (take n buf') = c :: s /\ c <> MINUS) /\
     (n = 1%nat \/ base ^ (Z.of_nat n - 1) <= x0) /\ x0 < base ^ Z.of_nat n) /\
  (base ^ Z.of_nat PRINTBUF <= x0 -> iter fuel (digit_step base) (buf, i, x) = Undef OutOfBounds).
Proof.
  intros H0. revert buf i x. induction fuel as [|fuel IH]; intros buf i x Hp Hf; [lia|].
  destruct Hp as [Hl Hi Hx Hm Hparse]. assert (Hb := pow_pos_base i).
  assert (Hxm : 0 <= x mod base < base) by (apply Z.mod_pos_bound; lia).
  destruct (digits_lookup (x mod base)) as (c & Hc & Hv & Hmin & Hz); [lia|].
  cbn [iter digit_step]. rewrite Hc. cbn [or_undef mbind run_bind].
  assert (Hx0 : 0 <= x) by (subst x; apply Z.div_pos; lia).
  destruct (decide (i = PRINTBUF)) as [->|Hne].
  { assert (Hx1 : x <> 0) by (destruct Hm; [done|done]). split.
    - intros Hlt. exfalso. apply Hx1. rewrite Hx. apply Z.div_small. lia.
    - intros _. unfold set_char. rewrite (proj2 (Nat.ltb_ge _ _)) by lia. done. }
  destruct (set_char_spec buf i c) as [-> Ht]; [lia|]. cbn [mbind run_bind].
  assert (Hnext : x / base = x0 / base ^ Z.of_nat (S i)).
  { rewrite Hx, Z.div_div by lia. f_equal. rewrite Nat2Z.inj_succ, Z.pow_succ_r by lia. lia. }
  assert (Hp' : parse_digits base (x / base) (rev (take (S i) (<[i := c]> buf))) = Some x0).
  { rewrite Ht, rev_app_distr. cbn [rev app parse_digits]. rewrite Hv, (proj2 (Z.ltb_lt _ _)) by lia.
    rewrite <- Hparse. f_equal. pose proof (Z.div_mod x base). lia. }
  destruct (Z.eqb_spec (x / base) 0) as [Hq|Hq].
  - assert (Hlow : x0 < base ^ Z.of_nat (S i)).
    { rewrite Hnext in Hq. apply Z.div_small_iff in Hq; [lia|]. pose proof (pow_pos_base (S i)). lia. }
    split.
    + intros _. exists (<[i := c]> buf), (S i). split; [done|]. rewrite length_insert. split; [done|].
      split; [lia|]. rewrite Hq in Hp'. split; [done|].
      rewrite Ht, rev_app_distr. cbn [rev app]. split; [|split; [by exists c, (rev (take i buf))|]].
      * unfold canonical. destruct (rev (take i buf)) eqn:Er; [done|]. apply negb_true_iff, Z.eqb_neq. intros E.
        destruct Hm as [->|Hm]; [done|]. apply Hm. specialize (Hz E). pose proof (Z.div_mod x base). lia.
      * split; [|done]. destruct Hm as [->|Hm]; [by left|right]. rewrite Nat2Z.inj_succ. replace (Z.succ (Z.of_nat i) - 1) with (Z.of_nat i) by lia.
        destruct (Z.le_gt_cases (base ^ Z.of_nat i) x0); [done|]. exfalso. apply Hm. rewrite Hx. apply Z.div_small. lia.
    + intros Hge. exfalso. assert (base ^ Z.of_nat (S i) <= base ^ Z.of_nat PRINTBUF) by (apply Z.pow_le_mono_r; lia). lia.
  - apply IH; [|lia]. split; [by rewrite length_insert|lia|done|by right|done].
Qed.
End digits.

(** What fits into the buffer of [printint]: 16 digits, or a sign and 15. *)
Definition fits (base : Z) (sign : bool) (xx : Z) : Prop :=
  if sign && (xx <? 0) then - xx < base ^ 15 else u64 xx < base ^ 16.

(** What [printint] does, whether its argument fits or not. *)
Lemma printint_spec (xx base : Z) (sign : bool) :
  base = 10 \/ base = 16 -> - 2 ^ 63 <= xx < 2 ^ 63 ->
  (fits base sign xx -> exists s, printint xx base sign = Done s /\
     parse_int base s = Some (if sign then xx else u64 xx)) /\
  (~ fits base sign xx -> printint xx base sign = Undef OutOfBounds).
Proof.
  intros Hb Hxx. assert (Hbase : 2 <= base <= 16) by lia. unfold printint, fits.
  set (neg := sign && (xx <? 0)). set (x0 := if neg then u64 (- xx) else u64 xx).
  assert (H0 : 0 <= x0) by (unfold x0; destruct neg; apply u64_range).
  assert (Hp : progress base x0 (replicate PRINTBUF 0) 0 x0).
  { split; [done|lia|by rewrite Z.div_1_r|by left|done]. }
  assert (Hmag : neg = true -> x0 = - xx).
  { unfold x0, neg. intros Hn. rewrite Hn. apply andb_true_iff in Hn as [_ Hn]. apply u64_id. lia. }
  assert (Hval : neg = false -> sign = true -> u64 xx = xx).
  { unfold neg. intros Hn ->. cbn in Hn. apply u64_id. lia. }
  destruct (digits_run base Hbase x0 65 (replicate PRINTBUF 0) 0 x0 H0 Hp) as [Hin Hout]; [unfold PRINTBUF; lia|].
  change (Z.of_nat PRINTBUF) with 16 in *. destruct (Z.lt_ge_cases x0 (base ^ 16)) as [Hlt|Hge].
  2: { rewrite (Hout Hge). split; [|done]. intros Hf. exfalso. destruct neg eqn:En.
       - rewrite (Hmag eq_refl) in Hge. assert (base ^ 15 <= base ^ 16) by (apply Z.pow_le_mono_r; lia). lia.
       - unfold x0 in Hge. lia. }
  destruct (Hin Hlt) as (buf & n & -> & Hl & Hn & Hparse & Hcan & (c & s & Hs & Hc) & Hlo & Hhi). cbn [mbind run_bind].
  destruct neg eqn:En.
  - specialize (Hmag eq_refl). destruct (decide (n = PRINTBUF)) as [->|Hne].
    + unfold set_char. rewrite (proj2 (Nat.ltb_ge _ _)) by lia. split; [|done]. intros Hf. exfalso.
      destruct Hlo as [?|Hlo]; [done|]. change (Z.of_nat PRINTBUF - 1) with 15 in Hlo. lia.
    + destruct (set_char_spec buf n MINUS) as [-> Ht]; [lia|]. cbn [mbind run_bind]. split.
      * intros _. eexists. split; [done|]. rewrite Ht, rev_app_distr. cbn [rev app parse_int].
        change (MINUS =? MINUS) with true. cbn match. rewrite Hcan, Hparse. cbn. unfold neg in En.
        apply andb_true_iff in En as [-> _]. f_equal. lia.
      * intros Hf. exfalso. apply Hf. rewrite <- Hmag. eapply Z.lt_le_trans; [exact Hhi|].
        apply Z.pow_le_mono_r; unfold PRINTBUF in *; lia.
  - split; [|intros Hf; exfalso; apply Hf; exact Hlt]. intros _. eexists. split; [done|].
    rewrite Hs. cbn [parse_int]. rewrite (proj2 (Z.eqb_neq c MINUS)) by done. rewrite <- Hs, Hcan, Hparse.
    unfold x0. f_equal. destruct sign; [|done]. by apply Hval.
Qed.



(** ** Formats *)

(** The pieces of a format: a byte that is printed as it is, the conversions,
    and a percent sign with a byte that is none. *)
Inductive piece : Set :=
| Lit (c : Z) | Percent | Other (c : Z)
| Int (base : Z) (sign : bool) (x : Z)              (* %d %u %x *)
| Long (two : bool) (base : Z) (sign : bool) (x : Z) (* %ld %lu %lx and with ll *)
| Ptr (x : Z) | Str (s : option (list Z)).

Definition letter (base : Z) (sign : bool) : Z := if base =? 16 then 120 else if sign then 100 else 117.

Definition piece_fmt (p : piece) : list Z :=
  match p with
  | Lit c => [c]
  | Percent => [PERCENT; PERCENT]
  | Other c => [PERCENT; c]
  | Int base sign _ => [PERCENT; letter base sign]
  | Long two base sign _ => PERCENT :: (if two : bool then [108; 108] else [108]) ++ [letter base sign]
  | Ptr _ => [PERCENT; 112]
  | Str _ => [PERCENT; 115]
  end.

Definition piece_args (p : piece) : list arg :=
  match p with
  | Int _ _ x => [AInt x]
  | Long _ _ _ x => [ALong x]
  | Ptr x => [ALong x]
  | Str s => [AStr s]
  | _ => []
  end.

(** A number is printed as the numeral of its value. *)
Definition numeral (base : Z) (sign : bool) (x : Z) (o : list Z) : Prop :=
  parse_int base o = Some (if sign then x else u64 x).

Definition piece_out (p : piece) (o : list Z) : Prop :=
  match p with
  | Lit c => o = [c]
  | Percent => o = [PERCENT]
  | Other c => o = [PERCENT; c]
  | Int base sign x => numeral base sign x o
  | Long _ base sign x => numeral base sign (i64 x) o
  | Ptr x => o = printptr x
  | Str s => o = default null_str s
  end.

Definition conversion (base : Z) (sign : bool) : Prop := base = 10 \/ base = 16 /\ sign = false.

Definition piece_ok (p : piece) : Prop :=
  match p with
  | Lit c => c <> PERCENT
  | Other c => c ∉ [100; 108; 117; 120; 112; 115; PERCENT; 0]
  | Int base sign x => conversion base sign /\ - 2 ^ 31 <= x < 2 ^ 31 /\ fits base sign x
  | Long _ base sign x => conversion base sign /\ fits base sign (i64 x)
  | _ => True
  end.

Lemma i64_range x : - 2 ^ 63 <= i64 x < 2 ^ 63.
Proof. unfold i64. pose proof (Z.mod_pos_bound (x + 2 ^ 63) (2 ^ 64)). lia. Qed.

(** [printint] of a number that fits. *)
Lemma printint_numeral base sign x : conversion base sign -> - 2 ^ 63 <= x < 2 ^ 63 -> fits base sign x ->
  exists o, printint x base sign = Done o /\ numeral base sign x o.
Proof.
  intros Hc Hx Hf. apply printint_spec; [|done|done]. destruct Hc as [|[]]; auto.
Qed.

Lemma i32_i64 x : - 2 ^ 31 <= x < 2 ^ 31 -> - 2 ^ 63 <= x < 2 ^ 63.
Proof. lia. Qed.

(** One conversion. *)
Lemma convert_piece p rest args : piece_ok p -> (forall c, p <> Lit c) ->
  exists o, convert (tail (piece_fmt p) ++ rest) (piece_args p ++ args) =
    Done (Some (o, args, length (tail (piece_fmt p)))) /\ piece_out p o.
Proof.
  intros Hok Hl. destruct p as [c| |c|base sign x|two base sign x|x|s]; cbn [piece_ok piece_out piece_args] in *.
  - by destruct (Hl c).
  - by exists [PERCENT].
  - exists [PERCENT; c]. split; [|done]. cbn [piece_fmt tail app length]. unfold convert.
    change (at_ (c :: rest) 0) with c. rewrite !not_elem_of_cons in Hok.
    destruct Hok as (H1 & H2 & H3 & H4 & H5 & H6 & H7 & H8 & _).
    by rewrite (proj2 (Z.eqb_neq c 100)), (proj2 (Z.eqb_neq c 108)), (proj2 (Z.eqb_neq c 117)),
      (proj2 (Z.eqb_neq c 120)), (proj2 (Z.eqb_neq c 112)), (proj2 (Z.eqb_neq c 115)),
      (proj2 (Z.eqb_neq c PERCENT)), (proj2 (Z.eqb_neq c 0)) by done.
  - destruct Hok as (Hc & Hx & Hf). destruct (printint_numeral base sign x Hc (i32_i64 x Hx) Hf) as (o & Eo & Ho).
    exists o. split; [|done]. destruct Hc as [->|[-> ->]]; [destruct sign|]; unfold convert; cbn -[printint]; by rewrite Eo.
  - destruct Hok as (Hc & Hf). destruct (printint_numeral base sign (i64 x) Hc (i64_range x) Hf) as (o & Eo & Ho).
    exists o. split; [|done].
    destruct Hc as [->|[-> ->]]; [destruct sign|]; destruct two; unfold convert; cbn -[printint]; by rewrite Eo.
  - by exists (printptr x).
  - by exists (default null_str s).
Qed.


