(* ===== verification/Sh.v ===== *)
(** * The parser of the shell

    Model of the parsing half of [user/sh.c].  Pointers into the line are
    offsets; [es] is the length of the line, where the terminating zero is.
    A parser takes the line and an offset; it returns a value and a new
    offset, or calls [panic], which prints a message and ends the shell. *)
From stdpp Require Import base tactics list numbers strings.
From S2P Require Import Prelude.

Open Scope Z_scope.

(** ** Commands *)

Definition MAXARGS : nat := 10.

(** The structures of the source; [T] is what stands for a word: the pair of
    pointers [q], [eq] while parsing, the word itself afterwards. *)
Inductive cmd (T : Type) : Type :=
| EXEC (argv : list T)
| REDIR (c : cmd T) (file : T) (mode fd : Z)
| PIPE (left right : cmd T)
| LIST (left right : cmd T)
| BACK (c : cmd T).
Arguments EXEC {T} argv.
Arguments REDIR {T} c file mode fd.
Arguments PIPE {T} left right.
Arguments LIST {T} left right.
Arguments BACK {T} c.

Definition token : Type := nat * nat.

(** The constructors; [malloc] is taken to succeed. *)
Definition execcmd : cmd token := EXEC [].
Definition redircmd (subcmd : cmd token) (file : token) (mode fd : Z) : cmd token := REDIR subcmd file mode fd.
Definition pipecmd (left right : cmd token) : cmd token := PIPE left right.
Definition listcmd (left right : cmd token) : cmd token := LIST left right.
Definition backcmd (subcmd : cmd token) : cmd token := BACK subcmd.

(** ** Parsers *)

Inductive parse (A : Type) : Type :=
| Parsed (a : A) (s : nat)
| Panics (msg : string)
| NoFuel.
Arguments Parsed {A} a s.
Arguments Panics {A} msg.
Arguments NoFuel {A}.

Definition parser (A : Type) : Type := list Z -> nat -> parse A.

#[global] Instance parser_ret : MRet parser := fun _ a _ s => Parsed a s.
#[global] Instance parser_bind : MBind parser := fun _ _ k m line s =>
  match m line s with
  | Parsed a s => k a line s
  | Panics msg => Panics msg
  | NoFuel => NoFuel
  end.

Definition panic {A} (msg : string) : parser A := fun _ _ => Panics msg.

Fixpoint while {S A} (fuel : nat) (body : S -> parser (S + A)) (st : S) : parser A :=
  match fuel with
  | O => fun _ _ => NoFuel
  | Datatypes.S n =>
      r ← body st;
      match r with inl st => while n body st | inr a => mret a end
  end.

(** ** Tokens *)

(** [" \t\r\n\v"] and ["<|>&;()"]. *)
Definition whitespace : list Z := [32; 9; 13; 10; 11].
Definition symbols : list Z := [60; 124; 62; 38; 59; 40; 41].

Definition is_ws (c : Z) : bool := bool_decide (c ∈ whitespace).
Definition is_sym (c : Z) : bool := bool_decide (c ∈ symbols).
Definition is_word (c : Z) : bool := negb (is_ws c) && negb (is_sym c).

(** [*s]. *)
Definition ch (line : list Z) (s : nat) : Z := default 0 (line !! s).

(** [while(s < es && f( *s )) s++] *)
Fixpoint count_while (f : Z -> bool) (l : list Z) : nat :=
  match l with c :: l => if f c then S (count_while f l) else 0%nat | [] => 0%nat end.
Definition skip (f : Z -> bool) (line : list Z) (s : nat) : nat := (s + count_while f (drop s line))%nat.

Definition BAR : Z := 124.
Definition LPAREN : Z := 40.
Definition RPAREN : Z := 41.
Definition SEMI : Z := 59.
Definition AMP : Z := 38.
Definition LT : Z := 60.
Definition GT : Z := 62.
Definition APPEND : Z := 43.   (* ['+'], what [gettoken] returns for [>>] *)
Definition WORD : Z := 97.     (* ['a'] *)

(** The token and its two ends. *)
Definition gettoken : parser (Z * token) := fun line s =>
  let s := skip is_ws line s in
  let q := s in
  let c := ch line s in
  let '(ret, s) :=
    if c =? 0 then (c, s)
    else if bool_decide (c ∈ [BAR; LPAREN; RPAREN; SEMI; AMP; LT]) then (c, S s)
    else if c =? GT then if ch line (S s) =? GT then (APPEND, S (S s)) else (c, S s)
    else (WORD, skip is_word line s) in
  Parsed (ret, (q, s)) (skip is_ws line s).

Definition peek (toks : list Z) : parser bool := fun line s =>
  let s := skip is_ws line s in
  Parsed (negb (ch line s =? 0) && bool_decide (ch line s ∈ toks)) s.

(** ** The grammar *)

Definition O_RDONLY : Z := 0.
Definition O_WRONLY : Z := 1.
Definition O_CREATE : Z := 0x200.
Definition O_TRUNC : Z := 0x400.

Definition redirs_step (c : cmd token) : parser (cmd token + cmd token) :=
  b ← peek [LT; GT];
  if negb b then mret (inr c)
  else
    t ← gettoken;
    f ← gettoken;
    if negb (fst f =? WORD) then panic "missing file for redirection"
    else
      mret (inl (
        if fst t =? LT then redircmd c (snd f) O_RDONLY 0
        else if fst t =? GT then redircmd c (snd f) (Z.lor (Z.lor O_WRONLY O_CREATE) O_TRUNC) 1
        else if fst t =? APPEND then redircmd c (snd f) (Z.lor O_WRONLY O_CREATE) 1
        else c)).

Definition parseredirs (fuel : nat) (c : cmd token) : parser (cmd token) := while fuel redirs_step c.

(** [cmd->argv[argc] = q; cmd->eargv[argc] = eq;]: [cmd] is the structure at
    the bottom of the redirections in [ret]. *)
Fixpoint add_arg (c : cmd token) (t : token) : cmd token :=
  match c with
  | EXEC argv => EXEC (argv ++ [t])
  | REDIR c f m fd => REDIR (add_arg c t) f m fd
  | _ => c
  end.

(** The state is [ret] and [argc]. *)
Definition args_step (fuel : nat) (st : cmd token * nat) : parser (cmd token * nat + cmd token) :=
  let '(ret, argc) := st in
  b ← peek [BAR; RPAREN; AMP; SEMI];
  if b : bool then mret (inr ret)
  else
    t ← gettoken;
    if fst t =? 0 then mret (inr ret)
    else if negb (fst t =? WORD) then panic "syntax"
    else
      let ret := add_arg ret (snd t) in
      let argc := S argc in
      if (MAXARGS <=? argc)%nat then panic "too many args"
      else ret ← parseredirs fuel ret; mret (inl (ret, argc)).

Definition parsewords (fuel : nat) : parser (cmd token) :=
  ret ← parseredirs fuel execcmd;
  while fuel (args_step fuel) (ret, 0%nat).

Definition back_step (c : cmd token) : parser (cmd token + cmd token) :=
  b ← peek [AMP];
  if b : bool then gettoken;; mret (inl (backcmd c)) else mret (inr c).

Fixpoint parseline (fuel : nat) : parser (cmd token) :=
  match fuel with
  | O => fun _ _ => NoFuel
  | S fuel =>
      c ← parsepipe fuel;
      c ← while fuel back_step c;
      b ← peek [SEMI];
      if b : bool then gettoken;; r ← parseline fuel; mret (listcmd c r)
      else mret c
  end
with parsepipe (fuel : nat) : parser (cmd token) :=
  match fuel with
  | O => fun _ _ => NoFuel
  | S fuel =>
      c ← parseexec fuel;
      b ← peek [BAR];
      if b : bool then gettoken;; r ← parsepipe fuel; mret (pipecmd c r)
      else mret c
  end
with parseexec (fuel : nat) : parser (cmd token) :=
  match fuel with
  | O => fun _ _ => NoFuel
  | S fuel => b ← peek [LPAREN]; if b : bool then parseblock fuel else parsewords fuel
  end
with parseblock (fuel : nat) : parser (cmd token) :=
  match fuel with
  | O => fun _ _ => NoFuel
  | S fuel =>
      b ← peek [LPAREN];
      if negb b then panic "parseblock"
      else
        gettoken;;
        c ← parseline fuel;
        b ← peek [RPAREN];
        if negb b then panic "syntax - missing )"
        else gettoken;; parseredirs fuel c
  end.

(** [*eq = 0]; the buffer includes the terminating zero. *)
Definition cut (buf : list Z) (t : token) : list Z := <[snd t := 0]> buf.

Fixpoint nulterminate (c : cmd token) (buf : list Z) : list Z :=
  match c with
  | EXEC argv => fold_left cut argv buf
  | REDIR c f _ _ => cut (nulterminate c buf) f
  | PIPE l r => nulterminate r (nulterminate l buf)
  | LIST l r => nulterminate r (nulterminate l buf)
  | BACK c => nulterminate c buf
  end.

(** The command, and the buffer its words are in. *)
Definition parsecmd (fuel : nat) (line : list Z) : parse (cmd token * list Z) :=
  match parseline fuel line 0%nat with
  | Parsed c s =>
      let s := skip is_ws line s in
      if negb (s =? length line)%nat then Panics "syntax"
      else Parsed (c, nulterminate c (line ++ [0])) s
  | Panics msg => Panics msg
  | NoFuel => NoFuel
  end.

(** ** What a parsed command says *)

Fixpoint cmd_map {A B} (f : A -> B) (c : cmd A) : cmd B :=
  match c with
  | EXEC argv => EXEC (f <$> argv)
  | REDIR c file m fd => REDIR (cmd_map f c) (f file) m fd
  | PIPE l r => PIPE (cmd_map f l) (cmd_map f r)
  | LIST l r => LIST (cmd_map f l) (cmd_map f r)
  | BACK c => BACK (cmd_map f c)
  end.

(** The string at a pointer. *)
Fixpoint string_of (l : list Z) : list Z :=
  match l with c :: l => if c =? 0 then [] else c :: string_of l | [] => [] end.
Definition word_at (buf : list Z) (t : token) : list Z := string_of (drop (fst t) buf).

Definition bytes_of (s : string) : list Z :=
  (fun c => Z.of_N (Ascii.N_of_ascii c)) <$> String.list_ascii_of_string s.

Example parse_ex :
  match parsecmd 60 (bytes_of "(echo a>b; ls)&;wc <c|  sort >> d x") with
  | Parsed (c, buf) _ => cmd_map (word_at buf) c =
      let w s := bytes_of s in
      LIST
        (BACK (LIST (REDIR (EXEC [w "echo"; w "a"]) (w "b") 0x601 1) (EXEC [w "ls"])))
        (PIPE (REDIR (EXEC [w "wc"]) (w "c") 0 0) (REDIR (EXEC [w "sort"; w "x"]) (w "d") 0x201 1))
  | _ => False end.
Proof. vm_compute. reflexivity. Qed.

(** ** Printing commands *)

Inductive tok : Set := W (w : list Z) | S1 (c : Z) | S2.

Definition tok_text (t : tok) : list Z := match t with W w => w | S1 c => [c] | S2 => [GT; GT] end.
Definition tok_code (t : tok) : Z := match t with W _ => WORD | S1 c => c | S2 => APPEND end.

(** A space after each token. *)
Definition render (ts : list tok) : list Z := concat ((fun t => tok_text t ++ [32]) <$> ts).

Definition good_word (w : list Z) : Prop := w <> [] /\ Forall (fun c => is_word c = true /\ c <> 0) w.

Definition tok_ok (t : tok) : Prop :=
  match t with W w => good_word w | S1 c => c ∈ [BAR; LPAREN; RPAREN; SEMI; AMP; LT; GT] | S2 => True end.

(** How tightly a command binds; a parenthesis is put around one that binds
    less tightly than its place asks for. *)
Definition level {T} (c : cmd T) : nat :=
  match c with EXEC _ | REDIR _ _ _ _ => 3 | PIPE _ _ => 2 | BACK _ => 1 | LIST _ _ => 0 end.

Definition M_OUT : Z := Z.lor (Z.lor O_WRONLY O_CREATE) O_TRUNC.
Definition M_APP : Z := Z.lor O_WRONLY O_CREATE.
Definition redir_tok (m : Z) : tok := if m =? O_RDONLY then S1 LT else if m =? M_OUT then S1 GT else S2.

Definition wrap (b : bool) (ts : list tok) : list tok := if b then ts else S1 LPAREN :: ts ++ [S1 RPAREN].

Fixpoint unparse (n : nat) (c : cmd (list Z)) : list tok :=
  wrap (n <=? level c)%nat
    match c with
    | EXEC ws => W <$> ws
    | REDIR c f m _ => unparse 3 c ++ [redir_tok m; W f]
    | PIPE l r => unparse 3 l ++ S1 BAR :: unparse 2 r
    | BACK c => unparse 1 c ++ [S1 AMP]
    | LIST l r => unparse 1 l ++ S1 SEMI :: unparse 0 r
    end.

Definition show (c : cmd (list Z)) : list Z := render (unparse 0 c).

(** Commands the shell can express: words that are not empty, without special
    characters, at most nine of them, and the three kinds of redirection. *)
Fixpoint cmd_ok (c : cmd (list Z)) : Prop :=
  match c with
  | EXEC ws => Forall good_word ws /\ (length ws < MAXARGS)%nat
  | REDIR c f m fd => cmd_ok c /\ good_word f /\
      (m = O_RDONLY /\ fd = 0 \/ m = M_OUT /\ fd = 1 \/ m = M_APP /\ fd = 1)
  | PIPE l r => cmd_ok l /\ cmd_ok r
  | LIST l r => cmd_ok l /\ cmd_ok r
  | BACK c => cmd_ok c
  end.

Fixpoint size (c : cmd (list Z)) : nat :=
  match c with
  | EXEC ws => S (length ws)
  | REDIR c _ _ _ => S (size c)
  | PIPE l r => S (size l + size r)
  | LIST l r => S (size l + size r)
  | BACK c => S (size c)
  end.
