(* ===== verification/ShRead.v ===== *)
(** * Round trip of the shell's parser

    The tokens of a printed command as the scanner sees them, then by
    induction on the size of the command: what each function of the grammar
    reads at its place ([parseexec_reads], [parsepipe_reads],
    [parseline_reads]), and the words that [nulterminate] leaves in the line. *)
From stdpp Require Import base tactics list numbers strings.
From S2P Require Import Prelude Sh.

Open Scope Z_scope.

(** ** Scanning *)

Lemma count_while_app f l1 c l2 :
  Forall (fun x => f x = true) l1 -> f c = false -> count_while f (l1 ++ c :: l2) = length l1.
Proof. intros H Hc. induction H as [|x l Hx _ IH]; cbn; [by rewrite Hc|by rewrite Hx, IH]. Qed.

Lemma count_while_stop f c l : f c = false -> count_while f (c :: l) = 0%nat.
Proof. cbn. by intros ->. Qed.

Section line.
Context (line : list Z).

(** At offset [s] the line goes on with the tokens [ts]. *)
Definition at_toks (s : nat) (ts : list tok) : Prop := (s <= length line)%nat /\ drop s line = render ts.

Lemma ch_drop s c l : drop s line = c :: l -> ch line s = c.
Proof.
  intros H. unfold ch. replace s with (s + 0)%nat by lia. rewrite <- lookup_drop, H. done.
Qed.

Lemma drop_app_at s l1 l2 : drop s line = l1 ++ l2 -> drop (s + length l1) line = l2.
Proof. intros H. rewrite <- drop_drop, H. apply drop_app_length. Qed.

Lemma render_cons t ts : render (t :: ts) = tok_text t ++ 32 :: render ts.
Proof. unfold render. rewrite fmap_cons, concat_cons, <- app_assoc. done. Qed.

Lemma tok_first t : tok_ok t -> exists c l, tok_text t = c :: l /\ is_ws c = false /\ c <> 0.
Proof.
  destruct t as [w|c|]; cbn [tok_ok tok_text].
  - intros [Hne Hw]. destruct w as [|c w]; [done|]. exists c, w. split; [done|].
    apply list.Forall_cons in Hw as [[Hc H0] _]. unfold is_word in Hc. apply andb_true_iff in Hc as [Hc _].
    split; [by apply negb_true_iff|done].
  - intros Hc. exists c, []. split; [done|].
    repeat (apply elem_of_cons in Hc as [->|Hc]; [done|]). by apply elem_of_nil in Hc.
  - intros _. by exists GT, [GT].
Qed.

(** Nothing to skip before a token, or at the end. *)
Lemma skip_none s ts : at_toks s ts -> Forall tok_ok ts -> skip is_ws line s = s.
Proof.
  intros [_ H] Hok. unfold skip. rewrite H. destruct ts as [|t ts]; [cbn; lia|].
  apply list.Forall_cons in Hok as [Ht _]. destruct (tok_first t Ht) as (c & l & E & Hc & _).
  rewrite render_cons, E. cbn [app]. rewrite count_while_stop by done. lia.
Qed.

(** One space to skip after a token. *)
Lemma skip_one s ts : drop s line = 32 :: render ts -> Forall tok_ok ts ->
  skip is_ws line s = S s /\ at_toks (S s) ts.
Proof.
  intros H Hok. assert (Hd : drop (S s) line = render ts).
  { replace (S s) with (s + length [32%Z])%nat by (cbn; lia). by apply drop_app_at. }
  assert (Hlen : (S s <= length line)%nat).
  { assert (E := f_equal length H). rewrite length_drop in E. cbn in E. lia. }
  split; [|by split]. unfold skip. rewrite H. cbn [count_while]. change (is_ws 32) with true. cbn match.
  assert (Hs := skip_none (S s) ts (conj Hlen Hd) Hok). unfold skip in Hs. rewrite Hd in Hs. lia.
Qed.

(** A token as pointers into the line. *)
Definition tok_rep (p : token) (w : list Z) : Prop :=
  snd p = (fst p + length w)%nat /\ take (length w) (drop (fst p) line) = w /\
  (snd p < length line)%nat /\ is_word (ch line (snd p)) = false.

Lemma gettoken_at s t ts : at_toks s (t :: ts) -> Forall tok_ok (t :: ts) ->
  exists q s', gettoken line s = Parsed (tok_code t, q) s' /\ at_toks s' ts /\ tok_rep q (tok_text t).
Proof.
  intros Hat Hok. assert (Hs := skip_none s _ Hat Hok). destruct Hat as [Hle H].
  apply list.Forall_cons in Hok as [Ht Hts]. rewrite render_cons in H.
  assert (He : drop (s + length (tok_text t)) line = 32 :: render ts) by (by apply drop_app_at).
  destruct (skip_one _ ts He Hts) as [Hsk Hat'].
  exists (s, (s + length (tok_text t))%nat), (S (s + length (tok_text t))).
  assert (Hrep : tok_rep (s, (s + length (tok_text t))%nat) (tok_text t)).
  { split; [done|]. cbn [fst snd]. split; [by rewrite H, take_app_length|]. split; [apply Hat'|].
    by rewrite (ch_drop _ _ _ He). }
  split; [|done]. unfold gettoken. rewrite Hs. destruct t as [w|c|]; cbn [tok_text tok_code tok_ok] in *.
  - destruct Ht as [Hne Hw]. destruct w as [|c w]; [done|]. assert (Hc : ch line s = c) by (by eapply ch_drop).
    assert (Hw' := Hw). apply list.Forall_cons in Hw' as [[Hcw Hc0] _]. rewrite Hc, (proj2 (Z.eqb_neq c 0)) by done.
    assert (Hsym : c ∉ symbols).
    { intros Hin. unfold is_word, is_sym in Hcw. by rewrite (bool_decide_eq_true_2 _ Hin), andb_false_r in Hcw. }
    unfold symbols in Hsym. rewrite bool_decide_eq_false_2 by (rewrite !not_elem_of_cons in *; naive_solver).
    rewrite (proj2 (Z.eqb_neq c GT)) by (intros ->; apply Hsym; do 2 right; left).
    assert (Hsw : skip is_word line s = (s + length (c :: w))%nat).
    { unfold skip. rewrite H. rewrite count_while_app; [done| |done].
      eapply list.Forall_impl; [exact Hw|]. by intros x [? _]. }
    rewrite Hsw. by rewrite Hsk.
  - assert (Hc : ch line s = c) by (by eapply ch_drop). rewrite Hc.
    assert (He' : (s + length [c] = S s)%nat) by (cbn; lia). rewrite He' in *.
    assert (Hnx : ch line (S s) = 32) by (by eapply ch_drop).
    destruct (decide (c = GT)) as [->|Hgt].
    + change (GT =? 0) with false. change (bool_decide (GT ∈ [BAR; LPAREN; RPAREN; SEMI; AMP; LT])) with false; cbn match.
      rewrite Z.eqb_refl, Hnx. change (32 =? GT) with false. cbn match. by rewrite Hsk.
    + assert (Hin : c ∈ [BAR; LPAREN; RPAREN; SEMI; AMP; LT]) by (rewrite !elem_of_cons in *; naive_solver).
      assert (H0 : c <> 0) by (intros ->; assert (E := bool_decide_eq_true_2 _ Hin); discriminate E).
      rewrite (proj2 (Z.eqb_neq c 0)) by done.
      rewrite bool_decide_eq_true_2 by done. by rewrite Hsk.
  - assert (Hc : ch line s = GT) by (by eapply ch_drop). rewrite Hc.
    change (GT =? 0) with false. change (bool_decide (GT ∈ [BAR; LPAREN; RPAREN; SEMI; AMP; LT])) with false; cbn match. rewrite Z.eqb_refl.
    assert (Hc2 : ch line (S s) = GT).
    { eapply (ch_drop _ _ (32 :: render ts)). replace (S s) with (s + length [GT])%nat by (cbn; lia).
      apply drop_app_at. exact H. }
    rewrite Hc2, Z.eqb_refl. cbn match. replace (S (S s)) with (s + length [GT; GT])%nat by (cbn; lia). by rewrite Hsk.
Qed.

Lemma gettoken_end s : at_toks s [] -> gettoken line s = Parsed (0, (s, s)) s.
Proof.
  intros Hat. unfold gettoken. assert (Hs := skip_none s [] Hat (Forall_nil_2 _)). rewrite Hs.
  assert (Hc : ch line s = 0).
  { destruct Hat as [_ H]. unfold ch. replace s with (s + 0)%nat by lia. rewrite <- lookup_drop, H. done. }
  rewrite Hc. cbn match. rewrite ?Hs; cbn; by rewrite ?Hs.
Qed.

(** The first byte of the tokens. *)
Definition first (ts : list tok) : Z := default 0 (head (render ts)).

Lemma peek_at s ts set : at_toks s ts -> Forall tok_ok ts ->
  peek set line s = Parsed (negb (first ts =? 0) && bool_decide (first ts ∈ set)) s.
Proof.
  intros Hat Hok. unfold peek. rewrite (skip_none s ts) by done.
  assert (Hc : ch line s = first ts); [|by rewrite Hc].
  destruct Hat as [_ H]. unfold ch, first. replace s with (s + 0)%nat by lia. rewrite <- lookup_drop, H.
  by destruct (render ts).
Qed.
End line.

(** ** Reading back what is printed *)

Definition redir (T : Type) : Type := T * Z * Z.
Definition add_redirs {T} (c : cmd T) (rs : list (redir T)) : cmd T :=
  fold_left (fun c r => REDIR c r.1.1 r.1.2 r.2) rs c.
Fixpoint base {T} (c : cmd T) : cmd T := match c with REDIR c _ _ _ => base c | _ => c end.
Fixpoint redirs {T} (c : cmd T) : list (redir T) :=
  match c with REDIR c f m fd => redirs c ++ [(f, m, fd)] | _ => [] end.
Definition redir_toks (rs : list (redir (list Z))) : list tok :=
  concat ((fun r => [redir_tok r.1.2; W r.1.1]) <$> rs).
Definition redir_ok (r : redir (list Z)) : Prop :=
  good_word r.1.1 /\ (r.1.2 = O_RDONLY /\ r.2 = 0 \/ r.1.2 = M_OUT /\ r.2 = 1 \/ r.1.2 = M_APP /\ r.2 = 1).

Lemma base_redirs {T} (c : cmd T) : c = add_redirs (base c) (redirs c).
Proof.
  induction c; try done. cbn. unfold add_redirs in *. rewrite fold_left_app. cbn. by f_equal.
Qed.

Lemma redir_toks_app rs rs' : redir_toks (rs ++ rs') = redir_toks rs ++ redir_toks rs'.
Proof. unfold redir_toks. by rewrite fmap_app, concat_app. Qed.

Lemma unparse_base c : unparse 3 c = unparse 3 (base c) ++ redir_toks (redirs c).
Proof.
  induction c as [ws|c IH f m fd|l _ r _|l _ r _|c _]; cbn [base redirs]; try (unfold redir_toks; cbn; by rewrite app_nil_r).
  rewrite redir_toks_app, app_assoc, <- IH. done.
Qed.

Lemma cmd_ok_base c : cmd_ok c -> cmd_ok (base c) /\ Forall redir_ok (redirs c).
Proof.
  induction c as [ws|c IH f m fd|l _ r _|l _ r _|c _]; cbn [base redirs]; intros H; try (split; [done|constructor]).
  destruct H as (Hc & Hf & Hm). destruct (IH Hc) as [H1 H2]. split; [done|].
  apply Forall_app. split; [done|]. constructor; [|constructor]. by split.
Qed.

Lemma size_base c : size c = (size (base c) + length (redirs c))%nat.
Proof. induction c; cbn [base redirs size length]; rewrite ?length_app; cbn [length]; lia. Qed.

Lemma size_pos c : (1 <= size c)%nat.
Proof. destruct c; cbn; lia. Qed.

Lemma base_level {T} (c : cmd T) : (exists ws, base c = EXEC ws) \/ (level (base c) < 3)%nat.
Proof. induction c; cbn; eauto; right; lia. Qed.

(** A command that is too loose for its place is put in parentheses. *)
Lemma unparse_paren n c : (level c < n)%nat -> unparse n c = S1 LPAREN :: unparse 0 c ++ [S1 RPAREN].
Proof. intros H. destruct c; cbn in *; unfold wrap; destruct (Nat.leb_spec n 3), (Nat.leb_spec n 2), (Nat.leb_spec n 1), (Nat.leb_spec n 0); (done || lia). Qed.

Lemma unparse_tight n m c : (n <= level c)%nat -> (m <= level c)%nat -> unparse n c = unparse m c.
Proof.
  intros Hn Hm. destruct c; cbn [unparse level] in *;
    by rewrite (proj2 (Nat.leb_le _ _) Hn), (proj2 (Nat.leb_le _ _) Hm).
Qed.

(** The [&]s after a command. *)
Fixpoint fore {T} (c : cmd T) : cmd T := match c with BACK c => fore c | _ => c end.
Fixpoint backs {T} (c : cmd T) : nat := match c with BACK c => S (backs c) | _ => 0 end.
Definition add_backs {T} (c : cmd T) (n : nat) : cmd T := Nat.iter n BACK c.

Lemma fore_backs {T} (c : cmd T) : c = add_backs (fore c) (backs c).
Proof. induction c; try done. cbn. by f_equal. Qed.

Lemma repeat_snoc {A} (x : A) n : repeat x (S n) = repeat x n ++ [x].
Proof. induction n as [|n IH]; [done|]. cbn in *. by f_equal. Qed.

Lemma unparse_fore c : unparse 1 c = unparse 2 (fore c) ++ repeat (S1 AMP) (backs c).
Proof.
  induction c as [ws|c IH f m fd|l _ r _|l _ r _|c IH].
  5: { cbn [fore backs]. rewrite repeat_snoc, app_assoc, <- IH. done. }
  all: cbn [fore backs]; rewrite app_nil_r; (by apply unparse_tight; cbn; lia) || by rewrite !unparse_paren by (cbn; lia).
Qed.

Lemma fore_facts c : cmd_ok c ->
  cmd_ok (fore c) /\ size c = (size (fore c) + backs c)%nat /\ ((2 <= level (fore c))%nat \/ level (fore c) = 0%nat).
Proof.
  induction c as [ws|c IH f m fd|l _ r _|l _ r _|c IH]; intros H; cbn [fore backs size];
    try (split; [done|]; split; [cbn [size]; lia|cbn; lia]).
  destruct (IH H) as (? & ? & ?). split; [done|]. split; [lia|done].
Qed.

Lemma sym_ok c : bool_decide (c ∈ [BAR; LPAREN; RPAREN; SEMI; AMP; LT; GT]) = true -> tok_ok (S1 c).
Proof. exact (bool_decide_eq_true_1 _). Qed.

Lemma redir_toks_ok rs : Forall redir_ok rs -> Forall tok_ok (redir_toks rs).
Proof.
  induction 1 as [|r rs [Hf Hm] _ IH]; [constructor|]. unfold redir_toks in *. cbn. constructor; [|by constructor].
  destruct Hm as [[-> _]|[[-> _]|[-> _]]]; [by apply sym_ok|by apply sym_ok|exact I].
Qed.

Lemma unparse_ok n c : cmd_ok c -> Forall tok_ok (unparse n c).
Proof.
  assert (Hw : forall b ts, Forall tok_ok ts -> Forall tok_ok (wrap b ts)).
  { intros [] ts H; cbn; [done|]. constructor; [by apply sym_ok|].
    apply Forall_app. split; [done|]. constructor; [by apply sym_ok|constructor]. }
  revert n. induction c as [ws|c IH f m fd|l IHl r IHr|l IHl r IHr|c IH]; intros n H; cbn [unparse]; apply Hw.
  - destruct H as [H _]. by apply list.Forall_fmap.
  - destruct H as (Hc & Hr). apply Forall_app. split; [auto|]. apply (redir_toks_ok [(f, m, fd)]). by constructor.
  - destruct H. apply Forall_app. split; [auto|]. constructor; [by apply sym_ok|auto].
  - destruct H. apply Forall_app. split; [auto|]. constructor; [by apply sym_ok|auto].
  - apply Forall_app. split; [auto|]. constructor; [by apply sym_ok|constructor].
Qed.

Lemma bind_parsed {A B} (m : parser A) (k : A -> parser B) line s a s' :
  m line s = Parsed a s' -> (m ≫= k) line s = k a line s'.
Proof. intros H. unfold mbind, parser_bind. by rewrite H. Qed.

Lemma while_next {S A} n (body : S -> parser (S + A)) st st' line s s' :
  body st line s = Parsed (inl st') s' -> while (Datatypes.S n) body st line s = while n body st' line s'.
Proof. intros H. cbn. by rewrite (bind_parsed _ _ _ _ _ _ H). Qed.

Lemma while_done {S A} n (body : S -> parser (S + A)) st a line s s' :
  body st line s = Parsed (inr a) s' -> while (Datatypes.S n) body st line s = Parsed a s'.
Proof. intros H. cbn. by rewrite (bind_parsed _ _ _ _ _ _ H). Qed.

(** The command with pointers says the same as the command with words. *)
Inductive reads (line : list Z) : cmd token -> cmd (list Z) -> Prop :=
| reads_exec ps ws : Forall2 (tok_rep line) ps ws -> reads line (EXEC ps) (EXEC ws)
| reads_redir t c p f m fd : reads line t c -> tok_rep line p f -> reads line (REDIR t p m fd) (REDIR c f m fd)
| reads_pipe t1 t2 c1 c2 : reads line t1 c1 -> reads line t2 c2 -> reads line (PIPE t1 t2) (PIPE c1 c2)
| reads_list t1 t2 c1 c2 : reads line t1 c1 -> reads line t2 c2 -> reads line (LIST t1 t2) (LIST c1 c2)
| reads_back t c : reads line t c -> reads line (BACK t) (BACK c).

Section parsing.
Context (line : list Z).

(** The parser reads the tokens [ts] as [c] and stops before [rest]. *)
Definition reads_to (r : parse (cmd token)) (c : cmd (list Z)) (rest : list tok) : Prop :=
  exists t s', r = Parsed t s' /\ at_toks line s' rest /\ reads line t c.

Definition follow (set : list Z) (rest : list tok) : Prop := Forall tok_ok rest /\ first rest ∈ set.

Lemma peek_in s ts set : at_toks line s ts -> Forall tok_ok ts -> first ts ∈ set -> first ts <> 0 ->
  peek set line s = Parsed true s.
Proof. intros. rewrite (peek_at line s ts) by done. by rewrite (proj2 (Z.eqb_neq _ _)), bool_decide_eq_true_2. Qed.

Lemma peek_notin s ts set : at_toks line s ts -> Forall tok_ok ts -> first ts ∉ set -> peek set line s = Parsed false s.
Proof. intros. rewrite (peek_at line s ts) by done. by rewrite (bool_decide_eq_false_2 (_ ∈ set)), andb_false_r. Qed.

(** A token from one set is not in another. *)
Lemma follow_notin set (set' : list Z) rest : follow set rest -> forallb (fun c => negb (bool_decide (c ∈ set'))) set = true -> first rest ∉ set'.
Proof.
  intros [_ H] Hall. rewrite forallb_forall in Hall. apply list_elem_of_In in H. apply Hall in H.
  by apply negb_true_iff, bool_decide_eq_false_1 in H.
Qed.

Lemma follow_nil set rest : follow set rest -> first rest = 0 -> rest = [].
Proof.
  intros [H _] H0. destruct rest as [|t rest]; [done|]. apply list.Forall_cons in H as [Ht _].
  destruct (tok_first t Ht) as (c & l & E & _ & Hc). unfold first in H0. rewrite render_cons, E in H0. done.
Qed.

Lemma follow_weaken set set' rest : follow set rest -> forallb (fun c => bool_decide (c ∈ set')) set = true -> follow set' rest.
Proof.
  intros [Hok H] Hall. split; [done|]. rewrite forallb_forall in Hall. apply list_elem_of_In in H. apply Hall in H.
  by apply bool_decide_eq_true_1 in H.
Qed.

Lemma word_first w ts : good_word w -> is_word (first (W w :: ts)) = true /\ first (W w :: ts) <> 0.
Proof.
  intros [Hne Hw]. destruct w as [|c w]; [done|]. apply list.Forall_cons in Hw as [[H ?] _].
  unfold first. rewrite render_cons. done.
Qed.

Lemma word_notin w ts set : good_word w -> forallb is_sym set = true -> first (W w :: ts) ∉ set.
Proof.
  intros Hw Hs Hin. destruct (word_first w ts Hw) as [H _]. rewrite forallb_forall in Hs.
  apply list_elem_of_In in Hin. apply Hs in Hin. unfold is_word in H. by rewrite Hin, andb_false_r in H.
Qed.

Definition REDIRS : list Z := [LT; GT].

Lemma redirs_step_some s t c r rest :
  at_toks line s (redir_toks [r] ++ rest) -> redir_ok r -> Forall tok_ok rest -> reads line t c ->
  exists t' s', redirs_step t line s = Parsed (inl t') s' /\ at_toks line s' rest /\ reads line t' (REDIR c r.1.1 r.1.2 r.2).
Proof.
  destruct r as [[f m] fd]. intros Hat [Hf Hm] Hrest Hr. cbn in Hf, Hm, Hat |- *.
  assert (Hok : Forall tok_ok (redir_tok m :: W f :: rest)).
  { apply (Forall_app_2 _ [redir_tok m; W f]); [|done]. apply (redir_toks_ok [(f, m, fd)]). constructor; [by split|constructor]. }
  assert (Hrt : first (redir_tok m :: W f :: rest) ∈ REDIRS /\ first (redir_tok m :: W f :: rest) <> 0).
  { destruct Hm as [[-> _]|[[-> _]|[-> _]]]; (split; [|done]); by apply (bool_decide_eq_true_1 _). }
  unfold redirs_step. rewrite (bind_parsed _ _ _ _ _ _ (peek_in s _ _ Hat Hok (proj1 Hrt) (proj2 Hrt))). cbn [negb].
  destruct (gettoken_at line s _ _ Hat Hok) as (q & s1 & Hg & Hat1 & _).
  rewrite (bind_parsed _ _ _ _ _ _ Hg). apply list.Forall_cons in Hok as [_ Hok].
  destruct (gettoken_at line s1 _ _ Hat1 Hok) as (p & s2 & Hg2 & Hat2 & Hp).
  rewrite (bind_parsed _ _ _ _ _ _ Hg2). cbn [fst snd tok_code tok_text] in *. change (WORD =? WORD) with true. cbn [negb].
  eexists _, s2. split; [reflexivity|]. split; [done|].
  destruct Hm as [[-> ->]|[[-> ->]|[-> ->]]]; by constructor.
Qed.

Lemma redirs_step_none s t rest :
  at_toks line s rest -> Forall tok_ok rest -> first rest ∉ REDIRS -> redirs_step t line s = Parsed (inr t) s.
Proof. intros. unfold redirs_step. by rewrite (bind_parsed _ _ _ _ _ _ (peek_notin s rest REDIRS ltac:(done) ltac:(done) ltac:(done))). Qed.

Lemma parseredirs_reads rs : forall fuel s t c rest,
  (length rs < fuel)%nat -> at_toks line s (redir_toks rs ++ rest) -> Forall redir_ok rs ->
  Forall tok_ok rest -> first rest ∉ REDIRS -> reads line t c ->
  reads_to (parseredirs fuel t line s) (add_redirs c rs) rest.
Proof.
  induction rs as [|r rs IH]; intros [|fuel] s t c rest Hf Hat Hrs Hrest Hnin Hr; cbn in Hf; try lia.
  - exists t, s. unfold parseredirs. by rewrite (while_done _ _ _ _ _ _ _ (redirs_step_none s t rest Hat Hrest Hnin)).
  - apply list.Forall_cons in Hrs as [Hr0 Hrs].
    change (r :: rs) with ([r] ++ rs) in Hat. rewrite redir_toks_app, <- app_assoc in Hat.
    destruct (redirs_step_some s t c r (redir_toks rs ++ rest) Hat Hr0) as (t' & s' & E & Hat' & Hr'); [|done|].
    { apply Forall_app_2; [by apply redir_toks_ok|done]. }
    unfold parseredirs. rewrite (while_next _ _ _ _ _ _ _ E). apply (IH fuel); try done. lia.
Qed.

Definition EXEC_END : list Z := [0; BAR; RPAREN; SEMI; AMP].
Definition PIPE_END : list Z := [0; RPAREN; SEMI; AMP].
Definition LINE_END : list Z := [0; RPAREN].

Lemma exec_end_notin_redirs rest : follow EXEC_END rest -> first rest ∉ REDIRS.
Proof. intros H. by apply (follow_notin EXEC_END). Qed.

Lemma args_done F n s t k rest : at_toks line s rest -> follow EXEC_END rest ->
  while (S n) (args_step F) (t, k) line s = Parsed t s.
Proof.
  intros Hat Hf. assert (E : args_step F (t, k) line s = Parsed (inr t) s); [|by rewrite (while_done _ _ _ _ _ _ _ E)].
  unfold args_step. destruct Hf as [Hok Hf]. destruct (decide (first rest = 0)) as [H0|H0].
  - assert (Hnil : rest = []) by (apply (follow_nil EXEC_END); by repeat split). subst rest.
    rewrite (bind_parsed _ _ _ _ _ _ (peek_notin s [] [BAR; RPAREN; AMP; SEMI] Hat Hok ltac:(by apply (bool_decide_eq_false_1 _)))). cbn match.
    rewrite (bind_parsed _ _ _ _ _ _ (gettoken_end line s Hat)). done.
  - assert (Hin : first rest ∈ [BAR; RPAREN; AMP; SEMI]) by (unfold EXEC_END in Hf; rewrite !elem_of_cons in *; naive_solver).
    by rewrite (bind_parsed _ _ _ _ _ _ (peek_in s rest _ Hat Hok Hin H0)).
Qed.

(** One more word, and the redirections after it. *)
Lemma args_step_word F s ts k w rs rest :
  at_toks line s (W w :: redir_toks rs ++ rest) -> good_word w -> Forall redir_ok rs -> Forall tok_ok rest ->
  first rest ∉ REDIRS -> (length rs < F)%nat -> (S k < MAXARGS)%nat ->
  forall ws, Forall2 (tok_rep line) ts ws ->
  exists p t s', args_step F (EXEC ts, k) line s = Parsed (inl (t, S k)) s' /\ at_toks line s' rest /\ tok_rep line p w /\
    reads line t (add_redirs (EXEC (ws ++ [w])) rs) /\ (rs = [] -> t = EXEC (ts ++ [p])).
Proof.
  intros Hat Hw Hrs Hrest Hnin HF Hk ws Hts. unfold args_step.
  assert (Hok : Forall tok_ok (W w :: redir_toks rs ++ rest)).
  { constructor; [done|]. apply Forall_app_2; [by apply redir_toks_ok|done]. }
  rewrite (bind_parsed _ _ _ _ _ _ (peek_notin s _ [BAR; RPAREN; AMP; SEMI] Hat Hok ltac:(by apply word_notin))). cbn match.
  destruct (gettoken_at line s _ _ Hat Hok) as (p & s1 & Hg & Hat1 & Hp). rewrite (bind_parsed _ _ _ _ _ _ Hg).
  cbn [fst snd tok_code tok_text add_arg] in *. change (WORD =? 0) with false. change (WORD =? WORD) with true. cbn match. cbn [negb].
  rewrite (proj2 (Nat.leb_gt _ _)) by done.
  destruct (parseredirs_reads rs F s1 (EXEC (ts ++ [p])) (EXEC (ws ++ [w])) rest) as (t & s' & E & Hat' & Hr); try done.
  { constructor. apply Forall2_app; [done|]. by constructor. }
  rewrite (bind_parsed _ _ _ _ _ _ E). exists p, t, s'. split; [done|]. split; [done|]. split; [done|]. split; [done|].
  intros ->. destruct F as [|F]; [cbn in HF; lia|]. cbn [redir_toks fmap list_fmap concat app] in Hat1.
  unfold parseredirs in E. rewrite (while_done _ _ _ _ _ _ _ (redirs_step_none s1 _ rest Hat1 Hrest Hnin)) in E. congruence.
Qed.

Lemma args_reads F rs rest : Forall redir_ok rs -> follow EXEC_END rest -> (length rs < F)%nat ->
  forall ws n s ts ws0, Forall good_word ws -> Forall2 (tok_rep line) ts ws0 -> (length ws < n)%nat ->
  (length ts + length ws < MAXARGS)%nat -> (ws = [] -> rs = []) ->
  at_toks line s ((W <$> ws) ++ redir_toks rs ++ rest) ->
  reads_to (while n (args_step F) (EXEC ts, length ts) line s) (add_redirs (EXEC (ws0 ++ ws)) rs) rest.
Proof.
  intros Hrs Hrest HF. assert (Hnin := exec_end_notin_redirs rest Hrest).
  induction ws as [|w ws IH]; intros [|n] s ts ws0 Hws Hts Hn Hmax Hnil Hat; cbn [length] in Hn; try lia.
  - rewrite (Hnil eq_refl) in *. rewrite (args_done _ _ _ _ _ rest) by done. exists (EXEC ts), s.
    rewrite app_nil_r. split; [done|]. split; [done|]. by constructor.
  - apply list.Forall_cons in Hws as [Hw Hws]. cbn [length] in Hmax. destruct ws as [|w' ws].
    + destruct (args_step_word F s ts (length ts) w rs rest Hat Hw Hrs (proj1 Hrest) Hnin HF ltac:(cbn in *; lia) ws0 Hts)
        as (p & t & s' & E & Hat' & _ & Hr & _).
      rewrite (while_next _ _ _ _ _ _ _ E). destruct n as [|n]; [lia|]. rewrite (args_done _ _ _ _ _ rest) by done. by exists t, s'.
    + assert (Hok : Forall tok_ok ((W <$> w' :: ws) ++ redir_toks rs ++ rest)).
      { apply Forall_app_2; [by apply list.Forall_fmap|]. apply Forall_app_2; [by apply redir_toks_ok|apply Hrest]. }
      destruct (args_step_word F s ts (length ts) w [] _ Hat Hw ltac:(constructor) Hok
        ltac:(apply list.Forall_cons in Hws as [Hw' _]; by apply word_notin) ltac:(cbn; lia) ltac:(cbn in *; lia) ws0 Hts)
        as (p & t & s' & E & Hat' & Hp & _ & Ht).
      rewrite (Ht eq_refl) in E. rewrite (while_next _ _ _ _ _ _ _ E).
      replace (S (length ts)) with (length (ts ++ [p])) by (rewrite length_app; cbn; lia).
      replace (ws0 ++ w :: w' :: ws) with ((ws0 ++ [w]) ++ w' :: ws) by (by rewrite <- app_assoc).
      apply IH; try done; [by apply Forall2_app, Forall2_cons|cbn in *; lia|rewrite length_app; cbn in *; lia].
Qed.

Lemma parsewords_reads F s ws rs rest :
  at_toks line s ((W <$> ws) ++ redir_toks rs ++ rest) -> Forall good_word ws -> (length ws < MAXARGS)%nat ->
  Forall redir_ok rs -> follow EXEC_END rest -> (length rs < F)%nat -> (length ws < F)%nat ->
  reads_to (parsewords F line s) (add_redirs (EXEC ws) rs) rest.
Proof.
  intros Hat Hws Hmax Hrs Hrest HF HF'. assert (Hnin := exec_end_notin_redirs rest Hrest). unfold parsewords.
  destruct ws as [|w ws].
  - destruct (parseredirs_reads rs F s (EXEC []) (EXEC []) rest HF Hat Hrs (proj1 Hrest) Hnin) as (t & s' & E & Hat' & Hr).
    { constructor. constructor. }
    rewrite (bind_parsed _ _ _ _ _ _ E). destruct F as [|F]; [lia|]. rewrite (args_done _ _ _ _ _ rest) by done. by exists t, s'.
  - assert (Hok : Forall tok_ok ((W <$> w :: ws) ++ redir_toks rs ++ rest)).
    { apply Forall_app_2; [by apply list.Forall_fmap|]. apply Forall_app_2; [by apply redir_toks_ok|apply Hrest]. }
    assert (E : parseredirs F (EXEC []) line s = Parsed (EXEC []) s).
    { destruct F as [|F]; [lia|]. apply while_done. apply (redirs_step_none s _ _ Hat Hok).
      apply list.Forall_cons in Hws as [Hw _]. by apply word_notin. }
    rewrite (bind_parsed _ _ _ _ _ _ E).
    apply (args_reads F rs rest Hrs Hrest HF (w :: ws) F s [] []); try done.
Qed.

(** What parsing a command at a place of the grammar comes to; [fuel] is
    enough for it. *)
Definition line_spec (c : cmd (list Z)) : Prop := forall fuel s rest,
  (4 * size c <= fuel)%nat -> at_toks line s (unparse 0 c ++ rest) -> follow LINE_END rest ->
  reads_to (parseline fuel line s) c rest.

Definition exec_fuel (c : cmd (list Z)) : nat := if (3 <=? level c)%nat then (4 * size c - 2)%nat else (4 * size c + 2)%nat.
Definition pipe_fuel (c : cmd (list Z)) : nat := if (2 <=? level c)%nat then (4 * size c - 1)%nat else (4 * size c + 3)%nat.

Lemma paren_peek s ts : at_toks line s (S1 LPAREN :: ts) -> Forall tok_ok ts -> peek [LPAREN] line s = Parsed true s.
Proof.
  intros Hat Hok. apply (peek_in s _ [LPAREN] Hat); [constructor; [by apply sym_ok|done]|by apply (bool_decide_eq_true_1 _)|done].
Qed.

Lemma parseblock_reads F s c rs rest :
  line_spec c -> cmd_ok c -> Forall redir_ok rs -> (4 * size c <= F)%nat -> (length rs < F)%nat ->
  at_toks line s (S1 LPAREN :: unparse 0 c ++ S1 RPAREN :: redir_toks rs ++ rest) -> follow EXEC_END rest ->
  reads_to (parseblock (S F) line s) (add_redirs c rs) rest.
Proof.
  intros Hc Hok Hrs HF HF' Hat Hrest. cbn [parseblock].
  assert (Hok1 : Forall tok_ok (S1 RPAREN :: redir_toks rs ++ rest)).
  { constructor; [by apply sym_ok|]. apply Forall_app_2; [by apply redir_toks_ok|apply Hrest]. }
  assert (Hok2 : Forall tok_ok (unparse 0 c ++ S1 RPAREN :: redir_toks rs ++ rest)) by (apply Forall_app_2; [by apply unparse_ok|done]).
  rewrite (bind_parsed _ _ _ _ _ _ (paren_peek s _ Hat Hok2)). cbn [negb].
  destruct (gettoken_at line s _ _ Hat) as (q & s1 & Hg & Hat1 & _); [constructor; [by apply sym_ok|done]|].
  rewrite (bind_parsed _ _ _ _ _ _ Hg).
  destruct (Hc F s1 _ HF Hat1) as (t & s2 & E & Hat2 & Hr); [by split; [|apply (bool_decide_eq_true_1 _)]|].
  rewrite (bind_parsed _ _ _ _ _ _ E).
  rewrite (bind_parsed _ _ _ _ _ _ (peek_in s2 _ [RPAREN] Hat2 Hok1 ltac:(by apply (bool_decide_eq_true_1 _)) ltac:(done))). cbn [negb].
  destruct (gettoken_at line s2 _ _ Hat2 Hok1) as (q' & s3 & Hg' & Hat3 & _). rewrite (bind_parsed _ _ _ _ _ _ Hg').
  apply parseredirs_reads; try done; [apply Hrest|by apply exec_end_notin_redirs].
Qed.

Lemma parseexec_reads c F s rest :
  (level (base c) < 3 -> line_spec (base c))%nat -> cmd_ok c -> (exec_fuel c <= F)%nat ->
  at_toks line s (unparse 3 c ++ rest) -> follow EXEC_END rest -> reads_to (parseexec F line s) c rest.
Proof.
  intros Hb Hok HF Hat Hrest. assert (Hsz := size_base c). assert (Hpos := size_pos (base c)).
  assert (Hlev : base c = c \/ (3 <= level c)%nat) by (destruct c; cbn; auto).
  destruct (cmd_ok_base c Hok) as [Hokb Hrs]. rewrite (unparse_base c), <- app_assoc in Hat.
  assert (Htoks : Forall tok_ok (redir_toks (redirs c) ++ rest)) by (apply Forall_app_2; [by apply redir_toks_ok|apply Hrest]).
  rewrite (base_redirs c). unfold exec_fuel in HF. destruct (base_level c) as [[ws Hws]|Hlt].
  - assert (Hl3 : (3 <= level c)%nat) by (destruct Hlev as [<-|]; [by rewrite Hws|done]).
    rewrite (proj2 (Nat.leb_le _ _) Hl3) in HF. rewrite Hws in *. cbn [unparse level wrap Nat.leb size] in *.
    destruct F as [|F]; [lia|]. cbn [parseexec]. destruct Hokb as [Hgw Hmax].
    assert (Hpk : peek [LPAREN] line s = Parsed false s).
    { apply (peek_notin s _ _ Hat); [apply Forall_app_2; [by apply list.Forall_fmap|done]|].
      destruct ws as [|w ws]; [|apply list.Forall_cons in Hgw as [Hgw _]; by apply word_notin].
      destruct (redirs c) as [|[[f m] fd] rs]; [by apply (follow_notin EXEC_END)|].
      cbn in Hrs. apply list.Forall_cons in Hrs as [[_ Hm] _]. cbn in Hm.
      destruct Hm as [[-> _]|[[-> _]|[-> _]]]; by apply (bool_decide_eq_false_1 _). }
    rewrite (bind_parsed _ _ _ _ _ _ Hpk). apply parsewords_reads; (done || lia).
  - rewrite unparse_paren in Hat by done. cbn [app] in Hat. rewrite <- app_assoc in Hat.
    assert (Hex : (4 * size (base c) + 2 <= F /\ size c + 1 <= F)%nat).
    { destruct Hlev as [Hlev|Hl3]; [rewrite Hlev in *; rewrite (proj2 (Nat.leb_gt _ _) Hlt) in HF; lia|].
      rewrite (proj2 (Nat.leb_le _ _) Hl3) in HF. destruct (redirs c) eqn:Er; cbn [length] in Hsz; [|lia].
      assert (E := base_redirs c). rewrite Er in E. cbn in E. rewrite <- E in Hlt. lia. }
    destruct F as [|[|F]]; [lia..|]. cbn [parseexec].
    assert (Hok2 : Forall tok_ok (unparse 0 (base c) ++ [S1 RPAREN] ++ redir_toks (redirs c) ++ rest)).
    { apply Forall_app_2; [by apply unparse_ok|]. constructor; [by apply sym_ok|done]. }
    rewrite (bind_parsed _ _ _ _ _ _ (paren_peek s _ Hat Hok2)). cbn match.
    assert (2 <= size (base c))%nat. { destruct (base c) as [| |l r|l r|b]; cbn in Hlt |- *; try lia;
      [pose proof (size_pos l)|pose proof (size_pos l)|pose proof (size_pos b)]; lia. }
    apply parseblock_reads; try done; [by apply Hb|lia|lia].
Qed.

(** The commands of a smaller size parse as lines. *)
Definition lines_below (n : nat) : Prop := forall c, (size c < n)%nat -> cmd_ok c -> line_spec c.

Lemma base_below n c : lines_below n -> cmd_ok c -> (size c < n \/ size c <= n /\ 3 <= level c)%nat ->
  (level (base c) < 3 -> line_spec (base c))%nat.
Proof.
  intros H Hok Hn Hl. apply H; [|by apply cmd_ok_base]. assert (Hs := size_base c).
  destruct Hn as [|[? Hl3]]; [lia|]. destruct (redirs c) eqn:Er; cbn in Hs; [|lia].
  assert (E := base_redirs c). rewrite Er in E. cbn in E. rewrite <- E in Hl. lia.
Qed.

(** Anything but a pipe, where a pipe is asked for. *)
Lemma pipe_single n c F s rest : lines_below n -> cmd_ok c -> (size c < n \/ size c <= n /\ 3 <= level c)%nat ->
  level c <> 2%nat -> (pipe_fuel c <= F)%nat ->
  at_toks line s (unparse 2 c ++ rest) -> follow PIPE_END rest -> reads_to (parsepipe F line s) c rest.
Proof.
  intros Hn Hok Hsz Hl HF Hat Hrest. assert (Hpos := size_pos c). unfold pipe_fuel in HF.
  assert (E3 : unparse 2 c = unparse 3 c).
  { destruct (decide (3 <= level c)%nat) as [H3|H3]; [by apply unparse_tight; lia|]. by rewrite (unparse_paren 2), (unparse_paren 3) by lia. }
  rewrite E3 in Hat. destruct F as [|F]; [destruct (_ <=? _)%nat; lia|].
  assert (HF' : (exec_fuel c <= F)%nat).
  { unfold exec_fuel. destruct (Nat.leb_spec 2 (level c)), (Nat.leb_spec 3 (level c)); lia. }
  assert (Hrest' : follow EXEC_END rest) by (by apply (follow_weaken PIPE_END)).
  destruct (parseexec_reads c F s rest (base_below n c Hn Hok Hsz) Hok HF' Hat Hrest') as (t & s' & E & Hat' & Hr).
  cbn [parsepipe]. rewrite (bind_parsed _ _ _ _ _ _ E).
  rewrite (bind_parsed _ _ _ _ _ _ (peek_notin s' rest [BAR] Hat' (proj1 Hrest) ltac:(by apply (follow_notin PIPE_END)))).
  by exists t, s'.
Qed.

Lemma parsepipe_reads n : lines_below n -> forall c F s rest, cmd_ok c -> (size c < n \/ size c <= n /\ 2 <= level c)%nat ->
  (pipe_fuel c <= F)%nat -> at_toks line s (unparse 2 c ++ rest) -> follow PIPE_END rest ->
  reads_to (parsepipe F line s) c rest.
Proof.
  intros Hn. induction c as [| |l _ r IH| |]; intros F s rest Hok Hsz HF Hat Hrest;
    try (apply (pipe_single n); cbn [level] in *; (done || lia)).
  destruct Hok as [Hl Hr]. cbn [size level] in Hsz. unfold pipe_fuel in HF. cbn [level size Nat.leb] in HF.
  assert (Hpl := size_pos l). assert (Hpr := size_pos r).
  cbn [unparse level wrap Nat.leb] in Hat. rewrite <- app_assoc in Hat. destruct F as [|F]; [lia|]. cbn [parsepipe].
  assert (Hok' : Forall tok_ok (S1 BAR :: unparse 2 r ++ rest)).
  { constructor; [by apply sym_ok|]. apply Forall_app_2; [by apply unparse_ok|apply Hrest]. }
  destruct (parseexec_reads l F s (S1 BAR :: unparse 2 r ++ rest)) as (t & s1 & E & Hat1 & Ht); try done.
  { apply (base_below n); (done || lia). }
  { unfold exec_fuel. destruct (_ <=? _)%nat; lia. }
  { split; [done|by apply (bool_decide_eq_true_1 _)]. }
  rewrite (bind_parsed _ _ _ _ _ _ E).
  rewrite (bind_parsed _ _ _ _ _ _ (peek_in s1 _ [BAR] Hat1 Hok' ltac:(by apply (bool_decide_eq_true_1 _)) ltac:(done))). cbn match.
  destruct (gettoken_at line s1 _ _ Hat1 Hok') as (q & s2 & Hg & Hat2 & _). rewrite (bind_parsed _ _ _ _ _ _ Hg).
  destruct (IH F s2 rest Hr) as (t' & s3 & E' & Hat3 & Ht'); try done; [lia|unfold pipe_fuel; destruct (_ <=? _)%nat; lia|].
  rewrite (bind_parsed _ _ _ _ _ _ E'). exists (PIPE t t'), s3. split; [done|]. split; [done|]. by constructor.
Qed.

Lemma backs_reads k : forall F s t c rest, (k < F)%nat -> at_toks line s (repeat (S1 AMP) k ++ rest) ->
  Forall tok_ok rest -> first rest ∉ [AMP] -> reads line t c ->
  reads_to (while F back_step t line s) (add_backs c k) rest.
Proof.
  induction k as [|k IH]; intros [|F] s t c rest HF Hat Hok Hnin Hr; try lia.
  - exists t, s. split; [|done]. apply while_done. unfold back_step. by rewrite (bind_parsed _ _ _ _ _ _ (peek_notin s rest [AMP] Hat Hok Hnin)).
  - assert (Hok' : Forall tok_ok (repeat (S1 AMP) (S k) ++ rest)).
    { apply Forall_app_2; [|done]. apply list.Forall_forall. intros x Hx%list_elem_of_In%repeat_spec. subst x. by apply sym_ok. }
    cbn [repeat app] in Hat, Hok'. destruct (gettoken_at line s _ _ Hat Hok') as (q & s1 & Hg & Hat1 & _).
    assert (E : back_step t line s = Parsed (inl (BACK t)) s1).
    { unfold back_step. rewrite (bind_parsed _ _ _ _ _ _ (peek_in s _ [AMP] Hat Hok' ltac:(by apply (bool_decide_eq_true_1 _)) ltac:(done))).
      cbn match. by rewrite (bind_parsed _ _ _ _ _ _ Hg). }
    rewrite (while_next _ _ _ _ _ _ _ E). unfold add_backs. rewrite Nat.iter_succ_r.
    apply (IH F s1 (BACK t) (BACK c)); try done; [lia|by constructor].
Qed.

(** A command and the [&]s after it, as [parseline] begins. *)
Lemma pipe_backs_reads n c F s rest : lines_below n -> cmd_ok c -> (size c < n \/ size c <= n /\ 1 <= level c)%nat ->
  (4 * size c + 3 <= F \/ 1 <= level c /\ 4 * size c - 1 <= F)%nat -> at_toks line s (unparse 1 c ++ rest) ->
  Forall tok_ok rest -> first rest ∈ [0; RPAREN; SEMI] ->
  reads_to ((c ← parsepipe F; while F back_step c) line s) c rest.
Proof.
  intros Hn Hok Hsz HF Hat Hrest Hfr. assert (Hpos := size_pos (fore c)). destruct (fore_facts c Hok) as (Hokf & Hszf & Hlf).
  rewrite unparse_fore, <- app_assoc in Hat.
  assert (Hfc : backs c = 0%nat -> fore c = c) by (intros E; assert (H := fore_backs c); by rewrite E in H).
  assert (Hfol : follow PIPE_END (repeat (S1 AMP) (backs c) ++ rest)).
  { split.
    - apply Forall_app_2; [|done]. apply list.Forall_forall. intros x Hx%list_elem_of_In%repeat_spec. subst x. by apply sym_ok.
    - destruct (backs c); cbn [repeat app]; [|by apply (bool_decide_eq_true_1 _)].
      apply (follow_weaken [0; RPAREN; SEMI] PIPE_END); [by split|done]. }
  assert (Hne : first rest ∉ [AMP]) by (by apply (follow_notin [0; RPAREN; SEMI])).
  destruct (parsepipe_reads n Hn (fore c) F s (repeat (S1 AMP) (backs c) ++ rest) Hokf) as (t & s1 & E & Hat1 & Hr); try done.
  { destruct Hsz as [|[? Hl]]; [lia|]. destruct (backs c) as [|k] eqn:Eb; [|lia].
    rewrite (Hfc eq_refl) in Hlf |- *. lia. }
  { unfold pipe_fuel. destruct HF as [HF|[Hl HF]]; [destruct (_ <=? _)%nat; lia|].
    destruct (backs c) as [|k] eqn:Eb; [rewrite (Hfc eq_refl) in Hlf |- *; destruct (Nat.leb_spec 2 (level c))|destruct (Nat.leb_spec 2 (level (fore c)))]; lia. }
  rewrite (bind_parsed _ _ _ _ _ _ E). rewrite (fore_backs c). apply backs_reads; try done. lia.
Qed.

Lemma line_single n c : lines_below n -> cmd_ok c -> (size c <= n)%nat -> (1 <= level c)%nat -> line_spec c.
Proof.
  intros Hn Hok Hsz Hl F s rest HF Hat Hrest. assert (Hpos := size_pos c).
  destruct F as [|F]; [lia|]. rewrite (unparse_tight 0 1) in Hat by lia.
  destruct (pipe_backs_reads n c F s rest Hn Hok) as (t & s1 & E & Hat1 & Hr); try apply Hrest; [lia|lia|done| |].
  { by apply (follow_weaken LINE_END [0; RPAREN; SEMI]). }
  cbn [parseline]. exists t, s1. split; [|done].
  assert (Hpk := peek_notin s1 rest [SEMI] Hat1 (proj1 Hrest) ltac:(by apply (follow_notin LINE_END))).
  revert E. unfold mbind, parser_bind. destruct (parsepipe F line s); [|done..]. intros ->. by rewrite Hpk.
Qed.

Lemma parseline_reads n : lines_below n.
Proof.
  induction n as [|n IH]; intros c Hc Hok; [lia|].
  destruct (decide (1 <= level c)%nat) as [Hl|Hl]; [by apply (line_single n); (done || lia)|].
  destruct c as [| | |l r|]; cbn [level] in Hl; try lia. clear Hl. destruct Hok as [Hokl Hokr]. cbn [size] in Hc.
  intros F s rest HF Hat Hrest. cbn [size] in HF. assert (Hpl := size_pos l). assert (Hpr := size_pos r).
  cbn [unparse level wrap Nat.leb] in Hat. rewrite <- app_assoc in Hat. destruct F as [|F]; [lia|].
  assert (Hok' : Forall tok_ok (S1 SEMI :: unparse 0 r ++ rest)).
  { constructor; [by apply sym_ok|]. apply Forall_app_2; [by apply unparse_ok|apply Hrest]. }
  destruct (pipe_backs_reads n l F s (S1 SEMI :: unparse 0 r ++ rest) IH Hokl)
    as (t & s1 & E & Hat1 & Ht); try done; [lia|lia|by apply (bool_decide_eq_true_1 _)|].
  destruct (gettoken_at line s1 _ _ Hat1 Hok') as (q & s2 & Hg & Hat2 & _).
  destruct (IH r ltac:(lia) Hokr F s2 rest ltac:(lia) Hat2 Hrest) as (t' & s3 & E' & Hat3 & Ht').
  exists (LIST t t'), s3. split; [|split; [done|by constructor]].
  assert (Hpk := peek_in s1 _ [SEMI] Hat1 Hok' ltac:(by apply (bool_decide_eq_true_1 _)) ltac:(done)).
  cbn [parseline]. revert E. unfold mbind at 1 2 3 4, parser_bind. destruct (parsepipe F line s); [|done..]. intros ->.
  rewrite Hpk. cbn match. unfold mbind, parser_bind. rewrite Hg, E'. done.
Qed.
End parsing.

(** ** The words of the result *)

Fixpoint ends (c : cmd token) : list nat :=
  match c with
  | EXEC argv => snd <$> argv
  | REDIR c f _ _ => ends c ++ [snd f]
  | PIPE l r => ends l ++ ends r
  | LIST l r => ends l ++ ends r
  | BACK c => ends c
  end.

Definition zero_all (buf : list Z) (zs : list nat) : list Z := fold_left (fun b z => <[z := 0]> b) zs buf.

Lemma nulterminate_zero c : forall buf, nulterminate c buf = zero_all buf (ends c).
Proof.
  induction c as [ws|c IH f m fd|l IHl r IHr|l IHl r IHr|c IH]; intros buf; cbn; unfold zero_all in *;
    rewrite ?fold_left_app; rewrite ?IH, ?IHl, ?IHr; try done.
  revert buf. induction ws as [|w ws IH]; intros buf; [done|]. apply IH.
Qed.

Lemma zero_all_lookup zs : forall buf i, (i < length buf)%nat ->
  zero_all buf zs !! i = if bool_decide (i ∈ zs) then Some 0 else buf !! i.
Proof.
  induction zs as [|z zs IH]; intros buf i Hi; [done|]. cbn [zero_all fold_left]. change (fold_left _ zs ?b) with (zero_all b zs).
  rewrite IH by (by rewrite length_insert). destruct (decide (i = z)) as [->|Hne].
  - rewrite (bool_decide_eq_true_2 (z ∈ z :: zs)) by left. rewrite list_lookup_insert_eq by done. by destruct (bool_decide _).
  - rewrite list_lookup_insert_ne by done. rewrite (bool_decide_ext (i ∈ z :: zs) (i ∈ zs)); [done|].
    rewrite elem_of_cons. naive_solver.
Qed.

Lemma string_of_app w l : Forall (fun c => c <> 0) w -> string_of (w ++ 0 :: l) = w.
Proof. induction 1 as [|c w Hc _ IH]; [done|]. cbn. rewrite (proj2 (Z.eqb_neq c 0)) by done. by rewrite IH. Qed.

Section words.
Context (line : list Z) (zs : list nat).
Hypothesis zs_out : forall z, z ∈ zs -> is_word (ch line z) = false.

(** Writing the zeros leaves each word whole, and ends it. *)
Lemma word_read p w : tok_rep line p w -> good_word w -> snd p ∈ zs -> word_at (zero_all (line ++ [0]) zs) p = w.
Proof.
  intros (Hsnd & Htake & Hlt & _) [_ Hw] Hin. unfold word_at.
  assert (Hi : forall i, (i < length w)%nat -> zero_all (line ++ [0]) zs !! (fst p + i)%nat = w !! i).
  { intros i Hi. assert (Hli : line !! (fst p + i)%nat = w !! i).
    { rewrite <- Htake. rewrite lookup_take_lt by done. by rewrite lookup_drop. }
    destruct (lookup_lt_is_Some_2 w i Hi) as [c Hc]. rewrite Hc in *.
    assert (Hcw : is_word c = true) by (rewrite list.Forall_forall in Hw; apply Hw; by eapply list_elem_of_lookup_2).
    rewrite zero_all_lookup by (rewrite length_app; cbn; lia).
    rewrite bool_decide_eq_false_2, lookup_app_l by (done || lia || intros Hz; apply zs_out in Hz; unfold ch in Hz; rewrite Hli in Hz; cbn in Hz; congruence).
    done. }
  assert (Hz : zero_all (line ++ [0]) zs !! (fst p + length w)%nat = Some 0).
  { rewrite <- Hsnd. rewrite zero_all_lookup by (rewrite length_app; cbn; lia). by rewrite bool_decide_eq_true_2. }
  set (buf := zero_all _ _) in *. rewrite <- (take_drop (length w) (drop (fst p) buf)), drop_drop.
  rewrite (drop_S buf 0 (fst p + length w)) by done.
  assert (E : take (length w) (drop (fst p) buf) = w); [|rewrite E; apply string_of_app; eapply list.Forall_impl; [exact Hw|by intros ? []]].
  apply list_eq. intros i. destruct (decide (i < length w)%nat) as [Hlt'|Hge].
  - rewrite lookup_take_lt by done. rewrite lookup_drop. by apply Hi.
  - rewrite (lookup_ge_None_2 w) by lia. apply lookup_ge_None_2. rewrite length_take. lia.
Qed.

Lemma cmd_read t c : reads line t c -> cmd_ok c -> (forall z, z ∈ ends t -> z ∈ zs) ->
  cmd_map (word_at (zero_all (line ++ [0]) zs)) t = c.
Proof.
  induction 1 as [ps ws H|t c p f m fd _ IH Hp|t1 t2 c1 c2 _ IH1 _ IH2|t1 t2 c1 c2 _ IH1 _ IH2|t c _ IH];
    cbn [cmd_ok ends cmd_map]; intros Hok Hz.
  - f_equal. destruct Hok as [Hok _]. induction H as [|p w ps ws Hp _ IH]; [done|]. apply list.Forall_cons in Hok as [Hw Hok].
    cbn. f_equal; [apply word_read; try done; apply Hz; left|]. apply IH; [done|]. intros z Hin. apply Hz. by right.
  - destruct Hok as (Hok & Hf & _). rewrite IH by (try done; intros z Hin; apply Hz, elem_of_app; by left).
    f_equal. apply word_read; try done. apply Hz, elem_of_app. right. left.
  - destruct Hok. by rewrite IH1, IH2 by (try done; intros z Hin; apply Hz, elem_of_app; auto).
  - destruct Hok. by rewrite IH1, IH2 by (try done; intros z Hin; apply Hz, elem_of_app; auto).
  - by rewrite IH.
Qed.
End words.

Lemma reads_ends line t c z : reads line t c -> z ∈ ends t -> is_word (ch line z) = false.
Proof.
  induction 1 as [ps ws H|t c p f m fd _ IH Hp|t1 t2 c1 c2 _ IH1 _ IH2|t1 t2 c1 c2 _ IH1 _ IH2|t c _ IH]; cbn [ends];
    rewrite ?elem_of_app, ?list_elem_of_singleton; try naive_solver.
  - intros (p & -> & Hp)%list_elem_of_fmap. apply list_elem_of_lookup in Hp as [i Hp].
    destruct (Forall2_lookup_l _ _ _ _ _ H Hp) as (w & _ & Hr). apply Hr.
  - intros [Hz| ->]; [auto|apply Hp].
Qed.

(** What the grammar makes of a printed command. *)
Lemma parse_reads c fuel : cmd_ok c -> (4 * size c <= fuel)%nat ->
  exists t, parseline fuel (show c) 0%nat = Parsed t (length (show c)) /\ reads (show c) t c.
Proof.
  intros Hok HF. set (line := show c).
  assert (Hat : at_toks line 0 (unparse 0 c ++ [])) by (rewrite app_nil_r; split; [lia|done]).
  destruct (parseline_reads line (S (size c)) c (Nat.lt_succ_diag_r _) Hok fuel 0%nat [] HF Hat) as (t & s & E & [Hs Hd] & Hr).
  { split; [constructor|by apply (bool_decide_eq_true_1 _)]. }
  assert (Hs' : s = length line).
  { apply (f_equal length) in Hd. rewrite length_drop in Hd. change (length (render [])) with 0%nat in Hd. lia. }
  subst s. by exists t.
Qed.

(** What [parsecmd] makes of a line that reads as a command. *)
Lemma parsecmd_reads line fuel t c : parseline fuel line 0%nat = Parsed t (length line) -> reads line t c -> cmd_ok c ->
  exists t buf s, parsecmd fuel line = Parsed (t, buf) s /\ cmd_map (word_at buf) t = c.
Proof.
  intros E Hr Hok. unfold parsecmd. rewrite E. assert (Hs : skip is_ws line (length line) = length line) by (unfold skip; rewrite drop_all; cbn; lia). rewrite Hs, Nat.eqb_refl. cbn [negb].
  eexists t, _, _. split; [done|]. rewrite nulterminate_zero. apply cmd_read; try done. intros z. by apply (reads_ends line t c).
Qed.

(** C27. The shell reads a command line back: printing any command (lists,
    background commands, pipes, redirections and words, with parentheses
    where a command binds less tightly than its place) and parsing the line,
    with its zeros written after the words, gives that command. *)
Theorem parse_show c fuel : cmd_ok c -> (4 * size c <= fuel)%nat ->
  exists t buf s, parsecmd fuel (show c) = Parsed (t, buf) s /\ cmd_map (word_at buf) t = c.
Proof. intros Hok HF. destruct (parse_reads c fuel Hok HF) as (t & E & Hr). by apply (parsecmd_reads _ _ t). Qed.

(** [( ls & ; cat < f | wc ) & ; (echo a b >> c)] *)
Definition show_ex : cmd (list Z) :=
  LIST (BACK (LIST (BACK (EXEC [bytes_of "ls"]))
                   (PIPE (REDIR (EXEC [bytes_of "cat"]) (bytes_of "f") O_RDONLY 0) (EXEC [bytes_of "wc"]))))
       (REDIR (EXEC [bytes_of "echo"; bytes_of "a"; bytes_of "b"]) (bytes_of "c") M_APP 1).

Lemma parse_show_witness : cmd_ok show_ex /\
  exists t buf s, parsecmd 100 (show show_ex) = Parsed (t, buf) s /\ cmd_map (word_at buf) t = show_ex.
Proof.
  assert (Hw : forall s, negb (bool_decide (bytes_of s = [])) && forallb (fun c => is_word c && negb (c =? 0)) (bytes_of s) = true -> good_word (bytes_of s)).
  { intros s [H1 H2]%andb_true_iff. split; [by apply negb_true_iff, bool_decide_eq_false_1 in H1|].
    rewrite forallb_forall in H2. apply list.Forall_forall. intros c Hc%list_elem_of_In%H2.
    apply andb_true_iff in Hc as [? Hc]. split; [done|]. by apply negb_true_iff, Z.eqb_neq in Hc. }
  assert (Hok : cmd_ok show_ex).
  { unfold show_ex. cbn [cmd_ok]. assert (3 < MAXARGS)%nat by (unfold MAXARGS; lia).
    repeat first [apply conj|apply Forall_cons_2|apply Forall_nil_2]; try (by apply Hw); cbn [length]; try lia; auto. }
  split; [exact Hok|]. apply (parse_show show_ex 100 Hok). cbn. lia.
Defined.
