(* ===== verification/ShReturns.v ===== *)
(** * Termination of the shell's parser

    Each function of the grammar gives back at most the bytes it was given,
    and each round of a loop or nested call takes at least one. *)
From stdpp Require Import base tactics list numbers strings.
From S2P Require Import Prelude Sh.

Open Scope Z_scope.

(** ** The parser always returns *)

Section returns.
Context (line : list Z).

(** The parser returns or panics, it does not run out of fuel. *)
Definition returns {A} (m : parser A) (s : nat) (Q : A -> nat -> Prop) : Prop :=
  match m line s with Parsed a s => Q a s | Panics _ => True | NoFuel => False end.

Definition rem (s : nat) : nat := (length line - s)%nat.

Lemma returns_bind {A B} (m : parser A) (k : A -> parser B) s Q :
  returns m s (fun a s => returns (k a) s Q) -> returns (m ≫= k) s Q.
Proof. unfold returns, mbind, parser_bind. by destruct (m line s). Qed.

Lemma returns_mono {A} (m : parser A) s (P Q : A -> nat -> Prop) :
  returns m s P -> (forall a s, P a s -> Q a s) -> returns m s Q.
Proof. unfold returns. destruct (m line s); eauto. Qed.

Lemma skip_le f s : (s <= skip f line s)%nat.
Proof. unfold skip. lia. Qed.

Lemma count_while_end f l : count_while f (drop (count_while f l) l) = 0%nat.
Proof. induction l as [|c l IH]; cbn; [done|]. destruct (f c) eqn:E; [done|]. cbn. by rewrite E. Qed.

Lemma skip_idem f s : skip f line (skip f line s) = skip f line s.
Proof. unfold skip at 1 3. unfold skip. rewrite <- drop_drop, count_while_end. lia. Qed.

Lemma ch_inside s : ch line s <> 0 -> exists l, drop s line = ch line s :: l /\ (s < length line)%nat.
Proof.
  unfold ch. destruct (line !! s) as [c|] eqn:E; cbn; [|done]. intros _.
  exists (drop (S s) line). split; [by apply drop_S|by apply lookup_lt_Some in E].
Qed.

Lemma skip_ch f s : ch line s <> 0 -> f (ch line s) = true -> (s < skip f line s)%nat.
Proof. intros H Hf. destruct (ch_inside s H) as (l & E & _). unfold skip. rewrite E. cbn. rewrite Hf. lia. Qed.

Lemma skip_stop f s : skip f line s = s -> ch line s <> 0 -> f (ch line s) = false.
Proof. intros E H. destruct (f (ch line s)) eqn:Ef; [|done]. apply (skip_ch f) in H; [lia|done]. Qed.

Lemma peek_returns set s :
  returns (peek set) s (fun b s' => (s <= s')%nat /\ (b = true -> ch line (skip is_ws line s') <> 0)).
Proof.
  unfold returns, peek. split; [apply skip_le|]. rewrite skip_idem. intros [H _]%andb_true_iff.
  by apply negb_true_iff, Z.eqb_neq in H.
Qed.

Lemma gettoken_returns s :
  returns gettoken s (fun t s' => (s <= s')%nat /\ (fst t = 0 <-> ch line (skip is_ws line s) = 0) /\
    (fst t <> 0 -> (rem s' < rem s)%nat)).
Proof.
  unfold returns, gettoken. assert (Hidem := skip_idem is_ws s). assert (Hle := skip_le is_ws s).
  set (q := skip is_ws line s) in *. clearbody q. destruct (Z.eqb_spec (ch line q) 0) as [H0|H0].
  { split; [etrans; [exact Hle|apply skip_le]|]. cbn [fst]. by rewrite H0. }
  destruct (ch_inside q H0) as (l & _ & Hlt).
  assert (Hpost : forall code q', (q < q')%nat -> code <> 0 ->
    (s <= skip is_ws line q')%nat /\ (code = 0 <-> ch line q = 0) /\ (code <> 0 -> (rem (skip is_ws line q') < rem s)%nat)).
  { intros code q' Hq Hc. assert (Hsk := skip_le is_ws q'). unfold rem. split; [lia|]. split; [done|]. lia. }
  destruct (bool_decide_reflect (ch line q ∈ [BAR; LPAREN; RPAREN; SEMI; AMP; LT])) as [Hin|Hin]; [apply Hpost; [lia|done]|].
  destruct (Z.eqb_spec (ch line q) GT) as [Hgt|Hgt].
  { destruct (_ =? GT); apply Hpost; (lia || done). }
  apply Hpost; [|done]. apply skip_ch; [done|]. unfold is_word. rewrite (skip_stop is_ws q) by done. cbn.
  apply negb_true_iff, bool_decide_eq_false_2. unfold symbols. rewrite !elem_of_cons in *. naive_solver.
Qed.

Lemma while_returns {S A} F (body : S -> parser (S + A)) st s :
  (forall st s, (rem s < F)%nat -> returns (body st) s (fun r s' => match r with inl _ => (rem s' < rem s)%nat | inr _ => (rem s' <= rem s)%nat end)) ->
  (rem s < F)%nat -> returns (while F body st) s (fun _ s' => (rem s' <= rem s)%nat).
Proof.
  intros Hb. enough (H : forall n st s, (rem s < n)%nat -> (n <= F)%nat -> returns (while n body st) s (fun _ s' => (rem s' <= rem s)%nat)) by (intros; by apply H).
  clear st s. induction n as [|n IH]; intros st s Hn HF; [lia|]. cbn. apply returns_bind.
  eapply returns_mono; [apply Hb; lia|]. intros [st'|a] s' Hs'; [|exact Hs'].
  eapply returns_mono; [apply IH; lia|]. intros a2 s2 Hs2. cbn in *. lia.
Qed.

(** A token that was peeked at is read, and something remains to read less. *)
Lemma peek_gettoken {A} set (k : bool -> parser A) s Q :
  (forall s', (rem s' <= rem s)%nat -> returns (k false) s' Q) ->
  (forall s', (rem s' <= rem s)%nat -> ch line (skip is_ws line s') <> 0 -> returns (k true) s' Q) ->
  returns (b ← peek set; k b) s Q.
Proof.
  intros Hf Ht. apply returns_bind. eapply returns_mono; [apply peek_returns|]. intros [] s' [Hle H]; [apply Ht|apply Hf]; try by apply H.
  all: unfold rem; lia.
Qed.

Lemma gettoken_then {A} (k : Z * token -> parser A) s Q :
  ch line (skip is_ws line s) <> 0 -> (forall t s', (rem s' < rem s)%nat -> returns (k t) s' Q) -> returns (t ← gettoken; k t) s Q.
Proof.
  intros Hc Hk. apply returns_bind. eapply returns_mono; [apply gettoken_returns|]. intros t s' (_ & H0 & Hr). apply Hk, Hr. by rewrite H0.
Qed.

Lemma gettoken_any {A} (k : Z * token -> parser A) s Q :
  (forall t s', (rem s' <= rem s)%nat -> (fst t <> 0 -> (rem s' < rem s)%nat) -> returns (k t) s' Q) -> returns (t ← gettoken; k t) s Q.
Proof.
  intros Hk. apply returns_bind. eapply returns_mono; [apply gettoken_returns|]. intros t s' (Hle & _ & Hr). apply Hk, Hr. unfold rem; lia.
Qed.

Definition shrinks {A} (m : parser A) (s : nat) : Prop := returns m s (fun _ s' => (rem s' <= rem s)%nat).

Lemma shrinks_from {A} (m : parser A) s s0 : shrinks m s -> (rem s <= rem s0)%nat -> returns m s (fun _ s' => (rem s' <= rem s0)%nat).
Proof. intros H Hs. eapply returns_mono; [exact H|]. cbn. lia. Qed.

Lemma shrinks_bind {A B} (m : parser A) (k : A -> parser B) s s0 :
  shrinks m s -> (rem s <= rem s0)%nat -> (forall a s', (rem s' <= rem s)%nat -> returns (k a) s' (fun _ s' => (rem s' <= rem s0)%nat)) ->
  returns (a ← m; k a) s (fun _ s' => (rem s' <= rem s0)%nat).
Proof. intros H Hs Hk. apply returns_bind. eapply returns_mono; [exact H|]. auto. Qed.

Lemma parseredirs_shrinks F c s : (rem s < F)%nat -> shrinks (parseredirs F c) s.
Proof.
  intros HF. apply while_returns; [|done]. clear s c HF. intros c s _. unfold redirs_step. apply peek_gettoken.
  - intros s' Hs'. exact Hs'.
  - intros s1 Hs1 Hc. cbn [negb]. apply gettoken_then; [done|]. intros t s2 Hs2. apply gettoken_any. intros f s3 Hs3 _.
    destruct (negb _); [done|]. unfold returns. cbn. lia.
Qed.

Lemma parsewords_shrinks F s : (rem s < F)%nat -> shrinks (parsewords F) s.
Proof.
  intros HF. unfold shrinks, parsewords. apply shrinks_bind; [by apply parseredirs_shrinks|done|]. intros c s1 Hs1.
  eapply returns_mono; [apply while_returns; [|lia]|intros a s2 Hs2; cbn in *; lia].
  clear s HF c s1 Hs1. intros [c k] s HF. unfold args_step. apply peek_gettoken; [|intros s1 Hs1 _; exact Hs1].
  intros s1 Hs1. apply gettoken_any. intros t s2 Hs2 Ht. destruct (Z.eqb_spec (fst t) 0) as [H0|H0]; [unfold returns; cbn; lia|].
  specialize (Ht H0). destruct (negb _); [done|]. destruct (_ <=? _)%nat; [done|].
  apply returns_bind. eapply returns_mono; [apply parseredirs_shrinks; lia|]. intros c' s3 Hs3. unfold returns. cbn in *. lia.
Qed.

Lemma back_shrinks F c s : (rem s < F)%nat -> shrinks (while F back_step c) s.
Proof.
  intros HF. apply while_returns; [|done]. clear s c HF. intros c s _. unfold back_step. apply peek_gettoken; [intros s' Hs'; exact Hs'|].
  intros s1 Hs1 Hc. cbn match. apply gettoken_then; [done|]. intros t s2 Hs2. unfold returns. cbn. lia.
Qed.

(** The rounds each function of the grammar needs at [s]. *)
Lemma grammar_shrinks r : forall s F, (rem s <= r)%nat ->
  ((4 * r + 4 <= F)%nat -> shrinks (parseline F) s) /\ ((4 * r + 3 <= F)%nat -> shrinks (parsepipe F) s) /\
  ((4 * r + 2 <= F)%nat -> shrinks (parseexec F) s).
Proof.
  induction r as [r IH] using lt_wf_ind. intros s F Hr.
  assert (Hexec : forall s F, (rem s <= r)%nat -> (4 * r + 2 <= F)%nat -> shrinks (parseexec F) s).
  { clear s F Hr. intros s F Hr HF. destruct F as [|[|F]]; [lia..|]. cbn [parseexec]. unfold shrinks. apply peek_gettoken.
    - intros s1 Hs1. cbn match. apply shrinks_from; [apply parsewords_shrinks; lia|done].
    - intros s1 Hs1 _. cbn match. cbn [parseblock]. apply returns_bind.
      eapply returns_mono; [apply peek_returns|]. intros [] s2 [Hs2 Hc]; cbn [negb]; [|done].
      apply gettoken_then; [by apply Hc|]. intros t s3 Hs3. assert (Hs23 : (rem s2 <= rem s1)%nat) by (unfold rem; lia).
      destruct (IH (rem s3) ltac:(lia) s3 F ltac:(lia)) as (Hline & _). apply shrinks_bind; [apply Hline; lia|lia|].
      intros c s4 Hs4. apply peek_gettoken; [done|]. intros s5 Hs5 Hc5. cbn [negb]. apply gettoken_then; [done|].
      intros t' s6 Hs6. apply shrinks_from; [apply parseredirs_shrinks; lia|lia]. }
  assert (Hpipe : forall s F, (rem s <= r)%nat -> (4 * r + 3 <= F)%nat -> shrinks (parsepipe F) s).
  { clear s F Hr. intros s F Hr HF. destruct F as [|F]; [lia|]. cbn [parsepipe]. unfold shrinks.
    apply shrinks_bind; [apply Hexec; lia|done|]. intros c s1 Hs1. apply peek_gettoken; [intros s2 Hs2; cbn; unfold returns; cbn; lia|].
    intros s2 Hs2 Hc. cbn match. apply gettoken_then; [done|]. intros t s3 Hs3.
    destruct (IH (rem s3) ltac:(lia) s3 F ltac:(lia)) as (_ & Hp & _). apply shrinks_bind; [apply Hp; lia|lia|].
    intros c' s4 Hs4. unfold returns. cbn. lia. }
  split; [|split]; [|by apply Hpipe|by apply Hexec].
  intros HF. destruct F as [|F]; [lia|]. cbn [parseline]. unfold shrinks. apply shrinks_bind; [apply Hpipe; lia|done|].
  intros c s1 Hs1. apply shrinks_bind; [apply back_shrinks; lia|done|]. intros c' s2 Hs2.
  apply peek_gettoken; [intros s3 Hs3; cbn; unfold returns; cbn; lia|]. intros s3 Hs3 Hc. cbn match.
  apply gettoken_then; [done|]. intros t s4 Hs4. destruct (IH (rem s4) ltac:(lia) s4 F ltac:(lia)) as (Hl & _).
  apply shrinks_bind; [apply Hl; lia|lia|]. intros c2 s5 Hs5. unfold returns. cbn. lia.
Qed.
End returns.

(** C28. The shell's parser returns on every line: with four rounds for each
    byte of the line and four more, it produces a command or stops with a
    message ("syntax", "too many args", a missing file or parenthesis). *)
Theorem parsecmd_returns line fuel : (4 * length line + 4 <= fuel)%nat -> parsecmd fuel line <> NoFuel.
Proof.
  intros HF. destruct (grammar_shrinks line (length line) 0 fuel) as [H _]; [unfold rem; lia|]. specialize (H HF).
  unfold shrinks, returns in H. unfold parsecmd. destruct (parseline fuel line 0%nat) as [c s|msg|]; [|done..]. by destruct (negb _).
Qed.

Lemma parsecmd_returns_witness : parsecmd 40 (bytes_of "a(b>") <> NoFuel.
Proof. apply (parsecmd_returns (bytes_of "a(b>") 40). cbn. lia. Defined.
