(* ===== verification/ShLine.v ===== *)
(** * Lines as they are typed

    The parser does not distinguish one kind of white space from another, so a
    printed command that ends in a newline instead of a space reads the same. *)
From stdpp Require Import base tactics list numbers strings.
From S2P Require Import Prelude Sh ShRead.

Open Scope Z_scope.

(** Equal up to the kind of white space. *)
Definition like1 (a b : Z) : Prop := a = b \/ is_ws a = true /\ is_ws b = true.
Definition like (l l' : list Z) : Prop := Forall2 like1 l l'.

Lemma like1_refl a : like1 a a.
Proof. by left. Qed.

Section like.
Context (line line' : list Z).
Hypothesis same_text : like line line'.

(** The parser does the same on the two lines. *)
Definition same {A} (m : parser A) : Prop := forall s, m line s = m line' s.

Lemma ch_like s : like1 (ch line s) (ch line' s).
Proof using same_text.
  unfold ch. destruct (line !! s) as [a|] eqn:E.
  - destruct (Forall2_lookup_l _ _ _ _ _ same_text E) as (b & -> & H). exact H.
  - assert (H := Forall2_length _ _ _ same_text). apply lookup_ge_None_1 in E. rewrite lookup_ge_None_2 by lia. by left.
Qed.

Lemma skip_like f s : (forall a b, like1 a b -> f a = f b) -> skip f line s = skip f line' s.
Proof using same_text.
  intros Hf. unfold skip. f_equal. assert (H : like (drop s line) (drop s line')) by (by apply Forall2_drop).
  induction H as [|a b l l' Hab H IH]; [done|]. cbn. rewrite (Hf a b Hab), IH. done.
Qed.

Lemma is_ws_like a b : like1 a b -> is_ws a = is_ws b.
Proof using. by intros [->|[-> ->]]. Qed.

Lemma is_word_like a b : like1 a b -> is_word a = is_word b.
Proof using. intros [->|[H1 H2]]; [done|]. unfold is_word. by rewrite H1, H2. Qed.

(** A set without white space does not distinguish them either. *)
Lemma in_like (toks : list Z) a b : forallb (fun c => negb (is_ws c)) toks = true -> like1 a b -> bool_decide (a ∈ toks) = bool_decide (b ∈ toks).
Proof using.
  intros Ht [->|[H1 H2]]; [done|]. rewrite forallb_forall in Ht. assert (H : forall c, is_ws c = true -> c ∉ toks).
  { intros c Hc Hin%list_elem_of_In%Ht. by rewrite Hc in Hin. }
  rewrite !bool_decide_eq_false_2 by auto. done.
Qed.

Lemma eqb_like (c a b : Z) : is_ws c = false -> like1 a b -> (a =? c) = (b =? c).
Proof using.
  intros Hc [->|[H1 H2]]; [done|]. destruct (Z.eqb_spec a c) as [->|], (Z.eqb_spec b c) as [->|]; congruence.
Qed.

Lemma gettoken_same : same gettoken.
Proof using same_text.
  intros s. unfold gettoken. rewrite <- (skip_like is_ws s is_ws_like). set (q := skip is_ws line s). assert (Hc := ch_like q).
  rewrite <- (eqb_like 0 _ _ eq_refl Hc), <- (in_like [BAR; LPAREN; RPAREN; SEMI; AMP; LT] _ _ eq_refl Hc), <- (eqb_like GT _ _ eq_refl Hc), <- (eqb_like GT _ _ eq_refl (ch_like (S q))), <- (skip_like is_word q is_word_like).
  destruct (Z.eqb_spec (ch line q) 0) as [E|].
  { rewrite E in Hc |- *. destruct Hc as [<-|[? _]]; [|done]. by rewrite (skip_like is_ws q is_ws_like). }
  destruct (bool_decide _) eqn:E.
  { destruct Hc as [<-|[Hws _]]; [by rewrite (skip_like is_ws (S q) is_ws_like)|]. exfalso. apply bool_decide_eq_true in E. revert E Hws. rewrite !elem_of_cons, elem_of_nil. by intros [->|[->|[->|[->|[->|[->|[]]]]]]]. }
  destruct (Z.eqb_spec (ch line q) GT) as [E'|].
  { destruct Hc as [<-|[Hws _]]; [|by rewrite E' in Hws]. destruct (_ =? _); by rewrite (skip_like is_ws _ is_ws_like). }
  by rewrite (skip_like is_ws _ is_ws_like).
Qed.

Lemma peek_same toks : forallb (fun c => negb (is_ws c)) toks = true -> same (peek toks).
Proof using same_text.
  intros Ht s. unfold peek. rewrite <- (skip_like is_ws s is_ws_like). set (q := skip is_ws line s).
  by rewrite <- (eqb_like 0 _ _ eq_refl (ch_like q)), <- (in_like toks _ _ Ht (ch_like q)).
Qed.

Lemma same_ret {A} (a : A) : same (mret a).
Proof using. done. Qed.

Lemma same_panic {A} msg : same (A := A) (panic msg).
Proof using. done. Qed.

Lemma same_bind {A B} (m : parser A) (k : A -> parser B) : same m -> (forall a, same (k a)) -> same (m ≫= k).
Proof using. intros Hm Hk s. unfold mbind, parser_bind. rewrite Hm. destruct (m line' s); [apply Hk|done..]. Qed.

Lemma same_while {S A} n (body : S -> parser (S + A)) : (forall st, same (body st)) -> forall st, same (while n body st).
Proof using. intros Hb. induction n as [|n IH]; intros st; [done|]. cbn [while]. apply same_bind; [apply Hb|]. intros [st'|a]; [apply IH|done]. Qed.

Ltac same_step :=
  repeat first
    [ apply same_ret | apply same_panic | apply gettoken_same | apply peek_same; reflexivity
    | apply same_bind; [|intros ?] | apply same_while; intros ?
    | match goal with |- same (if ?b then _ else _) => destruct b end ].

Lemma parseredirs_same fuel c : same (parseredirs fuel c).
Proof using same_text. unfold parseredirs, redirs_step. same_step. Qed.

Lemma parsewords_same fuel : same (parsewords fuel).
Proof using same_text.
  unfold parsewords. apply same_bind; [apply parseredirs_same|]. intros c. apply same_while. intros [ret argc]. unfold args_step.
  same_step.
Qed.

Lemma grammar_same fuel : same (parseline fuel) /\ same (parsepipe fuel) /\ same (parseexec fuel) /\ same (parseblock fuel).
Proof using same_text.
  induction fuel as [|fuel (I1 & I2 & I3 & I4)]; [done|]. cbn [parseline parsepipe parseexec parseblock]. repeat split.
  - apply same_bind; [apply I2|intros c]. apply same_bind; [unfold back_step; same_step|intros c2]. same_step. apply I1.
  - apply same_bind; [apply I3|intros c]. same_step. apply I2.
  - apply same_bind; [by apply peek_same|]. intros []; [apply I4|apply parsewords_same].
  - same_step. apply I1.
Qed.

Lemma tok_rep_like p w : good_word w -> tok_rep line p w -> tok_rep line' p w.
Proof using same_text.
  intros [_ Hw] (H1 & H2 & H3 & H4). split; [done|]. split; [|split].
  - assert (H : like (take (length w) (drop (fst p) line)) (take (length w) (drop (fst p) line'))) by (by apply Forall2_take, Forall2_drop).
    rewrite H2 in H. symmetry. revert Hw H. clear. generalize (take (length w) (drop (fst p) line')). intros l Hw H. induction H as [|a b l l' Hab H IH]; [done|].
    apply list.Forall_cons in Hw as [[Ha _] Hw]. f_equal; [|by apply IH]. destruct Hab as [->|[Hws _]]; [done|]. unfold is_word in Ha. by rewrite Hws in Ha.
  - by rewrite <- (Forall2_length _ _ _ same_text).
  - by rewrite <- (is_word_like _ _ (ch_like (snd p))).
Qed.

Lemma reads_like t c : reads line t c -> cmd_ok c -> reads line' t c.
Proof using same_text.
  induction 1 as [ps ws H|t c p f m fd _ IH Hp|t1 t2 c1 c2 _ IH1 _ IH2|t1 t2 c1 c2 _ IH1 _ IH2|t c _ IH]; cbn [cmd_ok]; intros Hok.
  - constructor. destruct Hok as [Hok _]. induction H as [|p w ps ws Hp _ IH]; [done|]. apply list.Forall_cons in Hok as [Hw Hok]. constructor; [by apply tok_rep_like|auto].
  - destruct Hok as (Hok & Hf & _). constructor; [auto|by apply tok_rep_like].
  - destruct Hok. constructor; auto.
  - destruct Hok. constructor; auto.
  - constructor; auto.
Qed.
End like.

(** ** The line *)

(** What one types for a command: its text, and the end of the line. *)
Definition typed (c : cmd (list Z)) : list Z := removelast (show c) ++ [10].

Lemma render_last ts : ts <> [] -> exists l, render ts = l ++ [32].
Proof.
  intros Hts. destruct ts as [|t ts _] using rev_ind; [done|]. exists (concat ((fun t => tok_text t ++ [32]) <$> ts) ++ tok_text t).
  unfold render. rewrite fmap_app, concat_app. cbn. by rewrite app_nil_r, app_assoc.
Qed.

Lemma typed_show c : show c <> [] -> exists l, show c = l ++ [32] /\ typed c = l ++ [10].
Proof.
  intros Hne. destruct (unparse 0 c) as [|t ts] eqn:E; [unfold show in Hne; by rewrite E in Hne|].
  destruct (render_last (t :: ts)) as [l Hl]; [done|]. exists l. unfold typed, show. rewrite E, Hl. split; [done|]. by rewrite removelast_last.
Qed.

Lemma typed_like c : show c <> [] -> like (show c) (typed c).
Proof.
  intros (l & -> & ->)%typed_show. apply Forall2_app; [|constructor; [by right|done]]. induction l; constructor; [apply like1_refl|done].
Qed.

(** The fuel of the shell is enough. *)
Lemma size_unparse c n : (size c <= 2 * length (unparse n c) + 1)%nat.
Proof.
  revert n. induction c as [ws|c IH f m fd|l IHl r IHr|l IHl r IHr|c IH]; intros n; cbn [unparse size]; unfold wrap.
  - destruct (_ <=? _)%nat; cbn; rewrite ?length_app, ?length_fmap; cbn; lia.
  - specialize (IH 3%nat). destruct (_ <=? _)%nat; cbn; rewrite ?length_app; cbn; lia.
  - specialize (IHl 3%nat). specialize (IHr 2%nat). destruct (_ <=? _)%nat; cbn; rewrite ?length_app; cbn; rewrite ?length_app; cbn; lia.
  - specialize (IHl 1%nat). specialize (IHr 0%nat). destruct (_ <=? _)%nat; cbn; rewrite ?length_app; cbn; rewrite ?length_app; cbn; lia.
  - specialize (IH 1%nat). destruct (_ <=? _)%nat; cbn; rewrite ?length_app; cbn; rewrite ?length_app; cbn; lia.
Qed.

Lemma render_length ts : Forall tok_ok ts -> (2 * length ts <= length (render ts))%nat.
Proof.
  induction 1 as [|t ts Ht _ IH]; [done|]. rewrite render_cons, length_app. destruct (tok_first t Ht) as (c & l & -> & _). cbn. lia.
Qed.

Lemma size_show c : cmd_ok c -> (size c <= length (show c) + 1)%nat.
Proof. intros Hok. assert (H1 := size_unparse c 0). assert (H2 := render_length _ (unparse_ok 0 c Hok)). unfold show. lia. Qed.

(** A typed line reads as its command. *)
Lemma parse_typed c fuel : cmd_ok c -> show c <> [] -> (4 * length (typed c) + 4 <= fuel)%nat ->
  exists t buf s, parsecmd fuel (typed c) = Parsed (t, buf) s /\ cmd_map (word_at buf) t = c.
Proof.
  intros Hok Hne HF. assert (Hl := typed_like c Hne). assert (Hlen := Forall2_length _ _ _ Hl). assert (Hs := size_show c Hok).
  destruct (parse_reads c fuel Hok ltac:(lia)) as (t & E & Hr). apply (parsecmd_reads _ _ t); [|by apply (reads_like (show c))|done].
  by rewrite <- (proj1 (grammar_same _ _ Hl fuel)), E, Hlen.
Qed.
