(* ===== verification/SchedCommon.v ===== *)
(** * Code shared by the scheduling simulators

    The five programs under [src/schedulling_algorithms] repeat the same
    functions for reading the processes into a linked list, numbering the
    processors and looking a process up; they differ in the fields of
    [struct process].  The functions are written once here, over the type of
    the process record, and each program instantiates them. *)
From stdpp Require Import base tactics list numbers.
From S2P Require Import Prelude.

Open Scope Z_scope.

(** ** Appending to the linked list *)

Fixpoint append_link {A} (temp : list A) (new_process : A) : list A :=
  match temp with
  | [] => [new_process]
  | p :: link => p :: append_link link new_process
  end.

Lemma append_link_app {A} (l : list A) p : append_link l p = l ++ [p].
Proof. induction l; simpl; congruence. Qed.

(** ** Reading the processes

    The loop of [main] that calls [create_process] once per process. *)

Fixpoint create_processes {A} (create_process : list A -> list Z -> run (list A * list Z))
    (n : nat) (head : list A) (input : list Z) : run (list A * list Z) :=
  match n with
  | O => Done (head, input)
  | S n =>
      '(head, input) ← create_process head input;
      create_processes create_process n head input
  end.

Section reading.
Context {A D : Type} (create_process : list A -> list Z -> run (list A * list Z)).
Context (input_of : D -> list Z) (new_process : D -> A).
Hypothesis create_spec : forall head d rest,
  create_process head (input_of d ++ rest) = Done (head ++ [new_process d], rest).

Lemma create_processes_app (ds : list D) head rest :
  create_processes create_process (length ds) head ((ds ≫= input_of) ++ rest) =
  Done (head ++ (new_process <$> ds), rest).
Proof using create_spec.
  revert head. induction ds as [|d ds IH]; intros head; [simpl; by rewrite app_nil_r|].
  cbn [length create_processes]. rewrite bind_cons, <- app_assoc, create_spec.
  cbn [mbind run_bind]. rewrite IH. rewrite fmap_cons. by rewrite <- app_assoc.
Qed.

Lemma create_processes_spec (ds : list D) :
  create_processes create_process (length ds) [] (ds ≫= input_of) =
  Done (new_process <$> ds, []).
Proof using create_spec.
  pose proof (create_processes_app ds [] []) as H. by rewrite app_nil_r in H.
Qed.
End reading.

(** ** Numbering the processors *)

Fixpoint assign_loop {A} (set_pr : Z -> A -> A) (processors i : Z) (temp : list A) :
    run (list A) :=
  match temp with
  | [] => Done []
  | p :: link =>
      if processors =? 0 then Undef DivByZero
      else
        link ← assign_loop set_pr processors (i + 1) link;
        Done (set_pr (Z.rem i processors) p :: link)
  end.

Section numbering.
Context {A D : Type} (set_pr : Z -> A -> A) (new_process : D -> A).

Lemma assign_loop_imap processors i (l : list A) :
  processors <> 0 ->
  assign_loop set_pr processors i l =
  Done (imap (fun k p => set_pr (Z.rem (i + Z.of_nat k) processors) p) l).
Proof.
  intros Hp. revert i. induction l as [|p l IH]; intros i; [done|].
  simpl. rewrite (proj2 (Z.eqb_neq _ _) Hp), IH. simpl.
  rewrite Z.add_0_r. do 2 f_equal. apply imap_ext. intros k q _. simpl.
  by replace (i + 1 + Z.of_nat k) with (i + Z.of_nat (S k)) by lia.
Qed.

(** The list described by [ds] once the processors are numbered. *)
Definition assigned (processors : Z) (ds : list D) : list A :=
  imap (fun k p => set_pr (Z.rem (Z.of_nat k) processors) p) (new_process <$> ds).

Lemma assign_loop_assigned processors ds :
  processors <> 0 ->
  assign_loop set_pr processors 0 (new_process <$> ds) = Done (assigned processors ds).
Proof. intros Hp. by rewrite assign_loop_imap. Qed.

Lemma assigned_lookup processors ds i :
  assigned processors ds !! i =
  (fun d => set_pr (Z.rem (Z.of_nat i) processors) (new_process d)) <$> ds !! i.
Proof. unfold assigned. rewrite list_lookup_imap, list_lookup_fmap. by destruct (ds !! i). Qed.

Lemma assigned_length processors ds : length (assigned processors ds) = length ds.
Proof. unfold assigned. by rewrite length_imap, length_fmap. Qed.

Lemma assigned_Forall (P : A -> Prop) (Q : D -> Prop) processors ds :
  (forall d k, Q d -> P (set_pr k (new_process d))) ->
  Forall Q ds -> Forall P (assigned processors ds).
Proof.
  intros HPQ Hds. apply Forall_lookup. intros i p Hp. rewrite assigned_lookup in Hp.
  destruct (ds !! i) as [d|] eqn:Hd; simplify_eq/=.
  apply HPQ. exact (Forall_lookup_1 _ _ _ _ Hds Hd).
Qed.

Lemma assigned_fmap {B} (f : A -> B) (g : D -> B) processors ds :
  (forall d k, f (set_pr k (new_process d)) = g d) ->
  f <$> assigned processors ds = g <$> ds.
Proof.
  intros Hfg. apply list_eq. intros i. rewrite !list_lookup_fmap, assigned_lookup.
  destruct (ds !! i); [|done]. simpl. f_equal. apply Hfg.
Qed.

Lemma assigned_sumZ (f : A -> Z) (g : D -> Z) processors ds :
  (forall d k, f (set_pr k (new_process d)) = g d) ->
  sumZ f (assigned processors ds) = sumZ g ds.
Proof.
  intros Hfg. change (sumZ (id ∘ f) (assigned processors ds) = sumZ (id ∘ g) ds).
  by rewrite <- !sumZ_fmap, (assigned_fmap f g).
Qed.

Lemma assigned_maxZ (f : A -> Z) (g : D -> Z) b processors ds :
  (forall d k, f (set_pr k (new_process d)) = g d) ->
  maxZ f b (assigned processors ds) = maxZ g b ds.
Proof.
  intros Hfg. change (maxZ (id ∘ f) b (assigned processors ds) = maxZ (id ∘ g) b ds).
  by rewrite <- !maxZ_fmap, (assigned_fmap f g).
Qed.
End numbering.

(** ** Looking a process up by its identifier *)

Fixpoint find_loop {A} (pid : A -> Z) (temp : list A) (i : nat) (pid_ : Z) : option nat :=
  match temp with
  | [] => None
  | p :: link => if pid p =? pid_ then Some i else find_loop pid link (S i) pid_
  end.

Lemma find_loop_nodup {A} (pid : A -> Z) (l : list A) k i p :
  NoDup (pid <$> l) -> l !! i = Some p -> find_loop pid l k (pid p) = Some (k + i)%nat.
Proof.
  revert k i. induction l as [|q l IH]; intros k i Hnd Hi; [done|].
  rewrite fmap_cons in Hnd. apply list.NoDup_cons in Hnd as [Hq Hnd]. simpl.
  destruct i as [|i]; simplify_eq/=.
  - rewrite Z.eqb_refl. f_equal. lia.
  - destruct (Z.eqb_spec (pid q) (pid p)) as [Heq|_].
    + exfalso. apply Hq. rewrite Heq. apply list_elem_of_fmap. exists p.
      split; [done|]. by eapply list_elem_of_lookup_2.
    + rewrite (IH (S k) i) by done. f_equal. lia.
Qed.

Lemma find_loop_sound {A} (pid : A -> Z) (l : list A) k x i :
  find_loop pid l k x = Some i ->
  exists j p, i = (k + j)%nat /\ l !! j = Some p /\ pid p = x.
Proof.
  revert k. induction l as [|q l IH]; intros k H; [done|]. simpl in H.
  destruct (Z.eqb_spec (pid q) x) as [Heq|Hne]; simplify_eq.
  - exists 0%nat, q. split; [lia|done].
  - destruct (IH _ H) as (j & p & -> & ? & ?). exists (S j), p. split; [lia|done].
Qed.

Lemma find_loop_None {A} (pid : A -> Z) (l : list A) k x :
  find_loop pid l k x = None -> Forall (fun p => pid p <> x) l.
Proof.
  revert k. induction l as [|q l IH]; intros k H; [constructor|]. cbn [find_loop] in H.
  destruct (Z.eqb_spec (pid q) x); [done|]. constructor; eauto.
Qed.

Lemma find_loop_from {A} (pid : A -> Z) (l : list A) k x i :
  find_loop pid l k x = Some i ->
  exists p, l !! (i - k)%nat = Some p /\ (k <= i)%nat /\ pid p = x /\
    forall j q, (j < i - k)%nat -> l !! j = Some q -> pid q <> x.
Proof.
  revert k. induction l as [|q l IH]; intros k H; [done|]. cbn [find_loop] in H.
  destruct (Z.eqb_spec (pid q) x) as [Heq|Hne]; simplify_eq.
  - exists q. rewrite Nat.sub_diag. split; [done|]. split; [done|]. split; [done|]. lia.
  - destruct (IH _ H) as (p & Hp & Hle & Hx & Hb). exists p.
    replace (i - k)%nat with (S (i - S k)) by lia. split; [done|]. split; [lia|]. split; [done|].
    intros [|j] r Hj Hr; simplify_eq/=; [done|]. apply (Hb j); [lia|done].
Qed.

Lemma find_loop_first {A} (pid : A -> Z) (l : list A) x i :
  find_loop pid l 0 x = Some i ->
  exists p, l !! i = Some p /\ pid p = x /\ forall j q, (j < i)%nat -> l !! j = Some q -> pid q <> x.
Proof.
  intros H. apply find_loop_from in H as (p & Hp & _ & Hx & Hb).
  rewrite Nat.sub_0_r in *. eauto.
Qed.
