(* ===== verification/Lottery.v ===== *)
(** * Lottery scheduling simulator

    Model of [src/schedulling_algorithms/sched_algo_lottery_existing.c]
    ([sched_algo_lottery_improved.c] is the same program up to two blank
    lines).  The linked list of processes is a Rocq list, a pointer into it
    is an index, [rand()] is a stream of values, the console output of the
    main loop is a list of events. *)
From stdpp Require Import base tactics list numbers.
From S2P Require Import Prelude SchedCommon.

Open Scope Z_scope.

(** ** Data *)

Record process := mkProcess {
  pid : Z;
  tt : Z;
  at_ : Z;
  bt : Z;
  pr : Z;
  ct : Z;
  tat : Z;
  wt : Z;
  rt : Z;
  remaining_time : Z;
  completed : bool
}.

#[global] Instance process_settable : Settable process := fun p =>
  mkProcess (pid p) (tt p) (at_ p) (bt p) (pr p) (ct p) (tat p) (wt p) (rt p)
    (remaining_time p) (completed p).

(** Console output of the main loop. *)
Inductive event : Type :=
| Round (n : Z)
| Running (processor pid : Z)
| Completed (pid : Z).

(** ** Reading the processes *)

Definition create_process (head : list process) (input : list Z) :
    run (list process * list Z) :=
  '(v1, input) ← scan_int input;
  '(v2, input) ← scan_int input;
  '(v3, input) ← scan_int input;
  '(v4, input) ← scan_int input;
  let new_process :=
    {| pid := v1; tt := v2; at_ := v3; bt := v4; pr := -1; ct := -1; tat := -1;
       wt := -1; rt := -1; remaining_time := v4; completed := false |} in
  Done (append_link head new_process, input).

Definition assign_processors (processors : Z) (head : list process) : run (list process) :=
  assign_loop (fun v p => p <| pr := v |>) processors 0 head.

(** ** The draw *)

(** The test [!temp->completed && temp->at <= current_time]. *)
Definition eligible (current_time : Z) (p : process) : bool :=
  negb (completed p) && (at_ p <=? current_time).

Fixpoint tickets_loop (temp : list process) (current_time total_tickets : Z) : Z :=
  match temp with
  | [] => total_tickets
  | p :: link =>
      tickets_loop link current_time
        (if eligible current_time p then total_tickets + tt p else total_tickets)
  end.

Definition calculate_total_tickets (head : list process) (current_time : Z) : Z :=
  tickets_loop head current_time 0.

Fixpoint draw_loop (temp : list process) (i : nat) (current_time winning_ticket ticket_count : Z) :
    option nat :=
  match temp with
  | [] => None
  | p :: link =>
      if eligible current_time p then
        let ticket_count := ticket_count + tt p in
        if winning_ticket <=? ticket_count then Some i
        else draw_loop link (S i) current_time winning_ticket ticket_count
      else draw_loop link (S i) current_time winning_ticket ticket_count
  end.

(** [rand_value] is the value the call of [rand()] returns. *)
Definition lottery_draw (head : list process) (total_tickets current_time rand_value : Z) :
    option nat :=
  if total_tickets =? 0 then None
  else
    let winning_ticket := Z.rem rand_value total_tickets + 1 in
    draw_loop head 0 current_time winning_ticket 0.

(** ** Metrics *)

Definition calculate_metrics_of (p : process) : process :=
  let p := p <| tat := ct p - at_ p |> in
  let p := p <| wt := tat p - bt p |> in
  if rt p =? -1 then p <| rt := at_ p |> else p.

Definition calculate_metrics (head : list process) : list process :=
  calculate_metrics_of <$> head.

(** One row of the table [print_linkedlist] prints. *)
Definition print_linkedlist (head : list process) : list (list Z) :=
  (fun p => [pid p; tt p; at_ p; bt p; pr p; ct p; tat p; wt p; rt p]) <$> head.

(** ** The main loop *)

Record sim := mkSim {
  head : list process;
  active_processes : Z;
  round : Z;
  current_time : Z;
  nrand : nat;          (* calls of rand() so far *)
  out : list event      (* console output, most recent first *)
}.

#[global] Instance sim_settable : Settable sim := fun s =>
  mkSim (head s) (active_processes s) (round s) (current_time s) (nrand s) (out s).

(** The body of [while (active_processes > 0)] on the selected process. *)
Definition run_selected (i : nat) (p : process) (s : sim) : sim :=
  let s := s <| out ::= cons (Running (pr p + 1) (pid p)) |> in
  let p := if rt p =? -1 then p <| rt := current_time s - at_ p |> else p in
  let p := p <| remaining_time ::= Z.pred |> in
  let s := s <| current_time ::= Z.succ |> in
  let s :=
    if remaining_time p =? 0 then
      let p := p <| completed := true |> <| ct := current_time s |> in
      s <| head ::= <[i := p]> |> <| active_processes ::= Z.pred |>
        <| out ::= cons (Completed (pid p)) |>
    else s <| head ::= <[i := p]> |> in
  s <| round ::= Z.succ |>.

Definition main_step (rand : nat -> Z) (s : sim) : run (sim + sim) :=
  if active_processes s <=? 0 then Done (inr s)
  else
    let s := s <| out ::= cons (Round (round s)) |> in
    let total_tickets := calculate_total_tickets (head s) (current_time s) in
    let selected_process :=
      lottery_draw (head s) total_tickets (current_time s) (rand (nrand s)) in
    let s := if total_tickets =? 0 then s else s <| nrand ::= S |> in
    match selected_process with
    | None => Done (inl (s <| current_time ::= Z.succ |>))
    | Some i =>
        p ← or_undef NullDeref (head s !! i);
        Done (inl (run_selected i p s))
    end.

Definition start (head : list process) (processes : Z) : sim :=
  {| head := head; active_processes := processes; round := 1; current_time := 0;
     nrand := 0; out := [] |}.

Definition main_loop (fuel : nat) (rand : nat -> Z) (s : sim) : run sim :=
  iter fuel (main_step rand) s.

(** The whole program: standard input in, final process table and console
    events out. *)
Definition main (fuel : nat) (rand : nat -> Z) (input : list Z) :
    run (list process * list event) :=
  '(processors, input) ← scan_int input;
  '(processes, input) ← scan_int input;
  '(head0, input) ← create_processes create_process (Z.to_nat processes) [] input;
  head0 ← assign_processors processors head0;
  s ← main_loop fuel rand (start head0 processes);
  Done (calculate_metrics (head s), out s).

(** Two processes, one of which arrives late, on two processors. *)
Example lottery_main_run :
  (fun r => print_linkedlist (fst r)) <$>
    (match main 20 (fun n => Z.of_nat n) [2; 2; 7; 3; 1; 2; 8; 1; 2; 1] with
     | Done r => Some r | _ => None end)
  = Some [[7; 3; 1; 2; 0; 3; 2; 0; 0]; [8; 1; 2; 1; 1; 4; 2; 1; 1]].
Proof. vm_compute. reflexivity. Qed.

(** ** Tickets and the draw *)

(** Tickets of the eligible processes of a list. *)
Definition tickets (t : Z) (l : list process) : Z :=
  sumZ (fun p => if eligible t p then tt p else 0) l.

Lemma tickets_loop_eq l t acc : tickets_loop l t acc = acc + tickets t l.
Proof.
  unfold tickets. revert acc. induction l as [|p l IH]; intros acc; simpl.
  - rewrite sumZ_nil. lia.
  - rewrite IH, sumZ_cons. destruct (eligible t p); lia.
Qed.

Lemma total_tickets_eq l t : calculate_total_tickets l t = tickets t l.
Proof. unfold calculate_total_tickets. rewrite tickets_loop_eq. lia. Qed.

Lemma tickets_cons t p l :
  tickets t (p :: l) = (if eligible t p then tt p else 0) + tickets t l.
Proof. done. Qed.

Lemma tickets_nonneg t l : Forall (fun p => 0 <= tt p) l -> 0 <= tickets t l.
Proof.
  intros H. apply sumZ_nonneg. eapply Forall_weaken; [exact H|].
  intros p Hp. simpl in *. destruct (eligible t p); lia.
Qed.

(** Which process a winning ticket selects: the one whose block of tickets,
    laid end to end in list order, contains it. *)
Lemma draw_loop_spec l t w cnt k i :
  Forall (fun p => 0 <= tt p) l ->
  cnt < w ->
  draw_loop l k t w cnt = Some i <->
  exists j p, i = (k + j)%nat /\ l !! j = Some p /\ eligible t p = true /\
    cnt + tickets t (take j l) < w <= cnt + tickets t (take j l) + tt p.
Proof.
  intros HF. revert cnt k. induction HF as [|q l Hq HF IH]; intros cnt k Hw; simpl.
  { split; [done|]. intros (j & p & _ & Hj & _). by rewrite lookup_nil in Hj. }
  destruct (eligible t q) eqn:Eq.
  - destruct (Z.leb_spec w (cnt + tt q)) as [Hle|Hgt].
    + split.
      * intros [= <-]. exists 0%nat, q. unfold tickets. simpl.
        rewrite sumZ_nil. repeat split; try done; lia.
      * intros (j & p & -> & Hj & Hp & Hlo & _).
        destruct j as [|j]; [f_equal; lia|]. simpl in Hj, Hlo.
        rewrite tickets_cons, Eq in Hlo.
        pose proof (tickets_nonneg t (take j l) (Forall_take _ _ _ HF)). lia.
    + rewrite IH by lia. split.
      * intros (j & p & -> & Hj & Hp & Hr). exists (S j), p. simpl.
        rewrite tickets_cons, Eq. repeat split; try done; lia.
      * intros (j & p & -> & Hj & Hp & Hr). destruct j as [|j]; simpl in *.
        { simplify_eq. unfold tickets in Hr. rewrite sumZ_nil in Hr. lia. }
        rewrite tickets_cons, Eq in Hr. exists j, p. repeat split; try done; lia.
  - rewrite IH by lia. split.
    + intros (j & p & -> & Hj & Hp & Hr). exists (S j), p. simpl.
      rewrite tickets_cons, Eq. repeat split; try done; lia.
    + intros (j & p & -> & Hj & Hp & Hr). destruct j as [|j]; simpl in *.
      { simplify_eq. congruence. }
      rewrite tickets_cons, Eq in Hr. exists j, p. repeat split; try done; lia.
Qed.

(** Some process is drawn as long as the winning ticket exists. *)
Lemma draw_loop_some l t w cnt k :
  cnt < w <= cnt + tickets t l -> Forall (fun p => 0 <= tt p) l ->
  is_Some (draw_loop l k t w cnt).
Proof.
  intros Hw HF. revert cnt k Hw. induction HF as [|q l Hq HF IH]; intros cnt k Hw.
  - unfold tickets in Hw. rewrite sumZ_nil in Hw. lia.
  - rewrite tickets_cons in Hw. simpl. destruct (eligible t q); zb; eauto.
    all: apply IH; lia.
Qed.

Lemma winning_ticket_range r total :
  0 <= r -> 0 < total -> 1 <= Z.rem r total + 1 <= total.
Proof. intros. pose proof (Z.rem_bound_pos r total). lia. Qed.

Lemma tickets_zero t l :
  Forall (fun p => 1 <= tt p) l ->
  tickets t l = 0 -> Forall (fun p => eligible t p = false) l.
Proof.
  induction 1 as [|p l Hp HF IH]; [done|]. rewrite tickets_cons. intros Ht.
  pose proof (tickets_nonneg t l
    ltac:(eapply Forall_weaken; [exact HF|]; simpl; intros; lia)).
  destruct (eligible t p) eqn:E; [lia|]. constructor; [done|]. apply IH. lia.
Qed.

(** The draw picks an eligible process whenever there are tickets. *)
Lemma lottery_draw_some l t r :
  Forall (fun p => 1 <= tt p) l -> 0 <= r -> tickets t l <> 0 ->
  exists i p, lottery_draw l (tickets t l) t r = Some i /\
    l !! i = Some p /\ eligible t p = true.
Proof.
  intros HF Hr Ht.
  assert (Forall (fun p => 0 <= tt p) l) as HF0
    by (eapply Forall_weaken; [exact HF|]; simpl; lia).
  pose proof (tickets_nonneg t l HF0).
  pose proof (winning_ticket_range r (tickets t l) Hr ltac:(lia)) as Hw.
  unfold lottery_draw. rewrite (proj2 (Z.eqb_neq _ _) Ht).
  destruct (draw_loop_some l t (Z.rem r (tickets t l) + 1) 0 0) as [i Hi]; [lia|done|].
  pose proof Hi as Hi'. apply draw_loop_spec in Hi' as (j & p & -> & Hj & Hp & _); [|done|lia].
  exists j, p. auto.
Qed.

(** ** Invariant of the simulation *)

(** Life cycle of a process at time [t]: not started, started with part of
    its burst executed, or completed. *)
Record proc_inv (t : Z) (p : process) : Prop := {
  pi_tt : 1 <= tt p;
  pi_bt : 1 <= bt p;
  pi_rem : 0 <= remaining_time p <= bt p;
  pi_fresh : remaining_time p = bt p -> rt p = -1;
  pi_started : remaining_time p < bt p ->
    0 <= rt p /\ at_ p + rt p + (bt p - remaining_time p) <= t;
  pi_completed : completed p = true <-> remaining_time p = 0;
  pi_ct : completed p = true -> at_ p + rt p + bt p <= ct p <= t
}.

Definition active (p : process) : Z := if completed p then 0 else 1.
Definition executed (p : process) : Z := bt p - remaining_time p.
Definition last_arrival (l : list process) : Z := maxZ at_ 0 l.

(** What a step never changes of a process. *)
Definition static (p : process) : Z * Z * Z * Z * Z := (pid p, tt p, at_ p, bt p, pr p).

Record sim_inv (l0 : list process) (s : sim) : Prop := {
  si_procs : Forall (proc_inv (current_time s)) (head s);
  si_static : static <$> head s = static <$> l0;
  si_active : active_processes s = sumZ active (head s);
  si_time0 : 0 <= current_time s;
  si_time : current_time s <= last_arrival l0 + sumZ executed (head s);
  si_round : round s = 1 + sumZ executed (head s)
}.

Lemma proc_inv_later t t' p : t <= t' -> proc_inv t p -> proc_inv t' p.
Proof.
  intros Ht [? ? ? ? Hst ? Hct]. constructor; try done.
  - intros Hr. specialize (Hst Hr). lia.
  - intros Hc. specialize (Hct Hc). lia.
Qed.

(** The process selected at time [t], after its time slice. *)
Definition run_process (t : Z) (p : process) : process :=
  let p := if rt p =? -1 then p <| rt := t - at_ p |> else p in
  let p := p <| remaining_time ::= Z.pred |> in
  if remaining_time p =? 0 then p <| completed := true |> <| ct := Z.succ t |> else p.

Arguments run_selected : simpl never.
Arguments run_process : simpl never.

Lemma run_selected_head i p s :
  head (run_selected i p s) = <[i := run_process (current_time s) p]> (head s).
Proof. unfold run_selected, run_process. simpl. by repeat case_match. Qed.

Lemma run_selected_fields i p s :
  completed p = false ->
  current_time (run_selected i p s) = current_time s + 1 /\
  round (run_selected i p s) = round s + 1 /\
  active_processes (run_selected i p s) =
    active_processes s - active p + active (run_process (current_time s) p).
Proof.
  intros Ec. unfold run_selected, run_process, active. simpl. rewrite Ec.
  destruct (rt p =? -1); simpl; destruct (Z.pred (remaining_time p) =? 0); simpl;
    rewrite ?Ec; lia.
Qed.

Lemma static_run_process t p : static (run_process t p) = static p.
Proof. unfold run_process, static. by repeat (case_match; simpl). Qed.

Lemma remaining_run_process t p :
  remaining_time (run_process t p) = remaining_time p - 1.
Proof. unfold run_process. by repeat (case_match; simpl). Qed.

Lemma run_process_inv t p :
  proc_inv t p -> eligible t p = true -> proc_inv (t + 1) (run_process t p).
Proof.
  intros [Htt Hbt Hrem Hfr Hst Hc Hct] Hel.
  unfold eligible in Hel. apply andb_true_iff in Hel as [Hnc Hat].
  apply negb_true_iff in Hnc. apply Z.leb_le in Hat.
  assert (remaining_time p <> 0) as Hnz by (intros ?%Hc; congruence).
  unfold run_process.
  destruct (Z.eqb_spec (rt p) (-1)) as [Hrt|Hrt]; simpl;
    (destruct (Z.eqb_spec (Z.pred (remaining_time p)) 0) as [Hz|Hz]; simpl;
     constructor; simpl; try lia; try (split; [congruence|lia]); try congruence);
    try (destruct (Z.eq_dec (remaining_time p) (bt p)); [specialize (Hfr ltac:(done)); lia|];
         specialize (Hst ltac:(lia)); lia).
Qed.

(** Fuel: the work left plus the time to the last arrival. *)
Definition variant (l0 : list process) (s : sim) : Z :=
  sumZ remaining_time (head s) + Z.max 0 (last_arrival l0 - current_time s).

Lemma lottery_fmap_static_fields l l0 :
  static <$> l = static <$> l0 ->
  last_arrival l = last_arrival l0 /\ sumZ bt l = sumZ bt l0.
Proof.
  revert l0. induction l as [|p l IH]; intros [|q l0] H; simplify_eq/=; [done|].
  edestruct IH as [IH1 IH2]; [done|]. unfold last_arrival in *.
  unfold static in *. simplify_eq. rewrite !maxZ_cons, !sumZ_cons. split; congruence.
Qed.

Lemma sum_executed l : sumZ executed l = sumZ bt l - sumZ remaining_time l.
Proof.
  induction l; [done|]. rewrite !sumZ_cons. unfold executed at 1. lia.
Qed.

Lemma proc_inv_sums t l :
  Forall (proc_inv t) l ->
  0 <= sumZ remaining_time l /\ 0 <= sumZ executed l /\ 0 <= sumZ active l.
Proof.
  intros H. repeat split; apply sumZ_nonneg; (eapply Forall_weaken; [exact H|]);
    intros p []; unfold executed, active; try case_match; lia.
Qed.

(** A process that is not eligible although active has yet to arrive. *)
Lemma idle_before_last_arrival t l :
  0 < sumZ active l -> Forall (fun p => eligible t p = false) l -> t < last_arrival l.
Proof.
  unfold last_arrival. induction 2 as [|p l Hp HF IH]; [done|].
  rewrite sumZ_cons in *. rewrite maxZ_cons.
  unfold eligible in Hp. unfold active in H at 1. destruct (completed p); simpl in *.
  - specialize (IH H). lia.
  - apply Z.leb_gt in Hp. lia.
Qed.

Lemma main_step_idle l0 rand s :
  sim_inv l0 s -> 0 < active_processes s ->
  tickets (current_time s) (head s) = 0 ->
  exists s', main_step rand s = Done (inl s') /\ sim_inv l0 s' /\
    variant l0 s' < variant l0 s.
Proof.
  intros [HP Hst Hact H0 Ht Hrd] Hpos Hz.
  unfold main_step. rewrite (proj2 (Z.leb_gt _ _) Hpos). simpl.
  rewrite total_tickets_eq, Hz. simpl. eexists. split; [done|].
  assert (current_time s < last_arrival l0) as Hlt.
  { rewrite <- (proj1 (lottery_fmap_static_fields _ _ Hst)).
    apply idle_before_last_arrival; [lia|]. apply tickets_zero; [|done].
    eapply Forall_weaken; [exact HP|]. by intros ? []. }
  destruct (proc_inv_sums _ _ HP) as (_ & ? & _).
  split; [constructor; simpl; try lia; try done|].
  - eapply Forall_weaken; [exact HP|]. intros p. apply proc_inv_later. lia.
  - unfold variant. simpl. lia.
Qed.

Lemma main_step_busy l0 rand s :
  sim_inv l0 s -> 0 < active_processes s -> (forall n, 0 <= rand n) ->
  tickets (current_time s) (head s) <> 0 ->
  exists s', main_step rand s = Done (inl s') /\ sim_inv l0 s' /\
    variant l0 s' < variant l0 s.
Proof.
  intros [HP Hst Hact H0 Ht Hrd] Hpos Hrand Hz.
  unfold main_step. rewrite (proj2 (Z.leb_gt _ _) Hpos). simpl.
  rewrite total_tickets_eq.
  destruct (lottery_draw_some (head s) (current_time s) (rand (nrand s)))
    as (i & p & Hd & Hi & Hel); [|done|done|].
  { eapply Forall_weaken; [exact HP|]. by intros ? []. }
  rewrite Hd, (proj2 (Z.eqb_neq _ _) Hz). simpl. rewrite Hi. simpl.
  eexists. split; [done|].
  assert (completed p = false) as Hnc.
  { unfold eligible in Hel. destruct (completed p); [done|done]. }
  match goal with |- sim_inv _ (run_selected i p ?s0) /\ _ => set (s1 := s0) end.
  destruct (run_selected_fields i p s1 Hnc) as (Ht' & Hr' & Ha').
  pose proof (run_selected_head i p s1) as Hh'.
  change (current_time s1) with (current_time s) in *. change (round s1) with (round s) in *.
  change (active_processes s1) with (active_processes s) in *.
  change (head s1) with (head s) in *. clearbody s1.
  pose proof (Forall_lookup_1 _ _ _ _ HP Hi) as Hp.
  pose proof (static_run_process (current_time s) p) as Hs1.
  pose proof (remaining_run_process (current_time s) p) as Hs2.
  assert (bt (run_process (current_time s) p) = bt p) as Hs3
    by (unfold static in Hs1; congruence).
  assert (executed (run_process (current_time s) p) = executed p + 1) as Hs4
    by (unfold executed; lia).
  split; [constructor|].
  - rewrite Ht', Hh'. apply Forall_insert.
    + eapply Forall_weaken; [exact HP|]. intros q. apply proc_inv_later. lia.
    + by apply run_process_inv.
  - rewrite Hh', <- Hst. by apply fmap_insert_same with p.
  - rewrite Ha', Hh', (sumZ_insert _ _ _ _ _ Hi). lia.
  - lia.
  - rewrite Ht', Hh', (sumZ_insert _ _ _ _ _ Hi). lia.
  - rewrite Hr', Hh', (sumZ_insert _ _ _ _ _ Hi). lia.
  - unfold variant. rewrite Ht', Hh', (sumZ_insert _ _ _ _ _ Hi). lia.
Qed.

(** ** Total correctness of the main loop *)

Lemma main_step_exit l0 rand s :
  sim_inv l0 s -> active_processes s <= 0 ->
  main_step rand s = Done (inr s) /\ Forall (fun p => completed p = true) (head s).
Proof.
  intros [HP _ Hact _ _ _] Hle. unfold main_step.
  rewrite (proj2 (Z.leb_le _ _) Hle). split; [done|].
  rewrite Hact in Hle. clear Hact. induction (head s) as [|p l IH]; [done|].
  inversion HP as [|? ? Hp Hl]; subst. rewrite sumZ_cons in Hle.
  destruct (proc_inv_sums _ _ Hl) as (_ & _ & ?).
  unfold active in Hle at 1. destruct (completed p) eqn:E; [|lia].
  constructor; [done|]. apply IH; [done|lia].
Qed.

Definition fresh (p : process) : Prop :=
  1 <= tt p /\ 1 <= bt p /\ rt p = -1 /\ remaining_time p = bt p /\ completed p = false.

Lemma start_inv l :
  Forall fresh l -> sim_inv l (start l (Z.of_nat (length l))).
Proof.
  intros HF.
  assert (sumZ executed l = 0) as He.
  { induction HF as [|p l (?&?&?&?&?) HF IH]; [done|].
    rewrite sumZ_cons, IH. unfold executed. lia. }
  constructor; simpl; try done; try lia.
  - eapply Forall_weaken; [exact HF|]. intros p (?&?&?&?&Hc).
    constructor; try lia; rewrite ?Hc; try done. split; [done|lia].
  - induction HF as [|p l (?&?&?&?&Hc) HF IH]; [done|].
    rewrite sumZ_cons in *. unfold executed in He at 1. rewrite <- IH by lia.
    unfold active. rewrite Hc. simpl. lia.
  - pose proof (maxZ_ge_default at_ 0 l). unfold last_arrival. lia.
Qed.

Lemma main_loop_total rand l fuel :
  (forall n, 0 <= rand n) -> Forall fresh l ->
  last_arrival l + sumZ bt l < Z.of_nat fuel ->
  exists s, main_loop fuel rand (start l (Z.of_nat (length l))) = Done s /\
    sim_inv l s /\ Forall (fun p => completed p = true) (head s).
Proof.
  intros Hrand HF Hfuel. unfold main_loop.
  apply (iter_total (main_step rand) (sim_inv l)
    (fun s => sim_inv l s /\ Forall (fun p => completed p = true) (head s)) (variant l)).
  - intros s [HP _ _ _ _ _]. unfold variant. destruct (proc_inv_sums _ _ HP). lia.
  - intros s Hs. destruct (Z.le_gt_cases (active_processes s) 0) as [Hle|Hgt].
    + destruct (main_step_exit l rand s Hs Hle) as [-> ?]. by eexists (inr s).
    + destruct (decide (tickets (current_time s) (head s) = 0)).
      * destruct (main_step_idle l rand s) as (s' & -> & ?); try done. by eexists (inl s').
      * destruct (main_step_busy l rand s) as (s' & -> & ?); try done. by eexists (inl s').
  - by apply start_inv.
  - unfold variant. simpl.
    assert (sumZ remaining_time l = sumZ bt l) as ->.
    { apply sumZ_ext. eapply Forall_weaken; [exact HF|]. by intros ? (?&?&?&?&?). }
    pose proof (maxZ_ge_default at_ 0 l). unfold last_arrival in *. lia.
Qed.

(** ** The program on its input *)

(** The four numbers the program asks for one process. *)
Record spec := Spec { s_pid : Z; s_tt : Z; s_at : Z; s_bt : Z }.

Definition spec_input (d : spec) : list Z := [s_pid d; s_tt d; s_at d; s_bt d].

Definition new_process (d : spec) : process :=
  {| pid := s_pid d; tt := s_tt d; at_ := s_at d; bt := s_bt d; pr := -1; ct := -1;
     tat := -1; wt := -1; rt := -1; remaining_time := s_bt d; completed := false |}.

Lemma lottery_create_process_spec head d rest :
  create_process head (spec_input d ++ rest) = Done (head ++ [new_process d], rest).
Proof.
  unfold create_process, spec_input. cbn [app scan_int mbind run_bind].
  by rewrite append_link_app.
Qed.

Lemma assigned_fresh processors ds :
  Forall (fun d => 1 <= s_tt d /\ 1 <= s_bt d) ds ->
  Forall fresh (assigned (fun v p => p <| pr := v |>) new_process processors ds).
Proof. apply assigned_Forall. by intros d k []. Qed.

(** What the program prints for the process described by [d], the [i]-th of
    the list, when the last process completes no later than [horizon]. *)
Record row_ok (processors horizon i : Z) (d : spec) (p : process) : Prop := {
  row_pid : pid p = s_pid d;
  row_tt : tt p = s_tt d;
  row_at : at_ p = s_at d;
  row_bt : bt p = s_bt d;
  row_pr : pr p = Z.rem i processors;
  row_remaining : remaining_time p = 0;
  row_ct : at_ p + bt p <= ct p <= horizon;
  row_tat : tat p = ct p - at_ p;
  row_wt : wt p = tat p - bt p;
  row_rt : 0 <= rt p <= wt p
}.

Lemma calculate_metrics_row t p :
  proc_inv t p -> completed p = true ->
  let q := calculate_metrics_of p in
  static q = static p /\ remaining_time q = 0 /\ at_ q + bt q <= ct q <= t /\
  tat q = ct q - at_ q /\ wt q = tat q - bt q /\ 0 <= rt q <= wt q.
Proof.
  intros [Htt Hbt Hrem Hfr Hst Hc Hct] Hcomp. simpl.
  pose proof (proj1 Hc Hcomp). specialize (Hct Hcomp). specialize (Hst ltac:(lia)).
  unfold calculate_metrics_of. simpl.
  destruct (Z.eqb_spec (rt p) (-1)); [lia|]. simpl. repeat split; try done; lia.
Qed.

(** The process list when the main loop starts. *)
Abbreviation initial := (assigned (fun v p => p <| pr := v |>) new_process).

Lemma calculate_metrics_table processors l t (ds : list spec) i d :
  Forall (proc_inv t) l -> Forall (fun p => completed p = true) l ->
  static <$> l = static <$> initial processors ds -> ds !! i = Some d ->
  exists p, calculate_metrics l !! i = Some p /\ row_ok processors t (Z.of_nat i) d p.
Proof.
  intros HP HC Hst Hi.
  assert (static <$> l !! i =
    Some (s_pid d, s_tt d, s_at d, s_bt d, Z.rem (Z.of_nat i) processors)) as Hs.
  { by rewrite <- list_lookup_fmap, Hst, list_lookup_fmap, assigned_lookup, Hi. }
  destruct (l !! i) as [p|] eqn:Hp; [|done]. injection Hs as Hs1 Hs2 Hs3 Hs4 Hs5.
  exists (calculate_metrics_of p). unfold calculate_metrics.
  rewrite list_lookup_fmap, Hp. split; [done|].
  destruct (calculate_metrics_row t p) as (Hq & ? & ? & ? & ? & ?);
    [by eapply Forall_lookup_1|by eapply (Forall_lookup_1 _ _ _ _ HC)|].
  injection Hq as ? ? ? ? ?. constructor; congruence || lia.
Qed.

Lemma lottery_main_unfold fuel rand processors ds s :
  processors <> 0 ->
  main_loop fuel rand (start (initial processors ds) (Z.of_nat (length ds))) = Done s ->
  main fuel rand (processors :: Z.of_nat (length ds) :: (ds ≫= spec_input)) =
    Done (calculate_metrics (head s), out s).
Proof.
  intros Hproc Hs. unfold main. simpl. rewrite Nat2Z.id.
  rewrite (create_processes_spec create_process spec_input new_process lottery_create_process_spec).
  cbn [mbind run_bind]. unfold assign_processors. rewrite assign_loop_assigned by done.
  cbn [mbind run_bind]. by rewrite Hs.
Qed.



(** ** Fairness of the draw *)

Lemma tickets_split t l i p :
  l !! i = Some p -> eligible t p = true -> Forall (fun p => 0 <= tt p) l ->
  0 <= tickets t (take i l) /\ tickets t (take i l) + tt p <= tickets t l.
Proof.
  intros Hi He HF. split; [by apply tickets_nonneg, Forall_take|].
  rewrite <- (take_drop_middle l i p Hi) at 2. unfold tickets.
  rewrite sumZ_app, sumZ_cons, He.
  pose proof (tickets_nonneg t (drop (S i) l) (Forall_drop _ _ _ HF)) as Hd.
  unfold tickets in Hd. lia.
Qed.

(** Fairness of the draw: of the values rand() can take modulo the number
    of tickets in play, exactly as many select an eligible process as that
    process holds tickets. *)
Theorem lottery_draw_fair (l : list process) (t : Z) (i : nat) (p : process) :
  Forall (fun q => 0 <= tt q) l ->
  l !! i = Some p -> eligible t p = true ->
  length (filter (fun r => lottery_draw l (calculate_total_tickets l t) t r = Some i)
            (seqZ 0 (calculate_total_tickets l t))) = Z.to_nat (tt p).
Proof.
  intros HF Hi He. rewrite total_tickets_eq.
  destruct (tickets_split t l i p Hi He HF) as [Hlo Hhi].
  pose proof (Forall_lookup_1 _ _ _ _ HF Hi) as Htt. simpl in Htt.
  rewrite (filter_seqZ_interval _ 0 (tickets t l) (tickets t (take i l))
             (tickets t (take i l) + tt p)); [f_equal; lia| |lia..].
  intros r Hr. unfold lottery_draw.
  destruct (Z.eqb_spec (tickets t l) 0); [lia|].
  rewrite Z.rem_mod_nonneg, Z.mod_small, draw_loop_spec by (done || lia). split.
  - intros (j & q & -> & Hj & _ & Hw). simplify_eq/=. lia.
  - intros Hw. exists i, p. repeat split; try done; lia.
Qed.

Lemma lottery_draw_fair_witness :
  length (filter (fun r =>
      lottery_draw [new_process (Spec 7 3 0 2); new_process (Spec 8 2 0 1)]
        (calculate_total_tickets [new_process (Spec 7 3 0 2); new_process (Spec 8 2 0 1)] 0)
        0 r = Some 1%nat)
    (seqZ 0 (calculate_total_tickets
      [new_process (Spec 7 3 0 2); new_process (Spec 8 2 0 1)] 0))) = Z.to_nat 2.
Proof.
  apply (lottery_draw_fair [new_process (Spec 7 3 0 2); new_process (Spec 8 2 0 1)] 0 1
           (new_process (Spec 8 2 0 1)));
    [repeat constructor; simpl; lia|reflexivity|reflexivity].
Defined.

(** ** Bursts that are not positive *)

Lemma draw_loop_valid l t w cnt k i :
  draw_loop l k t w cnt = Some i ->
  exists j p, i = (k + j)%nat /\ l !! j = Some p /\ eligible t p = true.
Proof.
  revert k cnt. induction l as [|q l IH]; intros k cnt H; [done|]. simpl in H.
  destruct (eligible t q) eqn:E; [destruct (w <=? cnt + tt q); simplify_eq|].
  - exists 0%nat, q. split; [lia|done].
  - destruct (IH _ _ H) as (j & p & -> & ? & ?). exists (S j), p. split; [lia|done].
  - destruct (IH _ _ H) as (j & p & -> & ? & ?). exists (S j), p. split; [lia|done].
Qed.

Lemma lottery_draw_valid l total t r i :
  lottery_draw l total t r = Some i ->
  exists p, l !! i = Some p /\ eligible t p = true.
Proof.
  unfold lottery_draw. case_match; [done|]. intros Hd.
  apply draw_loop_valid in Hd as (j & p & -> & ? & ?). by exists p.
Qed.

(** A process that is not completed and has no burst left to execute. *)
Definition overrun (p : process) : Prop := completed p = false /\ remaining_time p <= 0.

Definition stuck_inv (s : sim) : Prop :=
  active_processes s = sumZ active (head s) /\ Exists overrun (head s).

Lemma overrun_active l : Exists overrun l -> 1 <= sumZ active l.
Proof.
  assert (forall l, 0 <= sumZ active l) as Hnn.
  { intros l'. apply sumZ_nonneg, Forall_true. intros p. unfold active. case_match; lia. }
  induction 1 as [p l [Hc _]|p l _ IH]; rewrite sumZ_cons; unfold active at 1.
  - rewrite Hc. specialize (Hnn l). lia.
  - case_match; lia.
Qed.

Lemma overrun_run_process t p : overrun p -> overrun (run_process t p).
Proof.
  intros [Hc Hr]. unfold run_process.
  destruct (rt p =? -1); simpl; (case_match; [zb|split; simpl; [done|lia]]).
Qed.

Lemma Exists_insert_keep l i p q :
  l !! i = Some p -> (overrun p -> overrun q) -> Exists overrun l -> Exists overrun (<[i := q]> l).
Proof.
  rewrite !list.Exists_exists. intros Hi Hpq (x & Hx & Ho).
  apply list_elem_of_lookup in Hx as [j Hj]. destruct (decide (i = j)) as [<-|Hne].
  - simplify_eq. exists q. split; [|auto]. apply list_elem_of_lookup. exists i.
    apply list_lookup_insert_eq. by eapply lookup_lt_Some.
  - exists x. split; [|done]. apply list_elem_of_lookup. exists j.
    by rewrite list_lookup_insert_ne.
Qed.

Lemma stuck_step rand s :
  stuck_inv s -> exists s', main_step rand s = Done (inl s') /\ stuck_inv s'.
Proof.
  intros [Hact Hex]. pose proof (overrun_active _ Hex) as Hpos.
  unfold main_step. rewrite (proj2 (Z.leb_gt _ _)) by lia. simpl.
  destruct (lottery_draw _ _ _ _) as [i|] eqn:Hd.
  - apply lottery_draw_valid in Hd as (p & Hi & He).
    assert (completed p = false) as Hnc
      by (unfold eligible in He; by destruct (completed p)).
    match goal with |- context [or_undef _ (head ?s0 !! _)] => set (s1 := s0) end.
    assert (head s1 = head s /\ active_processes s1 = active_processes s) as [Hh Ha]
      by (unfold s1; by case_match). clearbody s1.
    rewrite Hh, Hi. simpl. eexists. split; [done|]. unfold stuck_inv.
    destruct (run_selected_fields i p s1 Hnc) as (_ & _ & ->).
    rewrite run_selected_head, Hh, (sumZ_insert _ _ _ _ _ Hi). split; [lia|].
    eapply Exists_insert_keep; [done| |done]. apply overrun_run_process.
  - eexists. split; [done|]. unfold stuck_inv. by case_match.
Qed.

(** A process whose burst is zero or negative makes the simulator run for
    ever: its remaining time is decremented past zero and the test
    [remaining_time == 0] never succeeds, so the loop has no exit whatever
    rand() returns. *)
Theorem lottery_nonpositive_burst_diverges (rand : nat -> Z) (l : list process) (fuel : nat) :
  Forall (fun p => completed p = false /\ remaining_time p = bt p) l ->
  Exists (fun p => bt p <= 0) l ->
  main_loop fuel rand (start l (Z.of_nat (length l))) = OutOfFuel.
Proof.
  intros HF Hex. apply (iter_diverges _ stuck_inv); [apply stuck_step|]. split; simpl.
  - clear Hex. induction HF as [|p l [Hc _] HF IH]; [done|]. rewrite sumZ_cons, <- IH.
    unfold active. rewrite Hc. simpl. lia.
  - apply list.Exists_exists in Hex as (p & Hp & Hb). apply list.Exists_exists. exists p.
    split; [done|]. eapply list.Forall_forall in HF as [? ?]; [|done]. split; [done|lia].
Qed.

Lemma lottery_nonpositive_burst_diverges_witness :
  main_loop 1000 (fun n => Z.of_nat n)
    (start [new_process (Spec 1 5 0 3); new_process (Spec 2 5 0 0)] 2) = OutOfFuel.
Proof.
  apply (lottery_nonpositive_burst_diverges (fun n => Z.of_nat n)
    [new_process (Spec 1 5 0 3); new_process (Spec 2 5 0 0)] 1000).
  - repeat constructor.
  - apply Exists_cons_tl, Exists_cons_hd. simpl. lia.
Defined.
