(* ===== verification/Mlfq.v ===== *)
(** * Multi-level feedback queue simulator

    Model of [src/schedulling_algorithms/sched_algo_mlfq_existing.c]: three
    array queues with front and rear indices, quanta 2, 4 and 8, and a bubble
    sort of the process list by arrival time.  The sort assigns whole nodes
    of the linked list through pointers, so it is modelled on a heap of
    nodes; everywhere else the list is a Rocq list and a pointer an index. *)
From stdpp Require Import base tactics list gmap numbers.
From S2P Require Import Prelude SchedCommon.

Open Scope Z_scope.

Definition MAX : Z := 100.
Definition LEVELS : nat := 3.
Definition QUANTUM_0 : Z := 2.
Definition QUANTUM_1 : Z := 4.
Definition QUANTUM_2 : Z := 8.

(** ** Data *)

Record process := mkProcess {
  pid : Z;
  at_ : Z;
  bt : Z;
  pr : Z;
  ct : Z;
  tat : Z;
  wt : Z;
  rt : Z;
  remain : Z
}.

#[global] Instance process_settable : Settable process := fun p =>
  mkProcess (pid p) (at_ p) (bt p) (pr p) (ct p) (tat p) (wt p) (rt p) (remain p).

Definition create_process (head : list process) (input : list Z) :
    run (list process * list Z) :=
  '(v1, input) ← scan_int input;
  '(v2, input) ← scan_int input;
  '(v3, input) ← scan_int input;
  let new_process :=
    {| pid := v1; at_ := v2; bt := v3; pr := 0; ct := -1; tat := -1; wt := -1;
       rt := -1; remain := v3 |} in
  Done (append_link head new_process, input).

(** ** The queues

    [queue], [front] and [rear] are the arrays of the C function; [msgs]
    records the levels of the overflow messages, the latest first. *)

Record queues := mkQueues {
  queue : list (list Z);
  front : list Z;
  rear : list Z;
  msgs : list nat
}.

#[global] Instance queues_settable : Settable queues := fun q =>
  mkQueues (queue q) (front q) (rear q) (msgs q).

(** [queue[level][i]] *)
Definition cell (q : queues) (level : nat) (i : Z) : run Z :=
  row ← or_undef OutOfBounds (queue q !! level);
  if (0 <=? i) && (i <? Z.of_nat (length row))
  then or_undef OutOfBounds (row !! Z.to_nat i) else Undef OutOfBounds.

(** [queue[level][i] = v] *)
Definition set_cell (q : queues) (level : nat) (i v : Z) : run queues :=
  row ← or_undef OutOfBounds (queue q !! level);
  if (0 <=? i) && (i <? Z.of_nat (length row))
  then Done (q <| queue ::= <[level := <[Z.to_nat i := v]> row]> |>) else Undef OutOfBounds.

Definition enqueue (q : queues) (level : nat) (pid : Z) : run queues :=
  r ← or_undef OutOfBounds (rear q !! level);
  if r =? MAX - 1 then Done (q <| msgs ::= cons level |>)
  else
    let q :=
      if r =? -1 then q <| rear ::= <[level := 0]> |> <| front ::= <[level := 0]> |>
      else q <| rear ::= <[level := r + 1]> |> in
    r ← or_undef OutOfBounds (rear q !! level);
    set_cell q level r pid.

Definition dequeue (q : queues) (level : nat) : run (Z * queues) :=
  f ← or_undef OutOfBounds (front q !! level);
  if f =? -1 then Done (-1, q)
  else
    pid ← cell q level f;
    r ← or_undef OutOfBounds (rear q !! level);
    let q :=
      if f =? r then q <| rear ::= <[level := -1]> |> <| front ::= <[level := -1]> |>
      else q <| front ::= <[level := f + 1]> |> in
    Done (pid, q).

Definition find_process (head : list process) (pid_ : Z) : option nat :=
  find_loop pid head 0 pid_.

(** ** The scheduler *)

Record sim := mkSim {
  head : list process;
  current_time : Z;
  qs : queues;
  all_done : bool
}.

#[global] Instance sim_settable : Settable sim := fun s =>
  mkSim (head s) (current_time s) (qs s) (all_done s).

Definition quantum : list Z := [QUANTUM_0; QUANTUM_1; QUANTUM_2].

Definition finish (now : Z) (p : process) : process :=
  let p := p <| remain := 0 |> <| ct := now |> in
  let p := p <| tat := ct p - at_ p |> in
  let p := p <| wt := tat p - bt p |> in
  p <| rt := now - at_ p - bt p |>.

(** One iteration of [while (front[i] != -1)]. *)
Definition drain_step (i : nat) (s : sim) : run (sim + sim) :=
  f ← or_undef OutOfBounds (front (qs s) !! i);
  if f =? -1 then Done (inr s)
  else
    '(pid, q) ← dequeue (qs s) i;
    ptr ← or_undef NullDeref (find_process (head s) pid);
    p ← or_undef NullDeref (head s !! ptr);
    qu ← or_undef OutOfBounds (quantum !! i);
    let now := if current_time s <? at_ p then at_ p else current_time s in
    if remain p <=? qu then
      let now := now + remain p in
      Done (inl {| head := <[ptr := finish now p]> (head s); current_time := now;
                   qs := q; all_done := false |})
    else
      q ← enqueue q (if (i <? LEVELS - 1)%nat then S i else i) pid;
      Done (inl {| head := <[ptr := p <| remain := remain p - qu |>]> (head s);
                   current_time := now + qu; qs := q; all_done := false |}).

Definition drain (fuel i : nat) (s : sim) : run sim := iter fuel (drain_step i) s.

(** [for (int i = 0; i < LEVELS; i++)] *)
Fixpoint levels_loop (fuel n i : nat) (s : sim) : run sim :=
  match n with
  | O => Done s
  | S n => s ← drain fuel i s; levels_loop fuel n (S i) s
  end.

(** One iteration of [while (1)]. *)
Definition mlfq_step (fuel : nat) (s : sim) : run (sim + sim) :=
  s ← levels_loop fuel LEVELS 0 (s <| all_done := true |>);
  if all_done s then Done (inr s) else Done (inl (s <| current_time ::= Z.succ |>)).

Fixpoint enqueue_all (q : queues) (temp : list process) : run queues :=
  match temp with
  | [] => Done q
  | p :: link => q ← enqueue q 0 (pid p); enqueue_all q link
  end.

Definition empty_queues : queues :=
  {| queue := replicate 100 (replicate 100 0); front := replicate LEVELS (-1);
     rear := replicate LEVELS (-1); msgs := [] |}.

Definition mlfq (fuel : nat) (head : list process) (now : Z) : run sim :=
  q ← enqueue_all empty_queues head;
  iter fuel (mlfq_step fuel)
    {| head := head; current_time := now; qs := q; all_done := true |}.

Definition assign_processors (processors : Z) (head : list process) : run (list process) :=
  assign_loop (fun v p => p <| pr := v |>) processors 0 head.

Definition print_linkedlist (head : list process) : list (list Z) :=
  (fun p => [pid p; at_ p; bt p; pr p; ct p; tat p; wt p; rt p]) <$> head.

(** ** The sort, on the heap

    A node is a process and its [link] field; an address is a natural
    number and the null pointer is [None]. *)

Abbreviation node := (process * option nat)%type.
Abbreviation heap := (gmap nat node).

Definition deref (h : heap) (ptr : option nat) : run (nat * node) :=
  a ← or_undef NullDeref ptr;
  n ← or_undef NullDeref (h !! a);
  Done (a, n).

(** The swap of the source, assignment by assignment. *)
Definition swap_nodes (h : heap) (ptr1 : option nat) : run heap :=
  '(a, temp) ← deref h ptr1;               (* struct process temp = *ptr1; *)
  '(_, n2) ← deref h (snd temp);
  let h := <[a := n2]> h in                 (* *ptr1 = *(ptr1->link); *)
  '(a2, _) ← deref h (snd n2);
  let h := <[a2 := temp]> h in              (* *(ptr1->link) = temp; *)
  '(_, n1) ← deref h ptr1;
  '(b, nb) ← deref h (snd n1);
  let temp_link := snd nb in                (* temp_link = ptr1->link->link; *)
  let h := <[b := (fst nb, snd n1)]> h in   (* ptr1->link->link = ptr1->link; *)
  '(a, n1) ← deref h ptr1;
  Done (<[a := (fst n1, temp_link)]> h).    (* ptr1->link = temp_link; *)

Record sorting := mkSorting { hp : heap; ptr1 : option nat; swapped : bool }.

(** One iteration of [while (ptr1->link != lptr)]. *)
Definition pass_step (lptr : option nat) (s : sorting) : run (sorting + sorting) :=
  '(_, n1) ← deref (hp s) (ptr1 s);
  if decide (snd n1 = lptr) then Done (inr s)
  else
    '(_, n2) ← deref (hp s) (snd n1);
    s ← (if at_ (fst n2) <? at_ (fst n1) then
           h ← swap_nodes (hp s) (ptr1 s);
           Done {| hp := h; ptr1 := ptr1 s; swapped := true |}
         else Done s);
    '(_, n1) ← deref (hp s) (ptr1 s);
    Done (inl {| hp := hp s; ptr1 := snd n1; swapped := swapped s |}).

(** One iteration of [do { ... } while (swapped)]: state is heap and lptr. *)
Definition sort_step (fuel : nat) (head : option nat) (s : heap * option nat) :
    run ((heap * option nat) + heap) :=
  s' ← iter fuel (pass_step (snd s)) {| hp := fst s; ptr1 := head; swapped := false |};
  if swapped s' then Done (inl (hp s', ptr1 s')) else Done (inr (hp s')).

Definition bubble_sort (fuel : nat) (h : heap) (head : option nat) : run heap :=
  iter fuel (sort_step fuel head) (h, None).

(** The list built by [create_process], in freshly allocated nodes, and the
    list found by following the links. *)
Fixpoint alloc_list (a : nat) (l : list process) : heap :=
  match l with
  | [] => ∅
  | p :: link =>
      <[a := (p, match link with [] => None | _ => Some (S a) end)]> (alloc_list (S a) link)
  end.

Definition head_of (l : list process) : option nat :=
  match l with [] => None | _ => Some 0%nat end.

Fixpoint read_list (fuel : nat) (h : heap) (ptr : option nat) : run (list process) :=
  match fuel, ptr with
  | _, None => Done []
  | O, Some _ => OutOfFuel
  | S fuel, Some _ =>
      '(_, n) ← deref h ptr;
      link ← read_list fuel h (snd n);
      Done (fst n :: link)
  end.

Definition main (fuel : nat) (input : list Z) : run (list process) :=
  '(processors, input) ← scan_int input;
  '(processes, input) ← scan_int input;
  '(l, input) ← create_processes create_process (Z.to_nat processes) [] input;
  h ← bubble_sort fuel (alloc_list 0 l) (head_of l);
  l ← read_list fuel h (head_of l);
  l ← assign_processors processors l;
  s ← mlfq fuel l 0;
  Done (head s).

Example mlfq_main_run :
  match main 60 [2; 3; 1; 0; 5; 2; 1; 12; 3; 4; 1] with
  | Done l => Some (print_linkedlist l) | _ => None end
  = Some [[1; 0; 5; 0; 8; 8; 3; 3]; [2; 1; 12; 1; 18; 17; 5; 5]; [3; 4; 1; 0; 5; 1; 0; 0]].
Proof. vm_compute. reflexivity. Qed.

(** ** The array queues refine FIFO queues *)

(** Level [k] of [q] holds the sequence [c], oldest first, and its rear index
    is [r]. *)
Definition level_rep (q : queues) (k : nat) (c : list Z) (r : Z) : Prop :=
  exists f row,
    front q !! k = Some f /\ rear q !! k = Some r /\ queue q !! k = Some row /\
    length row = 100%nat /\
    ((c = [] /\ f = -1 /\ r = -1) \/
     (0 <= f <= r /\ r < MAX /\ c = slice f r row)).

(** Two queue states agree on every level but [k]. *)
Definition same_others (k : nat) (q q' : queues) : Prop :=
  forall j c r, j <> k -> level_rep q j c r -> level_rep q' j c r.

Lemma level_rep_rear q k c r : level_rep q k c r -> -1 <= r < MAX.
Proof. intros (f & row & _ & _ & _ & _ & [(_ & _ & ->)|(? & ? & _)]); unfold MAX in *; lia. Qed.

Lemma level_rep_nil q k r : level_rep q k [] r -> r = -1.
Proof.
  intros (f & row & _ & _ & _ & Hlen & [(_ & _ & ->)|(Hf & Hr & Hc)]); [done|].
  unfold MAX in Hr. pose proof (slice_length f r row). rewrite <- Hc in *. simpl in *. lia.
Qed.

Lemma level_rep_front q k c r :
  level_rep q k c r -> exists f, front q !! k = Some f /\ (f = -1 <-> c = []).
Proof.
  intros (f & row & Hf & _ & _ & Hlen & Hd). exists f. split; [done|].
  destruct Hd as [(-> & -> & _)|(Hb & Hr & ->)]; [done|]. unfold MAX in Hr. split; [lia|].
  intros Hc. pose proof (slice_length f r row). rewrite Hc in *. simpl in *. lia.
Qed.

Lemma set_cell_spec q k i v row :
  queue q !! k = Some row -> 0 <= i < Z.of_nat (length row) ->
  set_cell q k i v = Done (q <| queue ::= <[k := <[Z.to_nat i := v]> row]> |>).
Proof.
  intros Hrow Hi. unfold set_cell. rewrite Hrow. simpl.
  rewrite (proj2 (Z.leb_le _ _)), (proj2 (Z.ltb_lt _ _)) by lia. done.
Qed.

Lemma cell_spec q k i v row :
  queue q !! k = Some row -> row !! Z.to_nat i = Some v -> 0 <= i ->
  cell q k i = Done v.
Proof.
  intros Hrow Hv Hi. unfold cell. rewrite Hrow. simpl.
  pose proof (lookup_lt_Some _ _ _ Hv).
  rewrite (proj2 (Z.leb_le _ _)), (proj2 (Z.ltb_lt _ _)) by lia. simpl. by rewrite Hv.
Qed.

Lemma enqueue_room q k c r x :
  level_rep q k c r -> r < MAX - 1 ->
  exists q', enqueue q k x = Done q' /\ level_rep q' k (c ++ [x]) (r + 1) /\
    same_others k q q' /\ msgs q' = msgs q.
Proof.
  intros (f & row & Hf & Hr & Hrow & Hlen & Hd) Hlt. unfold MAX in *.
  pose proof (lookup_lt_Some _ _ _ Hf). pose proof (lookup_lt_Some _ _ _ Hr).
  pose proof (lookup_lt_Some _ _ _ Hrow).
  unfold enqueue. rewrite Hr. cbn [or_undef mbind run_bind].
  rewrite (proj2 (Z.eqb_neq _ _)) by (unfold MAX; lia).
  destruct Hd as [(-> & -> & ->)|(Hb & Hr' & ->)].
  - cbn -[Z.to_nat]. rewrite list_lookup_insert_eq by done. cbn -[Z.to_nat].
    erewrite set_cell_spec; [|done|lia]. eexists. split; [done|]. split; [|split; [|done]].
    + exists 0, (<[0%nat := x]> row). simpl. rewrite !list_lookup_insert_eq, length_insert by done.
      repeat split; try done. right. split; [lia|]. split; [done|].
      symmetry. apply (slice_snoc 0 (-1) row x); lia.
    + intros j c' r' Hj (f' & row' & ?). exists f', row'. simpl. by rewrite !list_lookup_insert_ne.
  - rewrite (proj2 (Z.eqb_neq r (-1))) by lia. cbn -[Z.to_nat].
    rewrite list_lookup_insert_eq by done. cbn -[Z.to_nat].
    erewrite set_cell_spec; [|done|lia]. eexists. split; [done|]. split; [|split; [|done]].
    + exists f, (<[Z.to_nat (r + 1) := x]> row). simpl.
      rewrite !list_lookup_insert_eq, length_insert by done.
      repeat split; try done. right. split; [lia|]. split; [unfold MAX; lia|].
      by rewrite slice_snoc by lia.
    + intros j c' r' Hj (f' & row' & ?). exists f', row'. simpl. by rewrite !list_lookup_insert_ne.
Qed.

Lemma enqueue_full q k c x :
  level_rep q k c (MAX - 1) -> enqueue q k x = Done (q <| msgs ::= cons k |>).
Proof. intros (f & row & _ & Hr & _). unfold enqueue. by rewrite Hr. Qed.

Lemma dequeue_empty q k r : level_rep q k [] r -> dequeue q k = Done (-1, q).
Proof.
  intros H. destruct (level_rep_front _ _ _ _ H) as (f & Hf & Hiff). unfold dequeue.
  rewrite Hf. simpl. by rewrite (proj2 Hiff eq_refl).
Qed.

Lemma dequeue_cons q k x c r :
  level_rep q k (x :: c) r ->
  exists q' r', dequeue q k = Done (x, q') /\ level_rep q' k c r' /\ r' <= r /\
    same_others k q q' /\ msgs q' = msgs q.
Proof.
  intros (f & row & Hf & Hr & Hrow & Hlen & Hd).
  pose proof (lookup_lt_Some _ _ _ Hf). pose proof (lookup_lt_Some _ _ _ Hr).
  destruct Hd as [(? & _)|(Hb & Hr' & Hc)]; [done|]. unfold MAX in *.
  destruct (slice_cons f r row) as (y & Hy & Hs); [lia|lia|].
  rewrite Hs in Hc. injection Hc as <- ->.
  unfold dequeue. rewrite Hf. cbn [or_undef mbind run_bind].
  rewrite (proj2 (Z.eqb_neq f (-1))) by lia. rewrite (cell_spec _ _ _ _ _ Hrow Hy) by lia.
  rewrite Hr. cbn -[Z.eqb]. destruct (Z.eqb_spec f r) as [->|Hne].
  - eexists _, (-1). split; [done|]. split; [|split; [lia|split; [|done]]].
    + exists (-1), row. simpl. rewrite !list_lookup_insert_eq by done. repeat split; try done.
      left. by rewrite slice_empty.
    + intros j c' r' Hj (f' & row' & ?). exists f', row'. simpl. by rewrite !list_lookup_insert_ne.
  - eexists _, r. split; [done|]. split; [|split; [lia|split; [|done]]].
    + exists (f + 1), row. simpl. rewrite !list_lookup_insert_eq by done.
      repeat split; try done. right. split; [lia|done].
    + intros j c' r' Hj (f' & row' & ?). exists f', row'. simpl. by rewrite !list_lookup_insert_ne.
Qed.

(** Operations on one level, and the same operations on a mathematical queue. *)
Inductive qop := Enq (x : Z) | Deq.

Fixpoint run_ops (q : queues) (k : nat) (ops : list qop) : run (list Z * queues) :=
  match ops with
  | [] => Done ([], q)
  | Enq x :: ops => q ← enqueue q k x; run_ops q k ops
  | Deq :: ops =>
      '(x, q) ← dequeue q k;
      '(xs, q) ← run_ops q k ops;
      Done (x :: xs, q)
  end.

Fixpoint fifo_ops (c : list Z) (ops : list qop) : list Z * list Z :=
  match ops with
  | [] => ([], c)
  | Enq x :: ops => fifo_ops (c ++ [x]) ops
  | Deq :: ops =>
      match c with
      | [] => let '(xs, c) := fifo_ops [] ops in (-1 :: xs, c)
      | x :: c => let '(xs, c) := fifo_ops c ops in (x :: xs, c)
      end
  end.

Fixpoint enqs (ops : list qop) : Z :=
  match ops with [] => 0 | Enq _ :: ops => 1 + enqs ops | Deq :: ops => enqs ops end.

Lemma enqs_nonneg ops : 0 <= enqs ops.
Proof. induction ops as [|[]]; simpl; lia. Qed.

Lemma same_others_trans k q1 q2 q3 :
  same_others k q1 q2 -> same_others k q2 q3 -> same_others k q1 q3.
Proof. unfold same_others. eauto. Qed.

(** The array queues refine FIFO queues: any sequence of enqueue and
    dequeue calls on a level yields the values a FIFO queue yields (-1 from an
    empty queue), ends in the contents the FIFO queue ends in, and leaves the
    other levels alone, as long as the rear index has room for the enqueues of
    the sequence.  The room is counted from the rear index, not from the
    number of elements: cells freed by dequeue are reused only once the level
    has become empty. *)
Theorem queue_refines_fifo (ops : list qop) (q : queues) (k : nat) (c : list Z) (r : Z) :
  level_rep q k c r -> r + enqs ops <= MAX - 1 ->
  exists q' r',
    run_ops q k ops = Done (fst (fifo_ops c ops), q') /\
    level_rep q' k (snd (fifo_ops c ops)) r' /\ same_others k q q' /\ msgs q' = msgs q.
Proof.
  revert q c r. induction ops as [|[x|] ops IH]; intros q c r Hq Hr; simpl in *.
  - exists q, r. by unfold same_others.
  - pose proof (enqs_nonneg ops).
    destruct (enqueue_room q k c r x) as (q1 & -> & Hq1 & Ho1 & Hm1); [done|lia|].
    destruct (IH q1 _ _ Hq1) as (q2 & r2 & Hrun & Hq2 & Ho2 & Hm2); [lia|].
    exists q2, r2. simpl. repeat split; try done; [|congruence].
    by eapply same_others_trans.
  - destruct c as [|x c].
    + rewrite (dequeue_empty _ _ _ Hq). simpl.
      destruct (IH q [] r Hq Hr) as (q2 & r2 & -> & Hq2 & Ho2 & Hm2). simpl.
      destruct (fifo_ops [] ops). exists q2, r2. done.
    + destruct (dequeue_cons q k x c r Hq) as (q1 & r1 & -> & Hq1 & Hle & Ho1 & Hm1). simpl.
      destruct (IH q1 c r1 Hq1) as (q2 & r2 & -> & Hq2 & Ho2 & Hm2); [lia|]. simpl.
      destruct (fifo_ops c ops). exists q2, r2. repeat split; try done; [|congruence].
      by eapply same_others_trans.
Qed.

Lemma empty_level_rep k : (k < LEVELS)%nat -> level_rep empty_queues k [] (-1).
Proof.
  unfold LEVELS. intros Hk. exists (-1), (replicate 100 0). unfold empty_queues, LEVELS.
  simpl front. simpl rear. cbn [queue].
  destruct k as [|[|[|]]]; [..|lia]; repeat split; try done; by left.
Qed.

Lemma queue_refines_fifo_witness :
  exists q' r',
    run_ops empty_queues 1 [Enq 5; Enq 6; Deq; Deq; Deq] = Done ([5; 6; -1], q') /\
    level_rep q' 1 [] r' /\ same_others 1 empty_queues q' /\ msgs q' = [].
Proof.
  apply (queue_refines_fifo [Enq 5; Enq 6; Deq; Deq; Deq] empty_queues 1 [] (-1));
    [apply empty_level_rep; vm_compute; lia|vm_compute; congruence].
Defined.

(** ** Invariant of the scheduler *)

(** What a run never changes of a process. *)
Definition static (p : process) : Z * Z * Z * Z := (pid p, at_ p, bt p, pr p).

Definition executed (p : process) : Z := bt p - remain p.
Definition last_arrival (l : list process) : Z := maxZ at_ 0 l.

(** A process that has completed no later than [now]. *)
Record finished (now : Z) (p : process) : Prop := {
  fi_bt : 0 <= bt p;
  fi_remain : remain p = 0;
  fi_ct : at_ p + bt p <= ct p <= now;
  fi_ct0 : 0 <= ct p;
  fi_tat : tat p = ct p - at_ p;
  fi_wt : wt p = tat p - bt p;
  fi_rt : rt p = wt p
}.

(** A process waiting in the queue of level [k]. *)
Record waiting (now : Z) (k : nat) (p : process) : Prop := {
  wa_remain : 0 <= remain p <= bt p;
  wa_pos : (0 < k)%nat -> 0 < remain p;
  wa_level : (k < LEVELS)%nat;
  wa_ct : ct p = -1;
  wa_now : remain p < bt p -> at_ p + executed p <= now
}.

(** Ghost state: each process with the level it waits in, or [None] once it
    has completed. *)
Abbreviation ghost := (process * option nat)%type.

Definition ghost_ok (now : Z) (g : ghost) : Prop :=
  match snd g with Some k => waiting now k (fst g) | None => finished now (fst g) end.

(** Enqueues into level 2 that a burst of [x] ticks at level 2 needs. *)
Definition slices (x : Z) : Z := Z.max 0 ((x + 7) / 8).

(** Enqueues into level 2 a process will still cause. *)
Definition cost (g : ghost) : Z :=
  match snd g with
  | Some 0%nat => slices (remain (fst g) - 6)
  | Some 1%nat => slices (remain (fst g) - 4)
  | Some _ => slices (remain (fst g)) - 1
  | None => 0
  end.

Definition at_level0 (g : ghost) : Z := match snd g with Some 0%nat => 1 | _ => 0 end.

Definition pid_of (l0 : list process) (i : nat) : Z := default 0 (pid <$> l0 !! i).

Record minv (l0 : list process) (G : list ghost) (J : nat -> list nat) (R : nat -> Z)
    (s : sim) : Prop := {
  mi_head : fst <$> G = head s;
  mi_static : static <$> head s = static <$> l0;
  mi_nodup : forall k, NoDup (J k);
  mi_members : forall k i, i ∈ J k <-> exists p, G !! i = Some (p, Some k);
  mi_rep : forall k, (k < 3)%nat -> level_rep (qs s) k (pid_of l0 <$> J k) (R k);
  mi_room1 : R 1%nat + 1 + sumZ at_level0 G <= MAX;
  mi_room2 : R 2%nat + 1 + sumZ cost G <= MAX;
  mi_procs : Forall (ghost_ok (current_time s)) G;
  mi_now : 0 <= current_time s;
  mi_msgs : msgs (qs s) = []
}.

Lemma finished_later now now' p : now <= now' -> finished now p -> finished now' p.
Proof. intros H []. constructor; lia. Qed.

Lemma waiting_later now now' k p : now <= now' -> waiting now k p -> waiting now' k p.
Proof. intros H [? ? ? ? Hn]. constructor; try done. intros ?%Hn. lia. Qed.

Lemma ghost_ok_later now now' g : now <= now' -> ghost_ok now g -> ghost_ok now' g.
Proof.
  unfold ghost_ok. destruct (snd g); eauto using finished_later, waiting_later.
Qed.

Lemma slices_step x : 0 < x -> slices x = 1 + slices (x - 8).
Proof.
  intros Hx. unfold slices. replace (x + 7) with ((x - 8 + 7) + 1 * 8) by lia.
  rewrite Z.div_add by lia. pose proof (Z.div_pos (x - 8 + 7) 8). lia.
Qed.

Lemma slices_pos x : 0 < x -> 1 <= slices x.
Proof. intros Hx. rewrite slices_step by done. unfold slices. lia. Qed.

Lemma cost_nonneg now g : ghost_ok now g -> 0 <= cost g.
Proof.
  destruct g as [p [[|[|k]]|]]; unfold ghost_ok, cost; simpl; try (unfold slices; lia).
  intros [_ Hp _ _ _]. pose proof (slices_pos (remain p)). lia.
Qed.

Lemma find_process_nodup l i p :
  NoDup (pid <$> l) -> l !! i = Some p -> find_process l (pid p) = Some i.
Proof. intros. by apply (find_loop_nodup pid l 0). Qed.

Lemma static_pid (l l0 : list process) : static <$> l = static <$> l0 -> pid <$> l = pid <$> l0.
Proof.
  revert l0. induction l as [|p l IH]; intros [|q l0] H; simplify_eq/=; [done|].
  f_equal; [by unfold static in *; simplify_eq|]. by apply IH.
Qed.

(** Function update, for the ghost queues. *)
Definition upd {A} (J : nat -> A) (k : nat) (v : A) : nat -> A :=
  fun j => if decide (j = k) then v else J j.

Lemma upd_eq {A} (J : nat -> A) k v : upd J k v k = v.
Proof. unfold upd. by case_decide. Qed.

Lemma upd_ne {A} (J : nat -> A) k v j : j <> k -> upd J k v j = J j.
Proof. intros. unfold upd. by case_decide. Qed.

Section moves.
Context (G : list ghost) (J : nat -> list nat) (k i : nat) (rest : list nat) (p : process).
Hypothesis HJ : forall m j, j ∈ J m <-> exists p, G !! j = Some (p, Some m).
Hypothesis Hnd : forall m, NoDup (J m).
Hypothesis Hk : J k = i :: rest.
Hypothesis Hi : G !! i = Some (p, Some k).

(** The head of level [k] leaves the queues ... *)
Lemma members_finish p' m j :
  j ∈ upd J k rest m <-> exists p0, <[i := (p', None)]> G !! j = Some (p0, Some m).
Proof using HJ Hnd Hk Hi.
  pose proof (Hnd k) as Hndk. rewrite Hk in Hndk. apply list.NoDup_cons in Hndk as [Hir _].
  assert (j ∈ upd J k rest m <-> j ∈ J m /\ j <> i) as ->.
  { unfold upd. case_decide as Hm; [subst m; rewrite Hk; set_solver|].
    split; [|tauto]. intros Hj. split; [done|]. intros ->.
    apply HJ in Hj as [p0 Hj]. congruence. }
  rewrite HJ. destruct (decide (j = i)) as [->|Hne].
  - rewrite list_lookup_insert_eq by (by eapply lookup_lt_Some). naive_solver.
  - rewrite list_lookup_insert_ne by done. naive_solver.
Qed.

Lemma nodup_finish m : NoDup (upd J k rest m).
Proof using Hnd Hk.
  unfold upd. case_decide; [|done]. specialize (Hnd k). rewrite Hk in Hnd.
  by apply list.NoDup_cons in Hnd as [_ ?].
Qed.

(** ... or moves to the tail of level [k']. *)
Lemma members_move p' k' m j :
  j ∈ upd (upd J k rest) k' (upd J k rest k' ++ [i]) m <->
  exists p0, <[i := (p', Some k')]> G !! j = Some (p0, Some m).
Proof using HJ Hnd Hk Hi.
  pose proof (lookup_lt_Some _ _ _ Hi) as Hlt.
  assert (j ∈ upd (upd J k rest) k' (upd J k rest k' ++ [i]) m <->
    j ∈ upd J k rest m \/ (j = i /\ m = k')) as ->.
  { unfold upd at 1. case_decide as Hm; [|naive_solver]. subst m. set_solver. }
  rewrite (members_finish p'). destruct (decide (j = i)) as [->|Hne].
  - rewrite !list_lookup_insert_eq by done. naive_solver.
  - rewrite !list_lookup_insert_ne by done. naive_solver.
Qed.

Lemma nodup_move k' m : NoDup (upd (upd J k rest) k' (upd J k rest k' ++ [i]) m).
Proof using HJ Hnd Hk Hi.
  unfold upd at 1. case_decide; [|apply nodup_finish]. apply list.NoDup_app.
  split; [apply nodup_finish|]. split; [|apply NoDup_singleton].
  intros j Hj ->%list_elem_of_singleton.
  apply (members_finish p) in Hj as [p0 Hj].
  rewrite list_lookup_insert_eq in Hj by (by eapply lookup_lt_Some). done.
Qed.
End moves.

(** Work left: the bursts plus one for each process still to complete. *)
Definition work (s : sim) : Z :=
  sumZ (fun p => remain p + (if ct p =? -1 then 1 else 0)) (head s).

Lemma minv_lookup l0 G J R s k i :
  minv l0 G J R s -> i ∈ J k ->
  exists p, G !! i = Some (p, Some k) /\ head s !! i = Some p /\
    pid_of l0 i = pid p /\ waiting (current_time s) k p.
Proof.
  intros H [p Hi]%(mi_members _ _ _ _ _ H). exists p. split; [done|].
  assert (head s !! i = Some p) as Hh.
  { by rewrite <- (mi_head _ _ _ _ _ H), list_lookup_fmap, Hi. }
  split; [done|]. split.
  - unfold pid_of. rewrite <- list_lookup_fmap, <- (static_pid _ _ (mi_static _ _ _ _ _ H)).
    by rewrite list_lookup_fmap, Hh.
  - exact (Forall_lookup_1 _ _ _ _ (mi_procs _ _ _ _ _ H) Hi).
Qed.

Lemma quantum_lookup k : (k < 3)%nat -> exists qu, quantum !! k = Some qu /\ 2 <= qu <= 8.
Proof.
  intros Hk. destruct k as [|[|[|]]]; [..|lia]; eexists; (split; [reflexivity|]);
    unfold QUANTUM_0, QUANTUM_1, QUANTUM_2; lia.
Qed.

Lemma finish_finished now p k :
  waiting now k p -> 0 <= now ->
  finished (Z.max now (at_ p) + remain p) (finish (Z.max now (at_ p) + remain p) p).
Proof.
  intros [Hr _ _ Hct Hn] H0. unfold finish. constructor; simpl; try lia.
  destruct (Z.eq_dec (remain p) (bt p)); [lia|]. unfold executed in Hn. lia.
Qed.

(** The level a preempted process moves to, and what the move costs. *)
Definition next_level (k : nat) : nat := if (k <? LEVELS - 1)%nat then S k else k.

Lemma requeue_cost now k p qu :
  (k < 3)%nat -> quantum !! k = Some qu -> qu < remain p -> waiting now k p ->
  let g := (p, Some k) in
  let g' := (p <| remain := remain p - qu |>, Some (next_level k)) in
  (next_level k = 1%nat /\ k = 0%nat /\ cost g' = cost g /\ at_level0 g' = at_level0 g - 1) \/
  (next_level k = 2%nat /\ k <> 0%nat /\ cost g' = cost g - 1 /\ 1 <= cost g /\
   at_level0 g' = at_level0 g).
Proof.
  intros Hk Hqu Hlt _. destruct k as [|[|[|]]]; [..|lia]; injection Hqu as <-;
    unfold QUANTUM_0, QUANTUM_1, QUANTUM_2 in *; cbn [cost at_level0 fst snd].
  - left. repeat split; try done. simpl. f_equal. lia.
  - right. simpl. pose proof (slices_pos (remain p - 4) ltac:(lia)). repeat split; try done.
  - right. simpl. rewrite (slices_step (remain p)) by lia.
    pose proof (slices_pos (remain p - 8) ltac:(lia)). repeat split; try done; lia.
Qed.

Lemma rep_pop l0 G J R s k i rest p q r' :
  minv l0 G J R s -> J k = i :: rest -> pid_of l0 i = pid p ->
  level_rep q k (pid_of l0 <$> rest) r' -> same_others k (qs s) q ->
  forall m, (m < 3)%nat -> level_rep q m (pid_of l0 <$> upd J k rest m) (upd R k r' m).
Proof.
  intros H HJ Hp Hq Ho m Hm. destruct (decide (m = k)) as [->|Hne].
  - by rewrite !upd_eq.
  - rewrite !upd_ne by done. apply Ho; [done|]. by apply (mi_rep _ _ _ _ _ H).
Qed.

Lemma forall_ghost_update now now' (G : list ghost) i g :
  now <= now' -> Forall (ghost_ok now) G -> ghost_ok now' g ->
  Forall (ghost_ok now') (<[i := g]> G).
Proof.
  intros Hle HG Hg. apply Forall_insert; [|done].
  eapply Forall_weaken; [exact HG|]. intros x. by apply ghost_ok_later.
Qed.

(** The process at the head of the queue completes. *)
Lemma drain_finish l0 G J R s k i rest p q r' :
  minv l0 G J R s -> (k < 3)%nat -> J k = i :: rest -> G !! i = Some (p, Some k) ->
  head s !! i = Some p -> pid_of l0 i = pid p -> waiting (current_time s) k p ->
  level_rep q k (pid_of l0 <$> rest) r' -> r' <= R k -> same_others k (qs s) q ->
  msgs q = [] ->
  let now := Z.max (current_time s) (at_ p) + remain p in
  minv l0 (<[i := (finish now p, None)]> G) (upd J k rest) (upd R k r')
    {| head := <[i := finish now p]> (head s); current_time := now; qs := q;
       all_done := false |}.
Proof.
  intros H Hk HJ HGi Hh Hpid Hw Hq Hr Ho Hm now.
  pose proof (wa_remain _ _ _ Hw) as Hrem. pose proof (mi_now _ _ _ _ _ H) as H0.
  pose proof (Forall_lookup_1 _ _ _ _ (mi_procs _ _ _ _ _ H) HGi) as Hok.
  assert (forall m, upd R k r' m <= R m) as HR
    by (intros m; unfold upd; case_decide; subst; lia).
  constructor; simpl.
  - rewrite list_fmap_insert. simpl. by rewrite (mi_head _ _ _ _ _ H).
  - rewrite <- (mi_static _ _ _ _ _ H). by apply fmap_insert_same with p.
  - intros m. eapply nodup_finish; [apply H|done].
  - intros m j. eapply members_finish; [apply H|apply H|done|done].
  - by eapply rep_pop.
  - rewrite (sumZ_insert _ _ _ _ _ HGi). pose proof (mi_room1 _ _ _ _ _ H).
    specialize (HR 1%nat). unfold at_level0 at 2 3. simpl. repeat case_match; lia.
  - rewrite (sumZ_insert _ _ _ _ _ HGi). pose proof (mi_room2 _ _ _ _ _ H).
    specialize (HR 2%nat). pose proof (cost_nonneg _ _ Hok). unfold cost at 2. simpl. lia.
  - eapply forall_ghost_update; [|apply H|]; [lia|]. by apply finish_finished with k.
  - lia.
  - done.
Qed.

(** The process at the head of the queue uses up its quantum and is put at
    the tail of the next level. *)
Lemma drain_requeue l0 G J R s k i rest p q q' r' qu :
  minv l0 G J R s -> (k < 3)%nat -> J k = i :: rest -> G !! i = Some (p, Some k) ->
  head s !! i = Some p -> pid_of l0 i = pid p -> waiting (current_time s) k p ->
  level_rep q k (pid_of l0 <$> rest) r' -> r' <= R k -> same_others k (qs s) q ->
  quantum !! k = Some qu -> qu < remain p -> 2 <= qu ->
  let k' := next_level k in
  let J' := upd J k rest in
  let R' := upd R k r' in
  level_rep q' k' ((pid_of l0 <$> J' k') ++ [pid p]) (R' k' + 1) ->
  same_others k' q q' -> msgs q' = [] ->
  let p' := p <| remain := remain p - qu |> in
  minv l0 (<[i := (p', Some k')]> G) (upd J' k' (J' k' ++ [i])) (upd R' k' (R' k' + 1))
    {| head := <[i := p']> (head s); current_time := Z.max (current_time s) (at_ p) + qu;
       qs := q'; all_done := false |}.
Proof.
  intros H Hk HJ HGi Hh Hpid Hw Hq Hr Ho Hqu Hlt Hq2 k' J' R' Hq' Ho' Hm p'.
  pose proof (wa_remain _ _ _ Hw) as Hrem. pose proof (mi_now _ _ _ _ _ H) as H0.
  pose proof (rep_pop _ _ _ _ _ _ _ _ _ _ _ H HJ Hpid Hq Ho) as Hrep.
  destruct (requeue_cost _ _ _ _ Hk Hqu Hlt Hw) as [(Hk1 & Hk0 & Hc & Hl)|(Hk2 & Hk0 & Hc & _ & Hl)];
  fold k' p' in Hc, Hl; constructor; simpl.
  all: try (rewrite list_fmap_insert; simpl; by rewrite (mi_head _ _ _ _ _ H)).
  all: try (rewrite <- (mi_static _ _ _ _ _ H); by apply fmap_insert_same with p).
  all: try (intros m; eapply nodup_move; [apply H|apply H|done|done]).
  all: try (intros m j; eapply members_move; [apply H|apply H|done|done]).
  all: try (intros m Hm3; destruct (decide (m = k')) as [->|Hne];
    [rewrite !upd_eq, fmap_app; simpl; by rewrite Hpid
    |rewrite !(upd_ne _ k') by done; apply Ho'; [done|]; by apply Hrep]).
  all: try (rewrite (sumZ_insert _ _ _ _ _ HGi); pose proof (mi_room1 _ _ _ _ _ H);
    pose proof (mi_room2 _ _ _ _ _ H); unfold R', k', upd in *; rewrite ?Hk1, ?Hk2 in *;
    repeat case_decide; subst; try done; lia).
  all: try (eapply forall_ghost_update; [|apply H|]; [lia|];
    unfold ghost_ok; simpl; destruct Hw as [? ? ? ? Hn]; constructor; simpl; try lia;
    [unfold k', LEVELS; lia|];
    intros _; unfold executed in *; simpl; destruct (Z.eq_dec (remain p) (bt p)); lia).
  all: try lia. all: done.
Qed.

Lemma work_insert s i p p' now q d :
  head s !! i = Some p ->
  work {| head := <[i := p']> (head s); current_time := now; qs := q; all_done := d |} =
  work s + (remain p' + (if ct p' =? -1 then 1 else 0)) - (remain p + (if ct p =? -1 then 1 else 0)).
Proof. intros Hi. unfold work. simpl. by rewrite (sumZ_insert _ _ _ _ _ Hi). Qed.

Definition ready (l0 : list process) (k : nat) (s : sim) : Prop :=
  exists G J R, minv l0 G J R s /\ forall j, (j < k)%nat -> J j = [].

(** Idle time so far. *)
Definition lag (s : sim) : Z := current_time s - sumZ executed (head s).

Lemma executed_nonneg l0 G J R s : minv l0 G J R s -> 0 <= sumZ executed (head s).
Proof.
  intros H. rewrite <- (mi_head _ _ _ _ _ H), sumZ_fmap. apply sumZ_nonneg.
  eapply Forall_weaken; [apply (mi_procs _ _ _ _ _ H)|].
  intros [p [k'|]] Hg; unfold ghost_ok, executed in *; simpl in *; destruct Hg; lia.
Qed.

Lemma arrival_le l0 G J R s i p :
  minv l0 G J R s -> head s !! i = Some p -> at_ p <= last_arrival l0.
Proof.
  intros H Hi. assert (static <$> l0 !! i = Some (static p)) as Hs.
  { by rewrite <- list_lookup_fmap, <- (mi_static _ _ _ _ _ H), list_lookup_fmap, Hi. }
  destruct (l0 !! i) as [p0|] eqn:H0; [|done]. injection Hs as _ <- _ _.
  apply maxZ_elem. by eapply list_elem_of_lookup_2.
Qed.

Lemma lag_insert s i p p' d q b :
  head s !! i = Some p -> executed p' = executed p + d -> 0 <= sumZ executed (head s) ->
  lag {| head := <[i := p']> (head s); current_time := Z.max (current_time s) (at_ p) + d;
         qs := q; all_done := b |} <= Z.max (at_ p) (lag s).
Proof.
  intros Hi He Hn. unfold lag. simpl. rewrite (sumZ_insert _ _ _ _ _ Hi), He. lia.
Qed.

Lemma requeue_room l0 G J R s k i p r' qu :
  minv l0 G J R s -> (k < 3)%nat -> G !! i = Some (p, Some k) ->
  waiting (current_time s) k p -> quantum !! k = Some qu -> qu < remain p -> r' <= R k ->
  upd R k r' (next_level k) < MAX - 1.
Proof.
  intros H Hk HGi Hw Hqu Hgt Hr.
  pose proof (mi_room1 _ _ _ _ _ H). pose proof (mi_room2 _ _ _ _ _ H).
  pose proof (sumZ_elem at_level0 G i _
    ltac:(apply Forall_true; intros [? [[|]|]]; unfold at_level0; simpl; lia) HGi) as He1.
  pose proof (sumZ_elem cost G i _
    ltac:(eapply Forall_weaken; [apply H|apply cost_nonneg]) HGi) as He2.
  destruct (requeue_cost _ _ _ _ Hk Hqu Hgt Hw) as [(-> & Hk0 & _)|(-> & Hk0 & _ & ? & _)];
    unfold upd; case_decide; subst; try lia.
  change (at_level0 (p, Some 0%nat)) with 1 in He1. lia.
Qed.

Lemma drain_step_run l0 G J R s k i rest :
  NoDup (pid <$> l0) -> minv l0 G J R s -> (k < 3)%nat -> J k = i :: rest ->
  (forall j, (j < k)%nat -> J j = []) ->
  exists s', drain_step k s = Done (inl s') /\
    work s' < work s /\ lag s' <= Z.max (last_arrival l0) (lag s) /\ ready l0 k s'.
Proof.
  intros Hnd H Hk HJ Hlow.
  destruct (minv_lookup _ _ _ _ _ k i H) as (p & HGi & Hh & Hpid & Hw); [rewrite HJ; set_solver|].
  pose proof (mi_rep _ _ _ _ _ H k Hk) as Hrep. rewrite HJ in Hrep.
  rewrite fmap_cons, Hpid in Hrep.
  destruct (level_rep_front _ _ _ _ Hrep) as (f & Hf & Hf1).
  destruct (dequeue_cons _ _ _ _ _ Hrep) as (q & r' & Hdq & Hq & Hr & Ho & Hm).
  rewrite (mi_msgs _ _ _ _ _ H) in Hm.
  destruct (quantum_lookup k Hk) as (qu & Hqu & Hqb).
  unfold drain_step. rewrite Hf. cbn [or_undef mbind run_bind].
  rewrite (proj2 (Z.eqb_neq f (-1))) by (intros Hx; by apply Hf1 in Hx).
  rewrite Hdq. cbn [mbind run_bind].
  rewrite (find_process_nodup (head s) i p) by
    (done || by rewrite (static_pid _ _ (mi_static _ _ _ _ _ H))).
  cbn [or_undef mbind run_bind]. rewrite Hh. cbn [or_undef mbind run_bind].
  rewrite Hqu. cbn [or_undef mbind run_bind].
  assert ((if current_time s <? at_ p then at_ p else current_time s) =
    Z.max (current_time s) (at_ p)) as -> by zb.
  pose proof (wa_remain _ _ _ Hw). pose proof (wa_ct _ _ _ Hw) as Hct.
  pose proof (mi_now _ _ _ _ _ H). pose proof (arrival_le _ _ _ _ _ _ _ H Hh) as Harr.
  pose proof (executed_nonneg _ _ _ _ _ H) as Hex.
  destruct (Z.leb_spec (remain p) qu) as [Hle|Hgt].
  - eexists. split; [done|]. split; [|split].
    + rewrite (work_insert _ _ _ _ _ _ _ Hh), Hct. simpl.
      destruct (Z.eqb_spec (Z.max (current_time s) (at_ p) + remain p) (-1)); simpl; lia.
    + etrans; [apply lag_insert; try done; unfold executed; simpl; lia|lia].
    + eexists _, _, _. split; [by eapply drain_finish|].
      intros j Hj. rewrite upd_ne by lia. by apply Hlow.
  - pose proof (rep_pop _ _ _ _ _ _ _ _ _ _ _ H HJ Hpid Hq Ho (next_level k)) as Hrep'.
    assert (next_level k < 3)%nat as Hk3
      by (unfold next_level, LEVELS; destruct k as [|[|[|]]]; simpl; lia).
    assert (upd R k r' (next_level k) < MAX - 1) as Hroom
      by (by eapply requeue_room).
    destruct (enqueue_room _ _ _ _ (pid p) (Hrep' Hk3) Hroom) as (q' & Hen & Hq' & Ho' & Hm').
    fold (next_level k). rewrite Hen. simpl.
    eexists. split; [done|]. split; [|split].
    + rewrite (work_insert _ _ _ _ _ _ _ Hh). simpl. lia.
    + etrans; [apply lag_insert; try done; unfold executed; simpl; lia|lia].
    + eexists _, _, _. split;
        [apply (drain_requeue l0 G J R s k i rest p q q' r' qu); done || congruence || lia|].
      intros j Hj. rewrite upd_ne, upd_ne; [by apply Hlow|lia|].
      unfold next_level. case_match; lia.
Qed.

Lemma work_nonneg l0 k s : ready l0 k s -> 0 <= work s.
Proof.
  intros (G & J & R & H & _). unfold work. rewrite <- (mi_head _ _ _ _ _ H), sumZ_fmap.
  apply sumZ_nonneg. eapply Forall_weaken; [apply (mi_procs _ _ _ _ _ H)|].
  intros [p [k'|]] Hg; unfold ghost_ok in Hg; simpl in *; destruct Hg; case_match; lia.
Qed.

(** Draining a level empties it and leaves the levels above it empty. *)
Lemma drain_total l0 fuel k s :
  NoDup (pid <$> l0) -> (k < 3)%nat -> ready l0 k s -> work s < Z.of_nat fuel ->
  exists s', drain fuel k s = Done s' /\ ready l0 (S k) s' /\ work s' <= work s /\
    lag s' <= Z.max (last_arrival l0) (lag s).
Proof.
  intros Hnd Hk Hs Hfuel. unfold drain.
  apply (iter_total (drain_step k)
    (fun s' => ready l0 k s' /\ work s' <= work s /\ lag s' <= Z.max (last_arrival l0) (lag s))
    (fun s' => ready l0 (S k) s' /\ work s' <= work s /\
       lag s' <= Z.max (last_arrival l0) (lag s)) work); [| |repeat split; [done|lia..]|done].
  - intros s' [Hr _]. by eapply work_nonneg.
  - intros s' ((G & J & R & H & Hlow) & Hwork & Hlag). destruct (J k) as [|i rest] eqn:HJ.
    + exists (inr s'). split.
      * pose proof (mi_rep _ _ _ _ _ H k Hk) as Hrep. rewrite HJ in Hrep.
        destruct (level_rep_front _ _ _ _ Hrep) as (f & Hf & Hf1).
        unfold drain_step. rewrite Hf. simpl. by rewrite (proj2 Hf1 eq_refl).
      * split; [|done]. exists G, J, R. split; [done|]. intros j Hj.
        destruct (decide (j = k)) as [->|]; [done|]. apply Hlow. lia.
    + destruct (drain_step_run _ _ _ _ _ _ _ _ Hnd H Hk HJ Hlow) as (s1 & -> & ? & ? & ?).
      exists (inl s1). split; [done|]. repeat split; [done|lia..].
Qed.

(** With every level empty a drain does nothing. *)
Lemma drain_idle l0 fuel k s :
  (k < 3)%nat -> ready l0 3 s -> (0 < fuel)%nat -> drain fuel k s = Done s.
Proof.
  intros Hk (G & J & R & H & Hlow) Hf. destruct fuel as [|fuel]; [lia|].
  pose proof (mi_rep _ _ _ _ _ H k Hk) as Hrep. rewrite (Hlow k Hk) in Hrep.
  destruct (level_rep_front _ _ _ _ Hrep) as (f & Hf' & Hf1).
  unfold drain. simpl. unfold drain_step. rewrite Hf'. simpl. by rewrite (proj2 Hf1 eq_refl).
Qed.

Lemma ready_ext l0 k s s' :
  ready l0 k s -> head s' = head s -> qs s' = qs s -> current_time s <= current_time s' ->
  ready l0 k s'.
Proof.
  intros (G & J & R & [] & Hlow) Hh Hq Ht. exists G, J, R. split; [|done].
  constructor; rewrite ?Hh, ?Hq; try done; [|lia].
  eapply Forall_weaken; [done|]. intros g. by apply ghost_ok_later.
Qed.

Lemma levels_loop_total l0 fuel s :
  NoDup (pid <$> l0) -> ready l0 0 s -> work s < Z.of_nat fuel ->
  exists s', levels_loop fuel LEVELS 0 s = Done s' /\ ready l0 3 s' /\
    lag s' <= Z.max (last_arrival l0) (lag s).
Proof.
  intros Hnd Hs Hf. unfold LEVELS. cbn [levels_loop].
  destruct (drain_total l0 fuel 0 s) as (s1 & -> & H1 & Hw1 & Hl1); [done|lia|done|done|].
  cbn [mbind run_bind].
  destruct (drain_total l0 fuel 1 s1) as (s2 & -> & H2 & Hw2 & Hl2); [done|lia|done|lia|].
  cbn [mbind run_bind].
  destruct (drain_total l0 fuel 2 s2) as (s3 & -> & H3 & Hw3 & Hl3); [done|lia|done|lia|].
  exists s3. repeat split; [done|lia].
Qed.

Lemma levels_loop_idle l0 fuel s :
  ready l0 3 s -> (0 < fuel)%nat -> levels_loop fuel LEVELS 0 s = Done s.
Proof.
  intros Hs Hf. unfold LEVELS. cbn [levels_loop].
  do 3 (rewrite (drain_idle l0) by (done || lia); cbn [mbind run_bind]). done.
Qed.

(** Once every level is empty the loop leaves at the next round. *)
Lemma mlfq_step_idle l0 fuel s :
  ready l0 3 s -> (0 < fuel)%nat ->
  mlfq_step fuel s = Done (inr (s <| all_done := true |>)).
Proof.
  intros Hs Hf. unfold mlfq_step. rewrite (levels_loop_idle l0); [done| |done].
  by eapply ready_ext; [exact Hs|..].
Qed.

Lemma ready_finished l0 s :
  ready l0 3 s -> Forall (finished (current_time s)) (head s) /\
    static <$> head s = static <$> l0 /\ msgs (qs s) = [].
Proof.
  intros (G & J & R & H & Hlow). split; [|by split; apply H].
  rewrite <- (mi_head _ _ _ _ _ H). apply Forall_fmap, Forall_lookup. intros i [p ok] Hi.
  pose proof (Forall_lookup_1 _ _ _ _ (mi_procs _ _ _ _ _ H) Hi) as Hg.
  destruct ok as [k|]; [|done]. exfalso.
  assert (i ∈ J k) as Hik by (apply (mi_members _ _ _ _ _ H); eauto).
  rewrite Hlow in Hik; [set_solver|]. destruct Hg as [_ _ Hlev _ _]. exact Hlev.
Qed.

(** ** The start *)

Definition fresh (p : process) : Prop := 0 <= bt p /\ remain p = bt p /\ ct p = -1.

Lemma enqueue_all_spec l q c r :
  level_rep q 0 c r -> r + Z.of_nat (length l) <= MAX - 1 -> msgs q = [] ->
  exists q', enqueue_all q l = Done q' /\
    level_rep q' 0 (c ++ (pid <$> l)) (r + Z.of_nat (length l)) /\
    same_others 0 q q' /\ msgs q' = [].
Proof.
  revert q c r. induction l as [|p l IH]; intros q c r Hq Hr Hm.
  - exists q. simpl. rewrite app_nil_r, Z.add_0_r. by unfold same_others.
  - cbn [length] in Hr. rewrite Nat2Z.inj_succ in Hr.
    destruct (enqueue_room q 0 c r (pid p)) as (q1 & He & Hq1 & Ho1 & Hm1); [done|lia|].
    destruct (IH q1 _ _ Hq1) as (q2 & Hrun & Hq2 & Ho2 & Hm2); [lia|congruence|].
    exists q2. cbn [enqueue_all]. rewrite He. cbn [mbind run_bind]. split; [done|].
    split; [|split; [by eapply same_others_trans|done]].
    rewrite fmap_cons. cbn [length].
    replace (r + Z.of_nat (S (length l))) with (r + 1 + Z.of_nat (length l)) by lia.
    by rewrite <- app_assoc in Hq2.
Qed.

Lemma pid_of_seq l : pid_of l <$> seq 0 (length l) = pid <$> l.
Proof.
  apply list_eq. intros i. rewrite !list_lookup_fmap.
  destruct (decide (i < length l)%nat) as [Hlt|Hge].
  - rewrite lookup_seq_lt by done. simpl. unfold pid_of.
    destruct (lookup_lt_is_Some_2 l i Hlt) as [p Hp]. by rewrite Hp.
  - rewrite lookup_seq_ge, lookup_ge_None_2 by lia. done.
Qed.

Lemma start_ready l q :
  Forall fresh l -> Z.of_nat (length l) <= MAX -> sumZ (fun p => slices (bt p - 6)) l <= MAX ->
  level_rep q 0 (pid <$> l) (-1 + Z.of_nat (length l)) ->
  level_rep q 1 [] (-1) -> level_rep q 2 [] (-1) -> msgs q = [] ->
  ready l 0 {| head := l; current_time := 0; qs := q; all_done := true |}.
Proof.
  intros HF Hn Hc H0 H1 H2 Hm.
  exists ((fun p => (p, Some 0%nat)) <$> l), (upd (fun _ => []) 0 (seq 0 (length l))),
    (upd (fun _ => -1) 0 (-1 + Z.of_nat (length l))).
  split; [|lia]. constructor; simpl; try done; try lia.
  - rewrite <- list_fmap_compose. by apply list_fmap_id.
  - intros k. unfold upd. case_decide; [apply NoDup_seq|constructor].
  - intros k i. rewrite list_lookup_fmap. unfold upd. case_decide as Hk.
    + subst k. rewrite elem_of_seq. destruct (l !! i) as [p|] eqn:Hi.
      * apply lookup_lt_Some in Hi. split; [eauto|lia].
      * apply lookup_ge_None in Hi. split; [lia|naive_solver].
    + destruct (l !! i); set_solver.
  - intros [|[|[|k]]] Hk; [|done|done|lia]. rewrite !upd_eq. by rewrite pid_of_seq.
  - rewrite upd_ne, sumZ_fmap by done.
    assert (sumZ (at_level0 ∘ (fun p => (p, Some 0%nat))) l = Z.of_nat (length l)) as ->; [|lia].
    clear. induction l as [|p l IH]; [done|]. rewrite sumZ_cons, IH. unfold at_level0. simpl. lia.
  - rewrite upd_ne, sumZ_fmap by done.
    rewrite (sumZ_ext _ (fun p => slices (bt p - 6))); [lia|].
    eapply Forall_weaken; [exact HF|]. intros p (? & Hr & ?). unfold cost. simpl. by rewrite Hr.
  - apply Forall_fmap. eapply Forall_weaken; [exact HF|]. intros p (? & ? & ?).
    unfold ghost_ok. simpl. constructor; unfold LEVELS; lia.
Qed.

Lemma mlfq_fmap_static_fields (l l0 : list process) :
  static <$> l = static <$> l0 -> last_arrival l = last_arrival l0 /\ sumZ bt l = sumZ bt l0.
Proof.
  revert l0. induction l as [|p l IH]; intros [|q l0] H; simplify_eq/=; [done|].
  edestruct IH as [IH1 IH2]; [done|]. unfold last_arrival, static in *.
  simplify_eq. rewrite !maxZ_cons, !sumZ_cons. split; congruence.
Qed.

Lemma finished_horizon l0 s :
  ready l0 3 s -> lag s <= last_arrival l0 -> current_time s <= last_arrival l0 + sumZ bt l0.
Proof.
  intros Hr Hl. destruct (ready_finished _ _ Hr) as (Hf & Hst & _). unfold lag in Hl.
  rewrite (sumZ_ext executed bt) in Hl.
  - rewrite (proj2 (mlfq_fmap_static_fields _ _ Hst)) in Hl. lia.
  - eapply Forall_weaken; [exact Hf|]. intros p []. unfold executed. lia.
Qed.

Lemma mlfq_total l fuel :
  NoDup (pid <$> l) -> Forall fresh l -> Z.of_nat (length l) <= MAX ->
  sumZ (fun p => slices (bt p - 6)) l <= MAX ->
  sumZ bt l + Z.of_nat (length l) + 1 < Z.of_nat fuel ->
  exists s, mlfq fuel l 0 = Done s /\ static <$> head s = static <$> l /\
    msgs (qs s) = [] /\ Forall (finished (last_arrival l + sumZ bt l)) (head s).
Proof.
  intros Hnd HF Hn Hc Hfuel.
  assert (0 <= sumZ bt l) by (apply sumZ_nonneg; eapply Forall_weaken; [exact HF|]; by intros ? []).
  destruct (enqueue_all_spec l empty_queues [] (-1)) as (q & Hq & H0 & Ho & Hm);
    [apply empty_level_rep; unfold LEVELS; lia|unfold MAX in *; lia|done|].
  simpl in H0.
  pose proof (start_ready l q HF Hn Hc H0 (Ho 1%nat [] (-1) ltac:(done)
    (empty_level_rep 1 ltac:(unfold LEVELS; lia))) (Ho 2%nat [] (-1) ltac:(done)
    (empty_level_rep 2 ltac:(unfold LEVELS; lia))) Hm) as Hr.
  unfold mlfq. rewrite Hq. cbn [mbind run_bind].
  set (s0 := {| head := l; current_time := 0; qs := q; all_done := true |}) in *.
  assert (work s0 = sumZ bt l + Z.of_nat (length l)) as Hwork.
  { unfold work. simpl. clear -HF. induction HF as [|p l (? & Hrem & Hct) HF IH]; [done|].
    rewrite !sumZ_cons, IH, Hrem, Hct. simpl. lia. }
  destruct (levels_loop_total l fuel s0) as (s1 & Hs1 & Hr1 & Hl1); [done|done|lia|].
  assert (lag s0 <= last_arrival l) as Hl0.
  { destruct Hr as (G & J & R & HI & _).
    pose proof (executed_nonneg _ _ _ _ _ HI). pose proof (maxZ_ge_default at_ 0 l).
    unfold lag, last_arrival. simpl in *. lia. }
  pose proof (finished_horizon l s1 Hr1 ltac:(lia)) as Hh.
  destruct (ready_finished _ _ Hr1) as (Hf1 & Hst1 & Hm1).
  assert (Forall (finished (last_arrival l + sumZ bt l)) (head s1)) as Hfin.
  { eapply Forall_weaken; [exact Hf1|]. intros p. by apply finished_later. }
  assert (mlfq_step fuel s0 = if all_done s1 then Done (inr s1)
    else Done (inl (s1 <| current_time ::= Z.succ |>))) as Hstep
    by (unfold mlfq_step; assert (s0 <| all_done := true |> = s0) as -> by done; by rewrite Hs1).
  assert (exists f1, fuel = S (S f1)) as [f1 Hfe] by (exists (fuel - 2)%nat; lia).
  remember (mlfq_step fuel) as body eqn:Hbody. rewrite Hfe. cbn [iter]. rewrite Hstep.
  destruct (all_done s1); [by exists s1|]. cbn [mbind run_bind].
  rewrite Hbody, (mlfq_step_idle l); [|by eapply ready_ext; [exact Hr1|done|done|simpl; lia]|lia].
  cbn [mbind run_bind]. eexists. split; [done|]. done.
Qed.

(** ** The bubble sort *)

(** The null-terminated list at [ptr] holds the processes [l] in the nodes [A]. *)
Fixpoint list_rep (h : heap) (ptr : option nat) (l : list process) (A : list nat) : Prop :=
  match l, A with
  | [], [] => ptr = None
  | p :: l, a :: A => ptr = Some a /\ exists link, h !! a = Some (p, link) /\ list_rep h link l A
  | _, _ => False
  end.

(** Arrival times do not decrease along the list. *)
Fixpoint ascending (l : list process) : Prop :=
  match l with
  | p :: ((q :: _) as l') => at_ p <= at_ q /\ ascending l'
  | _ => True
  end.

#[global] Instance ascending_dec l : Decision (ascending l).
Proof.
  induction l as [|p [|q l] IH]; [left; done|left; done|].
  change (Decision (at_ p <= at_ q /\ ascending (q :: l))). apply _.
Defined.

Lemma list_rep_alloc l a :
  list_rep (alloc_list a l) (match l with [] => None | _ => Some a end) l (seq a (length l)).
Proof.
  revert a. induction l as [|p l IH]; intros a; [done|]. simpl. split; [done|].
  eexists. rewrite lookup_insert_eq. split; [done|].
  enough (forall h ptr l' A, Forall (fun b => b <> a) A -> list_rep h ptr l' A ->
    list_rep (<[a := (p, match l with [] => None | _ :: _ => Some (S a) end)]> h) ptr l' A) as Hframe.
  { apply Hframe; [|apply IH]. apply list.Forall_forall. intros b Hb%elem_of_seq. lia. }
  clear IH. intros h ptr l' A. revert ptr l'. induction A as [|b A IHA]; intros ptr [|p' l'] HA; try done.
  apply Forall_cons_1 in HA as [Hb HA]. intros (-> & link & Hl & Hrest). split; [done|].
  exists link. rewrite lookup_insert_ne by done. auto.
Qed.

Lemma deref_spec (h : heap) a n : h !! a = Some n -> deref h (Some a) = Done (a, n).
Proof. intros H. unfold deref. cbn [or_undef mbind run_bind]. by rewrite H. Qed.

Lemma read_list_spec h ptr l A fuel :
  list_rep h ptr l A -> (length l <= fuel)%nat -> read_list fuel h ptr = Done l.
Proof.
  revert ptr A fuel. induction l as [|p l IH]; intros ptr [|a A] fuel Hl Hf; try done.
  - simpl in Hl. subst. by destruct fuel.
  - destruct Hl as (-> & link & Ha & Hl). destruct fuel as [|fuel]; simpl in Hf; [lia|].
    cbn [read_list]. rewrite (deref_spec _ _ _ Ha). cbn [mbind run_bind snd fst].
    rewrite (IH _ _ fuel Hl); [done|lia].
Qed.

(** Neighbours in order: the pass moves on. *)
Lemma pass_step_advance h a b p q lk sw :
  h !! a = Some (p, Some b) -> h !! b = Some (q, lk) -> at_ p <= at_ q ->
  pass_step None {| hp := h; ptr1 := Some a; swapped := sw |} =
  Done (inl {| hp := h; ptr1 := Some b; swapped := sw |}).
Proof.
  intros Ha Hb Hle. unfold pass_step. cbn [hp ptr1]. rewrite (deref_spec _ _ _ Ha).
  cbn [mbind run_bind snd fst]. rewrite decide_False, (deref_spec _ _ _ Hb) by done.
  cbn [mbind run_bind snd fst]. rewrite (proj2 (Z.ltb_ge _ _) Hle).
  cbn [mbind run_bind hp ptr1]. by rewrite (deref_spec _ _ _ Ha).
Qed.

(** One pass over an ordered list changes nothing. *)
Lemma pass_ascending h ptr l A p sw fuel :
  list_rep h ptr (p :: l) A -> ascending (p :: l) -> (length l < fuel)%nat ->
  exists last, iter fuel (pass_step None) {| hp := h; ptr1 := ptr; swapped := sw |} =
    Done {| hp := h; ptr1 := last; swapped := sw |}.
Proof.
  revert ptr A p fuel. induction l as [|q l IH]; intros ptr A p fuel Hl Ho Hf;
    (destruct fuel as [|fuel]; [simpl in Hf; lia|]);
    (destruct A as [|a A]; [done|]); destruct Hl as (-> & link & Ha & Hl).
  - destruct A; [|done]. simpl in Hl. subst link. exists (Some a).
    cbn [iter]. unfold pass_step. cbn [hp ptr1]. by rewrite (deref_spec _ _ _ Ha).
  - destruct A as [|b A]; [done|]. pose proof Hl as Hl'.
    destruct Hl as (-> & link' & Hb & Hl). destruct Ho as [Hpq Ho].
    cbn [iter]. rewrite (pass_step_advance _ _ _ _ _ _ _ Ha Hb Hpq). cbn [mbind run_bind].
    apply (IH (Some b) (b :: A) q); [done|done|simpl in Hf; lia].
Qed.

(** The state the swap of the source leaves behind: a node linked to itself. *)
Definition trapped (s : sorting) : Prop :=
  exists c pc, hp s !! c = Some (pc, Some c) /\
    (ptr1 s = Some c \/
     exists b pb, ptr1 s = Some b /\ hp s !! b = Some (pb, Some c) /\ at_ pb <= at_ pc).

Definition unsorted_from (s : sorting) : Prop :=
  exists l A, list_rep (hp s) (ptr1 s) l A /\ NoDup A /\ ~ ascending l.

Lemma swap_traps h a b p q link l A :
  h !! a = Some (p, Some b) -> h !! b = Some (q, link) -> list_rep h link l A ->
  NoDup (a :: b :: A) -> at_ q < at_ p ->
  match swap_nodes h (Some a) with
  | Done h' => trapped {| hp := h'; ptr1 := Some b; swapped := true |} /\
      h' !! a = Some (q, Some b)
  | Undef _ => l = []
  | OutOfFuel => False
  end.
Proof.
  intros Ha Hb Hl Hnd Hlt. apply list.NoDup_cons in Hnd as [Hna Hnd].
  apply list.NoDup_cons in Hnd as [Hnb _].
  assert (a <> b) as Hab by set_solver.
  unfold swap_nodes. rewrite (deref_spec _ _ _ Ha). cbn [mbind run_bind snd fst].
  rewrite (deref_spec _ _ _ Hb). cbn [mbind run_bind snd fst].
  destruct l as [|r l], A as [|c A]; try done; [by rewrite Hl|].
  destruct Hl as (-> & link' & Hc & _).
  assert (a <> c) as Hac by set_solver. assert (b <> c) as Hbc by set_solver.
  rewrite (deref_spec _ c (r, link')) by (by simplify_map_eq). cbn [mbind run_bind snd fst].
  rewrite (deref_spec _ a (q, Some c)) by (by simplify_map_eq). cbn [mbind run_bind snd fst].
  rewrite (deref_spec _ c (p, Some b)) by (by simplify_map_eq). cbn [mbind run_bind snd fst].
  rewrite (deref_spec _ a (q, Some c)) by (by simplify_map_eq). cbn [mbind run_bind snd fst].
  split; [|by simplify_map_eq].
  exists c, p. cbn [hp ptr1]. split; [by simplify_map_eq|].
  right. exists b, q. split; [done|]. split; [by simplify_map_eq|lia].
Qed.

Lemma pass_step_unsorted s r :
  unsorted_from s \/ trapped s -> pass_step None s = Done r ->
  match r with inl s' => unsorted_from s' \/ trapped s' | inr _ => False end.
Proof.
  intros [(l & A & Hl & Hnd & Hno)|(c & pc & Hc & Hptr)] Hst.
  - destruct l as [|p [|q l]]; [by destruct Hno|by destruct Hno|].
    destruct A as [|a [|b A]]; [done|by destruct Hl as (_ & ? & _ & ?)|].
    destruct s as [h ptr sw]. simpl in Hl.
    destruct Hl as (-> & lk & Ha & -> & link & Hb & Hl).
    destruct (Z.ltb_spec (at_ q) (at_ p)) as [Hlt|Hle].
    + unfold pass_step in Hst. cbn [hp ptr1] in Hst. rewrite (deref_spec _ _ _ Ha) in Hst.
      cbn [mbind run_bind snd fst] in Hst.
      rewrite decide_False, (deref_spec _ _ _ Hb) in Hst by done.
      cbn [mbind run_bind snd fst] in Hst. rewrite (proj2 (Z.ltb_lt _ _) Hlt) in Hst.
      pose proof (swap_traps h a b p q link l A Ha Hb Hl Hnd Hlt) as Hsw.
      destruct (swap_nodes h (Some a)) as [h'| |]; [|done|done].
      destruct Hsw as [Htr Ha']. cbn [mbind run_bind hp ptr1] in Hst.
      rewrite (deref_spec _ _ _ Ha') in Hst. simplify_eq/=. by right.
    + rewrite (pass_step_advance _ _ _ _ _ _ _ Ha Hb Hle) in Hst. simplify_eq. left.
      exists (q :: l), (b :: A). apply list.NoDup_cons in Hnd as [_ Hnd].
      split; [simpl; eauto|]. split; [done|]. intros Hasc. by apply Hno.
  - destruct s as [h ptr sw]. cbn [hp ptr1] in *.
    destruct Hptr as [->|(b & pb & -> & Hb & Hle)].
    + rewrite (pass_step_advance _ _ _ _ _ _ _ Hc Hc) in Hst by lia. simplify_eq.
      right. exists c, pc. auto.
    + rewrite (pass_step_advance _ _ _ _ _ _ _ Hb Hc Hle) in Hst. simplify_eq.
      right. exists c, pc. auto.
Qed.

Lemma bubble_sort_ascending h head p l A fuel :
  list_rep h head (p :: l) A -> ascending (p :: l) -> (length l < fuel)%nat ->
  bubble_sort fuel h head = Done h.
Proof.
  intros Hl Ho Hf. destruct fuel as [|fuel]; [lia|].
  destruct (pass_ascending h head l A p false (S fuel) Hl Ho Hf) as [last Hpass].
  unfold bubble_sort. remember (sort_step (S fuel) head) as body eqn:Hbody. cbn [iter].
  rewrite Hbody. unfold sort_step. cbn [fst snd]. rewrite Hpass. done.
Qed.

Lemma bubble_sort_unsorted h head l A fuel h' :
  list_rep h head l A -> NoDup A -> ~ ascending l -> bubble_sort fuel h head <> Done h'.
Proof.
  intros Hl Hnd Hno Hs. unfold bubble_sort in Hs.
  remember (sort_step fuel head) as body eqn:Hbody. destruct fuel as [|n]; [done|].
  cbn [iter] in Hs. rewrite Hbody in Hs. unfold sort_step in Hs. cbn [fst snd] in Hs.
  apply run_bind_inv in Hs as (r & Hr & _). apply run_bind_inv in Hr as (s & Hs & _).
  apply (iter_partial (pass_step None) (fun s => unsorted_from s \/ trapped s)
    (fun _ => False)) in Hs; [done| |].
  - intros s1 [s2|s2] HI Hst; by apply (pass_step_unsorted _ _ HI) in Hst.
  - left. by exists l, A.
Qed.

Lemma bubble_sort_keeps h head p l A fuel h' :
  list_rep h head (p :: l) A -> ascending (p :: l) ->
  bubble_sort fuel h head = Done h' -> h' = h.
Proof.
  intros Hl Ho Hs. unfold bubble_sort in Hs.
  remember (sort_step fuel head) as body eqn:Hbody. destruct fuel as [|n]; [done|].
  cbn [iter] in Hs. rewrite Hbody in Hs. unfold sort_step in Hs. cbn [fst snd] in Hs.
  apply run_bind_inv in Hs as (r & Hr & Hs). apply run_bind_inv in Hr as (s & Hpass & Hr).
  apply (iter_partial (pass_step None)
    (fun s => hp s = h /\ swapped s = false /\
       exists p l A, list_rep h (ptr1 s) (p :: l) A /\ ascending (p :: l))
    (fun s => hp s = h /\ swapped s = false)) in Hpass.
  - destruct Hpass as [Hh Hsw]. rewrite Hsw in Hr. by simplify_eq/=.
  - intros [h1 ptr sw] r1 (Hh & Hsw & p1 & [|q l1] & [|a A1] & Hl1 & Ho1) Hst;
      simpl in Hh, Hsw; subst h1 sw; try done; destruct Hl1 as (Hp & lk & Ha & Hl1);
      simpl in Hp; subst ptr.
    + destruct A1; [|done]. simpl in Hl1. subst lk. unfold pass_step in Hst.
      cbn [hp ptr1] in Hst. rewrite (deref_spec _ _ _ Ha) in Hst. by simplify_eq/=.
    + destruct A1 as [|b A1]; [done|]. pose proof Hl1 as Hl2.
      destruct Hl1 as (-> & lk' & Hb & Hl1). destruct Ho1 as [Hle Ho1].
      rewrite (pass_step_advance _ _ _ _ _ _ _ Ha Hb Hle) in Hst. simplify_eq.
      repeat split. by exists q, l1, (b :: A1).
  - repeat split. by exists p, l, A.
Qed.

(** The bubble sort never sorts: on a null-terminated list of distinct
    nodes it returns, for some amount of fuel, exactly when the list is not
    empty and already ordered by arrival time, and then the heap is unchanged.
    On an empty list it dereferences a null pointer; on any other unordered
    list the node swap of the source either dereferences a null pointer or
    leaves a node linked to itself, on which the pass loops for ever. *)
Theorem bubble_sort_returns_iff_sorted (h : heap) (head : option nat) (l : list process)
    (A : list nat) :
  list_rep h head l A -> NoDup A ->
  ((exists fuel h', bubble_sort fuel h head = Done h') <-> l <> [] /\ ascending l) /\
  (forall fuel h', bubble_sort fuel h head = Done h' -> h' = h).
Proof.
  intros Hl Hnd.
  assert (forall fuel h', bubble_sort fuel h head = Done h' -> l <> [] /\ ascending l) as Hret.
  { intros fuel h' Hs. split.
    - intros ->. destruct A; [|done]. simpl in Hl. subst head.
      destruct fuel as [|[|fuel]]; done.
    - destruct (decide (ascending l)) as [|Hno]; [done|].
      exfalso. by eapply bubble_sort_unsorted. }
  split; [split|].
  - intros (fuel & h' & Hs). eauto.
  - intros [Hne Ho]. destruct l as [|p l]; [done|].
    exists (S (length l)), h. eapply bubble_sort_ascending; [done|done|lia].
  - intros fuel h' Hs. destruct (Hret fuel h' Hs) as [Hne Ho].
    destruct l as [|p l]; [done|].
    by eapply bubble_sort_keeps.
Qed.

(** Three processes in arrival order, as [create_process] allocates them. *)
Definition three : list process :=
  [ mkProcess 1 0 5 0 (-1) (-1) (-1) (-1) 5; mkProcess 2 1 12 0 (-1) (-1) (-1) (-1) 12;
    mkProcess 3 4 1 0 (-1) (-1) (-1) (-1) 1 ].

Lemma bubble_sort_returns_iff_sorted_witness :
  ((exists fuel h', bubble_sort fuel (alloc_list 0 three) (Some 0%nat) = Done h') <->
    three <> [] /\ ascending three) /\
  (forall fuel h', bubble_sort fuel (alloc_list 0 three) (Some 0%nat) = Done h' ->
    h' = alloc_list 0 three).
Proof.
  apply (bubble_sort_returns_iff_sorted (alloc_list 0 three) (Some 0%nat) three [0; 1; 2]%nat).
  - exact (list_rep_alloc three 0).
  - vm_compute. repeat constructor; intros H; repeat (inversion H; subst; clear H; rename H2 into H).
Defined.

(** ** The program on its input *)

Record spec := Spec { s_pid : Z; s_at : Z; s_bt : Z }.

Definition spec_input (d : spec) : list Z := [s_pid d; s_at d; s_bt d].

Definition new_process (d : spec) : process :=
  {| pid := s_pid d; at_ := s_at d; bt := s_bt d; pr := 0; ct := -1; tat := -1;
     wt := -1; rt := -1; remain := s_bt d |}.

Lemma mlfq_create_process_spec head d rest :
  create_process head (spec_input d ++ rest) = Done (head ++ [new_process d], rest).
Proof.
  unfold create_process, spec_input. cbn [app scan_int mbind run_bind].
  by rewrite append_link_app.
Qed.

(** The process list when the scheduler starts. *)
Abbreviation initial := (assigned (fun v p => p <| pr := v |>) new_process).

Record row_ok (processors horizon i : Z) (d : spec) (p : process) : Prop := {
  row_pid : pid p = s_pid d;
  row_at : at_ p = s_at d;
  row_bt : bt p = s_bt d;
  row_pr : pr p = Z.rem i processors;
  row_done : finished horizon p
}.

Lemma mlfq_main_unfold fuel processors ds s :
  processors <> 0 -> ds <> [] -> ascending (new_process <$> ds) ->
  Z.of_nat (length ds) < Z.of_nat fuel ->
  mlfq fuel (initial processors ds) 0 = Done s ->
  main fuel (processors :: Z.of_nat (length ds) :: (ds ≫= spec_input)) = Done (head s).
Proof.
  intros Hproc Hne Hasc Hfuel Hs.
  unfold main. cbn [scan_int mbind run_bind]. rewrite Nat2Z.id.
  rewrite (create_processes_spec create_process spec_input new_process mlfq_create_process_spec).
  cbn [mbind run_bind].
  pose proof (list_rep_alloc (new_process <$> ds) 0) as Hrep. 
  fold (head_of (new_process <$> ds)) in Hrep.
  destruct ds as [|d ds']; [done|].
  rewrite fmap_cons in Hrep, Hasc |- *.
  rewrite (bubble_sort_ascending _ _ _ _ _ _ Hrep Hasc) by
    (rewrite length_fmap; simpl in Hfuel; lia).
  cbn [mbind run_bind].
  rewrite (read_list_spec _ _ _ _ fuel Hrep) by (simpl; rewrite length_fmap; simpl in Hfuel; lia).
  cbn [mbind run_bind]. unfold assign_processors.
  rewrite <- fmap_cons, assign_loop_assigned by done.
  cbn [mbind run_bind]. by rewrite Hs.
Qed.



(** Queue overflow loses processes.  Two processes with a burst of 420
    each, both present from the start, push the rear index of the lowest level
    to the end of its array although only one process waits there: the enqueue
    is refused and process 1 never completes, the simulator terminates and
    prints the initial -1 in every result column of its row. *)
Theorem mlfq_overflow_drops_process :
  match main 1200 [1; 2; 1; 0; 420; 2; 0; 420] with
  | Done table => print_linkedlist table =
      [[1; 0; 420; 0; -1; -1; -1; -1]; [2; 0; 420; 0; 826; 826; 406; 406]]
  | _ => False
  end.
Proof. vm_compute. reflexivity. Qed.
