(* ===== verification/MlfqImproved.v ===== *)
(** * Improved multi-level feedback queue simulator

    Model of [src/schedulling_algorithms/sched_algo_mlfqs_improved.c]: a
    round-robin phase with quantum 2 followed by a phase with a quantum
    computed from the remaining bursts.  Both phases keep a queue in an array
    of 100 cells.  While the queue is empty its front and rear indices are -1
    and the duplicate test of [enqueue] reads the cell with index -1; what
    such a read yields is the parameter [below]: [None] is the C semantics
    (undefined), [Some v] an execution in which the memory word below the
    array holds [v]. *)
From stdpp Require Import base tactics list numbers sorting.
From S2P Require Import Prelude SchedCommon.

Open Scope Z_scope.

Definition MAX : Z := 100.

(** ** Data *)

Record process := mkProcess {
  pid : Z;
  at_ : Z;
  bt : Z;
  pr : Z;
  ct : Z;
  tat : Z;
  wt : Z;
  rt : Z;
  remain : Z
}.

#[global] Instance process_settable : Settable process := fun p =>
  mkProcess (pid p) (at_ p) (bt p) (pr p) (ct p) (tat p) (wt p) (rt p) (remain p).

Definition create_process (head : list process) (input : list Z) :
    run (list process * list Z) :=
  '(v1, input) ← scan_int input;
  '(v2, input) ← scan_int input;
  '(v3, input) ← scan_int input;
  let new_process :=
    {| pid := v1; at_ := v2; bt := v3; pr := -1; ct := -1; tat := -1; wt := -1;
       rt := -1; remain := v3 |} in
  Done (append_link head new_process, input).

(** ** The queue *)

Record queue := mkQueue { cells : list Z; front : Z; rear : Z }.

#[global] Instance queue_settable : Settable queue := fun q =>
  mkQueue (cells q) (front q) (rear q).

(** [queue[i]] *)
Definition read_cell (below : option Z) (q : queue) (i : Z) : run Z :=
  if i =? -1 then or_undef OutOfBounds below
  else if (0 <=? i) && (i <? MAX) then or_undef OutOfBounds (cells q !! Z.to_nat i)
  else Undef OutOfBounds.

(** The duplicate test: [for (int i = *front; i <= *rear; i++)], [n] cells
    from index [i]. *)
Fixpoint in_queue_loop (below : option Z) (q : queue) (n : nat) (i pid_ : Z) : run bool :=
  match n with
  | O => Done false
  | S n =>
      v ← read_cell below q i;
      if v =? pid_ then Done true else in_queue_loop below q n (i + 1) pid_
  end.

Definition is_in_queue (below : option Z) (q : queue) (pid_ : Z) : run bool :=
  in_queue_loop below q (Z.to_nat (rear q - front q + 1)) (front q) pid_.

(** The insertion at the rear. *)
Definition push (q : queue) (pid_ : Z) : run queue :=
  let q := if rear q =? -1 then q <| front := 0 |> <| rear := 0 |>
           else q <| rear := rear q + 1 |> in
  if (0 <=? rear q) && (rear q <? MAX)
  then Done (q <| cells ::= <[Z.to_nat (rear q) := pid_]> |>) else Undef OutOfBounds.

(** Insertion unless already present. *)
Definition push_new (below : option Z) (q : queue) (pid_ : Z) : run queue :=
  b ← is_in_queue below q pid_;
  if b : bool then Done q else push q pid_.

(** The first loop of [enqueue]: every arrived process with burst left. *)
Fixpoint enqueue_loop (below : option Z) (temp : list process) (now : Z) (q : queue) : run queue :=
  match temp with
  | [] => Done q
  | p :: link =>
      q ← (if (at_ p <=? now) && (0 <? remain p) then push_new below q (pid p) else Done q);
      enqueue_loop below link now q
  end.

Definition enqueue (below : option Z) (head : list process) (now : Z) (q : queue) (pid_ : Z) :
    run queue :=
  q ← enqueue_loop below head now q;
  if pid_ =? -1 then Done q else push_new below q pid_.

Definition dequeue (below : option Z) (q : queue) : run (Z * queue) :=
  if front q =? -1 then Done (-1, q)
  else
    pid_ ← read_cell below q (front q);
    Done (pid_, if front q =? rear q then q <| front := -1 |> <| rear := -1 |>
                else q <| front := front q + 1 |>).

Definition find_process (head : list process) (pid_ : Z) : option nat :=
  find_loop pid head 0 pid_.

(** ** The quantum of the second phase *)

(** The body of the inner loop of the sort: [sorted[k]] and [sorted[k + 1]]. *)
Definition compare_swap (k : nat) (sorted : list process) : run (list process) :=
  x ← or_undef OutOfBounds (sorted !! k);
  y ← or_undef OutOfBounds (sorted !! S k);
  if remain y <? remain x then Done (<[S k := x]> (<[k := y]> sorted)) else Done sorted.

(** [for (int k = 0; k < count - j - 1; k++)], [n] iterations from [k]. *)
Fixpoint inner_loop (n k : nat) (sorted : list process) : run (list process) :=
  match n with
  | O => Done sorted
  | S n => sorted ← compare_swap k sorted; inner_loop n (S k) sorted
  end.

(** [for (int j = 0; j < count - 1; j++)], [n] iterations from [j]. *)
Fixpoint outer_loop (n j count : nat) (sorted : list process) : run (list process) :=
  match n with
  | O => Done sorted
  | S n => sorted ← inner_loop (count - j - 1) 0 sorted; outer_loop n (S j) count sorted
  end.

Definition dynamic_time_quantum (head : list process) (time_quantum : Z) : run Z :=
  let active := filter (fun p => 0 < remain p) head in
  let count := length active in
  if decide (0 < count)%nat then
    sorted ← outer_loop (count - 1) 0 count active;
    let position := (2 * Z.of_nat count) / 3 in
    let position := if Z.of_nat count <=? position then Z.of_nat count - 1 else position in
    p ← or_undef OutOfBounds (sorted !! Z.to_nat position);
    Done (remain p)
  else Done time_quantum.

Fixpoint all_processes_completed (temp : list process) : bool :=
  match temp with
  | [] => true
  | p :: link => if 0 <? remain p then false else all_processes_completed link
  end.

(** ** The two phases *)

Record sim := mkSim { head : list process; current_time : Z; que : queue }.

#[global] Instance sim_settable : Settable sim := fun s =>
  mkSim (head s) (current_time s) (que s).

Definition finish (now : Z) (p : process) : process :=
  let p := p <| remain := 0 |> <| ct := now |> in
  let p := p <| tat := ct p - at_ p |> in
  let p := p <| wt := tat p - bt p |> in
  p <| rt := now - at_ p - bt p |>.

(** One iteration of [while (!all_processes_completed(head))], the loop
    [rr] and [sjf] share up to the quantum. *)
Definition phase_step (below : option Z) (time_quantum : Z) (s : sim) : run (sim + sim) :=
  if all_processes_completed (head s) then Done (inr s)
  else
    '(pid_, q) ← dequeue below (que s);
    if pid_ =? -1 then
      let now := current_time s + 1 in
      q ← enqueue below (head s) now q (-1);
      Done (inl {| head := head s; current_time := now; que := q |})
    else
      ptr ← or_undef NullDeref (find_process (head s) pid_);
      p ← or_undef NullDeref (head s !! ptr);
      if remain p <=? time_quantum then
        let now := current_time s + remain p in
        Done (inl {| head := <[ptr := finish now p]> (head s); current_time := now; que := q |})
      else
        let now := current_time s + time_quantum in
        let head := <[ptr := p <| remain := remain p - time_quantum |>]> (head s) in
        q ← enqueue below head now q (pid p);
        Done (inl {| head := head; current_time := now; que := q |}).

Definition empty_queue : queue := {| cells := replicate 100 0; front := -1; rear := -1 |}.

Definition time_quantum_rr : Z := 2.

Definition rr (fuel : nat) (below : option Z) (head : list process) (now : Z) : run sim :=
  q ← enqueue below head now empty_queue (-1);
  iter fuel (phase_step below time_quantum_rr) {| head := head; current_time := now; que := q |}.

Definition sjf (fuel : nat) (below : option Z) (head : list process) (now time_quantum_sjf : Z) :
    run sim :=
  q ← enqueue below head now empty_queue (-1);
  time_quantum_sjf ← dynamic_time_quantum head time_quantum_sjf;
  iter fuel (phase_step below time_quantum_sjf) {| head := head; current_time := now; que := q |}.

Definition assign_processors (processors : Z) (head : list process) : run (list process) :=
  assign_loop (fun v p => p <| pr := v |>) processors 0 head.

Definition print_linkedlist (head : list process) : list (list Z) :=
  (fun p => [pid p; at_ p; bt p; pr p; ct p; tat p; wt p; rt p]) <$> head.

Definition main (fuel : nat) (below : option Z) (input : list Z) : run (list process) :=
  '(processors, input) ← scan_int input;
  '(processes, input) ← scan_int input;
  '(l, input) ← create_processes create_process (Z.to_nat processes) [] input;
  l ← assign_processors processors l;
  s ← rr fuel below l 0;
  s ← sjf fuel below (head s) (current_time s) 0;
  Done (head s).

(** Executed with a harmless word below the array. *)
Example improved_main_run :
  match main 60 (Some (-7)) [2; 3; 1; 0; 5; 2; 1; 4; 3; 4; 1] with
  | Done l => Some (print_linkedlist l) | _ => None end
  = Some [[1; 0; 5; 0; 7; 7; 2; 2]; [2; 1; 4; 1; 10; 9; 5; 5]; [3; 4; 1; 0; 8; 4; 3; 3]].
Proof. vm_compute. reflexivity. Qed.


(** ** The duplicate test reads below the array *)

Definition waiting (now : Z) (p : process) : Prop := at_ p <= now /\ 0 < remain p.

#[global] Instance waiting_dec now p : Decision (waiting now p).
Proof. unfold waiting. apply _. Defined.

Lemma enqueue_idle below l now q :
  Forall (fun p => ~ waiting now p) l -> enqueue_loop below l now q = Done q.
Proof.
  induction 1 as [|p l Hp _ IH]; [done|]. cbn [enqueue_loop].
  replace ((at_ p <=? now) && (0 <? remain p)) with false; [exact IH|].
  unfold waiting in Hp. zb.
Qed.

Lemma enqueue_empty_undefined l now :
  Exists (waiting now) l -> enqueue_loop None l now empty_queue = Undef OutOfBounds.
Proof.
  induction l as [|p l IH]; intros Hex; [by apply Exists_nil in Hex|].
  cbn [enqueue_loop]. destruct (decide (waiting now p)) as [[Ha Hr]|Hn].
  - replace ((at_ p <=? now) && (0 <? remain p)) with true by zb. reflexivity.
  - apply Exists_cons in Hex as [?|Hex]; [done|].
    replace ((at_ p <=? now) && (0 <? remain p)) with false; [by apply IH|].
    unfold waiting in Hn. zb.
Qed.

Lemma all_processes_completed_spec l :
  all_processes_completed l = true <-> Forall (fun p => remain p <= 0) l.
Proof.
  induction l as [|p l IH]; [done|]. cbn [all_processes_completed].
  rewrite Forall_cons, <- IH. destruct (Z.ltb_spec 0 (remain p)); naive_solver lia.
Qed.

Lemma all_processes_completed_false l :
  Exists (fun p => 0 < remain p) l -> all_processes_completed l = false.
Proof.
  intros (p & Hp & Hr)%list.Exists_exists.
  destruct (all_processes_completed l) eqn:E; [|done].
  apply all_processes_completed_spec in E. rewrite list.Forall_forall in E.
  specialize (E _ Hp). lia.
Qed.

Lemma enqueue_empty_cases l now :
  enqueue None l now empty_queue (-1) = Undef OutOfBounds \/
  enqueue None l now empty_queue (-1) = Done empty_queue /\ Forall (fun p => ~ waiting now p) l.
Proof.
  unfold enqueue. destruct (decide (Exists (waiting now) l)) as [Hex|Hn].
  - left. by rewrite enqueue_empty_undefined.
  - right. assert (HF : Forall (fun p => ~ waiting now p) l).
    { rewrite list.Forall_forall. intros p Hp Hw. apply Hn, list.Exists_exists. eauto. }
    by rewrite enqueue_idle.
Qed.

Lemma idle_step below quantum l now :
  all_processes_completed l = false ->
  phase_step below quantum {| head := l; current_time := now; que := empty_queue |} =
  (q ← enqueue below l (now + 1) empty_queue (-1);
   Done (inl {| head := l; current_time := now + 1; que := q |})).
Proof. intros Hc. unfold phase_step. cbn [head]. by rewrite Hc. Qed.

Lemma idle_phase_undefined fuel l now quantum p :
  p ∈ l -> 0 < remain p -> at_ p - now < Z.of_nat fuel ->
  Forall (fun p => ~ waiting now p) l ->
  iter fuel (phase_step None quantum) {| head := l; current_time := now; que := empty_queue |} =
  Undef OutOfBounds.
Proof.
  intros Hp Hr. revert now. induction fuel as [|n IH]; intros now Hf HF.
  - rewrite list.Forall_forall in HF. destruct (HF _ Hp). split; lia.
  - assert (Hc : all_processes_completed l = false).
    { apply all_processes_completed_false, list.Exists_exists. eauto. }
    cbn [iter]. rewrite idle_step by done.
    destruct (enqueue_empty_cases l (now + 1)) as [->|[-> HF']]; [done|].
    apply IH; [lia|done].
Qed.

(** In the semantics of C the first process to become ready is undefined
    behaviour: as soon as some process has a positive burst, the round-robin
    phase reads [queue[-1]], the cell below the array, and never returns.
    The first [enqueue] to find a ready process does so, at the latest at the
    arrival time of that process. *)
Theorem improved_reads_below_queue (fuel : nat) (l : list process) (now : Z) (p : process) :
  p ∈ l -> 0 < remain p -> at_ p - now < Z.of_nat fuel ->
  rr fuel None l now = Undef OutOfBounds.
Proof.
  intros Hp Hr Hf. unfold rr.
  destruct (enqueue_empty_cases l now) as [->|[-> HF]]; [done|].
  cbn [mbind run_bind]. by eapply idle_phase_undefined.
Qed.

Lemma improved_reads_below_queue_witness :
  rr 10 None [mkProcess 1 3 5 0 (-1) (-1) (-1) (-1) 5] 0 = Undef OutOfBounds.
Proof.
  apply (improved_reads_below_queue 10 _ 0 (mkProcess 1 3 5 0 (-1) (-1) (-1) (-1) 5)).
  - apply list_elem_of_singleton. reflexivity.
  - reflexivity.
  - reflexivity.
Defined.

(** ** The second phase has nothing to do *)

Lemma phase_completes fuel below quantum s s' :
  iter fuel (phase_step below quantum) s = Done s' -> all_processes_completed (head s') = true.
Proof.
  apply (iter_partial _ (fun _ => True) (fun s => all_processes_completed (head s) = true));
    [|done].
  intros s1 r _. unfold phase_step. destruct (all_processes_completed (head s1)) eqn:Hc.
  - intros H. by simplify_eq.
  - intros H. run_inv. do 3 (repeat case_match; run_inv; try done).
Qed.

Lemma completed_not_waiting l now :
  all_processes_completed l = true -> Forall (fun p => ~ waiting now p) l.
Proof.
  rewrite all_processes_completed_spec. intros H. eapply Forall_weaken; [exact H|].
  unfold waiting. simpl. lia.
Qed.

Lemma sjf_completed fuel below l now q :
  all_processes_completed l = true ->
  sjf (S fuel) below l now q = Done {| head := l; current_time := now; que := empty_queue |}.
Proof.
  intros Hc. unfold sjf, enqueue. rewrite enqueue_idle by by apply completed_not_waiting.
  cbn [mbind run_bind]. change (-1 =? -1) with true. cbn match.
  unfold dynamic_time_quantum. rewrite filter_none.
  - cbn [length mbind run_bind]. destruct (decide (0 < 0)%nat); [lia|].
    cbn [iter mbind run_bind]. unfold phase_step. cbn [head]. by rewrite Hc.
  - rewrite all_processes_completed_spec in Hc. eapply Forall_weaken; [exact Hc|]. simpl. lia.
Qed.

(** The round-robin phase returns only when every process is complete, so
    the second phase, announced as shortest job first, never runs a process:
    it leaves the table and the clock as they are, and the program computes
    what its round-robin phase computes. *)
Theorem improved_sjf_phase_is_noop (fuel : nat) (below : option Z) (l : list process)
    (now quantum : Z) (s : sim) :
  rr (S fuel) below l now = Done s ->
  sjf (S fuel) below (head s) (current_time s) quantum =
  Done {| head := head s; current_time := current_time s; que := empty_queue |}.
Proof.
  unfold rr. intros H. apply run_bind_inv in H as (q & _ & H).
  apply phase_completes in H. by apply sjf_completed.
Qed.

Lemma improved_sjf_phase_is_noop_witness :
  exists s, rr 60 (Some (-7)) [mkProcess 1 0 5 0 (-1) (-1) (-1) (-1) 5] 0 = Done s /\
    sjf 60 (Some (-7)) (head s) (current_time s) 0 =
    Done {| head := head s; current_time := current_time s; que := empty_queue |}.
Proof.
  eexists. split; [vm_compute; reflexivity|].
  eapply (improved_sjf_phase_is_noop 59 (Some (-7)) [mkProcess 1 0 5 0 (-1) (-1) (-1) (-1) 5] 0 0).
  vm_compute. reflexivity.
Defined.

(** ** The dynamic quantum is an order statistic *)

(** One pass of the sort as a function: the larger of two neighbours moves
    right. *)
Fixpoint pass (x : process) (l : list process) : list process :=
  match l with
  | [] => [x]
  | y :: l => if remain y <? remain x then y :: pass x l else x :: pass y l
  end.

Notation shorter := (fun p q : process => remain p <= remain q).

Lemma pass_perm x l : pass x l ≡ₚ x :: l.
Proof.
  revert x. induction l as [|y l IH]; intros x; [done|]. cbn [pass]. case_match.
  - rewrite IH. apply Permutation_swap.
  - by rewrite IH.
Qed.

Lemma pass_last x l : exists init m, pass x l = init ++ [m] /\ Forall (fun p => shorter p m) (x :: l).
Proof.
  revert x. induction l as [|y l IH]; intros x; [by exists [], x; repeat constructor|].
  cbn [pass]. destruct (Z.ltb_spec (remain y) (remain x)) as [Hlt|Hge].
  - destruct (IH x) as (init & m & -> & HF). exists (y :: init), m. split; [done|].
    apply Forall_cons in HF as [Hx HF]. repeat constructor; [lia..|done].
  - destruct (IH y) as (init & m & -> & HF). exists (x :: init), m. split; [done|].
    apply Forall_cons in HF as [Hy HF]. repeat constructor; [lia..|done].
Qed.

Lemma compare_swap_app pre x y l :
  compare_swap (length pre) (pre ++ x :: y :: l) =
  Done (pre ++ if remain y <? remain x then y :: x :: l else x :: y :: l).
Proof.
  unfold compare_swap.
  rewrite (lookup_app_r pre _ (length pre)), Nat.sub_diag by lia.
  cbn [lookup list_lookup or_undef mbind run_bind].
  rewrite lookup_app_r by lia. replace (S (length pre) - length pre)%nat with 1%nat by lia.
  cbn [lookup list_lookup or_undef mbind run_bind]. case_match; [|done].
  rewrite insert_app_r_alt by lia. rewrite insert_app_r_alt by lia.
  replace (length pre - length pre)%nat with 0%nat by lia.
  by replace (S (length pre) - length pre)%nat with 1%nat by lia.
Qed.

Lemma inner_loop_pass pre x l suf :
  inner_loop (length l) (length pre) (pre ++ x :: l ++ suf) = Done (pre ++ pass x l ++ suf).
Proof.
  revert pre x. induction l as [|y l IH]; intros pre x; [done|].
  cbn [length inner_loop app]. rewrite compare_swap_app. cbn [mbind run_bind pass].
  case_match.
  - specialize (IH (pre ++ [y]) x). rewrite length_app in IH. cbn [length] in IH.
    rewrite Nat.add_1_r, <- !app_assoc in IH. exact IH.
  - specialize (IH (pre ++ [x]) y). rewrite length_app in IH. cbn [length] in IH.
    rewrite Nat.add_1_r, <- !app_assoc in IH. exact IH.
Qed.

Lemma outer_loop_sorts n count A B :
  length A = S n -> (S n + length B)%nat = count ->
  StronglySorted shorter B -> Forall (fun p => Forall (shorter p) B) A ->
  exists s, outer_loop n (length B) count (A ++ B) = Done s /\
    s ≡ₚ A ++ B /\ StronglySorted shorter s.
Proof.
  revert A B. induction n as [|n IH]; intros A B HA Hc HB HAB.
  - destruct A as [|x [|? ?]]; try done. exists ([x] ++ B). repeat split; [done|].
    apply Forall_cons in HAB as [HxB _]. by constructor.
  - destruct A as [|x l]; [done|]. cbn [length] in HA. cbn [outer_loop].
    replace (count - length B - 1)%nat with (length l) by lia.
    pose proof (inner_loop_pass [] x l B) as Hin. cbn [length app] in *. rewrite Hin.
    cbn [mbind run_bind]. destruct (pass_last x l) as (init & m & Hpass & Hm).
    pose proof (pass_perm x l) as Hperm. rewrite Hpass in *.
    assert (Hlen : length (init ++ [m]) = length (x :: l)) by by rewrite Hperm.
    rewrite length_app in Hlen. cbn [length] in Hlen.
    rewrite <- app_assoc. cbn [app].
    destruct (IH init (m :: B)) as (s & Hs & Hsp & Hss).
    + lia.
    + cbn [length]. lia.
    + constructor; [done|]. rewrite <- Hperm in HAB. apply Forall_app in HAB as [_ HAB].
      by apply Forall_cons in HAB as [? _].
    + rewrite <- Hperm in HAB, Hm. apply Forall_app in HAB as [HAB _].
      apply Forall_app in Hm as [Hm _]. rewrite list.Forall_forall in HAB, Hm.
      rewrite list.Forall_forall. intros p Hp. constructor; eauto.
    + exists s. cbn [length] in Hs. split; [exact Hs|]. split; [|done].
      rewrite Hsp. change (x :: l ++ B) with ((x :: l) ++ B). rewrite <- Hperm.
      by rewrite <- app_assoc.
Qed.

Lemma sorted_take_le s k p i q :
  StronglySorted shorter s -> s !! k = Some p -> s !! i = Some q ->
  ((i <= k)%nat -> remain q <= remain p) /\ ((k <= i)%nat -> remain p <= remain q).
Proof.
  intros Hs. revert k i. induction Hs as [|x s Hs IH HF]; intros k i Hk Hi; [done|].
  rewrite list.Forall_forall in HF.
  destruct k as [|k], i as [|i]; simplify_eq/=.
  - lia.
  - split; intros; [lia|]. apply HF. by eapply list_elem_of_lookup_2.
  - split; intros; [|lia]. apply HF. by eapply list_elem_of_lookup_2.
  - destruct (IH k i Hk Hi). split; intros; eauto with lia.
Qed.

Lemma filter_length_ge {A} (P : A -> Prop) `{!forall x, Decision (P x)} (l1 l2 : list A) :
  Forall P l1 -> (length l1 <= length (filter P (l1 ++ l2)))%nat /\
                 (length l1 <= length (filter P (l2 ++ l1)))%nat.
Proof. intros HF. rewrite !filter_app, !length_app, (filter_all P l1) by done. lia. Qed.

Lemma sorted_rank s k p :
  StronglySorted shorter s -> s !! k = Some p ->
  (S k <= length (filter (fun q => shorter q p) s))%nat /\
  (length s - k <= length (filter (fun q => shorter p q) s))%nat.
Proof.
  intros Hs Hk. assert (Hlt : (k < length s)%nat) by by eapply lookup_lt_Some.
  split.
  - rewrite <- (take_drop (S k) s) at 1.
    destruct (filter_length_ge (fun q => shorter q p) (take (S k) s) (drop (S k) s)) as [H _].
    + apply Forall_lookup. intros i q Hi. apply lookup_take_Some in Hi as [Hi Hik].
      eapply sorted_take_le; eauto with lia.
    + rewrite length_take in H. lia.
  - rewrite <- (take_drop k s) at 2.
    destruct (filter_length_ge (fun q => shorter p q) (drop k s) (take k s)) as [_ H].
    + apply Forall_lookup. intros i q Hi. rewrite lookup_drop in Hi.
      eapply sorted_take_le; eauto with lia.
    + rewrite length_drop in H. lia.
Qed.

(** The quantum of the second phase.  With no unfinished process the
    quantum is left alone; otherwise it is the remaining burst of an
    unfinished process with rank floor(2n/3) (from 0) in ascending order among the n
    unfinished ones: more than that many do not exceed it and at least the
    others do not fall below it.  The sort stays within its array and the
    clamping of the index never applies. *)
Theorem dynamic_time_quantum_rank (l : list process) (quantum : Z) :
  let active := filter (fun p => 0 < remain p) l in
  let n := length active in
  let position := (2 * n / 3)%nat in
  (active = [] /\ dynamic_time_quantum l quantum = Done quantum) \/
  (exists p, p ∈ active /\ dynamic_time_quantum l quantum = Done (remain p) /\
     (position < n)%nat /\
     (S position <= length (filter (fun q => shorter q p) active))%nat /\
     (n - position <= length (filter (fun q => shorter p q) active))%nat).
Proof.
  intros active n position. unfold dynamic_time_quantum. fold active. fold n.
  destruct (decide (0 < n)%nat) as [Hn|Hn].
  - right. destruct (outer_loop_sorts (n - 1) n active []) as (s & Hs & Hsp & Hss).
    + subst n. lia.
    + cbn [length]. lia.
    + constructor.
    + apply Forall_true. intros. constructor.
    + rewrite app_nil_r in Hs, Hsp. cbn [length] in Hs. rewrite Hs. cbn [mbind run_bind].
      assert (Hpos : (position < n)%nat) by (apply Nat.Div0.div_lt_upper_bound; lia).
      assert (Hz : 2 * Z.of_nat n / 3 = Z.of_nat position).
      { subst position. rewrite Nat2Z.inj_div. f_equal. lia. }
      rewrite Hz. destruct (Z.leb_spec (Z.of_nat n) (Z.of_nat position)); [lia|].
      rewrite Nat2Z.id. assert (Hl : length s = n) by by rewrite Hsp.
      destruct (lookup_lt_is_Some_2 s position) as [p Hp]; [lia|]. rewrite Hp.
      destruct (sorted_rank s position p Hss Hp) as [H1 H2].
      exists p. repeat split; try done.
      * rewrite <- Hsp. by eapply list_elem_of_lookup_2.
      * by rewrite <- Hsp.
      * rewrite <- Hsp. lia.
  - left. split; [|done]. apply length_zero_iff_nil. subst n. lia.
Qed.
