(* ===== verification/Annealing.v ===== *)
(** * Simulated annealing scheduler

    Model of [src/schedulling_algorithms/sched_algo_sa.c].  The program
    assigns processes to processors and searches for an assignment with a
    short makespan.  [rand()] is a stream of values, [exp] of the C library is
    a parameter, and the temperature is an IEEE double of the Standard
    Library's reference semantics of floating point ([SpecFloat]). *)
From Stdlib Require Import SpecFloat.
From stdpp Require Import base tactics list numbers.
From S2P Require Import Prelude SchedCommon.

Open Scope Z_scope.

(** ** Data *)

Record process := mkProcess {
  pid : Z;
  at_ : Z;
  bt : Z;
  pr : Z;
  ct : Z;
  tat : Z;
  wt : Z;
  rt : Z
}.

#[global] Instance process_settable : Settable process := fun p =>
  mkProcess (pid p) (at_ p) (bt p) (pr p) (ct p) (tat p) (wt p) (rt p).

Definition create_process (head : list process) (input : list Z) :
    run (list process * list Z) :=
  '(v1, input) ← scan_int input;
  '(v2, input) ← scan_int input;
  '(v3, input) ← scan_int input;
  let new_process :=
    {| pid := v1; at_ := v2; bt := v3; pr := -1; ct := -1; tat := -1; wt := -1; rt := -1 |} in
  Done (append_link head new_process, input).

(** An access [a[i]] and an assignment [a[i] = v]. *)
Definition get {A} (a : list A) (i : Z) : run A :=
  if 0 <=? i then or_undef OutOfBounds (a !! Z.to_nat i) else Undef OutOfBounds.

Definition set {A} (a : list A) (i : Z) (v : A) : run (list A) :=
  _ ← get a i; Done (<[Z.to_nat i := v]> a).

(** An array of variable length: the length must be positive. *)
Definition vla {A} (n : Z) (v : A) : run (list A) :=
  if 0 <? n then Done (replicate (Z.to_nat n) v) else Undef OutOfBounds.

(** ** The schedule of an assignment *)

(** The assignments to one process of the loop of [calculate_metrics]. *)
Definition schedule_process (processor start_time : Z) (p : process) : process :=
  let p := p <| ct := start_time + bt p |> in
  let p := p <| tat := ct p - at_ p |> in
  let p := p <| wt := tat p - bt p |> in
  let p := p <| rt := start_time - at_ p |> in
  p <| pr := processor |>.

(** [for (int i = 0; i < processes; i++)]: the cells [proc_array[i]] and
    [assignments[i]] from the current [i] on. *)
Fixpoint metrics_loop (proc_array : list process) (assignments : list Z) (load : list Z) :
    run (list process * list Z) :=
  match proc_array, assignments with
  | [], _ => Done ([], load)
  | _ :: _, [] => Undef OutOfBounds
  | p :: proc_array, processor :: assignments =>
      l ← get load processor;
      let arrival_time := at_ p in
      let start_time := if arrival_time <? l then l else arrival_time in
      let p := schedule_process processor start_time p in
      load ← set load processor (ct p);
      '(proc_array, load) ← metrics_loop proc_array assignments load;
      Done (p :: proc_array, load)
  end.

(** [for (int i = 1; i < processors; i++)] *)
Fixpoint interval_loop (load : list Z) (interval : Z) : Z :=
  match load with
  | [] => interval
  | l :: load => interval_loop load (if interval <? l then l else interval)
  end.

Definition calculate_metrics (processors : Z) (proc_array : list process) (assignments : list Z) :
    run (list process * Z) :=
  load ← vla processors 0;
  '(proc_array, load) ← metrics_loop proc_array assignments load;
  interval ← get load 0;
  Done (proc_array, interval_loop (drop 1 load) interval).

(** ** Neighbours *)

Definition rand_mod (rand : nat -> Z) (n : nat) (processes : Z) : run Z :=
  if processes =? 0 then Undef DivByZero else Done (Z.rem (rand n) processes).

(** [while (process1 == process2)]; the state is [process2] and the number of
    calls of [rand()] so far. *)
Definition redraw_step (rand : nat -> Z) (processes process1 : Z) (s : Z * nat) :
    run ((Z * nat) + (Z * nat)) :=
  let '(process2, n) := s in
  if process1 =? process2 then
    process2 ← rand_mod rand n processes;
    Done (inl (process2, S n))
  else Done (inr (process2, n)).

Definition generate_neighbor (fuel : nat) (rand : nat -> Z) (n : nat) (processes : Z)
    (assignments : list Z) : run (list Z * nat) :=
  process1 ← rand_mod rand n processes;
  process2 ← rand_mod rand (S n) processes;
  '(process2, n) ← iter fuel (redraw_step rand processes process1) (process2, S (S n));
  temp ← get assignments process1;
  other ← get assignments process2;
  assignments ← set assignments process1 other;
  assignments ← set assignments process2 temp;
  Done (assignments, n).

(** ** Temperature

    Doubles: precision 53, largest exponent 1024.  The constants are the
    doubles nearest to 1000.0, 0.1 and 0.99. *)

Definition prec : Z := 53.
Definition emax : Z := 1024.

Definition INITIAL_TEMPERATURE : spec_float := S754_finite false 8796093022208000 (-43).
Definition FINAL_TEMPERATURE : spec_float := S754_finite false 7205759403792794 (-56).
Definition COOLING_RATE : spec_float := S754_finite false 8917127262193582 (-53).
Definition RAND_MAX : Z := 2147483647.

Definition double_of_int (x : Z) : spec_float := binary_normalize prec emax x 0 false.

Definition cool (temperature : spec_float) : spec_float :=
  SFmul prec emax temperature COOLING_RATE.

Definition hot (temperature : spec_float) : bool := SFltb FINAL_TEMPERATURE temperature.

(** [exp((current_interval - new_interval) / temperature) > (double)rand() / RAND_MAX] *)
Definition accepts (exp : spec_float -> spec_float) (difference : Z) (temperature : spec_float)
    (rand_value : Z) : bool :=
  SFltb (SFdiv prec emax (double_of_int rand_value) (double_of_int RAND_MAX))
    (exp (SFdiv prec emax (double_of_int difference) temperature)).

(** ** The search *)

Record search := mkSearch {
  temperature : spec_float;
  proc_array : list process;
  current_assignments : list Z;
  best_assignments : list Z;
  best_interval : Z;
  nrand : nat
}.

#[global] Instance search_settable : Settable search := fun s =>
  mkSearch (temperature s) (proc_array s) (current_assignments s) (best_assignments s)
    (best_interval s) (nrand s).

(** One iteration of [while (temperature > FINAL_TEMPERATURE)]. *)
Definition anneal_step (fuel : nat) (rand : nat -> Z) (exp : spec_float -> spec_float)
    (processors processes : Z) (s : search) : run (search + search) :=
  if negb (hot (temperature s)) then Done (inr s)
  else
    '(new_assignments, n) ←
      generate_neighbor fuel rand (nrand s) processes (current_assignments s);
    '(procs, current_interval) ←
      calculate_metrics processors (proc_array s) (current_assignments s);
    '(procs, new_interval) ← calculate_metrics processors procs new_assignments;
    let improves := new_interval <? current_interval in
    let accepted := improves ||
      accepts exp (current_interval - new_interval) (temperature s) (rand n) in
    let n := if improves then n else S n in
    let '(current, current_interval) :=
      if accepted then (new_assignments, new_interval)
      else (current_assignments s, current_interval) in
    let '(best, best_interval) :=
      if current_interval <? best_interval s then (current, current_interval)
      else (best_assignments s, best_interval s) in
    Done (inl {| temperature := cool (temperature s); proc_array := procs;
                 current_assignments := current; best_assignments := best;
                 best_interval := best_interval; nrand := n |}).

(** The initial assignment: [current_assignments[i] = i % processors]. *)
Definition initial_assignments (processors processes : Z) : run (list Z) :=
  if processors =? 0 then Undef DivByZero
  else Done ((fun i => Z.rem i processors) <$> seqZ 0 processes).

Definition copy_back (temp p : process) : process :=
  temp <| pr := pr p |> <| ct := ct p |> <| tat := tat p |> <| wt := wt p |> <| rt := rt p |>.

(** Returns the list and the interval that is printed. *)
Definition simulated_annealing (fuel : nat) (rand : nat -> Z) (exp : spec_float -> spec_float)
    (processors : Z) (head : list process) : run (list process * Z) :=
  let processes := Z.of_nat (length head) in
  _ ← vla processes 0;
  current ← initial_assignments processors processes;
  '(procs, interval) ← calculate_metrics processors head current;
  s ← iter fuel (anneal_step fuel rand exp processors processes)
        {| temperature := INITIAL_TEMPERATURE; proc_array := procs;
           current_assignments := current; best_assignments := current;
           best_interval := interval; nrand := 0 |};
  '(procs, _) ← calculate_metrics processors (proc_array s) (best_assignments s);
  Done (zip_with copy_back head procs, best_interval s).

Definition print_linkedlist (head : list process) : list (list Z) :=
  (fun p => [pid p; at_ p; bt p; pr p; ct p; tat p; wt p; rt p]) <$> head.

Definition main (fuel : nat) (rand : nat -> Z) (exp : spec_float -> spec_float)
    (input : list Z) : run (list process * Z) :=
  '(processors, input) ← scan_int input;
  '(processes, input) ← scan_int input;
  '(head, input) ← create_processes create_process (Z.to_nat processes) [] input;
  simulated_annealing fuel rand exp processors head.

(** The doubles are the ones the constants denote, up to half a unit in the
    last place. *)
Example constants_nearest :
  INITIAL_TEMPERATURE = double_of_int 1000 /\
  SFdiv prec emax (double_of_int 1) (double_of_int 10) = FINAL_TEMPERATURE /\
  SFdiv prec emax (double_of_int 99) (double_of_int 100) = COOLING_RATE.
Proof. vm_compute. repeat split. Qed.

(** Two processors and four processes: the search pairs the long burst with
    the short one. *)
Example annealing_run :
  match main 930 (fun n => Z.of_nat n * 7 + Z.of_nat n / 3) (fun _ => S754_zero false)
          [2; 4; 1; 0; 9; 2; 0; 1; 3; 0; 8; 4; 0; 2] with
  | Done r => print_linkedlist (fst r) | _ => [] end
  = [[1; 0; 9; 1; 9; 9; 0; 0]; [2; 0; 1; 1; 10; 10; 9; 9];
     [3; 0; 8; 0; 8; 8; 0; 0]; [4; 0; 2; 0; 10; 10; 8; 8]].
Proof. vm_compute. reflexivity. Qed.

(** ** What a schedule promises *)

Definition start_time (p : process) : Z := ct p - bt p.

(** The input part of a process, which the search never changes. *)
Definition static (p : process) : Z * Z * Z := (pid p, at_ p, bt p).

(** The derived columns of a process that runs without interruption. *)
Definition columns_ok (p : process) : Prop :=
  at_ p <= start_time p /\ tat p = ct p - at_ p /\ wt p = start_time p - at_ p /\ rt p = wt p.

(** The processes of each processor run one after the other, in list order. *)
Definition no_overlap (l : list process) : Prop :=
  forall i j p q, (i < j)%nat -> l !! i = Some p -> l !! j = Some q -> pr p = pr q ->
  ct p <= start_time q.

(** A processor idles only while the next process has not arrived. *)
Definition work_conserving (l : list process) : Prop :=
  forall j q, l !! j = Some q ->
  start_time q = at_ q \/
  exists i p, (i < j)%nat /\ l !! i = Some p /\ pr p = pr q /\ ct p = start_time q.

(** ** Arrays *)

Lemma get_spec {A} (a : list A) i : 0 <= i ->  get a i = or_undef OutOfBounds (a !! Z.to_nat i).
Proof. intros. unfold get. by rewrite (proj2 (Z.leb_le _ _)). Qed.

Lemma get_Some {A} (a : list A) i :
  0 <= i < Z.of_nat (length a) -> exists x, a !! Z.to_nat i = Some x /\ get a i = Done x.
Proof.
  intros Hi. destruct (lookup_lt_is_Some_2 a (Z.to_nat i)) as [x Hx]; [lia|].
  exists x. split; [done|]. rewrite get_spec by lia. by rewrite Hx.
Qed.

Lemma set_Some {A} (a : list A) i v :
  0 <= i < Z.of_nat (length a) -> set a i v = Done (<[Z.to_nat i := v]> a).
Proof. intros Hi. unfold set. by destruct (get_Some a i Hi) as (x & _ & ->). Qed.

Lemma interval_loop_max load d : interval_loop load d = maxZ id d load.
Proof.
  revert d. induction load as [|l load IH]; intros d; [done|].
  cbn [interval_loop]. rewrite IH, maxZ_cons. unfold id at 2.
  assert (Hswap : forall ls a, maxZ id (Z.max a d) ls = Z.max a (maxZ id d ls)).
  { induction ls as [|b ls IHl]; intros a; [done|]. rewrite !maxZ_cons, IHl. lia. }
  rewrite <- Hswap. f_equal. zb.
Qed.

Lemma maxZ_head load l : 0 <= l -> maxZ id l load = maxZ id 0 (l :: load).
Proof.
  intros Hl. rewrite maxZ_cons. induction load as [|x load IH]; [unfold id; simpl|].
  - unfold maxZ. simpl. unfold id. lia.
  - rewrite !maxZ_cons, IH. lia.
Qed.

(** ** The loop that builds the schedule *)

(** What the loop guarantees from loads [load] on. *)
Record scheduled (ps : list process) (asg load : list Z) (ps' : list process) (load' : list Z) :
    Prop := mkScheduled {
  sch_length : length load' = length load;
  sch_static : static <$> ps' = static <$> ps;
  sch_pr : pr <$> ps' = asg;
  sch_columns : Forall columns_ok ps';
  sch_after : forall p l, p ∈ ps' -> load !! Z.to_nat (pr p) = Some l -> l <= start_time p;
  sch_order : no_overlap ps';
  sch_work : forall j q, ps' !! j = Some q ->
    start_time q = at_ q \/ load !! Z.to_nat (pr q) = Some (start_time q) \/
    exists i p, (i < j)%nat /\ ps' !! i = Some p /\ pr p = pr q /\ ct p = start_time q;
  sch_max : maxZ id 0 load' = maxZ ct (maxZ id 0 load) ps';
  sch_nonneg : Forall (fun l => 0 <= l) load -> Forall (fun l => 0 <= l) load'
}.

Lemma maxZ_default {A} (f : A -> Z) a b l : maxZ f (Z.max a b) l = Z.max a (maxZ f b l).
Proof. induction l as [|x l IH]; [done|]. rewrite !maxZ_cons, IH. lia. Qed.

Lemma scheduled_cons p ps a asg load l ps' load' :
  let s := if at_ p <? l then l else at_ p in
  let q := schedule_process a s p in
  0 <= a -> 0 <= bt p -> Forall (fun a => 0 <= a) asg ->
  load !! Z.to_nat a = Some l ->
  scheduled ps asg (<[Z.to_nat a := ct q]> load) ps' load' ->
  scheduled (p :: ps) (a :: asg) load (q :: ps') load'.
Proof.
  intros s q Ha Hbt Hasg Hl [H1 H2 H3 H4 H5 H6 H7 H8 H9].
  assert (Hs : at_ p <= s /\ l <= s /\ (s = at_ p \/ s = l)) by (subst s; zb).
  assert (Hq : start_time q = s /\ ct q = s + bt p /\ pr q = a /\ at_ q = at_ p /\
    static q = static p /\ columns_ok q).
  { unfold columns_ok, start_time, q, schedule_process. simpl. repeat split; lia. }
  destruct Hq as (Hq1 & Hq2 & Hq3 & Hq4 & Hq5 & Hq6). clearbody q s.
  assert (Hlt : (Z.to_nat a < length load)%nat) by by eapply lookup_lt_Some.
  assert (Hprs : forall p', p' ∈ ps' -> 0 <= pr p').
  { intros p' Hp'. rewrite <- H3, list.Forall_fmap, list.Forall_forall in Hasg. by apply Hasg. }
  split.
  - by rewrite H1, length_insert.
  - by rewrite !fmap_cons, H2, Hq5.
  - rewrite fmap_cons, H3, Hq3. done.
  - by constructor.
  - intros p' l' Hp' Hl'. apply elem_of_cons in Hp' as [->|Hp'].
    + rewrite Hq3 in Hl'. rewrite Hq1. simplify_eq. lia.
    + destruct (decide (pr p' = a)) as [Heq|Hne].
      * rewrite Heq, Hl in Hl'. injection Hl' as <-.
        assert (ct q <= start_time p').
        { apply H5; [done|]. rewrite Heq. apply list_lookup_insert_eq. lia. }
        lia.
      * apply H5; [done|]. rewrite list_lookup_insert_ne; [done|].
        specialize (Hprs _ Hp'). lia.
  - intros i j p1 p2 Hij Hi Hj Hpr. destruct j as [|j]; [lia|].
    destruct i as [|i]; simplify_eq/=.
    + apply H5; [by eapply list_elem_of_lookup_2|]. rewrite <- Hpr.
      apply list_lookup_insert_eq. lia.
    + apply (H6 i j); [lia|done..].
  - intros [|j] p' Hj; cbn [lookup list_lookup] in Hj.
    + injection Hj as <-. rewrite Hq1, Hq3, Hq4. destruct Hs as (_ & _ & [->| ->]); auto.
    + destruct (H7 j p' Hj) as [?|[Hload|(i & p1 & Hi & Hp1 & ? & ?)]].
      * by left.
      * destruct (decide (pr p' = a)) as [Heq|Hne].
        -- right. right. exists 0%nat, q. rewrite Heq, list_lookup_insert_eq in Hload by lia.
           injection Hload as Hload. repeat split; [lia|congruence..].
        -- right. left. rewrite list_lookup_insert_ne in Hload; [done|].
           assert (0 <= pr p') by (eapply Hprs, list_elem_of_lookup_2; done). lia.
      * right. right. exists (S i), p1. repeat split; [lia|done..].
  - rewrite H8, maxZ_cons, (maxZ_insert _ _ _ _ l) by (unfold id; lia || done).
    unfold id at 1. by rewrite maxZ_default.
  - intros HF. apply H9, Forall_insert; [done|].
    pose proof (Forall_lookup_1 _ _ _ _ HF Hl) as Hl0. simpl in Hl0. lia.
Qed.

Lemma metrics_loop_spec ps asg load :
  length asg = length ps -> Forall (fun p => 0 <= bt p) ps ->
  Forall (fun a => 0 <= a < Z.of_nat (length load)) asg ->
  exists ps' load', metrics_loop ps asg load = Done (ps', load') /\
    scheduled ps asg load ps' load'.
Proof.
  intros Hlen Hps Hasg. revert asg load Hlen Hasg.
  induction Hps as [|p ps Hp Hps IH]; intros asg load Hlen Hasg.
  - destruct asg; [|done]. exists [], load. split; [done|].
    split; try done. intros p l Hp. by apply elem_of_nil in Hp.
  - destruct asg as [|a asg]; [done|]. apply list.Forall_cons in Hasg as [Ha Hasg].
    cbn [metrics_loop]. destruct (get_Some load a Ha) as (l & Hl & ->).
    cbn [mbind run_bind]. rewrite set_Some by done. cbn [mbind run_bind].
    set (q := schedule_process _ _ _). simpl in Hlen.
    destruct (IH asg (<[Z.to_nat a := ct q]> load)) as (ps' & load' & -> & Hsch).
    { lia. }
    { by rewrite length_insert. }
    exists (q :: ps'), load'. split; [done|].
    apply (scheduled_cons p ps a asg load l); try done; [lia|].
    eapply Forall_weaken; [exact Hasg|]. simpl. lia.
Qed.

(** ** The schedule of an assignment *)

(** What [calculate_metrics] guarantees of the table [ps'] and the interval
    it computes for the assignment [asg]. *)
Definition good_schedule (ps : list process) (asg : list Z) (ps' : list process) (interval : Z) :
    Prop :=
  static <$> ps' = static <$> ps /\ pr <$> ps' = asg /\ Forall columns_ok ps' /\
  no_overlap ps' /\ work_conserving ps' /\ interval = maxZ ct 0 ps'.

Lemma maxZ_replicate_0 n : maxZ id 0 (replicate n 0) = 0.
Proof. induction n as [|n IH]; [done|]. cbn [replicate]. rewrite maxZ_cons, IH. done. Qed.

Lemma calculate_metrics_spec processors ps asg :
  0 < processors -> length asg = length ps ->
  Forall (fun p => 0 <= bt p) ps -> Forall (fun p => 0 <= at_ p) ps ->
  Forall (fun a => 0 <= a < processors) asg ->
  exists ps' interval, calculate_metrics processors ps asg = Done (ps', interval) /\
    good_schedule ps asg ps' interval.
Proof.
  intros Hn Hlen Hbt Hat Hasg. unfold calculate_metrics, vla.
  rewrite (proj2 (Z.ltb_lt _ _) Hn). cbn [mbind run_bind].
  destruct (metrics_loop_spec ps asg (replicate (Z.to_nat processors) 0)) as (ps' & load' & -> & H).
  { done. } { done. }
  { eapply Forall_weaken; [exact Hasg|]. simpl. rewrite length_replicate. lia. }
  cbn [mbind run_bind]. destruct H as [H1 H2 H3 H4 H5 H6 H7 H8 H9].
  rewrite length_replicate in H1. rewrite maxZ_replicate_0 in H8.
  destruct load' as [|l load']; [simpl in H1; lia|].
  cbn [get Z.leb Z.compare Z.to_nat lookup list_lookup or_undef mbind run_bind].
  eexists _, _. split; [done|]. repeat split; try done.
  - intros j q Hj. destruct (H7 j q Hj) as [?|[Hl|?]]; [by left| |by right].
    left. apply lookup_replicate in Hl as [Hs _].
    assert (Hc : columns_ok q) by exact (Forall_lookup_1 _ _ _ _ H4 Hj).
    assert (0 <= at_ q); [|unfold columns_ok in Hc; lia].
    assert (Hq : Forall (fun t : Z * Z * Z => 0 <= t.1.2) (static <$> ps')).
    { rewrite H2. rewrite list.Forall_fmap. exact Hat. }
    rewrite list.Forall_fmap in Hq. exact (Forall_lookup_1 _ _ _ _ Hq Hj).
  - cbn [drop]. rewrite interval_loop_max, <- H8. apply maxZ_head.
    assert (HF : Forall (fun l => 0 <= l) (l :: load')) by (apply H9, Forall_replicate; lia).
    by apply list.Forall_cons in HF as [? _].
Qed.

(** The table computed depends on the input part of the processes only. *)
Lemma schedule_process_static a s p q :
  static p = static q -> schedule_process a s p = schedule_process a s q.
Proof. destruct p, q. unfold static, schedule_process. simpl. naive_solver. Qed.

Lemma metrics_loop_static ps qs asg load :
  static <$> ps = static <$> qs -> metrics_loop ps asg load = metrics_loop qs asg load.
Proof.
  revert qs asg load. induction ps as [|p ps IH]; intros [|q qs] asg load H; try done.
  rewrite !fmap_cons in H. injection H as Hp1 Hp2 Hp3 H.
  destruct asg as [|a asg]; [done|]. cbn [metrics_loop].
  destruct (get load a) as [l| |]; [|done..]. cbn [mbind run_bind]. rewrite Hp2.
  rewrite (schedule_process_static a _ p q) by (unfold static; congruence).
  destruct (set load a _); [|done..]. cbn [mbind run_bind]. by rewrite (IH qs).
Qed.

Lemma calculate_metrics_static processors ps qs asg :
  static <$> ps = static <$> qs ->
  calculate_metrics processors ps asg = calculate_metrics processors qs asg.
Proof.
  intros H. unfold calculate_metrics. destruct (vla processors 0); [|done..].
  cbn [mbind run_bind]. by rewrite (metrics_loop_static ps qs).
Qed.

(** ** Neighbours *)

(** A stream of random values from which every value modulo [processes] is
    left within [fuel] draws. *)
Definition fair (rand : nat -> Z) (processes : Z) (fuel : nat) : Prop :=
  forall n r, exists k, (k + 2 <= fuel)%nat /\ Z.rem (rand (n + k)%nat) processes <> r.

Lemma rand_mod_Done rand n processes :
  0 < processes -> rand_mod rand n processes = Done (Z.rem (rand n) processes).
Proof. intros. unfold rand_mod. by rewrite (proj2 (Z.eqb_neq _ _)) by lia. Qed.

Lemma rem_range (rand : nat -> Z) n processes :
  (forall n, 0 <= rand n) -> 0 < processes -> 0 <= Z.rem (rand n) processes < processes.
Proof. intros Hr Hp. apply Z.rem_bound_pos; auto. Qed.

(** The redrawing loop ends with another process. *)
Lemma redraw_total fuel rand processes process1 n :
  (forall n, 0 <= rand n) -> 0 < processes -> fair rand processes fuel ->
  exists p2 n', iter fuel (redraw_step rand processes process1)
                  (Z.rem (rand (S n)) processes, S (S n)) = Done (p2, n') /\
    0 <= p2 < processes /\ p2 <> process1.
Proof.
  intros Hr Hp Hfair.
  pose (I := fun (k : nat) (s : Z * nat) => 0 <= s.1 < processes /\
    (process1 = s.1 -> exists j, (j + 1 <= k)%nat /\ Z.rem (rand (s.2 + j)%nat) processes <> process1)).
  destruct (iter_counted (redraw_step rand processes process1) I
    (fun s => 0 <= s.1 < processes /\ s.1 <> process1)) with (fuel := fuel) (k := (fuel - 1)%nat)
    (s := (Z.rem (rand (S n)) processes, S (S n))) as ([p2 n'] & Heq & Hq).
  - intros k [p2 m] [HI1 HI2]. unfold redraw_step.
    destruct (Z.eqb_spec process1 p2) as [Heq|Hne]; [|by eexists; split].
    rewrite rand_mod_Done by done. cbn [mbind run_bind]. eexists. split; [done|].
    destruct (HI2 Heq) as (j & Hj & Hne). cbn [snd] in Hne. destruct k as [|k]; [lia|].
    exists k. split; [done|]. split; cbn [fst snd]; [by apply rem_range|].
    intros Heq2. destruct j as [|j]; [by rewrite Nat.add_0_r in Hne|].
    exists j. split; [lia|]. by replace (S m + j)%nat with (m + S j)%nat by lia.
  - split; cbn [fst snd]; [by apply rem_range|]. intros _.
    destruct (Hfair (S (S n)) process1) as (k & Hk & Hne). exists k. split; [lia|done].
  - destruct (Hfair 0%nat 0) as (k & Hk & _). lia.
  - naive_solver.
Qed.

Lemma generate_neighbor_spec fuel rand n processes asg :
  (forall n, 0 <= rand n) -> fair rand processes fuel ->
  0 < processes -> Z.of_nat (length asg) = processes ->
  exists asg' n', generate_neighbor fuel rand n processes asg = Done (asg', n') /\ asg' ≡ₚ asg.
Proof.
  intros Hr Hfair Hp Hlen. unfold generate_neighbor.
  rewrite !rand_mod_Done by done. cbn [mbind run_bind].
  pose proof (rem_range rand n processes Hr Hp) as H1.
  destruct (redraw_total fuel rand processes (Z.rem (rand n) processes) n)
    as (p2 & n' & -> & H2 & Hne); [done..|].
  cbn [mbind run_bind].
  destruct (get_Some asg (Z.rem (rand n) processes)) as (x & Hx & ->); [lia|].
  destruct (get_Some asg p2) as (y & Hy & ->); [lia|]. cbn [mbind run_bind].
  rewrite set_Some by lia. cbn [mbind run_bind].
  rewrite set_Some by (rewrite length_insert; lia). cbn [mbind run_bind].
  eexists _, _. split; [done|]. apply insert_swap_perm; [lia|done..].
Qed.

(** ** Cooling *)

(** [k] is the number of iterations left at temperature [t]. *)
Fixpoint cools (k : nat) (t : spec_float) : bool :=
  match k with
  | O => negb (hot t)
  | S k => hot t && cools k (cool t)
  end.

Lemma cools_initial : cools 917 INITIAL_TEMPERATURE = true.
Proof. vm_compute. reflexivity. Qed.

(** ** The search *)

Section search.
Context (fuel : nat) (rand : nat -> Z) (exp : spec_float -> spec_float).
Context (processors : Z) (head : list process).
Let processes := Z.of_nat (length head).
Hypothesis Hprocessors : 0 < processors.
Hypothesis Hprocesses : 0 < processes.
Hypothesis Hbt : Forall (fun p => 0 <= bt p) head.
Hypothesis Hat : Forall (fun p => 0 <= at_ p) head.
Hypothesis Hrand : forall n, 0 <= rand n.
Hypothesis Hfair : fair rand processes fuel.

(** The assignment the search starts from, and its orders. *)
Definition round_robin : list Z := (fun i => Z.rem i processors) <$> seqZ 0 processes.

Lemma round_robin_length : length round_robin = length head.
Proof. unfold round_robin. rewrite length_fmap, length_seqZ. lia. Qed.

Lemma assignment_range asg : asg ≡ₚ round_robin -> Forall (fun a => 0 <= a < processors) asg.
Proof using Hprocessors.
  intros ->. unfold round_robin. rewrite list.Forall_fmap, list.Forall_forall.
  intros i Hi%elem_of_seqZ. simpl. apply Z.rem_bound_pos; lia.
Qed.

Lemma metrics_of asg :
  asg ≡ₚ round_robin ->
  exists ps interval, calculate_metrics processors head asg = Done (ps, interval) /\
    good_schedule head asg ps interval.
Proof using Hprocesses Hprocessors Hbt Hat.
  intros Hasg. apply calculate_metrics_spec; try done; [|by apply assignment_range].
  by rewrite Hasg, round_robin_length.
Qed.

(** The interval of an assignment. *)
Definition has_interval (asg : list Z) (interval : Z) : Prop :=
  exists ps, calculate_metrics processors head asg = Done (ps, interval).

(** The invariant of the search, [k] iterations before its end, when the
    initial interval is [i0]. *)
Definition searching (i0 : Z) (k : nat) (s : search) : Prop :=
  cools k (temperature s) = true /\
  static <$> proc_array s = static <$> head /\
  current_assignments s ≡ₚ round_robin /\ best_assignments s ≡ₚ round_robin /\
  has_interval (best_assignments s) (best_interval s) /\ best_interval s <= i0.

Lemma anneal_step_searching i0 k s :
  searching i0 k s ->
  exists r, anneal_step fuel rand exp processors processes s = Done r /\
    match r with
    | inl s' => exists k', k = S k' /\ searching i0 k' s'
    | inr s' => searching i0 0 s'
    end.
Proof using Hprocessors Hprocesses Hbt Hat Hrand Hfair.
  intros (Hc & Hs & Hcur & Hbest & Hint & Hle). unfold anneal_step.
  destruct (hot (temperature s)) eqn:Hhot; cbn [negb].
  - destruct k as [|k]; [cbn [cools] in Hc; by rewrite Hhot in Hc|].
    cbn [cools] in Hc. rewrite Hhot in Hc. simpl in Hc.
    destruct (generate_neighbor_spec fuel rand (nrand s) processes (current_assignments s))
      as (asg' & n' & -> & Hperm); [done..| |].
    { by rewrite Hcur, round_robin_length. }
    cbn [mbind run_bind]. rewrite Hcur in Hperm.
    destruct (metrics_of (current_assignments s) Hcur) as (ps1 & i1 & H1 & G1).
    destruct (metrics_of asg' Hperm) as (ps2 & i2 & H2 & G2).
    rewrite (calculate_metrics_static _ _ head), H1 by done. cbn [mbind run_bind].
    rewrite (calculate_metrics_static _ ps1 head), H2 by apply G1. cbn [mbind run_bind].
    repeat case_match; simplify_eq; (eexists; split; [done|]);
      (eexists; split; [done|]); repeat split; try done; simpl; try apply G2;
      try (eexists; eassumption); zb.
  - eexists. split; [done|].
    destruct k as [|k]; [done|]. cbn [cools] in Hc. by rewrite Hhot in Hc.
Qed.

Lemma copy_back_static : forall ps, static <$> ps = static <$> head ->
  zip_with copy_back head ps = ps.
Proof.
  clear. induction head as [|h l IH]; intros [|p ps] H; try done.
  rewrite !fmap_cons in H. injection H as H1 H2 H3 H. cbn [zip_with]. rewrite IH by done.
  f_equal. destruct h, p. unfold copy_back. simpl in *. congruence.
Qed.

Lemma simulated_annealing_spec :
  (917 < fuel)%nat ->
  exists l best i0, simulated_annealing fuel rand exp processors head = Done (l, best) /\
    (exists asg, asg ≡ₚ round_robin /\ good_schedule head asg l best) /\
    has_interval round_robin i0 /\ best <= i0.
Proof using Hprocessors Hprocesses Hbt Hat Hrand Hfair.
  intros Hfuel. unfold simulated_annealing, vla, initial_assignments.
  fold processes. rewrite (proj2 (Z.ltb_lt _ _) Hprocesses). cbn [mbind run_bind].
  rewrite (proj2 (Z.eqb_neq _ _)) by lia. cbn [mbind run_bind]. fold round_robin.
  destruct (metrics_of round_robin) as (ps0 & i0 & H0 & G0); [done|]. rewrite H0.
  cbn [mbind run_bind].
  destruct (iter_counted _ (searching i0) (searching i0 0) (anneal_step_searching i0)
    fuel 917 {| temperature := INITIAL_TEMPERATURE; proc_array := ps0;
                current_assignments := round_robin; best_assignments := round_robin;
                best_interval := i0; nrand := 0 |}) as (s & -> & Hs); [|done|].
  { split; [exact cools_initial|]. cbn. repeat split; try done; [apply G0|by eexists]. }
  cbn [mbind run_bind]. destruct Hs as (_ & Hst & _ & Hbest & [ps Hps] & Hle).
  rewrite (calculate_metrics_static _ _ head) by done.
  destruct (metrics_of _ Hbest) as (ps' & i' & H' & G'). rewrite H' in Hps |- *. injection Hps as <- Hi; rewrite Hi in G'.
  cbn [mbind run_bind]. rewrite copy_back_static by apply G'.
  eexists _, _, _. split; [done|]. split; [by exists (best_assignments s)|]. split; [by eexists|done].
Qed.
End search.

(** ** The program *)

Notation descr := (Z * Z * Z)%type.
Notation input_of := (fun d : descr => [d.1.1; d.1.2; d.2]).
Definition new_process (d : descr) : process := mkProcess d.1.1 d.1.2 d.2 (-1) (-1) (-1) (-1) (-1).

Lemma annealing_create_process_spec head d rest :
  create_process head (input_of d ++ rest) = Done (head ++ [new_process d], rest).
Proof. unfold create_process. simpl. by rewrite append_link_app. Qed.

Lemma static_new (ds : list descr) : static <$> (new_process <$> ds) = ds.
Proof.
  induction ds as [|[[a b] c] ds IH]; [done|]. rewrite !fmap_cons, IH. done.
Qed.



(** With a single process the program never ends: the neighbour of an
    assignment needs a second process, and the loop that draws one repeats
    for ever, whatever the random values. *)
Theorem annealing_single_process_diverges (fuel : nat) (rand : nat -> Z)
    (exp : spec_float -> spec_float) (processors : Z) (d : descr) :
  0 < processors -> 0 <= d.2 -> 0 <= d.1.2 ->
  main fuel rand exp (processors :: 1 :: input_of d) = OutOfFuel.
Proof.
  intros Hp Hb Ha. unfold main. cbn [scan_int mbind run_bind].
  pose proof (create_processes_spec create_process (fun d : descr => [d.1.1; d.1.2; d.2])
    new_process annealing_create_process_spec [d]) as Hc.
  cbn [length mbind list_bind app] in Hc. change (Z.to_nat 1) with 1%nat. rewrite Hc.
  cbn [mbind run_bind]. rewrite fmap_cons. cbn [fmap list_fmap].
  unfold simulated_annealing, vla, initial_assignments.
  change (Z.of_nat (length [new_process d])) with 1. change (0 <? 1) with true.
  rewrite (proj2 (Z.eqb_neq _ _)) by lia. cbn [mbind run_bind].
  destruct (calculate_metrics_spec processors [new_process d] [0]) as (ps & i & Hm & _); try done.
  { by constructor. } { by constructor. } { constructor; [lia|constructor]. }
  change ((fun i => Z.rem i processors) <$> seqZ 0 1) with [0].
  rewrite Hm. cbn [mbind run_bind].
  destruct fuel as [|n]; [done|]. cbn [iter].
  replace (anneal_step _ _ _ _ _ _) with (@OutOfFuel (search + search)); [done|].
  unfold anneal_step. change (hot _) with true. cbn [negb].
  unfold generate_neighbor. rewrite !rand_mod_Done, !Z.rem_1_r by lia. cbn [mbind run_bind].
  rewrite (iter_diverges _ (fun s => s.1 = 0)); [done| |done].
  intros [p2 m] Hs. cbn [fst] in Hs. subst p2. unfold redraw_step. cbn [Z.eqb].
  rewrite rand_mod_Done by lia. cbn [mbind run_bind]. eexists. split; [done|].
  cbn [fst]. apply Z.rem_1_r.
Qed.

Lemma annealing_single_process_diverges_witness :
  main 1000 (fun n => Z.of_nat n) (fun _ => S754_zero false) [2; 1; 7; 0; 5] = OutOfFuel.
Proof.
  apply (annealing_single_process_diverges 1000 (fun n => Z.of_nat n) (fun _ => S754_zero false)
           2 (7, 0, 5)); simpl; lia.
Defined.
