(* ===== verification/Blocks.v ===== *)
(** * Blocks of bytes

    Disk blocks are lists of bytes.  The kernel reads and writes fields of
    little-endian integers in them through casts ([struct logheader],
    [struct dinode], [struct dirent], arrays of block numbers); here a field
    is an offset and a width. *)
From stdpp Require Import base tactics list numbers.
From S2P Require Import Prelude.

Open Scope Z_scope.

Fixpoint le_bytes (n : nat) (v : Z) : list Z :=
  match n with
  | O => []
  | S n => v mod 2 ^ 8 :: le_bytes n (v / 2 ^ 8)
  end.

Fixpoint le_value (l : list Z) : Z :=
  match l with
  | [] => 0
  | b :: l => b + 2 ^ 8 * le_value l
  end.

Definition get_bytes (d : list Z) (off n : nat) : list Z := take n (drop off d).
Definition put_bytes (d : list Z) (off : nat) (l : list Z) : list Z := list_inserts off l d.

(** Fields of [n] bytes; [uint], [int], [ushort] and [short]. *)
Definition get_word (n : nat) (d : list Z) (off : nat) : Z := le_value (get_bytes d off n).
Definition put_word (n : nat) (d : list Z) (off : nat) (v : Z) : list Z :=
  put_bytes d off (le_bytes n v).

Definition i16 (x : Z) : Z := (x + 2 ^ 15) mod 2 ^ 16 - 2 ^ 15.
Definition u16 (x : Z) : Z := x mod 2 ^ 16.
Definition get_int (d : list Z) (off : nat) : Z := i32 (get_word 4 d off).

Lemma le_bytes_length n v : length (le_bytes n v) = n.
Proof. revert v. induction n as [|n IH]; intros v; [done|]. cbn. by rewrite IH. Qed.

Lemma le_bytes_byte n v : Forall (fun b => 0 <= b < 256) (le_bytes n v).
Proof.
  revert v. induction n as [|n IH]; intros v; constructor; [|apply IH].
  pose proof (Z.mod_pos_bound v (2 ^ 8) ltac:(lia)). lia.
Qed.

Lemma le_value_bytes n v : le_value (le_bytes n v) = v mod 2 ^ (8 * Z.of_nat n).
Proof.
  revert v. induction n as [|n IH]; intros v; [cbn; by rewrite Z.mod_1_r|].
  cbn [le_bytes le_value]. rewrite IH.
  replace (8 * Z.of_nat (S n)) with (8 + 8 * Z.of_nat n) by lia.
  by rewrite Z.pow_add_r, Z.rem_mul_r by lia.
Qed.

Lemma le_value_range l :
  Forall (fun b => 0 <= b < 256) l -> 0 <= le_value l < 2 ^ (8 * Z.of_nat (length l)).
Proof.
  induction 1 as [|b l Hb _ IH]; [cbn; lia|]. cbn [le_value length].
  replace (8 * Z.of_nat (S (length l))) with (8 + 8 * Z.of_nat (length l)) by lia.
  rewrite Z.pow_add_r by lia. lia.
Qed.

Lemma put_bytes_length d off l : length (put_bytes d off l) = length d.
Proof. apply length_inserts. Qed.

Lemma put_word_length n d off v : length (put_word n d off v) = length d.
Proof. apply put_bytes_length. Qed.

Lemma get_put_bytes d off l :
  (off + length l <= length d)%nat -> get_bytes (put_bytes d off l) off (length l) = l.
Proof.
  intros Hl. apply list_eq. intros i. unfold get_bytes, put_bytes. destruct (decide (i < length l)%nat) as [Hi|Hi].
  - rewrite lookup_take_lt, lookup_drop by done. rewrite list_lookup_inserts by lia.
    f_equal. lia.
  - rewrite lookup_take_ge, lookup_ge_None_2 by lia. done.
Qed.

Lemma get_put_bytes_other d off l off' n :
  (off' + n <= off)%nat \/ (off + length l <= off')%nat ->
  get_bytes (put_bytes d off l) off' n = get_bytes d off' n.
Proof.
  intros Ho. apply list_eq. intros i. unfold get_bytes, put_bytes. destruct (decide (i < n)%nat) as [Hi|Hi].
  - rewrite !lookup_take_lt, !lookup_drop by done. destruct Ho as [Ho|Ho].
    + apply list_lookup_inserts_lt. lia.
    + apply list_lookup_inserts_ge. lia.
  - by rewrite !lookup_take_ge by lia.
Qed.

Lemma get_put_word n d off v :
  (off + n <= length d)%nat -> get_word n (put_word n d off v) off = v mod 2 ^ (8 * Z.of_nat n).
Proof.
  intros H. unfold get_word, put_word. pose proof (get_put_bytes d off (le_bytes n v)) as Hg.
  rewrite le_bytes_length in Hg. rewrite Hg by done. apply le_value_bytes.
Qed.

Lemma get_put_word_other n m d off off' v :
  (off' + m <= off)%nat \/ (off + n <= off')%nat ->
  get_word m (put_word n d off v) off' = get_word m d off'.
Proof.
  intros H. unfold get_word, put_word. by rewrite get_put_bytes_other by by rewrite le_bytes_length.
Qed.

(** An [int] survives its little-endian representation. *)
Lemma get_put_int d off v :
  (off + 4 <= length d)%nat -> in_i32 v -> get_int (put_word 4 d off v) off = v.
Proof.
  intros Hl Hv. unfold get_int. rewrite get_put_word by done.
  unfold in_i32 in Hv. unfold i32. change (8 * Z.of_nat 4) with 32.
  Z.to_euclidean_division_equations. lia.
Qed.

Lemma get_put_int_other d off off' v :
  (off' + 4 <= off)%nat \/ (off + 4 <= off')%nat ->
  get_int (put_word 4 d off v) off' = get_int d off'.
Proof. intros H. unfold get_int. by rewrite get_put_word_other. Qed.
