(* ===== verification/Machine.v ===== *)
(** * The machine the xv6 kernel runs on

    The state the kernel sources share (their global variables, the memory
    and the per-hart registers they use) as one record, and the monad in
    which the kernel functions are written.

    A kernel function runs on one hart.  It returns, panics, spins on a lock
    that another hart holds, faults (a null pointer or an object that does
    not exist), or is switched out and never resumed.  What the rest of the
    system does while the thread is switched out is not ours to choose: it is
    the [env], one state transformer for each time the thread is resumed, and
    theorems quantify over it. *)
From stdpp Require Import base tactics list numbers gmap strings countable.
From S2P Require Import Prelude.

Open Scope Z_scope.

(** ** Constants: [kernel/param.h], [kernel/riscv.h], [kernel/memlayout.h] *)

Definition NPROC : nat := 64.
Definition NCPU : nat := 8.
Definition NOFILE : nat := 16.
Definition NFILE : nat := 100.
Definition ROOTDEV : Z := 1.
Definition MAXOPBLOCKS : Z := 10.
Definition LOGSIZE : Z := MAXOPBLOCKS * 3.
Definition NBUF : nat := 30.
Definition NINODE : nat := 50.
Definition BSIZE : Z := 1024.

Definition PGSIZE : Z := 4096.
Definition PGROUNDUP (sz : Z) : Z := Z.land (u64 (sz + PGSIZE - 1)) (u64 (Z.lnot (PGSIZE - 1))).
Definition PGROUNDDOWN (a : Z) : Z := Z.land a (u64 (Z.lnot (PGSIZE - 1))).

(** The masks round to multiples of the page size. *)
Lemma PGROUNDDOWN_eq a : 0 <= a < 2 ^ 64 -> PGROUNDDOWN a = a / PGSIZE * PGSIZE.
Proof.
  intros Ha. unfold PGROUNDDOWN, u64.
  rewrite <- Z.land_ones, Z.land_assoc, <- (Z.land_comm (Z.ones 64)), Z.land_assoc by lia.
  rewrite (Z.land_comm (Z.ones 64)), Z.land_ones, Z.mod_small by lia.
  change (PGSIZE - 1) with (Z.ones 12). rewrite <- Z.ldiff_land, Z.ldiff_ones_r by lia.
  rewrite Z.shiftl_mul_pow2, Z.shiftr_div_pow2 by lia. done.
Qed.

Lemma PGROUNDUP_eq a : 0 <= a -> a + PGSIZE - 1 < 2 ^ 64 ->
  PGROUNDUP a = (a + PGSIZE - 1) / PGSIZE * PGSIZE.
Proof.
  intros Ha Hb. unfold PGROUNDUP. rewrite u64_id by (unfold PGSIZE in *; lia).
  apply PGROUNDDOWN_eq. unfold PGSIZE in *. lia.
Qed.

Definition KERNBASE : Z := 0x80000000.
Definition PHYSTOP : Z := KERNBASE + 128 * 1024 * 1024.
Definition MAXVA : Z := Z.shiftl 1 (9 + 9 + 9 + 12 - 1).
Definition TRAMPOLINE : Z := MAXVA - PGSIZE.
Definition TRAPFRAME : Z := TRAMPOLINE - PGSIZE.
Definition KSTACK (p : Z) : Z := TRAMPOLINE - (p + 1) * 2 * PGSIZE.

(** Addresses the linker script and the assembly sources determine: the end
    of the kernel image, the end of its text, the trampoline page, and the
    entry points of [forkret]. *)
Class Linker : Type := { kernel_end : Z; etext : Z; trampoline : Z; forkret_entry : Z }.

(** ** Byte memory *)

Notation bytes := (gmap Z Z).

Definition load8 (m : bytes) (a : Z) : Z := u8 (default 0 (m !! a)).
Definition store8 (m : bytes) (a v : Z) : bytes := <[a := u8 v]> m.

(** [n] bytes at [a], least significant first. *)
Fixpoint load_le (n : nat) (m : bytes) (a : Z) : Z :=
  match n with
  | O => 0
  | S n => load8 m a + 256 * load_le n m (a + 1)
  end.

Fixpoint store_le (n : nat) (m : bytes) (a v : Z) : bytes :=
  match n with
  | O => m
  | S n => store_le n (store8 m a v) (a + 1) (v / 256)
  end.

Definition load64 (m : bytes) (a : Z) : Z := load_le 8 m a.
Definition store64 (m : bytes) (a v : Z) : bytes := store_le 8 m a v.

(** Comparing states should not look into the bytes of memory. *)
#[global] Strategy 1000 [load64 store64].

Lemma load8_store8 m a b v : load8 (store8 m a v) b = if a =? b then u8 v else load8 m b.
Proof.
  unfold load8, store8. destruct (Z.eqb_spec a b) as [->|Hne].
  - rewrite lookup_insert_eq. apply Zmod_mod.
  - by rewrite lookup_insert_ne.
Qed.

Lemma load8_range m a : 0 <= load8 m a < 256.
Proof. unfold load8. apply (Z.mod_pos_bound _ (2 ^ 8)). lia. Qed.

Lemma load8_u8 m a : u8 (load8 m a) = load8 m a.
Proof. apply Zmod_mod. Qed.

Lemma load_le_range n m a : 0 <= load_le n m a < 2 ^ (8 * Z.of_nat n).
Proof.
  revert a. induction n as [|n IH]; intros a; [cbn; lia|]. cbn [load_le].
  pose proof (load8_range m a). specialize (IH (a + 1)).
  replace (8 * Z.of_nat (S n)) with (8 + 8 * Z.of_nat n) by lia. rewrite Z.pow_add_r by lia. lia.
Qed.

Lemma load8_store_le n m a v b :
  b < a \/ a + Z.of_nat n <= b -> load8 (store_le n m a v) b = load8 m b.
Proof.
  revert m a v. induction n as [|n IH]; intros m a v Hb; [done|].
  cbn [store_le]. rewrite IH by lia. rewrite load8_store8.
  destruct (Z.eqb_spec a b); [lia|done].
Qed.

Lemma load_le_ext n m1 m2 a :
  (forall b, a <= b < a + Z.of_nat n -> load8 m1 b = load8 m2 b) ->
  load_le n m1 a = load_le n m2 a.
Proof.
  revert a. induction n as [|n IH]; intros a H; [done|]. cbn [load_le].
  rewrite H by lia. rewrite (IH (a + 1)); [done|]. intros b Hb. apply H. lia.
Qed.

(** What was stored is loaded, up to the width. *)
Lemma load_store_le n m a v : load_le n (store_le n m a v) a = v mod 2 ^ (8 * Z.of_nat n).
Proof.
  revert m a v. induction n as [|n IH]; intros m a v.
  - cbn [load_le store_le]. by rewrite Z.mod_1_r.
  - cbn [load_le store_le]. rewrite load8_store_le by lia. rewrite load8_store8, Z.eqb_refl, IH.
    replace (8 * Z.of_nat (S n)) with (8 + 8 * Z.of_nat n) by lia.
    rewrite Z.pow_add_r by lia. rewrite Z.rem_mul_r by lia. done.
Qed.

Lemma load_store_le_other n k m a b v :
  b + Z.of_nat k <= a \/ a + Z.of_nat n <= b ->
  load_le k (store_le n m a v) b = load_le k m b.
Proof. intros H. apply load_le_ext. intros c Hc. apply load8_store_le. lia. Qed.

Lemma load64_store64 m a v : load64 (store64 m a v) a = u64 v.
Proof. exact (load_store_le 8 m a v). Qed.

Lemma load64_store64_other m a b v :
  b + 8 <= a \/ a + 8 <= b -> load64 (store64 m a v) b = load64 m b.
Proof. intros H. apply load_store_le_other. lia. Qed.

Lemma load64_ext m1 m2 a :
  (forall b, a <= b < a + 8 -> load8 m1 b = load8 m2 b) -> load64 m1 a = load64 m2 a.
Proof. exact (load_le_ext 8 m1 m2 a). Qed.

(** ** Objects of the kernel

    Objects with an identity (locks, sleep channels) are named by what they
    belong to, where the sources use their address. *)

Inductive lockid : Set :=
| Lkmem | Lpid | Lwait | Lticks | Lftable | Lptable
| Lbcache | Llog | Litable
| Lcons | Luart | Lvdisk | Lpr
| Lproc (i : nat)
| Lpipe (pi : Z)
| Lsleep (n : nat).      (* the spinlock inside sleep lock n *)

#[global] Instance lockid_eq_dec : EqDecision lockid.
Proof. solve_decision. Defined.

#[global] Instance lockid_countable : Countable lockid.
Proof.
  refine (inj_countable' (fun l => match l with
    | Lkmem => inl 0%nat | Lpid => inl 1%nat | Lwait => inl 2%nat | Lticks => inl 3%nat
    | Lftable => inl 4%nat | Lptable => inl 5%nat | Lbcache => inl 6%nat | Llog => inl 7%nat
    | Litable => inl 8%nat | Lcons => inl 9%nat | Luart => inl 10%nat | Lvdisk => inl 11%nat | Lpr => inl 12%nat
    | Lproc i => inr (inl i) | Lpipe pi => inr (inr (inl pi)) | Lsleep n => inr (inr (inr n)) end)
   (fun x : nat + (nat + (Z + nat)) => match x with
    | inl 0%nat => Lkmem | inl 1%nat => Lpid | inl 2%nat => Lwait | inl 3%nat => Lticks
    | inl 4%nat => Lftable | inl 5%nat => Lptable | inl 6%nat => Lbcache | inl 7%nat => Llog
    | inl 8%nat => Litable | inl 9%nat => Lcons | inl 10%nat => Luart | inl 11%nat => Lvdisk | inl _ => Lpr
    | inr (inl i) => Lproc i | inr (inr (inl pi)) => Lpipe pi | inr (inr (inr n)) => Lsleep n end) _).
  by intros [].
Defined.

Inductive chan : Set :=
| ChProc (i : nat)       (* a process, for wait *)
| ChTicks
| ChPipeRead (pi : Z)    (* &pi->nread *)
| ChPipeWrite (pi : Z)   (* &pi->nwrite *)
| ChSleep (n : nat)      (* a sleep lock *)
| ChLog                  (* &log *)
| ChCons                 (* &cons.r *)
| ChUart                 (* &uart_tx_r *)
| ChBuf (n : nat)        (* a buffer, for the disk driver *)
| ChDesc.                (* &disk.free[0] *)

#[global] Instance chan_eq_dec : EqDecision chan.
Proof. solve_decision. Defined.

(** [kernel/spinlock.h] *)
Record spinlock := mkSpinlock { locked : Z; lname : string; lcpu : option nat }.

#[global] Instance spinlock_settable : Settable spinlock := fun l =>
  mkSpinlock (locked l) (lname l) (lcpu l).

#[global] Instance spinlock_eq_dec : EqDecision spinlock.
Proof. solve_decision. Defined.

(** [kernel/sleeplock.h]; its spinlock is [Lsleep n]. *)
Record sleeplock := mkSleeplock { slocked : Z; sname : string; spid : Z }.

#[global] Instance sleeplock_settable : Settable sleeplock := fun l =>
  mkSleeplock (slocked l) (sname l) (spid l).

(** [kernel/proc.h]: the registers [swtch] saves. *)
Record context := mkContext { ra : Z; sp : Z; saved : list Z }.

#[global] Instance context_settable : Settable context := fun c =>
  mkContext (ra c) (sp c) (saved c).

(** The supervisor registers of a hart that the trap code uses; the interrupt
    enable bit of [sstatus] is [sie] of the hart. *)
Record csrs := mkCsrs {
  sstatus : Z; stvec : Z; sepc : Z; scause : Z; stval : Z; satp : Z; stimecmp : Z; time_ : Z
}.

#[global] Instance csrs_settable : Settable csrs := fun c =>
  mkCsrs (sstatus c) (stvec c) (sepc c) (scause c) (stval c) (satp c) (stimecmp c) (time_ c).

Definition csrs0 : csrs := mkCsrs 0 0 0 0 0 0 0 0.

(** [struct cpu], with the hart's interrupt enable bit (SSTATUS_SIE). *)
Record cpu := mkCpu { cproc : option nat; ccontext : context; noff : Z; intena : bool; sie : bool; csr : csrs }.

#[global] Instance cpu_settable : Settable cpu := fun c =>
  mkCpu (cproc c) (ccontext c) (noff c) (intena c) (sie c) (csr c).

Inductive procstate : Set := UNUSED | USED | SLEEPING | RUNNABLE | RUNNING | ZOMBIE.

#[global] Instance procstate_eq_dec : EqDecision procstate.
Proof. solve_decision. Defined.

(** [struct proc].  Pointers to processes, open files and inodes are indices
    into their tables, [None] for the null pointer; its lock is [Lproc i]. *)
Record proc := mkProc {
  state : procstate;
  pchan : option chan;
  killed_ : Z;
  xstate : Z;
  pid : Z;
  parent : option nat;
  kstack : Z;
  sz : Z;
  pagetable : Z;
  trapframe : Z;
  pcontext : context;
  ofile : list (option nat);
  cwd : option nat;
  name : bytes;
  priority : Z;
  total_time : Z;
  idle_time : Z
}.

#[global] Instance proc_settable : Settable proc := fun p =>
  mkProc (state p) (pchan p) (killed_ p) (xstate p) (pid p) (parent p) (kstack p) (sz p)
    (pagetable p) (trapframe p) (pcontext p) (ofile p) (cwd p) (name p) (priority p)
    (total_time p) (idle_time p).

(** [kernel/pipe.c] *)
Record pipe := mkPipe {
  data : list Z; nread : Z; nwrite : Z; readopen : Z; writeopen : Z
}.

#[global] Instance pipe_settable : Settable pipe := fun p =>
  mkPipe (data p) (nread p) (nwrite p) (readopen p) (writeopen p).

(** [kernel/file.h] *)
Inductive ftype : Set := FD_NONE | FD_PIPE | FD_INODE | FD_DEVICE.

#[global] Instance ftype_eq_dec : EqDecision ftype.
Proof. solve_decision. Defined.

Record file := mkFile {
  type_ : ftype; ref : Z; readable : Z; writable : Z; fpipe : Z; ip : option nat; off : Z; major : Z
}.

#[global] Instance file_settable : Settable file := fun f =>
  mkFile (type_ f) (ref f) (readable f) (writable f) (fpipe f) (ip f) (off f) (major f).

(** [kernel/buf.h].  The sleep lock of buffer [n] is sleep lock [n]; its place
    in the list of recently used buffers is in [lru] below. *)
Record buf := mkBuf { valid : Z; bdev : Z; blockno : Z; refcnt : Z; bdata : list Z }.

#[global] Instance buf_settable : Settable buf := fun b =>
  mkBuf (valid b) (bdev b) (blockno b) (refcnt b) (bdata b).

(** The buffer cache ([bcache] of [kernel/bio.c]) and the disk below it: what
    the device holds, and every block written to it so far, the last first. *)
Record bcache := mkBcache {
  bufs : list buf;
  lru : list nat;                  (* from head.next to head.prev *)
  disk : Z -> list Z;
  writes : list (Z * list Z)
}.

#[global] Instance bcache_settable : Settable bcache := fun b =>
  mkBcache (bufs b) (lru b) (disk b) (writes b).

(** [struct log] and [struct logheader] of [kernel/log.c]. *)
Record logheader := mkLogheader { ln : Z; block : list Z }.
Record log := mkLog {
  lstart : Z; lsize : Z; outstanding : Z; committing : Z; ldev : Z; lh : logheader
}.

#[global] Instance logheader_settable : Settable logheader := fun h => mkLogheader (ln h) (block h).
#[global] Instance log_settable : Settable log := fun l =>
  mkLog (lstart l) (lsize l) (outstanding l) (committing l) (ldev l) (lh l).

(** [kernel/fs.h] *)
Record superblock := mkSuperblock {
  magic : Z; fssize : Z; nblocks : Z; ninodes : Z; nlog : Z; logstart : Z; inodestart : Z;
  bmapstart : Z
}.

(** [struct inode] of [kernel/file.h]; its sleep lock is [NBUF] plus its index. *)
Record inode := mkInode {
  idev : Z; inum : Z; iref : Z; ivalid : Z;
  itype : Z; imajor : Z; iminor : Z; nlink : Z; isize : Z; addrs : list Z
}.

#[global] Instance inode_settable : Settable inode := fun i =>
  mkInode (idev i) (inum i) (iref i) (ivalid i) (itype i) (imajor i) (iminor i) (nlink i)
    (isize i) (addrs i).

(** [cons] of [kernel/console.c]: the input line being edited. *)
Record consbuf := mkCons { cbuf : list Z; cr : Z; cw : Z; ce : Z }.

#[global] Instance consbuf_settable : Settable consbuf := fun c => mkCons (cbuf c) (cr c) (cw c) (ce c).

(** The output buffer of [kernel/uart.c] and the serial device: the bytes
    that wait in its receive register, its answers to successive reads of the
    idle bit (busy when [true]; idle when there is no answer left), and what
    was written to its registers, the last first. *)
Record uart := mkUart {
  uart_tx_buf : list Z; uart_tx_w : Z; uart_tx_r : Z;
  rhr : list Z; tx_busy : list bool; uwrites : list (Z * Z)
}.

#[global] Instance uart_settable : Settable uart := fun u =>
  mkUart (uart_tx_buf u) (uart_tx_w u) (uart_tx_r u) (rhr u) (tx_busy u) (uwrites u).

(** What a descriptor of the disk driver points to: nothing, the request or
    the status byte of a chain, the data of a buffer. *)
Inductive dma : Set := DNull | DOp (i : nat) | DStatus (i : nat) | DBuf (n : nat).

(** [struct virtq_desc] of [kernel/virtio.h] and [struct disk] of
    [kernel/virtio_disk.c]; [used_ring] and [used_count] are written by the
    device, [bdisk] holds the field [disk] of each buffer. *)
Record vdesc := mkVdesc { daddr : dma; dlen : Z; dflags : Z; dnext : nat }.

#[global] Instance vdesc_settable : Settable vdesc := fun d => mkVdesc (daddr d) (dlen d) (dflags d) (dnext d).

Record vdisk := mkVdisk {
  desc : list vdesc; dfree : list bool;
  avail_ring : list nat; avail_idx : Z;
  used_ring : list nat; used_count : Z; used_idx : Z;
  info : list (option nat * Z);
  ops : list (bool * Z);           (* write, sector *)
  bdisk : list Z;
  vregs : Z -> Z;                  (* what the device registers read as *)
  vwrites : list (Z * Z)           (* the writes to them, the last first *)
}.

#[global] Instance vdisk_settable : Settable vdisk := fun d =>
  mkVdisk (desc d) (dfree d) (avail_ring d) (avail_idx d) (used_ring d) (used_count d) (used_idx d)
    (info d) (ops d) (bdisk d) (vregs d) (vwrites d).

(** The devices; [panicked] and [pr.locking] of [kernel/printf.c], [started] of
    [kernel/main.c] and [first] of [forkret]. *)
Record devices := mkDevices {
  tty : consbuf; serial : uart; vdk : vdisk;
  irqs : list Z;                   (* what the interrupt controller will report *)
  plic_writes : list (Z * Z);      (* the writes to its registers, the last first *)
  panicked : Z; locking : Z; started : Z; first : Z
}.

#[global] Instance devices_settable : Settable devices := fun d =>
  mkDevices (tty d) (serial d) (vdk d) (irqs d) (plic_writes d) (panicked d) (locking d) (started d) (first d).

Definition no_devices : devices :=
  mkDevices (mkCons [] 0 0 0) (mkUart [] 0 0 [] [] []) (mkVdisk [] [] [] 0 [] 0 0 [] [] [] (fun _ => 0) []) [] [] 0 0 0 1.

(** ** The state *)

Record mach := mkMach {
  tp : nat;                        (* the hart the thread runs on *)
  cpus : list cpu;
  locks : gmap lockid spinlock;
  mem : bytes;
  freelist : Z;                    (* kmem.freelist *)
  kernel_pagetable : Z;
  procs : list proc;               (* proc[NPROC] *)
  initproc : option nat;
  nextpid : Z;
  ticks : Z;
  sleeplocks : list sleeplock;
  pipes : gmap Z pipe;             (* the pages that hold a struct pipe *)
  files : list file;               (* ftable.file *)
  console : list string;           (* what printf wrote, most recent first *)
  bc : bcache;
  slog : log;                      (* log *)
  sb : superblock;
  inodes : list inode;             (* itable.inode *)
  io : devices
}.

#[global] Instance mach_settable : Settable mach := fun s =>
  mkMach (tp s) (cpus s) (locks s) (mem s) (freelist s) (kernel_pagetable s) (procs s) (initproc s) (nextpid s)
    (ticks s) (sleeplocks s) (pipes s) (files s) (console s) (bc s) (slog s) (sb s) (inodes s) (io s).

(** The file system state before the disk is mounted. *)
Definition no_bcache : bcache := mkBcache [] [] (fun _ => []) [].
Definition no_log : log := mkLog 0 0 0 0 0 (mkLogheader 0 []).
Definition no_superblock : superblock := mkSuperblock 0 0 0 0 0 0 0 0.

(** ** Kernel code *)

Definition env : Type := list (mach -> mach).

Inductive result (A : Type) : Type :=
| Ret (a : A) (e : env) (s : mach)
| Panic (msg : string) (s : mach)
| Fault (s : mach)
| Spins (l : lockid) (s : mach)
| Blocked (s : mach)
| NoFuel.
Arguments Ret {A} a e s.
Arguments Panic {A} msg s.
Arguments Fault {A} s.
Arguments Spins {A} l s.
Arguments Blocked {A} s.
Arguments NoFuel {A}.

Definition M (A : Type) : Type := env -> mach -> result A.

#[global] Instance M_ret : MRet M := fun _ a e s => Ret a e s.
#[global] Instance M_bind : MBind M := fun _ _ k m e s =>
  match m e s with
  | Ret a e s => k a e s
  | Panic msg s => Panic msg s
  | Fault s => Fault s
  | Spins l s => Spins l s
  | Blocked s => Blocked s
  | NoFuel => NoFuel
  end.

Definition read {T} (f : mach -> T) : M T := fun e s => Ret (f s) e s.
Definition modify (f : mach -> mach) : M unit := fun e s => Ret tt e (f s).
Definition panic {A} (msg : string) : M A := fun _ s => Panic msg s.
Definition fault {A} : M A := fun _ s => Fault s.
Definition or_fault {A} (o : option A) : M A :=
  match o with Some a => mret a | None => fault end.
Definition when (b : bool) (m : M unit) : M unit := if b then m else mret tt.

(** The thread is switched out and, if the environment resumes it, goes on in
    the state the environment left. *)
Definition switch_out : M unit := fun e s =>
  match e with
  | [] => Blocked s
  | f :: e => Ret tt e (f s)
  end.

(** [for (x in l)] with an early exit. *)
Fixpoint for_first {A B} (l : list A) (f : A -> M (option B)) : M (option B) :=
  match l with
  | [] => mret None
  | x :: l =>
      r ← f x;
      match r with Some b => mret (Some b) | None => for_first l f end
  end.

Fixpoint for_each {A} (l : list A) (f : A -> M unit) : M unit :=
  match l with
  | [] => mret tt
  | x :: l => f x;; for_each l f
  end.

(** A loop whose body continues with a new loop state or leaves the loop. *)
Fixpoint loop {St B} (fuel : nat) (step : St -> M (St + B)) (st : St) : M B :=
  match fuel with
  | O => fun _ _ => NoFuel
  | S n =>
      r ← step st;
      match r with inl st => loop n step st | inr b => mret b end
  end.

(** Access to the tables. *)
Definition get_proc (i : nat) : M proc := s ← read id; or_fault (procs s !! i).
Definition set_proc (i : nat) (f : proc -> proc) : M unit :=
  _ ← get_proc i; modify (fun s => s <| procs ::= alter f i |>).

(** Indices of the process table, in the order [for(p = proc; p < &proc[NPROC]; p++)]
    visits them. *)
Definition proc_table : list nat := seq 0 NPROC.

(** ** Reasoning *)

Lemma bindE {A B} (m : M A) (k : A -> M B) e s :
  (m ≫= k) e s =
  match m e s with
  | Ret a e s => k a e s
  | Panic msg s => Panic msg s
  | Fault s => Fault s
  | Spins l s => Spins l s
  | Blocked s => Blocked s
  | NoFuel => NoFuel
  end.
Proof. done. Qed.

(** Run the code at the head of the goal as far as its primitives go. *)
Ltac msimp :=
  repeat (rewrite ?bindE; cbn [read modify mret M_ret when or_fault id]).

Lemma M_bind_Ret {A B} (m : M A) (k : A -> M B) e s a e' s' :
  m e s = Ret a e' s' -> (m ≫= k) e s = k a e' s'.
Proof. intros H. unfold mbind, M_bind. by rewrite H. Qed.

Lemma M_bind_inv {A B} (m : M A) (k : A -> M B) e s b e'' s'' :
  (m ≫= k) e s = Ret b e'' s'' ->
  exists a e' s', m e s = Ret a e' s' /\ k a e' s' = Ret b e'' s''.
Proof. unfold mbind, M_bind. destruct (m e s); naive_solver. Qed.
