(* ===== verification/User.v ===== *)
(** * Programs that make system calls

    A user program is an interaction tree whose events are its calls out of
    the source file: system calls, and [gets] and the printing functions of the
    user library.  [run] says what one process and all its descendants do: its
    descriptors, the children it has not waited for and what it reads are its
    own, so the order in which the processes are scheduled does not matter. *)
From stdpp Require Import base tactics list numbers gmap strings.
From S2P Require Import Prelude Machine.
From ITree Require Import ITree ITreeFacts.
From Paco Require Import paco.

Open Scope Z_scope.

(** ** Calls *)

Notation str := (list Z).

Variant userE : Type -> Type :=
| Fork : userE Z
| Exit (status : Z) : userE Empty_set
| Wait : userE Z                                  (* wait(0) *)
| Pipe : userE (Z * (Z * Z))                      (* the result, and p[0], p[1] *)
| Exec (path : str) (argv : list str) : userE Z
| Open (path : str) (mode : Z) : userE Z
| Close (fd : Z) : userE Z
| Dup (fd : Z) : userE Z
| Chdir (path : str) : userE Z
| Write (fd : Z) (text : str) : userE Z
| Gets (max : nat) : userE str.

Definition prog : Type -> Type := itree userE.

#[global] Instance prog_ret : MRet prog := fun _ a => Ret a.
#[global] Instance prog_bind : MBind prog := fun _ _ k m => ITree.bind m k.

Definition sys {X} (e : userE X) : prog X := ITree.trigger e.

(** A call that does not return. *)
Definition exit_ {A} (status : Z) : prog A := v ← sys (Exit status); match v : Empty_set with end.

(** ** What the calls do *)

(** What a descriptor refers to; the ends of a pipe carry the name of the pipe. *)
Inductive desc : Set :=
| DConsole
| DFile (path : str) (mode : Z)
| PipeR (name : list nat)
| PipeW (name : list nat).

Notation table := (gmap Z desc).

(** A process: a name of its own from which those of its pipes and children
    are made, its descriptors, its children, what the console will give it. *)
Record process := mkProcess { who : list nat; fds : table; kids : nat; input : str }.

#[global] Instance process_settable : Settable process := fun s =>
  mkProcess (who s) (fds s) (kids s) (input s).

(** What is seen of a process: the programs it becomes, with the descriptors
    they get, what its children do, the children it has waited for. *)
Inductive event : Set :=
| Ran (path : str) (argv : list str) (t : table)
| Child (l : list event)
| Reaped
| Cd (path : str)
| Wrote (fd : Z) (text : str)
| Exited (status : Z).

(** The lowest descriptor that is not open. *)
Definition lowest (t : table) : option Z :=
  head (filter (fun fd => t !! fd = None) (seqZ 0 (Z.of_nat NOFILE))).

(** [gets]: up to the end of the line, at most [max - 1] bytes; what it reads
    and what is left. *)
Fixpoint gets_split (max : nat) (l : str) : str * str :=
  match max with
  | S (S n) =>
      match l with
      | [] => ([], [])
      | c :: l => if (c =? 10) || (c =? 13) then ([c], l) else let r := gets_split (S n) l in (c :: fst r, snd r)
      end
  | _ => ([], l)
  end.

Definition child (s : process) : process := mkProcess (1%nat :: who s) (fds s) 0 [].
Definition forked (s : process) : process := s <| who ::= cons 2%nat |> <| kids ::= S |>.

(** What a program does from a state on, and whether every call succeeded. *)
Notation meaning := (process -> list event -> bool -> Prop).

Definition fails (k : meaning) : meaning := fun s l ok => ok = false /\ exists ok', k s l ok'.
Definition emits (v : event) (k : meaning) : meaning := fun s l ok => exists l', l = v :: l' /\ k s l' ok.
Definition either (k1 k2 : meaning) : meaning := fun s l ok => k1 s l ok \/ k2 s l ok.
Definition after (f : process -> process) (k : meaning) : meaning := fun s => k (f s).

Definition opens (d : desc) (k : Z -> meaning) : meaning := fun s =>
  match lowest (fds s) with
  | Some fd => after (fun s => s <| fds ::= <[fd := d]> |>) (k fd) s
  | None => fails (k (-1)) s
  end.

Definition answer {X} (e : userE X) : (X -> meaning) -> meaning :=
  match e with
  | Fork => fun k => either (fails (k (-1))) (fun s l ok => exists pid l1 ok1 l2 ok2, 0 < pid /\
      k 0 (child s) l1 ok1 /\ k pid (forked s) l2 ok2 /\ l = Child l1 :: l2 /\ ok = ok1 && ok2)
  | Exit st => fun _ => fun s l ok => l = [Exited st] /\ ok = true
  | Wait => fun k s => match kids s with
      | O => k (-1) s
      | S n => fun l ok => exists pid, 0 < pid /\ emits Reaped (after (fun s => s <| kids := n |>) (k pid)) s l ok
      end
  | Pipe => fun k => either (fun s l ok => exists p, fails (k (-1, p)) s l ok) (fun s => match lowest (fds s) with
      | Some p0 => match lowest (<[p0 := PipeR (who s)]> (fds s)) with
          | Some p1 => k (0, (p0, p1)) (s <| fds := <[p1 := PipeW (who s)]> (<[p0 := PipeR (who s)]> (fds s)) |> <| who ::= cons 0%nat |>)
          | None => fun _ _ => False
          end
      | None => fun _ _ => False
      end)
  | Exec path argv => fun k => either (fails (k (-1))) (fun s l ok => l = [Ran path argv (fds s)] /\ ok = true)
  | Open path mode => fun k => either (fails (k (-1))) (opens (DFile path mode) k)
  | Close fd => fun k s => match fds s !! fd with
      | Some _ => after (fun s => s <| fds ::= delete fd |>) (k 0) s
      | None => fails (k (-1)) s
      end
  | Dup fd => fun k s => match fds s !! fd with Some d => opens d k s | None => fails (k (-1)) s end
  | Chdir path => fun k => either (fails (k (-1))) (emits (Cd path) (k 0))
  | Write fd text => fun k => either (fails (k (-1))) (emits (Wrote fd text) (k (Z.of_nat (length text))))
  | Gets max => fun k s => let r := gets_split max (input s) in k (fst r) (s <| input := snd r |>)
  end.

(** [n] bounds the number of steps of one process. *)
Fixpoint run (n : nat) (t : prog Empty_set) : meaning :=
  match n with
  | O => fun _ _ _ => False
  | S n =>
      match observe t with
      | RetF v => match v : Empty_set with end
      | TauF t => run n t
      | VisF e k => answer e (fun x => run n (k x))
      end
  end.

(** The programs that are run, in the order of the text. *)
Fixpoint launches_of (v : event) : list (str * list str * table) :=
  match v with
  | Ran path argv t => [(path, argv, t)]
  | Child l => concat (launches_of <$> l)
  | _ => []
  end.
Definition launches (l : list event) : list (str * list str * table) := concat (launches_of <$> l).

(** ** Facts *)

Lemma lowest_Some t fd : lowest t = Some fd -> t !! fd = None /\ 0 <= fd < 16 /\ forall i, 0 <= i < fd -> is_Some (t !! i).
Proof.
  unfold lowest. change (Z.of_nat NOFILE) with 16. assert (H : forall n lo, head (filter (fun fd => t !! fd = None) (seqZ lo (Z.of_nat n))) = Some fd -> t !! fd = None /\ lo <= fd < lo + Z.of_nat n /\ forall i, lo <= i < fd -> is_Some (t !! i)).
  { induction n as [|n IH]; intros lo H; [done|]. rewrite seqZ_cons in H by lia. rewrite filter_cons in H. replace (Z.pred (Z.of_nat (S n))) with (Z.of_nat n) in H by lia. case_decide as E.
    - injection H as <-. split; [done|]. split; [lia|]. intros i Hi. lia.
    - apply IH in H as (H1 & H2 & H3). split; [done|]. split; [lia|]. intros i Hi. destruct (decide (i = lo)) as [->|]; [|apply H3; lia]. destruct (t !! lo); [by eexists|done]. }
  intros Hl. apply (H 16%nat 0 Hl).
Qed.

Lemma lowest_is t fd : t !! fd = None -> 0 <= fd < 16 -> (forall i, 0 <= i < fd -> is_Some (t !! i)) -> lowest t = Some fd.
Proof.
  intros H1 H2 H3. unfold lowest. change (Z.of_nat NOFILE) with 16. replace 16 with (fd + (16 - fd)) by lia. rewrite seqZ_app, list.filter_app by lia.
  assert (filter (fun x => t !! x = None) (seqZ 0 fd) = []) as ->.
  { assert (H : forall x, x ∈ seqZ 0 fd -> t !! x <> None) by (intros x Hx; apply elem_of_seqZ in Hx; destruct (H3 x) as [d ->]; [lia|done]).
    induction (seqZ 0 fd) as [|x l IH]; [done|]. rewrite filter_cons, decide_False by (apply H; left). apply IH. intros y Hy. apply H. by right. }
  rewrite seqZ_cons by lia. rewrite filter_cons. rewrite Z.add_0_l, decide_True by done. done.
Qed.

Lemma launches_app l l' : launches (l ++ l') = launches l ++ launches l'.
Proof. unfold launches. by rewrite fmap_app, concat_app. Qed.

Lemma launches_cons v l : launches (v :: l) = launches_of v ++ launches l.
Proof. done. Qed.

Lemma launches_child l : launches_of (Child l) = launches l.
Proof. done. Qed.

(** ** Running *)

Lemma fails_mono (k k' : meaning) s l ok : (forall s l ok, k s l ok -> k' s l ok) -> fails k s l ok -> fails k' s l ok.
Proof. intros H (-> & b & Hb). split; [done|]. exists b. auto. Qed.

Lemma opens_mono d (k k' : Z -> meaning) s l ok : (forall x s l ok, k x s l ok -> k' x s l ok) -> opens d k s l ok -> opens d k' s l ok.
Proof. intros H. unfold opens, after. destruct (lowest _); [apply H|apply fails_mono; auto]. Qed.

Lemma answer_mono {X} (e : userE X) (k k' : X -> meaning) s l ok :
  (forall x s l ok, k x s l ok -> k' x s l ok) -> answer e k s l ok -> answer e k' s l ok.
Proof.
  intros H. assert (Hf : forall x s l ok, fails (k x) s l ok -> fails (k' x) s l ok) by (intros x s' l' ok'; apply fails_mono; auto).
  destruct e; cbn [answer]; unfold either, emits, after.
  - intros [?|(pid & l1 & b1 & l2 & b2 & H1 & H2 & H3 & H4)]; [left; auto|right]. exists pid, l1, b1, l2, b2. auto.
  - done.
  - destruct (kids s); [auto|]. intros (pid & Hp & l' & -> & Hk). exists pid. split; [done|]. exists l'. auto.
  - intros [[p Hp]|Hk]; [left; exists p; auto|right]. destruct (lowest _); [|done]. destruct (lowest _); [auto|done].
  - intros [?|?]; [left; auto|by right].
  - intros [?|?]; [left; auto|right]. by eapply opens_mono.
  - destruct (_ !! _); auto.
  - destruct (_ !! _); [apply opens_mono; auto|auto].
  - intros [?|(l' & -> & Hk)]; [left; auto|right; exists l'; auto].
  - intros [?|(l' & -> & Hk)]; [left; auto|right; exists l'; auto].
  - auto.
Qed.

Lemma run_mono n m t s l ok : (n <= m)%nat -> run n t s l ok -> run m t s l ok.
Proof.
  revert m t s l ok. induction n as [|n IH]; intros [|m] t s l ok Hle; [done|done|lia|]. cbn [run]. destruct (observe t) as [[]|u|X e k]; [apply IH; lia|].
  apply answer_mono. intros x s' l' ok'. apply IH. lia.
Qed.

(** Bisimilar programs run alike. *)
Lemma run_eq n t u s l ok : eq_itree eq t u -> run n t s l ok -> run n u s l ok.
Proof.
  revert t u s l ok. induction n as [|n IH]; intros t u s l ok E; [done|]. cbn [run]. punfold E. red in E.
  remember (observe t) as ot eqn:Et. remember (observe u) as ou eqn:Eu. clear Et Eu. destruct E as [a b <-|m1 m2 E|X e k1 k2 E| |]; try done.
  - apply IH. by pclearbot.
  - apply answer_mono. intros x s' l' ok'. apply IH. specialize (E x). by pclearbot.
Qed.

#[export] Instance run_proper n : Proper (eq_itree eq ==> eq ==> eq ==> eq ==> iff) (run n).
Proof. intros t u E s ? <- l ? <- ok ? <-. split; apply run_eq; [done|by symmetry]. Qed.

Lemma bind_assoc {A B C} (m : prog A) (f : A -> prog B) (g : B -> prog C) : eq_itree eq ((m ≫= f) ≫= g) (m ≫= fun x => f x ≫= g).
Proof. apply bind_bind. Qed.

Lemma bind_ret {A B} (a : A) (f : A -> prog B) : eq_itree eq (mret a ≫= f) (f a).
Proof. apply bind_ret_l. Qed.

(** The next call of a program. *)
Lemma run_sys {X} n (e : userE X) k s l ok : run n (sys e ≫= k) s l ok <-> exists m, n = S m /\ answer e (fun x => run m (k x)) s l ok.
Proof.
  split.
  - destruct n as [|n]; [done|]. intros H. exists n. split; [done|]. cbn [run] in H. eapply answer_mono; [|exact H]. intros x s' l' ok'. apply run_eq. apply bind_ret_l.
  - intros (m & -> & H). cbn [run]. eapply answer_mono; [|exact H]. intros x s' l' ok'. apply run_eq. symmetry. apply bind_ret_l.
Qed.

Lemma run_exit {A} n st (k : A -> prog Empty_set) s l ok : run n (exit_ st ≫= k) s l ok -> l = [Exited st] /\ ok = true.
Proof. unfold exit_. rewrite bind_assoc. by intros (m & -> & H)%run_sys. Qed.

Lemma run_exits n st s l ok : run n (exit_ st) s l ok -> l = [Exited st] /\ ok = true.
Proof. by intros (m & -> & H)%run_sys. Qed.

(** The run of a program exists. *)
Definition can_run (t : prog Empty_set) (s : process) (l : list event) : Prop := exists n, run n t s l true.

Lemma can_sys {X} (e : userE X) k s l : (exists n, answer e (fun x => run n (k x)) s l true) -> can_run (sys e ≫= k) s l.
Proof. intros [n H]. exists (S n). apply run_sys. by exists n. Qed.

Lemma can_eq t u s l : eq_itree eq t u -> can_run u s l -> can_run t s l.
Proof. intros E [n H]. exists n. by rewrite E. Qed.

Lemma can_exit {A} st (k : A -> prog Empty_set) s : can_run (exit_ st ≫= k) s [Exited st].
Proof. eapply can_eq; [apply bind_assoc|]. apply can_sys. by exists 0%nat. Qed.

Lemma can_exits st s : can_run (exit_ st) s [Exited st].
Proof. apply can_sys. by exists 0%nat. Qed.

Lemma can_fork k s l1 l2 : can_run (k 0) (child s) l1 -> can_run (k 1) (forked s) l2 -> can_run (sys Fork ≫= k) s (Child l1 :: l2).
Proof.
  intros [n1 H1] [n2 H2]. apply can_sys. exists (n1 `max` n2)%nat. right. exists 1, l1, true, l2, true. split; [done|].
  split; [eapply run_mono; [|exact H1]; lia|]. split; [eapply run_mono; [|exact H2]; lia|]. done.
Qed.

Lemma can_close fd k s l : is_Some (fds s !! fd) -> can_run (k 0) (s <| fds ::= delete fd |>) l -> can_run (sys (Close fd) ≫= k) s l.
Proof. intros [d Hd] [n H]. apply can_sys. exists n. cbn [answer]. by rewrite Hd. Qed.

Lemma can_open path mode fd k s l : lowest (fds s) = Some fd -> can_run (k fd) (s <| fds ::= <[fd := DFile path mode]> |>) l -> can_run (sys (Open path mode) ≫= k) s l.
Proof. intros Hf [n H]. apply can_sys. exists n. right. unfold opens. by rewrite Hf. Qed.

Lemma can_dup fd d fd' k s l : fds s !! fd = Some d -> lowest (fds s) = Some fd' -> can_run (k fd') (s <| fds ::= <[fd' := d]> |>) l -> can_run (sys (Dup fd) ≫= k) s l.
Proof. intros Hd Hf [n H]. apply can_sys. exists n. cbn [answer]. unfold opens. by rewrite Hd, Hf. Qed.

Lemma can_wait k s l : kids s <> 0%nat -> can_run (k 1) (s <| kids ::= pred |>) l -> can_run (sys Wait ≫= k) s (Reaped :: l).
Proof.
  intros Hk [n H]. apply can_sys. exists n. cbn [answer]. destruct (kids s) as [|j] eqn:E; [done|]. exists 1. split; [done|]. exists l. split; [done|].
  unfold after. replace (s <| kids := j |>) with (s <| kids ::= pred |>); [done|]. destruct s. cbn in *. by rewrite E.
Qed.

Lemma can_write fd text k s l : can_run (k (Z.of_nat (length text))) s l -> can_run (sys (Write fd text) ≫= k) s (Wrote fd text :: l).
Proof. intros [n H]. apply can_sys. exists n. right. by exists l. Qed.

Lemma lowest_exists t fd : 0 <= fd < 16 -> t !! fd = None -> is_Some (lowest t).
Proof.
  intros H1 H2. unfold lowest. change (Z.of_nat NOFILE) with 16. assert (H : fd ∈ filter (fun fd => t !! fd = None) (seqZ 0 16)) by (apply list_elem_of_filter; split; [done|]; apply elem_of_seqZ; lia).
  destruct (filter _ _) as [|x l]; [by apply elem_of_nil in H|by eexists].
Qed.

(** ** Loops *)

Lemma iter_eq {R} (body : unit -> prog (unit + R)) (k : R -> prog Empty_set) :
  eq_itree eq (ITree.iter body tt ≫= k) (body tt ≫= fun r => match r with inl _ => Tau (ITree.iter body tt ≫= k) | inr r => k r end).
Proof.
  unfold mbind, prog_bind. rewrite (unfold_iter body tt), bind_bind. apply eqit_bind; [reflexivity|]. intros [[]|r]; cbn.
  - apply bind_tau.
  - apply bind_ret_l.
Qed.

Lemma run_tau n t s l ok : run n (Tau t) s l ok -> exists m, n = S m /\ run m t s l ok.
Proof. destruct n as [|n]; [done|]. intros H. by exists n. Qed.

Lemma can_tau t s l : can_run t s l -> can_run (Tau t) s l.
Proof. intros [n H]. by exists (S n). Qed.

(** What [gets] gives for a line. *)
Lemma gets_line max l rest : Forall (fun c => c <> 10 /\ c <> 13) l -> (length l + 1 < max)%nat ->
  gets_split max (l ++ 10 :: rest) = (l ++ [10], rest).
Proof.
  intros Hl. revert max. induction Hl as [|c l [H1 H2] _ IH]; intros [|[|max]] Hm; cbn in Hm; try lia; [done|].
  cbn [app gets_split]. rewrite (proj2 (Z.eqb_neq c 10)), (proj2 (Z.eqb_neq c 13)) by done. cbn [orb]. by rewrite IH by lia.
Qed.

Lemma gets_end max : gets_split max [] = ([], []).
Proof. by destruct max as [|[|max]]. Qed.

Lemma can_gets max k s l x rest : gets_split max (input s) = (x, rest) -> can_run (k x) (s <| input := rest |>) l -> can_run (sys (Gets max) ≫= k) s l.
Proof. intros E [n H]. apply can_sys. exists n. cbn [answer]. by rewrite E. Qed.

Lemma can_cd path k s l : can_run (k 0) s l -> can_run (sys (Chdir path) ≫= k) s (Cd path :: l).
Proof. intros [n H]. apply can_sys. exists n. right. by exists l. Qed.

Lemma can_bind {A B} (m : prog A) (f : A -> prog B) g s l : can_run (m ≫= fun x => f x ≫= g) s l -> can_run ((m ≫= f) ≫= g) s l.
Proof. apply can_eq, bind_assoc. Qed.

Lemma can_ret {A} (a : A) f s l : can_run (f a) s l -> can_run (mret a ≫= f) s l.
Proof. apply can_eq, bind_ret. Qed.
