(* ===== verification/ShRun.v ===== *)
(** * Running commands

    Model of the other half of [user/sh.c]: [runcmd], [fork1], [panic],
    [getcmd] and [main].  Pointers to words are the words.  The theorems say
    which programs are run for a command, and with which descriptors. *)
From stdpp Require Import base tactics list numbers gmap strings.
From S2P Require Import Prelude Machine User Sh ShRead ShReturns ShLine.
From ITree Require Import ITree ITreeFacts.

Open Scope Z_scope.

(** ** Code *)

Definition nl : str := [10].

(** [fprintf]; what it returns is not used. *)
Definition fprintf (fd : Z) (text : str) : prog unit := sys (Write fd text);; mret tt.

Definition panic {A} (s : string) : prog A := fprintf 2 (bytes_of s ++ nl);; exit_ 1.

Definition fork1 : prog Z :=
  pid ← sys Fork;
  if pid =? -1 then panic "fork" else mret pid.

(** Where a function that does not return is called. *)
Definition noreturn {A} (t : prog Empty_set) : prog A := v ← t; match v : Empty_set with end.

Fixpoint runcmd (c : cmd str) : prog Empty_set :=
  match c with
  | EXEC argv =>
      match argv with
      | [] => exit_ 1
      | a :: _ =>
          sys (Exec a argv);;
          fprintf 2 (bytes_of "exec " ++ a ++ bytes_of " failed" ++ nl);;
          exit_ 0
      end
  | REDIR c file mode fd =>
      sys (Close fd);;
      r ← sys (Open file mode);
      if r <? 0 then
        fprintf 2 (bytes_of "open " ++ file ++ bytes_of " failed" ++ nl);;
        exit_ 1
      else runcmd c
  | LIST cl cr =>
      pid ← fork1;
      if pid =? 0 then runcmd cl
      else
        sys Wait;;
        runcmd cr
  | PIPE cl cr =>
      r ← sys Pipe;
      let p0 := fst (snd r) in
      let p1 := snd (snd r) in
      if fst r <? 0 then panic "pipe"
      else
        pid ← fork1;
        if pid =? 0 then
          sys (Close 1);; sys (Dup p1);; sys (Close p0);; sys (Close p1);;
          runcmd cl
        else
          pid ← fork1;
          if pid =? 0 then
            sys (Close 0);; sys (Dup p0);; sys (Close p0);; sys (Close p1);;
            runcmd cr
          else
            sys (Close p0);; sys (Close p1);;
            sys Wait;; sys Wait;;
            exit_ 0
  | BACK c =>
      pid ← fork1;
      if pid =? 0 then runcmd c else exit_ 0
  end.

(** [buf[i]]. *)
Definition at_ (buf : str) (i : nat) : Z := default 0 (buf !! i).

(** The buffer is zero after what was read. *)
Definition getcmd (nbuf : nat) : prog (Z * str) :=
  sys (Write 2 (bytes_of "$ "));;
  l ← sys (Gets nbuf);
  let buf := l ++ replicate (nbuf - length l) 0 in
  if at_ buf 0 =? 0 then mret (-1, buf) else mret (0, buf).

Definition O_RDWR : Z := 2.

(** [parsecmd], with the words for the pointers to them. *)
Definition parse_line (line : str) : prog (cmd str) :=
  match parsecmd (4 * length line + 4) line with
  | Parsed (c, buf) _ => mret (cmd_map (word_at buf) c)
  | Panics msg => panic msg
  | NoFuel => ITree.spin
  end.

Definition open_step (_ : unit) : prog (unit + unit) :=
  fd ← sys (Open (bytes_of "console") O_RDWR);
  if 0 <=? fd then
    if 3 <=? fd then sys (Close fd);; mret (inr tt) else mret (inl tt)
  else mret (inr tt).

Definition main_step (_ : unit) : prog (unit + unit) :=
  r ← getcmd 100;
  let buf := snd r in
  if fst r <? 0 then mret (inr tt)
  else if (at_ buf 0 =? 99) && (at_ buf 1 =? 100) && (at_ buf 2 =? 32) then
    let buf := <[(length (string_of buf) - 1)%nat := 0]> buf in
    let dir := string_of (drop 3 buf) in
    e ← sys (Chdir dir);
    (if e <? 0 then fprintf 2 (bytes_of "cannot cd " ++ dir ++ nl) else mret tt);;
    mret (inl tt)
  else
    pid ← fork1;
    (if pid =? 0 then c ← parse_line (string_of buf); noreturn (runcmd c)
     else
       sys Wait;;
       mret (inl tt)).

Definition main : prog Empty_set :=
  ITree.iter open_step tt;;
  ITree.iter main_step tt;;
  exit_ 0.

(** ** What commands mean *)

(** The output of [c] is plumbed by changing the table: a redirection replaces
    one descriptor, a pipe replaces 1 on the left and 0 on the right. *)
Fixpoint plumb (c : cmd str) (w : list nat) (t : table) : list event :=
  match c with
  | EXEC argv => match argv with [] => [Exited 1] | a :: _ => [Ran a argv t] end
  | REDIR c file mode fd => plumb c w (<[fd := DFile file mode]> t)
  | LIST l r => Child (plumb l (1%nat :: w) t) :: Reaped :: plumb r (2%nat :: w) t
  | PIPE l r =>
      [Child (plumb l (1%nat :: 0%nat :: w) (<[1 := PipeW w]> t));
       Child (plumb r (1%nat :: 2%nat :: 0%nat :: w) (<[0 := PipeR w]> t)); Reaped; Reaped; Exited 0]
  | BACK c => [Child (plumb c (1%nat :: w) t); Exited 0]
  end.

(** Redirections of the standard descriptors only. *)
Fixpoint std_redirs (c : cmd str) : Prop :=
  match c with
  | EXEC _ => True
  | REDIR c _ _ fd => std_redirs c /\ (fd = 0 \/ fd = 1)
  | LIST l r | PIPE l r => std_redirs l /\ std_redirs r
  | BACK c => std_redirs c
  end.

Definition std_open (t : table) : Prop := forall fd, 0 <= fd < 3 -> is_Some (t !! fd).

Lemma std_open_insert t fd d : std_open t -> std_open (<[fd := d]> t).
Proof. intros H i Hi. destruct (decide (fd = i)) as [->|]; [rewrite lookup_insert_eq; by eexists|rewrite lookup_insert_ne by done; auto]. Qed.

(** [close(fd)] followed by a call that takes the lowest descriptor. *)
Lemma lowest_closed t fd : std_open t -> 0 <= fd < 3 -> lowest (delete fd t) = Some fd.
Proof.
  intros Ht Hfd. apply lowest_is; [apply lookup_delete_eq|lia|]. intros i Hi. rewrite lookup_delete_ne by lia. apply Ht. lia.
Qed.

Lemma lowest_above t fd : std_open t -> lowest t = Some fd -> 3 <= fd /\ t !! fd = None.
Proof.
  intros Ht (H1 & H2 & _)%lowest_Some. split; [|done]. destruct (decide (fd < 3)); [|lia]. destruct (Ht fd) as [d Hd]; [lia|]. by rewrite Hd in H1.
Qed.

Lemma insert_delete_same (t : table) fd d : <[fd := d]> (delete fd t) = <[fd := d]> t.
Proof. apply insert_delete_eq. Qed.

(** The table of a child of a pipe after its four calls. *)
Lemma child_table (t : table) fd d p0 p1 (d0 d1 : desc) : t !! p0 = None -> t !! p1 = None -> p0 <> p1 -> fd <> p0 -> fd <> p1 ->
  delete p1 (delete p0 (<[fd := d]> (delete fd (<[p1 := d1]> (<[p0 := d0]> t))))) = <[fd := d]> t.
Proof.
  intros H0 H1 N1 N2 N3. apply map_eq. intros i. destruct (decide (i = p1)) as [->|]; [rewrite lookup_delete_eq, lookup_insert_ne by done; done|].
  rewrite lookup_delete_ne by done. destruct (decide (i = p0)) as [->|]; [rewrite lookup_delete_eq, lookup_insert_ne by done; done|].
  rewrite lookup_delete_ne by done. destruct (decide (i = fd)) as [->|]; [by rewrite !lookup_insert_eq|]. rewrite !lookup_insert_ne by done. rewrite lookup_delete_ne by done. by rewrite !lookup_insert_ne by done.
Qed.

Lemma parent_table (t : table) p0 p1 (d0 d1 : desc) : t !! p0 = None -> t !! p1 = None -> p0 <> p1 -> delete p1 (delete p0 (<[p1 := d1]> (<[p0 := d0]> t))) = t.
Proof.
  intros H0 H1 N1. apply map_eq. intros i. destruct (decide (i = p1)) as [->|]; [by rewrite lookup_delete_eq|].
  rewrite lookup_delete_ne by done. destruct (decide (i = p0)) as [->|]; [by rewrite lookup_delete_eq|]. rewrite lookup_delete_ne, !lookup_insert_ne by done. done.
Qed.

(** ** Running a program for some steps *)

(** [l] is what [spec] says, or part of it when a call failed. *)
Definition agrees (l : list event) (ok : bool) (spec : list event) : Prop :=
  (ok = true -> l = spec) /\ launches l `sublist_of` launches spec.

Lemma agrees_none l spec : launches l = [] -> agrees l false spec.
Proof. intros H. split; [done|]. rewrite H. apply sublist_nil_l. Qed.

#[local] Arguments bytes_of : simpl never.

Lemma run_writes n fd text (k : unit -> prog Empty_set) s l ok : run n (fprintf fd text ≫= k) s l ok ->
  exists m l' ok', run m (k tt) s l' ok' /\ launches l = launches l' /\ (ok = true -> ok' = true /\ l = Wrote fd text :: l').
Proof.
  unfold fprintf. rewrite !bind_assoc. intros (m & -> & H)%run_sys. destruct H as [(-> & ok' & H)|(l' & -> & H)]; cbv beta in H; rewrite bind_ret in H.
  - by exists m, l, ok'.
  - by exists m, l', ok.
Qed.

Lemma run_panic {A} n msg (k : A -> prog Empty_set) s l ok : run n (panic msg ≫= k) s l ok -> launches l = [].
Proof.
  unfold panic. rewrite bind_assoc. intros (m & l' & ok' & H & -> & _)%run_writes. by apply run_exit in H as [-> _].
Qed.

Lemma run_panics n msg s l ok : run n (panic msg) s l ok -> launches l = [].
Proof. intros (m & l' & ok' & H & -> & _)%run_writes. by apply run_exits in H as [-> _]. Qed.

Lemma run_fork1 n (k : Z -> prog Empty_set) s l ok : run n (fork1 ≫= k) s l ok ->
  (ok = false /\ launches l = []) \/
  exists m pid l1 ok1 l2 ok2, 0 < pid /\ run m (k 0) (child s) l1 ok1 /\ run m (k pid) (forked s) l2 ok2 /\ l = Child l1 :: l2 /\ ok = ok1 && ok2.
Proof.
  unfold fork1. rewrite bind_assoc. intros (m & -> & [(-> & ok' & H)|(pid & l1 & ok1 & l2 & ok2 & Hp & H1 & H2 & -> & ->)])%run_sys.
  - left. split; [done|]. cbv beta in H. change (-1 =? -1) with true in H. cbv match in H. by eapply run_panic.
  - right. exists m, pid, l1, ok1, l2, ok2. change (0 =? -1) with false in H1. destruct (Z.eqb_spec pid (-1)); [lia|]. cbv match in H1, H2. rewrite bind_ret in H1, H2. done.
Qed.

(** What the parent adds to what the child does. *)
Lemma agrees_fork l1 ok1 l2 ok2 p1 p2 : agrees l1 ok1 p1 -> agrees l2 ok2 p2 -> agrees (Child l1 :: l2) (ok1 && ok2) (Child p1 :: p2).
Proof.
  intros [H1 H2] [H3 H4]. split.
  - intros [-> ->]%andb_true_iff. by rewrite H1, H3.
  - rewrite !launches_cons, !launches_child. by apply sublist_app.
Qed.

Lemma agrees_reaped l ok p : agrees l ok p -> agrees (Reaped :: l) ok (Reaped :: p).
Proof. intros [H1 H2]. split; [by intros ->%H1|done]. Qed.

(** Waiting for a child. *)
Lemma run_wait n (k : Z -> prog Empty_set) s l ok p : kids s <> 0%nat -> run n (sys Wait ≫= k) s l ok ->
  (forall m pid l', run m (k pid) (s <| kids ::= pred |>) l' ok -> agrees l' ok p) -> agrees l ok (Reaped :: p).
Proof.
  intros Hk (m & -> & H)%run_sys Ha. cbn [answer] in H. destruct (kids s) as [|j] eqn:E; [done|]. destruct H as (pid & _ & l' & -> & H).
  apply agrees_reaped, (Ha m pid). replace (s <| kids ::= pred |>) with (s <| kids := j |>); [done|]. destruct s. cbn in *. by rewrite E.
Qed.

(** The four calls of a child of a pipe. *)
Lemma run_child n fd p d (k : prog Empty_set) s l ok p0 p1 (t : table) d0 d1 : fds s = <[p1 := d1]> (<[p0 := d0]> t) -> std_open t -> 0 <= fd < 3 ->
  t !! p0 = None -> t !! p1 = None -> p0 <> p1 -> 3 <= p0 -> 3 <= p1 -> (p = p0 /\ d = d0 \/ p = p1 /\ d = d1) ->
  run n (sys (Close fd);; sys (Dup p);; sys (Close p0);; sys (Close p1);; k) s l ok ->
  exists m, run m k (s <| fds := <[fd := d]> t |>) l ok.
Proof.
  intros Hs Ht Hfd H0 H1 Hn G0 G1 Hp (m1 & -> & H)%run_sys. assert (Ht' : std_open (fds s)) by (rewrite Hs; by apply std_open_insert, std_open_insert).
  destruct (Ht' fd Hfd) as [x Hx]. cbn [answer] in H. rewrite Hx in H. apply run_sys in H as (m2 & -> & H). cbn [answer] in H.
  change (fds (s <| fds ::= delete fd |>)) with (delete fd (fds s)) in H. rewrite lookup_delete_ne in H by lia.
  assert (Hd : fds s !! p = Some d) by (rewrite Hs; destruct Hp as [[-> ->]|[-> ->]]; [by rewrite lookup_insert_ne, lookup_insert_eq|by rewrite lookup_insert_eq]).
  rewrite Hd in H. unfold opens in H. change (fds (s <| fds ::= delete fd |>)) with (delete fd (fds s)) in H. rewrite lowest_closed in H by done. unfold after in H.
  apply run_sys in H as (m3 & -> & H). cbn [answer] in H.
  match type of H with context [fds ?u !! p0] => set (s3 := u) in H end. assert (E3 : fds s3 = <[fd := d]> (delete fd (fds s))) by done.
  destruct (fds s3 !! p0) as [y|] eqn:Hy; [|rewrite E3, lookup_insert_ne, lookup_delete_ne, Hs, lookup_insert_ne, lookup_insert_eq in Hy by lia; done].
  unfold after in H. apply run_sys in H as (m4 & -> & H). cbn [answer] in H. change (fds (s3 <| fds ::= delete p0 |>)) with (delete p0 (fds s3)) in H.
  destruct (delete p0 (fds s3) !! p1) as [z|] eqn:Hz; [|rewrite lookup_delete_ne, E3, lookup_insert_ne, lookup_delete_ne, Hs, lookup_insert_eq in Hz by lia; done].
  unfold after in H. exists m4. match type of H with run _ _ ?u _ _ => replace u with (s <| fds := <[fd := d]> t |>) in H; [done|] end.
  rewrite <- (child_table t fd d p0 p1 d0 d1) by (done || lia). rewrite <- Hs. by destruct s.
Qed.

Lemma run_close n fd (k : Z -> prog Empty_set) s l ok : is_Some (fds s !! fd) -> run n (sys (Close fd) ≫= k) s l ok ->
  exists m, run m (k 0) (s <| fds ::= delete fd |>) l ok.
Proof. intros [d Hd] (m & -> & H)%run_sys. cbn [answer] in H. rewrite Hd in H. by exists m. Qed.

Lemma runcmd_agrees c : forall n s l ok, std_redirs c -> std_open (fds s) -> run n (runcmd c) s l ok -> agrees l ok (plumb c (who s) (fds s)).
Proof.
  induction c as [argv|c IH file mode fd|cl IHl cr IHr|cl IHl cr IHr|c IH]; intros n s l ok Hc Hs H; cbn [runcmd plumb] in *.
  - destruct argv as [|a argv]; [by apply run_exits in H as [-> ->]|]. apply run_sys in H as (m & -> & [(-> & ok' & H)|[-> ->]]); [|done].
    apply run_writes in H as (m' & l' & ok2 & H & E & _). apply run_exits in H as [-> _]. by apply agrees_none.
  - destruct Hc as [Hc Hfd]. assert (Hr : 0 <= fd < 3) by lia. apply run_close in H as (m & H); [|by apply Hs].
    apply run_sys in H as (m' & -> & [(-> & ok' & H)|H]).
    + change (-1 <? 0) with true in H. cbv match in H. apply run_writes in H as (m2 & l' & ok2 & H & E & _). apply run_exits in H as [-> _]. by apply agrees_none.
    + unfold opens, after in H. change (fds (s <| fds ::= delete fd |>)) with (delete fd (fds s)) in H. rewrite lowest_closed in H by done. destruct (Z.ltb_spec fd 0); [lia|].
      match type of H with run _ _ ?u _ _ => assert (G := IH m' u l ok Hc); assert (E : fds u = <[fd := DFile file mode]> (fds s)) by apply insert_delete_same; change (who s) with (who u); rewrite <- E end.
      apply G; [|done]. rewrite E. by apply std_open_insert.
  - destruct Hc as [Hl Hr]. apply run_sys in H as (m & -> & [((p0 & p1) & -> & ok' & H)|H]).
    { apply agrees_none. cbn in H. by apply run_panics in H. }
    destruct (lowest (fds s)) as [p0|] eqn:L0; [|done]. destruct (lowest (<[p0 := PipeR (who s)]> (fds s))) as [p1|] eqn:L1; [|done].
    apply lowest_above in L0 as [G0 N0]; [|done]. apply lowest_above in L1 as [G1 N1]; [|by apply std_open_insert].
    assert (Hn : p0 <> p1) by (intros ->; by rewrite lookup_insert_eq in N1). rewrite lookup_insert_ne in N1 by done.
    cbn [fst snd] in H. change (0 <? 0) with false in H. cbv match in H.
    set (t := <[p1 := PipeW (who s)]> (<[p0 := PipeR (who s)]> (fds s))) in H. set (s1 := s <| fds := t |> <| who ::= cons 0%nat |>) in H.
    apply run_fork1 in H as [[-> Hl']|(m1 & pid & l1 & ok1 & l2 & ok2 & Hp & H1 & H2 & -> & ->)]; [by apply agrees_none|].
    change (0 =? 0) with true in H1. cbv match in H1. destruct (Z.eqb_spec pid 0) as [|_]; [lia|].
    apply (run_child _ 1 p1 (PipeW (who s)) _ _ _ _ p0 p1 (fds s) (PipeR (who s)) (PipeW (who s))) in H1 as (m2 & H1); try done; try lia; [|by right].
    apply IHl in H1; [|done|by apply std_open_insert]. apply agrees_fork; [exact H1|].
    apply run_fork1 in H2 as [[-> Hl']|(m3 & pid2 & l3 & ok3 & l4 & ok4 & Hp2 & H3 & H4 & -> & ->)]; [by apply agrees_none|].
    change (0 =? 0) with true in H3. cbv match in H3. destruct (Z.eqb_spec pid2 0) as [|_]; [lia|].
    apply (run_child _ 0 p0 (PipeR (who s)) _ _ _ _ p0 p1 (fds s) (PipeR (who s)) (PipeW (who s))) in H3 as (m4 & H3); try done; try lia; [|by left].
    apply IHr in H3; [|done|by apply std_open_insert]. apply agrees_fork; [exact H3|].
    apply run_close in H4 as (m5 & H4); [|cbn; unfold t; rewrite lookup_insert_ne, lookup_insert_eq by done; by eexists].
    apply run_close in H4 as (m6 & H4); [|cbn; unfold t; rewrite lookup_delete_ne, lookup_insert_eq by done; by eexists].
    eapply run_wait; [|exact H4|]; [done|]. intros m7 p7 l7 H7. eapply run_wait; [|exact H7|]; [done|]. intros m8 p8 l8 H8. by apply run_exits in H8 as [-> ->].
  - destruct Hc as [Hl Hr]. apply run_fork1 in H as [[-> Hl']|(m1 & pid & l1 & ok1 & l2 & ok2 & Hp & H1 & H2 & -> & ->)]; [by apply agrees_none|].
    change (0 =? 0) with true in H1. cbv match in H1. destruct (Z.eqb_spec pid 0) as [|_]; [lia|]. apply IHl in H1; [|done|done]. apply agrees_fork; [exact H1|].
    eapply run_wait; [|exact H2|]; [done|]. intros m7 p7 l7 H7. by apply IHr in H7.
  - apply run_fork1 in H as [[-> Hl']|(m1 & pid & l1 & ok1 & l2 & ok2 & Hp & H1 & H2 & -> & ->)]; [by apply agrees_none|].
    change (0 =? 0) with true in H1. cbv match in H1. destruct (Z.eqb_spec pid 0) as [|_]; [lia|]. apply IH in H1; [|done|done]. apply agrees_fork; [exact H1|]. by apply run_exits in H2 as [-> ->].
Qed.

(** ** Runs exist *)

Lemma can_fork1 k s l1 l2 : can_run (k 0) (child s) l1 -> can_run (k 1) (forked s) l2 -> can_run (fork1 ≫= k) s (Child l1 :: l2).
Proof.
  intros H1 H2. eapply can_eq; [apply bind_assoc|]. apply can_fork; (eapply can_eq; [apply bind_ret|done]).
Qed.

(** Two more descriptors can be opened. *)
Definition room (t : table) : Prop := exists a b, a <> b /\ 3 <= a < 16 /\ 3 <= b < 16 /\ t !! a = None /\ t !! b = None.

Lemma room_insert t fd d : 0 <= fd < 3 -> room t -> room (<[fd := d]> t).
Proof. intros Hfd (a & b & H1 & H2 & H3 & H4 & H5). exists a, b. rewrite !lookup_insert_ne by lia. done. Qed.

Lemma room_lowest t d : room t -> exists p0 p1, lowest t = Some p0 /\ lowest (<[p0 := d]> t) = Some p1.
Proof.
  intros (a & b & H1 & H2 & H3 & H4 & H5). destruct (lowest_exists t a) as [p0 E0]; [lia|done|]. exists p0.
  destruct (decide (p0 = a)) as [->|].
  - destruct (lowest_exists (<[a := d]> t) b) as [p1 E1]; [lia|by rewrite lookup_insert_ne|]. by exists p1.
  - destruct (lowest_exists (<[p0 := d]> t) a) as [p1 E1]; [lia|by rewrite lookup_insert_ne|]. by exists p1.
Qed.

Lemma can_child fd p d (k : prog Empty_set) s l p0 p1 (t : table) d0 d1 : fds s = <[p1 := d1]> (<[p0 := d0]> t) -> std_open t -> 0 <= fd < 3 ->
  t !! p0 = None -> t !! p1 = None -> p0 <> p1 -> 3 <= p0 -> 3 <= p1 -> (p = p0 /\ d = d0 \/ p = p1 /\ d = d1) ->
  can_run k (s <| fds := <[fd := d]> t |>) l ->
  can_run (sys (Close fd);; sys (Dup p);; sys (Close p0);; sys (Close p1);; k) s l.
Proof.
  intros Hs Ht Hfd H0 H1 Hn G0 G1 Hp H. assert (Ht' : std_open (fds s)) by (rewrite Hs; by apply std_open_insert, std_open_insert).
  apply can_close; [by apply Ht'|]. eapply (can_dup _ d fd).
  - cbn. rewrite lookup_delete_ne by lia. rewrite Hs. destruct Hp as [[-> ->]|[-> ->]]; [by rewrite lookup_insert_ne, lookup_insert_eq|by rewrite lookup_insert_eq].
  - by apply lowest_closed.
  - apply can_close; [cbn; rewrite lookup_insert_ne, lookup_delete_ne, Hs, lookup_insert_ne, lookup_insert_eq by lia; by eexists|].
    apply can_close; [cbn; rewrite lookup_delete_ne, lookup_insert_ne, lookup_delete_ne, Hs, lookup_insert_eq by lia; by eexists|].
    match goal with |- can_run _ ?u _ => replace u with (s <| fds := <[fd := d]> t |>); [done|] end.
    rewrite <- (child_table t fd d p0 p1 d0 d1) by (done || lia). rewrite <- Hs. by destruct s.
Qed.

Lemma runcmd_can c : forall s, std_redirs c -> std_open (fds s) -> room (fds s) -> can_run (runcmd c) s (plumb c (who s) (fds s)).
Proof.
  induction c as [argv|c IH file mode fd|cl IHl cr IHr|cl IHl cr IHr|c IH]; intros s Hc Hs Hr; cbn [runcmd plumb] in *.
  - destruct argv as [|a argv]; [apply can_exits|]. apply can_sys. exists 0%nat. by right.
  - destruct Hc as [Hc Hfd]. assert (Hfd' : 0 <= fd < 3) by lia. apply can_close; [by apply Hs|]. apply (can_open _ _ fd); [by apply lowest_closed|].
    destruct (Z.ltb_spec fd 0); [lia|]. set (u := _ <| fds ::= <[fd := _]> |>). assert (E : fds u = <[fd := DFile file mode]> (fds s)) by apply insert_delete_same.
    change (who s) with (who u). rewrite <- E. apply IH; [done|rewrite E; by apply std_open_insert|rewrite E; by apply room_insert].
  - destruct Hc as [Hcl Hcr]. destruct (room_lowest (fds s) (PipeR (who s)) Hr) as (p0 & p1 & L0 & L1). apply can_sys.
    enough (H : can_run (pid ← fork1; if pid =? 0 then sys (Close 1);; sys (Dup p1);; sys (Close p0);; sys (Close p1);; runcmd cl else
      pid ← fork1; if pid =? 0 then sys (Close 0);; sys (Dup p0);; sys (Close p0);; sys (Close p1);; runcmd cr else
      sys (Close p0);; sys (Close p1);; sys Wait;; sys Wait;; exit_ 0)
      (s <| fds := <[p1 := PipeW (who s)]> (<[p0 := PipeR (who s)]> (fds s)) |> <| who ::= cons 0%nat |>) (plumb (PIPE cl cr) (who s) (fds s))).
    { destruct H as [n H]. exists n. right. rewrite L0, L1. exact H. }
    apply lowest_above in L0 as [G0 N0]; [|done]. apply lowest_above in L1 as [G1 N1]; [|by apply std_open_insert].
    assert (Hn : p0 <> p1) by (intros ->; by rewrite lookup_insert_eq in N1). rewrite lookup_insert_ne in N1 by done. cbn [plumb].
    apply can_fork1; [|apply can_fork1].
    + eapply (can_child 1 p1 (PipeW (who s)) _ _ _ p0 p1 (fds s)); try done; try lia; [by right|]. apply IHl; [done|by apply std_open_insert|by apply room_insert].
    + eapply (can_child 0 p0 (PipeR (who s)) _ _ _ p0 p1 (fds s)); try done; try lia; [by left|]. apply IHr; [done|by apply std_open_insert|by apply room_insert].
    + apply can_close; [cbn; rewrite lookup_insert_ne, lookup_insert_eq by done; by eexists|].
      apply can_close; [cbn; rewrite lookup_delete_ne, lookup_insert_eq by done; by eexists|].
      apply can_wait; [done|]. apply can_wait; [done|]. apply can_exits.
  - destruct Hc as [Hcl Hcr]. apply can_fork1; [by apply (IHl (child s))|]. apply can_wait; [done|]. change (can_run (runcmd cr) (forked s <| kids ::= pred |>) (plumb cr (who (forked s <| kids ::= pred |>)) (fds (forked s <| kids ::= pred |>)))). by apply IHr.
  - apply can_fork1; [by apply (IH (child s))|]. apply can_exits.
Qed.

(** ** A session *)

(** What is typed: commands, and changes of directory. *)
Variant line : Type := LCmd (c : cmd str) | LCd (dir : str).

Definition line_text (x : line) : str := match x with LCmd c => typed c | LCd dir => bytes_of "cd " ++ dir ++ [10] end.

Definition is_cd (l : str) : bool := (at_ l 0 =? 99) && (at_ l 1 =? 100) && (at_ l 2 =? 32).

(** Lines that fit the buffer of the shell. *)
Definition line_ok (x : line) : Prop := (length (line_text x) < 100)%nat /\
  match x with
  | LCmd c => cmd_ok c /\ show c <> [] /\ is_cd (typed c) = false
  | LCd dir => Forall (fun c => c <> 10 /\ c <> 13 /\ c <> 0) dir
  end.

(** What the shell does: for each line the prompt, and a child that runs the
    command and is waited for. *)
Fixpoint session (w : list nat) (t : table) (xs : list line) : list event :=
  match xs with
  | [] => [Wrote 2 (bytes_of "$ "); Exited 0]
  | LCmd c :: xs => Wrote 2 (bytes_of "$ ") :: Child (plumb c (1%nat :: w) t) :: Reaped :: session (2%nat :: w) t xs
  | LCd dir :: xs => Wrote 2 (bytes_of "$ ") :: Cd dir :: session w t xs
  end.

(** The standard descriptors that were not open are the console. *)
Definition console : desc := DFile (bytes_of "console") O_RDWR.
Definition fill (t : table) : table := t ∪ list_to_map [(0, console); (1, console); (2, console)].

Lemma fill_lookup t fd : fill t !! fd = match t !! fd with Some d => Some d | None => if (0 <=? fd) && (fd <? 3) then Some console else None end.
Proof.
  unfold fill. destruct (t !! fd) as [d|] eqn:E; [by apply lookup_union_Some_l|]. rewrite lookup_union_r by done. cbn.
  destruct (Z.leb_spec 0 fd), (Z.ltb_spec fd 3); cbn [andb]; try (rewrite !lookup_insert_ne by lia; done).
  assert (fd = 0 \/ fd = 1 \/ fd = 2) as [->|[->| ->]] by lia; by simplify_map_eq.
Qed.

Lemma fill_insert t fd : t !! fd = None -> 0 <= fd < 3 -> fill (<[fd := console]> t) = fill t.
Proof.
  intros Hn Hfd. apply map_eq. intros i. rewrite !fill_lookup. destruct (decide (fd = i)) as [->|]; [|by rewrite lookup_insert_ne].
  rewrite lookup_insert_eq, Hn. by destruct (Z.leb_spec 0 i), (Z.ltb_spec i 3); try lia.
Qed.

Lemma fill_open t : std_open t -> fill t = t.
Proof.
  intros Ht. apply map_eq. intros i. rewrite fill_lookup. destruct (t !! i) as [d|] eqn:E; [done|].
  destruct (Z.leb_spec 0 i), (Z.ltb_spec i 3); cbn [andb]; try done. destruct (Ht i) as [d Hd]; [lia|]. by rewrite Hd in E.
Qed.

Lemma std_open_fill t : std_open (fill t).
Proof. intros i Hi. rewrite fill_lookup. destruct (t !! i); [by eexists|]. destruct (Z.leb_spec 0 i), (Z.ltb_spec i 3); try lia. by eexists. Qed.

Lemma lowest_std t fd : lowest t = Some fd -> 3 <= fd -> std_open t.
Proof. intros (H1 & H2 & H3)%lowest_Some Hfd i Hi. apply H3. lia. Qed.

Definition opened (s : process) (t : table) : process := s <| fds := t |>.

(** The loop that opens the console. *)
Lemma run_open_loop (k : unit -> prog Empty_set) n : forall s l ok, run n (ITree.iter open_step tt ≫= k) s l ok ->
  exists m t ok', run m (k tt) (opened s t) l ok' /\ (ok = true -> ok' = true /\ t = fill (fds s)) /\ (std_open (fds s) -> t = fds s).
Proof.
  induction n as [n IH] using lt_wf_ind. intros s l ok H. rewrite iter_eq in H. unfold open_step in H. rewrite bind_assoc in H. apply run_sys in H as (m & -> & H).
  destruct H as [(-> & ok' & H)|H].
  { change (0 <=? -1) with false in H. cbv match in H. rewrite bind_ret in H. exists m, (fds s), ok'. split; [by destruct s|done]. }
  unfold opens, after in H. destruct (lowest (fds s)) as [fd|] eqn:L.
  - assert (Hl := lowest_Some _ _ L). destruct Hl as (N & R & _). destruct (Z.leb_spec 0 fd); [|lia]. destruct (Z.leb_spec 3 fd) as [Hge|Hlt].
    + rewrite bind_assoc in H. apply run_close in H as (m' & H); [|cbn; rewrite lookup_insert_eq; by eexists]. rewrite bind_ret in H.
      assert (Hs := lowest_std _ _ L Hge). exists m', (fds s), ok. split; [|by rewrite fill_open].
      match type of H with run _ _ ?u _ _ => replace u with (opened s (fds s)) in H; [done|] end. unfold opened. destruct s; cbn. f_equal. symmetry. by apply delete_insert_id.
    + rewrite bind_ret in H. apply run_tau in H as (m' & -> & H). apply IH in H as (m2 & t & ok' & H & H1 & H2); [|lia]. exists m2, t, ok'. split; [done|]. split.
      * intros [-> ->]%H1. split; [done|]. apply fill_insert; [done|lia].
      * intros Hs. destruct (Hs fd) as [d Hd]; [lia|]. by rewrite Hd in N.
  - destruct H as (-> & ok' & H). change (0 <=? -1) with false in H. cbv match in H. rewrite bind_ret in H. exists m, (fds s), ok'. split; [by destruct s|done].
Qed.

(** ** Reading a line *)

Definition buffer (x : str) : str := x ++ replicate (100 - length x) 0.

Lemma run_getcmd n (k : Z * str -> prog Empty_set) s l ok x rest : gets_split 100 (input s) = (x, rest) -> run n (getcmd 100 ≫= k) s l ok ->
  exists m l' ok', run m (k (if at_ (buffer x) 0 =? 0 then -1 else 0, buffer x)) (s <| input := rest |>) l' ok' /\
    launches l = launches l' /\ (ok = true -> ok' = true /\ l = Wrote 2 (bytes_of "$ ") :: l').
Proof.
  intros Hg. unfold getcmd. rewrite bind_assoc. intros (m & -> & H)%run_sys.
  assert (R : forall l ok, run m ((l ← sys (Gets 100); let buf := l ++ replicate (100 - length l) 0 in if at_ buf 0 =? 0 then mret (-1, buf) else mret (0, buf)) ≫= k) s l ok ->
    exists m', run m' (k (if at_ (buffer x) 0 =? 0 then -1 else 0, buffer x)) (s <| input := rest |>) l ok).
  { intros l' ok' H'. rewrite bind_assoc in H'. apply run_sys in H' as (m' & -> & H'). cbn [answer] in H'. rewrite Hg in H'. cbn [fst snd] in H'. fold (buffer x) in H'. cbv zeta in H'.
    exists m'. destruct (at_ (buffer x) 0 =? 0); by rewrite bind_ret in H'. }
  destruct H as [(-> & ok' & H)|(l' & -> & H)]; apply R in H as [m' H].
  - by exists m', l, ok'.
  - by exists m', l', ok.
Qed.

Lemma show_chars c : cmd_ok c -> Forall (fun c => c <> 10 /\ c <> 13 /\ c <> 0) (show c).
Proof.
  intros Hok. unfold show. assert (Ht := unparse_ok 0 c Hok). induction Ht as [|t ts Ht _ IH]; [constructor|]. rewrite render_cons. apply Forall_app_2; [|constructor; [lia|done]].
  destruct t as [w|x|]; cbn in *.
  - destruct Ht as [_ Hw]. eapply list.Forall_impl; [exact Hw|]. intros a [Ha Hn]. split; [intros ->; done|]. split; [intros ->; done|done].
  - constructor; [|constructor]. revert Ht. rewrite !elem_of_cons, elem_of_nil. intros [->|[->|[->|[->|[->|[->|[->|[]]]]]]]]; done.
  - repeat constructor; done.
Qed.

Lemma line_chars x : line_ok x -> exists l, line_text x = l ++ [10] /\ Forall (fun c => c <> 10 /\ c <> 13 /\ c <> 0) l.
Proof.
  intros [_ Hx]. destruct x as [c|dir]; cbn [line_text].
  - destruct Hx as (Hok & Hne & _). destruct (typed_show c Hne) as (l & E & ->). exists l. split; [done|]. assert (H := show_chars c Hok). rewrite E in H. by apply Forall_app in H as [H _].
  - exists (bytes_of "cd " ++ dir). split; [by rewrite <- app_assoc|]. apply Forall_app_2; [|done]. by repeat constructor.
Qed.

Lemma line_gets x rest : line_ok x -> gets_split 100 (line_text x ++ rest) = (line_text x, rest).
Proof.
  intros Hx. assert (Hl := proj1 Hx). destruct (line_chars x Hx) as (l & E & Hc). rewrite E in *. rewrite length_app in Hl. cbn in Hl.
  rewrite <- app_assoc. apply gets_line; [|lia]. eapply list.Forall_impl; [exact Hc|]. naive_solver.
Qed.

Lemma line_string x : line_ok x -> string_of (buffer (line_text x)) = line_text x /\ (at_ (buffer (line_text x)) 0 =? 0) = false.
Proof.
  intros Hx. assert (Hl := proj1 Hx). destruct (line_chars x Hx) as (l & E & Hc). unfold buffer. destruct (100 - length (line_text x))%nat as [|j] eqn:Ej; [lia|].
  assert (Hz : Forall (fun c => c <> 0) (line_text x)) by (rewrite E; apply Forall_app_2; [eapply list.Forall_impl; [exact Hc|]; naive_solver|by constructor]).
  split; [by apply string_of_app|]. destruct (line_text x) as [|c l'] eqn:E'; [by destruct l|]. apply list.Forall_cons in Hz as [Hz _]. cbn. by apply Z.eqb_neq.
Qed.

Lemma buffer_cd l : is_cd (buffer l) = is_cd l.
Proof.
  assert (H : forall i, at_ (buffer l) i = at_ l i).
  { intros i. unfold at_, buffer. destruct (decide (i < length l)%nat); [by rewrite lookup_app_l|]. rewrite lookup_app_r, (lookup_ge_None_2 l) by lia.
    destruct (replicate _ _ !! _) as [z|] eqn:E; [|done]. by apply lookup_replicate in E as [-> _]. }
  unfold is_cd. by rewrite !H.
Qed.

Lemma cd_dir dir : line_ok (LCd dir) -> let buf := buffer (line_text (LCd dir)) in
  string_of (drop 3 (<[(length (string_of buf) - 1)%nat := 0]> buf)) = dir.
Proof.
  intros Hx buf. assert (Hs := proj1 (line_string _ Hx)). fold buf in Hs. rewrite Hs. assert (E : buf = bytes_of "cd " ++ dir ++ 10 :: replicate (100 - length (line_text (LCd dir))) 0).
  { unfold buf, buffer. cbn [line_text]. by rewrite <- !app_assoc. }
  rewrite E. cbn [line_text]. set (h := bytes_of "cd "). assert (Hh : length h = 3%nat) by done. rewrite !length_app, Hh, (app_assoc h dir). cbn [length].
  rewrite insert_app_r_alt by (rewrite length_app, Hh; lia). rewrite length_app, Hh. replace (3 + (length dir + 1) - 1 - (3 + length dir))%nat with 0%nat by lia.
  rewrite <- app_assoc, drop_app_length' by done. cbn. apply string_of_app. destruct Hx as [_ Hd]. eapply list.Forall_impl; [exact Hd|]. naive_solver.
Qed.

Lemma cmd_ok_redirs c : cmd_ok c -> std_redirs c.
Proof. induction c; cbn; try naive_solver. Qed.

Lemma noreturn_eq {A} (t : prog Empty_set) (f : A -> prog Empty_set) : eq_itree eq (noreturn t ≫= f) t.
Proof.
  unfold noreturn. rewrite bind_assoc. transitivity (ITree.bind t (fun v => Ret v)); [|apply bind_ret_r]. apply eqit_bind; [reflexivity|]. intros [].
Qed.

Lemma parse_line_typed c : cmd_ok c -> show c <> [] -> parse_line (typed c) = mret c.
Proof.
  intros Hok Hne. unfold parse_line. destruct (parse_typed c (4 * length (typed c) + 4) Hok Hne (le_n _)) as (t & buf & s & -> & E). by rewrite E.
Qed.

Lemma agrees_wrote l l' ok ok' p fd text : launches l = launches l' -> (ok = true -> ok' = true /\ l = Wrote fd text :: l') -> agrees l' ok' p ->
  agrees l ok (Wrote fd text :: p).
Proof. intros E H [H1 H2]. split; [intros [Hok ->]%H; by rewrite (H1 Hok)|by rewrite E]. Qed.

Lemma agrees_cd l ok p dir : agrees l ok p -> agrees (Cd dir :: l) ok (Cd dir :: p).
Proof. intros [H1 H2]. split; [by intros ->%H1|done]. Qed.

Lemma agrees_failed l ok p p' : agrees l ok p -> launches p = launches p' -> agrees l false p'.
Proof. intros [_ H] E. split; [done|]. by rewrite <- E. Qed.

(** The loop of [main]. *)
Definition reading : prog Empty_set := ITree.iter main_step tt ≫= fun _ => exit_ 0.

Definition next_line (r : unit + unit) : prog Empty_set := match r with inl _ => Tau reading | inr _ => exit_ 0 end.

Lemma reading_eq : eq_itree eq reading (main_step tt ≫= next_line).
Proof. unfold reading. rewrite iter_eq. reflexivity. Qed.

(** The part of [main_step] after the line was read. *)
Definition handle (buf : str) : prog (unit + unit) :=
  if is_cd buf then
    let buf := <[(length (string_of buf) - 1)%nat := 0]> buf in
    let dir := string_of (drop 3 buf) in
    e ← sys (Chdir dir);
    (if e <? 0 then fprintf 2 (bytes_of "cannot cd " ++ dir ++ nl) else mret tt);;
    mret (inl tt)
  else
    pid ← fork1;
    (if pid =? 0 then c ← parse_line (string_of buf); noreturn (runcmd c)
     else
       sys Wait;;
       mret (inl tt)).

Lemma reading_line : eq_itree eq reading (getcmd 100 ≫= fun r => (if fst r <? 0 then mret (inr tt) else handle (snd r)) ≫= next_line).
Proof. rewrite reading_eq. unfold main_step. rewrite bind_assoc. reflexivity. Qed.

Lemma run_reading xs : forall n s l ok, Forall line_ok xs -> input s = concat (line_text <$> xs) -> std_open (fds s) ->
  run n reading s l ok -> agrees l ok (session (who s) (fds s) xs).
Proof.
  induction xs as [|x xs IH]; intros n s l ok Hxs Hin Hs H; rewrite reading_line in H; cbn [fmap list_fmap concat session] in *.
  - apply (run_getcmd _ _ _ _ _ [] []) in H as (m & l' & ok' & H & E & Hl); [|rewrite Hin; apply gets_end]. change (-1 <? 0) with true in H. cbn [at_] in H.
    change (if at_ (buffer []) 0 =? 0 then -1 else 0) with (-1) in H. cbn [fst] in H. change (-1 <? 0) with true in H. cbv match in H. rewrite bind_ret in H. apply run_exits in H as [-> ->].
    by apply (agrees_wrote _ _ _ _ _ _ _ E Hl).
  - apply list.Forall_cons in Hxs as [Hx Hxs]. destruct (line_string x Hx) as [Hstr Hhd].
    apply (run_getcmd _ _ _ _ _ (line_text x) (concat (line_text <$> xs))) in H as (m & l' & ok' & H & E & Hl); [|rewrite Hin; by apply line_gets].
    rewrite Hhd in H. cbn [fst snd] in H. change (0 <? 0) with false in H. cbv match in H. set (s1 := s <| input := concat (line_text <$> xs) |>) in H.
    unfold handle in H. rewrite buffer_cd in H. destruct x as [c|dir].
    + assert (Hc := proj2 Hx). destruct Hc as (Hok & Hne & Hcd). cbn [line_text] in *. rewrite Hcd in H. cbv match in H. rewrite bind_assoc in H.
      apply (agrees_wrote _ _ _ _ _ _ _ E Hl). apply run_fork1 in H as [[-> Hl']|(m1 & pid & l1 & ok1 & l2 & ok2 & Hp & H1 & H2 & -> & ->)]; [by apply agrees_none|].
      change (0 =? 0) with true in H1. cbv match in H1. destruct (Z.eqb_spec pid 0) as [|_]; [lia|].
      rewrite Hstr, (parse_line_typed c Hok Hne), bind_ret, noreturn_eq in H1. apply runcmd_agrees in H1; [|by apply cmd_ok_redirs|done]. apply agrees_fork; [exact H1|].
      rewrite bind_assoc in H2. eapply run_wait; [|exact H2|]; [done|]. intros m7 p7 l7 H7. cbv beta in H7. rewrite bind_ret in H7. apply run_tau in H7 as (m8 & -> & H7). by apply IH in H7.
    + assert (Hcd : is_cd (line_text (LCd dir)) = true) by done. rewrite Hcd in H. cbv match zeta in H. rewrite bind_assoc in H. rewrite (cd_dir dir Hx) in H.
      apply (agrees_wrote _ _ _ _ _ _ _ E Hl). apply run_sys in H as (m1 & -> & [(-> & ok2 & H)|(l2 & -> & H)]).
      * change (-1 <? 0) with true in H. cbv match in H. rewrite bind_assoc in H. apply run_writes in H as (m2 & l2 & ok3 & H & E2 & _). rewrite bind_ret in H. apply run_tau in H as (m8 & -> & H). apply IH in H; [|done..].
        destruct H as [_ H]. split; [done|]. by rewrite E2.
      * change (0 <? 0) with false in H. cbv match in H. rewrite bind_assoc, bind_ret, bind_ret in H. apply run_tau in H as (m8 & -> & H). apply IH in H; [|done..]. by apply agrees_cd.
Qed.

Lemma can_getcmd (k : Z * str -> prog Empty_set) s l x rest : gets_split 100 (input s) = (x, rest) ->
  can_run (k (if at_ (buffer x) 0 =? 0 then -1 else 0, buffer x)) (s <| input := rest |>) l -> can_run (getcmd 100 ≫= k) s (Wrote 2 (bytes_of "$ ") :: l).
Proof.
  intros Hg H. apply can_bind, can_write, can_bind, (can_gets _ _ _ _ _ _ Hg). cbv zeta. fold (buffer x). destruct (at_ (buffer x) 0 =? 0); by apply can_ret.
Qed.

Lemma can_reading xs : forall s, Forall line_ok xs -> input s = concat (line_text <$> xs) -> std_open (fds s) -> room (fds s) ->
  can_run reading s (session (who s) (fds s) xs).
Proof.
  induction xs as [|x xs IH]; intros s Hxs Hin Hs Hr; (eapply can_eq; [apply reading_line|]); cbn [fmap list_fmap concat session] in *.
  - apply (can_getcmd _ _ _ [] []); [rewrite Hin; apply gets_end|]. change (if at_ (buffer []) 0 =? 0 then -1 else 0) with (-1). cbn [fst]. change (-1 <? 0) with true. cbv match. apply can_ret, can_exits.
  - apply list.Forall_cons in Hxs as [Hx Hxs]. destruct (line_string x Hx) as [Hstr Hhd].
    assert (Hg : gets_split 100 (input s) = (line_text x, concat (line_text <$> xs))) by (rewrite Hin; by apply line_gets).
    set (s1 := s <| input := concat (line_text <$> xs) |>).
    assert (H : can_run (handle (buffer (line_text x)) ≫= next_line) s1 (tail (session (who s) (fds s) (x :: xs)))).
    { unfold handle. rewrite buffer_cd. destruct x as [c|dir].
      - assert (Hc := proj2 Hx). destruct Hc as (Hok & Hne & Hcd). cbn [line_text session tail] in *. rewrite Hcd. cbv match. apply can_bind, can_fork1.
        + change (0 =? 0) with true. cbv match. rewrite Hstr, (parse_line_typed c Hok Hne). eapply can_eq; [rewrite bind_ret; apply noreturn_eq|]. change (1%nat :: who s) with (who (child s1)). change (fds s) with (fds (child s1)).
          apply runcmd_can; [by apply cmd_ok_redirs|done|done].
        + change (1 =? 0) with false. cbv match. apply can_bind, can_wait; [done|]. cbv beta. apply can_ret, can_tau.
          change (session (2%nat :: who s) (fds s) xs) with (session (who (forked s1 <| kids ::= pred |>)) (fds (forked s1 <| kids ::= pred |>)) xs). by apply IH.
      - assert (Hcd : is_cd (line_text (LCd dir)) = true) by done. rewrite Hcd. cbv match zeta. rewrite (cd_dir dir Hx). cbn [session tail].
        apply can_bind, can_cd. change (0 <? 0) with false. cbv match. apply can_bind, can_ret, can_ret, can_tau. by apply (IH s1). }
    destruct x as [c|dir]; apply (can_getcmd _ _ _ _ _ Hg); rewrite Hhd; exact H.
Qed.

(** The loop that opens the console ends with a descriptor above 2. *)
Lemma can_open_loop (k : unit -> prog Empty_set) l j : forall s, room (fds s) -> (forall i, 0 <= i < 3 - Z.of_nat j -> is_Some (fds s !! i)) ->
  can_run (k tt) (opened s (fill (fds s))) l -> can_run (ITree.iter open_step tt ≫= k) s l.
Proof.
  induction j as [|j IH]; intros s Hr Hj H; (eapply can_eq; [apply iter_eq|]); apply can_bind; destruct (room_lowest (fds s) console Hr) as (fd & _ & L & _);
    (apply (can_open _ _ fd); [done|]); destruct (lowest_Some _ _ L) as (N & R & A); (destruct (Z.leb_spec 0 fd); [|lia]); destruct (Z.leb_spec 3 fd) as [Hge|Hlt].
  1, 3: (apply can_bind, can_close; [cbn; rewrite lookup_insert_eq; by eexists|]; cbv beta; apply can_ret; rewrite fill_open in H by (by eapply lowest_std);
      match goal with |- can_run _ ?u _ => replace u with (opened s (fds s)); [done|] end; unfold opened; destruct s; cbn; f_equal; symmetry; by apply delete_insert_id).
  - destruct (Hj fd) as [d Hd]; [lia|]. by rewrite Hd in N.
  - apply can_ret, can_tau. apply IH.
    + apply room_insert; [lia|done].
    + intros i Hi. cbn. destruct (decide (fd = i)) as [->|]; [rewrite lookup_insert_eq; by eexists|]. rewrite lookup_insert_ne by done. destruct (decide (i < fd)); [apply A; lia|].
      destruct (decide (fd < 3 - Z.of_nat (S j))); [destruct (Hj fd) as [d Hd]; [lia|]; by rewrite Hd in N|lia].
    + set (u := _ <| fds ::= _ |>). assert (E : fill (fds u) = fill (fds s)) by (apply fill_insert; [done|lia]). rewrite E. exact H.
Qed.

Lemma room_fill t : room t -> room (fill t).
Proof.
  intros (a & b & H1 & H2 & H3 & H4 & H5). exists a, b. rewrite !fill_lookup, H4, H5. destruct (Z.leb_spec 0 a), (Z.ltb_spec a 3), (Z.leb_spec 0 b), (Z.ltb_spec b 3); try lia. done.
Qed.

(** C26. The shell does what is typed. Reading any lines that fit its buffer -
    commands as they are printed by [show], and changes of directory - it
    opens the console on the standard descriptors that are missing, and for
    each command runs a child and waits for it. When no call fails that child
    does exactly what the command says: each program is started once, in the
    order and with the waiting that [;] and [&] ask for, and with the
    descriptors of the shell changed by its redirections and pipes only: both
    ends of a pipe are closed everywhere else. When calls fail no other
    program is started, and none with other descriptors. Such a run exists
    when two more descriptors can be opened. *)
Theorem sh_runs (s : process) (xs : list line) (Hxs : Forall line_ok xs) (Hin : input s = concat (line_text <$> xs)) :
  (forall n l, run n main s l true -> l = session (who s) (fill (fds s)) xs) /\
  (forall n l ok, std_open (fds s) -> run n main s l ok -> launches l `sublist_of` launches (session (who s) (fds s) xs)) /\
  (room (fds s) -> exists n, run n main s (session (who s) (fill (fds s)) xs) true).
Proof.
  assert (Hmain : main = ITree.iter open_step tt ≫= fun _ => reading) by done. rewrite Hmain. split; [|split].
  - intros n l (m & t & ok' & H & Hok & _)%run_open_loop. destruct (Hok eq_refl) as [-> ->]. apply (run_reading xs) in H; [|done|done|apply std_open_fill]. by apply H.
  - intros n l ok Hs (m & t & ok' & H & _ & Ht)%run_open_loop. rewrite (Ht Hs) in H. apply (run_reading xs) in H; [|done..]. apply H.
  - intros Hr. apply (can_open_loop _ _ 3); [done|intros i Hi; lia|]. apply (can_reading xs (opened s (fill (fds s)))); [done|done|apply std_open_fill|by apply room_fill].
Qed.

(** [cd d], [(ls & ; cat < f | wc) & ; echo a b >> c], with only descriptor 0 open. *)
Definition lines_ex : list line := [LCd (bytes_of "d"); LCmd show_ex].
Definition shell_ex : process := mkProcess [] {[ 0 := DConsole ]} 0 (concat (line_text <$> lines_ex)).

Lemma sh_runs_witness : Forall line_ok lines_ex /\
  exists n, run n main shell_ex (session [] (fill {[ 0 := DConsole ]}) lines_ex) true.
Proof.
  assert (Hw : forall s, negb (bool_decide (bytes_of s = [])) && forallb (fun c => is_word c && negb (c =? 0)) (bytes_of s) = true -> good_word (bytes_of s)).
  { intros s [H1 H2]%andb_true_iff. split; [by apply negb_true_iff, bool_decide_eq_false_1 in H1|].
    rewrite forallb_forall in H2. apply list.Forall_forall. intros c Hc%list_elem_of_In%H2.
    apply andb_true_iff in Hc as [? Hc]. split; [done|]. by apply negb_true_iff, Z.eqb_neq in Hc. }
  assert (Hok : Forall line_ok lines_ex).
  { repeat constructor; try (by apply (bool_decide_unpack _)); cbn [cmd_ok]; repeat first [apply conj|apply Forall_cons_2|apply Forall_nil_2]; try (by apply Hw); cbn [length]; try (unfold MAXARGS; lia); auto; done. }
  split; [exact Hok|]. apply (sh_runs shell_ex lines_ex Hok eq_refl). exists 3, 4. by repeat split.
Defined.
