(* ===== verification/Forktest.v ===== *)
(** * The test of fork

    Model of [user/forktest.c]: it creates children until [fork] fails, and
    waits for as many. *)
From stdpp Require Import base tactics list numbers gmap strings.
From S2P Require Import Prelude Machine User Sh.
From ITree Require Import ITree ITreeFacts.

Open Scope Z_scope.

(** ** Code *)

Definition N : nat := 1000.

Definition print (s : string) : prog unit := sys (Write 1 (bytes_of s ++ [10]));; mret tt.

(** The first loop; [k] rounds are left. *)
Fixpoint forks (k n : nat) : prog nat :=
  match k with
  | O => mret n
  | S k =>
      pid ← sys Fork;
      if pid <? 0 then mret n
      else if pid =? 0 then exit_ 0
      else forks k (S n)
  end.

Fixpoint waits (n : nat) : prog unit :=
  match n with
  | O => mret tt
  | S n =>
      r ← sys Wait;
      if r <? 0 then print "wait stopped early";; exit_ 1 else waits n
  end.

Definition forktest : prog unit :=
  print "fork test";;
  n ← forks N 0;
  (if (n =? N)%nat then print "fork claimed to work N times!";; exit_ 1 else mret tt);;
  waits n;;
  r ← sys Wait;
  (if negb (r =? -1) then print "wait got too many";; exit_ 1 else mret tt);;
  print "fork test OK".

Definition main : prog Empty_set := forktest;; exit_ 0.

(** ** What it does *)

Definition is_write (v : event) : bool := match v with Wrote _ _ => true | _ => false end.
Definition quiet (l : list event) : list event := filter (fun v => is_write v = false) l.

Lemma quiet_app l l' : quiet (l ++ l') = quiet l ++ quiet l'.
Proof. apply list.filter_app. Qed.

Lemma quiet_replicate n v : is_write v = false -> quiet (replicate n v) = replicate n v.
Proof. intros Hv. induction n as [|n IH]; [done|]. cbn [replicate]. unfold quiet in *. rewrite filter_cons, decide_True by done. by rewrite IH. Qed.

(** A failed write is not seen, and changes nothing else. *)
Lemma run_print m msg (k : unit -> prog Empty_set) s l ok : run m (print msg ≫= k) s l ok -> exists m' l' ok', run m' (k tt) s l' ok' /\ quiet l = quiet l' /\ (ok = true -> ok' = true).
Proof.
  unfold print. rewrite bind_assoc. intros (m' & -> & [(-> & ok' & H)|(l' & -> & H)])%run_sys; cbv beta in H; rewrite bind_ret in H.
  - by exists m', l, ok'.
  - by exists m', l', ok.
Qed.

Lemma run_print_exit m msg st (k : unit -> prog Empty_set) s l ok : run m ((print msg;; exit_ st) ≫= k) s l ok -> quiet l = [Exited st].
Proof. rewrite bind_assoc. intros (m' & l' & ok' & H & -> & _)%run_print. by apply run_exit in H as [-> _]. Qed.

Lemma run_forks (g : nat -> prog Empty_set) k : forall n m s l ok, run m (forks k n ≫= g) s l ok ->
  exists j m' s' l' ok', (j <= k)%nat /\ l = replicate j (Child [Exited 0]) ++ l' /\ run m' (g (n + j)%nat) s' l' ok' /\ kids s' = (kids s + j)%nat /\ ((j < k)%nat -> ok = false).
Proof.
  induction k as [|k IH]; intros n m s l ok H; cbn [forks] in H.
  - rewrite bind_ret in H. exists 0%nat, m, s, l, ok. rewrite !Nat.add_0_r. repeat split; [done|done|lia].
  - rewrite bind_assoc in H. apply run_sys in H as (m1 & -> & [(-> & ok' & H)|(pid & l1 & ok1 & l2 & ok2 & Hp & H1 & H2 & -> & ->)]).
    + change (-1 <? 0) with true in H. cbv match in H. rewrite bind_ret in H. exists 0%nat, m1, s, l, ok'. rewrite !Nat.add_0_r. repeat split; [lia|done].
    + change (0 <? 0) with false in H1. change (0 =? 0) with true in H1. cbv match in H1. apply run_exit in H1 as [-> ->].
      destruct (Z.ltb_spec pid 0); [lia|]. destruct (Z.eqb_spec pid 0); [lia|]. apply IH in H2 as (j & m' & s' & l' & ok' & Hj & -> & H2 & Hk & Hf).
      exists (S j), m', s', l', ok'. replace (n + S j)%nat with (S n + j)%nat by lia. split; [lia|]. split; [done|]. split; [done|]. split; [rewrite Hk; cbn; lia|]. intros Hlt. cbn. apply Hf. lia.
Qed.

(** Every child can be waited for. *)
Lemma run_waits (g : unit -> prog Empty_set) n : forall m s l ok, (n <= kids s)%nat -> run m (waits n ≫= g) s l ok ->
  exists m' s' l' ok', l = replicate n Reaped ++ l' /\ run m' (g tt) s' l' ok' /\ (kids s' + n = kids s)%nat.
Proof.
  induction n as [|n IH]; intros m s l ok Hn H; cbn [waits] in H.
  - rewrite bind_ret in H. exists m, s, l, ok. repeat split; [done|lia].
  - rewrite bind_assoc in H. apply run_sys in H as (m1 & -> & H). cbn [answer] in H. destruct (kids s) as [|c] eqn:E; [lia|]. destruct H as (pid & Hp & l1 & -> & H).
    unfold after in H. destruct (Z.ltb_spec pid 0); [lia|]. apply IH in H as (m' & s' & l' & ok' & -> & H & Hk); [|cbn; lia]. exists m', s', l', ok'. split; [done|]. split; [done|]. cbn in Hk. lia.
Qed.

(** After the first loop. *)
Definition rest (n : nat) : prog Empty_set :=
  ((if (n =? N)%nat then print "fork claimed to work N times!";; exit_ 1 else mret tt);;
   waits n;;
   r ← sys Wait;
   (if negb (r =? -1) then print "wait got too many";; exit_ 1 else mret tt);;
   print "fork test OK");;
  exit_ 0.

Lemma main_eq : eq_itree eq main (print "fork test";; n ← forks N 0; rest n).
Proof. unfold main, forktest. rewrite (bind_assoc (print "fork test")). apply eqit_bind; [reflexivity|]. intros x. exact (bind_assoc (forks N 0) _ _). Qed.

Lemma run_rest n m s l ok : kids s = n -> run m (rest n) s l ok ->
  quiet l = if (n =? N)%nat then [Exited 1] else replicate n Reaped ++ [Exited 0].
Proof.
  intros Hk H. unfold rest in H. rewrite bind_assoc in H. destruct (Nat.eqb_spec n N) as [->|Hne]; [by apply run_print_exit in H|]. cbv match in H. rewrite bind_ret, bind_assoc in H.
  apply run_waits in H as (m1 & s1 & l1 & ok1 & -> & H & Hk1); [|lia]. rewrite bind_assoc in H. apply run_sys in H as (m2 & -> & H). cbn [answer] in H. destruct (kids s1) as [|c]; [|lia].
  change (negb (-1 =? -1)) with false in H. cbv match in H. rewrite bind_assoc, bind_ret in H. apply run_print in H as (m3 & l2 & ok2 & H & E & _). apply run_exits in H as [-> _].
  by rewrite quiet_app, quiet_replicate, E.
Qed.

(** The test of [fork] tells the truth. A process without children that
    runs it has some number of children, each of which leaves at once; when
    [fork] worked every time it exits with status 1, and otherwise it waits for
    each child exactly once, finds that there is no other, and exits with
    status 0: it never reports that [wait] stopped early or got too many. *)
Theorem forktest_correct (m : nat) (s : process) (l : list event) (ok : bool) (Hk : kids s = 0%nat) (Hrun : run m main s l ok) :
  exists n, (n <= N)%nat /\ (ok = true -> n = N) /\
    quiet l = replicate n (Child [Exited 0]) ++ if (n =? N)%nat then [Exited 1] else replicate n Reaped ++ [Exited 0].
Proof.
  rewrite main_eq in Hrun. apply run_print in Hrun as (m1 & l1 & ok1 & H & -> & Hok).
  apply run_forks in H as (j & m2 & s2 & l2 & ok2 & Hj & -> & H & Hk2 & Hf). apply run_rest in H; [|rewrite Hk2, Hk; done].
  exists j. split; [done|]. split; [|by rewrite quiet_app, quiet_replicate, H].
  intros ->. destruct (decide (j < N)%nat) as [Hlt|]; [|lia]. by rewrite (Hok eq_refl) in Hf; specialize (Hf Hlt).
Qed.

Lemma forktest_correct_witness : exists m l n, run m main (mkProcess [] ∅ 0 []) l false /\ (n <= N)%nat /\
  quiet l = replicate n (Child [Exited 0]) ++ if (n =? N)%nat then [Exited 1] else replicate n Reaped ++ [Exited 0].
Proof.
  assert (Hrun : exists l, run 5 main (mkProcess [] ∅ 0 []) l false).
  { eexists. right. eexists. split; [reflexivity|]. left. split; [reflexivity|]. exists true. right. eexists. split; [reflexivity|]. split; reflexivity. }
  destruct Hrun as [l Hl]. destruct (forktest_correct 5 (mkProcess [] ∅ 0 []) l false eq_refl Hl) as (n & H1 & _ & H2). by exists 5%nat, l, n.
Defined.
