(* ===== verification/Wp.v ===== *)
(** * Total correctness of kernel code

    [wp m e s Q]: the function [m], called in state [s] with environment [e],
    returns without giving up the processor, and its result and the final
    state satisfy [Q].  The rules run through a function one call at a time. *)
From stdpp Require Import base tactics list numbers gmap strings.
From S2P Require Import Prelude Machine.

Open Scope Z_scope.

Definition wp {A} (m : M A) (e : env) (s : mach) (Q : A -> mach -> Prop) : Prop :=
  exists a t, m e s = Ret a e t /\ Q a t.

Section rules.
Context {A B : Type} (e : env).

Lemma wp_call (m : M A) s a t (Q : A -> mach -> Prop) : m e s = Ret a e t -> Q a t -> wp m e s Q.
Proof. intros H HQ. by exists a, t. Qed.

Lemma wp_bind (m : M A) (k : A -> M B) s Q :
  wp m e s (fun a t => wp (k a) e t Q) -> wp (m ≫= k) e s Q.
Proof. intros (a & t & H & b & u & H' & HQ). exists b, u. by rewrite bindE, H. Qed.

Lemma wp_mono (m : M A) s (P Q : A -> mach -> Prop) :
  wp m e s P -> (forall a t, P a t -> Q a t) -> wp m e s Q.
Proof. intros (a & t & H & HP) HQ. exists a, t. auto. Qed.

Lemma wp_ret (a : A) s (Q : A -> mach -> Prop) : Q a s -> wp (mret a) e s Q.
Proof. apply wp_call. done. Qed.

Lemma wp_read (f : mach -> A) s (Q : A -> mach -> Prop) : Q (f s) s -> wp (read f) e s Q.
Proof. by apply wp_call. Qed.

Lemma wp_modify f s (Q : unit -> mach -> Prop) : Q tt (f s) -> wp (modify f) e s Q.
Proof. intros H. by exists tt, (f s). Qed.

Lemma wp_or_fault (o : option A) a s (Q : A -> mach -> Prop) :
  o = Some a -> Q a s -> wp (or_fault o) e s Q.
Proof. intros ->. apply wp_ret. Qed.

End rules.

Section loops.
Context {A B : Type} (e : env).

Lemma wp_when (b : bool) (m : M unit) s (Q : unit -> mach -> Prop) :
  (b = true -> wp m e s Q) -> (b = false -> Q tt s) -> wp (when b m) e s Q.
Proof. destruct b; intros H1 H2; [by apply H1|by apply wp_ret, H2]. Qed.

(** A counted loop with an invariant on the number of iterations done. *)
Lemma wp_for_each (I : nat -> mach -> Prop) (l : list A) (f : A -> M unit) s (Q : unit -> mach -> Prop) :
  I 0%nat s ->
  (forall i x t, l !! i = Some x -> I i t -> wp (f x) e t (fun _ u => I (S i) u)) ->
  (forall t, I (length l) t -> Q tt t) ->
  wp (for_each l f) e s Q.
Proof.
  revert I s. induction l as [|x l IH]; intros I s H0 Hs HQ; [apply wp_ret; auto|].
  cbn [for_each]. apply wp_bind. eapply wp_mono; [by apply (Hs 0%nat)|].
  intros [] t Ht. apply (IH (fun i => I (S i))); [done| |done].
  intros i y u Hi. by apply (Hs (S i)).
Qed.

(** A search loop: [I] holds before every element that is tried. *)
Lemma wp_for_first (I : nat -> mach -> Prop) (l : list A) (f : A -> M (option B)) s
    (Q : option B -> mach -> Prop) :
  I 0%nat s ->
  (forall i x t, l !! i = Some x -> I i t ->
     wp (f x) e t (fun r u => match r with None => I (S i) u | Some _ => Q r u end)) ->
  (forall t, I (length l) t -> Q None t) ->
  wp (for_first l f) e s Q.
Proof.
  revert I s. induction l as [|x l IH]; intros I s H0 Hs HQ; [apply wp_ret; auto|].
  cbn [for_first]. apply wp_bind. eapply wp_mono; [by apply (Hs 0%nat)|].
  intros [b|] t Ht; [by apply wp_ret|]. apply (IH (fun i => I (S i))); [done| |done].
  intros i y u Hi. by apply (Hs (S i)).
Qed.

(** A loop with a variant. *)
Lemma wp_loop (I : nat -> A -> mach -> Prop) fuel (step : A -> M (A + B)) n st s
    (Q : B -> mach -> Prop) :
  (n < fuel)%nat -> I n st s ->
  (forall n st t, I n st t -> wp (step st) e t (fun r u => match r with
     | inl st' => exists n', n = S n' /\ I n' st' u
     | inr b => Q b u end)) ->
  wp (loop fuel step st) e s Q.
Proof.
  revert n st s. induction fuel as [|fuel IH]; intros n st s Hn HI Hs; [lia|].
  cbn [loop]. apply wp_bind. eapply wp_mono; [by apply (Hs n)|].
  intros [st'|b] t; [|apply wp_ret]. intros (n' & -> & HI'). apply (IH n'); [lia|done..].
Qed.
End loops.

Ltac wp_step := first [apply wp_bind | apply wp_ret | apply wp_read | apply wp_modify].
