(* ===== verification/StringC.v ===== *)
(** * C strings and memory blocks

    Model of [kernel/string.c] on byte memory.  The functions that return
    their destination pointer return the new memory instead.  [strncpy] and
    [safestrcpy] copy between two objects, each with its own memory. *)
From stdpp Require Import base tactics list numbers gmap.
From S2P Require Import Prelude Machine.

Open Scope Z_scope.

(** ** Memory blocks *)

(** [for(i = 0; i < n; i++) cdst[i] = c;], [n] iterations from address [d]. *)
Fixpoint memset_loop (n : nat) (m : bytes) (d c : Z) : bytes :=
  match n with
  | O => m
  | S n => memset_loop n (store8 m d c) (d + 1) c
  end.

Definition memset (m : bytes) (dst c n : Z) : bytes := memset_loop (Z.to_nat n) m dst c.

#[global] Strategy 1000 [memset].

Fixpoint memcmp_loop (n : nat) (m : bytes) (s1 s2 : Z) : Z :=
  match n with
  | O => 0
  | S n =>
      if load8 m s1 =? load8 m s2 then memcmp_loop n m (s1 + 1) (s2 + 1)
      else load8 m s1 - load8 m s2
  end.

Definition memcmp (m : bytes) (v1 v2 n : Z) : Z := memcmp_loop (Z.to_nat n) m v1 v2.

(** [while(n-- > 0) *--d = *--s;] and [while(n-- > 0) *d++ = *s++;] *)
Fixpoint move_down (n : nat) (m : bytes) (d s : Z) : bytes :=
  match n with
  | O => m
  | S n => move_down n (store8 m (d - 1) (load8 m (s - 1))) (d - 1) (s - 1)
  end.

Fixpoint move_up (n : nat) (m : bytes) (d s : Z) : bytes :=
  match n with
  | O => m
  | S n => move_up n (store8 m d (load8 m s)) (d + 1) (s + 1)
  end.

Definition memmove (m : bytes) (dst src n : Z) : bytes :=
  if n =? 0 then m
  else if (src <? dst) && (dst <? src + n) then move_down (Z.to_nat n) m (dst + n) (src + n)
  else move_up (Z.to_nat n) m dst src.

#[global] Strategy 1000 [memmove].

(** [memcpy] is [memmove]. *)
Definition memcpy (m : bytes) (dst src n : Z) : bytes := memmove m dst src n.

(** ** Strings *)

Fixpoint strncmp_loop (n : nat) (m1 m2 : bytes) (p q : Z) : Z :=
  match n with
  | O => 0
  | S n =>
      if negb (load8 m1 p =? 0) && (load8 m1 p =? load8 m2 q)
      then strncmp_loop n m1 m2 (p + 1) (q + 1)
      else load8 m1 p - load8 m2 q
  end.

Definition strncmp (m1 : bytes) (p : Z) (m2 : bytes) (q n : Z) : Z :=
  strncmp_loop (Z.to_nat n) m1 m2 p q.

(** The padding loop of [strncpy] is the loop of [memset] with zero. *)
Fixpoint strncpy_loop (n : nat) (md : bytes) (s : Z) (mt : bytes) (t : Z) : bytes :=
  match n with
  | O => md
  | S n =>
      let c := load8 mt t in
      let md := store8 md s c in
      if c =? 0 then memset_loop n md (s + 1) 0 else strncpy_loop n md (s + 1) mt (t + 1)
  end.

Definition strncpy (md : bytes) (s : Z) (mt : bytes) (t n : Z) : bytes :=
  strncpy_loop (Z.to_nat n) md s mt t.

(** The loop copies while [--n > 0] and the byte copied is not zero, then
    [*s = 0]: at most [n] bytes are copied, and the final store follows the terminator that was copied, if
    one was. *)
Fixpoint safestrcpy_loop (n : nat) (md : bytes) (s : Z) (mt : bytes) (t : Z) : bytes :=
  match n with
  | O => store8 md s 0
  | S n =>
      let c := load8 mt t in
      let md := store8 md s c in
      if c =? 0 then store8 md (s + 1) 0 else safestrcpy_loop n md (s + 1) mt (t + 1)
  end.

Definition safestrcpy (md : bytes) (s : Z) (mt : bytes) (t n : Z) : bytes :=
  if n <=? 0 then md else safestrcpy_loop (Z.to_nat (n - 1)) md s mt t.

(** [for(n = 0; s[n]; n++);]; [None] when no terminator is met within the
    fuel. *)
Fixpoint strlen_loop (fuel : nat) (m : bytes) (s n : Z) : option Z :=
  match fuel with
  | O => None
  | S fuel => if load8 m (s + n) =? 0 then Some n else strlen_loop fuel m s (n + 1)
  end.

Definition strlen (fuel : nat) (m : bytes) (s : Z) : option Z := strlen_loop fuel m s 0.

(** ** Specifications of the blocks *)

Lemma load8_memset_loop n m d c b :
  load8 (memset_loop n m d c) b =
  if (d <=? b) && (b <? d + Z.of_nat n) then u8 c else load8 m b.
Proof.
  revert m d. induction n as [|n IH]; intros m d.
  - cbn [memset_loop]. zb.
  - cbn [memset_loop]. rewrite IH, load8_store8. zb.
Qed.

Lemma load8_memset m d c n b :
  0 <= n -> load8 (memset m d c n) b = if (d <=? b) && (b <? d + n) then u8 c else load8 m b.
Proof. intros Hn. unfold memset. rewrite load8_memset_loop. by rewrite Z2Nat.id by lia. Qed.

Lemma load8_move_up n m d s b :
  d <= s \/ s + Z.of_nat n <= d ->
  load8 (move_up n m d s) b =
  if (d <=? b) && (b <? d + Z.of_nat n) then load8 m (s + (b - d)) else load8 m b.
Proof.
  revert m d s. induction n as [|n IH]; intros m d s H.
  - cbn [move_up]. zb.
  - cbn [move_up]. rewrite IH by lia. rewrite !load8_store8, load8_u8.
    zb; f_equal; lia.
Qed.

Lemma load8_move_down n m d s b :
  s <= d ->
  load8 (move_down n m d s) b =
  if (d - Z.of_nat n <=? b) && (b <? d) then load8 m (s + (b - d)) else load8 m b.
Proof.
  revert m d s. induction n as [|n IH]; intros m d s H.
  - cbn [move_down]. zb.
  - cbn [move_down]. rewrite IH by lia. rewrite !load8_store8, load8_u8.
    zb; f_equal; lia.
Qed.

(** [memmove] copies: after it, the destination block holds what the
    source block held before, also when the two overlap in either direction,
    and every other byte is unchanged. *)
Theorem memmove_copies (m : bytes) (dst src n b : Z) :
  0 <= n ->
  load8 (memmove m dst src n) b =
  if (dst <=? b) && (b <? dst + n) then load8 m (src + (b - dst)) else load8 m b.
Proof.
  intros Hn. unfold memmove. destruct (Z.eqb_spec n 0) as [->|Hn0]; [zb|].
  destruct ((src <? dst) && (dst <? src + n)) eqn:Hov.
  - rewrite load8_move_down by zb. rewrite Z2Nat.id by lia.
    replace (dst + n - n) with dst by lia.
    by replace (src + n + (b - (dst + n))) with (src + (b - dst)) by lia.
  - rewrite load8_move_up; rewrite Z2Nat.id by lia; [done|]. zb.
Qed.

(** An overlapping move up by one: the block slides. *)
Lemma memmove_copies_witness :
  load8 (memmove (memset (store8 ∅ 100 7) 101 9 3) 101 100 3) 101 = 7.
Proof. rewrite (memmove_copies _ 101 100 3 101); [vm_compute; reflexivity|lia]. Defined.

(** ** Specifications of the strings *)

(** The nul-terminated string [l] is at address [p]. *)
Fixpoint c_string (m : bytes) (p : Z) (l : list Z) : Prop :=
  match l with
  | [] => load8 m p = 0
  | c :: l => c <> 0 /\ load8 m p = c /\ c_string m (p + 1) l
  end.

Lemma c_string_ext m1 m2 p l :
  (forall b, p <= b <= p + Z.of_nat (length l) -> load8 m1 b = load8 m2 b) ->
  c_string m2 p l -> c_string m1 p l.
Proof.
  revert p. induction l as [|c l IH]; intros p H; cbn [c_string length] in *.
  - rewrite H by lia. done.
  - intros (Hc & Hp & Hl). rewrite H by lia. split; [done|]. split; [done|].
    apply IH; [|done]. intros b Hb. apply H. lia.
Qed.

Lemma load8_safestrcpy_loop_out n md s mt t b :
  b < s \/ s + Z.of_nat n < b -> load8 (safestrcpy_loop n md s mt t) b = load8 md b.
Proof.
  revert md s t. induction n as [|n IH]; intros md s t Hb; cbn [safestrcpy_loop].
  - rewrite load8_store8. zb.
  - case_match; [rewrite !load8_store8; zb|]. rewrite IH by lia. rewrite load8_store8. zb.
Qed.

Lemma safestrcpy_loop_string n md s mt t l :
  c_string mt t l -> c_string (safestrcpy_loop n md s mt t) s (take n l).
Proof.
  revert md s t l. induction n as [|n IH]; intros md s t l Hl; cbn [safestrcpy_loop].
  - rewrite take_0. cbn [c_string]. by rewrite load8_store8, Z.eqb_refl.
  - destruct l as [|c l]; rewrite ?firstn_cons, ?take_nil; cbn [c_string] in *.
    + rewrite Hl. change (0 =? 0) with true. cbn match.
      rewrite !load8_store8. destruct (Z.eqb_spec (s + 1) s); [lia|].
      by rewrite Z.eqb_refl.
    + destruct Hl as (Hc & Hp & Hl). rewrite Hp.
      destruct (Z.eqb_spec c 0); [done|]. split; [done|]. split; [|by apply IH].
      rewrite load8_safestrcpy_loop_out by lia. rewrite load8_store8, Z.eqb_refl.
      rewrite <- Hp. apply load8_u8.
Qed.

(** [safestrcpy] always leaves a terminated string in its buffer: the
    longest prefix of the source that fits, and it writes no byte outside the
    [n] bytes of the buffer. *)
Theorem safestrcpy_terminates_string (md : bytes) (s : Z) (mt : bytes) (t n : Z) (l : list Z) :
  0 < n -> c_string mt t l ->
  c_string (safestrcpy md s mt t n) s (take (Z.to_nat (n - 1)) l) /\
  (forall b, b < s \/ s + n <= b -> load8 (safestrcpy md s mt t n) b = load8 md b).
Proof.
  intros Hn Hl. unfold safestrcpy. destruct (Z.leb_spec n 0); [lia|]. split.
  - by apply safestrcpy_loop_string.
  - intros b Hb. apply load8_safestrcpy_loop_out. lia.
Qed.

(** A name of 5 characters in a buffer of 4. *)
Lemma safestrcpy_terminates_string_witness :
  c_string (safestrcpy ∅ 0 (store8 (memset ∅ 50 65 5) 55 0) 50 4) 0 [65; 65; 65].
Proof.
  apply (safestrcpy_terminates_string ∅ 0 (store8 (memset ∅ 50 65 5) 55 0) 50 4
           [65; 65; 65; 65; 65]).
  - lia.
  - vm_compute. repeat split; discriminate.
Defined.

Lemma strlen_loop_spec fuel m s k l :
  c_string m (s + k) l -> (length l < fuel)%nat ->
  strlen_loop fuel m s k = Some (k + Z.of_nat (length l)).
Proof.
  revert k l. induction fuel as [|fuel IH]; intros k l Hl Hf; [lia|]. cbn [strlen_loop].
  destruct l as [|c l]; cbn [c_string length] in *.
  - rewrite Hl. cbn. f_equal. lia.
  - destruct Hl as (Hc & Hp & Hl). rewrite Hp. destruct (Z.eqb_spec c 0); [done|].
    rewrite (IH (k + 1) l); [f_equal; lia| |lia]. by replace (s + (k + 1)) with (s + k + 1) by lia.
Qed.

Lemma strncmp_loop_spec n m1 m2 p q l1 l2 :
  c_string m1 p l1 -> c_string m2 q l2 ->
  strncmp_loop n m1 m2 p q = 0 <-> take n l1 = take n l2.
Proof.
  revert p q l1 l2. induction n as [|n IH]; intros p q l1 l2 H1 H2; [done|].
  cbn [strncmp_loop].
  destruct l1 as [|c l1], l2 as [|d l2]; rewrite ?firstn_cons, ?take_nil; cbn [c_string] in *.
  - rewrite H1, H2. done.
  - destruct H2 as (Hd & Hq & H2). rewrite H1, Hq. cbn. split; [|done]. lia.
  - destruct H1 as (Hc & Hp & H1). rewrite H2, Hp.
    destruct (Z.eqb_spec c 0); [done|]. cbn. split; [|done]. lia.
  - destruct H1 as (Hc & Hp & H1), H2 as (Hd & Hq & H2). rewrite Hp, Hq.
    destruct (Z.eqb_spec c 0); [done|]. cbn [negb andb].
    destruct (Z.eqb_spec c d) as [->|Hcd].
    + rewrite (IH _ _ l1 l2) by done. split; congruence.
    + split; [lia|]. congruence.
Qed.

(** String comparison and length.  [strncmp] is 0 exactly when the
    first [n] characters of the two strings agree (a string that ends before
    them ends in both), and [strlen] is the length of the string. *)
Theorem strncmp_strlen_spec (m1 m2 : bytes) (p q n : Z) (l1 l2 : list Z) (fuel : nat) :
  c_string m1 p l1 -> c_string m2 q l2 -> (length l1 < fuel)%nat ->
  (strncmp m1 p m2 q n = 0 <-> take (Z.to_nat n) l1 = take (Z.to_nat n) l2) /\
  strlen fuel m1 p = Some (Z.of_nat (length l1)).
Proof.
  intros H1 H2 Hf. split; [by apply strncmp_loop_spec|].
  unfold strlen. rewrite (strlen_loop_spec _ _ _ 0 l1); [done| |done]. by rewrite Z.add_0_r.
Qed.

Lemma strncmp_strlen_spec_witness :
  let m := store8 (memset ∅ 10 65 3) 13 0 in
  (strncmp m 10 m 11 2 = 0 <-> take 2 [65; 65; 65] = take 2 [65; 65]) /\
  strlen 9 m 10 = Some 3.
Proof.
  apply (strncmp_strlen_spec (store8 (memset ∅ 10 65 3) 13 0) (store8 (memset ∅ 10 65 3) 13 0)
           10 11 2 [65; 65; 65] [65; 65] 9).
  - vm_compute. repeat split; discriminate.
  - vm_compute. repeat split; discriminate.
  - cbn. lia.
Defined.
