(* ===== verification/Spinlock.v ===== *)
(** * Spin locks

    Model of [kernel/spinlock.c]: interrupt nesting ([push_off], [pop_off]),
    [acquire], [release] and [holding] as kernel code on one hart, with the
    equations the other components use; and the same code as a step relation
    over all harts, for mutual exclusion. *)
From stdpp Require Import base tactics list numbers gmap strings.
From S2P Require Import Prelude Machine.

Open Scope Z_scope.

(** ** Per-hart state: [cpuid], [mycpu] of [kernel/proc.c], [intr_*] of
    [kernel/riscv.h] *)

Definition cpuid : M nat := read tp.
Definition mycpu : M nat := cpuid.
Definition get_cpu (c : nat) : M cpu := s ← read id; or_fault (cpus s !! c).
Definition set_cpu (c : nat) (f : cpu -> cpu) : M unit :=
  _ ← get_cpu c; modify (fun s => s <| cpus ::= alter f c |>).

Definition intr_get : M bool := id ← cpuid; c ← get_cpu id; mret (sie c).
Definition intr_on : M unit := id ← cpuid; set_cpu id (fun c => c <| sie := true |>).
Definition intr_off : M unit := id ← cpuid; set_cpu id (fun c => c <| sie := false |>).

(** ** Interrupt nesting *)

Definition push_off : M unit :=
  old ← intr_get;
  intr_off;;
  c ← mycpu;
  k ← get_cpu c;
  when (noff k =? 0) (set_cpu c (fun k => k <| intena := old |>));;
  set_cpu c (fun k => k <| noff ::= Z.succ |>).

Definition pop_off : M unit :=
  c ← mycpu;
  on ← intr_get;
  if on : bool then panic "pop_off - interruptible"%string
  else
    k ← get_cpu c;
    if noff k <? 1 then panic "pop_off"%string
    else
      set_cpu c (fun k => k <| noff ::= Z.pred |>);;
      k ← get_cpu c;
      when ((noff k =? 0) && intena k) intr_on.

(** ** Locks *)

(** A lock in static storage is zero before [initlock]. *)
Definition lock_of (s : mach) (lk : lockid) : spinlock :=
  default (mkSpinlock 0 "" None) (locks s !! lk).

Definition set_lock (lk : lockid) (f : spinlock -> spinlock) : M unit :=
  modify (fun s => s <| locks ::= <[lk := f (lock_of s lk)]> |>).

Definition initlock (lk : lockid) (name : string) : M unit :=
  set_lock lk (fun _ => {| locked := 0; lname := name; lcpu := None |}).

Definition holding (lk : lockid) : M bool :=
  c ← mycpu;
  l ← read (fun s => lock_of s lk);
  mret (negb (locked l =? 0) && bool_decide (lcpu l = Some c)).

(** [while(__sync_lock_test_and_set(&lk->locked, 1) != 0);]: with the other
    harts at rest a lock that is held stays held. *)
Definition test_and_set (lk : lockid) : M unit := fun e s =>
  if locked (lock_of s lk) =? 0
  then Ret tt e (s <| locks ::= <[lk := lock_of s lk <| locked := 1 |>]> |>)
  else Spins lk s.

Definition acquire (lk : lockid) : M unit :=
  push_off;;
  h ← holding lk;
  if h : bool then panic "acquire"%string
  else
    test_and_set lk;;
    c ← mycpu;
    set_lock lk (fun l => l <| lcpu := Some c |>).

Definition release (lk : lockid) : M unit :=
  h ← holding lk;
  if negb h then panic "release"%string
  else
    set_lock lk (fun l => l <| lcpu := None |>);;
    set_lock lk (fun l => l <| locked := 0 |>);;
    pop_off.

(** ** The effect of the operations *)

Definition push_cpu (c : cpu) : cpu :=
  c <| intena := if noff c =? 0 then sie c else intena c |> <| sie := false |> <| noff ::= Z.succ |>.

Definition pop_cpu (c : cpu) : cpu :=
  let c := c <| noff ::= Z.pred |> in
  if (noff c =? 0) && intena c then c <| sie := true |> else c.

Definition on_cpu (f : cpu -> cpu) (s : mach) : mach := s <| cpus ::= alter f (tp s) |>.

(** The hart runs on an existing CPU, and interrupts are off inside a
    [push_off]. *)
Definition cpu_ok (c : cpu) : Prop := 0 <= noff c /\ (0 < noff c -> sie c = false).
Definition hart_ok (s : mach) : Prop := exists c, cpus s !! tp s = Some c /\ cpu_ok c.

Definition this_cpu (s : mach) : cpu :=
  default (mkCpu None (mkContext 0 0 []) 0 false false csrs0) (cpus s !! tp s).

Lemma this_cpu_Some s k : cpus s !! tp s = Some k -> this_cpu s = k.
Proof. unfold this_cpu. by intros ->. Qed.

Lemma get_cpu_Ret e s k : cpus s !! tp s = Some k -> get_cpu (tp s) e s = Ret k e s.
Proof. intros H. unfold get_cpu. msimp. by rewrite H. Qed.

Lemma set_cpu_Ret f e s k :
  cpus s !! tp s = Some k -> set_cpu (tp s) f e s = Ret tt e (on_cpu f s).
Proof. intros H. unfold set_cpu. rewrite bindE. by rewrite (get_cpu_Ret _ _ k). Qed.

Lemma lookup_alter_here {A} (f : A -> A) i (l : list A) x :
  l !! i = Some x -> alter f i l !! i = Some (f x).
Proof. intros H. by rewrite list_lookup_alter_eq, H. Qed.

Lemma on_cpu_here f s k :
  cpus s !! tp s = Some k -> cpus (on_cpu f s) !! tp (on_cpu f s) = Some (f k).
Proof. apply lookup_alter_here. Qed.

Lemma on_cpu_on_cpu f g s : on_cpu f (on_cpu g s) = on_cpu (f ∘ g) s.
Proof. unfold on_cpu. cbn. by rewrite list_alter_alter_eq. Qed.

Lemma on_cpu_ext f g s k :
  cpus s !! tp s = Some k -> f k = g k -> on_cpu f s = on_cpu g s.
Proof.
  intros Hk Hfg. unfold on_cpu. cbn. f_equal. apply list_alter_ext; [|done].
  intros x Hx. by simplify_eq.
Qed.

Lemma push_off_Ret e s k :
  cpus s !! tp s = Some k -> push_off e s = Ret tt e (on_cpu push_cpu s).
Proof.
  intros Hk. unfold push_off, intr_get, intr_off, mycpu, cpuid.
  msimp. rewrite (get_cpu_Ret _ _ k) by done. msimp.
  rewrite (set_cpu_Ret _ _ _ k) by done. msimp.
  pose proof (on_cpu_here (fun c : cpu => c <| sie := false |>) s k Hk) as H1.
  rewrite (get_cpu_Ret _ _ _ H1). cbn [noff update_with].
  destruct (Z.eqb_spec (noff k) 0) as [H0|H0]; cbn [when].
  - rewrite bindE, (set_cpu_Ret _ _ _ _ H1).
    pose proof (on_cpu_here (fun c : cpu => c <| intena := sie k |>) _ _ H1) as H2.
    change (tp (on_cpu _ s)) with (tp (on_cpu (fun c : cpu => c <| intena := sie k |>)
      (on_cpu (fun c : cpu => c <| sie := false |>) s))).
    rewrite (set_cpu_Ret _ _ _ _ H2), !on_cpu_on_cpu.
    f_equal. apply (on_cpu_ext _ _ _ k); [done|]. unfold push_cpu. destruct k; simpl in *. by subst.
  - rewrite bindE. cbn [mret M_ret]. rewrite (set_cpu_Ret _ _ _ _ H1), !on_cpu_on_cpu.
    f_equal. apply (on_cpu_ext _ _ _ k); [done|]. unfold push_cpu. destruct k; simpl in *.
    by destruct (Z.eqb_spec noff 0).
Qed.

Lemma pop_off_Ret e s k :
  cpus s !! tp s = Some k -> sie k = false -> 1 <= noff k ->
  pop_off e s = Ret tt e (on_cpu pop_cpu s).
Proof.
  intros Hk Hs Hn. unfold pop_off, intr_get, intr_on, mycpu, cpuid.
  msimp. rewrite (get_cpu_Ret _ _ k) by done. msimp. rewrite Hs.
  rewrite bindE, (get_cpu_Ret _ _ k) by done.
  destruct (Z.ltb_spec (noff k) 1); [lia|].
  rewrite bindE, (set_cpu_Ret _ _ _ k) by done.
  pose proof (on_cpu_here (fun c : cpu => c <| noff ::= Z.pred |>) s k Hk) as H1.
  rewrite bindE. change (tp s) with (tp (on_cpu (fun c : cpu => c <| noff ::= Z.pred |>) s)) at 1.
  rewrite (get_cpu_Ret _ _ _ H1).
  destruct ((noff (k <| noff ::= Z.pred |>) =? 0) && intena (k <| noff ::= Z.pred |>)) eqn:Hb;
    cbn [when].
  - msimp. rewrite (set_cpu_Ret _ _ _ _ H1), on_cpu_on_cpu. f_equal.
    apply (on_cpu_ext _ _ _ k); [done|]. unfold pop_cpu. by rewrite Hb.
  - cbn [mret M_ret]. f_equal.
    apply (on_cpu_ext _ _ _ k); [done|]. unfold pop_cpu. by rewrite Hb.
Qed.

(** A free lock, and the lock while hart [c] holds it. *)
Definition free_lock (s : mach) (lk : lockid) : Prop :=
  exists n, locks s !! lk = Some (mkSpinlock 0 n None).

Definition held (c : nat) (l : spinlock) : spinlock := mkSpinlock 1 (lname l) (Some c).

(** The state between [acquire] and [release]. *)
Definition enter (lk : lockid) (s : mach) : mach :=
  on_cpu push_cpu s <| locks ::= <[lk := held (tp s) (lock_of s lk)]> |>.

(** The state [release] leaves when it is called in state [enter lk s]:
    interrupt bookkeeping only. *)
Definition left_off (s : mach) : mach := on_cpu (pop_cpu ∘ push_cpu) s.

Lemma lock_of_Some s lk l : locks s !! lk = Some l -> lock_of s lk = l.
Proof. unfold lock_of. by intros ->. Qed.

Lemma lock_of_insert s lk l :
  lock_of (s <| locks ::= <[lk := l]> |>) lk = l.
Proof. unfold lock_of. cbn. by rewrite lookup_insert_eq. Qed.

Lemma set_lock_insert lk f e s l :
  set_lock lk f e (s <| locks ::= <[lk := l]> |>) = Ret tt e (s <| locks ::= <[lk := f l]> |>).
Proof. unfold set_lock, modify. rewrite lock_of_insert. cbn. by rewrite insert_insert_eq. Qed.

Lemma acquire_Ret lk e s :
  hart_ok s -> free_lock s lk -> acquire lk e s = Ret tt e (enter lk s).
Proof.
  intros (k & Hk & Hok) (n & Hl). unfold acquire. rewrite bindE.
  rewrite (push_off_Ret _ _ k) by done. set (s1 := on_cpu push_cpu s).
  assert (Hl1 : lock_of s1 lk = mkSpinlock 0 n None) by by apply lock_of_Some.
  unfold holding, mycpu, cpuid. msimp. rewrite Hl1. cbn [locked lcpu].
  change (negb (0 =? 0) && _) with false. cbn match. rewrite bindE.
  unfold test_and_set. rewrite Hl1. cbn [locked]. change (0 =? 0) with true. cbn match.
  msimp. rewrite set_lock_insert. unfold enter, held. rewrite (lock_of_Some s lk _ Hl). done.
Qed.

Lemma release_Ret lk e s k n :
  cpus s !! tp s = Some k -> sie k = false -> 1 <= noff k ->
  locks s !! lk = Some (mkSpinlock 1 n (Some (tp s))) ->
  release lk e s =
  Ret tt e (on_cpu pop_cpu s <| locks ::= <[lk := mkSpinlock 0 n None]> |>).
Proof.
  intros Hk Hs Hn Hl. unfold release, holding, mycpu, cpuid.
  msimp. rewrite (lock_of_Some _ _ _ Hl). cbn [locked lcpu].
  rewrite bool_decide_true by done. change (negb (negb (1 =? 0) && true)) with false.
  cbn match. rewrite bindE. unfold set_lock at 1, modify. rewrite (lock_of_Some _ _ _ Hl).
  rewrite bindE, set_lock_insert. by rewrite (pop_off_Ret _ _ k).
Qed.

Lemma push_cpu_ok c : cpu_ok c -> sie (push_cpu c) = false /\ 1 <= noff (push_cpu c).
Proof. intros [Hc _]. destruct c. unfold push_cpu. simpl in *. lia. Qed.

(** [release] undoes [acquire] up to interrupt bookkeeping. *)
Lemma release_enter lk e s :
  hart_ok s -> free_lock s lk -> release lk e (enter lk s) = Ret tt e (left_off s).
Proof.
  intros (k & Hk & Hok) (n & Hl).
  destruct (push_cpu_ok k Hok) as [Hs Hn].
  rewrite (release_Ret lk e _ (push_cpu k) n).
  - unfold enter, left_off, on_cpu. cbn. rewrite list_alter_alter_eq, insert_insert_eq.
    rewrite insert_id by exact Hl. done.
  - unfold enter, on_cpu. cbn. by apply lookup_alter_here.
  - done.
  - done.
  - unfold enter, on_cpu, lock_of. cbn. rewrite lookup_insert_eq, Hl. done.
Qed.

Lemma release_from lk e s1 s :
  s1 = enter lk s -> hart_ok s -> free_lock s lk -> release lk e s1 = Ret tt e (left_off s).
Proof. intros ->. apply release_enter. Qed.

(** ** Bookkeeping around critical sections *)

Lemma pop_push_cpu c :
  cpu_ok c -> pop_cpu (push_cpu c) = if noff c =? 0 then c <| intena := sie c |> else c.
Proof.
  destruct c as [pr cx n i si]. intros [H1 H2]. cbn in *. unfold pop_cpu, push_cpu. cbn.
  destruct (Z.eqb_spec n 0) as [->|Hn]; [by destruct si|]. rewrite (H2 ltac:(lia)).
  destruct (Z.eqb_spec (Z.pred (Z.succ n)) 0); [lia|]. cbn. by replace (Z.pred (Z.succ n)) with n by lia.
Qed.

Lemma pop_push_same c :
  cpu_ok c -> noff (pop_cpu (push_cpu c)) = noff c /\ sie (pop_cpu (push_cpu c)) = sie c.
Proof. intros Hc. rewrite pop_push_cpu by done. by destruct (noff c =? 0). Qed.

Lemma push_cpu_cpu_ok c : cpu_ok c -> cpu_ok (push_cpu c).
Proof. intros [H1 _]. destruct c. unfold cpu_ok, push_cpu. cbn in *. split; [lia|done]. Qed.

Lemma pop_push_cpu_ok c : cpu_ok c -> cpu_ok (pop_cpu (push_cpu c)).
Proof.
  intros Hc. rewrite pop_push_cpu by done. destruct Hc. case_match; [|done].
  split; [done|]. cbn. done.
Qed.

Lemma hart_ok_on_cpu f s : (forall c, cpu_ok c -> cpu_ok (f c)) -> hart_ok s -> hart_ok (on_cpu f s).
Proof. intros Hf (k & Hk & Hok). exists (f k). split; [by apply on_cpu_here|auto]. Qed.

Lemma hart_ok_enter lk s : hart_ok s -> hart_ok (enter lk s).
Proof. intros H. apply (hart_ok_on_cpu push_cpu) in H; [exact H|apply push_cpu_cpu_ok]. Qed.

Lemma hart_ok_left_off s : hart_ok s -> hart_ok (left_off s).
Proof. apply hart_ok_on_cpu, pop_push_cpu_ok. Qed.

Lemma free_lock_enter lk lk' s : lk <> lk' -> free_lock s lk' -> free_lock (enter lk s) lk'.
Proof. intros Hne (n & H). exists n. cbn. by rewrite lookup_insert_ne. Qed.

Lemma free_lock_left_off lk s : free_lock s lk -> free_lock (left_off s) lk.
Proof. done. Qed.

Lemma left_off_idem s : hart_ok s -> left_off (left_off s) = left_off s.
Proof.
  intros (k & Hk & Hok). unfold left_off. rewrite on_cpu_on_cpu. apply (on_cpu_ext _ _ _ k); [done|].
  unfold compose. rewrite (pop_push_cpu k) by done. destruct (Z.eqb_spec (noff k) 0) as [H0|H0].
  - rewrite pop_push_cpu; [|by destruct Hok]. cbn. by rewrite H0.
  - rewrite pop_push_cpu by done. destruct (Z.eqb_spec (noff k) 0); done.
Qed.

Lemma left_off_nested s k :
  cpus s !! tp s = Some k -> cpu_ok k -> 0 < noff k -> left_off s = s.
Proof.
  intros Hk Hok Hn. unfold left_off. rewrite (on_cpu_ext _ id s k Hk).
  - unfold on_cpu. destruct s. cbn. by rewrite list_alter_id.
  - unfold compose. rewrite pop_push_cpu by done. destruct (Z.eqb_spec (noff k) 0); [lia|done].
Qed.

Lemma left_off_enter lk s : hart_ok s -> left_off (enter lk s) = enter lk s.
Proof.
  intros (k & Hk & Hok). apply (left_off_nested _ (push_cpu k)).
  - by apply (on_cpu_here push_cpu).
  - by apply push_cpu_cpu_ok.
  - destruct (push_cpu_ok k Hok). lia.
Qed.

Lemma enter_left_off lk s : hart_ok s -> enter lk (left_off s) = enter lk s.
Proof.
  intros (k & Hk & Hok). unfold enter.
  replace (on_cpu push_cpu (left_off s)) with (on_cpu push_cpu s); [done|].
  unfold left_off. rewrite on_cpu_on_cpu. apply (on_cpu_ext _ _ _ k); [done|].
  unfold compose. rewrite pop_push_cpu by done. destruct k as [? ? n ? ?]. cbn in *.
  destruct (Z.eqb_spec n 0) as [->|Hn]; [done|done].
Qed.

#[export] Hint Resolve hart_ok_enter hart_ok_left_off free_lock_enter free_lock_left_off : sched.

(** ** What the operations promise *)

Definition held_by (s : mach) (lk : lockid) : option nat :=
  if locked (lock_of s lk) =? 0 then None else lcpu (lock_of s lk).

(** The protocol of a spin lock, on every branch.  [acquire] of a free
    lock takes it for this hart with interrupts off, and the matching
    [release] restores the lock table, the nesting depth and the interrupt
    enable bit; [acquire] of a lock this hart holds and [release] of a lock
    it does not hold panic; [acquire] of a lock another hart holds spins. *)
Theorem spinlock_protocol (lk : lockid) (e : env) (s : mach) :
  hart_ok s ->
  (free_lock s lk ->
     exists s1 s2, acquire lk e s = Ret tt e s1 /\ held_by s1 lk = Some (tp s) /\
       sie (this_cpu s1) = false /\
       release lk e s1 = Ret tt e s2 /\ locks s2 = locks s /\
       noff (this_cpu s2) = noff (this_cpu s) /\ sie (this_cpu s2) = sie (this_cpu s)) /\
  (held_by s lk = Some (tp s) -> exists s', acquire lk e s = Panic "acquire" s') /\
  (held_by s lk <> Some (tp s) -> release lk e s = Panic "release" s) /\
  (locked (lock_of s lk) <> 0 -> held_by s lk <> Some (tp s) ->
     exists s', acquire lk e s = Spins lk s').
Proof.
  intros Hok. assert (Hok' := Hok). destruct Hok' as (k & Hk & Hc).
  assert (Hthis : this_cpu s = k) by by apply this_cpu_Some.
  assert (Hholding : holding lk e s = Ret (bool_decide (held_by s lk = Some (tp s))) e s).
  { unfold holding, held_by, mycpu, cpuid. msimp.
    destruct (locked (lock_of s lk) =? 0); cbn; [|done]. by rewrite bool_decide_false. }
  assert (Hacq : acquire lk e s =
    (if bool_decide (held_by s lk = Some (tp s)) then Panic "acquire" (on_cpu push_cpu s) else
     (test_and_set lk;; c ← mycpu; set_lock lk (fun l => l <| lcpu := Some c |>))
       e (on_cpu push_cpu s))).
  { unfold acquire. rewrite bindE, (push_off_Ret _ _ k) by done.
    unfold holding, mycpu, cpuid. msimp. change (lock_of (on_cpu push_cpu s) lk) with (lock_of s lk).
    change (tp (on_cpu push_cpu s)) with (tp s). unfold held_by.
    destruct (locked (lock_of s lk) =? 0); cbn [negb andb]; [done|].
    by destruct (bool_decide (lcpu (lock_of s lk) = Some (tp s))). }
  split; [|split; [|split]].
  - intros Hfree. exists (enter lk s), (left_off s).
    rewrite acquire_Ret, release_enter by done. split; [done|].
    destruct Hfree as (n & Hl). repeat split.
    + unfold held_by, enter, lock_of. cbn. by rewrite lookup_insert_eq.
    + rewrite (this_cpu_Some _ (push_cpu k)); [done|]. by apply (on_cpu_here push_cpu).
    + unfold left_off. rewrite Hthis, (this_cpu_Some _ _ (on_cpu_here _ _ _ Hk)).
      by apply pop_push_same.
    + unfold left_off. rewrite Hthis, (this_cpu_Some _ _ (on_cpu_here _ _ _ Hk)).
      by apply pop_push_same.
  - intros Hh. rewrite Hacq, bool_decide_true by done. eauto.
  - intros Hh. unfold release. rewrite bindE, Hholding, bool_decide_false by done. done.
  - intros Hl Hh. rewrite Hacq, bool_decide_false, bindE by done. unfold test_and_set.
    change (lock_of (on_cpu push_cpu s) lk) with (lock_of s lk).
    destruct (Z.eqb_spec (locked (lock_of s lk)) 0); [done|]. eauto.
Qed.

Definition one_hart (lk : lockid) (l : spinlock) : mach :=
  mkMach 0 [mkCpu None (mkContext 0 0 []) 0 false true csrs0] {[lk := l]} ∅ 0 0 [] None 1 0 [] ∅ [] []
    no_bcache no_log no_superblock [] no_devices.

Lemma spinlock_protocol_witness :
  exists s1 s2, acquire Lkmem [] (one_hart Lkmem (mkSpinlock 0 "kmem" None)) = Ret tt [] s1 /\
    held_by s1 Lkmem = Some 0%nat /\ sie (this_cpu s1) = false /\
    release Lkmem [] s1 = Ret tt [] s2 /\
    locks s2 = locks (one_hart Lkmem (mkSpinlock 0 "kmem" None)) /\
    noff (this_cpu s2) = 0 /\ sie (this_cpu s2) = true.
Proof.
  apply (spinlock_protocol Lkmem [] (one_hart Lkmem (mkSpinlock 0 "kmem" None))).
  - eexists. split; [reflexivity|]. split; [cbn; lia|]. cbn. lia.
  - exists "kmem"%string. reflexivity.
Defined.

(** ** Nesting of push_off and pop_off *)

Fixpoint times (n : nat) (m : M unit) : M unit :=
  match n with O => mret tt | S n => m;; times n m end.

Lemma times_push n e s :
  hart_ok s -> times n push_off e s = Ret tt e (on_cpu (Nat.iter n push_cpu) s).
Proof.
  revert s. induction n as [|n IH]; intros s Hok.
  - cbn [times]. cbn [mret M_ret]. unfold on_cpu. destruct s. cbn. rewrite list_alter_id; done.
  - assert (Hok' := Hok). destruct Hok' as (k & Hk & Hc). cbn [times].
    rewrite bindE, (push_off_Ret _ _ k) by done.
    rewrite IH by (apply hart_ok_on_cpu; [apply push_cpu_cpu_ok|done]). rewrite on_cpu_on_cpu.
    f_equal. apply (on_cpu_ext _ _ _ k); [done|]. unfold compose.
    by rewrite <- Nat.iter_succ_r.
Qed.

Lemma iter_push_noff n c :
  cpu_ok c -> cpu_ok (Nat.iter n push_cpu c) /\ noff (Nat.iter n push_cpu c) = noff c + Z.of_nat n.
Proof.
  intros Hc. induction n as [|n [IH1 IH2]]; [split; [done|cbn; lia]|].
  change (Nat.iter (S n) push_cpu c) with (push_cpu (Nat.iter n push_cpu c)).
  split; [by apply push_cpu_cpu_ok|].
  change (noff (push_cpu ?k)) with (Z.succ (noff k)). lia.
Qed.

Lemma pop_push_nested c : cpu_ok c -> 0 < noff c -> pop_cpu (push_cpu c) = c.
Proof. intros Hc Hn. rewrite pop_push_cpu by done. by destruct (Z.eqb_spec (noff c) 0); [lia|]. Qed.

Lemma times_pop n e s c :
  cpus s !! tp s = Some (Nat.iter (S n) push_cpu c) -> cpu_ok c ->
  exists s', times (S n) pop_off e s = Ret tt e s' /\
    cpus s' !! tp s' = Some (pop_cpu (push_cpu c)) /\ tp s' = tp s /\ locks s' = locks s.
Proof.
  revert s. induction n as [|n IH]; intros s Hs Hc.
  - assert (Hc' := push_cpu_cpu_ok c Hc). destruct (push_cpu_ok c Hc) as [Hp1 Hp2].
    cbn [times]. rewrite bindE, (pop_off_Ret _ _ (push_cpu c)) by done. eexists. split; [done|].
    repeat split. by apply (on_cpu_here pop_cpu).
  - destruct (iter_push_noff (S n) c Hc) as [H1 H2].
    destruct (push_cpu_ok _ H1) as [Hp1 Hp2].
    change (times (S (S n)) pop_off) with (pop_off;; times (S n) pop_off). rewrite bindE.
    rewrite (pop_off_Ret _ _ (Nat.iter (S (S n)) push_cpu c)) by done.
    destruct (IH (on_cpu pop_cpu s)) as (s' & Hr & Hs' & Ht & Hl); [|done|].
    + rewrite (on_cpu_here pop_cpu _ _ Hs). f_equal. apply pop_push_nested; [done|].
      destruct Hc. lia.
    + exists s'. by rewrite Hr.
Qed.

(** [push_off] and [pop_off] match: any number of [push_off]s, during
    which interrupts are off, followed by as many [pop_off]s leaves the
    nesting depth and the interrupt enable bit as they were and panics
    nowhere. *)
Theorem push_pop_nested (n : nat) (e : env) (s : mach) :
  hart_ok s ->
  exists s1 s2, times (S n) push_off e s = Ret tt e s1 /\ sie (this_cpu s1) = false /\
    times (S n) pop_off e s1 = Ret tt e s2 /\
    noff (this_cpu s2) = noff (this_cpu s) /\ sie (this_cpu s2) = sie (this_cpu s) /\
    locks s2 = locks s.
Proof.
  intros Hok. assert (Hok' := Hok). destruct Hok' as (k & Hk & Hc).
  rewrite times_push by done.
  pose proof (on_cpu_here (Nat.iter (S n) push_cpu) s k Hk) as H1.
  destruct (times_pop n e _ k H1 Hc) as (s2 & Hp & Hs2 & Ht & Hl).
  exists (on_cpu (Nat.iter (S n) push_cpu) s), s2.
  split; [done|]. rewrite (this_cpu_Some _ _ H1), (this_cpu_Some _ _ Hs2), (this_cpu_Some _ _ Hk).
  split; [done|]. split; [done|]. destruct (pop_push_same k Hc). by split.
Qed.

Lemma push_pop_nested_witness :
  exists s1 s2, times 3 push_off [] (one_hart Lkmem (mkSpinlock 0 "kmem" None)) = Ret tt [] s1 /\
    sie (this_cpu s1) = false /\ times 3 pop_off [] s1 = Ret tt [] s2 /\
    noff (this_cpu s2) = 0 /\ sie (this_cpu s2) = true /\
    locks s2 = {[Lkmem := mkSpinlock 0 "kmem" None]}.
Proof.
  apply (push_pop_nested 2 [] (one_hart Lkmem (mkSpinlock 0 "kmem" None))).
  eexists. split; [reflexivity|]. split; [cbn; lia|]. cbn. lia.
Defined.

(** ** Mutual exclusion

    The atomic steps of [acquire] and [release] on one lock, interleaved over
    all harts.  A hart is between two of the following points of the code. *)

Module Smp.

Inductive point : Set :=
| Outside        (* not using the lock *)
| Pushed         (* acquire: after push_off(), at if(holding(lk)) *)
| Spinning       (* acquire: at the test-and-set loop *)
| Taken          (* acquire: before lk->cpu = mycpu() *)
| Inside         (* between acquire and release *)
| Clearing       (* release: lk->cpu = 0 done, before __sync_lock_release *)
| Leaving        (* release: before pop_off() *)
| Panicked.

Record conf := mkConf { points : list point; lock : spinlock }.

#[global] Instance conf_settable : Settable conf := fun c => mkConf (points c) (lock c).

Definition holding_by (c : nat) (l : spinlock) : bool :=
  negb (locked l =? 0) && bool_decide (lcpu l = Some c).

(** The step of hart [c] at point [p]: its next point and the lock. *)
Definition advance (c : nat) (p : point) (l : spinlock) : point * spinlock :=
  match p with
  | Outside => (Pushed, l)
  | Pushed => if holding_by c l then (Panicked, l) else (Spinning, l)
  | Spinning => if locked l =? 0 then (Taken, l <| locked := 1 |>) else (Spinning, l)
  | Taken => (Inside, l <| lcpu := Some c |>)
  | Inside => if holding_by c l then (Clearing, l <| lcpu := None |>) else (Panicked, l)
  | Clearing => (Leaving, l <| locked := 0 |>)
  | Leaving => (Outside, l)
  | Panicked => (Panicked, l)
  end.

Inductive step : conf -> conf -> Prop :=
| step_hart c p k : points k !! c = Some p ->
    step k {| points := <[c := (advance c p (lock k)).1]> (points k);
              lock := (advance c p (lock k)).2 |}.

Inductive reachable (n : nat) : conf -> Prop :=
| reach_init name : reachable n {| points := replicate n Outside; lock := mkSpinlock 0 name None |}
| reach_step k k' : reachable n k -> step k k' -> reachable n k'.

(** The points at which a hart owns the lock. *)
Definition owns (p : point) : bool :=
  match p with Taken | Inside | Clearing => true | _ => false end.

Record inv (k : conf) : Prop := mkInv {
  inv_free : locked (lock k) = 0 -> forall c p, points k !! c = Some p -> owns p = false;
  inv_owner : locked (lock k) <> 0 -> exists o p, points k !! o = Some p /\ owns p = true /\
    forall c p', points k !! c = Some p' -> owns p' = true -> c = o;
  inv_cpu : forall c, lcpu (lock k) = Some c <-> points k !! c = Some Inside;
  inv_panic : forall c, points k !! c <> Some Panicked
}.

(** At most one hart owns the lock. *)
Lemma inv_unique k c1 c2 p1 p2 :
  inv k -> points k !! c1 = Some p1 -> points k !! c2 = Some p2 ->
  owns p1 = true -> owns p2 = true -> c1 = c2.
Proof.
  intros [Hf Ho _ _] H1 H2 O1 O2. destruct (decide (locked (lock k) = 0)) as [H0|H0].
  - specialize (Hf H0 _ _ H1). congruence.
  - destruct (Ho H0) as (o & p & _ & _ & Hu). rewrite (Hu _ _ H1 O1), (Hu _ _ H2 O2). done.
Qed.

Lemma owner_locked k c p : inv k -> points k !! c = Some p -> owns p = true -> locked (lock k) <> 0.
Proof. intros [Hf _ _ _] Hc Hp H0. specialize (Hf H0 _ _ Hc). congruence. Qed.

Lemma lookup_insert_cases {A} (l : list A) i j x y :
  <[i := x]> l !! j = Some y -> (i = j /\ y = x) \/ (i <> j /\ l !! j = Some y).
Proof.
  destruct (decide (i = j)) as [->|Hne].
  - intros H. pose proof (lookup_lt_Some _ _ _ H) as Hlt. rewrite length_insert in Hlt.
    rewrite list_lookup_insert_eq in H by done. left. split; congruence.
  - rewrite list_lookup_insert_ne by done. auto.
Qed.

(** A step that changes the point of one hart and not the lock's owner. *)
Lemma inv_same_lock k c p p' :
  inv k -> points k !! c = Some p -> owns p' = owns p -> p' <> Panicked ->
  (p = Inside <-> p' = Inside) ->
  inv {| points := <[c := p']> (points k); lock := lock k |}.
Proof.
  intros Hi Hc Ho Hp Hin. assert (Hi' := Hi). destruct Hi' as [H1 H2 H3 H4].
  assert (Hlt : (c < length (points k))%nat) by by eapply lookup_lt_Some.
  split; cbn [lock points].
  - intros H0 c' q [[<- ->]|[_ Hq]]%lookup_insert_cases; [rewrite Ho|]; eauto.
  - intros H0. destruct (H2 H0) as (o & q & Hq & Hoq & Hu). destruct (decide (c = o)) as [<-|Hne].
    + exists c, p'. rewrite list_lookup_insert_eq by done. simplify_eq.
      split; [done|]. split; [congruence|].
      intros c' q' [[<- ->]|[_ Hq']]%lookup_insert_cases; eauto.
    + exists o, q. rewrite list_lookup_insert_ne by done. split; [done|]. split; [done|].
      intros c' q' [[<- ->]|[_ Hq']]%lookup_insert_cases Hw; [|eauto].
      rewrite Ho in Hw. eauto.
  - intros c'. rewrite H3. destruct (decide (c = c')) as [<-|Hne].
    + rewrite list_lookup_insert_eq by done. rewrite Hc. naive_solver.
    + by rewrite list_lookup_insert_ne.
  - intros c' [[<- ?]|[_ Hq]]%lookup_insert_cases; [congruence|]. by eapply H4.
Qed.

(** The steps that take, mark, clear and free the lock. *)
Lemma inv_take k c :
  inv k -> points k !! c = Some Spinning -> locked (lock k) = 0 ->
  inv {| points := <[c := Taken]> (points k); lock := lock k <| locked := 1 |> |}.
Proof.
  intros [H1 H2 H3 H4] Hc H0. specialize (H1 H0).
  assert (Hlt : (c < length (points k))%nat) by by eapply lookup_lt_Some.
  split; cbn.
  - done.
  - intros _. exists c, Taken. rewrite list_lookup_insert_eq by done. split; [done|]. split; [done|].
    intros c' q [[<- ->]|[_ Hq]]%lookup_insert_cases Hw; [done|].
    rewrite (H1 _ _ Hq) in Hw. done.
  - intros c'. rewrite H3. destruct (decide (c = c')) as [<-|Hne].
    + rewrite list_lookup_insert_eq by done. naive_solver.
    + by rewrite list_lookup_insert_ne.
  - intros c' [[<- ?]|[_ Hq]]%lookup_insert_cases; [done|]. by eapply H4.
Qed.

Lemma inv_own_step k c p p' cp :
  inv k -> points k !! c = Some p -> owns p = true -> owns p' = true ->
  (cp = Some c /\ p' = Inside \/ cp = None /\ p' <> Inside) ->
  inv {| points := <[c := p']> (points k); lock := lock k <| lcpu := cp |> |}.
Proof.
  intros Hi Hc Hp Hp' Hcp. assert (Hi' := Hi). destruct Hi' as [H1 H2 H3 H4].
  assert (Hlt : (c < length (points k))%nat) by by eapply lookup_lt_Some.
  pose proof (owner_locked _ _ _ Hi Hc Hp) as Hl.
  assert (Hu : forall c' q, points k !! c' = Some q -> owns q = true -> c' = c).
  { intros c' q Hq Hw. by eapply inv_unique. }
  split; cbn.
  - intros H0. congruence.
  - intros _. exists c, p'. rewrite list_lookup_insert_eq by done. split; [done|]. split; [done|].
    intros c' q [[<- ->]|[_ Hq]]%lookup_insert_cases Hw; eauto.
  - intros c'. destruct (decide (c = c')) as [<-|Hne].
    + rewrite list_lookup_insert_eq by done. naive_solver.
    + rewrite list_lookup_insert_ne by done. split.
      * intros Hcp'. naive_solver.
      * intros Hin. destruct Hne. symmetry. by eapply Hu.
  - intros c' [[<- <-]|[_ Hq]]%lookup_insert_cases; [done|]. by eapply H4.
Qed.

Lemma inv_release k c :
  inv k -> points k !! c = Some Clearing ->
  inv {| points := <[c := Leaving]> (points k); lock := lock k <| locked := 0 |> |}.
Proof.
  intros Hi Hc. assert (Hi' := Hi). destruct Hi' as [H1 H2 H3 H4].
  assert (Hlt : (c < length (points k))%nat) by by eapply lookup_lt_Some.
  split; cbn.
  - intros _ c' q [[<- ->]|[Hne Hq]]%lookup_insert_cases; [done|].
    destruct (owns q) eqn:Hw; [|done]. destruct Hne. by apply (inv_unique k c c' Clearing q).
  - done.
  - intros c'. rewrite H3. destruct (decide (c = c')) as [<-|Hne].
    + rewrite list_lookup_insert_eq by done. naive_solver.
    + by rewrite list_lookup_insert_ne.
  - intros c' [[<- ?]|[_ Hq]]%lookup_insert_cases; [done|]. by eapply H4.
Qed.

Lemma inv_step k k' : inv k -> step k k' -> inv k'.
Proof.
  intros Hi Hs. revert Hi. destruct Hs as [c p k0 Hc]. intros Hi.
  assert (Hi' := Hi). destruct Hi' as [H1 H2 H3 H4].
  destruct p; cbn [advance fst snd].
  - by eapply inv_same_lock; [| | | |split].
  - assert (Hh : holding_by c (lock k0) = false).
    { unfold holding_by. rewrite (bool_decide_false (lcpu (lock k0) = Some c)).
      - by rewrite andb_false_r.
      - rewrite H3. congruence. }
    rewrite Hh. cbn [fst snd]. by eapply inv_same_lock; [| | | |split].
  - destruct (Z.eqb_spec (locked (lock k0)) 0) as [H0|H0].
    + by apply inv_take.
    + by eapply inv_same_lock; [| | | |split].
  - eapply inv_own_step; eauto.
  - assert (Hh : holding_by c (lock k0) = true).
    { unfold holding_by. rewrite (bool_decide_true (lcpu (lock k0) = Some c)) by by rewrite H3.
      destruct (Z.eqb_spec (locked (lock k0)) 0) as [H0|H0]; [|done].
      by specialize (H1 H0 _ _ Hc). }
    rewrite Hh. cbn [fst snd]. eapply inv_own_step; eauto.
  - by apply inv_release.
  - by eapply inv_same_lock; [| | | |split].
  - by destruct (H4 c).
Qed.

Lemma inv_reachable n k : reachable n k -> inv k.
Proof.
  induction 1 as [name|k k' _ IH Hs]; [|by eapply inv_step].
  split; cbn.
  - by intros _ c p [-> _]%lookup_replicate.
  - done.
  - intros c. split; [done|]. by intros [? _]%lookup_replicate.
  - by intros c [? _]%lookup_replicate.
Qed.

(** C1. Mutual exclusion.  However the harts are interleaved, two of them
    are never between [acquire] and [release] of the same lock at once,
    neither call panics, and [holding] answers true exactly on the hart that
    is inside. *)
Theorem spinlock_mutual_exclusion (n : nat) (k : conf) :
  reachable n k ->
  (forall c1 c2, points k !! c1 = Some Inside -> points k !! c2 = Some Inside -> c1 = c2) /\
  (forall c, points k !! c <> Some Panicked) /\
  (forall c, holding_by c (lock k) = true <-> points k !! c = Some Inside).
Proof.
  intros Hr. pose proof (inv_reachable n k Hr) as Hi. repeat split.
  - intros c1 c2 Hc1 Hc2. by eapply inv_unique.
  - apply Hi.
  - unfold holding_by. intros [_ Hb]%andb_true_iff. apply Hi. by apply bool_decide_eq_true in Hb.
  - intros Hc. unfold holding_by. rewrite bool_decide_true by by apply Hi.
    pose proof (owner_locked k c Inside Hi Hc eq_refl).
    by destruct (Z.eqb_spec (locked (lock k)) 0).
Qed.

(** Two harts compete; hart 1 spins while hart 0 is inside. *)
Lemma spinlock_mutual_exclusion_witness :
  exists k, reachable 2 k /\ points k = [Inside; Spinning] /\
    forall c1 c2, points k !! c1 = Some Inside -> points k !! c2 = Some Inside -> c1 = c2.
Proof.
  set (run := fun k c => match points k !! c with
    | Some p => {| points := <[c := (advance c p (lock k)).1]> (points k);
                   lock := (advance c p (lock k)).2 |}
    | None => k end).
  set (k0 := {| points := replicate 2 Outside; lock := mkSpinlock 0 "l" None |}).
  set (k := foldl run k0 [0; 1; 0; 1; 0; 0; 1]%nat).
  assert (Hr : reachable 2 k).
  { unfold k. cbn [foldl].
    do 7 (eapply reach_step; [|apply step_hart; vm_compute; reflexivity]). apply reach_init. }
  exists k. split; [exact Hr|]. split; [vm_compute; reflexivity|].
  apply (spinlock_mutual_exclusion 2 k Hr).
Defined.

End Smp.
