(* ===== verification/Kalloc.v ===== *)
(** * Physical page allocator

    Model of [kernel/kalloc.c].  The free list is threaded through the free
    pages themselves: the first word of a free page is the address of the
    next one.  Its abstraction is the list of the free pages. *)
From stdpp Require Import base tactics list numbers gmap strings.
From S2P Require Import Prelude Machine Spinlock StringC.

Open Scope Z_scope.

(** ** Code *)

Section kalloc.
Context `{Linker}.

Definition kfree (pa : Z) : M unit :=
  if negb (pa mod PGSIZE =? 0) || (pa <? kernel_end) || (PHYSTOP <=? pa)
  then panic "kfree"%string
  else
    modify (fun s => s <| mem ::= fun m => memset m pa 1 PGSIZE |>);;
    acquire Lkmem;;
    modify (fun s => s <| mem ::= fun m => store64 m pa (freelist s) |>);;
    modify (fun s => s <| freelist := pa |>);;
    release Lkmem.

Definition kalloc : M Z :=
  acquire Lkmem;;
  r ← read freelist;
  when (negb (r =? 0)) (modify (fun s => s <| freelist := load64 (mem s) r |>));;
  release Lkmem;;
  when (negb (r =? 0)) (modify (fun s => s <| mem ::= fun m => memset m r 5 PGSIZE |>));;
  mret r.

(** [for(; p + PGSIZE <= pa_end; p += PGSIZE) kfree(p);] *)
Definition freerange_step (pa_end p : Z) : M (Z + unit) :=
  if p + PGSIZE <=? pa_end then kfree p;; mret (inl (p + PGSIZE)) else mret (inr tt).

Definition freerange (fuel : nat) (pa_start pa_end : Z) : M unit :=
  loop fuel (freerange_step pa_end) (PGROUNDUP pa_start).

Definition kinit (fuel : nat) : M unit :=
  initlock Lkmem "kmem";;
  freerange fuel kernel_end PHYSTOP.

(** ** Effect of the operations *)

Definition page_ok (pa : Z) : Prop := pa mod PGSIZE = 0 /\ kernel_end <= pa < PHYSTOP.

#[global] Instance page_ok_dec pa : Decision (page_ok pa).
Proof. unfold page_ok. apply _. Defined.

(** The part of the machine the allocator needs: a hart in order and the
    allocator's lock free. *)
Definition kmem_ready (s : mach) : Prop := hart_ok s /\ free_lock s Lkmem.

Definition freed (pa : Z) (s : mach) : mach :=
  s <| mem := store64 (memset (mem s) pa 1 PGSIZE) pa (freelist s) |> <| freelist := pa |>.

Definition allocated (s : mach) : mach :=
  if freelist s =? 0 then s
  else s <| freelist := load64 (mem s) (freelist s) |>
         <| mem := memset (mem s) (freelist s) 5 PGSIZE |>.

Lemma kfree_guard pa :
  negb (pa mod PGSIZE =? 0) || (pa <? kernel_end) || (PHYSTOP <=? pa) = negb (bool_decide (page_ok pa)).
Proof.
  unfold page_ok. case_bool_decide as Hb; unfold PGSIZE in *.
  - zb.
  - destruct (Z.eqb_spec (pa mod 4096) 0); [|done]. cbn. zb.
Qed.

Lemma kfree_Ret pa e s :
  kmem_ready s -> page_ok pa -> kfree pa e s = Ret tt e (left_off (freed pa s)).
Proof.
  intros [Hok Hfree] Hpa. unfold kfree. rewrite kfree_guard, bool_decide_true by done. cbn [negb].
  msimp. rewrite acquire_Ret by done. msimp.
  apply (release_from Lkmem e _ (freed pa s)); [|done|done].
  unfold enter, freed, on_cpu. cbn. reflexivity.
Qed.

Lemma kfree_Panic pa e s : ~ page_ok pa -> kfree pa e s = Panic "kfree" s.
Proof. intros Hpa. unfold kfree. by rewrite kfree_guard, bool_decide_false. Qed.

Lemma kalloc_Ret e s :
  kmem_ready s -> kalloc e s = Ret (freelist s) e (left_off (allocated s)).
Proof.
  intros [Hok Hfree]. unfold kalloc. rewrite bindE, acquire_Ret by done. msimp.
  change (freelist (enter Lkmem s)) with (freelist s). unfold allocated.
  destruct (Z.eqb_spec (freelist s) 0) as [H0|H0]; cbn [negb when]; msimp.
  - rewrite release_enter by done. done.
  - rewrite (release_from Lkmem e _ (s <| freelist := load64 (mem s) (freelist s) |>)); [|by unfold enter, on_cpu|done..].
    unfold left_off, on_cpu. cbn. reflexivity.
Qed.

(** ** The free pages *)

Fixpoint free_pages (m : bytes) (head : Z) (l : list Z) : Prop :=
  match l with
  | [] => head = 0
  | p :: l => head = p /\ page_ok p /\ free_pages m (load64 m p) l
  end.

(** The abstraction: [l] is the list of the free pages of [s]. *)
Definition kmem_inv (s : mach) (l : list Z) : Prop :=
  free_pages (mem s) (freelist s) l /\ NoDup l.

Lemma free_pages_ok m h l : free_pages m h l -> Forall page_ok l.
Proof. revert h. induction l as [|p l IH]; intros h; [constructor|]. intros (_ & ? & ?). eauto. Qed.

(** Bytes of a page. *)
Definition in_page (p b : Z) : Prop := p <= b < p + PGSIZE.

Lemma in_page_disjoint p q b :
  page_ok p -> page_ok q -> in_page p b -> in_page q b -> p = q.
Proof.
  unfold page_ok, in_page, PGSIZE. intros [Hp _] [Hq _] H1 H2.
  apply Z.div_exact in Hp; [|lia]. apply Z.div_exact in Hq; [|lia]. lia.
Qed.

(** The free list survives whatever happens outside the free pages. *)
Lemma free_pages_ext m1 m2 h l :
  (forall p b, p ∈ l -> in_page p b -> load8 m1 b = load8 m2 b) ->
  free_pages m2 h l -> free_pages m1 h l.
Proof.
  revert h. induction l as [|p l IH]; intros h Hm; [done|]. intros (-> & Hp & Hl).
  split; [done|]. split; [done|].
  rewrite (load64_ext m1 m2).
  - apply IH; [|done]. intros q b Hq. apply Hm. by right.
  - intros b Hb. apply (Hm p); [by left|]. unfold in_page, PGSIZE. lia.
Qed.

Hypothesis end_pos : 0 < kernel_end.

Lemma page_word p : page_ok p -> u64 p = p.
Proof. intros [_ Hp]. apply u64_id. unfold PHYSTOP, KERNBASE in Hp. lia. Qed.

Lemma free_pages_head m h l : free_pages m h l -> u64 h = h.
Proof. destruct l as [|p l]; cbn; [by intros ->|]. intros (-> & Hp & _). by apply page_word. Qed.

Lemma kmem_inv_kfree s l pa :
  kmem_inv s l -> page_ok pa -> pa ∉ l -> kmem_inv (freed pa s) (pa :: l).
Proof.
  intros [Hl Hnd] Hpa Hnew. split; [|by apply list.NoDup_cons].
  cbn [freed free_pages mem freelist update_with]. split; [done|]. split; [done|].
  rewrite load64_store64, (free_pages_head _ _ _ Hl).
  eapply free_pages_ext; [|exact Hl]. intros p b Hp Hb.
  assert (Hpok : page_ok p).
  { pose proof (free_pages_ok _ _ _ Hl) as HF. rewrite list.Forall_forall in HF. auto. }
  assert (Hout : ~ in_page pa b). { intros Hin. rewrite (in_page_disjoint pa p b) in Hnew; done. }
  unfold in_page, PGSIZE in Hout. unfold store64.
  rewrite load8_store_le by lia. rewrite load8_memset by done. unfold PGSIZE. zb.
Qed.

Lemma kmem_inv_kalloc s p l :
  kmem_inv s (p :: l) -> freelist s = p /\ p <> 0 /\ kmem_inv (allocated s) l.
Proof.
  intros [(Hp & Hpok & Hl) [Hnew Hnd]%list.NoDup_cons].
  assert (Hp0 : p <> 0) by (destruct Hpok; lia). split; [done|]. split; [done|].
  unfold allocated. rewrite Hp. destruct (Z.eqb_spec p 0); [done|].
  split; [|done]. cbn [mem freelist update_with]. eapply free_pages_ext; [|exact Hl]. intros q b Hq Hb.
  assert (Hqok : page_ok q).
  { pose proof (free_pages_ok _ _ _ Hl) as HF. rewrite list.Forall_forall in HF. auto. }
  rewrite load8_memset by done. unfold PGSIZE.
  destruct ((p <=? b) && (b <? p + 4096)) eqn:Hb'; [|done].
  destruct Hnew. rewrite (in_page_disjoint p q b); [done..| |done].
  unfold in_page, PGSIZE. zb.
Qed.

Lemma kmem_ready_freed pa s : kmem_ready s -> kmem_ready (left_off (freed pa s)).
Proof. intros [H1 H2]. split; [by apply (hart_ok_left_off (freed pa s))|exact H2]. Qed.

Lemma kmem_ready_allocated s : kmem_ready s -> kmem_ready (left_off (allocated s)).
Proof.
  intros [H1 H2]. unfold allocated. case_match.
  - split; [by apply hart_ok_left_off|exact H2].
  - split; [|exact H2]. by apply (hart_ok_left_off
      (s <| freelist := load64 (mem s) (freelist s) |> <| mem := memset (mem s) (freelist s) 5 PGSIZE |>)).
Qed.

(** The allocator refines a list of free pages.  [kalloc] takes the
    first free page, filled with 5s, or returns 0 when there is none;
    [kfree] of a page that is not free makes it the first; both change
    memory in that page only.  [kfree] panics on anything that is not the
    start of a page between the end of the kernel and PHYSTOP. *)
Theorem kalloc_kfree_refine (e : env) (s : mach) (l : list Z) :
  kmem_ready s -> kmem_inv s l ->
  (exists r s', kalloc e s = Ret r e s' /\ kmem_ready s' /\ procs s' = procs s /\
     match l with
     | [] => r = 0 /\ kmem_inv s' [] /\ mem s' = mem s
     | p :: l' => r = p /\ page_ok p /\ p ∉ l' /\ kmem_inv s' l' /\
         (forall b, in_page p b -> load8 (mem s') b = 5) /\
         (forall b, ~ in_page p b -> load8 (mem s') b = load8 (mem s) b)
     end) /\
  (forall pa, page_ok pa -> pa ∉ l ->
     exists s', kfree pa e s = Ret tt e s' /\ kmem_ready s' /\ procs s' = procs s /\
       kmem_inv s' (pa :: l) /\
       (forall b, ~ in_page pa b -> load8 (mem s') b = load8 (mem s) b)) /\
  (forall pa, ~ page_ok pa -> kfree pa e s = Panic "kfree" s).
Proof using end_pos.
  intros Hr Hl. split; [|split].
  - rewrite kalloc_Ret by done. eexists _, _. split; [done|].
    split; [by apply kmem_ready_allocated|].
    split; [unfold allocated; by destruct (freelist s =? 0)|].
    destruct l as [|p l].
    + destruct Hl as [Hl Hnd]. cbn in Hl. unfold allocated. rewrite Hl. change (0 =? 0) with true.
      split; [done|]. split; [by split|done].
    + destruct (kmem_inv_kalloc s p l Hl) as (Hp & Hp0 & Hl').
      destruct Hl as [(_ & Hpok & _) [Hnew _]%list.NoDup_cons].
      split; [done|]. split; [done|]. split; [done|]. split; [exact Hl'|].
      unfold allocated. rewrite Hp. destruct (Z.eqb_spec p 0); [done|].
      split; intros b Hb; cbn [left_off on_cpu mem update_with];
        rewrite load8_memset by done; unfold in_page in Hb; zb.
  - intros pa Hpa Hnew. rewrite kfree_Ret by done. eexists. split; [done|].
    split; [by apply kmem_ready_freed|]. split; [done|].
    split; [by apply (kmem_inv_kfree s l pa)|]. intros b Hb.
    cbn [left_off on_cpu freed mem update_with]. unfold in_page, PGSIZE in Hb. unfold store64.
    rewrite load8_store_le by lia. rewrite load8_memset by done. unfold PGSIZE. zb.
  - intros pa Hpa. by apply kfree_Panic.
Qed.

(** ** Clients *)

Inductive request : Set := Alloc | Free (k : nat).

(** A client that owns the pages [owned] and frees only pages it owns. *)
Fixpoint client (rs : list request) (owned : list Z) : M (list Z) :=
  match rs with
  | [] => mret owned
  | Alloc :: rs => r ← kalloc; client rs (if r =? 0 then owned else r :: owned)
  | Free k :: rs =>
      match owned !! k with
      | Some p => kfree p;; client rs (delete k owned)
      | None => client rs owned
      end
  end.

(** C2. No page is handed out twice and none is lost: whatever sequence of
    allocations, and frees of pages it owns, a client performs, the calls
    return, and the pages it owns together with the free pages are the pages
    that were free at first, each once. *)
Theorem kalloc_no_page_twice (rs : list request) (e : env) (s : mach) (owned free : list Z) :
  kmem_ready s -> kmem_inv s free -> NoDup (owned ++ free) -> Forall page_ok owned ->
  exists owned' free' s', client rs owned e s = Ret owned' e s' /\
    kmem_inv s' free' /\ owned' ++ free' ≡ₚ owned ++ free /\ NoDup (owned' ++ free').
Proof using end_pos.
  revert s owned free. induction rs as [|[|k] rs IH]; intros s owned free Hr Hf Hnd Hok.
  - exists owned, free, s. done.
  - cbn [client]. rewrite bindE, kalloc_Ret by done.
    pose proof (kmem_ready_allocated s Hr) as Hr'. destruct free as [|p free].
    + assert (H0 : freelist s = 0) by apply Hf.
      assert (Ha : allocated s = s) by (unfold allocated; by rewrite H0). rewrite Ha in *. rewrite H0.
      change (0 =? 0) with true. cbn match. by apply IH.
    + destruct (kmem_inv_kalloc s p free Hf) as (-> & Hp0 & Hf').
      rewrite (proj2 (Z.eqb_neq _ _) Hp0).
      assert (Hperm : (p :: owned) ++ free ≡ₚ owned ++ p :: free).
      { cbn. by rewrite Permutation_middle. }
      destruct (IH (left_off (allocated s)) (p :: owned) free) as (o' & f' & s' & H1 & H2 & H3 & H4).
      * done.
      * exact Hf'.
      * by rewrite Hperm.
      * constructor; [|done]. by destruct Hf as [(_ & ? & _) _].
      * exists o', f', s'. by rewrite H3, Hperm.
  - cbn [client]. destruct (owned !! k) as [p|] eqn:Hk; [|by apply IH].
    assert (Hpok : page_ok p) by exact (Forall_lookup_1 _ _ _ _ Hok Hk).
    rewrite bindE, kfree_Ret by done.
    assert (Hperm : delete k owned ++ p :: free ≡ₚ owned ++ free).
    { rewrite <- Permutation_middle. rewrite app_comm_cons. by rewrite <- delete_Permutation. }
    assert (Hnew : p ∉ free).
    { apply list.NoDup_app in Hnd as (_ & Hd & _). apply Hd. by eapply list_elem_of_lookup_2. }
    destruct (IH (left_off (freed p s)) (delete k owned) (p :: free))
      as (o' & f' & s' & H1 & H2 & H3 & H4).
    + by apply kmem_ready_freed.
    + by apply (kmem_inv_kfree s free p).
    + by rewrite Hperm.
    + by apply Forall_delete.
    + exists o', f', s'. by rewrite H3, Hperm.
Qed.

(** ** Initialisation *)

Lemma freerange_spec fuel p e s l :
  kmem_ready s -> kmem_inv s l -> p mod PGSIZE = 0 -> kernel_end <= p -> p <= PHYSTOP ->
  (forall q, q ∈ l <-> page_ok q /\ q < p) ->
  (PHYSTOP - p) / PGSIZE < Z.of_nat fuel ->
  exists s' l', loop fuel (freerange_step PHYSTOP) p e s = Ret tt e s' /\
    kmem_ready s' /\ kmem_inv s' l' /\ (forall q, q ∈ l' <-> page_ok q).
Proof using end_pos.
  revert p s l. induction fuel as [|fuel IH]; intros p s l Hr Hl Hal Hlo Hhi Hin Hf.
  { pose proof (Z.div_pos (PHYSTOP - p) PGSIZE). unfold PGSIZE in *. lia. }
  cbn [loop]. rewrite bindE. unfold freerange_step at 1.
  destruct (Z.leb_spec (p + PGSIZE) PHYSTOP) as [Hle|Hgt].
  - assert (Hp : page_ok p) by (split; [done|unfold PGSIZE in *; lia]).
    assert (Hnew : p ∉ l) by (intros [_ ?]%Hin; lia).
    rewrite bindE, kfree_Ret by done. cbn [mret M_ret].
    apply (IH (p + PGSIZE) _ (p :: l)).
    + by apply kmem_ready_freed.
    + by apply (kmem_inv_kfree s l p).
    + unfold PGSIZE in *. rewrite <- Z.add_mod_idemp_r, Z.mod_same, Z.add_0_r by lia. done.
    + unfold PGSIZE. lia.
    + done.
    + intros q. rewrite elem_of_cons, Hin. unfold page_ok, PGSIZE in *. split.
      * intros [->|[Hq Hlt]]; [split; [done|lia]|split; [done|lia]].
      * intros [Hq Hlt]. destruct (decide (q = p)) as [->|Hne]; [by left|]. right.
        split; [done|]. destruct Hq as [Hq _]. apply Z.div_exact in Hq; [|lia].
        apply Z.div_exact in Hal; [|lia]. lia.
    + replace (PHYSTOP - (p + PGSIZE)) with (PHYSTOP - p + -1 * PGSIZE) by lia.
      rewrite Z.div_add by (unfold PGSIZE; lia). lia.
  - cbn [mret M_ret]. exists s, l. split; [done|]. split; [done|]. split; [done|].
    intros q. rewrite Hin. split; [by intros [? _]|]. intros Hq. split; [done|].
    assert (Heq : p = PHYSTOP).
    { unfold PGSIZE, PHYSTOP, KERNBASE in *. apply Z.div_exact in Hal; [|lia]. lia. }
    destruct Hq as [_ Hq]. lia.
Qed.

(** [kinit] makes every whole page between the end of the kernel and
    PHYSTOP free, and no other, once each. *)
Theorem kinit_frees_all_pages (fuel : nat) (e : env) (s : mach) :
  hart_ok s -> freelist s = 0 -> kernel_end <= PHYSTOP ->
  (PHYSTOP - kernel_end) / PGSIZE < Z.of_nat fuel ->
  exists s' l, kinit fuel e s = Ret tt e s' /\ kmem_ready s' /\ kmem_inv s' l /\
    (forall q, q ∈ l <-> page_ok q).
Proof using end_pos.
  intros Hok Hfree Hend Hfuel. unfold kinit. rewrite bindE. unfold initlock, set_lock, modify.
  unfold freerange. set (s1 := s <| locks ::= _ |>).
  assert (Hup : PGROUNDUP kernel_end = (kernel_end + PGSIZE - 1) / PGSIZE * PGSIZE).
  { apply PGROUNDUP_eq; unfold PHYSTOP, KERNBASE, PGSIZE in *; lia. }
  assert (Hdm := Z.div_mod (kernel_end + PGSIZE - 1) PGSIZE ltac:(done)).
  pose proof (Z.mod_pos_bound (kernel_end + PGSIZE - 1) PGSIZE ltac:(done)) as Hmb.
  assert (Hle : PGROUNDUP kernel_end <= PHYSTOP).
  { rewrite Hup. unfold PHYSTOP, KERNBASE, PGSIZE in *. lia. }
  destruct (freerange_spec fuel (PGROUNDUP kernel_end) e s1 []) as (s' & l & H1 & H2 & H3 & H4).
  - split; [exact Hok|]. exists "kmem"%string. cbn. by rewrite lookup_insert_eq.
  - split; [exact Hfree|constructor].
  - rewrite Hup. apply Z.mod_mul. done.
  - rewrite Hup. unfold PGSIZE in *. lia.
  - done.
  - intros q. split; [by intros ?%elem_of_nil|]. intros [[Hq Hr] Hlt]. exfalso.
    apply Z.div_exact in Hq; [|done]. rewrite Hup in Hlt. unfold PGSIZE in *. lia.
  - eapply Z.le_lt_trans; [|exact Hfuel]. apply Z.div_le_mono; [done|].
    rewrite Hup. unfold PGSIZE in *. lia.
  - exists s', l. done.
Qed.
End kalloc.

(** ** Concrete instances: a kernel that ends two pages below PHYSTOP *)

Definition two_pages : Linker :=
  {| kernel_end := PHYSTOP - 2 * PGSIZE; etext := KERNBASE; trampoline := KERNBASE;
     forkret_entry := KERNBASE |}.

(** One hart, and one free page. *)
Definition one_free : mach :=
  one_hart Lkmem (mkSpinlock 0 "kmem" None) <| freelist := PHYSTOP - PGSIZE |>.

Lemma one_free_ready : kmem_ready one_free.
Proof.
  split; [|by exists "kmem"%string]. eexists. split; [reflexivity|]. split; [cbn; lia|]. cbn. lia.
Qed.

Lemma one_free_inv : @kmem_inv two_pages one_free [PHYSTOP - PGSIZE].
Proof.
  split; [|apply NoDup_singleton]. split; [done|]. split; [|done]. by vm_compute.
Qed.

Lemma kalloc_kfree_refine_witness :
  exists r s', @kalloc [] one_free = Ret r [] s' /\ r = PHYSTOP - PGSIZE /\
    @kmem_inv two_pages s' [].
Proof.
  destruct (@kalloc_kfree_refine two_pages eq_refl [] one_free [PHYSTOP - PGSIZE]
    one_free_ready one_free_inv) as ((r & s' & H1 & _ & _ & Hr & _ & _ & Hinv & _) & _ & _).
  exists r, s'. auto.
Defined.

Lemma kalloc_no_page_twice_witness :
  exists owned' free' s',
    @client two_pages [Alloc; Alloc; Free 0] [] [] one_free = Ret owned' [] s' /\
    @kmem_inv two_pages s' free' /\ owned' ++ free' ≡ₚ [] ++ [PHYSTOP - PGSIZE] /\
    NoDup (owned' ++ free').
Proof.
  apply (@kalloc_no_page_twice two_pages eq_refl [Alloc; Alloc; Free 0] [] one_free []
           [PHYSTOP - PGSIZE] one_free_ready one_free_inv).
  - apply NoDup_singleton.
  - constructor.
Defined.

Lemma kinit_frees_all_pages_witness :
  exists s' l, @kinit two_pages 3 [] (one_hart Lkmem (mkSpinlock 0 "" None)) = Ret tt [] s' /\
    kmem_ready s' /\ @kmem_inv two_pages s' l /\ (forall q, q ∈ l <-> @page_ok two_pages q).
Proof.
  apply (@kinit_frees_all_pages two_pages eq_refl 3 [] (one_hart Lkmem (mkSpinlock 0 "" None))).
  - eexists. split; [reflexivity|]. split; [cbn; lia|]. cbn. lia.
  - reflexivity.
  - vm_compute. discriminate.
  - vm_compute. reflexivity.
Defined.
