(* ===== verification/Vm.v ===== *)
(** * Virtual memory

    Model of [kernel/vm.c] (and [proc_mapstacks] of [kernel/proc.c]): Sv39
    page tables in byte memory.  A page table is the address of its page, the
    null pointer is 0.  Loops carry a bound on the number of their iterations
    that the arguments determine.  Kernel buffers that [copyin] fills and
    [copyout] reads are lists of bytes. *)
From stdpp Require Import base tactics list numbers gmap strings.
From S2P Require Import Prelude Machine Spinlock StringC Kalloc.

Open Scope Z_scope.

(** ** Page table entries: [kernel/riscv.h] *)

Definition PTE_V : Z := 1.
Definition PTE_R : Z := 2.
Definition PTE_W : Z := 4.
Definition PTE_X : Z := 8.
Definition PTE_U : Z := 16.

Definition PA2PTE (pa : Z) : Z := u64 (Z.shiftl (Z.shiftr pa 12) 10).
Definition PTE2PA (pte : Z) : Z := u64 (Z.shiftl (Z.shiftr pte 10) 12).
Definition PTE_FLAGS (pte : Z) : Z := Z.land pte 0x3FF.
Definition PX (level va : Z) : Z := Z.land (Z.shiftr va (12 + 9 * level)) 0x1FF.

(** [pte & flag] as a condition. *)
Definition has (pte flag : Z) : bool := negb (Z.land pte flag =? 0).

(** Devices of [kernel/memlayout.h]. *)
Definition UART0 : Z := 0x10000000.
Definition VIRTIO0 : Z := 0x10001000.
Definition PLIC : Z := 0x0c000000.

(** ** Code *)

Definition load_word (a : Z) : M Z := read (fun s => load64 (mem s) a).
Definition store_word (a v : Z) : M unit := modify (fun s => s <| mem ::= fun m => store64 m a v |>).
(** Page zero is not mapped. *)
Definition memset_mem (dst c n : Z) : M unit :=
  if dst =? 0 then fault else modify (fun s => s <| mem ::= fun m => memset m dst c n |>).

Section vm.
Context `{Linker}.

(** [for(int level = 2; level > 0; level--)] from [level] down. *)
Fixpoint walk_levels (level : nat) (pagetable va : Z) (alloc : bool) : M Z :=
  match level with
  | O => mret (pagetable + 8 * PX 0 va)
  | S below =>
      let pte := pagetable + 8 * PX (Z.of_nat level) va in
      v ← load_word pte;
      if has v PTE_V then walk_levels below (PTE2PA v) va alloc
      else if negb alloc then mret 0
      else
        pagetable ← kalloc;
        if pagetable =? 0 then mret 0
        else
          memset_mem pagetable 0 PGSIZE;;
          store_word pte (Z.lor (PA2PTE pagetable) PTE_V);;
          walk_levels below pagetable va alloc
  end.

Definition walk (pagetable va : Z) (alloc : bool) : M Z :=
  if MAXVA <=? va then panic "walk"%string else walk_levels 2 pagetable va alloc.

Definition walkaddr (pagetable va : Z) : M Z :=
  if MAXVA <=? va then mret 0
  else
    pte ← walk pagetable va false;
    if pte =? 0 then mret 0
    else
      v ← load_word pte;
      if negb (has v PTE_V) then mret 0
      else if negb (has v PTE_U) then mret 0
      else mret (PTE2PA v).

(** One iteration of [for(;;)] of [mappages]; the state is [a] and [pa]. *)
Definition mappages_step (pagetable last perm : Z) (st : Z * Z) : M ((Z * Z) + Z) :=
  let '(a, pa) := st in
  pte ← walk pagetable a true;
  if pte =? 0 then mret (inr (-1))
  else
    v ← load_word pte;
    if has v PTE_V then panic "mappages: remap"%string
    else
      store_word pte (Z.lor (Z.lor (PA2PTE pa) perm) PTE_V);;
      if a =? last then mret (inr 0) else mret (inl (u64 (a + PGSIZE), u64 (pa + PGSIZE))).

Definition mappages (pagetable va size pa perm : Z) : M Z :=
  if negb (va mod PGSIZE =? 0) then panic "mappages: va not aligned"%string
  else if negb (size mod PGSIZE =? 0) then panic "mappages: size not aligned"%string
  else if size =? 0 then panic "mappages: size"%string
  else
    loop (Z.to_nat (size / PGSIZE)) (mappages_step pagetable (u64 (va + size - PGSIZE)) perm) (va, pa).

Definition kvmmap (kpgtbl va pa sz perm : Z) : M unit :=
  r ← mappages kpgtbl va sz pa perm;
  if negb (r =? 0) then panic "kvmmap"%string else mret tt.

(** One iteration of the loop of [uvmunmap]; the state is [a]. *)
Definition uvmunmap_step (pagetable end_ : Z) (do_free : bool) (a : Z) : M (Z + unit) :=
  if end_ <=? a then mret (inr tt)
  else
    pte ← walk pagetable a false;
    if pte =? 0 then panic "uvmunmap: walk"%string
    else
      v ← load_word pte;
      if negb (has v PTE_V) then panic "uvmunmap: not mapped"%string
      else if PTE_FLAGS v =? PTE_V then panic "uvmunmap: not a leaf"%string
      else
        when do_free (kfree (PTE2PA v));;
        store_word pte 0;;
        mret (inl (u64 (a + PGSIZE))).

Definition uvmunmap (pagetable va npages : Z) (do_free : bool) : M unit :=
  if negb (va mod PGSIZE =? 0) then panic "uvmunmap: not aligned"%string
  else
    loop (S (Z.to_nat npages)) (uvmunmap_step pagetable (u64 (va + npages * PGSIZE)) do_free) va.

Definition uvmcreate : M Z :=
  pagetable ← kalloc;
  if pagetable =? 0 then mret 0 else memset_mem pagetable 0 PGSIZE;; mret pagetable.

(** Copy a kernel buffer to memory. *)
Fixpoint store_bytes (m : bytes) (a : Z) (l : list Z) : bytes :=
  match l with
  | [] => m
  | c :: l => store_bytes (store8 m a c) (a + 1) l
  end.

(** [n] bytes of memory as a kernel buffer. *)
Definition load_bytes (m : bytes) (a n : Z) : list Z :=
  (fun i => load8 m (a + i)) <$> seqZ 0 n.

Definition uvmfirst (pagetable : Z) (src : list Z) : M unit :=
  if PGSIZE <=? Z.of_nat (length src) then panic "uvmfirst: more than a page"%string
  else
    mem_ ← kalloc;
    memset_mem mem_ 0 PGSIZE;;
    mappages pagetable 0 PGSIZE mem_ (Z.lor PTE_W (Z.lor PTE_R (Z.lor PTE_X PTE_U)));;
    modify (fun s => s <| mem ::= fun m => store_bytes m mem_ src |>).

Definition uvmdealloc (pagetable oldsz newsz : Z) : M Z :=
  if oldsz <=? newsz then mret oldsz
  else
    when (PGROUNDUP newsz <? PGROUNDUP oldsz)
      (let npages := u64 (i32 ((PGROUNDUP oldsz - PGROUNDUP newsz) / PGSIZE)) in
       uvmunmap pagetable (PGROUNDUP newsz) npages true);;
    mret newsz.

(** One iteration of the loop of [uvmalloc]; the state is [a]. *)
Definition uvmalloc_step (pagetable oldsz newsz xperm a : Z) : M (Z + Z) :=
  if newsz <=? a then mret (inr newsz)
  else
    mem_ ← kalloc;
    if mem_ =? 0 then uvmdealloc pagetable a oldsz;; mret (inr 0)
    else
      memset_mem mem_ 0 PGSIZE;;
      r ← mappages pagetable a PGSIZE mem_ (Z.lor (Z.lor PTE_R PTE_U) xperm);
      if negb (r =? 0) then kfree mem_;; uvmdealloc pagetable a oldsz;; mret (inr 0)
      else mret (inl (u64 (a + PGSIZE))).

Definition uvmalloc (pagetable oldsz newsz xperm : Z) : M Z :=
  if newsz <? oldsz then mret oldsz
  else
    let oldsz := PGROUNDUP oldsz in
    loop (S (S (Z.to_nat ((newsz - oldsz) / PGSIZE))))
      (uvmalloc_step pagetable oldsz newsz xperm) oldsz.

(** [depth] bounds the recursion; a page table has three levels. *)
Fixpoint freewalk_rec (depth : nat) (pagetable : Z) : M unit :=
  match depth with
  | O => fun _ _ => NoFuel
  | S below =>
      for_each (seqZ 0 512) (fun i =>
        pte ← load_word (pagetable + 8 * i);
        if has pte PTE_V && (Z.land pte (Z.lor PTE_R (Z.lor PTE_W PTE_X)) =? 0) then
          freewalk_rec below (PTE2PA pte);;
          store_word (pagetable + 8 * i) 0
        else if has pte PTE_V then panic "freewalk: leaf"%string
        else mret tt);;
      kfree pagetable
  end.

Definition freewalk (pagetable : Z) : M unit := freewalk_rec 3 pagetable.

Definition uvmfree (pagetable sz : Z) : M unit :=
  when (0 <? sz) (uvmunmap pagetable 0 (PGROUNDUP sz / PGSIZE) true);;
  freewalk pagetable.

(** One iteration of the loop of [uvmcopy]; the state is [i]. *)
Definition uvmcopy_step (old new sz i : Z) : M (Z + Z) :=
  if sz <=? i then mret (inr 0)
  else
    pte ← walk old i false;
    if pte =? 0 then panic "uvmcopy: pte should exist"%string
    else
      v ← load_word pte;
      if negb (has v PTE_V) then panic "uvmcopy: page not present"%string
      else
        let pa := PTE2PA v in
        let flags := PTE_FLAGS v in
        mem_ ← kalloc;
        if mem_ =? 0 then uvmunmap new 0 (i / PGSIZE) true;; mret (inr (-1))
        else
          modify (fun s => s <| mem ::= fun m => memmove m mem_ pa PGSIZE |>);;
          r ← mappages new i PGSIZE mem_ flags;
          if negb (r =? 0) then
            kfree mem_;;
            uvmunmap new 0 (i / PGSIZE) true;;
            mret (inr (-1))
          else mret (inl (u64 (i + PGSIZE))).

Definition uvmcopy (old new sz : Z) : M Z :=
  loop (S (S (Z.to_nat (sz / PGSIZE)))) (uvmcopy_step old new sz) 0.

Definition uvmclear (pagetable va : Z) : M unit :=
  pte ← walk pagetable va false;
  if pte =? 0 then panic "uvmclear"%string
  else
    v ← load_word pte;
    store_word pte (Z.land v (Z.lnot PTE_U)).

(** One iteration of the loop of [copyout]; the state is [dstva] and the
    bytes left. *)
Definition copyout_step (pagetable : Z) (st : Z * list Z) : M ((Z * list Z) + Z) :=
  let '(dstva, src) := st in
  let len := Z.of_nat (length src) in
  if len =? 0 then mret (inr 0)
  else
    let va0 := PGROUNDDOWN dstva in
    if MAXVA <=? va0 then mret (inr (-1))
    else
      pte ← walk pagetable va0 false;
      if pte =? 0 then mret (inr (-1))
      else
        v ← load_word pte;
        if negb (has v PTE_V) || negb (has v PTE_U) || negb (has v PTE_W) then mret (inr (-1))
        else
          let pa0 := PTE2PA v in
          let n := PGSIZE - (dstva - va0) in
          let n := if len <? n then len else n in
          modify (fun s => s <| mem ::= fun m =>
            store_bytes m (pa0 + (dstva - va0)) (take (Z.to_nat n) src) |>);;
          mret (inl (u64 (va0 + PGSIZE), drop (Z.to_nat n) src)).

Definition copyout (pagetable dstva : Z) (src : list Z) : M Z :=
  loop (S (S (length src))) (copyout_step pagetable) (dstva, src).

(** One iteration of the loop of [copyin]; the state is [srcva], [len] and
    the bytes copied so far.  The result is the return value and the bytes
    that were written to the buffer, also when the copy fails on the way. *)
Definition copyin_step (pagetable : Z) (st : Z * Z * list Z) :
    M ((Z * Z * list Z) + Z * list Z) :=
  let '(srcva, len, dst) := st in
  if len =? 0 then mret (inr (0, dst))
  else
    let va0 := PGROUNDDOWN srcva in
    pa0 ← walkaddr pagetable va0;
    if pa0 =? 0 then mret (inr (-1, dst))
    else
      let n := PGSIZE - (srcva - va0) in
      let n := if len <? n then len else n in
      chunk ← read (fun s => load_bytes (mem s) (pa0 + (srcva - va0)) n);
      mret (inl (u64 (va0 + PGSIZE), len - n, dst ++ chunk)).

Definition copyin (pagetable srcva len : Z) : M (Z * list Z) :=
  loop (S (S (Z.to_nat len))) (copyin_step pagetable) (srcva, len, []).

(** The bytes of a chunk up to its first nul, and whether there is one. *)
Fixpoint until_nul (l : list Z) : list Z * bool :=
  match l with
  | [] => ([], false)
  | c :: l => if c =? 0 then ([], true) else let '(l, b) := until_nul l in (c :: l, b)
  end.

(** One iteration of the loop of [copyinstr]; the state is [srcva], [max] and
    the bytes copied so far. *)
Definition copyinstr_step (pagetable : Z) (st : Z * Z * list Z) :
    M ((Z * Z * list Z) + option (list Z)) :=
  let '(srcva, max, dst) := st in
  if max =? 0 then mret (inr None)
  else
    let va0 := PGROUNDDOWN srcva in
    pa0 ← walkaddr pagetable va0;
    if pa0 =? 0 then mret (inr None)
    else
      let n := PGSIZE - (srcva - va0) in
      let n := if max <? n then max else n in
      chunk ← read (fun s => load_bytes (mem s) (pa0 + (srcva - va0)) n);
      let '(copied, got_null) := until_nul chunk in
      if got_null : bool then mret (inr (Some (dst ++ copied)))
      else mret (inl (u64 (va0 + PGSIZE), max - n, dst ++ copied)).

Definition copyinstr (pagetable srcva max : Z) : M (option (list Z)) :=
  loop (S (S (Z.to_nat max))) (copyinstr_step pagetable) (srcva, max, []).

(** ** The kernel's page table *)

Definition proc_mapstacks (kpgtbl : Z) : M unit :=
  for_each proc_table (fun i =>
    pa ← kalloc;
    if pa =? 0 then panic "kalloc"%string
    else kvmmap kpgtbl (KSTACK (Z.of_nat i)) pa PGSIZE (Z.lor PTE_R PTE_W)).

Definition kvmmake : M Z :=
  kpgtbl ← kalloc;
  memset_mem kpgtbl 0 PGSIZE;;
  kvmmap kpgtbl UART0 UART0 PGSIZE (Z.lor PTE_R PTE_W);;
  kvmmap kpgtbl VIRTIO0 VIRTIO0 PGSIZE (Z.lor PTE_R PTE_W);;
  kvmmap kpgtbl PLIC PLIC 0x4000000 (Z.lor PTE_R PTE_W);;
  kvmmap kpgtbl KERNBASE KERNBASE (u64 (etext - KERNBASE)) (Z.lor PTE_R PTE_X);;
  kvmmap kpgtbl etext etext (u64 (PHYSTOP - etext)) (Z.lor PTE_R PTE_W);;
  kvmmap kpgtbl TRAMPOLINE trampoline PGSIZE (Z.lor PTE_R PTE_X);;
  proc_mapstacks kpgtbl;;
  mret kpgtbl.

Definition kvminit : M unit :=
  k ← kvmmake;
  modify (fun s => s <| kernel_pagetable := k |>).

End vm.

(** ** Entries and indices *)

Lemma shiftr_small f n : 0 <= n -> 0 <= f < 2 ^ n -> Z.shiftr f n = 0.
Proof. intros Hn Hf. rewrite Z.shiftr_div_pow2 by done. by apply Z.div_small. Qed.

Lemma lor_small a b n : 0 <= n -> 0 <= a < 2 ^ n -> 0 <= b < 2 ^ n -> 0 <= Z.lor a b < 2 ^ n.
Proof.
  intros Hn Ha Hb. split; [apply Z.lor_nonneg; lia|].
  assert (Hs : Z.shiftr (Z.lor a b) n = 0).
  { by rewrite Z.shiftr_lor, !shiftr_small. }
  rewrite Z.shiftr_div_pow2 in Hs by done.
  assert (0 <= Z.lor a b) by (apply Z.lor_nonneg; lia).
  apply Z.div_small_iff in Hs; [|lia]. lia.
Qed.

(** An entry takes an address apart and puts it together again. *)
Lemma entry_fields x f :
  0 <= x -> 0 <= f < 2 ^ 10 ->
  Z.shiftr (Z.lor (Z.shiftl x 10) f) 10 = x /\ Z.land (Z.lor (Z.shiftl x 10) f) 0x3FF = f.
Proof.
  intros Hx Hf. split.
  - rewrite Z.shiftr_lor, (shiftr_small f) by lia. rewrite Z.lor_0_r.
    rewrite Z.shiftr_shiftl_l by lia. by rewrite Z.shiftl_0_r.
  - change 0x3FF with (Z.ones 10). rewrite Z.land_lor_distr_l, !Z.land_ones by lia.
    rewrite (Z.mod_small f) by lia. rewrite Z.shiftl_mul_pow2, Z.mod_mul by lia. done.
Qed.

(** Page table entries encode losslessly.  For a page-aligned physical
    address below 2^56 and permission bits below 2^10, the entry that
    [mappages] writes is valid, [PTE2PA] gives back the address and
    [PTE_FLAGS] the permissions with the valid bit; and the three indices
    [walk] extracts from a virtual address below MAXVA determine its page. *)
Theorem pte_roundtrip (pa perm va1 va2 : Z) :
  pa mod PGSIZE = 0 -> 0 <= pa < 2 ^ 56 -> 0 <= perm < 2 ^ 10 ->
  0 <= va1 < MAXVA -> 0 <= va2 < MAXVA ->
  (let pte := Z.lor (Z.lor (PA2PTE pa) perm) PTE_V in
   has pte PTE_V = true /\ PTE2PA pte = pa /\ PTE_FLAGS pte = Z.lor perm PTE_V) /\
  ((forall level, 0 <= level <= 2 -> PX level va1 = PX level va2) -> va1 / PGSIZE = va2 / PGSIZE).
Proof.
  intros Hal Hpa Hperm Hva1 Hva2. split.
  - assert (Hx : 0 <= Z.shiftr pa 12) by (apply Z.shiftr_nonneg; lia).
    assert (HA : PA2PTE pa = Z.shiftl (Z.shiftr pa 12) 10).
    { unfold PA2PTE. apply u64_id. rewrite Z.shiftl_mul_pow2, Z.shiftr_div_pow2 by lia.
      Z.to_euclidean_division_equations. lia. }
    cbn zeta. rewrite HA, <- Z.lor_assoc.
    destruct (entry_fields (Z.shiftr pa 12) (Z.lor perm PTE_V) Hx) as [H1 H2].
    { apply lor_small; [lia|done|]. unfold PTE_V. lia. }
    split; [|split].
    + unfold has. rewrite Z.lor_assoc, Z.land_lor_distr_l.
      change (Z.land PTE_V PTE_V) with 1.
      destruct (Z.eqb_spec (Z.lor (Z.land (Z.lor (Z.shiftl (Z.shiftr pa 12) 10) perm) PTE_V) 1) 0)
        as [H0|]; [|done].
      apply Z.lor_eq_0_iff in H0 as [_ ?]. done.
    + unfold PTE2PA. rewrite H1, Z.shiftl_mul_pow2, Z.shiftr_div_pow2 by lia.
      apply Z.div_exact in Hal; [|done]. unfold PGSIZE in Hal. change (2 ^ 12) with 4096.
      rewrite u64_id by lia. lia.
    + exact H2.
  - intros HPX. unfold PX in HPX.
    pose proof (HPX 0 ltac:(lia)) as P0. pose proof (HPX 1 ltac:(lia)) as P1.
    pose proof (HPX 2 ltac:(lia)) as P2. clear HPX.
    change 0x1FF with (Z.ones 9) in *. rewrite !Z.land_ones, !Z.shiftr_div_pow2 in * by lia.
    change MAXVA with (2 ^ 38) in *. unfold PGSIZE.
    change (12 + 9 * 0) with 12 in *. change (12 + 9 * 1) with 21 in *.
    change (12 + 9 * 2) with 30 in *.
    assert (Hd : forall v, v / 2 ^ 21 = v / 2 ^ 12 / 2 ^ 9 /\ v / 2 ^ 30 = v / 2 ^ 12 / 2 ^ 18).
    { intros v. rewrite !Z.div_div by lia. done. }
    destruct (Hd va1) as [E1 E2], (Hd va2) as [E3 E4]. rewrite E1, E3 in P1. rewrite E2, E4 in P2.
    change 4096 with (2 ^ 12). assert (0 <= va1 / 2 ^ 12 < 2 ^ 26) by (split; [apply Z.div_pos; lia|apply Z.div_lt_upper_bound; lia]).
    assert (0 <= va2 / 2 ^ 12 < 2 ^ 26) by (split; [apply Z.div_pos; lia|apply Z.div_lt_upper_bound; lia]).
    generalize dependent (va1 / 2 ^ 12). generalize dependent (va2 / 2 ^ 12). intros.
    Z.to_euclidean_division_equations. lia.
Qed.

Lemma pte_roundtrip_witness :
  (let pte := Z.lor (Z.lor (PA2PTE 0x87fff000) 0x16) PTE_V in
   has pte PTE_V = true /\ PTE2PA pte = 0x87fff000 /\ PTE_FLAGS pte = 0x17) /\
  ((forall level, 0 <= level <= 2 -> PX level 0x3000 = PX level 0x3fff) -> 3 = 3).
Proof.
  apply (pte_roundtrip 0x87fff000 0x16 0x3000 0x3fff).
  - reflexivity.
  - vm_compute. split; [discriminate|reflexivity].
  - vm_compute. split; [discriminate|reflexivity].
  - vm_compute. split; [discriminate|reflexivity].
  - vm_compute. split; [discriminate|reflexivity].
Defined.

(** ** Address translation as a function of memory

    [walk] without allocation, and what the kernel reads and writes through
    it, depend on memory only. *)

Fixpoint walk_in (level : nat) (m : bytes) (pagetable va : Z) : Z :=
  match level with
  | O => pagetable + 8 * PX 0 va
  | S below =>
      let v := load64 m (pagetable + 8 * PX (Z.of_nat level) va) in
      if has v PTE_V then walk_in below m (PTE2PA v) va else 0
  end.

(** The entry [walk] finds, and its contents; an address that is not mapped
    has none. *)
Definition entry (m : bytes) (pagetable va : Z) : option Z :=
  if MAXVA <=? va then None
  else
    let pte := walk_in 2 m pagetable va in
    if pte =? 0 then None
    else if has (load64 m pte) PTE_V then Some (load64 m pte) else None.

(** The physical address of a user byte that is mapped with [flags]. *)
Definition user_addr (m : bytes) (pagetable va flags : Z) : option Z :=
  v ← entry m pagetable (PGROUNDDOWN va);
  if negb (has v PTE_U) || negb (Z.land v flags =? flags) then None
  else Some (PTE2PA v + (va - PGROUNDDOWN va)).

Section translation.
Context `{Linker}.

Lemma walk_levels_ro level pagetable va e s :
  walk_levels level pagetable va false e s = Ret (walk_in level (mem s) pagetable va) e s.
Proof.
  revert pagetable. induction level as [|level IH]; intros pagetable; [done|].
  cbn [walk_levels walk_in]. rewrite bindE. unfold load_word, read. case_match; [apply IH|done].
Qed.

Lemma walk_ro pagetable va e s :
  va < MAXVA -> walk pagetable va false e s = Ret (walk_in 2 (mem s) pagetable va) e s.
Proof. intros Hva. unfold walk. destruct (Z.leb_spec MAXVA va); [lia|]. apply walk_levels_ro. Qed.

Lemma walkaddr_ro pagetable va e s :
  walkaddr pagetable va e s =
  Ret (match entry (mem s) pagetable va with
       | Some v => if has v PTE_U then PTE2PA v else 0
       | None => 0 end) e s.
Proof.
  unfold walkaddr, entry. destruct (Z.leb_spec MAXVA va) as [Hge|Hlt]; [done|].
  rewrite bindE, walk_ro by done. destruct (walk_in 2 (mem s) pagetable va =? 0); [done|].
  rewrite bindE. unfold load_word, read.
  destruct (has (load64 (mem s) _) PTE_V); cbn [negb]; [|done].
  destruct (has _ PTE_U); done.
Qed.

Lemma page_offset va : 0 <= va < 2 ^ 64 -> 0 <= va - PGROUNDDOWN va < PGSIZE /\ 0 <= PGROUNDDOWN va <= va.
Proof.
  intros Hva. rewrite PGROUNDDOWN_eq by done. unfold PGSIZE.
  pose proof (Z.div_mod va 4096). pose proof (Z.mod_pos_bound va 4096).
  pose proof (Z.div_pos va 4096). lia.
Qed.

(** [copyin] of one byte. *)
Lemma copyin_byte pagetable va e s :
  0 <= va < 2 ^ 64 ->
  (forall a, user_addr (mem s) pagetable va 0 = Some a -> PGSIZE <= a) ->
  copyin pagetable va 1 e s =
  Ret (match user_addr (mem s) pagetable va 0 with
       | Some a => (0, [load8 (mem s) a]) | None => (-1, []) end) e s.
Proof.
  intros Hva Hpos. destruct (page_offset va Hva) as [Hoff _].
  unfold copyin. change (S (S (Z.to_nat 1))) with 3%nat. cbn [loop]. rewrite bindE.
  unfold copyin_step at 1. change (1 =? 0) with false. cbn match.
  rewrite bindE, walkaddr_ro. unfold user_addr in *.
  destruct (entry (mem s) pagetable (PGROUNDDOWN va)) as [v|] eqn:Hent; cbn [mbind option_bind] in *;
    [|done].
  rewrite Z.land_0_r in *. destruct (has v PTE_U); cbn [negb orb] in *; [|done].
  change (negb (0 =? 0)) with false in *. cbn match in *.
  specialize (Hpos _ eq_refl). destruct (Z.eqb_spec (PTE2PA v) 0) as [H0|H0]; [lia|].
  rewrite bindE. cbn [read]. replace (if 1 <? PGSIZE - (va - PGROUNDDOWN va) then 1
    else PGSIZE - (va - PGROUNDDOWN va)) with 1 by zb.
  cbn [mret M_ret]. rewrite bindE. unfold copyin_step. change (1 - 1 =? 0) with true. cbn match.
  cbn [mret M_ret app]. unfold load_bytes. change (seqZ 0 1) with [0]. cbn.
  by rewrite Z.add_0_r.
Qed.

Lemma has_W v : has v PTE_W = (Z.land v PTE_W =? PTE_W).
Proof.
  unfold has. change PTE_W with (2 ^ 2).
  destruct (Z.eqb_spec (Z.land v (2 ^ 2)) (2 ^ 2)) as [->|Hne]; [done|].
  destruct (Z.eqb_spec (Z.land v (2 ^ 2)) 0) as [|Hn0]; [done|]. exfalso.
  rewrite Z.land_comm in Hne, Hn0. apply Hn0.
  destruct (Z.testbit v 2) eqn:Hb.
  - destruct Hne. apply Z.bits_inj'. intros i Hi. rewrite Z.land_spec, Z.pow2_bits_eqb by lia.
    destruct (Z.eqb_spec 2 i) as [<-|]; [by rewrite Hb|done].
  - apply Z.bits_inj'. intros i Hi. rewrite Z.land_spec, Z.pow2_bits_eqb, Z.bits_0 by lia.
    destruct (Z.eqb_spec 2 i) as [<-|]; [by rewrite Hb|done].
Qed.

(** [copyout] of one byte. *)
Lemma copyout_byte pagetable va c e s :
  0 <= va < 2 ^ 64 ->
  copyout pagetable va [c] e s =
  match user_addr (mem s) pagetable va PTE_W with
  | Some a => Ret 0 e (s <| mem ::= fun m => store8 m a c |>)
  | None => Ret (-1) e s
  end.
Proof.
  intros Hva. destruct (page_offset va Hva) as [Hoff _].
  unfold copyout. cbn [length loop]. rewrite bindE. unfold copyout_step at 1.
  cbn [length]. change (Z.of_nat 1 =? 0) with false. cbn match. unfold user_addr, entry.
  destruct (Z.leb_spec MAXVA (PGROUNDDOWN va)) as [Hge|Hlt]; [done|].
  rewrite bindE, walk_ro by done.
  destruct (walk_in 2 (mem s) pagetable (PGROUNDDOWN va) =? 0); [done|].
  rewrite bindE. unfold load_word, read at 1.
  set (v := load64 (mem s) _). destruct (has v PTE_V); cbn [negb orb mbind option_bind]; [|done].
  destruct (has v PTE_U); cbn [negb orb]; [|done].
  rewrite has_W. destruct (Z.land v PTE_W =? PTE_W); cbn [negb]; [|done].
  replace (if Z.of_nat 1 <? PGSIZE - (va - PGROUNDDOWN va) then Z.of_nat 1
    else PGSIZE - (va - PGROUNDDOWN va)) with 1 by zb.
  rewrite bindE. cbn [modify]. change (Z.to_nat 1) with 1%nat. cbn [mret M_ret].
  rewrite bindE. unfold copyout_step. cbn. done.
Qed.
End translation.

(** ** Frame

    The code of this file changes memory and the free list and nothing else,
    when it runs with interrupts off and the allocator's lock is free. *)

Definition nested (s : mach) : Prop :=
  exists k, cpus s !! tp s = Some k /\ cpu_ok k /\ 0 < noff k.

Lemma enter_nested lk s : hart_ok s -> nested (enter lk s).
Proof.
  intros (k & Hk & Hok). exists (push_cpu k). split; [by apply (on_cpu_here push_cpu)|].
  split; [by apply push_cpu_cpu_ok|]. destruct (push_cpu_ok k Hok). lia.
Qed.

Lemma nested_left_off_id s : nested s -> left_off s = s.
Proof. intros (k & H1 & H2 & H3). by eapply left_off_nested. Qed.

Lemma nested_hart_ok s : nested s -> hart_ok s.
Proof. intros (k & H1 & H2 & _). by exists k. Qed.

(** A hart whose bookkeeping [push_off] and [pop_off] leave as it is. *)
Definition still (s : mach) : Prop := hart_ok s /\ left_off s = s.

Lemma nested_still s : nested s -> still s.
Proof. intros Hn. split; [by apply nested_hart_ok|by apply nested_left_off_id]. Qed.

Definition mem_only (s s' : mach) : Prop :=
  s' = s <| mem := mem s' |> <| freelist := freelist s' |>.

Definition vm_only {A} (m : M A) : Prop :=
  forall e s, still s -> free_lock s Lkmem ->
  match m e s with Ret _ e' s' => e' = e /\ mem_only s s' | _ => True end.

Lemma mem_only_refl s : mem_only s s.
Proof. unfold mem_only. by destruct s. Qed.

Lemma mem_only_trans s1 s2 s3 : mem_only s1 s2 -> mem_only s2 s3 -> mem_only s1 s3.
Proof. unfold mem_only. intros -> ->. by destruct s1. Qed.

Lemma mem_only_still s s' : mem_only s s' -> still s -> still s'.
Proof.
  intros -> [H1 H2]. split; [exact H1|]. unfold left_off, on_cpu in *. apply (f_equal cpus) in H2. cbn in *. by rewrite H2.
Qed.

Lemma mem_only_free s s' lk : mem_only s s' -> free_lock s lk -> free_lock s' lk.
Proof. intros ->. done. Qed.

Lemma vm_only_ret {A} (a : A) : vm_only (mret a).
Proof. intros e s _ _. cbn. split; [done|apply mem_only_refl]. Qed.

Lemma vm_only_bind {A B} (m : M A) (k : A -> M B) :
  vm_only m -> (forall a, vm_only (k a)) -> vm_only (m ≫= k).
Proof.
  intros Hm Hk e s Hn Hf. specialize (Hm e s Hn Hf). rewrite bindE.
  destruct (m e s) as [a e' s'| | | | |]; try done. destruct Hm as [-> Hs].
  specialize (Hk a e s' (mem_only_still _ _ Hs Hn) (mem_only_free _ _ _ Hs Hf)).
  destruct (k a e s') as [b e'' s''| | | | |]; try done. destruct Hk as [-> Hs'].
  split; [done|]. by eapply mem_only_trans.
Qed.

Lemma vm_only_read {T} (g : mach -> T) : vm_only (read g).
Proof. intros e s _ _. cbn. split; [done|apply mem_only_refl]. Qed.

Lemma vm_only_modify_mem g : vm_only (modify (fun s => s <| mem ::= g |>)).
Proof. intros e s _ _. cbn. split; [done|]. unfold mem_only. by destruct s. Qed.

Lemma vm_only_panic {A} msg : vm_only (@panic A msg).
Proof. done. Qed.

Lemma vm_only_fault {A} : vm_only (@fault A).
Proof. done. Qed.

Lemma vm_only_when b m : vm_only m -> vm_only (when b m).
Proof. intros Hm. destruct b; [done|apply vm_only_ret]. Qed.

Lemma vm_only_for_each {A} (l : list A) (g : A -> M unit) :
  (forall x, vm_only (g x)) -> vm_only (for_each l g).
Proof.
  intros Hg. induction l as [|x l IH]; [apply vm_only_ret|]. cbn [for_each].
  apply vm_only_bind; [done|]. by intros.
Qed.

Lemma vm_only_loop {St B} fuel (step : St -> M (St + B)) :
  (forall st, vm_only (step st)) -> forall st, vm_only (loop fuel step st).
Proof.
  intros Hs. induction fuel as [|n IH]; intros st; [done|]. cbn [loop].
  apply vm_only_bind; [done|]. intros [st'|b]; [done|apply vm_only_ret].
Qed.

Section frame.
Context `{Linker}.

Lemma vm_only_kalloc : vm_only kalloc.
Proof.
  intros e s Hn Hf. rewrite kalloc_Ret by (split; [by apply Hn|done]).
  split; [done|]. assert (Hs : mem_only s (allocated s)).
  { unfold allocated. destruct (freelist s =? 0); [apply mem_only_refl|].
    unfold mem_only. destruct s. cbn. reflexivity. }
  rewrite (proj2 (mem_only_still _ _ Hs Hn)). done.
Qed.

Lemma vm_only_kfree pa : vm_only (kfree pa).
Proof.
  intros e s Hn Hf. destruct (decide (page_ok pa)) as [Hp|Hp].
  - rewrite kfree_Ret by (done || (split; [by apply Hn|done])). split; [done|].
    assert (Hs : mem_only s (freed pa s)) by (unfold mem_only, freed; destruct s; cbn; reflexivity).
    rewrite (proj2 (mem_only_still _ _ Hs Hn)). done.
  - by rewrite kfree_Panic.
Qed.
End frame.

Create HintDb vm discriminated.
#[export] Hint Resolve vm_only_ret vm_only_read vm_only_panic vm_only_fault
  vm_only_modify_mem vm_only_kalloc vm_only_kfree : vm.

Ltac vm_step :=
  first
  [ solve [auto with vm]
  | apply vm_only_bind; [|intros]
  | apply vm_only_when
  | apply vm_only_for_each; intros
  | apply vm_only_loop; intros
  | match goal with
    | |- vm_only (if ?b then _ else _) => destruct b
    | |- vm_only (match ?x with _ => _ end) => destruct x
    end ].

Ltac vm_solve := repeat vm_step.

Section vm_functions.
Context `{Linker}.

Lemma vm_only_load_word a : vm_only (load_word a).
Proof. apply vm_only_read. Qed.

Lemma vm_only_store_word a v : vm_only (store_word a v).
Proof. apply (vm_only_modify_mem (fun m => store64 m a v)). Qed.

Lemma vm_only_memset_mem d c n : vm_only (memset_mem d c n).
Proof. unfold memset_mem. case_match; [done|]. apply (vm_only_modify_mem (fun m => memset m d c n)). Qed.

#[local] Hint Resolve vm_only_load_word vm_only_store_word vm_only_memset_mem : vm.

Lemma vm_only_walk pt va alloc : vm_only (walk pt va alloc).
Proof.
  unfold walk. case_match; [done|]. generalize 2%nat as level. intros level. revert pt.
  induction level as [|level IH]; intros pt; cbn [walk_levels]; vm_solve; apply IH.
Qed.
#[local] Hint Resolve vm_only_walk : vm.

Lemma vm_only_walkaddr pt va : vm_only (walkaddr pt va).
Proof. unfold walkaddr. vm_solve. Qed.

Lemma vm_only_mappages pt va size pa perm : vm_only (mappages pt va size pa perm).
Proof. unfold mappages, mappages_step. vm_solve. Qed.

Lemma vm_only_uvmunmap pt va n b : vm_only (uvmunmap pt va n b).
Proof. unfold uvmunmap, uvmunmap_step. vm_solve. Qed.

Lemma vm_only_uvmcreate : vm_only uvmcreate.
Proof. unfold uvmcreate. vm_solve. Qed.
#[local] Hint Resolve vm_only_walkaddr vm_only_mappages vm_only_uvmunmap vm_only_uvmcreate : vm.

Lemma vm_only_uvmdealloc pt o n : vm_only (uvmdealloc pt o n).
Proof. unfold uvmdealloc. vm_solve. Qed.
#[local] Hint Resolve vm_only_uvmdealloc : vm.

Lemma vm_only_uvmalloc pt o n x : vm_only (uvmalloc pt o n x).
Proof. unfold uvmalloc, uvmalloc_step. vm_solve. Qed.

Lemma vm_only_freewalk pt : vm_only (freewalk pt).
Proof.
  unfold freewalk. generalize 3%nat as depth. intros depth. revert pt.
  induction depth as [|depth IH]; intros pt; [done|]. cbn [freewalk_rec]. vm_solve; apply IH.
Qed.
#[local] Hint Resolve vm_only_freewalk : vm.

Lemma vm_only_uvmfree pt sz : vm_only (uvmfree pt sz).
Proof. unfold uvmfree. vm_solve. Qed.

Lemma vm_only_uvmcopy o n sz : vm_only (uvmcopy o n sz).
Proof.
  unfold uvmcopy, uvmcopy_step. vm_solve.
Qed.

Lemma vm_only_copyout pt va l : vm_only (copyout pt va l).
Proof. unfold copyout, copyout_step. vm_solve. Qed.
End vm_functions.

#[export] Hint Resolve vm_only_load_word vm_only_store_word vm_only_memset_mem vm_only_walk
  vm_only_walkaddr vm_only_mappages vm_only_uvmunmap vm_only_uvmcreate vm_only_uvmdealloc
  vm_only_uvmalloc vm_only_freewalk vm_only_uvmfree vm_only_uvmcopy vm_only_copyout : vm.
