(* ===== verification/VmRep.v ===== *)
(** * Page tables as maps

    A page table is a tree of three levels.  [pt_rep] relates it to the map
    from paths (the indices that lead to it) to directory pages; [leaf] is the
    entry of a virtual address, 0 where there is none.  [walk], [mappages] and
    [uvmunmap] update the leaves and nothing else, and take their directory
    pages from the free list. *)
From stdpp Require Import base tactics list numbers gmap strings.
From S2P Require Import Prelude Machine Wp Spinlock StringC Kalloc Vm.

Open Scope Z_scope.

(** ** Representation *)

Notation dirs := (gmap (list Z) Z).

(** The path of the directory of level [level] on the way to [va]. *)
Definition pth (va : Z) (level : nat) : list Z :=
  match level with O => [PX 2 va; PX 1 va] | S O => [PX 2 va] | _ => [] end.

(** What an entry of a directory leads to. *)
Definition link_of (v : Z) : option Z := if has v PTE_V then Some (PTE2PA v) else None.

Definition leaf (m : bytes) (D : dirs) (va : Z) : Z :=
  match D !! pth va 0 with Some q => load64 m (q + 8 * PX 0 va) | None => 0 end.

(** The entry that [mappages] writes. *)
Definition mk_pte (pa perm : Z) : Z := Z.lor (Z.lor (PA2PTE pa) perm) PTE_V.

Section rep.
Context `{LK : Linker}.

Record pt_rep (m : bytes) (root : Z) (D : dirs) : Prop := mkPtRep {
  pr_root : D !! [] = Some root;
  pr_inj : forall p q a, D !! p = Some a -> D !! q = Some a -> p = q;
  pr_page : forall p a, D !! p = Some a -> page_ok a;
  pr_link : forall p a i, D !! p = Some a -> (length p < 2)%nat -> 0 <= i < 512 -> D !! (p ++ [i]) = link_of (load64 m (a + 8 * i));
  pr_flags : forall p a i, D !! p = Some a -> (length p < 2)%nat -> 0 <= i < 512 -> has (load64 m (a + 8 * i)) PTE_V = true -> PTE_FLAGS (load64 m (a + 8 * i)) = PTE_V;
  pr_low : forall i p a, D !! (i :: p) = Some a -> i < 256;
  pr_up : forall p a, D !! p = Some a -> p = [] \/ exists q i, p = q ++ [i] /\ (length q < 2)%nat /\ 0 <= i < 512 /\ is_Some (D !! q)
}.

(** The state of the allocator and of one page table: [l] are the free pages. *)
Record vm_ok (s : mach) (root : Z) (D : dirs) (l : list Z) : Prop := mkVmOk {
  vo_ready : kmem_ready s;
  vo_free : kmem_inv s l;
  vo_rep : pt_rep (mem s) root D;
  vo_apart : forall p a, D !! p = Some a -> a ∉ l
}.

(** States that differ in memory, the free list and the flag that [push_off]
    leaves. *)
Definition mem_free (s : mach) : mach := left_off (s <| mem := ∅ |> <| freelist := 0 |>).
Definition alike (s t : mach) : Prop := mem_free t = mem_free s.

(** The directories that [walk] may add on its way to [va]. *)
Definition on_way (va : Z) (p : list Z) : Prop := p = pth va 0 \/ p = pth va 1.
Definition new_paths (P : list Z -> Prop) (D D' : dirs) : Prop := forall p a, D' !! p = Some a -> D !! p = Some a \/ P p.

(** A byte outside the pages of [D]. *)
Definition outside (D : dirs) (b : Z) : Prop := forall p a, D !! p = Some a -> ~ in_page a b.

(** Directories were added, with pages from the front of the free list. *)
Record grown (s : mach) (D : dirs) (l : list Z) (t : mach) (D' : dirs) (l' : list Z) : Prop := mkGrown {
  gr_sub : D ⊆ D';
  gr_used : exists used, l = used ++ l' /\ (forall p a, D' !! p = Some a -> D !! p = Some a \/ a ∈ used) /\
    forall a, a ∈ used -> exists p, D' !! p = Some a;
  gr_alike : alike s t;
  gr_out : forall b, outside D' b -> load8 (mem t) b = load8 (mem s) b
}.

(** ** Indices *)

Lemma PX_range level va : 0 <= PX level va < 512.
Proof. unfold PX. change 0x1FF with (Z.ones 9). rewrite Z.land_ones by lia. apply (Z.mod_pos_bound _ (2 ^ 9)). lia. Qed.

Lemma PX_top va : 0 <= va < MAXVA -> PX 2 va < 256.
Proof.
  intros Hva. unfold PX. change 0x1FF with (Z.ones 9). rewrite Z.land_ones, Z.shiftr_div_pow2 by lia. change MAXVA with (2 ^ 38) in *. change (12 + 9 * 2) with 30.
  Z.to_euclidean_division_equations. lia.
Qed.

(** The indices determine the page of an address. *)
Lemma PX_inj va1 va2 : 0 <= va1 < MAXVA -> 0 <= va2 < MAXVA ->
  pth va1 0 = pth va2 0 -> PX 0 va1 = PX 0 va2 -> va1 / PGSIZE = va2 / PGSIZE.
Proof.
  intros H1 H2 E P0. injection E as P2 P1. destruct (pte_roundtrip 0 0 va1 va2) as [_ H]; [done|lia|lia|done|done|]. apply H.
  intros level Hl. assert (level = 0 \/ level = 1 \/ level = 2) as [->|[->| ->]] by lia; done.
Qed.

(** Addresses of one page have the same indices. *)
Lemma PX_page va1 va2 level : 0 <= level -> 0 <= va1 -> 0 <= va2 -> va1 / PGSIZE = va2 / PGSIZE -> PX level va1 = PX level va2.
Proof.
  intros Hl H1 H2 E. unfold PX. f_equal. rewrite !Z.shiftr_div_pow2 by lia. rewrite Z.pow_add_r by lia.
  rewrite <- !Z.div_div by lia. change (2 ^ 12) with PGSIZE. by rewrite E.
Qed.

Lemma pth_page va1 va2 : 0 <= va1 -> 0 <= va2 -> va1 / PGSIZE = va2 / PGSIZE -> pth va1 0 = pth va2 0.
Proof. intros H1 H2 E. unfold pth. by rewrite !(PX_page va1 va2). Qed.

Lemma leaf_page m D va1 va2 : 0 <= va1 -> 0 <= va2 -> va1 / PGSIZE = va2 / PGSIZE -> leaf m D va1 = leaf m D va2.
Proof. intros H1 H2 E. unfold leaf. by rewrite (pth_page va1 va2), (PX_page va1 va2). Qed.

Lemma pth_next va level : (0 < level <= 2)%nat -> pth va level ++ [PX (Z.of_nat level) va] = pth va (level - 1).
Proof. destruct level as [|[|[|level]]]; [lia|done|done|lia]. Qed.

Lemma pth_length va level : (level <= 2)%nat -> length (pth va level) = (2 - level)%nat.
Proof. destruct level as [|[|[|level]]]; [done|done|done|lia]. Qed.

(** An entry of a page lies in the page. *)
Lemma entry_in_page a i b : 0 <= i < 512 -> a + 8 * i <= b < a + 8 * i + 8 -> in_page a b.
Proof. unfold in_page, PGSIZE. lia. Qed.

(** ** Walking *)

Lemma walk_in_rep m root D va : pt_rep m root D -> walk_in 2 m root va = match D !! pth va 0 with Some q => q + 8 * PX 0 va | None => 0 end.
Proof.
  intros R. cbn [walk_in]. change (Z.of_nat 2) with 2. change (Z.of_nat 1) with 1.
  assert (L2 := pr_link _ _ _ R [] root (PX 2 va) (pr_root _ _ _ R) ltac:(cbn; lia) (PX_range _ _)). cbn [app] in L2. unfold link_of in L2.
  destruct (has (load64 m (root + 8 * PX 2 va)) PTE_V).
  - assert (L1 := pr_link _ _ _ R [PX 2 va] _ (PX 1 va) L2 ltac:(cbn; lia) (PX_range _ _)). cbn [app] in L1. unfold link_of in L1. unfold pth. rewrite L1.
    by destruct (has (load64 m (PTE2PA _ + 8 * PX 1 va)) PTE_V).
  - destruct (D !! pth va 0) as [q|] eqn:E; [|done]. destruct (pr_up _ _ _ R _ _ E) as [?|(p & i & Ep & _ & _ & Hp)]; [done|].
    change (pth va 0) with ([PX 2 va] ++ [PX 1 va]) in Ep. apply app_inj_tail in Ep as [<- _]. rewrite L2 in Hp. by destruct Hp.
Qed.

Lemma entry_rep m root D va : pt_rep m root D -> (forall p a, D !! p = Some a -> 0 < a) -> va < MAXVA ->
  entry m root va = if has (leaf m D va) PTE_V then Some (leaf m D va) else None.
Proof.
  intros R H0 Hva. unfold entry, leaf. destruct (Z.leb_spec MAXVA va); [lia|]. rewrite (walk_in_rep _ _ _ _ R). destruct (D !! pth va 0) as [q|] eqn:E; [|done].
  apply H0 in E. assert (H1 := PX_range 0 va). destruct (Z.eqb_spec (q + 8 * PX 0 va) 0); [lia|done].
Qed.

(** The table depends on its pages only. *)
Lemma pt_rep_ext m m' root D : (forall p a b, D !! p = Some a -> in_page a b -> load8 m' b = load8 m b) -> pt_rep m root D ->
  pt_rep m' root D /\ forall va, leaf m' D va = leaf m D va.
Proof.
  intros Hm [R1 R2 R3 R4 R6 R7 R5].
  assert (Hl : forall p a i, D !! p = Some a -> 0 <= i < 512 -> load64 m' (a + 8 * i) = load64 m (a + 8 * i)).
  { intros p a i Hp Hi. apply load64_ext. intros b Hb. apply (Hm p a); [done|]. by eapply entry_in_page. }
  split; [split; try done|].
  - intros p a i Hp Hlen Hi. rewrite (Hl p) by done. by apply R4.
  - intros p a i Hp Hlen Hi. rewrite (Hl p) by done. by apply (R6 p).
  - intros va. unfold leaf. destruct (D !! pth va 0) eqn:E; [|done]. apply (Hl _ _ _ E), PX_range.
Qed.

(** A change of a leaf entry. *)
Lemma leaf_store m root D va q v : pt_rep m root D -> 0 <= va < MAXVA -> D !! pth va 0 = Some q ->
  pt_rep (store64 m (q + 8 * PX 0 va) v) root D /\
  forall va', 0 <= va' < MAXVA -> leaf (store64 m (q + 8 * PX 0 va) v) D va' = if va' / PGSIZE =? va / PGSIZE then u64 v else leaf m D va'.
Proof.
  intros R Hva Hq. assert (Hr := PX_range 0 va). split.
  - assert (Hother : forall p a i, D !! p = Some a -> (length p < 2)%nat -> 0 <= i < 512 -> load64 (store64 m (q + 8 * PX 0 va) v) (a + 8 * i) = load64 m (a + 8 * i)).
    2: { destruct R as [R1 R2 R3 R4 R6 R7 R5]. split; try done; intros p a i Hp Hlen Hi; rewrite (Hother p) by done; [by apply R4|by apply (R6 p)]. }
    destruct R as [R1 R2 R3 R4 R6 R7 R5]. intros p a i Hp Hlen Hi. apply load64_store64_other.
    assert (Hne : a <> q). { intros ->. specialize (R2 _ _ _ Hp Hq). subst p. by cbn in Hlen; lia. }
    assert (Ha := R3 _ _ Hp). assert (Hq' := R3 _ _ Hq). destruct Ha as [Ha _], Hq' as [Hq' _]. unfold PGSIZE in *.
    apply Z.div_exact in Ha; [|lia]. apply Z.div_exact in Hq'; [|lia]. lia.
  - intros va' Hva'. unfold leaf. destruct (Z.eqb_spec (va' / PGSIZE) (va / PGSIZE)) as [E|E].
    + rewrite (pth_page va' va), (PX_page va' va), Hq by lia. apply load64_store64.
    + destruct (D !! pth va' 0) as [q'|] eqn:Hq'; [|done]. apply load64_store64_other. assert (Hr' := PX_range 0 va').
      destruct (decide (q' = q)) as [->|Hne].
      * assert (Ep := pr_inj _ _ _ R _ _ _ Hq' Hq). destruct (decide (PX 0 va' = PX 0 va)) as [Ex|Ex]; [|lia]. by destruct (PX_inj va' va).
      * assert (Ha := pr_page _ _ _ R _ _ Hq). assert (Ha' := pr_page _ _ _ R _ _ Hq'). destruct Ha as [Ha _], Ha' as [Ha' _]. unfold PGSIZE in *.
        apply Z.div_exact in Ha; [|lia]. apply Z.div_exact in Ha'; [|lia]. lia.
Qed.

(** ** The free list *)

Lemma alike_refl s : alike s s.
Proof. done. Qed.

Lemma alike_trans s1 s2 s3 : alike s1 s2 -> alike s2 s3 -> alike s1 s3.
Proof. unfold alike. congruence. Qed.

Lemma alike_left_off s t : hart_ok s -> alike s t -> alike s (left_off t) .
Proof.
  unfold alike, mem_free. intros Hok E. change (left_off t <| mem := ∅ |> <| freelist := 0 |>) with (left_off (t <| mem := ∅ |> <| freelist := 0 |>)).
  rewrite E. apply left_off_idem. exact Hok.
Qed.

Lemma alike_mem s g : alike s (s <| mem ::= g |>).
Proof. done. Qed.

(** The pages of the table are not free. *)
Definition apart (D : dirs) (l : list Z) : Prop := forall p a, D !! p = Some a -> a ∉ l.

Hypothesis end_pos : 0 < kernel_end.

Lemma page_pos a : page_ok a -> 0 < a.
Proof using end_pos. intros [_ H]. lia. Qed.

Lemma load8_memset_out m a c b : ~ in_page a b -> load8 (memset m a c PGSIZE) b = load8 m b.
Proof using.
  intros Hb. rewrite load8_memset by done. unfold in_page in Hb. destruct (Z.leb_spec a b), (Z.ltb_spec b (a + PGSIZE)); cbn [andb]; (reflexivity || lia).
Qed.

Lemma load8_store64_out m a j v b : ~ in_page a b -> 0 <= j < 512 -> load8 (store64 m (a + 8 * j) v) b = load8 m b.
Proof using. intros Hb Hj. apply (load8_store_le 8). unfold in_page, PGSIZE in Hb. lia. Qed.

Lemma kalloc_spec e s l : kmem_ready s -> kmem_inv s l -> exists t, kalloc e s = Ret (hd 0 l) e t /\ kmem_ready t /\ alike s t /\ kmem_inv t (tail l) /\
  match l with
  | [] => mem t = mem s
  | p :: l' => page_ok p /\ p ∉ l' /\ forall b, ~ in_page p b -> load8 (mem t) b = load8 (mem s) b
  end.
Proof using end_pos.
  intros Hr Hl. exists (left_off (allocated s)). rewrite (kalloc_Ret e s Hr). destruct l as [|p l].
  - destruct Hl as [Hl Hnd]. cbn in Hl. unfold allocated. rewrite Hl. change (0 =? 0) with true. cbv match.
    split; [done|]. split; [by destruct Hr; split; [apply hart_ok_left_off|apply free_lock_left_off]|]. split; [by apply alike_left_off; [destruct Hr|]|].
    split; [split; [exact Hl|constructor]|done].
  - destruct (kmem_inv_kalloc end_pos s p l Hl) as (H1 & H2 & H3). assert (H4 := Hl). destruct H4 as [(_ & Hp & _) [Hn _]%list.NoDup_cons].
    cbn [hd tail]. split; [by rewrite H1|]. split; [by apply kmem_ready_allocated|]. split.
    { apply alike_left_off; [by destruct Hr|]. unfold allocated. by destruct (freelist s =? 0). }
    split; [exact H3|]. split; [done|]. split; [done|]. intros b Hb. unfold allocated. rewrite H1. destruct (Z.eqb_spec p 0); [done|].
    change (load8 (memset (mem s) p 5 PGSIZE) b = load8 (mem s) b). by apply load8_memset_out.
Qed.

(** ** A new directory *)

Lemma link_of_new a : page_ok a -> link_of (Z.lor (PA2PTE a) PTE_V) = Some a.
Proof using end_pos.
  intros [H1 H2]. assert (H := pte_roundtrip a 0 0 0). destruct H as [(E1 & E2 & _) _]; [done|unfold PHYSTOP, KERNBASE in H2; lia|done|done|done|].
  cbn zeta in E1, E2. rewrite Z.lor_0_r in E1, E2. unfold link_of. by rewrite E1, E2.
Qed.

Lemma flags_of_new a : page_ok a -> PTE_FLAGS (Z.lor (PA2PTE a) PTE_V) = PTE_V.
Proof using end_pos.
  intros [H1 H2]. assert (H := pte_roundtrip a 0 0 0). destruct H as [(_ & _ & E3) _]; [done|unfold PHYSTOP, KERNBASE in H2; lia|done|done|done|].
  cbn zeta in E3. by rewrite Z.lor_0_r in E3.
Qed.

Lemma in_page_neq a a' b : page_ok a -> page_ok a' -> a <> a' -> in_page a b -> ~ in_page a' b.
Proof. intros H1 H2 Hne Hb Hb'. apply Hne. by eapply in_page_disjoint. Qed.

Lemma load64_zeroed m a i : 0 <= i < 512 -> load64 (memset m a 0 PGSIZE) (a + 8 * i) = 0.
Proof.
  intros Hi. assert (E : forall b, a + 8 * i <= b < a + 8 * i + 8 -> load8 (memset m a 0 PGSIZE) b = load8 ∅ b).
  { intros b Hb. rewrite load8_memset by done. unfold PGSIZE. destruct (Z.leb_spec a b), (Z.ltb_spec b (a + 4096)); try lia. done. }
  rewrite (load64_ext _ ∅ _ E). unfold load64. generalize (a + 8 * i). clear. intros a.
  assert (H : forall n a, load_le n ∅ a = 0) by (induction n as [|n IH]; intros b; cbn [load_le]; [done|rewrite IH; done]). apply H.
Qed.

Lemma add_dir m m1 root D p i a new : pt_rep m root D -> D !! p = Some a -> (length p < 2)%nat -> 0 <= i < 512 -> (p = [] -> i < 256) -> D !! (p ++ [i]) = None ->
  page_ok new -> (forall q, D !! q <> Some new) -> (forall b, ~ in_page new b -> load8 m1 b = load8 m b) ->
  let m' := store64 (memset m1 new 0 PGSIZE) (a + 8 * i) (Z.lor (PA2PTE new) PTE_V) in
  let D' := <[p ++ [i] := new]> D in
  pt_rep m' root D' /\ (forall va, leaf m' D' va = leaf m D va) /\
  forall b, outside D' b -> load8 m' b = load8 m b.
Proof using end_pos.
  intros R Hp Hlen Hi Hlow Hn Hnew Hfresh Hm1 m' D'. assert (Hpage := pr_page _ _ _ R).
  assert (Hold : forall q c b, D !! q = Some c -> in_page c b -> ~ (a + 8 * i <= b < a + 8 * i + 8) -> load8 m' b = load8 m b).
  { intros q c b Hq Hb Hout. unfold m', store64. rewrite load8_store_le by lia. assert (Hnb : ~ in_page new b). { apply (in_page_neq c); eauto. intros ->. by apply (Hfresh q). }
    rewrite load8_memset_out by exact Hnb. by apply Hm1. }
  assert (Hold64 : forall q c j, D !! q = Some c -> 0 <= j < 512 -> (q <> p \/ j <> i) -> load64 m' (c + 8 * j) = load64 m (c + 8 * j)).
  { intros q c j Hq Hj Hne. apply load64_ext. intros b Hb. apply (Hold q c b Hq); [by eapply entry_in_page|]. intros Hb'.
    destruct (decide (c = a)) as [->|Hca]; [assert (q = p) as -> by (by eapply (pr_inj _ _ _ R)); destruct Hne as [?|Hne]; [done|lia]|].
    apply (in_page_neq c a b); [by eapply Hpage|by eapply Hpage|done|exact (entry_in_page c j b Hj Hb)|exact (entry_in_page a i b Hi Hb')]. }
  assert (Hnew64 : forall j, 0 <= j < 512 -> load64 m' (new + 8 * j) = 0).
  { intros j Hj. unfold m'. rewrite load64_store64_other; [by apply load64_zeroed|].
    destruct (Z.le_gt_cases (a + 8 * i + 8) (new + 8 * j)); [by right|]. left. destruct (Z.le_gt_cases (new + 8 * j + 8) (a + 8 * i)); [done|]. exfalso.
    apply (in_page_neq a new (Z.max (a + 8 * i) (new + 8 * j))); [by eapply Hpage|done|intros ->; by apply (Hfresh p)|apply (entry_in_page a i); [done|lia]|apply (entry_in_page new j); [done|lia]]. }
  assert (Hhere : load64 m' (a + 8 * i) = Z.lor (PA2PTE new) PTE_V).
  { unfold m'. rewrite load64_store64. apply u64_id. apply lor_small; [lia| |unfold PTE_V; lia]. apply (Z.mod_pos_bound _ (2 ^ 64)). lia. }
  assert (Hout : forall b, outside D' b -> load8 m' b = load8 m b).
  { intros b Hb. assert (Hnb : ~ in_page new b) by (apply (Hb (p ++ [i])); unfold D'; by rewrite lookup_insert_eq).
    assert (Hna : ~ in_page a b). { apply (Hb p). unfold D'. rewrite lookup_insert_ne; [done|]. intros E'. apply (f_equal length) in E'. rewrite length_app in E'. cbn in E'. lia. }
    unfold m'. rewrite load8_store64_out, load8_memset_out by done. by apply Hm1. }
  clearbody m'.
  split; [split|split].
  - unfold D'. rewrite lookup_insert_ne; [apply R|]. intros E. by apply app_eq_nil in E as [_ ?].
  - unfold D'. intros q r c. rewrite !lookup_insert. destruct (decide (p ++ [i] = q)) as [E1|], (decide (p ++ [i] = r)) as [E2|]; intros H1 H2;
      [exact (eq_trans (eq_sym E1) E2)|injection H1 as <-; by apply Hfresh in H2|injection H2 as <-; by apply Hfresh in H1|by eapply (pr_inj _ _ _ R)].
  - unfold D'. intros q c. rewrite lookup_insert. case_decide; [by intros [= <-]|apply Hpage].
  - intros q c j. unfold D' at 1. rewrite lookup_insert. case_decide as Eq.
    + intros [= <-] Hl Hj. rewrite Hnew64 by done. change (link_of 0) with (@None Z). unfold D'. rewrite lookup_insert_ne.
      2: { intros E. apply app_inj_tail in E as [E _]. rewrite <- Eq in E. apply (f_equal length) in E. rewrite length_app in E. cbn in E. lia. }
      destruct (D !! (q ++ [j])) eqn:E; [|done]. destruct (pr_up _ _ _ R _ _ E) as [E'|(q' & j' & E' & _ & _ & Hu)]; [by apply app_eq_nil in E' as [_ ?]|].
      apply app_inj_tail in E' as [<- _]. rewrite <- Eq, Hn in Hu. by destruct Hu.
    + intros Hq Hl Hj. unfold D'. rewrite lookup_insert. case_decide as E.
      * apply app_inj_tail in E as [<- <-]. rewrite Hp in Hq. injection Hq as <-. rewrite Hhere. symmetry. by apply link_of_new.
      * assert (Hne : q <> p \/ j <> i) by (destruct (decide (q = p)) as [->|]; [right; intros ->; by apply E|by left]).
        rewrite (Hold64 q) by done. by apply (pr_link _ _ _ R).
  - intros q c j. unfold D'. rewrite lookup_insert. case_decide as Eq.
    + intros [= <-] Hl Hj. by rewrite Hnew64.
    + intros Hq Hl Hj. destruct (decide (q = p)) as [->|Hqp]; [|rewrite (Hold64 q) by auto; by apply (pr_flags _ _ _ R q)]. rewrite Hp in Hq. injection Hq as <-.
      destruct (decide (j = i)) as [->|Hji]; [|rewrite (Hold64 p) by auto; by apply (pr_flags _ _ _ R p)]. rewrite Hhere. intros _. by apply flags_of_new.
  - intros j q c. unfold D'. rewrite lookup_insert. case_decide as E; [|apply (pr_low _ _ _ R)]. intros _.
    destruct p as [|j' p]; [injection E as -> _; by apply Hlow|injection E as -> _; by apply (pr_low _ _ _ R _ _ _ Hp)].
  - intros q c. unfold D' at 1. rewrite lookup_insert. case_decide as E.
    + intros _. right. exists p, i. split; [done|]. split; [done|]. split; [done|]. unfold D'. rewrite lookup_insert_ne; [by eexists|]. intros E'. apply (f_equal length) in E'. rewrite length_app in E'. cbn in E'. lia.
    + intros Hq. destruct (pr_up _ _ _ R _ _ Hq) as [?|(q' & j & H1 & H2 & H3 & H4)]; [by left|right]. exists q', j. split; [done|]. split; [done|]. split; [done|]. unfold D'. rewrite lookup_insert. case_decide; [by eexists|done].
  - intros va. unfold leaf, D'. rewrite lookup_insert. case_decide as E.
    + rewrite E in Hn. rewrite Hn. apply Hnew64, PX_range.
    + destruct (D !! pth va 0) as [c|] eqn:Hc; [|done]. apply (Hold64 _ _ _ Hc), or_introl; [apply PX_range|]. intros E'. rewrite <- E' in Hlen. by cbn in Hlen; lia.
  - exact Hout.
Qed.

Lemma grown_refl s D l : grown s D l s D l.
Proof. split; try done. exists []. split; [done|]. split; [auto|]. by intros a Ha%elem_of_nil. Qed.

Lemma grown_trans s1 D1 l1 s2 D2 l2 s3 D3 l3 : grown s1 D1 l1 s2 D2 l2 -> grown s2 D2 l2 s3 D3 l3 -> grown s1 D1 l1 s3 D3 l3.
Proof.
  intros [A1 (u1 & -> & A2 & A3) A4 A5] [B1 (u2 & -> & B2 & B3) B4 B5]. split.
  - by etrans.
  - exists (u1 ++ u2). split; [by rewrite app_assoc|]. split.
    + intros p a Hp. apply B2 in Hp as [Hp|Hp]; [apply A2 in Hp as [Hp|Hp]; [by left|right; set_solver]|right; set_solver].
    + intros a [Ha|Ha]%elem_of_app; [|by apply B3]. destruct (A3 a Ha) as [p Hp]. exists p. by eapply lookup_weaken.
  - by eapply alike_trans.
  - intros b Hb. rewrite B5 by done. apply A5. intros p a Hp. apply (Hb p). by eapply lookup_weaken.
Qed.

Lemma free_page l s a : kmem_inv s l -> a ∈ l -> page_ok a.
Proof. intros [Hl _] Ha. apply free_pages_ok in Hl. rewrite list.Forall_forall in Hl. auto. Qed.

(** The free list survives changes outside of its pages. *)
Lemma kmem_inv_ext s t l : kmem_inv s l -> freelist t = freelist s -> (forall p b, p ∈ l -> in_page p b -> load8 (mem t) b = load8 (mem s) b) -> kmem_inv t l.
Proof. intros [Hl Hnd] Hf Hm. split; [|done]. rewrite Hf. by eapply free_pages_ext. Qed.

(** A store into a directory. *)
Lemma vm_ok_store s root D l q i j v : vm_ok s root D l -> D !! q = Some i -> 0 <= j < 512 ->
  pt_rep (store64 (mem s) (i + 8 * j) v) root D -> vm_ok (s <| mem ::= fun m => store64 m (i + 8 * j) v |>) root D l.
Proof.
  intros [V1 V2 V3 V4] Hq Hj R. split; [done| |done|done]. eapply kmem_inv_ext; [exact V2|done|]. intros p b Hp Hb. cbn.
  assert (Hne : p <> i) by (intros ->; by apply (V4 q i)). apply load8_store64_out; [|done].
  exact (in_page_neq p i b (free_page _ _ _ V2 Hp) (pr_page _ _ _ V3 _ _ Hq) Hne Hb).
Qed.

Lemma wp_walk_levels root va e : forall level pt s D l, 0 <= va < MAXVA -> (level <= 2)%nat -> vm_ok s root D l -> D !! pth va level = Some pt ->
  wp (walk_levels level pt va true) e s (fun r t => exists D' l', vm_ok t root D' l' /\ grown s D l t D' l' /\ new_paths (on_way va) D D' /\
    (forall va', leaf (mem t) D' va' = leaf (mem s) D va') /\
    (r = 0 /\ l' = [] \/ exists q, D' !! pth va 0 = Some q /\ r = q + 8 * PX 0 va)).
Proof using end_pos.
  induction level as [|level IH]; intros pt s D l Hva Hlev V Hp.
  { apply wp_ret. exists D, l. split; [done|]. split; [apply grown_refl|]. split; [by left|]. split; [done|]. right. by exists pt. }
  assert (Hn := pth_next va (S level) ltac:(lia)). replace (S level - 1)%nat with level in Hn by lia.
  assert (Hlen : (length (pth va (S level)) < 2)%nat) by (rewrite pth_length by lia; lia).
  assert (Hx := PX_range (Z.of_nat (S level)) va). set (i := PX (Z.of_nat (S level)) va) in *.
  assert (Hlink := pr_link _ _ _ (vo_rep _ _ _ _ V) _ _ i Hp Hlen Hx). rewrite Hn in Hlink.
  cbn [walk_levels]. fold i. apply wp_bind, wp_read. unfold link_of in Hlink. destruct (has (load64 (mem s) (pt + 8 * i)) PTE_V).
  { by apply IH; [done|lia| |]. }
  cbn [negb]. apply wp_bind. destruct (kalloc_spec e s l (vo_ready _ _ _ _ V) (vo_free _ _ _ _ V)) as (t & E & T1 & T2 & T3 & T4).
  eapply wp_call; [exact E|]. destruct l as [|new l]; cbn [hd tail] in *.
  { change (0 =? 0) with true. cbv match. apply wp_ret. exists D, []. split; [split; [done|done|rewrite T4; apply V|apply V]|].
    split; [split; [done| |done|intros b _; by rewrite T4]|split; [by left|split; [by rewrite T4|by left]]]. exists []. split; [done|]. split; [auto|by intros a Ha%elem_of_nil]. }
  destruct T4 as (T4 & T5 & T6). assert (Hnew := page_pos _ T4). destruct (Z.eqb_spec new 0); [lia|].
  assert (Hfresh : forall q, D !! q <> Some new). { intros q Hq. apply (vo_apart _ _ _ _ V) in Hq. apply Hq. left. }
  destruct (add_dir (mem s) (mem t) root D (pth va (S level)) i pt new (vo_rep _ _ _ _ V) Hp Hlen Hx) as (R & L & O); [|by rewrite Hn|done|done|done|].
  { destruct level as [|[|level]]; [done| |lia]. intros _. by apply PX_top. }
  rewrite Hn in R, L, O. unfold memset_mem, store_word. destruct (Z.eqb_spec new 0); [lia|]. apply wp_bind, wp_modify, wp_bind, wp_modify.
  set (u := t <| mem ::= _ |> <| mem ::= _ |>). set (D1 := <[pth va level := new]> D) in *.
  assert (Hsub : D ⊆ D1) by (apply insert_subseteq; exact Hlink).
  assert (Vu : vm_ok u root D1 l).
  { split; [exact T1| |exact R|].
    - apply (kmem_inv_ext t); [done|done|]. intros p b Hpl Hb. assert (Hpok := free_page _ _ _ T3 Hpl). change (load8 (store64 (memset (mem t) new 0 PGSIZE) (pt + 8 * i) (Z.lor (PA2PTE new) PTE_V)) b = load8 (mem t) b).
      rewrite O; [symmetry; apply T6; apply (in_page_neq p); [done|done|by intros ->|done]|].
      intros q a. unfold D1. rewrite lookup_insert. case_decide; [intros [= <-]|intros Hq]; apply (in_page_neq p); try done; [by intros ->|by eapply (pr_page _ _ _ (vo_rep _ _ _ _ V))|].
      intros ->. apply (vo_apart _ _ _ _ V) in Hq. apply Hq. by right.
    - intros q a. unfold D1. rewrite lookup_insert. case_decide; [by intros [= <-]|]. intros Hq Ha. apply (vo_apart _ _ _ _ V) in Hq. apply Hq. by right. }
  assert (Gu : grown s D (new :: l) u D1 l).
  { split; [done| |exact T2|exact O]. exists [new]. split; [done|]. split.
    - intros q a. unfold D1. rewrite lookup_insert. case_decide; [intros [= <-]; right; left|by left].
    - intros a ->%list_elem_of_singleton. exists (pth va level). unfold D1. by rewrite lookup_insert_eq. }
  eapply wp_mono; [apply (IH new u D1 l); [done|lia|exact Vu|unfold D1; by rewrite lookup_insert_eq]|].
  intros r v (D' & l' & V' & G' & N' & L' & Hr). exists D', l'. split; [done|]. split; [by eapply grown_trans|]. split; [|split; [|done]].
  - intros p a Ha. apply N' in Ha as [Ha|Ha]; [|by right]. unfold D1 in Ha. apply lookup_insert_Some in Ha as [[<- _]|[_ Ha]]; [right|by left].
    destruct level as [|[|level]]; [by left|by right|lia].
  - intros va'. rewrite L'. apply L.
Qed.

Lemma wp_walk root va e s D l : vm_ok s root D l -> 0 <= va < MAXVA ->
  wp (walk root va true) e s (fun r t => exists D' l', vm_ok t root D' l' /\ grown s D l t D' l' /\ new_paths (on_way va) D D' /\
    (forall va', leaf (mem t) D' va' = leaf (mem s) D va') /\
    (r = 0 /\ l' = [] \/ exists q, D' !! pth va 0 = Some q /\ r = q + 8 * PX 0 va)).
Proof using end_pos.
  intros V Hva. unfold walk. destruct (Z.leb_spec MAXVA va); [lia|]. apply wp_walk_levels; [done|lia|done|apply V].
Qed.

(** ** Mapping pages *)

(** The leaves after [k] pages from [va] on were mapped to [pa] and on. *)
Definition maps (old : Z -> Z) (va pa perm k : Z) (va' : Z) : Z :=
  if (va / PGSIZE <=? va' / PGSIZE) && (va' / PGSIZE <? va / PGSIZE + k) then mk_pte (pa + (va' / PGSIZE - va / PGSIZE) * PGSIZE) perm else old va'.

Lemma mk_pte_word pa perm : 0 <= perm < 2 ^ 10 -> u64 (mk_pte pa perm) = mk_pte pa perm.
Proof using.
  intros Hp. apply u64_id. apply lor_small; [lia| |unfold PTE_V; lia]. apply lor_small; [lia| |lia]. apply (Z.mod_pos_bound _ (2 ^ 64)). lia.
Qed.

Lemma page_div a k : a mod PGSIZE = 0 -> (a + k * PGSIZE) / PGSIZE = a / PGSIZE + k.
Proof using. intros Ha. apply Z.div_add. done. Qed.

Lemma maps_snoc old va pa perm k va' : 0 <= k -> maps old va pa perm (k + 1) va' =
  if va' / PGSIZE =? va / PGSIZE + k then mk_pte (pa + k * PGSIZE) perm else maps old va pa perm k va'.
Proof using.
  intros Hk. unfold maps. destruct (Z.eqb_spec (va' / PGSIZE) (va / PGSIZE + k)) as [->|Hne].
  - destruct (Z.leb_spec (va / PGSIZE) (va / PGSIZE + k)), (Z.ltb_spec (va / PGSIZE + k) (va / PGSIZE + (k + 1))); try lia. cbn [andb].
    by replace (va / PGSIZE + k - va / PGSIZE) with k by lia.
  - destruct (Z.leb_spec (va / PGSIZE) (va' / PGSIZE)), (Z.ltb_spec (va' / PGSIZE) (va / PGSIZE + (k + 1))), (Z.ltb_spec (va' / PGSIZE) (va / PGSIZE + k)); cbn [andb]; try done; lia.
Qed.

(** A page is mapped: one iteration of [mappages]. *)
Lemma wp_map_page root last perm a pa e s D l : vm_ok s root D l -> 0 <= a < MAXVA -> 0 <= perm < 2 ^ 10 -> has (leaf (mem s) D a) PTE_V = false ->
  wp (mappages_step root last perm (a, pa)) e s (fun r t => exists D' l', vm_ok t root D' l' /\ grown s D l t D' l' /\ new_paths (on_way a) D D' /\
    ((r = inr (-1) /\ l' = [] /\ forall va', leaf (mem t) D' va' = leaf (mem s) D va') \/
     (r = (if a =? last then inr 0 else inl (u64 (a + PGSIZE), u64 (pa + PGSIZE)))) /\
     forall va', 0 <= va' < MAXVA -> leaf (mem t) D' va' = if va' / PGSIZE =? a / PGSIZE then mk_pte pa perm else leaf (mem s) D va')).
Proof using end_pos.
  intros V Ha Hperm Hun. unfold mappages_step. apply wp_bind. eapply wp_mono; [apply (wp_walk root a e s D l V); lia|].
  intros r t (D' & l' & V' & G & N & L & Hr). destruct Hr as [[-> ->]|(q & Hq & ->)].
  { change (0 =? 0) with true. cbv match. apply wp_ret. exists D', []. split; [done|]. split; [done|]. split; [done|]. by left. }
  assert (Hx := PX_range 0 a). assert (Hqp := page_pos q (pr_page _ _ _ (vo_rep _ _ _ _ V') _ _ Hq)). destruct (Z.eqb_spec (q + 8 * PX 0 a) 0); [lia|].
  apply wp_bind, wp_read. assert (Hl : load64 (mem t) (q + 8 * PX 0 a) = leaf (mem s) D a). { rewrite <- L. unfold leaf. by rewrite Hq. }
  rewrite Hl, Hun. unfold store_word. apply wp_bind, wp_modify. change (Z.lor (Z.lor (PA2PTE pa) perm) PTE_V) with (mk_pte pa perm).
  destruct (leaf_store (mem t) root D' a q (mk_pte pa perm) (vo_rep _ _ _ _ V') Ha Hq) as [R L'].
  set (u := t <| mem ::= _ |>).
  assert (Vu : vm_ok u root D' l') by (eapply vm_ok_store; done).
  assert (Gu : grown s D l u D' l').
  { destruct G as [G1 G2 G3 G4]. split; [done|done|exact G3|]. intros b Hb. rewrite <- G4 by done. apply load8_store64_out; [|done]. by apply (Hb _ _ Hq). }
  assert (Lu : forall va', 0 <= va' < MAXVA -> leaf (mem u) D' va' = if va' / PGSIZE =? a / PGSIZE then mk_pte pa perm else leaf (mem s) D va').
  { intros va' Hva'. change (mem u) with (store64 (mem t) (q + 8 * PX 0 a) (mk_pte pa perm)). rewrite L' by done. rewrite mk_pte_word by done. by rewrite L. }
  destruct (a =? last); apply wp_ret; exists D', l'; (split; [exact Vu|]; split; [exact Gu|]; split; [done|]; by right).
Qed.

Definition on_ways (va n : Z) (p : list Z) : Prop := exists j, 0 <= j < n /\ on_way (va + j * PGSIZE) p.

(** [mappages] maps the pages, or runs out of memory after some of them. *)
Lemma wp_mappages root va n pa perm e s D l : vm_ok s root D l -> va mod PGSIZE = 0 -> 0 <= va -> 0 < n -> va + n * PGSIZE <= MAXVA ->
  0 <= pa -> pa + n * PGSIZE < 2 ^ 64 -> 0 <= perm < 2 ^ 10 ->
  (forall va', va <= va' < va + n * PGSIZE -> has (leaf (mem s) D va') PTE_V = false) ->
  wp (mappages root va (n * PGSIZE) pa perm) e s (fun r t => exists D' l' k, vm_ok t root D' l' /\ grown s D l t D' l' /\ new_paths (on_ways va n) D D' /\
    ((r = 0 /\ k = n) \/ (r = -1 /\ l' = [] /\ 0 <= k < n)) /\
    forall va', 0 <= va' < MAXVA -> leaf (mem t) D' va' = maps (leaf (mem s) D) va pa perm k va').
Proof using end_pos.
  intros V Hal H0 Hn Hmax Hpa Hpa' Hperm Hun. unfold mappages. rewrite Hal, Z.mod_mul by done. change (negb (0 =? 0)) with false. cbv match.
  destruct (Z.eqb_spec (n * PGSIZE) 0) as [E|_]; [unfold PGSIZE in E; lia|]. rewrite Z.div_mul by done.
  assert (Hlast : u64 (va + n * PGSIZE - PGSIZE) = va + (n - 1) * PGSIZE). { change MAXVA with (2 ^ 38) in *. unfold PGSIZE in *. rewrite u64_id; lia. }
  rewrite Hlast.
  apply (wp_loop e (fun m (st : Z * Z) t => exists D' l' k, Z.of_nat m = n - 1 - k /\ 0 <= k < n /\ st = (va + k * PGSIZE, pa + k * PGSIZE) /\
    vm_ok t root D' l' /\ grown s D l t D' l' /\ new_paths (on_ways va n) D D' /\ forall va', 0 <= va' < MAXVA -> leaf (mem t) D' va' = maps (leaf (mem s) D) va pa perm k va') _ _ (Z.to_nat (n - 1))).
  - lia.
  - exists D, l, 0. split; [lia|]. split; [lia|]. split; [by rewrite !Z.add_0_r|]. split; [done|]. split; [apply grown_refl|]. split; [by left|].
    intros va' _. unfold maps. destruct (Z.leb_spec (va / PGSIZE) (va' / PGSIZE)), (Z.ltb_spec (va' / PGSIZE) (va / PGSIZE + 0)); try done. lia.
  - intros m st t (D' & l' & k & Hm & Hk & -> & V' & G & N & L).
    assert (Hin : 0 <= va + k * PGSIZE < MAXVA) by (change MAXVA with (2 ^ 38) in *; unfold PGSIZE in *; lia).
    assert (Hmiss : has (leaf (mem t) D' (va + k * PGSIZE)) PTE_V = false).
    { rewrite L by done. unfold maps. rewrite page_div by done. destruct (Z.ltb_spec (va / PGSIZE + k) (va / PGSIZE + k)); [lia|]. rewrite andb_false_r.
      apply Hun. unfold PGSIZE. lia. }
    eapply wp_mono; [by apply (wp_map_page root _ perm (va + k * PGSIZE) (pa + k * PGSIZE) e t D' l')|].
    intros r u (D2 & l2 & V2 & G2 & N2 & Hr). assert (G3 := grown_trans _ _ _ _ _ _ _ _ _ G G2).
    assert (N3 : new_paths (on_ways va n) D D2) by (intros p a Ha; apply N2 in Ha as [Ha|Ha]; [by apply N in Ha|right; by exists k]). destruct Hr as [(-> & -> & L2)|(-> & L2)].
    + exists D2, [], k. split; [done|]. split; [done|]. split; [done|]. split; [by right|]. intros va' Hva'. rewrite L2. by apply L.
    + assert (L3 : forall va', 0 <= va' < MAXVA -> leaf (mem u) D2 va' = maps (leaf (mem s) D) va pa perm (k + 1) va').
      { intros va' Hva'. rewrite L2, maps_snoc, page_div by (done || lia). by rewrite L. }
      destruct (Z.eqb_spec (va + k * PGSIZE) (va + (n - 1) * PGSIZE)) as [E|E].
      * exists D2, l2, (k + 1). split; [done|]. split; [done|]. split; [done|]. split; [left; unfold PGSIZE in E; split; [done|lia]|done].
      * assert (k <> n - 1) by (intros ->; done). exists (Nat.pred m). split; [lia|]. exists D2, l2, (k + 1). split; [lia|]. split; [lia|]. split; [|by split_and!].
        change MAXVA with (2 ^ 38) in *. unfold PGSIZE in *. rewrite !u64_id by lia. f_equal; lia.
Qed.

(** ** Unmapping pages *)

Lemma kfree_spec e s l pa : kmem_ready s -> kmem_inv s l -> page_ok pa -> pa ∉ l ->
  exists t, kfree pa e s = Ret tt e t /\ kmem_ready t /\ alike s t /\ kmem_inv t (pa :: l) /\ forall b, ~ in_page pa b -> load8 (mem t) b = load8 (mem s) b.
Proof using end_pos.
  intros Hr Hl Hp Hn. exists (left_off (freed pa s)). split; [by apply kfree_Ret|]. split; [by apply kmem_ready_freed|]. split; [by apply alike_left_off; [destruct Hr|]|].
  split; [exact (kmem_inv_kfree end_pos s l pa Hl Hp Hn)|]. intros b Hb.
  change (load8 (store64 (memset (mem s) pa 1 PGSIZE) pa (freelist s)) b = load8 (mem s) b). replace pa with (pa + 8 * 0) at 2 by lia.
  rewrite load8_store64_out by (done || lia). by apply load8_memset_out.
Qed.

(** A page outside of the table goes back to the free list. *)
Lemma wp_kfree pa e s root D l : vm_ok s root D l -> page_ok pa -> pa ∉ l -> (forall p, D !! p <> Some pa) ->
  wp (kfree pa) e s (fun _ t => vm_ok t root D (pa :: l) /\ alike s t /\ (forall va, leaf (mem t) D va = leaf (mem s) D va) /\
    forall b, ~ in_page pa b -> load8 (mem t) b = load8 (mem s) b).
Proof using end_pos.
  intros [V1 V2 V3 V4] Hp Hl HD. destruct (kfree_spec e s l pa V1 V2 Hp Hl) as (t & E & T1 & T2 & T3 & T4). eapply wp_call; [exact E|].
  destruct (pt_rep_ext (mem s) (mem t) root D) as [R L]; [|done|].
  { intros p a b Hpa Hb. apply T4. apply (in_page_neq a); [by eapply (pr_page _ _ _ V3)|done|intros ->; by apply (HD p)|done]. }
  split; [split; [done|done|done|]|by split]. intros p a Hpa [->|Ha]%elem_of_cons; [by apply (HD p)|by apply (V4 p a)].
Qed.

Definition unmaps (old : Z -> Z) (va k : Z) (va' : Z) : Z := if (va / PGSIZE <=? va' / PGSIZE) && (va' / PGSIZE <? va / PGSIZE + k) then 0 else old va'.

Lemma unmaps_snoc old va k va' : 0 <= k -> unmaps old va (k + 1) va' = if va' / PGSIZE =? va / PGSIZE + k then 0 else unmaps old va k va'.
Proof using.
  intros Hk. unfold unmaps. destruct (Z.eqb_spec (va' / PGSIZE) (va / PGSIZE + k)) as [->|Hne];
    destruct (Z.leb_spec (va / PGSIZE) (va' / PGSIZE)), (Z.ltb_spec (va' / PGSIZE) (va / PGSIZE + (k + 1))), (Z.ltb_spec (va' / PGSIZE) (va / PGSIZE + k)); cbn [andb]; try done; try lia;
    destruct (Z.leb_spec (va / PGSIZE) (va / PGSIZE + k)), (Z.ltb_spec (va / PGSIZE + k) (va / PGSIZE + (k + 1))); try done; lia.
Qed.

(** The physical pages that the entries of [n] pages from [va] on lead to. *)
Definition frames (f : Z -> Z) (va : Z) (n : nat) : list Z := (fun k => PTE2PA (f (va + Z.of_nat k * PGSIZE))) <$> seq 0 n.

Lemma frames_snoc f va n : frames f va (S n) = frames f va n ++ [PTE2PA (f (va + Z.of_nat n * PGSIZE))].
Proof using. unfold frames. by rewrite seq_S, fmap_app. Qed.

Lemma frames_elem f va n a : a ∈ frames f va n <-> exists k, (k < n)%nat /\ a = PTE2PA (f (va + Z.of_nat k * PGSIZE)).
Proof using.
  unfold frames. rewrite list_elem_of_fmap. split; intros (k & H1 & H2); exists k; [rewrite elem_of_seq in H2|rewrite elem_of_seq]; split; (done || lia).
Qed.

Definition is_leaf (v : Z) : Prop := has v PTE_V = true /\ PTE_FLAGS v <> PTE_V.

(** What becomes of the free list. *)
Definition given_back (do_free : bool) (fs l : list Z) : list Z := if do_free then rev fs ++ l else l.

(** One iteration of [uvmunmap]. *)
Lemma wp_unmap_page root end_ do_free a e s D l : vm_ok s root D l -> a < end_ -> 0 <= a < MAXVA -> is_leaf (leaf (mem s) D a) ->
  (do_free = true -> let f := PTE2PA (leaf (mem s) D a) in page_ok f /\ f ∉ l /\ forall p, D !! p <> Some f) ->
  wp (uvmunmap_step root end_ do_free a) e s (fun r t => r = inl (u64 (a + PGSIZE)) /\
    vm_ok t root D (if do_free then PTE2PA (leaf (mem s) D a) :: l else l) /\ alike s t /\
    (forall va', 0 <= va' < MAXVA -> leaf (mem t) D va' = if va' / PGSIZE =? a / PGSIZE then 0 else leaf (mem s) D va') /\
    forall b, outside D b -> (do_free = true -> ~ in_page (PTE2PA (leaf (mem s) D a)) b) -> load8 (mem t) b = load8 (mem s) b).
Proof using end_pos.
  intros V Hlt Ha [Hv Hfl] Hfree. unfold uvmunmap_step. destruct (Z.leb_spec end_ a); [lia|].
  apply wp_bind. eapply wp_call; [apply walk_ro; lia|]. rewrite (walk_in_rep _ _ _ _ (vo_rep _ _ _ _ V)).
  destruct (D !! pth a 0) as [q|] eqn:Hq; [|unfold leaf in Hv; rewrite Hq in Hv; done].
  assert (Hx := PX_range 0 a). assert (Hqp := page_pos q (pr_page _ _ _ (vo_rep _ _ _ _ V) _ _ Hq)). destruct (Z.eqb_spec (q + 8 * PX 0 a) 0); [lia|].
  apply wp_bind, wp_read. assert (Hl : load64 (mem s) (q + 8 * PX 0 a) = leaf (mem s) D a) by (unfold leaf; by rewrite Hq).
  rewrite Hl, Hv. cbn [negb]. destruct (Z.eqb_spec (PTE_FLAGS (leaf (mem s) D a)) PTE_V); [done|]. apply wp_bind.
  set (f := PTE2PA (leaf (mem s) D a)) in *.
  eapply (wp_mono _ _ _ (fun _ u => vm_ok u root D (if do_free then f :: l else l) /\ alike s u /\ (forall va', leaf (mem u) D va' = leaf (mem s) D va') /\
    forall b, (do_free = true -> ~ in_page f b) -> load8 (mem u) b = load8 (mem s) b)).
  { apply wp_when; intros ->; [|done]. destruct (Hfree eq_refl) as (F1 & F2 & F3). eapply wp_mono; [by apply (wp_kfree f e s root D l)|].
    intros [] u (U1 & U2 & U3 & U4). split_and!; try done. intros b Hb. apply U4. by apply Hb. }
  intros [] u (U1 & U2 & U3 & U4). unfold store_word. apply wp_bind, wp_modify, wp_ret. set (w := u <| mem ::= _ |>).
  destruct (leaf_store (mem u) root D a q 0 (vo_rep _ _ _ _ U1) Ha Hq) as [R L'].
  split; [done|]. split; [by eapply vm_ok_store|]. split; [exact U2|]. split.
  - intros va' Hva'. change (mem w) with (store64 (mem u) (q + 8 * PX 0 a) 0). rewrite L' by done. by rewrite U3.
  - intros b B1 B2. rewrite <- U4 by done. apply load8_store64_out; [|done]. by apply (B1 _ _ Hq).
Qed.

Lemma wp_uvmunmap root va n do_free e s D l : vm_ok s root D l -> va mod PGSIZE = 0 -> 0 <= va -> va + Z.of_nat n * PGSIZE <= MAXVA ->
  (forall k, (k < n)%nat -> is_leaf (leaf (mem s) D (va + Z.of_nat k * PGSIZE))) ->
  (do_free = true -> Forall page_ok (frames (leaf (mem s) D) va n) /\ NoDup (frames (leaf (mem s) D) va n ++ l) /\ apart D (frames (leaf (mem s) D) va n)) ->
  wp (uvmunmap root va (Z.of_nat n) do_free) e s (fun _ t => vm_ok t root D (given_back do_free (frames (leaf (mem s) D) va n) l) /\ alike s t /\
    (forall va', 0 <= va' < MAXVA -> leaf (mem t) D va' = unmaps (leaf (mem s) D) va (Z.of_nat n) va') /\
    forall b, outside D b -> (do_free = true -> forall a, a ∈ frames (leaf (mem s) D) va n -> ~ in_page a b) -> load8 (mem t) b = load8 (mem s) b).
Proof using end_pos.
  intros V Hal H0 Hmax Hleaf Hfree. unfold uvmunmap. rewrite Hal. change (negb (0 =? 0)) with false. cbv match. rewrite Nat2Z.id.
  assert (Hend : u64 (va + Z.of_nat n * PGSIZE) = va + Z.of_nat n * PGSIZE) by (change MAXVA with (2 ^ 38) in *; unfold PGSIZE in *; rewrite u64_id; lia). rewrite Hend.
  set (fr := frames (leaf (mem s) D) va) in *.
  apply (wp_loop e (fun m a t => exists k, m = (n - k)%nat /\ (k <= n)%nat /\ a = va + Z.of_nat k * PGSIZE /\ vm_ok t root D (given_back do_free (fr k) l) /\ alike s t /\
    (forall va', 0 <= va' < MAXVA -> leaf (mem t) D va' = unmaps (leaf (mem s) D) va (Z.of_nat k) va') /\
    forall b, outside D b -> (do_free = true -> forall a, a ∈ fr n -> ~ in_page a b) -> load8 (mem t) b = load8 (mem s) b) _ _ n).
  - lia.
  - exists O. split; [lia|]. split; [lia|]. split; [by rewrite Z.add_0_r|]. split; [by destruct do_free|]. split; [done|]. split; [|done].
    intros va' _. unfold unmaps. destruct (Z.leb_spec (va / PGSIZE) (va' / PGSIZE)), (Z.ltb_spec (va' / PGSIZE) (va / PGSIZE + Z.of_nat 0)); try done; lia.
  - intros m a t (k & -> & Hk & -> & V' & A & L & O). destruct (Z.leb_spec (va + Z.of_nat n * PGSIZE) (va + Z.of_nat k * PGSIZE)) as [Hge|Hlt].
    { unfold uvmunmap_step. destruct (Z.leb_spec (va + Z.of_nat n * PGSIZE) (va + Z.of_nat k * PGSIZE)); [|lia]. apply wp_ret. assert (k = n) as -> by (unfold PGSIZE in Hge; lia). done. }
    assert (Hkn : (k < n)%nat) by (unfold PGSIZE in Hlt; lia). set (a := va + Z.of_nat k * PGSIZE) in *.
    assert (Ha : 0 <= a < MAXVA) by (unfold a, PGSIZE in *; lia).
    assert (La : leaf (mem t) D a = leaf (mem s) D a).
    { rewrite L by done. unfold unmaps, a. rewrite page_div by done. destruct (Z.ltb_spec (va / PGSIZE + Z.of_nat k) (va / PGSIZE + Z.of_nat k)); [lia|]. by rewrite andb_false_r. }
    assert (Hfrn : PTE2PA (leaf (mem s) D a) ∈ fr n) by (apply frames_elem; by exists k).
    eapply wp_mono; [apply (wp_unmap_page root _ do_free a e t D _ V' Hlt Ha)|].
    { rewrite La. by apply Hleaf. }
    { intros ->. cbn zeta. rewrite La. destruct (Hfree eq_refl) as (F1 & F2 & F3). split; [by rewrite list.Forall_forall in F1; apply F1|]. split; [|intros p Hp; by apply (F3 _ _ Hp)].
      unfold given_back. replace n with (S k + (n - S k))%nat in F2 by lia. unfold fr, frames in F2. rewrite seq_app, fmap_app in F2. fold (frames (leaf (mem s) D) va (S k)) in F2. rewrite frames_snoc in F2.
      rewrite <- !app_assoc in F2. apply list.NoDup_app in F2 as (_ & N2 & N3). apply list.NoDup_cons in N3 as [N3 _]. fold a in N2, N3.
      intros [Hx|Hx]%elem_of_app; [|apply N3, elem_of_app; by right]. apply list_elem_of_In, in_rev, list_elem_of_In in Hx. apply (N2 _ Hx). left. }
    rewrite La. intros r u (-> & U1 & U2 & U3 & U4). exists (n - S k)%nat. split; [lia|]. exists (S k). split; [done|]. split; [lia|].
    split; [unfold a; change MAXVA with (2 ^ 38) in *; unfold PGSIZE in *; rewrite u64_id; lia|]. split; [|split; [by eapply alike_trans|split]].
    + unfold given_back in *. destruct do_free; [|done]. unfold fr. rewrite frames_snoc. fold (fr k). fold a. by rewrite rev_app_distr.
    + intros va' Hva'. rewrite U3 by done. replace (Z.of_nat (S k)) with (Z.of_nat k + 1) by lia. rewrite unmaps_snoc by lia. unfold a. rewrite page_div by done. by rewrite L.
    + intros b B1 B2. rewrite U4; [by apply O|done|]. intros Hd. by apply B2.
Qed.
(** ** Steps on a table and the free list *)

(** A table survives what happens outside of its pages. *)
Lemma vm_ok_frame s t root D l l' : vm_ok s root D l -> kmem_ready t -> kmem_inv t l' -> (forall a, a ∈ l' -> forall p, D !! p <> Some a) ->
  (forall p a b, D !! p = Some a -> in_page a b -> load8 (mem t) b = load8 (mem s) b) ->
  vm_ok t root D l' /\ forall va, leaf (mem t) D va = leaf (mem s) D va.
Proof using.
  intros [V1 V2 V3 V4] Hr Hl Ha Hm. destruct (pt_rep_ext (mem s) (mem t) root D Hm V3) as [R L]. split; [|done]. split; [done|done|done|].
  intros p a Hp Hin. by apply (Ha a Hin p).
Qed.

Lemma wp_kalloc e s root D l : vm_ok s root D l ->
  wp kalloc e s (fun r t => r = hd 0 l /\ vm_ok t root D (tail l) /\ alike s t /\ (forall va, leaf (mem t) D va = leaf (mem s) D va) /\
    forall b, (l <> [] -> ~ in_page r b) -> load8 (mem t) b = load8 (mem s) b).
Proof using end_pos.
  intros V. destruct (kalloc_spec e s l (vo_ready _ _ _ _ V) (vo_free _ _ _ _ V)) as (t & E & T1 & T2 & T3 & T4). eapply wp_call; [exact E|].
  destruct (vm_ok_frame s t root D l (tail l) V T1 T3) as [Vt Lt].
  - intros a Ha p Hp. apply (vo_apart _ _ _ _ V) in Hp. destruct l; [done|]. apply Hp. by right.
  - intros p a b Hp Hb. destruct l as [|g l]; [by rewrite T4|]. destruct T4 as (T4 & T5 & T6). apply T6.
    apply (in_page_neq a); [by eapply (pr_page _ _ _ (vo_rep _ _ _ _ V))|done| |done]. intros ->. apply (vo_apart _ _ _ _ V) in Hp. apply Hp. left.
  - split; [done|]. split; [done|]. split; [done|]. split; [done|]. intros b Hb. destruct l as [|g l]; [by rewrite T4|]. apply T4. by apply Hb.
Qed.

Lemma mk_pte_fields pa perm : page_ok pa -> 0 <= perm < 2 ^ 10 -> has (mk_pte pa perm) PTE_V = true /\ PTE2PA (mk_pte pa perm) = pa /\ PTE_FLAGS (mk_pte pa perm) = Z.lor perm PTE_V.
Proof using end_pos.
  intros [H1 H2] H3. assert (H := pte_roundtrip pa perm 0 0). apply H; [done|unfold PHYSTOP, KERNBASE in H2; lia|done|done|done].
Qed.

Lemma flags_range v : 0 <= PTE_FLAGS v < 2 ^ 10.
Proof using. unfold PTE_FLAGS. change 0x3FF with (Z.ones 10). rewrite Z.land_ones by lia. apply (Z.mod_pos_bound _ (2 ^ 10)). lia. Qed.

(** The flags of a valid entry contain the valid bit. *)
Lemma flags_valid v : has v PTE_V = true -> Z.lor (PTE_FLAGS v) PTE_V = PTE_FLAGS v.
Proof using.
  intros Hv. assert (Hb : Z.testbit v 0 = true).
  { unfold has in Hv. destruct (Z.testbit v 0) eqn:E; [done|]. exfalso. replace (Z.land v PTE_V) with 0 in Hv; [done|]. symmetry. apply Z.bits_inj'. intros i Hi.
    rewrite Z.land_spec, Z.bits_0. change PTE_V with (2 ^ 0). rewrite Z.pow2_bits_eqb by lia. destruct (Z.eqb_spec 0 i) as [<-|]; [by rewrite E|by rewrite andb_false_r]. }
  unfold PTE_FLAGS. apply Z.bits_inj'. intros i Hi. rewrite Z.lor_spec, Z.land_spec. change PTE_V with (2 ^ 0). rewrite Z.pow2_bits_eqb by lia.
  destruct (Z.eqb_spec 0 i) as [<-|]; [|by rewrite orb_false_r]. by rewrite Hb.
Qed.

End rep.
