(* ===== verification/VmInst.v ===== *)
(** * Concrete page tables

    A decision procedure for [pt_rep], and two small page tables over one
    memory on which the theorems are instantiated. *)
From stdpp Require Import base tactics list numbers gmap strings.
From S2P Require Import Prelude Machine Wp Spinlock StringC Kalloc Vm VmRep.

Open Scope Z_scope.

(** ** Deciding that a memory holds a page table *)

Section check.
Context `{LK : Linker}.

Definition check_links (m : bytes) (D : dirs) (p : list Z) (a : Z) : bool :=
  forallb (fun i => let v := load64 m (a + 8 * i) in bool_decide (D !! (p ++ [i]) = link_of v) && (negb (has v PTE_V) || (PTE_FLAGS v =? PTE_V))) (seqZ 0 512).

Definition check_up (D : dirs) (p : list Z) : bool :=
  match last p with
  | None => true
  | Some i => (length (removelast p) <? 2)%nat && (0 <=? i) && (i <? 512) && bool_decide (is_Some (D !! removelast p)) && (default 0 (head p) <? 256)
  end.

Definition check_dir (m : bytes) (D : dirs) (x : list Z * Z) : bool :=
  bool_decide (page_ok x.2) && ((2 <=? length x.1)%nat || check_links m D x.1 x.2) && check_up D x.1.

Definition check_table (m : bytes) (root : Z) (D : dirs) : bool :=
  bool_decide (D !! [] = Some root) && bool_decide (NoDup (map_to_list D).*2) && forallb (check_dir m D) (map_to_list D).

Lemma check_table_sound m root D : check_table m root D = true -> pt_rep m root D.
Proof.
  unfold check_table. rewrite !andb_true_iff, !bool_decide_eq_true, forallb_forall. intros [[H1 H2] H3].
  assert (Hd : forall p a, D !! p = Some a -> page_ok a /\ ((length p < 2)%nat -> check_links m D p a = true) /\ check_up D p = true).
  { intros p a Hp. assert (H := H3 (p, a)). rewrite <- list_elem_of_In, elem_of_map_to_list in H. specialize (H Hp). unfold check_dir in H. cbn [fst snd] in H.
    rewrite !andb_true_iff, bool_decide_eq_true, orb_true_iff, Nat.leb_le in H. destruct H as [[A1 A2] A3]. split; [done|]. split; [|done]. intros Hl. destruct A2; [lia|done]. }
  assert (Hl : forall p a i, D !! p = Some a -> (length p < 2)%nat -> 0 <= i < 512 -> D !! (p ++ [i]) = link_of (load64 m (a + 8 * i)) /\
    (has (load64 m (a + 8 * i)) PTE_V = true -> PTE_FLAGS (load64 m (a + 8 * i)) = PTE_V)).
  { intros p a i Hp Hlen Hi. destruct (Hd p a Hp) as (_ & H & _). specialize (H Hlen). unfold check_links in H. rewrite forallb_forall in H. specialize (H i).
    rewrite <- list_elem_of_In, elem_of_seqZ in H. specialize (H ltac:(lia)). cbn zeta in H. rewrite andb_true_iff, bool_decide_eq_true, orb_true_iff, Z.eqb_eq in H. destruct H as [A1 A2].
    split; [done|]. intros Hv. rewrite Hv in A2. by destruct A2. }
  assert (Hup : forall q i a, D !! (q ++ [i]) = Some a -> (length q < 2)%nat /\ 0 <= i < 512 /\ is_Some (D !! q) /\ default 0 (head (q ++ [i])) < 256).
  { intros q i a Hp. destruct (Hd _ _ Hp) as (_ & _ & H). unfold check_up in H. rewrite last_snoc, removelast_last in H. rewrite !andb_true_iff, bool_decide_eq_true, Nat.ltb_lt, Z.leb_le, !Z.ltb_lt in H. tauto. }
  split; [done| | | | | |].
  - intros p q a Hp Hq. apply elem_of_map_to_list in Hp, Hq. apply list_elem_of_lookup_1 in Hp as [i Hi], Hq as [j Hj].
    assert (E : i = j) by (apply (NoDup_lookup _ i j a H2); rewrite list_lookup_fmap; [by rewrite Hi|by rewrite Hj]). rewrite E, Hj in Hi. by injection Hi.
  - intros p a Hp. by apply (Hd p a).
  - intros p a i Hp H Hi. by apply (Hl p a i).
  - intros p a i Hp H Hi. by apply (Hl p a i).
  - intros i p a Hp. destruct p as [|j p _] using rev_ind; [by apply (Hup [] i a) in Hp as (_ & _ & _ & H)|]. rewrite app_comm_cons in Hp. by apply Hup in Hp as (_ & _ & _ & H).
  - intros p a Hp. destruct p as [|i q _] using rev_ind; [by left|right]. destruct (Hup _ _ _ Hp) as (A1 & A2 & A3 & _). by exists q, i.
Qed.
End check.

(** ** Two page tables *)

(** A kernel that ends sixteen pages below PHYSTOP. *)
#[export] Instance sixteen_pages : Linker :=
  {| kernel_end := PHYSTOP - 16 * PGSIZE; etext := KERNBASE; trampoline := KERNBASE; forkret_entry := KERNBASE |}.

Definition page (k : Z) : Z := PHYSTOP - (k + 1) * PGSIZE.

Definition user_rw : Z := Z.lor PTE_R (Z.lor PTE_W PTE_U).

(** The free list 0, 1, 2, 3; a table with directories 8, 9, 10 that maps the
    first page to 11; an empty table 12. *)
Definition vm_mem : bytes :=
  store8 (store64 (store64 (store64 (store64 (store64 (store64 ∅ (page 0) (page 1)) (page 1) (page 2)) (page 2) (page 3))
    (page 8) (Z.lor (PA2PTE (page 9)) PTE_V)) (page 9) (Z.lor (PA2PTE (page 10)) PTE_V)) (page 10) (mk_pte (page 11) user_rw)) (page 11 + 5) 77.

Definition vm_state : mach := one_hart Lkmem (mkSpinlock 0 "kmem" None) <| freelist := page 0 |> <| mem := vm_mem |>.
Definition vm_dirs : dirs := {[ [] := page 8; [0] := page 9; [0; 0] := page 10 ]}.
Definition vm_free : list Z := [page 0; page 1; page 2; page 3].

Lemma vm_state_ready : kmem_ready vm_state.
Proof. split; [|by exists "kmem"%string]. eexists. split; [reflexivity|]. split; [cbn; lia|]. cbn. lia. Qed.

Lemma vm_state_free : kmem_inv vm_state vm_free.
Proof. split; [|by apply (bool_decide_unpack _)]. repeat (split; [done|]; split; [by vm_compute|]). by vm_compute. Qed.

Lemma vm_ok_table root D : check_table vm_mem root D = true -> forallb (fun x => bool_decide (x.2 ∉ vm_free)) (map_to_list D) = true -> vm_ok vm_state root D vm_free.
Proof.
  intros H1 H2. split; [apply vm_state_ready|apply vm_state_free|by apply check_table_sound|]. intros p a Hp. rewrite forallb_forall in H2. specialize (H2 (p, a)).
  rewrite <- list_elem_of_In, elem_of_map_to_list, bool_decide_eq_true in H2. by apply H2.
Qed.

Lemma vm_ok_parent : vm_ok vm_state (page 8) vm_dirs vm_free.
Proof. by apply vm_ok_table; vm_compute. Qed.

Lemma vm_ok_child : vm_ok vm_state (page 12) {[ [] := page 12 ]} vm_free.
Proof. by apply vm_ok_table; vm_compute. Qed.

Lemma root_leaf m root va : leaf m {[ [] := root ]} va = 0.
Proof. unfold leaf. by rewrite lookup_singleton_ne. Qed.

Lemma parent_leaf va : 0 <= va < MAXVA -> leaf vm_mem vm_dirs va = if va <? PGSIZE then mk_pte (page 11) user_rw else 0.
Proof.
  intros Hva. destruct (Z.ltb_spec va PGSIZE) as [Hlt|Hge].
  - rewrite (leaf_page vm_mem vm_dirs va 0) by (try lia; rewrite Z.div_small by lia; done). by vm_compute.
  - unfold leaf. destruct (vm_dirs !! pth va 0) as [q|] eqn:Hq; [|done]. unfold vm_dirs in Hq. apply lookup_insert_Some in Hq as [[E _]|[_ Hq]]; [done|].
    apply lookup_insert_Some in Hq as [[E _]|[_ Hq]]; [done|]. apply lookup_singleton_Some in Hq as [E <-].
    assert (Hx : PX 0 va <> 0). { intros H0. assert (Hp := PX_inj va 0 Hva ltac:(done) (eq_sym E) H0). change (0 / PGSIZE) with 0 in Hp. unfold PGSIZE in *. Z.to_euclidean_division_equations. lia. }
    assert (Hall : forallb (fun i => load64 vm_mem (page 10 + 8 * i) =? 0) (seqZ 1 511) = true) by (by vm_compute). rewrite forallb_forall in Hall.
    apply Z.eqb_eq, Hall. rewrite <- list_elem_of_In, elem_of_seqZ. assert (H := PX_range 0 va). lia.
Qed.
