(* ===== verification/VmMap.v ===== *)
(** * Mapping and unmapping

    What [mappages] and [uvmunmap] do to the map from addresses to entries. *)
From stdpp Require Import base tactics list numbers gmap strings.
From S2P Require Import Prelude Machine Wp Spinlock StringC Kalloc Vm VmRep VmInst.

Open Scope Z_scope.

Section map.
Context `{LK : Linker}.
Hypothesis end_pos : 0 < kernel_end.

(** C3. [mappages] updates the page table as a map: it returns 0 and the [n]
    pages from [va] on lead to [pa] and on with the permissions asked for, or,
    when memory for directories runs out, -1 after some of them; every other
    address keeps its entry, the directories come from the front of the free
    list, and nothing outside of the table changes. *)
Theorem mappages_correct (e : env) (s : mach) (root va n pa perm : Z) (D : dirs) (l : list Z) : vm_ok s root D l ->
  va mod PGSIZE = 0 -> 0 <= va -> 0 < n -> va + n * PGSIZE <= MAXVA -> 0 <= pa -> pa + n * PGSIZE < 2 ^ 64 -> 0 <= perm < 2 ^ 10 ->
  (forall va', va <= va' < va + n * PGSIZE -> has (leaf (mem s) D va') PTE_V = false) ->
  exists r t D' l' k, mappages root va (n * PGSIZE) pa perm e s = Ret r e t /\ vm_ok t root D' l' /\ grown s D l t D' l' /\ new_paths (on_ways va n) D D' /\
    ((r = 0 /\ k = n) \/ (r = -1 /\ l' = [] /\ 0 <= k < n)) /\
    forall va', 0 <= va' < MAXVA -> leaf (mem t) D' va' = maps (leaf (mem s) D) va pa perm k va'.
Proof using end_pos.
  intros V H1 H2 H3 H4 H5 H6 H7 H8. destruct (wp_mappages end_pos root va n pa perm e s D l V H1 H2 H3 H4 H5 H6 H7 H8) as (r & t & E & D' & l' & k & H). by exists r, t, D', l', k.
Qed.

(** [uvmunmap] removes the entries of [n] mapped pages and no others; with
    [do_free] it gives their frames back to the allocator, in the order of the
    addresses, and changes nothing but the table and those frames. *)
Theorem uvmunmap_correct (e : env) (s : mach) (root va : Z) (n : nat) (do_free : bool) (D : dirs) (l : list Z) : vm_ok s root D l ->
  va mod PGSIZE = 0 -> 0 <= va -> va + Z.of_nat n * PGSIZE <= MAXVA ->
  (forall k, (k < n)%nat -> is_leaf (leaf (mem s) D (va + Z.of_nat k * PGSIZE))) ->
  let fs := frames (leaf (mem s) D) va n in
  (do_free = true -> Forall page_ok fs /\ NoDup (fs ++ l) /\ apart D fs) ->
  exists t, uvmunmap root va (Z.of_nat n) do_free e s = Ret tt e t /\ vm_ok t root D (given_back do_free fs l) /\ alike s t /\
    (forall va', 0 <= va' < MAXVA -> leaf (mem t) D va' = unmaps (leaf (mem s) D) va (Z.of_nat n) va') /\
    forall b, outside D b -> (do_free = true -> forall a, a ∈ fs -> ~ in_page a b) -> load8 (mem t) b = load8 (mem s) b.
Proof using end_pos.
  intros V H1 H2 H3 H4 fs H5. destruct (wp_uvmunmap end_pos root va n do_free e s D l V H1 H2 H3 H4 H5) as ([] & t & E & H). by exists t.
Qed.
End map.

(** ** Instances *)

(** Three pages from 0x5000 on in the empty table. *)
Lemma mappages_correct_witness :
  exists r t D' l' k, mappages (page 12) 0x5000 (3 * PGSIZE) (page 13) user_rw [] vm_state = Ret r [] t /\ vm_ok t (page 12) D' l' /\ grown vm_state {[ [] := page 12 ]} vm_free t D' l' /\
    new_paths (on_ways 0x5000 3) {[ [] := page 12 ]} D' /\
    ((r = 0 /\ k = 3) \/ (r = -1 /\ l' = [] /\ 0 <= k < 3)) /\
    forall va', 0 <= va' < MAXVA -> leaf (mem t) D' va' = maps (leaf vm_mem {[ [] := page 12 ]}) 0x5000 (page 13) user_rw k va'.
Proof.
  apply (mappages_correct (LK := sixteen_pages) eq_refl [] vm_state (page 12) 0x5000 3 (page 13) user_rw _ _ vm_ok_child); [done|done|done|done|done|done|done|].
  intros va' _. by rewrite root_leaf.
Defined.

Lemma uvmunmap_correct_witness :
  exists t, uvmunmap (page 8) 0 (Z.of_nat 1) true [] vm_state = Ret tt [] t /\ vm_ok t (page 8) vm_dirs (page 11 :: vm_free) /\ alike vm_state t /\
    (forall va', 0 <= va' < MAXVA -> leaf (mem t) vm_dirs va' = unmaps (leaf vm_mem vm_dirs) 0 1 va') /\
    forall b, outside vm_dirs b -> (true = true -> forall a, a ∈ [page 11] -> ~ in_page a b) -> load8 (mem t) b = load8 vm_mem b.
Proof.
  assert (F : frames (leaf vm_mem vm_dirs) 0 1 = [page 11]) by (by vm_compute).
  assert (H := uvmunmap_correct eq_refl [] vm_state (page 8) 0 1 true vm_dirs vm_free vm_ok_parent). cbn zeta in H. change (mem vm_state) with vm_mem in H. rewrite F in H. apply H.
  - done.
  - done.
  - done.
  - intros k Hk. assert (k = 0%nat) as -> by lia. by vm_compute.
  - intros _. split; [apply list.Forall_singleton; by vm_compute|]. split; [by apply (bool_decide_unpack _); vm_compute|].
    intros p a Hp ->%list_elem_of_singleton. assert (Hall : map_Forall (fun _ a => a <> page 11) vm_dirs) by (apply (bool_decide_unpack _); by vm_compute). by apply (Hall p _ Hp).
Defined.
