(* ===== verification/VmCopy.v ===== *)
(** * Copying an address space

    [uvmcopy], with which [fork] gives the child its memory: two page tables
    over one memory and one free list. *)
From stdpp Require Import base tactics list numbers gmap strings.
From S2P Require Import Prelude Machine Wp Spinlock StringC Kalloc Vm VmRep VmInst.

Open Scope Z_scope.

Section copy.
Context `{LK : Linker}.
Hypothesis end_pos : 0 < kernel_end.

(** ** The state of a copy *)

Section state.
Context (s : mach) (old new : Z) (D1 D2 : dirs) (l : list Z) (n : nat).

(** Entry and frame of page [k] of the parent. *)
Definition parent_pte (k : nat) : Z := leaf (mem s) D1 (Z.of_nat k * PGSIZE).
Definition parent_frame (k : nat) : Z := PTE2PA (parent_pte k).

(** The parent has [n] pages, whose frames are in use; the child has none of them. *)
Record copy_ready : Prop := mkCopyReady {
  cr_old : vm_ok s old D1 l;
  cr_new : vm_ok s new D2 l;
  cr_apart : forall p q a, D1 !! p = Some a -> D2 !! q <> Some a;
  cr_leaf : forall k, (k < n)%nat -> is_leaf (parent_pte k);
  cr_frame : forall k, (k < n)%nat -> page_ok (parent_frame k) /\ parent_frame k ∉ l /\ forall p, D2 !! p <> Some (parent_frame k);
  cr_max : Z.of_nat n * PGSIZE <= MAXVA;
  cr_unmapped : forall va, 0 <= va < Z.of_nat n * PGSIZE -> has (leaf (mem s) D2 va) PTE_V = false
}.

(** The entries of the child after the pages of [gs] were mapped. *)
Definition child_leaf (gs : list Z) (va : Z) : Z :=
  match gs !! Z.to_nat (va / PGSIZE) with
  | Some g => mk_pte g (PTE_FLAGS (leaf (mem s) D1 va))
  | None => leaf (mem s) D2 va
  end.

(** The pages [gs] hold copies of the first pages of the parent. *)
Record copied (t : mach) (D2' : dirs) (l' gs : list Z) : Prop := mkCopied {
  cp_new : vm_ok t new D2' l';
  cp_alike : alike s t;
  cp_nodup : NoDup gs;
  cp_from : forall g, g ∈ gs -> g ∈ l /\ g ∉ l' /\ forall p, D2' !! p <> Some g;
  cp_sub : forall a, a ∈ l' -> a ∈ l;
  cp_dirs : forall p a, D2' !! p = Some a -> D2 !! p = Some a \/ a ∈ l;
  cp_all : forall a, a ∈ l -> a ∈ l' \/ a ∈ gs \/ exists p, D2' !! p = Some a;
  cp_leaf : forall va, 0 <= va < MAXVA -> leaf (mem t) D2' va = child_leaf gs va;
  cp_data : forall k g j, gs !! k = Some g -> 0 <= j < PGSIZE -> load8 (mem t) (g + j) = load8 (mem s) (parent_frame k + j);
  cp_out : forall b, (forall a, a ∈ l -> ~ in_page a b) -> outside D2 b -> load8 (mem t) b = load8 (mem s) b
}.

(** What a copy that fails leaves: the child has no page of the parent, and
    every page it took is free again or a directory of the child. *)
Record undone (t : mach) (D2' : dirs) (l' : list Z) : Prop := mkUndone {
  un_new : vm_ok t new D2' l';
  un_alike : alike s t;
  un_leaf : forall va, 0 <= va < Z.of_nat n * PGSIZE -> has (leaf (mem t) D2' va) PTE_V = false;
  un_all : forall a, a ∈ l -> a ∈ l' \/ exists p, D2' !! p = Some a;
  un_sub : forall a, a ∈ l' -> a ∈ l;
  un_dirs : forall p a, D2' !! p = Some a -> D2 !! p = Some a \/ a ∈ l;
  un_out : forall b, (forall a, a ∈ l -> ~ in_page a b) -> outside D2 b -> load8 (mem t) b = load8 (mem s) b
}.

(** Pages of the parent are not touched. *)
Definition parental (a : Z) : Prop := (exists p, D1 !! p = Some a) \/ exists k, (k < n)%nat /\ a = parent_frame k.

Lemma parental_ok a : copy_ready -> parental a -> page_ok a /\ a ∉ l /\ forall p, D2 !! p <> Some a.
Proof using.
  intros [C1 C2 C3 C4 C5 C6 C7] [[p Hp]|(k & Hk & ->)]; [|by apply C5]. split; [by eapply (pr_page _ _ _ (vo_rep _ _ _ _ C1))|]. split; [by eapply (vo_apart _ _ _ _ C1)|].
  intros q. by eapply C3.
Qed.

Lemma copied_parent t D2' l' gs a b : copy_ready -> copied t D2' l' gs -> parental a -> in_page a b -> load8 (mem t) b = load8 (mem s) b.
Proof using.
  intros C P Ha Hb. destruct (parental_ok a C Ha) as (A1 & A2 & A3). apply (cp_out _ _ _ _ P).
  - intros g Hg. apply (in_page_neq a); [done|by eapply free_page; [apply C|]|by intros ->|done].
  - intros p c Hp. apply (in_page_neq a); [done|by eapply (pr_page _ _ _ (vo_rep _ _ _ _ (cr_new C)))| |done]. intros ->. by apply (A3 p).
Qed.

(** The table of the parent at any time of the copy. *)
Lemma copied_old t D2' l' gs : copy_ready -> copied t D2' l' gs -> vm_ok t old D1 l' /\ forall va, leaf (mem t) D1 va = leaf (mem s) D1 va.
Proof using.
  intros C P. apply (vm_ok_frame s t old D1 l); [apply C|apply P|apply P| |].
  - intros a Ha p Hp. by apply (vo_apart _ _ _ _ (cr_old C) _ _ Hp), (cp_sub _ _ _ _ P).
  - intros p a b Hp Hb. apply (copied_parent t D2' l' gs a); [done|done|left; by exists p|done].
Qed.

Lemma copied_start : copy_ready -> copied s D2 l [].
Proof using.
  intros C. split; try done; [apply C|constructor|by intros g Hg%elem_of_nil|by left|by left].
Qed.

(** ** Giving up *)

Lemma child_frames t D2' l' gs : copy_ready -> copied t D2' l' gs -> (length gs <= n)%nat -> frames (leaf (mem t) D2') 0 (length gs) = gs.
Proof using end_pos.
  intros C P Hn. unfold frames. apply list_eq. intros k. rewrite list_lookup_fmap. destruct (decide (k < length gs)%nat) as [Hk|Hk].
  - rewrite lookup_seq_lt by done. cbn [fmap option_fmap option_map]. destruct (lookup_lt_is_Some_2 _ _ Hk) as [g Hg]. rewrite Hg. f_equal. assert (Hmax := cr_max C).
    rewrite (cp_leaf _ _ _ _ P) by (unfold PGSIZE in *; lia). unfold child_leaf. rewrite Z.add_0_l, Z.div_mul by done. rewrite Nat2Z.id. cbn [Nat.add]. rewrite Hg.
    apply (mk_pte_fields end_pos); [|apply flags_range]. apply list_elem_of_lookup_2, (cp_from _ _ _ _ P) in Hg as (Hg & _). by eapply free_page; [apply C|].
  - rewrite lookup_ge_None_2 by (rewrite length_seq; lia). cbn. symmetry. apply lookup_ge_None_2. lia.
Qed.

Lemma wp_undo t D2' l' gs e : copy_ready -> copied t D2' l' gs -> (length gs <= n)%nat ->
  wp (uvmunmap new 0 (Z.of_nat (length gs)) true) e t (fun _ u => exists l'', undone u D2' l'').
Proof using end_pos.
  intros C P Hn. assert (Hfr := child_frames t D2' l' gs C P Hn). assert (Hmax := cr_max C).
  assert (Hpages : Forall page_ok gs). { apply list.Forall_forall. intros g Hg. apply (cp_from _ _ _ _ P) in Hg as (Hg & _). by eapply free_page; [apply C|]. }
  eapply wp_mono; [apply (wp_uvmunmap end_pos new 0 (length gs) true e t D2' l'); [apply P|done|lia|unfold PGSIZE in *; lia| |]|].
  - intros k Hk. rewrite Z.add_0_l. rewrite (cp_leaf _ _ _ _ P) by (unfold PGSIZE in *; lia). unfold child_leaf. rewrite Z.div_mul, Nat2Z.id by done.
    destruct (lookup_lt_is_Some_2 _ _ Hk) as [g Hg]. rewrite Hg. destruct (cr_leaf C k ltac:(lia)) as [L1 L2]. unfold parent_pte in L1, L2.
    destruct (mk_pte_fields end_pos g (PTE_FLAGS (leaf (mem s) D1 (Z.of_nat k * PGSIZE)))) as (M1 & _ & M3); [rewrite list.Forall_forall in Hpages; apply Hpages; by eapply list_elem_of_lookup_2|apply flags_range|].
    split; [done|]. rewrite M3, flags_valid; done.
  - intros _. rewrite Hfr. split; [done|]. split; [|intros p a Hp Ha; by destruct (cp_from _ _ _ _ P a Ha) as (_ & _ & H); apply (H p)].
    apply list.NoDup_app. split; [apply P|]. split; [intros g Hg; by apply (cp_from _ _ _ _ P)|]. apply (vo_free _ _ _ _ (cp_new _ _ _ _ P)).
  - intros [] u (U1 & U2 & U3 & U4). rewrite Hfr in *. exists (rev gs ++ l'). cbn [given_back] in U1. split.
    + done.
    + by eapply alike_trans; [apply P|].
    + intros va Hva. rewrite U3 by (unfold PGSIZE in *; lia). unfold unmaps. change (0 / PGSIZE) with 0. assert (0 <= va / PGSIZE) by (apply Z.div_pos; unfold PGSIZE; lia).
      destruct (Z.leb_spec 0 (va / PGSIZE)), (Z.ltb_spec (va / PGSIZE) (0 + Z.of_nat (length gs))); cbn [andb]; try lia; [done|].
      rewrite (cp_leaf _ _ _ _ P) by (unfold PGSIZE in *; lia). unfold child_leaf. rewrite lookup_ge_None_2 by lia. by apply (cr_unmapped C).
    + intros a Ha. apply (cp_all _ _ _ _ P) in Ha as [Ha|[Ha|Ha]]; [left; apply elem_of_app; by right| |by right].
      left. apply elem_of_app. left. by apply list_elem_of_In, in_rev, list_elem_of_In in Ha || (apply list_elem_of_In; rewrite <- in_rev; by apply list_elem_of_In).
    + intros a [Ha|Ha]%elem_of_app; [|by apply (cp_sub _ _ _ _ P)]. apply list_elem_of_In, in_rev, list_elem_of_In in Ha. by apply (cp_from _ _ _ _ P).
    + apply P.
    + intros b B1 B2. assert (Hout : outside D2' b). { intros p a Hp. apply (cp_dirs _ _ _ _ P) in Hp as [Hp|Hp]; [by apply (B2 p)|by apply B1]. }
      rewrite U4; [by apply (cp_out _ _ _ _ P)|done|intros _ g Hg; apply B1; by apply (cp_from _ _ _ _ P)].
Qed.

(** ** One page *)

(** The new page filled from the parent, before it is mapped. *)
Lemma copied_fill t D2' g l' gs u : copy_ready -> copied t D2' (g :: l') gs -> (length gs < n)%nat ->
  vm_ok u new D2' l' -> alike t u -> (forall va, leaf (mem u) D2' va = leaf (mem t) D2' va) ->
  (forall b, ~ in_page g b -> load8 (mem u) b = load8 (mem t) b) ->
  let v := u <| mem ::= fun m => memmove m g (parent_frame (length gs)) PGSIZE |> in
  vm_ok v new D2' l' /\ alike s v /\ (forall va, leaf (mem v) D2' va = leaf (mem t) D2' va) /\
  (forall b, ~ in_page g b -> load8 (mem v) b = load8 (mem t) b) /\
  (forall j, 0 <= j < PGSIZE -> load8 (mem v) (g + j) = load8 (mem s) (parent_frame (length gs) + j)).
Proof using.
  intros C P Hn Vu A L O v. assert (Hg : g ∈ l) by (apply (cp_sub _ _ _ _ P); left). assert (Hgp : page_ok g) by (by eapply free_page; [apply C|]).
  assert (Hgl : g ∉ l') by (destruct (vo_free _ _ _ _ (cp_new _ _ _ _ P)) as [_ Hnd]; by apply list.NoDup_cons in Hnd as [? _]).
  assert (Hgd : forall p, D2' !! p <> Some g) by (intros p Hp; apply (vo_apart _ _ _ _ (cp_new _ _ _ _ P) _ _ Hp); left).
  assert (Hm : forall b, load8 (mem v) b = if (g <=? b) && (b <? g + PGSIZE) then load8 (mem u) (parent_frame (length gs) + (b - g)) else load8 (mem u) b).
  { intros b. exact (memmove_copies (mem u) g (parent_frame (length gs)) PGSIZE b ltac:(done)). }
  assert (Hmo : forall b, ~ in_page g b -> load8 (mem v) b = load8 (mem u) b).
  { intros b Hb. rewrite Hm. unfold in_page in Hb. destruct (Z.leb_spec g b), (Z.ltb_spec b (g + PGSIZE)); cbn [andb]; (reflexivity || lia). }
  assert (Hk : kmem_inv v l').
  { apply (kmem_inv_ext u); [apply Vu|done|]. intros p b Hp Hb. apply Hmo. apply (in_page_neq p); [by eapply free_page; [apply Vu|]|done|by intros ->|done]. }
  destruct (vm_ok_frame u v new D2' l' l' Vu (vo_ready _ _ _ _ Vu) Hk) as [Vv Lv].
  { intros a Ha p Hp. by apply (vo_apart _ _ _ _ Vu _ _ Hp). }
  { intros p a b Hp Hb. apply Hmo. apply (in_page_neq a); [by eapply (pr_page _ _ _ (vo_rep _ _ _ _ Vu))|done|intros ->; by apply (Hgd p)|done]. }
  split; [done|]. split; [by eapply alike_trans; [apply P|]|]. split; [intros va; by rewrite Lv|]. split; [intros b Hb; by rewrite Hmo, O|].
  intros j Hj. rewrite Hm. destruct (Z.leb_spec g (g + j)), (Z.ltb_spec (g + j) (g + PGSIZE)); try lia. cbn [andb]. replace (parent_frame (length gs) + (g + j - g)) with (parent_frame (length gs) + j) by lia.
  assert (Hpar : parental (parent_frame (length gs))) by (right; by exists (length gs)). assert (Hpp := parental_ok _ C Hpar). destruct Hpp as (P1 & P2 & P3).
  assert (Hin : in_page (parent_frame (length gs)) (parent_frame (length gs) + j)) by (unfold in_page; lia).
  rewrite O; [by eapply copied_parent|]. apply (in_page_neq (parent_frame (length gs))); [done|done| |done]. intros E. apply P2. by rewrite E.
Qed.

(** What one call of [mappages] for the page [g] leaves. *)
Lemma mapped_dirs v u D2' g l' D3 l3 : vm_ok v new D2' l' -> g ∉ l' -> (forall p, D2' !! p <> Some g) -> grown v D2' l' u D3 l3 -> vm_ok u new D3 l3 ->
  (forall a, a ∈ l3 -> a ∈ l') /\ (forall p a, D3 !! p = Some a -> D2' !! p = Some a \/ a ∈ l') /\ (forall a, a ∈ l' -> a ∈ l3 \/ exists p, D3 !! p = Some a) /\
  g ∉ l3 /\ (forall p, D3 !! p <> Some g).
Proof using.
  intros Vv Hg Hd [G1 (used & -> & G2 & G3) _ _] Vu.
  assert (Hsub : forall p a, D3 !! p = Some a -> D2' !! p = Some a \/ a ∈ used ++ l3) by (intros p a Hp; apply G2 in Hp as [Hp|Hp]; [by left|right; apply elem_of_app; by left]).
  split; [intros a Ha; apply elem_of_app; by right|]. split; [done|]. split; [|split].
  - intros a [Ha|Ha]%elem_of_app; [right; by apply G3|by left].
  - intros Hg'. apply Hg, elem_of_app. by right.
  - intros p Hp. apply Hsub in Hp as [Hp|Hp]; [by apply (Hd p)|done].
Qed.

Lemma copied_more t v u D2' g l' gs D3 l3 : copy_ready -> copied t D2' (g :: l') gs -> (length gs < n)%nat -> vm_ok v new D2' l' -> alike s v ->
  (forall b, ~ in_page g b -> load8 (mem v) b = load8 (mem t) b) ->
  (forall j, 0 <= j < PGSIZE -> load8 (mem v) (g + j) = load8 (mem s) (parent_frame (length gs) + j)) ->
  vm_ok u new D3 l3 -> grown v D2' l' u D3 l3 ->
  (forall va, 0 <= va < MAXVA -> leaf (mem u) D3 va = maps (leaf (mem t) D2') (Z.of_nat (length gs) * PGSIZE) g (PTE_FLAGS (parent_pte (length gs))) 1 va) ->
  copied u D3 l3 (gs ++ [g]).
Proof using.
  intros C P Hn Vv A O Dt Vu G L. assert (Hg : g ∈ l) by (apply (cp_sub _ _ _ _ P); left). assert (Hgp : page_ok g) by (by eapply free_page; [apply C|]).
  assert (Hgl : g ∉ l') by (destruct (vo_free _ _ _ _ (cp_new _ _ _ _ P)) as [_ Hnd]; by apply list.NoDup_cons in Hnd as [? _]).
  assert (Hgd : forall p, D2' !! p <> Some g) by (intros p Hp; apply (vo_apart _ _ _ _ (cp_new _ _ _ _ P) _ _ Hp); left).
  destruct (mapped_dirs v u D2' g l' D3 l3 Vv Hgl Hgd G Vu) as (M1 & M2 & M3 & M4 & M5).
  assert (Hgs : forall a, a ∈ gs -> a ∈ l /\ a <> g /\ a ∉ l' /\ forall p, D3 !! p <> Some a).
  { intros a Ha. destruct (cp_from _ _ _ _ P a Ha) as (F1 & F2 & F3). split; [done|]. split; [intros ->; apply F2; left|]. split; [intros H; apply F2; by right|].
    intros p Hp. apply M2 in Hp as [Hp|Hp]; [by apply (F3 p)|apply F2; by right]. }
  assert (Hkeep : forall a b, page_ok a -> a <> g -> (forall p, D3 !! p <> Some a) -> in_page a b -> load8 (mem u) b = load8 (mem t) b).
  { intros a b A1 A2 A3 Hb. rewrite (gr_out _ _ _ _ _ _ G); [apply O; by apply (in_page_neq a)|]. intros p c Hp. apply (in_page_neq a); [done|by eapply (pr_page _ _ _ (vo_rep _ _ _ _ Vu))| |done]. intros ->. by apply (A3 p). }
  split.
  - done.
  - by eapply alike_trans; [|apply (gr_alike _ _ _ _ _ _ G)].
  - apply list.NoDup_app. split; [apply P|]. split; [|apply NoDup_singleton]. intros a Ha ->%list_elem_of_singleton. by apply Hgs in Ha as (_ & ? & _).
  - intros a [Ha| ->%list_elem_of_singleton]%elem_of_app; [|done]. destruct (Hgs a Ha) as (F1 & F2 & F3 & F4). split; [done|]. split; [|done]. intros H. by apply F3, M1.
  - intros a Ha. apply (cp_sub _ _ _ _ P). right. by apply M1.
  - intros p a Hp. apply M2 in Hp as [Hp|Hp]; [by apply (cp_dirs _ _ _ _ P) in Hp|right; apply (cp_sub _ _ _ _ P); by right].
  - intros a Ha. apply (cp_all _ _ _ _ P) in Ha as [[->|Ha]%elem_of_cons|[Ha|[p Hp]]].
    + right. left. apply elem_of_app. right. left.
    + apply M3 in Ha as [Ha|Ha]; [by left|right; by right].
    + right. left. apply elem_of_app. by left.
    + right. right. exists p. eapply lookup_weaken; [exact Hp|apply G].
  - intros va Hva. rewrite L by done. unfold maps, child_leaf. rewrite Z.div_mul by done. assert (0 <= va / PGSIZE) by (apply Z.div_pos; unfold PGSIZE; lia).
    destruct (Z.leb_spec (Z.of_nat (length gs)) (va / PGSIZE)), (Z.ltb_spec (va / PGSIZE) (Z.of_nat (length gs) + 1)); cbn [andb].
    + assert (va / PGSIZE = Z.of_nat (length gs)) as E by lia. rewrite E, Nat2Z.id, lookup_app_r, Nat.sub_diag by lia. cbn. replace (g + _) with g by lia. f_equal. f_equal. unfold parent_pte. apply leaf_page; [unfold PGSIZE; lia|lia|].
      by rewrite Z.div_mul, E by done.
    + rewrite (cp_leaf _ _ _ _ P) by done. unfold child_leaf. rewrite (lookup_ge_None_2 gs) by lia. rewrite lookup_ge_None_2; [done|]. rewrite length_app. cbn. lia.
    + rewrite (cp_leaf _ _ _ _ P) by done. unfold child_leaf. rewrite lookup_app_l by lia. done.
    + lia.
  - intros k a j Hk Hj. apply lookup_snoc_Some in Hk as [[Hk Ha]|[-> <-]].
    + destruct (Hgs a) as (F1 & F2 & F3 & F4); [by eapply list_elem_of_lookup_2|]. rewrite (Hkeep a); [by apply (cp_data _ _ _ _ P)|by eapply free_page; [apply C|]|done|done|unfold in_page; lia].
    + rewrite <- Dt by done. apply (gr_out _ _ _ _ _ _ G). intros p c Hp. apply (in_page_neq g); [done|by eapply (pr_page _ _ _ (vo_rep _ _ _ _ Vu))|intros ->; by apply (M5 p)|unfold in_page; lia].
  - intros b B1 B2. assert (Hout : outside D3 b).
    { intros p a Hp. apply M2 in Hp as [Hp|Hp]; [apply (cp_dirs _ _ _ _ P) in Hp as [Hp|Hp]; [by apply (B2 p)|by apply B1]|apply B1, (cp_sub _ _ _ _ P); by right]. }
    rewrite (gr_out _ _ _ _ _ _ G) by done. rewrite O by (by apply B1). by apply (cp_out _ _ _ _ P).
Qed.

(** The page could not be mapped and was given back. *)
Lemma copied_less t v u w D2' g l' gs D3 : copy_ready -> copied t D2' (g :: l') gs -> vm_ok v new D2' l' -> alike s v ->
  (forall b, ~ in_page g b -> load8 (mem v) b = load8 (mem t) b) ->
  vm_ok u new D3 [] -> grown v D2' l' u D3 [] -> (forall va, 0 <= va < MAXVA -> leaf (mem u) D3 va = leaf (mem t) D2' va) ->
  vm_ok w new D3 [g] -> alike u w -> (forall va, leaf (mem w) D3 va = leaf (mem u) D3 va) -> (forall b, ~ in_page g b -> load8 (mem w) b = load8 (mem u) b) ->
  copied w D3 [g] gs.
Proof using.
  intros C P Vv A O Vu G L Vw Aw Lw Ow. assert (Hg : g ∈ l) by (apply (cp_sub _ _ _ _ P); left). assert (Hgp : page_ok g) by (by eapply free_page; [apply C|]).
  assert (Hgl : g ∉ l') by (destruct (vo_free _ _ _ _ (cp_new _ _ _ _ P)) as [_ Hnd]; by apply list.NoDup_cons in Hnd as [? _]).
  assert (Hgd : forall p, D2' !! p <> Some g) by (intros p Hp; apply (vo_apart _ _ _ _ (cp_new _ _ _ _ P) _ _ Hp); left).
  destruct (mapped_dirs v u D2' g l' D3 [] Vv Hgl Hgd G Vu) as (M1 & M2 & M3 & M4 & M5).
  assert (Hgs : forall a, a ∈ gs -> a ∈ l /\ a <> g /\ forall p, D3 !! p <> Some a).
  { intros a Ha. destruct (cp_from _ _ _ _ P a Ha) as (F1 & F2 & F3). split; [done|]. split; [intros ->; apply F2; left|].
    intros p Hp. apply M2 in Hp as [Hp|Hp]; [by apply (F3 p)|apply F2; by right]. }
  split.
  - done.
  - eapply alike_trans; [exact A|]. eapply alike_trans; [apply (gr_alike _ _ _ _ _ _ G)|done].
  - apply P.
  - intros a Ha. destruct (Hgs a Ha) as (F1 & F2 & F3). split; [done|]. split; [by intros ->%list_elem_of_singleton|done].
  - by intros a ->%list_elem_of_singleton.
  - intros p a Hp. apply M2 in Hp as [Hp|Hp]; [by apply (cp_dirs _ _ _ _ P) in Hp|right; apply (cp_sub _ _ _ _ P); by right].
  - intros a Ha. apply (cp_all _ _ _ _ P) in Ha as [[->|Ha]%elem_of_cons|[Ha|[p Hp]]].
    + left. left.
    + apply M3 in Ha as [Ha|Ha]; [by apply elem_of_nil in Ha|right; by right].
    + right. by left.
    + right. right. exists p. eapply lookup_weaken; [exact Hp|apply G].
  - intros va Hva. rewrite Lw, L by done. by apply (cp_leaf _ _ _ _ P).
  - intros k a j Hk Hj. destruct (Hgs a) as (F1 & F2 & F3); [by eapply list_elem_of_lookup_2|]. assert (Hap : page_ok a) by (by eapply free_page; [apply C|]).
    assert (Hin : in_page a (a + j)) by (unfold in_page; lia). rewrite Ow by (by apply (in_page_neq a)).
    rewrite (gr_out _ _ _ _ _ _ G); [rewrite O by (by apply (in_page_neq a)); by apply (cp_data _ _ _ _ P)|].
    intros p c Hp. apply (in_page_neq a); [done|by eapply (pr_page _ _ _ (vo_rep _ _ _ _ Vu))|intros ->; by apply (F3 p)|done].
  - intros b B1 B2. assert (Hout : outside D3 b).
    { intros p a Hp. apply M2 in Hp as [Hp|Hp]; [apply (cp_dirs _ _ _ _ P) in Hp as [Hp|Hp]; [by apply (B2 p)|by apply B1]|apply B1, (cp_sub _ _ _ _ P); by right]. }
    rewrite Ow by (by apply B1). rewrite (gr_out _ _ _ _ _ _ G) by done. rewrite O by (by apply B1). by apply (cp_out _ _ _ _ P).
Qed.

(** ** The loop *)

Context (sz : Z).

Lemma wp_copy_page t D2' l' gs e : copy_ready -> copied t D2' l' gs -> (length gs < n)%nat -> Z.of_nat (length gs) * PGSIZE < sz ->
  wp (uvmcopy_step old new sz (Z.of_nat (length gs) * PGSIZE)) e t (fun r u =>
    (exists D3 l3 g, r = inl (u64 (Z.of_nat (length gs) * PGSIZE + PGSIZE)) /\ copied u D3 l3 (gs ++ [g])) \/
    (exists D3 l3, r = inr (-1) /\ undone u D3 l3)).
Proof using end_pos.
  intros C P Hn Hsz. set (k := length gs) in *. set (i := Z.of_nat k * PGSIZE). assert (Hmax := cr_max C). assert (Hi : 0 <= i < MAXVA) by (unfold i, PGSIZE in *; lia).
  destruct (copied_old t D2' l' gs C P) as [Vo Lo]. destruct (cr_leaf C k Hn) as [Hv Hfl]. fold (parent_pte k) in *.
  unfold uvmcopy_step. destruct (Z.leb_spec sz i); [unfold i in *; lia|]. apply wp_bind. eapply wp_call; [apply walk_ro; lia|]. rewrite (walk_in_rep _ _ _ _ (vo_rep _ _ _ _ Vo)).
  assert (Hleaf : leaf (mem t) D1 i = parent_pte k) by apply Lo. unfold leaf in Hleaf. destruct (D1 !! pth i 0) as [q|] eqn:Hq; [|rewrite <- Hleaf in Hv; done].
  assert (Hqp := page_pos end_pos q (pr_page _ _ _ (vo_rep _ _ _ _ Vo) _ _ Hq)). assert (Hx := PX_range 0 i). destruct (Z.eqb_spec (q + 8 * PX 0 i) 0); [lia|].
  apply wp_bind, wp_read. rewrite Hleaf, Hv. cbn [negb]. fold (parent_frame k). apply wp_bind. eapply wp_mono; [apply (wp_kalloc end_pos e t new D2' l'), P|].
  intros r u (-> & Vu & Au & Lu & Ou). assert (Hdiv : i / PGSIZE = Z.of_nat k) by (unfold i; by apply Z.div_mul).
  destruct l' as [|g l']; cbn [hd tail] in *.
  { change (0 =? 0) with true. cbv match. rewrite Hdiv. assert (Pu : copied u D2' [] gs).
    { split; try apply P; [done|by eapply alike_trans; [apply P|]|intros va Hva; rewrite Lu; by apply (cp_leaf _ _ _ _ P)|intros k' g j Hk Hj; rewrite Ou by done; by apply (cp_data _ _ _ _ P)|].
      intros b B1 B2. rewrite Ou by done. by apply (cp_out _ _ _ _ P). }
    apply wp_bind. eapply wp_mono; [apply (wp_undo u D2' [] gs e C Pu); unfold k in *; lia|]. intros [] w [l3 W]. apply wp_ret. right. by exists D2', l3. }
  assert (Hg : g ∈ l) by (apply (cp_sub _ _ _ _ P); left). assert (Hgp : page_ok g) by (by eapply free_page; [apply C|]). assert (Hg0 := page_pos end_pos g Hgp). destruct (Z.eqb_spec g 0); [lia|].
  assert (Hgl : g ∉ l') by (destruct (vo_free _ _ _ _ (cp_new _ _ _ _ P)) as [_ Hnd]; by apply list.NoDup_cons in Hnd as [? _]).
  assert (Hgd : forall p, D2' !! p <> Some g) by (intros p Hp; apply (vo_apart _ _ _ _ (cp_new _ _ _ _ P) _ _ Hp); left).
  assert (Ou' : forall b, ~ in_page g b -> load8 (mem u) b = load8 (mem t) b) by (intros b Hb; by apply Ou).
  destruct (copied_fill t D2' g l' gs u C P Hn Vu Au Lu Ou') as (Vv & Av & Lv & Ov & Dv). fold k in Vv, Av, Lv, Ov, Dv. set (v := u <| mem ::= _ |>) in *.
  apply wp_bind, wp_modify. fold v. apply wp_bind. assert (Hal : i mod PGSIZE = 0) by (unfold i; by apply Z.mod_mul).
  assert (Hgr := proj2 Hgp). unfold PHYSTOP, KERNBASE in Hgr.
  eapply wp_mono; [apply (wp_mappages end_pos new i 1 g (PTE_FLAGS (parent_pte k)) e v D2' l' Vv Hal)|]; [lia|lia|unfold i, PGSIZE in *; lia|lia|unfold PGSIZE; lia|apply flags_range| |].
  { intros va Hva. assert (0 <= va < MAXVA) by (unfold i, PGSIZE in *; lia). rewrite Lv, (cp_leaf _ _ _ _ P) by done. unfold child_leaf.
    assert (va / PGSIZE = Z.of_nat k) as -> by (symmetry; apply (Z.div_unique _ _ _ (va - i)); unfold i, PGSIZE in *; lia). rewrite Nat2Z.id, lookup_ge_None_2 by (unfold k; lia). apply (cr_unmapped C). unfold i, PGSIZE in *. lia. }
  intros r w (D3 & l3 & k' & Vw & Gw & _ & Hr & Lw). destruct Hr as [[-> ->]|(-> & -> & Hk')].
  - change (negb (0 =? 0)) with false. cbv match. apply wp_ret. left. exists D3, l3, g. split; [done|]. apply (copied_more t v w D2' g l' gs D3 l3); try done.
    intros va Hva. rewrite Lw by done. unfold maps. rewrite Lv. done.
  - change (negb (-1 =? 0)) with true. cbv match. assert (k' = 0) as -> by lia.
    destruct (mapped_dirs v w D2' g l' D3 [] Vv Hgl Hgd Gw Vw) as (_ & _ & _ & M4 & M5).
    apply wp_bind. eapply wp_mono; [by apply (wp_kfree end_pos g e w new D3 [] Vw Hgp M4 M5)|]. intros [] x (Vx & Ax & Lx & Ox). rewrite Hdiv.
    assert (Px : copied x D3 [g] gs).
    { apply (copied_less t v w x D2' g l' gs D3); try done. intros va Hva. rewrite Lw by done. unfold maps.
      destruct (Z.leb_spec (i / PGSIZE) (va / PGSIZE)), (Z.ltb_spec (va / PGSIZE) (i / PGSIZE + 0)); cbn [andb]; try apply Lv. lia. }
    apply wp_bind. eapply wp_mono; [apply (wp_undo x D3 [g] gs e C Px); unfold k in *; lia|]. intros [] y [l4 W]. apply wp_ret. right. by exists D3, l4.
Qed.

Lemma wp_uvmcopy e : copy_ready -> 0 <= sz -> Z.of_nat n = (sz + PGSIZE - 1) / PGSIZE ->
  wp (uvmcopy old new sz) e s (fun r t =>
    (r = 0 /\ exists D3 l3 gs, length gs = n /\ copied t D3 l3 gs) \/ (r = -1 /\ exists D3 l3, undone t D3 l3)).
Proof using end_pos.
  intros C Hsz Hn. assert (Hmax := cr_max C). unfold uvmcopy.
  apply (wp_loop e (fun m i t => exists D' l' gs, m = (n - length gs)%nat /\ (length gs <= n)%nat /\ i = Z.of_nat (length gs) * PGSIZE /\ copied t D' l' gs) _ _ n).
  - assert (H := Z.div_add sz 1 PGSIZE ltac:(done)). assert ((sz + PGSIZE - 1) / PGSIZE <= (sz + 1 * PGSIZE) / PGSIZE) by (apply Z.div_le_mono; unfold PGSIZE; lia).
    assert (0 <= sz / PGSIZE) by (apply Z.div_pos; unfold PGSIZE; lia). lia.
  - exists D2, l, []. split; [cbn; lia|]. split; [cbn; lia|]. split; [done|]. by apply copied_start.
  - intros m i t (D' & l' & gs & -> & Hle & -> & P). destruct (Z.leb_spec sz (Z.of_nat (length gs) * PGSIZE)) as [Hge|Hlt].
    + unfold uvmcopy_step. destruct (Z.leb_spec sz (Z.of_nat (length gs) * PGSIZE)); [|lia]. apply wp_ret. left. split; [done|]. exists D', l', gs. split; [|done].
      unfold PGSIZE in *. Z.to_euclidean_division_equations. lia.
    + assert (Hk : (length gs < n)%nat) by (unfold PGSIZE in *; Z.to_euclidean_division_equations; lia).
      eapply wp_mono; [by apply (wp_copy_page t D' l' gs e)|]. intros r u [(D3 & l3 & g & -> & Pu)|(D3 & l3 & -> & W)].
      * exists (n - length (gs ++ [g]))%nat. split; [rewrite length_app; cbn [length]; lia|]. exists D3, l3, (gs ++ [g]). split; [done|]. split; [rewrite length_app; cbn; lia|]. split; [|done].
        rewrite length_app. cbn [length]. change MAXVA with (2 ^ 38) in *. unfold PGSIZE in *. rewrite u64_id; lia.
      * right. split; [done|]. by exists D3, l3.
Qed.
End state.

End copy.

(** ** Instance *)

