(* ===== verification/VmBytes.v ===== *)
(** * User memory byte by byte

    [copyin] and [copyout] over any number of pages: the bytes at the physical
    addresses that the page table gives, up to the first address it does not
    map. *)
From stdpp Require Import base tactics list numbers gmap strings.
From S2P Require Import Prelude Machine Wp Spinlock StringC Kalloc Vm VmRep VmInst.

Open Scope Z_scope.

Section bytes.
Context `{LK : Linker}.

(** The physical addresses of [n] user bytes. *)
Definition phys (m : bytes) (pt va flags : Z) (n : nat) : list Z := omap (fun i => user_addr m pt (va + Z.of_nat i) flags) (seq 0 n).

(** [n] bytes from [va] on are mapped. *)
Definition mapped_for (m : bytes) (pt va flags : Z) (n : nat) : Prop := forall i, (i < n)%nat -> exists a, user_addr m pt (va + Z.of_nat i) flags = Some a /\ PGSIZE <= a.

(** The prefix of [len] bytes that can be accessed ends at [k]. *)
Definition ends_at (m : bytes) (pt va flags : Z) (len k : nat) : Prop :=
  (k <= len)%nat /\ mapped_for m pt va flags k /\ (k = len \/ user_addr m pt (va + Z.of_nat k) flags = None).

Lemma rounddown_in va i : 0 <= va < 2 ^ 64 -> 0 <= i -> va + i < 2 ^ 64 -> i < PGSIZE - (va - PGROUNDDOWN va) -> PGROUNDDOWN (va + i) = PGROUNDDOWN va.
Proof using.
  intros Hva Hi Hlt Hin. rewrite !PGROUNDDOWN_eq in * by lia. f_equal. unfold PGSIZE in *. Z.to_euclidean_division_equations. lia.
Qed.

(** Addresses of one page are consecutive. *)
Lemma user_addr_page m pt va flags i : 0 <= va < 2 ^ 64 -> 0 <= i -> va + i < 2 ^ 64 -> i < PGSIZE - (va - PGROUNDDOWN va) ->
  user_addr m pt (va + i) flags = (fun a => a + i) <$> user_addr m pt va flags.
Proof using.
  intros Hva Hi Hlt Hin. unfold user_addr. rewrite rounddown_in by done. destruct (entry m pt (PGROUNDDOWN va)) as [v|]; [|done]. cbn [mbind option_bind].
  destruct (_ || _); [done|]. cbn. f_equal. lia.
Qed.

Lemma user_addr_max m pt va flags a : 0 <= va < 2 ^ 64 -> user_addr m pt va flags = Some a -> va < MAXVA.
Proof using.
  intros Hva H. unfold user_addr, entry in H. destruct (Z.leb_spec MAXVA (PGROUNDDOWN va)) as [|Hlt]; [done|].
  rewrite PGROUNDDOWN_eq in Hlt by done. change MAXVA with (2 ^ 38) in *. unfold PGSIZE in *. Z.to_euclidean_division_equations. lia.
Qed.

Lemma mapped_max m pt va flags k : 0 <= va < 2 ^ 64 -> mapped_for m pt va flags k -> (0 < k)%nat -> va + Z.of_nat k <= MAXVA.
Proof using.
  revert va. intros va Hva Hm Hk. assert (H : forall j, (j < k)%nat -> va + Z.of_nat j < MAXVA).
  { induction j as [|j IH]; intros Hj; destruct (Hm _ Hj) as (a & Ha & _); (eapply user_addr_max; [|exact Ha]); [lia|]. specialize (IH ltac:(lia)). change MAXVA with (2 ^ 38) in *. lia. }
  specialize (H (Nat.pred k) ltac:(lia)). lia.
Qed.

Lemma mapped_drop m pt va flags k j : mapped_for m pt va flags k -> (j <= k)%nat -> mapped_for m pt (va + Z.of_nat j) flags (k - j).
Proof using. intros Hm Hj i Hi. destruct (Hm (j + i)%nat ltac:(lia)) as (a & Ha & Hp). exists a. split; [|done]. rewrite <- Ha. f_equal. lia. Qed.

Lemma phys_app m pt va flags j k : mapped_for m pt va flags j -> phys m pt va flags (j + k) = phys m pt va flags j ++ phys m pt (va + Z.of_nat j) flags k.
Proof using.
  intros Hm. unfold phys. rewrite seq_app, omap_app. f_equal. replace (0 + j)%nat with (j + 0)%nat by lia. rewrite <- fmap_add_seq. generalize 0%nat. intros b. clear Hm.
  revert b. induction k as [|k IH]; intros b; [done|]. cbn [seq fmap list_fmap omap list_omap]. rewrite IH. replace (va + Z.of_nat (j + b)) with (va + Z.of_nat j + Z.of_nat b) by lia. done.
Qed.

(** Within one page. *)
Lemma phys_page m pt va flags a n : 0 <= va < 2 ^ 64 -> user_addr m pt va flags = Some a -> Z.of_nat n <= PGSIZE - (va - PGROUNDDOWN va) ->
  phys m pt va flags n = (fun i => a + i) <$> seqZ 0 (Z.of_nat n).
Proof using.
  intros Hva Ha Hn. assert (Hmax := user_addr_max _ _ _ _ _ Hva Ha). unfold phys, seqZ. rewrite Nat2Z.id, <- list_fmap_compose.
  assert (H : forall b k, (b + k <= n)%nat -> omap (fun i => user_addr m pt (va + Z.of_nat i) flags) (seq b k) = ((fun i => a + i) ∘ (fun i => Z.of_nat i + 0)) <$> seq b k).
  { intros b k. revert b. induction k as [|k IH]; intros b Hb; [done|]. cbn [seq omap list_omap fmap list_fmap].
    assert (Hp := page_offset va Hva). change MAXVA with (2 ^ 38) in *. rewrite user_addr_page by (unfold PGSIZE in *; lia). rewrite Ha. cbn [fmap option_fmap option_map]. rewrite IH by lia. f_equal. unfold compose. lia. }
  apply H. lia.
Qed.

Lemma mapped_page m pt va flags a n : 0 <= va < 2 ^ 64 -> user_addr m pt va flags = Some a -> PGSIZE <= a -> Z.of_nat n <= PGSIZE - (va - PGROUNDDOWN va) -> mapped_for m pt va flags n.
Proof using.
  intros Hva Ha Hp Hn i Hi. assert (Hmax := user_addr_max _ _ _ _ _ Hva Ha). assert (Ho := page_offset va Hva). change MAXVA with (2 ^ 38) in *.
  exists (a + Z.of_nat i). rewrite user_addr_page by (unfold PGSIZE in *; lia). rewrite Ha. split; [done|lia].
Qed.

(** The bytes that one iteration handles. *)
Lemma chunk_of m pt va flags len k a : 0 <= va < 2 ^ 64 -> (0 < len)%nat -> ends_at m pt va flags len k -> user_addr m pt va flags = Some a ->
  let n := Nat.min len (Z.to_nat (PGSIZE - (va - PGROUNDDOWN va))) in
  PGSIZE <= a /\ (0 < n <= k)%nat /\ ends_at m pt (va + Z.of_nat n) flags (len - n) (k - n) /\
  phys m pt va flags k = ((fun i => a + i) <$> seqZ 0 (Z.of_nat n)) ++ phys m pt (va + Z.of_nat n) flags (k - n) /\
  (n = len \/ va + Z.of_nat n = PGROUNDDOWN va + PGSIZE /\ va + Z.of_nat n < 2 ^ 64).
Proof using.
  intros Hva Hlen (Hk & Hm & He) Ha n. assert (Ho := page_offset va Hva). assert (Hmax := user_addr_max _ _ _ _ _ Hva Ha). change MAXVA with (2 ^ 38) in *.
  assert (Hk0 : (0 < k)%nat). { destruct k; [|lia]. destruct He as [He|He]; [lia|]. rewrite Z.add_0_r, Ha in He. done. }
  assert (Hp : PGSIZE <= a). { destruct (Hm 0%nat Hk0) as (a' & Ha' & H). rewrite Z.add_0_r, Ha in Ha'. by injection Ha' as <-. }
  assert (Hn : Z.of_nat n <= PGSIZE - (va - PGROUNDDOWN va)) by lia. assert (Hmn := mapped_page m pt va flags a n Hva Ha Hp Hn).
  assert (Hnk : (n <= k)%nat). { destruct (decide (n <= k)%nat) as [|Hc]; [done|]. exfalso. destruct He as [->|He]; [lia|]. destruct (Hmn k ltac:(lia)) as (a' & Ha' & _). congruence. }
  split; [done|]. split; [unfold PGSIZE in *; lia|]. split; [|split].
  - split; [lia|]. split; [by apply mapped_drop|]. destruct He as [->|He]; [left; lia|]. right. rewrite <- He. f_equal. lia.
  - replace k with (n + (k - n))%nat at 1 by lia. rewrite phys_app by done. f_equal. by apply phys_page.
  - destruct (decide (n = len)) as [|Hne]; [by left|right]. unfold PGSIZE in *. lia.
Qed.

Lemma load_bytes_seq m a n : load_bytes m a n = load8 m <$> ((fun i => a + i) <$> seqZ 0 n).
Proof using. unfold load_bytes. by rewrite <- list_fmap_compose. Qed.

(** ** Reading *)

Lemma copyin_run pt e s : forall fuel va len k dst, 0 <= va < 2 ^ 64 -> ends_at (mem s) pt va 0 len k -> (len < fuel)%nat ->
  loop fuel (copyin_step pt) (va, Z.of_nat len, dst) e s =
  Ret (if (k =? len)%nat then 0 else -1, dst ++ (load8 (mem s) <$> phys (mem s) pt va 0 k)) e s.
Proof using.
  induction fuel as [|fuel IH]; intros va len k dst Hva He Hf; [lia|]. cbn [loop]. rewrite bindE. unfold copyin_step at 1.
  destruct len as [|len]; [assert (k = 0)%nat as -> by (destruct He as [? _]; lia); change (Z.of_nat 0 =? 0) with true; cbv match; cbn [mret M_ret]; by rewrite app_nil_r|].
  destruct (Z.eqb_spec (Z.of_nat (S len)) 0) as [|_]; [lia|]. rewrite bindE, walkaddr_ro. assert (Hc := fun a => chunk_of (mem s) pt va 0 (S len) k a Hva ltac:(lia) He).
  assert (Hpa : user_addr (mem s) pt va 0 = match entry (mem s) pt (PGROUNDDOWN va) with Some v => if has v PTE_U then Some (PTE2PA v + (va - PGROUNDDOWN va)) else None | None => None end).
  { unfold user_addr. destruct (entry (mem s) pt (PGROUNDDOWN va)) as [v|]; [|done]. cbn [mbind option_bind]. rewrite Z.land_0_r. change (negb (0 =? 0)) with false. rewrite orb_false_r. by destruct (has v PTE_U). }
  set (pa0 := match entry (mem s) pt (PGROUNDDOWN va) with Some v => if has v PTE_U then PTE2PA v else 0 | None => 0 end).
  destruct (user_addr (mem s) pt va 0) as [a|] eqn:Ha.
  2: { assert (pa0 = 0) as -> by (unfold pa0; destruct (entry (mem s) pt (PGROUNDDOWN va)) as [v|]; [destruct (has v PTE_U)|]; done). change (0 =? 0) with true. cbv match. cbn [mret M_ret].
    destruct k as [|k]; [by rewrite app_nil_r|]. destruct He as (_ & Hm & _). destruct (Hm 0%nat ltac:(lia)) as (a & Ha' & _). rewrite Z.add_0_r in Ha'. congruence. }
  assert (Hpa0 : pa0 + (va - PGROUNDDOWN va) = a). { unfold pa0. destruct (entry (mem s) pt (PGROUNDDOWN va)) as [v|]; [destruct (has v PTE_U); [by injection Hpa as ->|done]|done]. }
  destruct (Hc a eq_refl) as (Hp & Hnk & He' & Hph & Hn). assert (Ho := page_offset va Hva). set (n := Nat.min (S len) (Z.to_nat (PGSIZE - (va - PGROUNDDOWN va)))) in *.
  destruct (Z.eqb_spec pa0 0); [unfold PGSIZE in *; lia|].
  replace (if Z.of_nat (S len) <? PGSIZE - (va - PGROUNDDOWN va) then Z.of_nat (S len) else PGSIZE - (va - PGROUNDDOWN va)) with (Z.of_nat n) by (destruct (Z.ltb_spec (Z.of_nat (S len)) (PGSIZE - (va - PGROUNDDOWN va))); lia).
  rewrite bindE. cbn [read mret M_ret]. rewrite Hpa0, load_bytes_seq, Hph, fmap_app, app_assoc. set (dst' := dst ++ _).
  replace (Z.of_nat (S len) - Z.of_nat n) with (Z.of_nat (S len - n)) by lia. replace (k =? S len)%nat with (k - n =? S len - n)%nat by (destruct (Nat.eqb_spec (k - n) (S len - n)), (Nat.eqb_spec k (S len)); lia).
  destruct Hn as [Hn|[Hn Hlt]].
  - rewrite Hn, Nat.sub_diag. assert (k - S len = 0)%nat as -> by (destruct He as [? _]; lia). destruct fuel as [|fuel]; [lia|]. cbn [loop]. rewrite bindE. cbn. by rewrite app_nil_r.
  - rewrite u64_id by lia. rewrite <- Hn. apply IH; [lia|done|lia].
Qed.

(** ** Writing *)

Definition store_all (m : bytes) (l : list (Z * Z)) : bytes := foldl (fun m x => store8 m x.1 x.2) m l.

Lemma store_bytes_all a l m : store_bytes m a l = store_all m (zip ((fun i => a + i) <$> seqZ 0 (Z.of_nat (length l))) l).
Proof using.
  revert a m. induction l as [|c l IH]; intros a m; [done|]. cbn [store_bytes length]. rewrite IH. replace (Z.of_nat (S (length l))) with (Z.succ (Z.of_nat (length l))) by lia.
  rewrite (seqZ_cons 0 (Z.succ (Z.of_nat (length l)))) by lia. cbn [fmap list_fmap zip zip_with]. unfold store_all. cbn [foldl fst snd]. rewrite Z.add_0_r. f_equal. f_equal.
  rewrite Z.pred_succ, <- (fmap_add_seqZ 1 0), <- list_fmap_compose. apply list_fmap_ext. intros i x _. unfold compose. lia.
Qed.

Lemma store_all_app m l1 l2 : store_all m (l1 ++ l2) = store_all (store_all m l1) l2.
Proof using. apply foldl_app. Qed.

Lemma store_all_out m l b : b ∉ l.*1 -> load8 (store_all m l) b = load8 m b.
Proof using.
  revert m. induction l as [|[a c] l IH]; intros m Hb; [done|]. unfold store_all in *. cbn [foldl fst snd fmap list_fmap] in *. apply not_elem_of_cons in Hb as [H1 H2]. rewrite IH by done.
  rewrite load8_store8. by destruct (Z.eqb_spec a b).
Qed.

(** The translation depends on the pages of the table only. *)
Lemma user_addr_ext m m' root D va flags : pt_rep m root D -> (forall p a b, D !! p = Some a -> in_page a b -> load8 m' b = load8 m b) ->
  user_addr m' root va flags = user_addr m root va flags.
Proof using.
  intros R Hm. destruct (pt_rep_ext m m' root D Hm R) as [R' L]. unfold user_addr. replace (entry m' root (PGROUNDDOWN va)) with (entry m root (PGROUNDDOWN va)); [done|].
  unfold entry. destruct (MAXVA <=? PGROUNDDOWN va); [done|]. rewrite (walk_in_rep _ _ _ _ R), (walk_in_rep _ _ _ _ R'). specialize (L (PGROUNDDOWN va)). unfold leaf in L.
  destruct (D !! pth (PGROUNDDOWN va) 0); [|done]. by rewrite L.
Qed.

Lemma phys_ext m m' root D va flags n : pt_rep m root D -> (forall p a b, D !! p = Some a -> in_page a b -> load8 m' b = load8 m b) ->
  phys m' root va flags n = phys m root va flags n.
Proof using. intros R Hm. unfold phys. apply list_omap_ext, Forall2_same_length_lookup_2; [done|]. intros i x y Hx Hy. rewrite Hx in Hy. injection Hy as <-. by eapply user_addr_ext. Qed.

(** Physical addresses outside of the page table. *)
Definition off_table (D : dirs) (l : list Z) : Prop := forall a, a ∈ l -> outside D a.

Lemma zip_app_take {A B} (l1 l2 : list A) (k : list B) : length l1 = length (take (length l1) k) -> zip (l1 ++ l2) k = zip l1 (take (length l1) k) ++ zip l2 (drop (length l1) k).
Proof using. intros H. rewrite <- (take_drop (length l1) k) at 1. by apply zip_with_app. Qed.

Lemma copyout_run root D e : forall fuel va src k s, pt_rep (mem s) root D -> 0 <= va < 2 ^ 64 -> ends_at (mem s) root va PTE_W (length src) k ->
  off_table D (phys (mem s) root va PTE_W k) -> (length src < fuel)%nat ->
  loop fuel (copyout_step root) (va, src) e s =
  Ret (if (k =? length src)%nat then 0 else -1) e (s <| mem ::= fun m => store_all m (zip (phys (mem s) root va PTE_W k) src) |>).
Proof using.
  induction fuel as [|fuel IH]; intros va src k s R Hva He Hoff Hf; [lia|]. cbn [loop]. rewrite bindE. unfold copyout_step at 1.
  assert (Hsame : s <| mem ::= fun m => store_all m [] |> = s) by (by destruct s).
  destruct (Z.eqb_spec (Z.of_nat (length src)) 0) as [E0|Hlen].
  { destruct src as [|c src]; [|cbn in E0; lia]. assert (k = 0)%nat as -> by (destruct He as [? _]; cbn in *; lia). cbn [mret M_ret]. by rewrite zip_with_nil_r, Hsame. }
  assert (Hc := fun a => chunk_of (mem s) root va PTE_W (length src) k a Hva ltac:(lia) He).
  assert (Hnone : user_addr (mem s) root va PTE_W = None -> k = 0%nat). { intros Ha. destruct k as [|k]; [done|]. destruct He as (_ & Hm & _). destruct (Hm 0%nat ltac:(lia)) as (a & Ha' & _). rewrite Z.add_0_r in Ha'. congruence. }
  assert (Hfail : user_addr (mem s) root va PTE_W = None -> (if (k =? length src)%nat then 0 else -1) = -1 /\ s <| mem ::= fun m => store_all m (zip (phys (mem s) root va PTE_W k) src) |> = s).
  { intros Ha. rewrite (Hnone Ha). split; [by destruct (Nat.eqb_spec 0 (length src)); [lia|]|]. exact Hsame. }
  unfold user_addr, entry in Hc, Hfail. destruct (Z.leb_spec MAXVA (PGROUNDDOWN va)) as [Hge|Hlt]; [by destruct (Hfail eq_refl) as [-> ->]|].
  rewrite bindE, walk_ro by done. destruct (walk_in 2 (mem s) root (PGROUNDDOWN va) =? 0); [by destruct (Hfail eq_refl) as [-> ->]|].
  rewrite bindE. unfold load_word, read at 1. set (v := load64 (mem s) _) in *. destruct (has v PTE_V); cbn [negb orb mbind option_bind] in *; [|by destruct (Hfail eq_refl) as [-> ->]].
  destruct (has v PTE_U); cbn [negb orb] in *; [|by destruct (Hfail eq_refl) as [-> ->]]. rewrite has_W. destruct (Z.land v PTE_W =? PTE_W); cbn [negb] in *; [|by destruct (Hfail eq_refl) as [-> ->]].
  destruct (Hc _ eq_refl) as (Hp & Hnk & He' & Hph & Hn). clear Hc Hfail Hnone. set (a := PTE2PA v + (va - PGROUNDDOWN va)) in *. set (n := Nat.min (length src) (Z.to_nat (PGSIZE - (va - PGROUNDDOWN va)))) in *.
  assert (Ho := page_offset va Hva). replace (if Z.of_nat (length src) <? PGSIZE - (va - PGROUNDDOWN va) then Z.of_nat (length src) else PGSIZE - (va - PGROUNDDOWN va)) with (Z.of_nat n) by (destruct (Z.ltb_spec (Z.of_nat (length src)) (PGSIZE - (va - PGROUNDDOWN va))); lia).
  rewrite bindE. cbn [modify mret M_ret]. rewrite Nat2Z.id. set (addrs := (fun i => a + i) <$> seqZ 0 (Z.of_nat n)) in *.
  assert (Hla : length addrs = n) by (unfold addrs; rewrite length_fmap, length_seqZ; lia). assert (Hlt' : length (take n src) = n) by (rewrite length_take; lia).
  assert (Hst : store_bytes (mem s) a (take n src) = store_all (mem s) (zip addrs (take n src))) by (rewrite store_bytes_all, Hlt'; done).
  set (t := s <| mem ::= fun m => store_bytes m a (take n src) |>).
  assert (Hkeep : forall p d b, D !! p = Some d -> in_page d b -> load8 (mem t) b = load8 (mem s) b).
  { intros p d b Hd Hb. change (mem t) with (store_bytes (mem s) a (take n src)). rewrite Hst. apply store_all_out. intros Hin. rewrite fst_zip in Hin by lia. apply (Hoff b) with (p := p) (a := d); [|done|done].
    rewrite Hph. apply elem_of_app. by left. }
  destruct (pt_rep_ext (mem s) (mem t) root D Hkeep R) as [Rt _]. assert (Hpt := fun va' k' => phys_ext (mem s) (mem t) root D va' PTE_W k' R Hkeep).
  assert (Hres : s <| mem ::= fun m => store_all m (zip (phys (mem s) root va PTE_W k) src) |> = t <| mem ::= fun m => store_all m (zip (phys (mem s) root (va + Z.of_nat n) PTE_W (k - n)) (drop n src)) |>).
  { unfold t. rewrite Hph. fold addrs. rewrite zip_app_take by (rewrite Hla; lia). rewrite Hla. destruct s. cbn in *. by rewrite store_all_app, Hst. }
  rewrite Hres. replace (k =? length src)%nat with (k - n =? length (drop n src))%nat by (rewrite length_drop; destruct (Nat.eqb_spec (k - n) (length src - n)), (Nat.eqb_spec k (length src)); lia).
  destruct Hn as [Hn|[Hn Hlt2]].
  - rewrite Hn, drop_all. assert (k - length src = 0)%nat as -> by (destruct He as [? _]; lia). destruct fuel as [|fuel]; [lia|]. cbn [loop]. rewrite bindE. cbn. done.
  - rewrite u64_id by lia. rewrite <- Hn, <- Hpt. apply IH; [done|lia| | |rewrite length_drop; lia].
    + rewrite length_drop. destruct He' as (E1 & E2 & E3). split; [done|]. split.
      * intros i Hi. rewrite (user_addr_ext (mem s) (mem t) root D) by done. by apply E2.
      * by rewrite (user_addr_ext (mem s) (mem t) root D) by done.
    + rewrite Hpt. intros b Hb. apply Hoff. rewrite Hph. apply elem_of_app. by right.
Qed.

(** ** What the kernel sees of user memory *)

Lemma phys_length m pt va flags n : mapped_for m pt va flags n -> length (phys m pt va flags n) = n.
Proof using.
  intros Hm. unfold phys. assert (H : forall b k, (b + k <= n)%nat -> length (omap (fun i => user_addr m pt (va + Z.of_nat i) flags) (seq b k)) = k); [|by apply (H 0%nat)].
  intros b k. revert b. induction k as [|k IH]; intros b Hb; [done|]. cbn [seq omap list_omap]. destruct (Hm b ltac:(lia)) as (a & -> & _). cbn [length]. by rewrite IH by lia.
Qed.

Lemma store_all_in m l1 l2 : NoDup l1 -> length l1 = length l2 -> load8 (store_all m (zip l1 l2)) <$> l1 = u8 <$> l2.
Proof using.
  revert m l2. induction l1 as [|a l1 IH]; intros m [|c l2] Hnd Hl; try done. apply list.NoDup_cons in Hnd as [Ha Hnd]. injection Hl as Hl.
  cbn [zip zip_with fmap list_fmap]. unfold store_all in *. cbn [foldl fst snd]. rewrite IH by done. f_equal.
  assert (H := store_all_out (store8 m a c) (zip l1 l2) a). unfold store_all in H. rewrite H by (rewrite fst_zip by lia; done). by rewrite load8_store8, Z.eqb_refl.
Qed.

(** [copyin] reads user memory through the page table: it delivers the bytes
    at the physical addresses of [srcva], [srcva + 1] and so on, over any number
    of pages, and returns 0; or, when an address on the way is not mapped for
    the user, the bytes before it, and returns -1. *)
Theorem copyin_correct (e : env) (s : mach) (pt srcva : Z) (len k : nat) : 0 <= srcva < 2 ^ 64 -> ends_at (mem s) pt srcva 0 len k ->
  copyin pt srcva (Z.of_nat len) e s = Ret (if (k =? len)%nat then 0 else -1, load8 (mem s) <$> phys (mem s) pt srcva 0 k) e s.
Proof using. intros Hva He. unfold copyin. rewrite Nat2Z.id. by apply (copyin_run pt e s _ srcva len k []); [|done|lia]. Qed.

(** A user page that can be written can be read. *)
Lemma writable_readable m pt va a : user_addr m pt va PTE_W = Some a -> user_addr m pt va 0 = Some a.
Proof using.
  unfold user_addr. destruct (entry m pt (PGROUNDDOWN va)) as [v|]; [|done]. cbn [mbind option_bind]. rewrite Z.land_0_r. change (negb (0 =? 0)) with false. destruct (negb (has v PTE_U)); [done|].
  cbn [orb]. by destruct (negb _).
Qed.

Lemma phys_readable m pt va n : mapped_for m pt va PTE_W n -> mapped_for m pt va 0 n /\ phys m pt va 0 n = phys m pt va PTE_W n.
Proof using.
  intros Hm. split; [intros i Hi; destruct (Hm i Hi) as (a & Ha & Hp); exists a; split; [by apply writable_readable|done]|].
  unfold phys. assert (H : forall b k, (b + k <= n)%nat -> omap (fun i => user_addr m pt (va + Z.of_nat i) 0) (seq b k) = omap (fun i => user_addr m pt (va + Z.of_nat i) PTE_W) (seq b k)); [|by apply (H 0%nat)].
  intros b k. revert b. induction k as [|k IH]; intros b Hb; [done|]. cbn [seq omap list_omap]. destruct (Hm b ltac:(lia)) as (a & Ha & _). rewrite (writable_readable _ _ _ _ Ha), Ha. by rewrite IH by lia.
Qed.

(** C9. [copyout] writes user memory through the page table, byte by byte up to
    the first address that is not mapped for the user to write, and changes
    nothing else; the table stays as it is, and when no two pages of the range
    share a frame [copyin] reads back what was written. *)
Theorem copyout_correct (e : env) (s : mach) (root : Z) (D : dirs) (dstva : Z) (src : list Z) (k : nat) : pt_rep (mem s) root D -> 0 <= dstva < 2 ^ 64 ->
  ends_at (mem s) root dstva PTE_W (length src) k -> off_table D (phys (mem s) root dstva PTE_W k) ->
  let addrs := phys (mem s) root dstva PTE_W k in
  let t := s <| mem ::= fun m => store_all m (zip addrs src) |> in
  copyout root dstva src e s = Ret (if (k =? length src)%nat then 0 else -1) e t /\
  (forall b, b ∉ addrs -> load8 (mem t) b = load8 (mem s) b) /\
  pt_rep (mem t) root D /\ (forall va, leaf (mem t) D va = leaf (mem s) D va) /\
  (k = length src -> NoDup addrs -> copyin root dstva (Z.of_nat k) e t = Ret (0, u8 <$> src) e t).
Proof using.
  intros R Hva He Hoff addrs t. assert (Hla : length addrs = k) by (apply phys_length, He). assert (Hk := proj1 He).
  assert (Hout : forall b, b ∉ addrs -> load8 (mem t) b = load8 (mem s) b). { intros b Hb. apply store_all_out. intros Hin. apply Hb. by rewrite fst_zip in Hin by lia. }
  assert (Hkeep : forall p a b, D !! p = Some a -> in_page a b -> load8 (mem t) b = load8 (mem s) b).
  { intros p a b Hp Hb. apply Hout. intros Hin. by apply (Hoff b Hin p a). }
  destruct (pt_rep_ext (mem s) (mem t) root D Hkeep R) as [Rt Lt].
  split; [unfold copyout; apply (copyout_run root D e _ dstva src k s); (done || lia)|]. split; [done|]. split; [done|]. split; [done|].
  intros -> Hnd. destruct (phys_readable _ _ _ _ (proj1 (proj2 He))) as [Hmr Hpr].
  assert (Ep : phys (mem t) root dstva 0 (length src) = addrs) by (rewrite (phys_ext (mem s) (mem t) root D) by done; exact Hpr).
  unfold copyin. rewrite Nat2Z.id. rewrite (copyin_run root e t _ dstva (length src) (length src) []); [|done| |lia].
  - rewrite Nat.eqb_refl, Ep. cbn [app]. f_equal. f_equal. by apply store_all_in.
  - split; [done|]. split; [|by left]. intros i Hi. rewrite (user_addr_ext (mem s) (mem t) root D) by done. by apply Hmr.
Qed.
End bytes.

(** ** Instances *)

(** Eight bytes asked for, six of them mapped: the page ends. *)
Lemma copyin_correct_witness :
  copyin (page 8) 4090 8 [] vm_state = Ret (-1, load8 vm_mem <$> seqZ (page 11 + 4090) 6) [] vm_state.
Proof.
  etransitivity; [apply (copyin_correct [] vm_state (page 8) 4090 8 6); [done|]|by vm_compute]. split; [lia|]. split; [|right; by vm_compute].
  intros i Hi. eexists. assert (Hall : Forall (fun i => user_addr vm_mem (page 8) (4090 + Z.of_nat i) 0 = Some (page 11 + 4090 + Z.of_nat i)) (seq 0 6)) by (repeat (constructor; [by vm_compute|]); constructor).
  rewrite list.Forall_forall in Hall. split; [apply Hall, elem_of_seq; lia|]. unfold page, PHYSTOP, KERNBASE, PGSIZE. lia.
Defined.

Lemma copyout_correct_witness :
  let addrs := phys vm_mem (page 8) 100 PTE_W 3 in
  let t := vm_state <| mem ::= fun m => store_all m (zip addrs [7; 8; 9]) |> in
  copyout (page 8) 100 [7; 8; 9] [] vm_state = Ret 0 [] t /\
  (forall b, b ∉ addrs -> load8 (mem t) b = load8 vm_mem b) /\
  pt_rep (mem t) (page 8) vm_dirs /\ (forall va, leaf (mem t) vm_dirs va = leaf vm_mem vm_dirs va) /\
  (3%nat = 3%nat -> NoDup addrs -> copyin (page 8) 100 3 [] t = Ret (0, u8 <$> [7; 8; 9]) [] t).
Proof.
  apply (copyout_correct [] vm_state (page 8) vm_dirs 100 [7; 8; 9] 3); [apply vm_ok_parent|done| |].
  - split; [done|]. split; [|by left]. assert (Hall : Forall (fun i => user_addr vm_mem (page 8) (100 + Z.of_nat i) PTE_W = Some (page 11 + 100 + Z.of_nat i)) (seq 0 3)) by (repeat (constructor; [by vm_compute|]); constructor).
    rewrite list.Forall_forall in Hall. intros i Hi. exists (page 11 + 100 + Z.of_nat i). split; [apply Hall, elem_of_seq; lia|]. unfold page, PHYSTOP, KERNBASE, PGSIZE. lia.
  - assert (Hall : map_Forall (fun _ d => Forall (fun a => ~ (d <= a < d + PGSIZE)) (phys vm_mem (page 8) 100 PTE_W 3)) vm_dirs) by (apply (bool_decide_unpack _); by vm_compute).
    intros a Ha p d Hp. specialize (Hall p d Hp). rewrite list.Forall_forall in Hall. by apply Hall.
Defined.
