(* ===== verification/VmFree.v ===== *)
(** * Taking a page table down

    [freewalk] gives back the pages of a table without leaves, [uvmfree] also
    the pages it maps: no page is lost. *)
From stdpp Require Import base tactics list numbers gmap strings.
From S2P Require Import Prelude Machine Wp Spinlock StringC Kalloc Vm VmRep VmInst.

Open Scope Z_scope.

Section free.
Context `{LK : Linker}.
Hypothesis end_pos : 0 < kernel_end.

(** ** A subtree without leaves *)

(** The directories below the one at [pt], in the order in which [freewalk]
    frees them; [level] levels lie below. *)
Fixpoint holds (level : nat) (m : bytes) (pt : Z) (pages : list Z) : Prop :=
  match level with
  | O => pages = [pt] /\ page_ok pt /\ forall i, 0 <= i < 512 -> has (load64 m (pt + 8 * i)) PTE_V = false
  | S below => exists ps : list (list Z), length ps = 512%nat /\ pages = concat ps ++ [pt] /\ page_ok pt /\
      forall i qs, ps !! i = Some qs -> let v := load64 m (pt + 8 * Z.of_nat i) in
        if has v PTE_V then PTE_FLAGS v = PTE_V /\ holds below m (PTE2PA v) qs else qs = []
  end.

Lemma holds_self level m pt pages : holds level m pt pages -> pt ∈ pages /\ page_ok pt.
Proof using.
  destruct level as [|level]; cbn [holds]; [intros (-> & Hp & _); split; [left|done]|]. intros (ps & _ & -> & Hp & _). split; [|done]. apply elem_of_app. right. left.
Qed.

Lemma holds_ok level : forall m pt pages, holds level m pt pages -> Forall page_ok pages.
Proof using.
  induction level as [|level IH]; intros m pt pages; cbn [holds]; [intros (-> & Hp & _); by apply list.Forall_singleton|].
  intros (ps & _ & -> & Hp & Hk). apply Forall_app. split; [|by apply list.Forall_singleton]. apply Forall_concat, list.Forall_forall. intros qs Hqs.
  apply list_elem_of_lookup_1 in Hqs as [i Hi]. specialize (Hk i qs Hi). cbn zeta in Hk. destruct (has _ PTE_V); [|rewrite Hk; constructor]. destruct Hk as [_ Hk]. by eapply IH.
Qed.

Lemma elem_concat {A} (ps : list (list A)) i qs a : ps !! i = Some qs -> a ∈ qs -> a ∈ concat ps.
Proof using. intros Hi Ha. apply list_elem_of_In, in_concat. exists qs. split; [by eapply list_elem_of_In, list_elem_of_lookup_2|by apply list_elem_of_In]. Qed.

Lemma holds_ext level : forall m m' pt pages, (forall a b, a ∈ pages -> in_page a b -> load8 m' b = load8 m b) -> holds level m pt pages -> holds level m' pt pages.
Proof using.
  induction level as [|level IH]; intros m m' pt pages Hm Hh.
  - destruct Hh as (-> & Hp & Hi). split; [done|]. split; [done|]. intros i Hi'. rewrite (load64_ext m' m); [by apply Hi|].
    intros b Hb. apply (Hm pt); [left|]. by eapply entry_in_page.
  - destruct Hh as (ps & H1 & -> & Hp & Hk). exists ps. split; [done|]. split; [done|]. split; [done|]. intros i qs Hi. specialize (Hk i qs Hi). cbn zeta in *.
    assert (Hlt := lookup_lt_Some _ _ _ Hi). rewrite (load64_ext m' m).
    2: { intros b Hb. apply (Hm pt); [apply elem_of_app; right; left|]. apply (entry_in_page pt (Z.of_nat i)); [lia|done]. }
    destruct (has _ PTE_V); [|done]. destruct Hk as [Hk1 Hk2]. split; [done|]. eapply IH; [|exact Hk2]. intros a b Ha. apply Hm, elem_of_app. left.
    by apply (elem_concat ps i qs).
Qed.

(** ** [freewalk] *)

Lemma is_dir v : PTE_FLAGS v = PTE_V -> Z.land v (Z.lor PTE_R (Z.lor PTE_W PTE_X)) = 0.
Proof using.
  intros H. change (Z.lor PTE_R (Z.lor PTE_W PTE_X)) with (Z.land 0x3FF 14). rewrite Z.land_assoc. unfold PTE_FLAGS in H. by rewrite H.
Qed.

Lemma wp_freewalk_page e s pt pages l : kmem_ready s -> kmem_inv s l -> page_ok pt -> pt ∉ l ->
  wp (kfree pt) e s (fun _ t => kmem_ready t /\ kmem_inv t (pt :: l) /\ alike s t /\ forall b, (forall a, a ∈ pages ++ [pt] -> ~ in_page a b) -> load8 (mem t) b = load8 (mem s) b).
Proof using end_pos.
  intros Hr Hl Hp Hn. destruct (kfree_spec end_pos e s l pt Hr Hl Hp Hn) as (t & E & T1 & T2 & T3 & T4). eapply wp_call; [exact E|]. split; [done|]. split; [done|]. split; [done|].
  intros b Hb. apply T4, Hb, elem_of_app. right. left.
Qed.

Lemma wp_freewalk level : forall e s pt pages l, kmem_ready s -> kmem_inv s l -> holds level (mem s) pt pages -> NoDup (pages ++ l) ->
  wp (freewalk_rec (S level) pt) e s (fun _ t => kmem_ready t /\ kmem_inv t (rev pages ++ l) /\ alike s t /\
    forall b, (forall a, a ∈ pages -> ~ in_page a b) -> load8 (mem t) b = load8 (mem s) b).
Proof using end_pos.
  induction level as [|level IH]; intros e s pt pages l Hr Hl Hh Hnd; assert (Hpages := holds_ok _ _ _ _ Hh).
  - destruct Hh as (-> & Hp & Hi). cbn [freewalk_rec]. apply wp_bind.
    eapply (wp_mono _ _ _ (fun _ t => t = s)); [|intros [] t ->; by apply (wp_freewalk_page e s pt [] l); [..|by apply list.NoDup_cons in Hnd as [? _]]].
    apply (wp_for_each e (fun _ t => t = s)); [done| |by intros t ->]. intros i x t Hx ->. apply lookup_seqZ in Hx as [-> Hlt].
    apply wp_bind, wp_read. rewrite Hi by lia. by apply wp_ret.
  - destruct Hh as (ps & Hlen & -> & Hp & Hk). change (freewalk_rec (S (S level)) pt) with
      (for_each (seqZ 0 512) (fun i => pte ← load_word (pt + 8 * i);
        if has pte PTE_V && (Z.land pte (Z.lor PTE_R (Z.lor PTE_W PTE_X)) =? 0) then freewalk_rec (S level) (PTE2PA pte);; store_word (pt + 8 * i) 0
        else if has pte PTE_V then panic "freewalk: leaf"%string else mret tt);; kfree pt).
    apply wp_bind.
    assert (Hpt : forall qs, qs ∈ ps -> pt ∉ qs).
    { intros qs Hqs Hin. rewrite <- app_assoc in Hnd. apply list.NoDup_app in Hnd as (_ & N2 & _). apply list_elem_of_lookup_1 in Hqs as [i Hi]. apply (N2 pt (elem_concat _ _ _ _ Hi Hin)). left. }
    apply (wp_for_each e (fun i t => kmem_ready t /\ kmem_inv t (rev (concat (take i ps)) ++ l) /\ alike s t /\
      (forall b, (forall a, a ∈ concat (take i ps) -> ~ in_page a b) -> ~ in_page pt b -> load8 (mem t) b = load8 (mem s) b) /\
      forall j, (i <= j < 512)%nat -> load64 (mem t) (pt + 8 * Z.of_nat j) = load64 (mem s) (pt + 8 * Z.of_nat j))).
    + split; [done|]. split; [done|]. split; [done|]. by split.
    + intros i x t Hx (T1 & T2 & T3 & T4 & T5). apply lookup_seqZ in Hx as [-> Hlt]. rewrite Z.add_0_l. apply wp_bind, wp_read. rewrite T5 by lia.
      destruct (lookup_lt_is_Some_2 ps i) as [qs Hqs]; [lia|]. specialize (Hk i qs Hqs). cbn zeta in Hk. rewrite (take_S_r _ _ qs) by done. rewrite concat_app. cbn [concat]. rewrite app_nil_r.
      destruct (has (load64 (mem s) (pt + 8 * Z.of_nat i)) PTE_V).
      2: { rewrite Hk, app_nil_r. apply wp_ret. split; [done|]. split; [done|]. split; [done|]. split; [done|]. intros j Hj. apply T5. lia. }
      destruct Hk as [Hk1 Hk2]. rewrite (is_dir _ Hk1). change (0 =? 0) with true. cbn [andb]. cbv match. apply wp_bind.
      assert (Hsplit : concat ps = concat (take i ps) ++ qs ++ concat (drop (S i) ps)) by (rewrite <- (take_drop_middle _ _ _ Hqs) at 1; by rewrite concat_app).
      rewrite Hsplit in Hnd. rewrite <- !app_assoc in Hnd. assert (Hqnd : NoDup (qs ++ rev (concat (take i ps)) ++ l)).
      { assert (Hperm : (concat (take i ps) ++ qs ++ concat (drop (S i) ps) ++ [pt] ++ l) ≡ₚ (concat (drop (S i) ps) ++ [pt]) ++ (qs ++ concat (take i ps) ++ l)) by solve_Permutation.
        rewrite Hperm in Hnd. apply list.NoDup_app in Hnd as (_ & _ & N3). assert (Hrev : rev (concat (take i ps)) ≡ₚ concat (take i ps)) by (symmetry; apply Permutation_rev). by rewrite Hrev. }
      rewrite list.Forall_forall in Hpages. assert (Hqs' : forall a, a ∈ qs -> page_ok a /\ a <> pt /\ a ∉ concat (take i ps)).
      { intros a Ha. split; [apply Hpages, elem_of_app; left; by eapply elem_concat|]. split; [intros ->; by apply (Hpt qs); [eapply list_elem_of_lookup_2|]|].
        intros Hin. apply list.NoDup_app in Hnd as (_ & N2 & _). apply (N2 _ Hin), elem_of_app. by left. }
      assert (Hmiss : forall a b, a ∈ qs -> in_page a b -> load8 (mem t) b = load8 (mem s) b).
      { intros a b Ha Hb. destruct (Hqs' a Ha) as (A1 & A2 & A3). apply T4; [|by apply (in_page_neq a)]. intros c Hc. apply (in_page_neq a); [done| |by intros ->|done].
        apply Hpages, elem_of_app. left. rewrite Hsplit. apply elem_of_app. by left. }
      eapply wp_mono; [apply (IH e t (PTE2PA (load64 (mem s) (pt + 8 * Z.of_nat i))) qs _ T1 T2); [by eapply holds_ext|done]|].
      intros [] u (U1 & U2 & U3 & U4). apply wp_modify. set (v := u <| mem ::= _ |>).
      assert (Hfree : forall a, a ∈ rev qs ++ rev (concat (take i ps)) ++ l -> a <> pt).
      { intros a Ha ->. apply elem_of_app in Ha as [Ha|[Ha|Ha]%elem_of_app]; [apply list_elem_of_In, in_rev, list_elem_of_In in Ha; by destruct (Hqs' _ Ha) as (_ & ? & _)|apply list_elem_of_In, in_rev, list_elem_of_In in Ha|];
          apply list.NoDup_app in Hnd as (_ & N2 & N3); [apply (N2 _ Ha)|apply list.NoDup_app in N3 as (_ & _ & N3); apply list.NoDup_app in N3 as (_ & _ & N3); apply list.NoDup_cons in N3 as [N3 _]; done].
        apply elem_of_app. right. apply elem_of_app. right. left. }
      split; [exact U1|]. split; [|split; [by eapply alike_trans|split]].
      * rewrite rev_app_distr, <- app_assoc. apply (kmem_inv_ext u); [done|done|]. intros a b Ha Hb. apply load8_store64_out; [|lia]. apply (in_page_neq a); [by eapply free_page|by apply Hp|by apply Hfree|done].
      * intros b B1 B2. change (load8 (store64 (mem u) (pt + 8 * Z.of_nat i) 0) b = load8 (mem s) b). rewrite load8_store64_out by (done || lia).
        rewrite U4 by (intros a Ha; apply B1, elem_of_app; by right). apply T4; [|done]. intros a Ha. apply B1, elem_of_app. by left.
      * intros j Hj. change (load64 (store64 (mem u) (pt + 8 * Z.of_nat i) 0) (pt + 8 * Z.of_nat j) = load64 (mem s) (pt + 8 * Z.of_nat j)). rewrite load64_store64_other by lia. rewrite <- T5 by lia.
        apply load64_ext. intros b Hb. apply U4. intros a Ha. destruct (Hqs' a Ha) as (A1 & A2 & _). apply (in_page_neq pt); [done|done|by intros ->|]. apply (entry_in_page pt (Z.of_nat j)); [lia|done].
    + intros t (T1 & T2 & T3 & T4 & _). rewrite length_seqZ in *. change (Z.to_nat 512) with 512%nat in *. rewrite take_ge in T2, T4 by lia.
      eapply wp_mono; [apply (wp_freewalk_page e t pt (concat ps) _ T1 T2 Hp)|].
      { intros Hin. rewrite <- app_assoc in Hnd. apply list.NoDup_app in Hnd as (_ & N2 & N3). apply list.NoDup_cons in N3 as [N3 _].
        apply elem_of_app in Hin as [Hin|Hin]; [|done]. apply list_elem_of_In, in_rev, list_elem_of_In in Hin. apply (N2 _ Hin). left. }
      intros [] u (U1 & U2 & U3 & U4). split; [done|]. split; [by rewrite rev_app_distr|]. split; [by eapply alike_trans|]. intros b Hb. rewrite U4 by done.
      apply T4; [intros a Ha; apply Hb, elem_of_app; by left|apply Hb, elem_of_app; right; left].
Qed.

(** ** The directories of a table *)

Fixpoint pages_of (level : nat) (D : dirs) (p : list Z) (a : Z) : list Z :=
  match level with
  | O => [a]
  | S below => concat ((fun i => match D !! (p ++ [i]) with Some c => pages_of below D (p ++ [i]) c | None => [] end) <$> seqZ 0 512) ++ [a]
  end.

Lemma elem_concat_inv {A} (ps : list (list A)) a : a ∈ concat ps -> exists i qs, ps !! i = Some qs /\ a ∈ qs.
Proof using.
  intros Ha. apply list_elem_of_In, in_concat in Ha as (qs & Hq & Ha). apply list_elem_of_In, list_elem_of_lookup_1 in Hq as [i Hi]. exists i, qs. split; [done|by apply list_elem_of_In].
Qed.

Lemma pages_of_elem level D : forall p a c, D !! p = Some a -> c ∈ pages_of level D p a -> exists q, D !! (p ++ q) = Some c.
Proof using.
  induction level as [|level IH]; intros p a c Hp Hc; cbn [pages_of] in Hc; [apply list_elem_of_singleton in Hc as ->; exists []; by rewrite app_nil_r|].
  apply elem_of_app in Hc as [Hc| ->%list_elem_of_singleton]; [|exists []; by rewrite app_nil_r].
  apply elem_concat_inv in Hc as (k & qs & Hk & Hc). apply list_lookup_fmap_Some_1 in Hk as (i & -> & Hi).
  destruct (D !! (p ++ [i])) as [d|] eqn:Hd; [|by apply elem_of_nil in Hc]. destruct (IH _ _ _ Hd Hc) as [q Hq]. exists (i :: q). by rewrite <- app_assoc in Hq.
Qed.

Lemma concat_bind {A B} (f : A -> list B) l : concat (f <$> l) = l ≫= f.
Proof using. induction l as [|x l IH]; [done|]. cbn [fmap list_fmap concat]. by rewrite IH. Qed.

Section table.
Context (m : bytes) (root : Z) (D : dirs).
Hypothesis R : pt_rep m root D.

Lemma path_prefix p q c : D !! (p ++ q) = Some c -> is_Some (D !! p).
Proof using R.
  revert c. induction q as [|i q IH] using rev_ind; intros c Hc; [rewrite app_nil_r in Hc; by eexists|]. rewrite app_assoc in Hc.
  destruct (pr_up _ _ _ R _ _ Hc) as [E|(r & j & E & _ & _ & [d Hd])]; [by apply app_eq_nil in E as [_ ?]|]. apply app_inj_tail in E as [<- _]. by eapply IH.
Qed.

Lemma path_index p i q c : D !! (p ++ i :: q) = Some c -> 0 <= i < 512 /\ (length p < 2)%nat.
Proof using R.
  intros Hc. replace (p ++ i :: q) with ((p ++ [i]) ++ q) in Hc by (by rewrite <- app_assoc). apply path_prefix in Hc as [d Hd].
  destruct (pr_up _ _ _ R _ _ Hd) as [E|(r & j & E & H1 & H2 & _)]; [by apply app_eq_nil in E as [_ ?]|]. by apply app_inj_tail in E as [-> ->].
Qed.

Lemma pages_of_below level : forall p a q c, (length p + level = 2)%nat -> D !! p = Some a -> D !! (p ++ q) = Some c -> c ∈ pages_of level D p a.
Proof using R.
  induction level as [|level IH]; intros p a q c Hlen Hp Hc; destruct q as [|i q]; cbn [pages_of].
  - rewrite app_nil_r, Hp in Hc. injection Hc as ->. left.
  - apply path_index in Hc as [_ Hl]. lia.
  - rewrite app_nil_r, Hp in Hc. injection Hc as ->. apply elem_of_app. right. left.
  - apply elem_of_app. left. assert (Hi := path_index _ _ _ _ Hc). replace (p ++ i :: q) with ((p ++ [i]) ++ q) in Hc by (by rewrite <- app_assoc). destruct (path_prefix _ _ _ Hc) as [d Hd].
    apply (elem_concat _ (Z.to_nat i) (pages_of level D (p ++ [i]) d)); [|apply (IH _ _ q); [rewrite length_app; cbn; lia|done|done]].
    rewrite list_lookup_fmap. rewrite (proj2 (lookup_seqZ 0 512 (Z.to_nat i) i)) by lia. cbn [fmap option_fmap option_map]. by rewrite Hd.
Qed.

Lemma pages_of_nodup level : forall p a, (length p + level = 2)%nat -> D !! p = Some a -> NoDup (pages_of level D p a).
Proof using R.
  induction level as [|level IH]; intros p a Hlen Hp; cbn [pages_of]; [apply NoDup_singleton|]. rewrite concat_bind. apply list.NoDup_app. split; [|split; [|apply NoDup_singleton]].
  - apply NoDup_bind; [|intros i _; destruct (D !! (p ++ [i])) as [d|] eqn:Hd; [apply IH; [rewrite length_app; cbn; lia|done]|constructor]|apply NoDup_seqZ].
    intros i j c _ _ Hi Hj. destruct (D !! (p ++ [i])) as [d|] eqn:Hd; [|by apply elem_of_nil in Hi]. destruct (D !! (p ++ [j])) as [d'|] eqn:Hd'; [|by apply elem_of_nil in Hj].
    apply (pages_of_elem _ _ _ _ _ Hd) in Hi as [q Hq]. apply (pages_of_elem _ _ _ _ _ Hd') in Hj as [q' Hq']. assert (E := pr_inj _ _ _ R _ _ _ Hq Hq'). rewrite <- !app_assoc in E. apply app_inv_head in E. by injection E.
  - intros c Hc ->%list_elem_of_singleton. rewrite <- concat_bind in Hc. apply elem_concat_inv in Hc as (k & qs & Hk & Hc). apply list_lookup_fmap_Some_1 in Hk as (i & -> & Hi).
    destruct (D !! (p ++ [i])) as [d|] eqn:Hd; [|by apply elem_of_nil in Hc]. apply (pages_of_elem _ _ _ _ _ Hd) in Hc as [q Hq]. assert (E := pr_inj _ _ _ R _ _ _ Hq Hp).
    apply (f_equal length) in E. rewrite !length_app in E. cbn in E. lia.
Qed.

(** No leaf is valid. *)
Definition no_leaves : Prop := forall p a i, D !! p = Some a -> length p = 2%nat -> 0 <= i < 512 -> has (load64 m (a + 8 * i)) PTE_V = false.

Lemma holds_table level : forall p a, no_leaves -> (length p + level = 2)%nat -> D !! p = Some a -> holds level m a (pages_of level D p a).
Proof using R.
  induction level as [|level IH]; intros p a Hno Hlen Hp; cbn [holds pages_of].
  - split; [done|]. split; [by eapply (pr_page _ _ _ R)|]. intros i Hi. apply (Hno p); [done|lia|done].
  - eexists. split; [|split; [reflexivity|split; [by eapply (pr_page _ _ _ R)|]]]; [by rewrite length_fmap, length_seqZ|].
    intros k qs Hk. apply list_lookup_fmap_Some_1 in Hk as (i & -> & Hi). apply lookup_seqZ in Hi as [-> Hi]. rewrite Z.add_0_l. cbn zeta.
    assert (L := pr_link _ _ _ R p a (Z.of_nat k) Hp ltac:(lia) ltac:(lia)). assert (F := pr_flags _ _ _ R p a (Z.of_nat k) Hp ltac:(lia) ltac:(lia)). unfold link_of in L. rewrite L.
    destruct (has (load64 m (a + 8 * Z.of_nat k)) PTE_V); [|done]. split; [by apply F|]. apply IH; [done|rewrite length_app; cbn; lia|done].
Qed.

(** An address with given indices. *)
Lemma va_of i2 i1 i0 : 0 <= i2 < 256 -> 0 <= i1 < 512 -> 0 <= i0 < 512 -> exists va, 0 <= va < MAXVA /\ pth va 0 = [i2; i1] /\ PX 0 va = i0 /\ va / PGSIZE = i2 * 2 ^ 18 + i1 * 2 ^ 9 + i0.
Proof using.
  intros H2 H1 H0. exists ((i2 * 2 ^ 18 + i1 * 2 ^ 9 + i0) * PGSIZE). unfold pth, PX. change 0x1FF with (Z.ones 9). rewrite !Z.land_ones, !Z.shiftr_div_pow2 by lia.
  change (12 + 9 * 0) with 12. change (12 + 9 * 1) with 21. change (12 + 9 * 2) with 30. change MAXVA with (2 ^ 38). unfold PGSIZE.
  split; [lia|]. split; [|split; [|by rewrite Z.div_mul]]; [f_equal; [|f_equal]|]; Z.to_euclidean_division_equations; lia.
Qed.

Lemma leaves_none : (forall va, 0 <= va < MAXVA -> has (leaf m D va) PTE_V = false) -> no_leaves.
Proof using R.
  intros Hl p a i Hp Hlen Hi. destruct p as [|i2 [|i1 [|? p]]]; try done. assert (H2 := pr_low _ _ _ R _ _ _ Hp). destruct (path_index [] i2 [i1] a Hp) as [Hi2 _]. destruct (path_index [i2] i1 [] a Hp) as [Hi1 _].
  destruct (va_of i2 i1 i) as (va & Hva & E1 & E2 & _); [lia|done|done|]. rewrite <- (Hl va Hva). unfold leaf. by rewrite E1, Hp, E2.
Qed.
End table.

(** ** [uvmfree] *)

Lemma uvmfree_run (e : env) (s : mach) (root sz : Z) (D : dirs) (l : list Z) (n : nat) : vm_ok s root D l -> 0 <= sz -> sz <= MAXVA ->
  Z.of_nat n = (sz + PGSIZE - 1) / PGSIZE ->
  (forall va, 0 <= va < MAXVA -> if va <? Z.of_nat n * PGSIZE then is_leaf (leaf (mem s) D va) else has (leaf (mem s) D va) PTE_V = false) ->
  let fs := frames (leaf (mem s) D) 0 n in
  Forall page_ok fs -> NoDup (fs ++ l) -> apart D fs ->
  exists t, uvmfree root sz e s = Ret tt e t /\ kmem_ready t /\ alike s t /\ kmem_inv t (rev (pages_of 2 D [] root) ++ rev fs ++ l).
Proof using end_pos.
  intros V Hsz Hmax Hn Hleaf fs F1 F2 F3. assert (Hnm : Z.of_nat n * PGSIZE <= MAXVA) by (change MAXVA with (2 ^ 38) in *; unfold PGSIZE in *; Z.to_euclidean_division_equations; lia).
  assert (Hn0 : (0 < sz -> (0 < n)%nat) /\ (sz = 0 -> n = 0%nat)) by (unfold PGSIZE in *; Z.to_euclidean_division_equations; lia).
  assert (Hround : PGROUNDUP sz / PGSIZE = Z.of_nat n). { change MAXVA with (2 ^ 38) in *. rewrite PGROUNDUP_eq by (unfold PGSIZE; lia). rewrite Z.div_mul by done. done. }
  assert (Hwp : wp (uvmfree root sz) e s (fun _ t => kmem_ready t /\ alike s t /\ kmem_inv t (rev (pages_of 2 D [] root) ++ rev fs ++ l))).
  2: { destruct Hwp as ([] & t & E & H1 & H2 & H3). by exists t. }
  unfold uvmfree. rewrite Hround. apply wp_bind.
  eapply (wp_mono _ _ _ (fun _ t => vm_ok t root D (rev fs ++ l) /\ alike s t /\ forall va, 0 <= va < MAXVA -> has (leaf (mem t) D va) PTE_V = false)).
  - apply wp_when; intros Hb.
    + eapply wp_mono; [apply (wp_uvmunmap end_pos root 0 n true e s D l); [done|done|lia|lia| |]|].
      * intros k Hk. specialize (Hleaf (0 + Z.of_nat k * PGSIZE) ltac:(unfold PGSIZE in *; lia)). destruct (Z.ltb_spec (0 + Z.of_nat k * PGSIZE) (Z.of_nat n * PGSIZE)); [done|unfold PGSIZE in *; lia].
      * done.
      * intros [] t (T1 & T2 & T3 & _). split; [exact T1|]. split; [done|]. intros va Hva. rewrite T3 by done. unfold unmaps. change (0 / PGSIZE) with 0. rewrite Z.add_0_l.
        assert (0 <= va / PGSIZE) by (apply Z.div_pos; unfold PGSIZE; lia). specialize (Hleaf va Hva).
        destruct (Z.leb_spec 0 (va / PGSIZE)), (Z.ltb_spec (va / PGSIZE) (Z.of_nat n)); cbn [andb]; try lia; [done|].
        destruct (Z.ltb_spec va (Z.of_nat n * PGSIZE)); [|done]. exfalso. assert (va / PGSIZE < Z.of_nat n) by (apply Z.div_lt_upper_bound; unfold PGSIZE in *; lia). lia.
    + apply Z.ltb_ge in Hb. assert (n = 0%nat) as Hn' by (apply Hn0; lia). unfold fs. rewrite Hn'. split; [done|]. split; [done|]. intros va Hva. specialize (Hleaf va Hva). rewrite Hn' in Hleaf. destruct (Z.ltb_spec va (Z.of_nat 0 * PGSIZE)); [lia|done].
  - intros [] t (V' & A & Hno). assert (R := vo_rep _ _ _ _ V').
    eapply wp_mono; [apply (wp_freewalk 2 e t root (pages_of 2 D [] root) (rev fs ++ l)); [apply V'|apply V'| |]|].
    + apply (holds_table (mem t) root D R); [by apply (leaves_none (mem t) root D R)|done|apply R].
    + apply list.NoDup_app. split; [by apply (pages_of_nodup (mem t) root D R 2); [|apply R]|]. split; [|apply (vo_free _ _ _ _ V')].
      intros c Hc. apply (pages_of_elem 2 D [] root) in Hc as [q Hq]; [|apply R]. by eapply (vo_apart _ _ _ _ V').
    + intros [] u (U1 & U2 & U3 & _). split; [done|]. split; [by eapply alike_trans|done].
Qed.

(** C5. [uvmfree] takes an address space down and loses no page: afterwards the
    free pages are exactly those that were free before, the frames of the
    process, and the directories of its table, each once.  It does not panic
    when the first [n] pages are mapped and nothing else is. *)
Theorem uvmfree_correct (e : env) (s : mach) (root sz : Z) (D : dirs) (l : list Z) (n : nat) : vm_ok s root D l -> 0 <= sz -> sz <= MAXVA ->
  Z.of_nat n = (sz + PGSIZE - 1) / PGSIZE ->
  (forall va, 0 <= va < MAXVA -> if va <? Z.of_nat n * PGSIZE then is_leaf (leaf (mem s) D va) else has (leaf (mem s) D va) PTE_V = false) ->
  let fs := frames (leaf (mem s) D) 0 n in
  Forall page_ok fs -> NoDup (fs ++ l) -> apart D fs ->
  exists t l', uvmfree root sz e s = Ret tt e t /\ kmem_ready t /\ alike s t /\ kmem_inv t l' /\
    forall a, a ∈ l' <-> a ∈ l \/ a ∈ fs \/ exists p, D !! p = Some a.
Proof using end_pos.
  intros V Hsz Hmax Hn Hleaf fs F1 F2 F3. destruct (uvmfree_run e s root sz D l n V Hsz Hmax Hn Hleaf F1 F2 F3) as (t & E & H1 & H2 & H3).
  exists t, (rev (pages_of 2 D [] root) ++ rev fs ++ l). split; [done|]. split; [done|]. split; [done|]. split; [done|]. assert (R := vo_rep _ _ _ _ V).
  assert (Hrev : forall (L : list Z) a, a ∈ rev L <-> a ∈ L) by (intros L a; rewrite !list_elem_of_In; symmetry; apply in_rev).
  intros a. rewrite !elem_of_app, !Hrev. split; [intros [Ha|[Ha|Ha]]|intros [Ha|[Ha|[p Hp]]]]; auto.
  - right. right. apply (pages_of_elem 2 D [] root a) in Ha as [q Hq]; [by exists q|apply R].
  - left. by apply (pages_of_below (mem s) root D R 2 [] root p a); [|apply R|].
Qed.
End free.

(** ** Instance *)

Lemma uvmfree_correct_witness :
  exists t l', uvmfree (page 8) 100 [] vm_state = Ret tt [] t /\ kmem_ready t /\ alike vm_state t /\ kmem_inv t l' /\
    forall a, a ∈ l' <-> a ∈ vm_free \/ a ∈ [page 11] \/ exists p, vm_dirs !! p = Some a.
Proof.
  assert (F : frames (leaf vm_mem vm_dirs) 0 1 = [page 11]) by (by vm_compute).
  assert (H := uvmfree_correct eq_refl [] vm_state (page 8) 100 vm_dirs vm_free 1 vm_ok_parent). cbn zeta in H. change (mem vm_state) with vm_mem in H. rewrite F in H. apply H.
  - done.
  - done.
  - done.
  - intros va Hva. rewrite parent_leaf by done. change (Z.of_nat 1 * PGSIZE) with PGSIZE. by destruct (va <? PGSIZE); vm_compute.
  - apply list.Forall_singleton. by vm_compute.
  - by apply (bool_decide_unpack _); vm_compute.
  - intros p a Hp ->%list_elem_of_singleton. assert (Hall : map_Forall (fun _ a => a <> page 11) vm_dirs) by (apply (bool_decide_unpack _); by vm_compute). by apply (Hall p _ Hp).
Defined.
