(* ===== verification/VmKernel.v ===== *)
(** * The kernel's page table

    [kvmmake] with enough free pages: devices and memory are mapped to
    themselves, the trampoline to the top of the address space, and below it a
    stack for every process with an unmapped page under it. *)
From stdpp Require Import base tactics list numbers gmap strings.
From S2P Require Import Prelude Machine Wp Spinlock StringC Kalloc Vm VmRep VmInst.

Open Scope Z_scope.

Section kernel.
Context `{LK : Linker}.
Hypothesis end_pos : 0 < kernel_end.

(** ** A new table *)

Lemma pt_rep_new m root : page_ok root -> (forall i, 0 <= i < 512 -> load64 m (root + 8 * i) = 0) -> pt_rep m root {[ [] := root ]}.
Proof using.
  intros Hp Hz. split.
  - apply lookup_singleton_eq.
  - intros p q a [<- _]%lookup_singleton_Some [<- _]%lookup_singleton_Some. done.
  - intros p a [_ <-]%lookup_singleton_Some. done.
  - intros p a i [<- <-]%lookup_singleton_Some _ Hi. rewrite Hz by done. by rewrite lookup_singleton_ne.
  - intros p a i [<- <-]%lookup_singleton_Some _ Hi. by rewrite Hz.
  - intros i p a [? _]%lookup_singleton_Some. done.
  - intros p a [<- _]%lookup_singleton_Some. by left.
Qed.

(** A page that was taken and cleared is an empty table. *)
Lemma vm_ok_new t root l : kmem_ready t -> kmem_inv t l -> page_ok root -> root ∉ l -> vm_ok (t <| mem ::= fun m => memset m root 0 PGSIZE |>) root {[ [] := root ]} l.
Proof using end_pos.
  intros Hr Hl Hp Hn. split; [done| | |].
  - apply (kmem_inv_ext t); [done|done|]. intros p b Hin Hb. apply load8_memset_out. apply (in_page_neq p); [by eapply free_page|done|by intros ->|done].
  - apply pt_rep_new; [done|]. intros i Hi. by apply load64_zeroed.
  - by intros p a [_ <-]%lookup_singleton_Some.
Qed.

(** ** Counting pages *)

Lemma dirs_count (D : dirs) (L : list Z) : NoDup L -> (forall a, a ∈ L -> exists p, D !! p = Some a) -> (length L <= size D)%nat.
Proof using.
  intros Hnd Hin. assert (H : L ⊆+ (map_to_list D).*2).
  { apply NoDup_submseteq; [done|]. intros a Ha. destruct (Hin a Ha) as [p Hp]. apply list_elem_of_fmap. exists (p, a). split; [done|]. by apply elem_of_map_to_list. }
  apply submseteq_length in H. rewrite length_fmap, length_map_to_list in H. done.
Qed.

Lemma dirs_bound (D : dirs) (P : list (list Z)) : (forall p a, D !! p = Some a -> p ∈ P) -> (size D <= length P)%nat.
Proof using.
  intros Hin. assert (H : (map_to_list D).*1 ⊆+ P).
  { apply NoDup_submseteq; [apply NoDup_fst_map_to_list|]. intros p ([q a] & -> & Hq)%list_elem_of_fmap. apply elem_of_map_to_list in Hq. by eapply Hin. }
  apply submseteq_length in H. by rewrite length_fmap, length_map_to_list in H.
Qed.

Lemma grown_count s D l t D' l' root : vm_ok s root D l -> vm_ok t root D' l' -> grown s D l t D' l' -> (length l + size D <= length l' + size D')%nat.
Proof using.
  intros V V' [G1 (used & -> & G2 & G3) _ _]. assert (Hnd := proj2 (vo_free _ _ _ _ V)). apply list.NoDup_app in Hnd as (N1 & _ & _).
  assert (H : (length (used ++ (map_to_list D).*2) <= size D')%nat).
  { apply dirs_count.
    - apply list.NoDup_app. split; [done|]. split.
      + intros a Ha ([p b] & E & Hp)%list_elem_of_fmap. cbn in E. subst b. apply elem_of_map_to_list in Hp. apply (vo_apart _ _ _ _ V _ _ Hp), elem_of_app. by left.
      + apply NoDup_fmap_2_strong; [|apply NoDup_map_to_list]. intros [p a] [q b] Hp Hq E. cbn in E. subst b. apply elem_of_map_to_list in Hp, Hq. f_equal. by eapply (pr_inj _ _ _ (vo_rep _ _ _ _ V)).
    - intros a [Ha|([p b] & -> & Hp)%list_elem_of_fmap]%elem_of_app; [by apply G3|]. apply elem_of_map_to_list in Hp. exists p. by eapply lookup_weaken. }
  rewrite !length_app, length_fmap, length_map_to_list in *. lia.
Qed.

(** ** Mapping for the kernel *)

(** The directories of the kernel's table. *)
Definition kpaths : list (list Z) :=
  [[]; [0]; [2]; [255]; [0; 128]; [255; 511]] ++ ((fun i => [0; i]) <$> seqZ 96 32) ++ ((fun i => [2; i]) <$> seqZ 0 64).

(** ** Stacks *)

(** The stack pages [sts] of the first processes, mapped over [f]. *)
Definition stacks (f : Z -> Z) (sts : list Z) (va : Z) : Z :=
  let d := TRAMPOLINE / PGSIZE - va / PGSIZE in
  if (d mod 2 =? 0) && (2 <=? d) then match sts !! Z.to_nat (d / 2 - 1) with Some st => mk_pte st (Z.lor PTE_R PTE_W) | None => f va end else f va.

Lemma maps_out old va pa perm k va' : va mod PGSIZE = 0 -> 0 <= va' -> va' < va \/ va + k * PGSIZE <= va' -> maps old va pa perm k va' = old va'.
Proof using.
  intros Hal H0 Hout. unfold maps. destruct (Z.leb_spec (va / PGSIZE) (va' / PGSIZE)), (Z.ltb_spec (va' / PGSIZE) (va / PGSIZE + k)); cbn [andb]; try done. exfalso.
  unfold PGSIZE in *. Z.to_euclidean_division_equations. lia.
Qed.

Lemma maps_in old va pa perm k va' : va mod PGSIZE = 0 -> va <= va' < va + k * PGSIZE -> maps old va pa perm k va' = mk_pte (pa + (va' / PGSIZE - va / PGSIZE) * PGSIZE) perm.
Proof using.
  intros Hal Hin. unfold maps. destruct (Z.leb_spec (va / PGSIZE) (va' / PGSIZE)), (Z.ltb_spec (va' / PGSIZE) (va / PGSIZE + k)); cbn [andb]; try done; exfalso;
  unfold PGSIZE in *; Z.to_euclidean_division_equations; lia.
Qed.

Lemma stack_page i : KSTACK i / PGSIZE = TRAMPOLINE / PGSIZE - 2 * (i + 1).
Proof using. unfold KSTACK. replace (TRAMPOLINE - (i + 1) * 2 * PGSIZE) with (TRAMPOLINE + (- (2 * (i + 1))) * PGSIZE) by lia. rewrite Z.div_add by done. lia. Qed.

Lemma stack_aligned i : KSTACK i mod PGSIZE = 0.
Proof using. unfold KSTACK. replace (TRAMPOLINE - (i + 1) * 2 * PGSIZE) with (0 + (TRAMPOLINE / PGSIZE - 2 * (i + 1)) * PGSIZE) by (change (TRAMPOLINE / PGSIZE) with (2 ^ 26 - 1); change TRAMPOLINE with (2 ^ 38 - 4096); unfold PGSIZE; lia). by rewrite Z.mod_add. Qed.

Lemma stacks_snoc f sts st va : maps (stacks f sts) (KSTACK (Z.of_nat (length sts))) st (Z.lor PTE_R PTE_W) 1 va = stacks f (sts ++ [st]) va.
Proof using.
  unfold maps. rewrite stack_page. set (T := TRAMPOLINE / PGSIZE). set (v := va / PGSIZE). set (i := Z.of_nat (length sts)). unfold stacks. fold T v.
  destruct (decide (v = T - 2 * (i + 1))) as [E|Hne].
  - destruct (Z.leb_spec (T - 2 * (i + 1)) v), (Z.ltb_spec v (T - 2 * (i + 1) + 1)); try lia. cbn [andb]. replace (T - v) with ((i + 1) * 2) by lia. rewrite Z.mod_mul by done. change (0 =? 0) with true.
    destruct (Z.leb_spec 2 ((i + 1) * 2)); [|lia]. cbn [andb]. rewrite Z.div_mul by done. replace (Z.to_nat (i + 1 - 1)) with (length sts) by lia. rewrite lookup_app_r, Nat.sub_diag by lia. cbn. f_equal. lia.
  - destruct (Z.leb_spec (T - 2 * (i + 1)) v), (Z.ltb_spec v (T - 2 * (i + 1) + 1)); try lia; cbn [andb];
      destruct (Z.eqb_spec ((T - v) mod 2) 0) as [Em|], (Z.leb_spec 2 (T - v)); cbn [andb]; try done;
      (assert (Hd : Z.to_nat ((T - v) / 2 - 1) <> length sts) by (Z.to_euclidean_division_equations; lia);
       destruct (decide (Z.to_nat ((T - v) / 2 - 1) < length sts)%nat); [by rewrite lookup_app_l|rewrite (lookup_ge_None_2 sts), lookup_ge_None_2; [done|rewrite length_app; cbn; lia|lia]]).
Qed.

(** The indices of an address by division. *)
Lemma pth_div va : pth va 0 = [va / 2 ^ 30 mod 512; va / 2 ^ 21 mod 512] /\ pth va 1 = [va / 2 ^ 30 mod 512].
Proof using.
  unfold pth, PX. change 0x1FF with (Z.ones 9). rewrite !Z.land_ones, !Z.shiftr_div_pow2 by lia. done.
Qed.

Lemma on_ways_in va n p x : on_ways va n p -> (forall j, 0 <= j < n -> (va + j * PGSIZE) / 2 ^ 30 mod 512 = x) -> [x] ∈ kpaths ->
  (forall j, 0 <= j < n -> [x; (va + j * PGSIZE) / 2 ^ 21 mod 512] ∈ kpaths) -> p ∈ kpaths.
Proof using.
  intros (j & Hj & Hp) Hx H1 H2. destruct (pth_div (va + j * PGSIZE)) as [E1 E2]. destruct Hp as [-> | ->]; [rewrite E1|rewrite E2]; rewrite (Hx j Hj); auto.
Qed.

Lemma kpaths_plic y : 96 <= y < 128 -> [0; y] ∈ kpaths.
Proof using. intros Hy. apply elem_of_app. right. apply elem_of_app. left. apply list_elem_of_fmap. exists y. split; [done|]. apply elem_of_seqZ. lia. Qed.

Lemma kpaths_ram y : 0 <= y < 64 -> [2; y] ∈ kpaths.
Proof using. intros Hy. apply elem_of_app. right. apply elem_of_app. right. apply list_elem_of_fmap. exists y. split; [done|]. apply elem_of_seqZ. lia. Qed.

Ltac kpath_const := apply (bool_decide_unpack _); by vm_compute.

Lemma ways_low va n p lo : on_ways va n p -> 0 <= va -> va + n * PGSIZE <= 2 ^ 30 -> lo <= va / 2 ^ 21 -> (forall y, lo <= y -> y * 2 ^ 21 < va + n * PGSIZE -> [0; y] ∈ kpaths) -> p ∈ kpaths.
Proof using.
  intros Hp H0 Hn Hlo Hy. apply (on_ways_in _ _ _ 0 Hp); [|kpath_const|]; intros j Hj.
  - unfold PGSIZE in *. Z.to_euclidean_division_equations. lia.
  - unfold PGSIZE in *. rewrite Z.mod_small by (Z.to_euclidean_division_equations; lia). apply Hy; Z.to_euclidean_division_equations; lia.
Qed.

Lemma ways_ram va n p : on_ways va n p -> KERNBASE <= va -> va + n * PGSIZE <= PHYSTOP -> p ∈ kpaths.
Proof using.
  intros Hp H0 Hn. unfold PHYSTOP, KERNBASE, PGSIZE in *. apply (on_ways_in _ _ _ 2 Hp); [|kpath_const|]; intros j Hj; unfold PGSIZE in *.
  - Z.to_euclidean_division_equations. lia.
  - apply kpaths_ram. Z.to_euclidean_division_equations. lia.
Qed.

Section state.
Context (s0 : mach) (l0 : list Z) (root : Z).

(** The table maps [f]; [k] pages were taken for stacks. *)
Record kmap (s : mach) (f : Z -> Z) (k : nat) (D : dirs) (l : list Z) : Prop := mkKmap {
  km_ok : vm_ok s root D l;
  km_alike : alike s0 s;
  km_paths : forall p a, D !! p = Some a -> p ∈ kpaths;
  km_count : (length l0 <= length l + size D + k)%nat;
  km_sub : forall a, a ∈ l -> a ∈ l0;
  km_leaf : forall va, 0 <= va < MAXVA -> leaf (mem s) D va = f va
}.

(** 102 directories and 64 stacks. *)
Hypothesis enough : (166 < length l0)%nat.

Lemma kmap_left s f k D l : kmap s f k D l -> (k <= 64)%nat -> l <> [].
Proof using enough.
  intros K Hk ->. assert (H := dirs_bound D kpaths (km_paths _ _ _ _ _ K)). assert (H' := km_count _ _ _ _ _ K). change (length kpaths) with 102%nat in H. cbn [length] in H'. lia.
Qed.

Lemma wp_kvmmap va n pa perm e s f k D l : kmap s f k D l -> (k <= 64)%nat -> va mod PGSIZE = 0 -> 0 <= va -> 0 < n -> va + n * PGSIZE <= MAXVA ->
  0 <= pa -> pa + n * PGSIZE < 2 ^ 64 -> 0 <= perm < 2 ^ 10 -> (forall va', va <= va' < va + n * PGSIZE -> has (f va') PTE_V = false) ->
  (forall p, on_ways va n p -> p ∈ kpaths) ->
  wp (kvmmap root va pa (n * PGSIZE) perm) e s (fun _ t => exists D' l', kmap t (maps f va pa perm n) k D' l' /\ (forall a, a ∈ l' -> a ∈ l)).
Proof using end_pos enough.
  intros K Hk H1 H2 H3 H4 H5 H6 H7 H8 H9. unfold kvmmap. apply wp_bind. eapply wp_mono; [apply (wp_mappages end_pos root va n pa perm e s D l); try done; [apply K|]|].
  { intros va' Hva'. rewrite (km_leaf _ _ _ _ _ K) by lia. by apply H8. }
  intros r t (D' & l' & j & V & G & N & Hr & L).
  assert (K' : forall g, (forall va', 0 <= va' < MAXVA -> leaf (mem t) D' va' = g va') -> kmap t g k D' l').
  { intros g Hg. split; try done.
    - eapply alike_trans; [apply K|apply G].
    - intros p a Hp. apply N in Hp as [Hp|Hp]; [by apply (km_paths _ _ _ _ _ K) in Hp|by apply H9].
    - assert (C := grown_count _ _ _ _ _ _ _ (km_ok _ _ _ _ _ K) V G). assert (C' := km_count _ _ _ _ _ K). lia.
    - intros a Ha. apply (km_sub _ _ _ _ _ K). destruct (gr_used _ _ _ _ _ _ G) as (u & -> & _). apply elem_of_app. by right. }
  destruct Hr as [[-> ->]|(_ & El & _)].
  - change (negb (0 =? 0)) with false. cbv match. apply wp_ret. exists D', l'. split; [|intros a Ha; destruct (gr_used _ _ _ _ _ _ G) as (u & -> & _); apply elem_of_app; by right].
    apply K'. intros va' Hva'. rewrite L by done. unfold maps. destruct (_ && _); [done|]. by apply (km_leaf _ _ _ _ _ K).
  - exfalso. by apply (kmap_left t _ k D' l' (K' _ (fun _ _ => eq_refl)) Hk).
Qed.

(** One stack. *)
Lemma wp_mapstack e s f sts D l : kmap s (stacks f sts) (length sts) D l -> (length sts < 64)%nat -> (forall va, TRAMPOLINE - 130 * PGSIZE <= va < TRAMPOLINE -> f va = 0) -> NoDup (sts ++ l) ->
  wp (pa ← kalloc; if pa =? 0 then panic "kalloc"%string else kvmmap root (KSTACK (Z.of_nat (length sts))) pa PGSIZE (Z.lor PTE_R PTE_W)) e s
     (fun _ t => exists st D' l', kmap t (stacks f (sts ++ [st])) (S (length sts)) D' l' /\ st ∈ l0 /\ page_ok st /\ NoDup ((sts ++ [st]) ++ l')).
Proof using end_pos enough.
  intros K Hlt Hf Hnd. apply wp_bind. eapply wp_mono; [apply (wp_kalloc end_pos e s root D l), K|]. intros r t (-> & V & A & L & _).
  assert (Hne := kmap_left _ _ _ _ _ K ltac:(lia)). destruct l as [|g l]; [done|]. cbn [hd tail] in *. assert (Hgp : page_ok g) by (eapply free_page; [apply (vo_free _ _ _ _ (km_ok _ _ _ _ _ K))|left]).
  assert (Hg0 := page_pos end_pos g Hgp). destruct (Z.eqb_spec g 0); [lia|]. set (i := Z.of_nat (length sts)) in *.
  assert (K1 : kmap t (stacks f sts) (S (length sts)) D l).
  { split; [done|by eapply alike_trans; [apply K|]|apply K| | |].
    - assert (C := km_count _ _ _ _ _ K). cbn [length] in C. lia.
    - intros a Ha. apply (km_sub _ _ _ _ _ K). by right.
    - intros va Hva. rewrite L. by apply (km_leaf _ _ _ _ _ K). }
  assert (Hrange : TRAMPOLINE - 130 * PGSIZE <= KSTACK i /\ KSTACK i + PGSIZE < TRAMPOLINE) by (unfold KSTACK, PGSIZE; lia). change TRAMPOLINE with (2 ^ 38 - 4096) in Hrange. unfold PGSIZE in Hrange.
  assert (Hgr := proj2 Hgp). unfold PHYSTOP, KERNBASE in Hgr. replace PGSIZE with (1 * PGSIZE) at 1 by done.
  eapply wp_mono; [apply (wp_kvmmap (KSTACK i) 1 g (Z.lor PTE_R PTE_W) e t (stacks f sts) (S (length sts)) D l K1); [lia|apply stack_aligned|lia|lia|change MAXVA with (2 ^ 38); unfold PGSIZE; lia|lia|unfold PGSIZE; lia|done| |]|].
  - intros va Hva. assert (Ev : va / PGSIZE = TRAMPOLINE / PGSIZE - 2 * (i + 1)) by (rewrite <- stack_page; symmetry; apply (Z.div_unique _ _ _ (va - KSTACK i)); [unfold PGSIZE in *; lia|]; assert (H := stack_aligned i); apply Z.div_exact in H; [lia|done]).
    unfold stacks. rewrite Ev. replace (TRAMPOLINE / PGSIZE - (TRAMPOLINE / PGSIZE - 2 * (i + 1))) with ((i + 1) * 2) by lia. rewrite Z.mod_mul, Z.div_mul by done. change (0 =? 0) with true. destruct (Z.leb_spec 2 ((i + 1) * 2)); [|lia]. cbn [andb].
    rewrite lookup_ge_None_2 by lia. rewrite Hf; [done|]. change TRAMPOLINE with (2 ^ 38 - 4096). unfold PGSIZE in *. lia.
  - intros p Hp. apply (on_ways_in _ _ _ 255 Hp); [|kpath_const|]; intros j Hj; assert (j = 0) as -> by lia; rewrite Z.add_0_r.
    + Z.to_euclidean_division_equations. lia.
    + replace (KSTACK i / 2 ^ 21 mod 512) with 511 by (Z.to_euclidean_division_equations; lia). kpath_const.
  - intros [] u (D' & l' & K2 & Hsub). exists g, D', l'. split; [|split; [apply (km_sub _ _ _ _ _ K); left|split; [done|]]].
    + destruct K2 as [B1 B2 B3 B4 B5 B6]. split; try done. intros va Hva. rewrite B6 by done. apply stacks_snoc.
    + rewrite <- app_assoc. apply list.NoDup_app in Hnd as (N1 & N2 & N3). apply list.NoDup_app. split; [done|]. apply list.NoDup_cons in N3 as [N3 N4]. split.
      * intros a Ha [->|Ha']%elem_of_cons; [apply (N2 _ Ha); left|]. apply (N2 _ Ha). right. by apply Hsub.
      * apply list.NoDup_cons. split; [intros Hg; by apply N3, Hsub|]. apply (vo_free _ _ _ _ (km_ok _ _ _ _ _ K2)).
Qed.

Lemma wp_mapstacks e s f D l : kmap s f 0 D l -> (forall va, TRAMPOLINE - 130 * PGSIZE <= va < TRAMPOLINE -> f va = 0) ->
  wp (proc_mapstacks root) e s (fun _ t => exists sts D' l', length sts = NPROC /\ kmap t (stacks f sts) NPROC D' l' /\ (forall st, st ∈ sts -> st ∈ l0 /\ page_ok st) /\ NoDup (sts ++ l')).
Proof using end_pos enough.
  intros K Hf. unfold proc_mapstacks.
  apply (wp_for_each e (fun i t => exists sts D' l', length sts = i /\ kmap t (stacks f sts) i D' l' /\ (forall st, st ∈ sts -> st ∈ l0 /\ page_ok st) /\ NoDup (sts ++ l'))).
  - exists [], D, l. split; [done|]. split; [|split; [by intros st H%elem_of_nil|apply (vo_free _ _ _ _ (km_ok _ _ _ _ _ K))]].
    destruct K as [B1 B2 B3 B4 B5 B6]. split; try done. intros va Hva. rewrite B6 by done. unfold stacks. rewrite lookup_nil. by destruct (_ && _).
  - intros i x t Hx (sts & D' & l' & <- & K' & Hs & Hnd). apply lookup_seq in Hx as [-> Hlt]. cbn [Nat.add].
    eapply wp_mono; [by apply (wp_mapstack e t f sts D' l' K')|]. intros [] u (st & D2 & l2 & K2 & H1 & H2 & H3). exists (sts ++ [st]), D2, l2.
    split; [rewrite length_app; cbn; lia|]. split; [done|]. split; [|done]. intros a [Ha| ->%list_elem_of_singleton]%elem_of_app; [by apply Hs|done].
  - intros t (sts & D' & l' & H1 & H2 & H3). change (length proc_table) with NPROC in *. by exists sts, D', l'.
Qed.
End state.

(** ** The table *)

Hypothesis etext_aligned : etext mod PGSIZE = 0.
Hypothesis etext_range : KERNBASE < etext < PHYSTOP.

Definition RW : Z := Z.lor PTE_R PTE_W.
Definition RX : Z := Z.lor PTE_R PTE_X.

Definition device_map : Z -> Z := maps (maps (maps (fun _ => 0) UART0 UART0 RW 1) VIRTIO0 VIRTIO0 RW 1) PLIC PLIC RW 0x4000.
Definition text_pages : Z := (etext - KERNBASE) / PGSIZE.
Definition data_pages : Z := (PHYSTOP - etext) / PGSIZE.
Definition ram_map : Z -> Z := maps (maps device_map KERNBASE KERNBASE RX text_pages) etext etext RW data_pages.
Definition fixed_map : Z -> Z := maps ram_map TRAMPOLINE trampoline RX 1.

Lemma ram_pages : text_pages * PGSIZE = etext - KERNBASE /\ data_pages * PGSIZE = PHYSTOP - etext /\ 0 < text_pages /\ 0 < data_pages /\ text_pages < 0x8000 /\ data_pages < 0x8000.
Proof using etext_aligned etext_range.
  unfold text_pages, data_pages, PHYSTOP, KERNBASE, PGSIZE in *. Z.to_euclidean_division_equations. lia.
Qed.

Lemma device_map_high va : 0x10002000 <= va -> device_map va = 0.
Proof using. intros Hva. unfold device_map, PLIC, VIRTIO0, UART0. rewrite !maps_out; (done || unfold PGSIZE; lia). Qed.

Lemma ram_map_high va : PHYSTOP <= va -> ram_map va = 0.
Proof using etext_aligned etext_range.
  intros Hva. destruct ram_pages as (R1 & R2 & _). unfold ram_map. rewrite !maps_out; try done; try (unfold PHYSTOP, KERNBASE in *; lia). apply device_map_high. unfold PHYSTOP, KERNBASE in *. lia.
Qed.

Hypothesis trampoline_range : 0 <= trampoline < 2 ^ 56.

Lemma wp_kvmmake e s l : kmem_ready s -> kmem_inv s l -> (166 < length l)%nat ->
  wp kvmmake e s (fun root t => exists sts D' l', length sts = NPROC /\ kmap s l root t (stacks fixed_map sts) NPROC D' l' /\ (forall st, st ∈ sts -> st ∈ l /\ page_ok st) /\ NoDup (sts ++ l')).
Proof using end_pos etext_aligned etext_range trampoline_range.
  intros Hr Hl Hen. unfold kvmmake. apply wp_bind. destruct (kalloc_spec end_pos e s l Hr Hl) as (t & E & T1 & T2 & T3 & T4). eapply wp_call; [exact E|].
  destruct l as [|root l]; [cbn in Hen; lia|]. destruct T4 as (T4 & T5 & T6). cbn [hd tail] in *. assert (H0 := page_pos end_pos root T4).
  apply wp_bind. unfold memset_mem. destruct (Z.eqb_spec root 0); [lia|]. apply wp_modify. set (u := t <| mem ::= _ |>).
  assert (K0 : kmap s (root :: l) root u (fun _ => 0) 0 {[ [] := root ]} l).
  { split.
    - by apply vm_ok_new.
    - exact T2.
    - intros p a [<- _]%lookup_singleton_Some. left.
    - rewrite map_size_singleton. cbn [length]. lia.
    - intros a Ha. by right.
    - intros va _. apply root_leaf. }
  destruct ram_pages as (P1 & P2 & P3 & P4 & P5 & P6).
  change PGSIZE with (1 * PGSIZE) at 1 2 3. change 0x4000000 with (0x4000 * PGSIZE) at 1.
  replace (u64 (etext - KERNBASE)) with (text_pages * PGSIZE) by (rewrite P1, u64_id; unfold PHYSTOP, KERNBASE in *; lia).
  replace (u64 (PHYSTOP - etext)) with (data_pages * PGSIZE) by (rewrite P2, u64_id; unfold PHYSTOP, KERNBASE in *; lia).
  change (Z.lor PTE_R PTE_W) with RW. change (Z.lor PTE_R PTE_X) with RX. set (s0 := s) in *.
  apply wp_bind. eapply wp_mono; [apply (wp_kvmmap s0 (root :: l) root Hen UART0 1 UART0 RW e u _ 0 _ _ K0); try done; try lia|]; [intros p Hp; apply (ways_low _ _ _ 128 Hp); [done|done|done|]; intros y Y1 Y2; unfold UART0, PGSIZE in Y2; assert (y = 128) as -> by lia; kpath_const|].
  intros [] t1 (D1 & l1 & K1 & _). apply wp_bind. eapply wp_mono; [apply (wp_kvmmap s0 (root :: l) root Hen VIRTIO0 1 VIRTIO0 RW e t1 _ 0 _ _ K1); try done; try lia|]; [intros va Hva; unfold VIRTIO0, UART0, PGSIZE in *; by rewrite maps_out by (done || unfold PGSIZE; lia)|intros p Hp; apply (ways_low _ _ _ 128 Hp); [done|done|done|]; intros y Y1 Y2; unfold VIRTIO0, PGSIZE in Y2; assert (y = 128) as -> by lia; kpath_const|].
  intros [] t2 (D2 & l2 & K2 & _). apply wp_bind. eapply wp_mono; [apply (wp_kvmmap s0 (root :: l) root Hen PLIC 0x4000 PLIC RW e t2 _ 0 _ _ K2); try done; try lia|]; [intros va Hva; unfold PLIC, VIRTIO0, UART0, PGSIZE in *; by rewrite !maps_out by (done || unfold PGSIZE; lia)|intros p Hp; apply (ways_low _ _ _ 96 Hp); [done|done|done|]; intros y Y1 Y2; unfold PLIC, PGSIZE in Y2; apply kpaths_plic; lia|].
  fold device_map. intros [] t3 (D3 & l3 & K3 & _). apply wp_bind. eapply wp_mono; [apply (wp_kvmmap s0 (root :: l) root Hen KERNBASE text_pages KERNBASE RX e t3 _ 0 _ _ K3); try done; try lia|]; [change MAXVA with (2 ^ 38); rewrite P1; unfold PHYSTOP, KERNBASE in *; lia|rewrite P1; unfold PHYSTOP, KERNBASE in *; lia|intros va Hva; rewrite device_map_high by (unfold KERNBASE in *; lia); done|intros p Hp; apply (ways_ram _ _ _ Hp); [lia|rewrite P1; lia]|].
  intros [] t4 (D4 & l4 & K4 & _). apply wp_bind. eapply wp_mono; [apply (wp_kvmmap s0 (root :: l) root Hen etext data_pages etext RW e t4 _ 0 _ _ K4); try done; try lia|]; [unfold KERNBASE in *; lia|change MAXVA with (2 ^ 38); rewrite P2; unfold PHYSTOP, KERNBASE in *; lia|unfold KERNBASE in *; lia|rewrite P2; unfold PHYSTOP, KERNBASE in *; lia|intros va Hva; rewrite maps_out by (done || unfold KERNBASE in *; lia); rewrite device_map_high by (unfold KERNBASE in *; lia); done|intros p Hp; apply (ways_ram _ _ _ Hp); [lia|rewrite P2; lia]|].
  fold ram_map. intros [] t5 (D5 & l5 & K5 & _). apply wp_bind. eapply wp_mono; [apply (wp_kvmmap s0 (root :: l) root Hen TRAMPOLINE 1 trampoline RX e t5 _ 0 _ _ K5); try done; try lia|]; [unfold PGSIZE; lia|intros va Hva; rewrite ram_map_high by (change TRAMPOLINE with (2 ^ 38 - 4096) in *; unfold PHYSTOP, KERNBASE; lia); done| |].
  { intros p Hp. apply (on_ways_in _ _ _ 255 Hp); [|kpath_const|]; intros j Hj; assert (j = 0) as -> by lia; [done|kpath_const]. }
  fold fixed_map. intros [] t6 (D6 & l6 & K6 & _). apply wp_bind.
  eapply wp_mono; [apply (wp_mapstacks s0 (root :: l) root Hen e t6 fixed_map D6 l6 K6)|].
  - intros va Hva. unfold fixed_map. rewrite maps_out; [|done|change TRAMPOLINE with (2 ^ 38 - 4096) in *; unfold PGSIZE in *; lia|left; lia]. apply ram_map_high. change TRAMPOLINE with (2 ^ 38 - 4096) in *. unfold PHYSTOP, KERNBASE, PGSIZE in *. lia.
  - intros [] t7 H. by apply wp_ret.
Qed.
End kernel.

(** ** What the table maps *)

(** Flags below the page number are those of [perm]. *)
Lemma mk_pte_has pa perm i : 0 <= i < 10 -> has (mk_pte pa perm) (2 ^ i) = Z.testbit (Z.lor perm PTE_V) i.
Proof.
  intros Hi. unfold has, mk_pte. rewrite <- Z.lor_assoc. assert (E : Z.testbit (Z.lor (PA2PTE pa) (Z.lor perm PTE_V)) i = Z.testbit (Z.lor perm PTE_V) i).
  { rewrite Z.lor_spec. unfold PA2PTE, u64. rewrite Z.mod_pow2_bits_low, Z.shiftl_spec_low by lia. done. }
  rewrite <- E. set (v := Z.lor _ _). clearbody v. clear E. destruct (Z.testbit v i) eqn:E.
  - destruct (Z.eqb_spec (Z.land v (2 ^ i)) 0) as [H|]; [|done]. exfalso. apply (f_equal (fun z => Z.testbit z i)) in H. rewrite Z.land_spec, E, Z.pow2_bits_true, Z.bits_0 in H by lia. done.
  - assert (Z.land v (2 ^ i) = 0) as ->; [|done]. apply Z.bits_inj'. intros j Hj. rewrite Z.land_spec, Z.bits_0, Z.pow2_bits_eqb by lia. destruct (Z.eqb_spec i j) as [<-|]; [by rewrite E|by rewrite andb_false_r].
Qed.

(** The kernel reads and writes it or reads and executes it, and no program does. *)
Definition kernel_leaf (v : Z) : Prop := v = 0 \/ exists pa, v = mk_pte pa RW \/ v = mk_pte pa RX.

Lemma kernel_leaf_flags v : kernel_leaf v -> has v PTE_U = false /\ (has v PTE_W && has v PTE_X = false).
Proof.
  change PTE_U with (2 ^ 4). change PTE_W with (2 ^ 2). change PTE_X with (2 ^ 3).
  intros [->|(pa & [-> | ->])]; [by vm_compute| |]; rewrite !mk_pte_has by done; by vm_compute.
Qed.

Lemma maps_kernel old va pa perm k va' : kernel_leaf (old va') -> perm = RW \/ perm = RX -> kernel_leaf (maps old va pa perm k va').
Proof. intros H [-> | ->]; unfold maps; destruct (_ && _); try done; right; eexists; [by left|by right]. Qed.

(** The address space that the kernel means to have: [f] is the entry of an
    address, [sts] are the pages of the stacks. *)
Record kernel_space `{LK : Linker} (f : Z -> Z) (sts : list Z) : Prop := mkKernelSpace {
  ks_device : forall va, UART0 <= va < UART0 + PGSIZE \/ VIRTIO0 <= va < VIRTIO0 + PGSIZE \/ PLIC <= va < PLIC + 0x4000000 -> f va = mk_pte (va / PGSIZE * PGSIZE) RW;
  ks_text : forall va, KERNBASE <= va < etext -> f va = mk_pte (va / PGSIZE * PGSIZE) RX;
  ks_data : forall va, etext <= va < PHYSTOP -> f va = mk_pte (va / PGSIZE * PGSIZE) RW;
  ks_trampoline : forall va, TRAMPOLINE <= va < MAXVA -> f va = mk_pte trampoline RX;
  ks_stack : forall i st va, sts !! i = Some st -> KSTACK (Z.of_nat i) <= va < KSTACK (Z.of_nat i) + PGSIZE -> f va = mk_pte st RW;
  ks_guard : forall i va, (i < length sts)%nat -> KSTACK (Z.of_nat i) - PGSIZE <= va < KSTACK (Z.of_nat i) -> f va = 0;
  ks_flags : forall va, 0 <= va < MAXVA -> has (f va) PTE_U = false /\ (has (f va) PTE_W && has (f va) PTE_X = false)
}.

Section space.
Context `{LK : Linker}.
Hypothesis etext_aligned : etext mod PGSIZE = 0.
Hypothesis etext_range : KERNBASE < etext < PHYSTOP.

Lemma maps_identity old va perm k va' : va mod PGSIZE = 0 -> va <= va' < va + k * PGSIZE -> maps old va va perm k va' = mk_pte (va' / PGSIZE * PGSIZE) perm.
Proof using LK. intros Hal Hin. rewrite maps_in by done. f_equal. apply Z.div_exact in Hal; [lia|done]. Qed.

Lemma fixed_map_low va : va < PHYSTOP -> 0 <= va -> fixed_map va = ram_map va.
Proof using LK. intros H H0. apply maps_out; [done|done|]. left. unfold PHYSTOP, KERNBASE in H. change TRAMPOLINE with (2 ^ 38 - 4096). lia. Qed.

Lemma stacks_low f sts va : 0 <= va < TRAMPOLINE - 130 * PGSIZE -> (length sts <= 64)%nat -> stacks f sts va = f va.
Proof using LK.
  intros Hva Hlen. unfold stacks. rewrite lookup_ge_None_2; [by destruct (_ && _)|]. change TRAMPOLINE with (2 ^ 38 - 4096) in *. unfold PGSIZE in *. Z.to_euclidean_division_equations. lia.
Qed.

Lemma stacks_kernel f sts va : kernel_leaf (f va) -> kernel_leaf (stacks f sts va).
Proof using LK. intros H. unfold stacks. destruct (_ && _); [|done]. destruct (sts !! _) as [st|]; [|done]. right. exists st. by left. Qed.

Lemma fixed_space sts : (length sts <= 64)%nat -> kernel_space (stacks fixed_map sts) sts.
Proof using etext_aligned etext_range.
  intros Hlen. assert (HT : TRAMPOLINE = 2 ^ 38 - 4096) by done. assert (HS : PHYSTOP <= TRAMPOLINE - 130 * PGSIZE) by (rewrite HT; unfold PHYSTOP, KERNBASE, PGSIZE; lia).
  destruct (ram_pages etext_aligned etext_range) as (P1 & P2 & P3 & P4 & _). unfold KERNBASE in etext_range.
  split.
  - intros va Hva. rewrite stacks_low, fixed_map_low by (unfold PHYSTOP, KERNBASE, UART0, VIRTIO0, PLIC, PGSIZE in *; lia). unfold ram_map. rewrite !maps_out by (done || unfold KERNBASE, UART0, VIRTIO0, PLIC, PGSIZE in *; lia). unfold device_map.
    destruct (decide (va < UART0)); [|destruct (decide (va < VIRTIO0))].
    + rewrite maps_identity; [done|done|]. unfold UART0, VIRTIO0, PLIC, PGSIZE in *. lia.
    + rewrite maps_out, maps_out, maps_identity; (done || unfold UART0, VIRTIO0, PLIC, PGSIZE in *; lia).
    + rewrite maps_out, maps_identity; (done || unfold UART0, VIRTIO0, PLIC, PGSIZE in *; lia).
  - intros va Hva. unfold KERNBASE in *. rewrite stacks_low, fixed_map_low by lia. unfold ram_map. rewrite maps_out by (done || lia). apply maps_identity; [done|]. rewrite P1. unfold KERNBASE. lia.
  - intros va Hva. rewrite stacks_low, fixed_map_low by lia. unfold ram_map. apply maps_identity; [done|]. rewrite P2. lia.
  - intros va Hva. change MAXVA with (2 ^ 38) in Hva. unfold stacks. replace (va / PGSIZE) with (TRAMPOLINE / PGSIZE) by (symmetry; rewrite HT; unfold PGSIZE; Z.to_euclidean_division_equations; lia). rewrite Z.sub_diag. cbn [Z.leb andb]. change ((0 mod 2 =? 0) && (2 <=? 0)) with false. cbv match.
    unfold fixed_map. rewrite maps_in by (done || unfold PGSIZE; lia). f_equal. replace (va / PGSIZE) with (TRAMPOLINE / PGSIZE) by (symmetry; rewrite HT; unfold PGSIZE; Z.to_euclidean_division_equations; lia). lia.
  - intros i st va Hst Hva. assert (Ev : va / PGSIZE = TRAMPOLINE / PGSIZE - 2 * (Z.of_nat i + 1)) by (rewrite <- stack_page; symmetry; apply (Z.div_unique _ _ _ (va - KSTACK (Z.of_nat i))); [unfold PGSIZE in *; lia|]; assert (H := stack_aligned (Z.of_nat i)); apply Z.div_exact in H; [lia|done]).
    unfold stacks. rewrite Ev. replace (TRAMPOLINE / PGSIZE - (TRAMPOLINE / PGSIZE - 2 * (Z.of_nat i + 1))) with ((Z.of_nat i + 1) * 2) by lia. rewrite Z.mod_mul, Z.div_mul by done. change (0 =? 0) with true. destruct (Z.leb_spec 2 ((Z.of_nat i + 1) * 2)); [|lia]. cbn [andb].
    replace (Z.to_nat (Z.of_nat i + 1 - 1)) with i by lia. by rewrite Hst.
  - intros i va Hi Hva. assert (Ev : va / PGSIZE = TRAMPOLINE / PGSIZE - (2 * (Z.of_nat i + 1) + 1)) by (assert (H := stack_page (Z.of_nat i)); assert (H' := stack_aligned (Z.of_nat i)); unfold PGSIZE in *; Z.to_euclidean_division_equations; lia).
    unfold stacks. rewrite Ev. replace ((TRAMPOLINE / PGSIZE - (TRAMPOLINE / PGSIZE - (2 * (Z.of_nat i + 1) + 1))) mod 2) with 1 by (replace (TRAMPOLINE / PGSIZE - (TRAMPOLINE / PGSIZE - (2 * (Z.of_nat i + 1) + 1))) with (1 + (Z.of_nat i + 1) * 2) by lia; by rewrite Z.mod_add).
    change (1 =? 0) with false. cbn [andb]. unfold KSTACK in Hva. unfold fixed_map. rewrite maps_out by (done || unfold PGSIZE in *; lia). apply ram_map_high; [done|done|]. rewrite HT in *. unfold PHYSTOP, KERNBASE, PGSIZE in *. lia.
  - intros va Hva. apply kernel_leaf_flags, stacks_kernel. unfold fixed_map, ram_map, device_map. repeat (apply maps_kernel; [|by auto]). by left.
Qed.
End space.

(** C6. [kvmmake] with at least 167 free pages (102 for page tables and 64 for
    stacks) succeeds and makes the address space of the kernel: the devices,
    the text and the rest of memory are mapped to themselves, the trampoline is
    the last page, each of the 64 processes has a stack of a page of its own
    under the trampoline with an unmapped page under it; no page is open to
    programs, and none can be both written and executed. The free pages that
    remain are neither stacks nor part of the table. *)
Theorem kvmmake_correct `{LK : Linker} e s l (Hend : 0 < kernel_end) (Ha : etext mod PGSIZE = 0) (He : KERNBASE < etext < PHYSTOP) (Ht : 0 <= trampoline < 2 ^ 56)
  (Hr : kmem_ready s) (Hl : kmem_inv s l) (Hlen : (166 < length l)%nat) :
  exists root t D sts l', kvmmake e s = Ret root e t /\ vm_ok t root D l' /\ alike s t /\
    length sts = NPROC /\ (forall st, st ∈ sts -> st ∈ l /\ page_ok st) /\ NoDup (sts ++ l') /\ (forall p, p ∈ l' -> p ∈ l) /\
    exists f, kernel_space f sts /\ forall va, 0 <= va < MAXVA -> leaf (mem t) D va = f va.
Proof.
  destruct (wp_kvmmake Hend Ha He Ht e s l Hr Hl Hlen) as (root & t & E & sts & D & l' & H1 & K & H2 & H3).
  exists root, t, D, sts, l'. split; [done|]. split; [apply K|]. split; [apply K|]. split; [done|]. split; [done|]. split; [done|]. split; [apply (km_sub _ _ _ _ _ _ _ _ K)|].
  exists (stacks fixed_map sts). split; [|apply K]. apply fixed_space; [done|done|]. by rewrite H1.
Qed.

(** ** An instance *)

(** A kernel that ends 200 pages below PHYSTOP, with a page of text. *)
Definition many_pages : Linker :=
  {| kernel_end := PHYSTOP - 200 * PGSIZE; etext := KERNBASE + PGSIZE; trampoline := KERNBASE; forkret_entry := KERNBASE |}.

Definition many_free : list Z := (fun k => PHYSTOP - (k + 1) * PGSIZE) <$> seqZ 0 200.

Definition many_mem : bytes := foldr (fun p m => store64 m p (if p =? PHYSTOP - 200 * PGSIZE then 0 else p - PGSIZE)) ∅ many_free.

Definition many_state : mach := one_hart Lkmem (mkSpinlock 0 "kmem" None) <| freelist := PHYSTOP - PGSIZE |> <| mem := many_mem |>.

Lemma many_ready : kmem_ready many_state.
Proof. split; [|by exists "kmem"%string]. eexists. split; [reflexivity|]. split; [cbn; lia|]. cbn. lia. Qed.

Fixpoint check_free `{LK : Linker} (m : bytes) (head : Z) (l : list Z) : bool :=
  match l with
  | [] => head =? 0
  | p :: l => (head =? p) && bool_decide (page_ok p) && check_free m (load64 m p) l
  end.

Lemma check_free_sound `{LK : Linker} m head l : check_free m head l = true -> free_pages m head l.
Proof.
  revert head. induction l as [|p l IH]; intros head; cbn; [apply Z.eqb_eq|]. rewrite !andb_true_iff, Z.eqb_eq, bool_decide_eq_true. intros [[-> H] H']. auto.
Qed.

Lemma many_inv : @kmem_inv many_pages many_state many_free.
Proof. split; [apply (@check_free_sound many_pages); by vm_compute|]. apply (bool_decide_unpack _). by vm_compute. Qed.

Lemma kvmmake_correct_witness :
  exists root t D sts l', @kvmmake many_pages [] many_state = Ret root [] t /\ @vm_ok many_pages t root D l' /\ alike many_state t /\
    length sts = NPROC /\ (forall st, st ∈ sts -> st ∈ many_free /\ @page_ok many_pages st) /\ NoDup (sts ++ l') /\ (forall p, p ∈ l' -> p ∈ many_free) /\
    exists f, @kernel_space many_pages f sts /\ forall va, 0 <= va < MAXVA -> leaf (mem t) D va = f va.
Proof.
  refine (@kvmmake_correct many_pages [] many_state many_free _ _ _ _ many_ready many_inv _); apply (bool_decide_unpack _); by vm_compute.
Defined.
