(* ===== verification/Start.v ===== *)
(** * Starting a hart

    Model of [kernel/start.c] and of the machine-mode accessors of
    [kernel/riscv.h]: from machine mode with paging off to [main] in supervisor
    mode.  The registers are those of the privileged architecture: [sie] is
    the part of [mie] that [mideleg] delegates, [mret] is its instruction. *)
From stdpp Require Import base tactics list numbers strings.
From S2P Require Import Prelude.

Open Scope Z_scope.

(** ** The hart *)

Inductive mode : Set := User | Supervisor | Machine.

#[global] Instance mode_eq_dec : EqDecision mode.
Proof. solve_decision. Defined.

Record hart := mkHart {
  prv : mode; pc : Z; tp_ : Z;
  mhartid : Z; mstatus : Z; mepc : Z; satp_ : Z;
  medeleg : Z; mideleg : Z; mie : Z;
  pmpaddr0 : Z; pmpcfg0 : Z;
  menvcfg : Z; mcounteren : Z; stimecmp_ : Z; mtime : Z
}.

#[global] Instance hart_settable : Settable hart := fun h =>
  mkHart (prv h) (pc h) (tp_ h) (mhartid h) (mstatus h) (mepc h) (satp_ h) (medeleg h) (mideleg h) (mie h)
    (pmpaddr0 h) (pmpcfg0 h) (menvcfg h) (mcounteren h) (stimecmp_ h) (mtime h).

(** The registers whose fields a hart may leave unimplemented: [held] is what
    such a register keeps of a value that is written. *)
Inductive field : Set := Fmstatus | Fmepc | Fsatp | Fmedeleg | Fmideleg | Fmie | Fpmpaddr | Fpmpcfg | Fmenvcfg | Fmcounteren.

Class Implemented : Type := held : field -> Z -> Z.

(** Code that runs on the hart. *)
Definition H (A : Type) : Type := hart -> A * hart.
#[global] Instance H_ret : MRet H := fun _ a h => (a, h).
#[global] Instance H_bind : MBind H := fun _ _ k m h => let r := m h in k (fst r) (snd r).

Definition csrr (f : hart -> Z) : H Z := fun h => (f h, h).
Definition csrw (f : hart -> hart) : H unit := fun h => (tt, f h).

(** ** [kernel/riscv.h] *)

Definition MSTATUS_MPP_MASK : Z := Z.shiftl 3 11.
Definition MSTATUS_MPP_M : Z := Z.shiftl 3 11.
Definition MSTATUS_MPP_S : Z := Z.shiftl 1 11.
Definition MSTATUS_MPP_U : Z := Z.shiftl 0 11.
Definition MSTATUS_MIE : Z := Z.shiftl 1 3.
Definition SIE_SEIE : Z := Z.shiftl 1 9.
Definition SIE_STIE : Z := Z.shiftl 1 5.
Definition SIE_SSIE : Z := Z.shiftl 1 1.
Definition MIE_STIE : Z := Z.shiftl 1 5.

Section start.
Context `{IM : Implemented} (main_entry : Z).

Definition r_mhartid : H Z := csrr mhartid.
Definition r_mstatus : H Z := csrr mstatus.
Definition w_mstatus (x : Z) : H unit := csrw (fun h => h <| mstatus := held Fmstatus x |>).
Definition w_mepc (x : Z) : H unit := csrw (fun h => h <| mepc := held Fmepc x |>).
Definition r_sie : H Z := csrr (fun h => Z.land (mie h) (mideleg h)).
Definition w_sie (x : Z) : H unit := csrw (fun h =>
  h <| mie := Z.lor (Z.ldiff (mie h) (mideleg h)) (Z.land (held Fmie x) (mideleg h)) |>).
Definition r_mie : H Z := csrr mie.
Definition w_mie (x : Z) : H unit := csrw (fun h => h <| mie := held Fmie x |>).
Definition r_medeleg : H Z := csrr medeleg.
Definition w_medeleg (x : Z) : H unit := csrw (fun h => h <| medeleg := held Fmedeleg x |>).
Definition r_mideleg : H Z := csrr mideleg.
Definition w_mideleg (x : Z) : H unit := csrw (fun h => h <| mideleg := held Fmideleg x |>).
Definition r_stimecmp : H Z := csrr stimecmp_.
Definition w_stimecmp (x : Z) : H unit := csrw (fun h => h <| stimecmp_ := x |>).
Definition r_menvcfg : H Z := csrr menvcfg.
Definition w_menvcfg (x : Z) : H unit := csrw (fun h => h <| menvcfg := held Fmenvcfg x |>).
Definition w_pmpcfg0 (x : Z) : H unit := csrw (fun h => h <| pmpcfg0 := held Fpmpcfg x |>).
Definition w_pmpaddr0 (x : Z) : H unit := csrw (fun h => h <| pmpaddr0 := held Fpmpaddr x |>).
Definition w_satp (x : Z) : H unit := csrw (fun h => h <| satp_ := held Fsatp x |>).
Definition w_mcounteren (x : Z) : H unit := csrw (fun h => h <| mcounteren := held Fmcounteren x |>).
Definition r_mcounteren : H Z := csrr mcounteren.
Definition r_time : H Z := csrr mtime.
Definition r_tp : H Z := csrr tp_.
Definition w_tp (x : Z) : H unit := csrw (fun h => h <| tp_ := x |>).

(** The mode in [mstatus.MPP]. *)
Definition previous (x : Z) : mode :=
  match Z.testbit x 12, Z.testbit x 11 with
  | false, false => User
  | false, true => Supervisor
  | true, _ => Machine
  end.

(** To the previous mode, at [mepc]; [MPIE], bit 7, becomes [MIE] and is set,
    the previous mode becomes user. *)
Definition mret_ : H unit := csrw (fun h =>
  let x := mstatus h in
  let x' := Z.lor (Z.ldiff x (Z.lor MSTATUS_MPP_MASK MSTATUS_MIE))
              (Z.lor (Z.shiftl 1 7) (if Z.testbit x 7 then MSTATUS_MIE else 0)) in
  h <| prv := previous x |> <| pc := mepc h |> <| mstatus := x' |>).

(** ** [kernel/start.c] *)

Definition timerinit : H unit :=
  x ← r_mie; w_mie (Z.lor x MIE_STIE);;
  x ← r_menvcfg; w_menvcfg (Z.lor x (Z.shiftl 1 63));;
  x ← r_mcounteren; w_mcounteren (Z.lor x 2);;
  t ← r_time; w_stimecmp (u64 (t + 1000000)).

Definition start : H unit :=
  x ← r_mstatus;
  let x := Z.land x (u64 (Z.lnot MSTATUS_MPP_MASK)) in
  let x := Z.lor x MSTATUS_MPP_S in
  w_mstatus x;;
  w_mepc main_entry;;
  w_satp 0;;
  w_medeleg 0xffff;;
  w_mideleg 0xffff;;
  (x ← r_sie; w_sie (Z.lor (Z.lor (Z.lor x SIE_SEIE) SIE_STIE) SIE_SSIE));;
  w_pmpaddr0 0x3fffffffffffff;;
  w_pmpcfg0 0xf;;
  timerinit;;
  id ← r_mhartid;
  w_tp (u64 (i32 id));;
  mret_.
End start.

(** ** What a started hart is *)

(** Bit [i] of a register is implemented. *)
Definition keeps `{IM : Implemented} (f : field) (i : Z) : Prop := forall x, Z.testbit (held f x) i = Z.testbit x i.

(** What the kernel needs of the hart: supervisor mode, delegation and
    enabling of its three interrupts, the [Sstc] extension, and one region of
    memory protection. *)
Record supports `{IM : Implemented} (main_entry : Z) : Prop := mkSupports {
  su_mpp : keeps Fmstatus 11 /\ keeps Fmstatus 12;
  su_sie : keeps Fmstatus 1;
  su_mepc : held Fmepc main_entry = main_entry;
  su_satp : held Fsatp 0 = 0;
  su_mideleg : forall i, i ∈ [1; 5; 9] -> keeps Fmideleg i;
  su_mie : forall i, i ∈ [1; 5; 9] -> keeps Fmie i;
  su_pmp : held Fpmpaddr 0x3fffffffffffff = 0x3fffffffffffff /\ held Fpmpcfg 0xf = 0xf;
  su_menvcfg : keeps Fmenvcfg 63;
  su_mcounteren : keeps Fmcounteren 1
}.

(** The first entry of the memory protection allows every access below its
    address: it is a top-of-range entry that can be read, written, executed. *)
Definition pmp_allows (h : hart) (a : Z) : Prop :=
  Z.land (pmpcfg0 h) 7 = 7 /\ Z.land (Z.shiftr (pmpcfg0 h) 3) 3 = 1 /\ 0 <= a < pmpaddr0 h * 4.

Lemma shifted_bit n i : 0 <= n -> Z.testbit (Z.shiftl 1 n) i = (n =? i).
Proof.
  intros Hn. rewrite Z.shiftl_1_l. destruct (decide (0 <= i)); [by rewrite Z.pow2_bits_eqb|]. rewrite Z.testbit_neg_r by lia. symmetry. apply Z.eqb_neq. lia.
Qed.

(** Removing the previous mode and putting supervisor mode there. *)
Lemma mpp_bits x i : 0 <= i < 64 -> Z.testbit (Z.lor (Z.land x (u64 (Z.lnot MSTATUS_MPP_MASK))) MSTATUS_MPP_S) i =
  if i =? 12 then false else if i =? 11 then true else Z.testbit x i.
Proof.
  intros Hi. unfold u64, MSTATUS_MPP_S. rewrite Z.lor_spec, Z.land_spec, Z.mod_pow2_bits_low, Z.lnot_spec, shifted_bit by lia. unfold MSTATUS_MPP_MASK. rewrite Z.shiftl_spec by lia.
  destruct (Z.eqb_spec i 12) as [->|]; [by rewrite andb_false_r|]. destruct (Z.eqb_spec i 11) as [->|]; [by rewrite orb_true_r|].
  replace (Z.testbit 3 (i - 11)) with false; [rewrite andb_true_r; destruct (Z.eqb_spec 11 i); [lia|by rewrite orb_false_r]|].
  symmetry. destruct (decide (i < 11)); [apply Z.testbit_neg_r; lia|]. apply (Z.bits_above_log2 3 (i - 11)); [done|]. change (Z.log2 3) with 1. lia.
Qed.

Lemma previous_bits x y : Z.testbit x 11 = Z.testbit y 11 -> Z.testbit x 12 = Z.testbit y 12 -> previous x = previous y.
Proof. unfold previous. by intros -> ->. Qed.

(** The three interrupts are enabled: what is written to [sie] reaches [mie]
    where [mideleg] delegates it, and setting the timer bit keeps it. *)
Lemma sie_enabled `{IM : Implemented} main_entry h i : (forall i, i ∈ [1; 5; 9] -> keeps Fmideleg i) -> (forall i, i ∈ [1; 5; 9] -> keeps Fmie i) -> i ∈ [1; 5; 9] ->
  Z.testbit (mie (snd (start main_entry h))) i = true.
Proof.
  intros Hd Hm Hi. set (D := held Fmideleg 0xffff). set (x := Z.land (mie h) D). set (y := Z.lor (Z.lor (Z.lor x SIE_SEIE) SIE_STIE) SIE_SSIE).
  change (mie (snd (start main_entry h))) with (held Fmie (Z.lor (Z.lor (Z.ldiff (mie h) D) (Z.land (held Fmie y) D)) MIE_STIE)).
  rewrite (Hm i Hi), !Z.lor_spec, Z.land_spec, (Hm i Hi). assert (HD : Z.testbit D i = true) by (unfold D; rewrite (Hd i Hi); revert Hi; rewrite !elem_of_cons, elem_of_nil; by intros [->|[->|[->|[]]]]).
  assert (Hy : Z.testbit y i = true); [|by rewrite HD, Hy, !orb_true_r]. unfold y, SIE_SEIE, SIE_STIE, SIE_SSIE. rewrite !Z.lor_spec, !shifted_bit by lia.
  revert Hi. rewrite !elem_of_cons, elem_of_nil. intros [->|[->|[->|[]]]]; by rewrite ?orb_true_r.
Qed.

(** [mret] and what is written before it leave the mask of the supervisor's interrupts. *)
Lemma mret_masked `{IM : Implemented} main_entry h : keeps Fmstatus 1 -> Z.testbit (mstatus (snd (start main_entry h))) 1 = Z.testbit (mstatus h) 1.
Proof.
  intros Hk. set (x := held Fmstatus (Z.lor (Z.land (mstatus h) (u64 (Z.lnot MSTATUS_MPP_MASK))) MSTATUS_MPP_S)).
  change (mstatus (snd (start main_entry h))) with (Z.lor (Z.ldiff x (Z.lor MSTATUS_MPP_MASK MSTATUS_MIE)) (Z.lor (Z.shiftl 1 7) (if Z.testbit x 7 then MSTATUS_MIE else 0))).
  assert (Hx : Z.testbit x 1 = Z.testbit (mstatus h) 1) by (unfold x; rewrite Hk, mpp_bits by lia; done).
  rewrite !Z.lor_spec, Z.ldiff_spec, Hx. change (Z.testbit (Z.lor MSTATUS_MPP_MASK MSTATUS_MIE) 1) with false. rewrite andb_true_r. destruct (Z.testbit x 7); [change (Z.testbit MSTATUS_MIE 1) with false|]; by rewrite orb_false_r.
Qed.

(** C25. [start] leaves machine mode for [main] as the rest of the kernel
    assumes: supervisor mode at [main] with paging off; the external, timer
    and software interrupts delegated and enabled in [sie] (which only works
    because [mideleg] is written before [sie]), while interrupts of the
    supervisor stay as masked as they were; all of physical memory accessible;
    the timer usable by the supervisor and its first interrupt 1000000 ticks
    away; and [tp] the hart's number, from which [cpuid] is read. *)
Theorem start_correct `{IM : Implemented} (main_entry : Z) (h : hart) (Hsu : supports main_entry) (Hid : 0 <= mhartid h < 2 ^ 31) (Htime : 0 <= mtime h < 2 ^ 63) :
  let h' := snd (start main_entry h) in
  prv h' = Supervisor /\ pc h' = main_entry /\ satp_ h' = 0 /\
  (forall i, i ∈ [1; 5; 9] -> Z.testbit (mideleg h') i = true /\ Z.testbit (fst (r_sie h')) i = true) /\
  medeleg h' = held Fmedeleg 0xffff /\
  Z.testbit (mstatus h') 1 = Z.testbit (mstatus h) 1 /\
  (forall a, 0 <= a < 2 ^ 56 - 4 -> pmp_allows h' a) /\
  Z.testbit (menvcfg h') 63 = true /\ Z.testbit (mcounteren h') 1 = true /\
  stimecmp_ h' = mtime h + 1000000 /\ mtime h' = mtime h /\
  tp_ h' = mhartid h /\ mhartid h' = mhartid h.
Proof.
  destruct Hsu as [[S1 S1'] S2 S3 S4 S5 S6 [S7 S7'] S8 S9]. intros h'.
  assert (Hdel : forall i, i ∈ [1; 5; 9] -> Z.testbit (mideleg h') i = true).
  { intros i Hi. change (mideleg h') with (held Fmideleg 0xffff). rewrite S5 by done. revert Hi. rewrite !elem_of_cons, elem_of_nil. by intros [->|[->|[->|[]]]]. }
  split; [|split; [done|]].
  { change (prv h') with (previous (held Fmstatus (Z.lor (Z.land (mstatus h) (u64 (Z.lnot MSTATUS_MPP_MASK))) MSTATUS_MPP_S))).
    unfold previous. rewrite S1, S1', !mpp_bits by lia. done. }
  split; [exact S4|]. split.
  { intros i Hi. split; [by apply Hdel|]. change (fst (r_sie h')) with (Z.land (mie h') (mideleg h')). rewrite Z.land_spec, Hdel, andb_true_r by done. by apply sie_enabled. }
  split; [done|]. split; [by apply mret_masked|]. split.
  { intros a Ha. unfold pmp_allows. change (pmpcfg0 h') with (held Fpmpcfg 0xf). change (pmpaddr0 h') with (held Fpmpaddr 0x3fffffffffffff). rewrite S7, S7'. repeat split; lia. }
  split; [change (menvcfg h') with (held Fmenvcfg (Z.lor (menvcfg h) (Z.shiftl 1 63))); rewrite S8, Z.lor_spec; by rewrite orb_true_r|].
  split; [change (mcounteren h') with (held Fmcounteren (Z.lor (mcounteren h) 2)); rewrite S9, Z.lor_spec; by rewrite orb_true_r|].
  split; [change (stimecmp_ h') with (u64 (mtime h + 1000000)); apply u64_id; lia|]. split; [done|]. split; [|done].
  change (tp_ h') with (u64 (i32 (mhartid h))). rewrite i32_id by (unfold in_i32; lia). apply u64_id. lia.
Qed.

(** ** An instance *)

(** A hart that implements the bits the kernel uses, and little else. *)
Definition small_hart : Implemented := fun f x =>
  match f with
  | Fmedeleg => Z.land x 0xb3ff
  | Fmideleg | Fmie => Z.land x 0x222
  | Fmepc => Z.ldiff x 1
  | _ => x
  end.

Definition reset : hart := mkHart Machine 0x1000 0 3 (Z.shiftl 3 11) 0 0 0 0 0 0 0 0 0 0 5.

Lemma small_supports : @supports small_hart 0x80000010.
Proof.
  assert (Hk : forall m i, Z.testbit m i = true -> forall x, Z.testbit (Z.land x m) i = Z.testbit x i) by (intros m i Hm x; by rewrite Z.land_spec, Hm, andb_true_r).
  split; try done; intros i Hi x; refine (Hk 0x222 i _ x); revert Hi; rewrite !elem_of_cons, elem_of_nil; by intros [->|[->|[->|[]]]].
Qed.

Lemma start_correct_witness : let h' := snd (@start small_hart 0x80000010 reset) in
  prv h' = Supervisor /\ pc h' = 0x80000010 /\ tp_ h' = 3 /\ stimecmp_ h' = 1000005.
Proof.
  destruct (@start_correct small_hart 0x80000010 reset small_supports) as (H1 & H2 & _ & _ & _ & _ & _ & _ & _ & H3 & _ & H4 & _); [by vm_compute|by vm_compute|].
  cbv zeta in *. split; [exact H1|]. split; [exact H2|]. split; [exact H4|exact H3].
Defined.
