(* ===== verification/Sched.v ===== *)
(** * Processes: scheduling, sleep and wakeup

    Model of the part of [kernel/proc.c] that changes the state of processes
    in the table: [procinit], [myproc], [allocpid], [sched], [yield],
    [sleep], [wakeup], [kill], [killed], [setkilled], [scheduler] and
    [sys_count_zombies].  Creation and exit of processes are in [Proc]. *)
From stdpp Require Import base tactics list numbers gmap strings.
From S2P Require Import Prelude SchedCommon Machine Spinlock.

Open Scope Z_scope.

(** ** Code *)

Definition procinit : M unit :=
  initlock Lpid "nextpid";;
  initlock Lwait "wait_lock";;
  for_each proc_table (fun i =>
    initlock (Lproc i) "proc";;
    set_proc i (fun p => p <| state := UNUSED |>);;
    set_proc i (fun p => p <| kstack := KSTACK (Z.of_nat i) |>)).

Definition myproc : M (option nat) :=
  push_off;;
  c ← mycpu;
  k ← get_cpu c;
  pop_off;;
  mret (cproc k).

(** [myproc()->...]: the current process must exist. *)
Definition curproc : M nat := p ← myproc; or_fault p.

Definition allocpid : M Z :=
  acquire Lpid;;
  pid ← read nextpid;
  modify (fun s => s <| nextpid ::= Z.succ |>);;
  release Lpid;;
  mret pid.

(** [swtch] away from the current thread and back; the registers it saves
    belong to the environment. *)
Definition swtch : M unit := switch_out.

Definition sched : M unit :=
  p ← curproc;
  h ← holding (Lproc p);
  if negb h then panic "sched p->lock"%string
  else
    c ← mycpu;
    k ← get_cpu c;
    if negb (noff k =? 1) then panic "sched locks"%string
    else
      pr ← get_proc p;
      if bool_decide (state pr = RUNNING) then panic "sched running"%string
      else
        on ← intr_get;
        if on : bool then panic "sched interruptible"%string
        else
          let intena_ := intena k in
          swtch;;
          c ← mycpu;
          set_cpu c (fun k => k <| intena := intena_ |>).

Definition yield : M unit :=
  p ← curproc;
  acquire (Lproc p);;
  set_proc p (fun pr => pr <| state := RUNNABLE |>);;
  sched;;
  release (Lproc p).

Definition sleep (ch : chan) (lk : lockid) : M unit :=
  p ← curproc;
  acquire (Lproc p);;
  release lk;;
  set_proc p (fun pr => pr <| pchan := Some ch |>);;
  set_proc p (fun pr => pr <| state := SLEEPING |>);;
  sched;;
  set_proc p (fun pr => pr <| pchan := None |>);;
  release (Lproc p);;
  acquire lk.

(** The body of the loop of [wakeup]. *)
Definition wakeup_body (ch : chan) (i : nat) : M unit :=
  me ← myproc;
  if bool_decide (me = Some i) then mret tt
  else
    acquire (Lproc i);;
    pr ← get_proc i;
    when (bool_decide (state pr = SLEEPING) && bool_decide (pchan pr = Some ch))
      (set_proc i (fun pr => pr <| state := RUNNABLE |>));;
    release (Lproc i).

Definition wakeup (ch : chan) : M unit := for_each proc_table (wakeup_body ch).

(** The body of the loop of [kill]. *)
Definition kill_body (pid_ : Z) (i : nat) : M (option Z) :=
  acquire (Lproc i);;
  pr ← get_proc i;
  if pid pr =? pid_ then
    set_proc i (fun pr => pr <| killed_ := 1 |>);;
    when (bool_decide (state pr = SLEEPING)) (set_proc i (fun pr => pr <| state := RUNNABLE |>));;
    release (Lproc i);;
    mret (Some 0)
  else
    release (Lproc i);;
    mret None.

Definition kill (pid_ : Z) : M Z :=
  r ← for_first proc_table (kill_body pid_);
  mret (default (-1) r).

Definition setkilled (p : nat) : M unit :=
  acquire (Lproc p);;
  set_proc p (fun pr => pr <| killed_ := 1 |>);;
  release (Lproc p).

Definition killed (p : nat) : M Z :=
  acquire (Lproc p);;
  pr ← get_proc p;
  release (Lproc p);;
  mret (killed_ pr).

(** The loop over the table of [scheduler] on hart [c]. *)
Fixpoint scheduler_loop (c : nat) (l : list nat) (found : bool) : M bool :=
  match l with
  | [] => mret found
  | i :: l =>
      acquire (Lproc i);;
      pr ← get_proc i;
      found ← (if bool_decide (state pr = RUNNABLE) then
                 set_proc i (fun pr => pr <| state := RUNNING |>);;
                 set_cpu c (fun k => k <| cproc := Some i |>);;
                 swtch;;
                 set_cpu c (fun k => k <| cproc := None |>);;
                 mret true
               else mret found);
      release (Lproc i);;
      scheduler_loop c l found
  end.

(** One pass of [for(;;)] of [scheduler]: the processes found runnable are
    run one after the other.  The result is [found]; [wfi] only waits. *)
Definition scheduler_pass : M bool :=
  c ← mycpu;
  intr_on;;
  found ← scheduler_loop c proc_table false;
  when (negb found) intr_on;;
  mret found.

(** The loop of [sys_count_zombies]. *)
Fixpoint count_loop (l : list nat) (count : Z) : M Z :=
  match l with
  | [] => mret count
  | i :: l =>
      pr ← get_proc i;
      count_loop l (if bool_decide (state pr = ZOMBIE) then count + 1 else count)
  end.

(** The process table of [sys_count_zombies] is called [ptable] there. *)
Definition sys_count_zombies : M Z :=
  acquire Lptable;;
  count ← count_loop proc_table 0;
  release Lptable;;
  mret count.

(** What [procdump] prints for a process: [None] for a slot it skips. *)
Definition state_name (st : procstate) : string :=
  match st with
  | UNUSED => "unused" | USED => "used" | SLEEPING => "sleep " | RUNNABLE => "runble"
  | RUNNING => "run   " | ZOMBIE => "zombie"
  end.

Definition procdump : M (list (Z * string * bytes)) :=
  s ← read id;
  mret (omap (fun p => if bool_decide (state p = UNUSED) then None
                       else Some (pid p, state_name (state p), name p)) (procs s)).

(** ** Effects *)

Definition cur (s : mach) : option nat := cproc (this_cpu s).

(** The table is complete and its locks are free. *)
Definition table_ready (s : mach) : Prop :=
  hart_ok s /\ length (procs s) = NPROC /\ forall i, (i < NPROC)%nat -> free_lock s (Lproc i).

Lemma myproc_Ret e s : hart_ok s -> myproc e s = Ret (cur s) e (left_off s).
Proof.
  intros (k & Hk & Hok). unfold myproc. rewrite bindE, (push_off_Ret _ _ k) by done.
  unfold mycpu, cpuid. msimp. pose proof (on_cpu_here push_cpu s k Hk) as H1.
  rewrite (get_cpu_Ret _ _ _ H1). rewrite bindE.
  destruct (push_cpu_ok k Hok) as [Hs Hn].
  rewrite (pop_off_Ret _ _ (push_cpu k)) by done. cbn [mret M_ret].
  rewrite on_cpu_on_cpu. unfold cur. by rewrite (this_cpu_Some _ _ Hk).
Qed.

Lemma cur_left_off s : hart_ok s -> cur (left_off s) = cur s.
Proof.
  intros (k & Hk & Hok). unfold cur, left_off.
  rewrite (this_cpu_Some _ _ (on_cpu_here _ _ _ Hk)), (this_cpu_Some _ _ Hk). unfold compose.
  rewrite pop_push_cpu by done. by destruct (noff k =? 0).
Qed.

Lemma get_proc_Ret i e s p : procs s !! i = Some p -> get_proc i e s = Ret p e s.
Proof. intros H. unfold get_proc. msimp. by rewrite H. Qed.

Lemma set_proc_Ret i f e s p :
  procs s !! i = Some p -> set_proc i f e s = Ret tt e (s <| procs ::= alter f i |>).
Proof. intros H. unfold set_proc. rewrite bindE. by rewrite (get_proc_Ret _ _ _ p). Qed.

Lemma table_ready_left_off s : table_ready s -> table_ready (left_off s).
Proof. intros (H1 & H2 & H3). split; [by apply hart_ok_left_off|]. done. Qed.

Lemma table_ready_procs s g :
  (forall l, length (g l) = length l) -> table_ready s -> table_ready (s <| procs ::= g |>).
Proof. intros Hg (H1 & H2 & H3). split; [done|]. split; [cbn; by rewrite Hg|]. done. Qed.

Lemma table_lookup s i : table_ready s -> (i < NPROC)%nat -> exists p, procs s !! i = Some p.
Proof. intros (_ & H & _) Hi. apply lookup_lt_is_Some_2. by rewrite H. Qed.

Lemma procs_update_ext s f g :
  f (procs s) = g (procs s) -> s <| procs ::= f |> = s <| procs ::= g |>.
Proof. intros Hfg. cbn. by rewrite Hfg. Qed.

(** Updating the table one index after the other. *)
Definition update_all {A} (g : nat -> A -> A) (l : list nat) (ps : list A) : list A :=
  foldl (fun ps i => alter (g i) i ps) ps l.

Lemma update_all_cons {A} (g : nat -> A -> A) i l ps :
  update_all g (i :: l) ps = update_all g l (alter (g i) i ps).
Proof. done. Qed.

Lemma update_all_length {A} (g : nat -> A -> A) l ps : length (update_all g l ps) = length ps.
Proof. revert ps. induction l as [|i l IH]; intros ps; [done|].
  rewrite update_all_cons, IH. apply length_alter. Qed.

Lemma update_all_lookup {A} (g : nat -> A -> A) l ps i :
  NoDup l -> update_all g l ps !! i = (if bool_decide (i ∈ l) then g i <$> ps !! i else ps !! i).
Proof.
  revert ps. induction l as [|j l IH]; intros ps Hnd.
  { by rewrite bool_decide_false by by apply not_elem_of_nil. }
  apply list.NoDup_cons in Hnd as [Hj Hnd]. rewrite update_all_cons, IH by done.
  destruct (decide (i = j)) as [->|Hne].
  - rewrite (bool_decide_false (j ∈ l)), (bool_decide_true (j ∈ j :: l)) by (try done; by left).
    apply list_lookup_alter_eq.
  - rewrite list_lookup_alter_ne by done.
    rewrite (bool_decide_ext (i ∈ j :: l) (i ∈ l)); [done|].
    rewrite elem_of_cons. naive_solver.
Qed.

Lemma update_table {A} (g : nat -> A -> A) (ps : list A) :
  length ps = NPROC -> update_all g proc_table ps = imap g ps.
Proof.
  intros Hl. apply list_eq. intros i. unfold proc_table.
  rewrite update_all_lookup by apply NoDup_seq. rewrite list_lookup_imap.
  case_bool_decide as Hi; [done|]. rewrite elem_of_seq in Hi.
  rewrite lookup_ge_None_2 by lia. done.
Qed.

(** A loop over the table whose body updates each process on its own. *)
Lemma for_each_table (body : nat -> M unit) (g : option nat -> nat -> proc -> proc) l e s :
  l <> [] -> Forall (fun i => (i < NPROC)%nat) l -> table_ready s ->
  (forall i e s, (i < NPROC)%nat -> table_ready s ->
     body i e s = Ret tt e (left_off (s <| procs ::= alter (g (cur s) i) i |>))) ->
  for_each l body e s = Ret tt e (left_off (s <| procs ::= update_all (g (cur s)) l |>)).
Proof.
  intros Hne HF Hs Hbody. revert s Hs. induction HF as [|i l Hi HF IH]; intros s Hs; [done|].
  cbn [for_each]. rewrite bindE, Hbody by done.
  set (s1 := s <| procs ::= alter (g (cur s) i) i |>).
  assert (Hs1 : table_ready s1) 
    by (apply table_ready_procs; [intros; apply length_alter|done]).
  assert (Hc1 : cur (left_off s1) = cur s) by (rewrite cur_left_off by apply Hs1; done).
  destruct l as [|j l].
  - cbn [for_each]. done.
  - rewrite IH; [|done|by apply table_ready_left_off]. rewrite Hc1.
    change (left_off s1 <| procs ::= ?h |>) with (left_off (s1 <| procs ::= h |>)).
    rewrite left_off_idem; [done|]. apply Hs1.
Qed.

(** ** Wakeup *)

Definition wake1 (ch : chan) (me : option nat) (i : nat) (p : proc) : proc :=
  if bool_decide (me <> Some i) && bool_decide (state p = SLEEPING) && bool_decide (pchan p = Some ch)
  then p <| state := RUNNABLE |> else p.

Lemma wake1_idem ch me j q : wake1 ch me j (wake1 ch me j q) = wake1 ch me j q.
Proof.
  unfold wake1. destruct (bool_decide (me <> Some j)); [|done]. cbn [andb].
  do 2 (case_bool_decide; cbn [andb]); repeat case_bool_decide; cbn in *; congruence.
Qed.

Lemma alter_id_at {A} (f : A -> A) i (l : list A) x :
  l !! i = Some x -> f x = x -> alter f i l = l.
Proof.
  intros Hi Hf. apply list_eq. intros j. destruct (decide (i = j)) as [->|Hne].
  - rewrite list_lookup_alter_eq, Hi. cbn. by rewrite Hf.
  - by rewrite list_lookup_alter_ne.
Qed.

Lemma wakeup_body_Ret ch i e s :
  (i < NPROC)%nat -> table_ready s ->
  wakeup_body ch i e s =
  Ret tt e (left_off (s <| procs ::= alter (wake1 ch (cur s) i) i |>)).
Proof.
  intros Hi Hs. assert (Hs' := Hs). destruct Hs' as (Hok & Hlen & Hfree).
  destruct (table_lookup s i Hs Hi) as [p Hp].
  unfold wakeup_body. rewrite bindE, myproc_Ret by done.
  destruct (bool_decide (cur s = Some i)) eqn:Hme.
  - apply bool_decide_eq_true in Hme. cbn [mret M_ret]. do 2 f_equal.
    destruct s. cbn in *. f_equal. symmetry. apply (alter_id_at _ _ _ p Hp).
    unfold wake1. rewrite bool_decide_false by (intros ?; done). done.
  - apply bool_decide_eq_false in Hme. rewrite bindE.
    rewrite acquire_Ret by (first [by apply hart_ok_left_off | exact (Hfree i Hi)]). rewrite bindE.
    rewrite enter_left_off by done.
    rewrite (get_proc_Ret i e (enter (Lproc i) s) p) by done. rewrite bindE.
    unfold when. set (s1 := s <| procs ::= alter (wake1 ch (cur s) i) i |>).
    destruct (bool_decide (state p = SLEEPING) && bool_decide (pchan p = Some ch)) eqn:Hb.
    + rewrite (set_proc_Ret i _ e (enter (Lproc i) s) p) by done.
      apply (release_from (Lproc i) e _ s1); [|done|exact (Hfree i Hi)].
      unfold s1, enter, on_cpu. cbn. f_equal. apply list_alter_ext; [|done].
      intros q Hq. simplify_eq. unfold wake1. rewrite bool_decide_true by done.
      cbn [andb]. by rewrite Hb.
    + cbn [mret M_ret]. apply (release_from (Lproc i) e _ s1); [|done|exact (Hfree i Hi)].
      unfold s1, enter, on_cpu. cbn. f_equal. symmetry. apply (alter_id_at _ _ _ p Hp).
      unfold wake1. rewrite bool_decide_true by done. cbn [andb]. by rewrite Hb.
Qed.

Lemma proc_table_lt : Forall (fun i => (i < NPROC)%nat) proc_table.
Proof. apply list.Forall_forall. intros i. unfold proc_table. rewrite elem_of_seq. lia. Qed.

Lemma wakeup_Ret ch e s :
  table_ready s ->
  wakeup ch e s = Ret tt e (left_off (s <| procs ::= imap (wake1 ch (cur s)) |>)).
Proof.
  intros Hs. unfold wakeup.
  rewrite (for_each_table _ (wake1 ch) _ _ _) by
    (done || apply proc_table_lt || (intros; by apply wakeup_body_Ret)).
  do 2 f_equal. apply procs_update_ext, update_table. apply Hs.
Qed.

(** [wakeup] makes runnable exactly the other processes that sleep on
    the channel and changes nothing else: every other process, the locks,
    memory and the interrupt state of the hart are as before. *)
Theorem wakeup_exact (ch : chan) (e : env) (s : mach) :
  table_ready s ->
  exists s', wakeup ch e s = Ret tt e s' /\ table_ready s' /\
    (forall i p, procs s !! i = Some p ->
       procs s' !! i = Some (if bool_decide (cur s <> Some i /\ state p = SLEEPING /\ pchan p = Some ch)
                             then p <| state := RUNNABLE |> else p)) /\
    locks s' = locks s /\ mem s' = mem s /\ files s' = files s /\ pipes s' = pipes s /\
    cur s' = cur s /\ noff (this_cpu s') = noff (this_cpu s) /\ sie (this_cpu s') = sie (this_cpu s).
Proof.
  intros Hs. rewrite wakeup_Ret by done. eexists. split; [done|].
  set (s1 := s <| procs ::= imap (wake1 ch (cur s)) |>).
  assert (Hs1 : table_ready s1) by (apply table_ready_procs; [intros; apply length_imap|done]).
  split; [by apply table_ready_left_off|]. split.
  - intros i p Hp. cbn. rewrite list_lookup_imap, Hp. cbn. unfold wake1. f_equal.
    repeat case_bool_decide; cbn; naive_solver.
  - do 4 (split; [done|]). split; [rewrite cur_left_off by apply Hs1; done|].
    destruct Hs as ((k & Hk & Hok) & _). assert (Hk1 : cpus s1 !! tp s1 = Some k) by done.
    unfold left_off. rewrite (this_cpu_Some _ _ (on_cpu_here _ _ _ Hk1)), (this_cpu_Some _ _ Hk).
    by apply pop_push_same.
Qed.

(** ** Kill *)

Definition kill1 (p : proc) : proc :=
  let p := p <| killed_ := 1 |> in
  if bool_decide (state p = SLEEPING) then p <| state := RUNNABLE |> else p.

Lemma kill_body_Ret pid_ i e s p :
  table_ready s -> (i < NPROC)%nat -> procs s !! i = Some p ->
  kill_body pid_ i e s =
  if pid p =? pid_ then Ret (Some 0) e (left_off (s <| procs ::= alter kill1 i |>))
  else Ret None e (left_off s).
Proof.
  intros (Hok & Hlen & Hfree) Hi Hp. unfold kill_body.
  rewrite bindE, acquire_Ret by auto. rewrite bindE.
  rewrite (get_proc_Ret i e (enter (Lproc i) s) p) by done.
  destruct (pid p =? pid_).
  - rewrite bindE, (set_proc_Ret i _ e (enter (Lproc i) s) p) by done. rewrite bindE.
    set (f := fun pr : proc => pr <| killed_ := 1 |>). unfold when.
    destruct (bool_decide (state p = SLEEPING)) eqn:Hb.
    + rewrite (set_proc_Ret i _ e _ (f p)) by by apply lookup_alter_here.
      rewrite bindE, (release_from (Lproc i) e _ (s <| procs ::= alter kill1 i |>));
        [done| |done|exact (Hfree i Hi)].
      unfold enter, on_cpu. cbn. f_equal. rewrite list_alter_alter_eq.
      apply list_alter_ext; [|done]. intros q Hq. simplify_eq. unfold kill1, f. cbn.
      by rewrite Hb.
    + cbn [mret M_ret].
      rewrite bindE, (release_from (Lproc i) e _ (s <| procs ::= alter kill1 i |>));
        [done| |done|exact (Hfree i Hi)].
      unfold enter, on_cpu. cbn. f_equal.
      apply list_alter_ext; [|done]. intros q Hq. simplify_eq. unfold kill1, f. cbn. by rewrite Hb.
  - rewrite bindE, (release_enter (Lproc i) e s) by auto. done.
Qed.

(** The first process with a given identifier. *)
Definition first_pid (ps : list proc) (pid_ : Z) : option nat := find_loop pid ps 0 pid_.

Lemma kill_loop pid_ n k e s :
  (k + n = NPROC)%nat -> table_ready s ->
  for_first (seq k n) (kill_body pid_) e s =
  match find_loop pid (drop k (procs s)) k pid_ with
  | Some i => Ret (Some 0) e (left_off (s <| procs ::= alter kill1 i |>))
  | None => Ret None e (if (n =? 0)%nat then s else left_off s)
  end.
Proof.
  revert k s. induction n as [|n IH]; intros k s Hk Hs.
  - destruct Hs as (_ & Hlen & _). rewrite drop_ge by lia. done.
  - destruct (table_lookup s k Hs ltac:(lia)) as [p Hp].
    cbn [seq for_first]. rewrite bindE, (kill_body_Ret pid_ k e s p) by (done || lia).
    rewrite (drop_S _ p k) by done. cbn [find_loop].
    destruct (pid p =? pid_); [done|]. rewrite IH by (lia || by apply table_ready_left_off).
    change (procs (left_off s)) with (procs s).
    destruct (find_loop pid (drop (S k) (procs s)) (S k) pid_) as [i|].
    + change (left_off s <| procs ::= ?h |>) with (left_off (s <| procs ::= h |>)).
      by rewrite left_off_idem by apply Hs.
    + destruct n; cbn [Nat.eqb]; [done|]. by rewrite left_off_idem by apply Hs.
Qed.

Lemma kill_Ret pid_ e s :
  table_ready s ->
  kill pid_ e s =
  match first_pid (procs s) pid_ with
  | Some i => Ret 0 e (left_off (s <| procs ::= alter kill1 i |>))
  | None => Ret (-1) e (left_off s)
  end.
Proof.
  intros Hs. unfold kill. rewrite bindE.
  change proc_table with (seq 0 NPROC).
  rewrite kill_loop by done. unfold first_pid. rewrite drop_0.
  by destruct (find_loop pid (procs s) 0 pid_).
Qed.

(** [kill] marks the first process with the identifier as killed, makes
    it runnable if it sleeps so that it can notice, and returns 0; when no
    process has the identifier it returns -1 and changes nothing. *)
Theorem kill_correct (pid_ : Z) (e : env) (s : mach) :
  table_ready s ->
  (exists i p s', kill pid_ e s = Ret 0 e s' /\ procs s !! i = Some p /\ pid p = pid_ /\
     (forall j q, (j < i)%nat -> procs s !! j = Some q -> pid q <> pid_) /\
     procs s' !! i = Some (p <| killed_ := 1 |>
       <| state := if bool_decide (state p = SLEEPING) then RUNNABLE else state p |>) /\
     (forall j, j <> i -> procs s' !! j = procs s !! j) /\ locks s' = locks s) \/
  (exists s', kill pid_ e s = Ret (-1) e s' /\ procs s' = procs s /\ locks s' = locks s /\
     Forall (fun p => pid p <> pid_) (procs s)).
Proof.
  intros Hs. rewrite kill_Ret by done. destruct (first_pid (procs s) pid_) as [i|] eqn:Hf.
  - left. apply find_loop_first in Hf as (p & Hp & Hpid & Hbefore).
    eexists i, p, _. split; [done|]. split; [done|]. split; [done|]. split; [done|].
    split; [|split; [|done]].
    + cbn. rewrite list_lookup_alter_eq, Hp. cbn. unfold kill1. f_equal. cbn.
      by case_bool_decide.
    + intros j Hj. cbn. by rewrite list_lookup_alter_ne.
  - right. eexists. split; [done|]. split; [done|]. split; [done|].
    by apply find_loop_None in Hf.
Qed.

(** ** Counting zombies *)

Definition zombies (ps : list proc) : nat := length (filter (fun p => state p = ZOMBIE) ps).

Lemma count_loop_Ret n k count e s :
  (k + n = length (procs s))%nat ->
  count_loop (seq k n) count e s = Ret (count + Z.of_nat (zombies (drop k (procs s)))) e s.
Proof.
  revert k count. induction n as [|n IH]; intros k count Hk.
  - rewrite drop_ge by lia. cbn. unfold mret, M_ret. f_equal. lia.
  - destruct (lookup_lt_is_Some_2 (procs s) k) as [p Hp]; [lia|].
    cbn [seq count_loop]. rewrite bindE, (get_proc_Ret k e s p) by done.
    rewrite IH by lia. rewrite (drop_S _ p k) by done. unfold zombies.
    rewrite filter_cons. case_bool_decide; case_decide; try done; cbn [length]; f_equal; lia.
Qed.

(** [sys_count_zombies] returns the number of processes in the ZOMBIE
    state, at most NPROC, and leaves the process table and the locks as they
    were. *)
Theorem count_zombies_correct (e : env) (s : mach) :
  hart_ok s -> free_lock s Lptable -> length (procs s) = NPROC ->
  exists s', sys_count_zombies e s = Ret (Z.of_nat (zombies (procs s))) e s' /\
    (zombies (procs s) <= NPROC)%nat /\ procs s' = procs s /\ locks s' = locks s.
Proof.
  intros Hok Hfree Hlen. unfold sys_count_zombies.
  rewrite bindE, acquire_Ret by done. rewrite bindE. unfold proc_table.
  rewrite count_loop_Ret by (cbn [enter on_cpu procs update_with]; lia).
  rewrite bindE, release_enter by done. cbn [mret M_ret]. eexists. split; [done|].
  split; [|done]. unfold zombies. rewrite length_filter. lia.
Qed.

(** ** Sched and sleep *)

(** The conditions under which a thread may call [sched]: it runs process
    [p], holds the lock of [p] and no other, with interrupts off. *)
Record at_sched (s : mach) (p : nat) (k : cpu) : Prop := mkAtSched {
  as_cpu : cpus s !! tp s = Some k;
  as_proc : cproc k = Some p;
  as_noff : noff k = 1;
  as_sie : sie k = false;
  as_lock : exists n, locks s !! Lproc p = Some (mkSpinlock 1 n (Some (tp s)))
}.

Lemma nested_left_off s k : cpus s !! tp s = Some k -> noff k = 1 -> sie k = false -> left_off s = s.
Proof. intros Hk Hn Hs. apply (left_off_nested s k); [done|split; [lia|done]|lia]. Qed.

Lemma curproc_Ret e s k p :
  cpus s !! tp s = Some k -> noff k = 1 -> sie k = false -> cproc k = Some p ->
  curproc e s = Ret p e s.
Proof.
  intros Hk Hn Hs Hp. unfold curproc. rewrite bindE, myproc_Ret.
  - unfold cur. rewrite (this_cpu_Some _ _ Hk), Hp, (nested_left_off s k) by done. done.
  - exists k. split; [done|]. split; [lia|done].
Qed.

Lemma sched_switch e s p k pr :
  at_sched s p k -> procs s !! p = Some pr -> state pr <> RUNNING ->
  sched e s =
  match e with
  | [] => Blocked s
  | f :: e => (c ← mycpu; set_cpu c (fun c => c <| intena := intena k |>)) e (f s)
  end.
Proof.
  intros [Hk Hp Hn Hs [n Hl]] Hpr Hst. unfold sched.
  rewrite bindE, (curproc_Ret e s k p) by done. rewrite bindE.
  unfold holding, mycpu, cpuid. msimp. rewrite (lock_of_Some _ _ _ Hl). cbn [locked lcpu].
  rewrite bool_decide_true by done. change (negb (negb (1 =? 0) && true)) with false. cbn match.
  msimp. rewrite (get_cpu_Ret _ _ k) by done. rewrite Hn. change (negb (1 =? 1)) with false.
  cbn match. rewrite bindE, (get_proc_Ret p e s pr) by done. rewrite bool_decide_false by done.
  rewrite bindE. unfold intr_get, cpuid. msimp. rewrite (get_cpu_Ret _ _ k) by done.
  cbn [mret M_ret]. rewrite Hs. rewrite bindE. unfold swtch, switch_out. by destruct e.
Qed.

(** The state in which a sleeping process is switched out. *)
Definition parked (ch : chan) (lk : lockid) (n : string) (p : nat) (s : mach) : mach :=
  s <| locks ::= fun m => <[lk := mkSpinlock 0 n None]>
                            (<[Lproc p := held (tp s) (lock_of s (Lproc p))]> m) |>
    <| procs ::= alter (fun pr => pr <| pchan := Some ch |> <| state := SLEEPING |>) p |>.

(** [sleep] up to the point where it calls [sched]. *)
Lemma sleep_parks ch lk n e s p k pr :
  cpus s !! tp s = Some k -> cproc k = Some p -> noff k = 1 -> sie k = false ->
  locks s !! lk = Some (mkSpinlock 1 n (Some (tp s))) -> lk <> Lproc p ->
  free_lock s (Lproc p) -> procs s !! p = Some pr ->
  sleep ch lk e s =
  (sched;;
   set_proc p (fun pr => pr <| pchan := None |>);;
   release (Lproc p);;
   acquire lk) e (parked ch lk n p s).
Proof.
  intros Hk Hp Hn Hs Hl Hne Hfree Hpr.
  assert (Hok : hart_ok s) by (exists k; split; [done|]; split; [lia|done]).
  unfold sleep. rewrite bindE, (curproc_Ret e s k p) by done.
  rewrite bindE, acquire_Ret by done. rewrite bindE.
  destruct (push_cpu_ok k) as [Hs' Hn']; [by split; [lia|done]|].
  rewrite (release_Ret lk e (enter (Lproc p) s) (push_cpu k) n).
  - set (s2 := _ <| locks ::= _ |>).
    assert (H2 : s2 = s <| locks ::= fun m => <[lk := mkSpinlock 0 n None]>
                            (<[Lproc p := held (tp s) (lock_of s (Lproc p))]> m) |>).
    { unfold s2, enter, on_cpu. cbn. rewrite list_alter_alter_eq. destruct s. cbn in *. f_equal.
      apply (alter_id_at _ _ _ k Hk). unfold compose. apply pop_push_nested; [|lia].
      split; [lia|done]. }
    rewrite H2. clear s2 H2.
    rewrite bindE, (set_proc_Ret p _ e _ pr) by done. rewrite bindE.
    rewrite (set_proc_Ret p _ e _ (pr <| pchan := Some ch |>)) by by apply lookup_alter_here.
    unfold parked. cbn. rewrite list_alter_alter_eq. done.
  - by apply (on_cpu_here push_cpu).
  - done.
  - done.
  - cbn. rewrite lookup_insert_ne by done. exact Hl.
Qed.

Lemma pop_cpu_ok_at_one c i :
  noff c = 1 -> sie c = false -> cpu_ok (pop_cpu (c <| intena := i |>)) /\
  noff (pop_cpu (c <| intena := i |>)) = 0 /\ cproc (pop_cpu (c <| intena := i |>)) = cproc c.
Proof.
  intros Hn Hs. destruct c as [pr cx n j si]. cbn in *. subst. unfold pop_cpu, cpu_ok. cbn.
  destruct i; cbn; repeat split; try done; lia.
Qed.

(** [sleep] from the moment the thread is resumed in state [s2]. *)
Lemma sleep_resumes lk e s2 p k2 pr2 i :
  at_sched s2 p k2 -> procs s2 !! p = Some pr2 -> free_lock s2 lk -> lk <> Lproc p ->
  exists s3,
    (c ← mycpu;
     set_cpu c (fun c => c <| intena := i |>);;
     set_proc p (fun pr => pr <| pchan := None |>);;
     release (Lproc p);;
     acquire lk) e s2 = Ret tt e s3 /\
    procs s3 = alter (fun pr => pr <| pchan := None |>) p (procs s2) /\
    free_lock s3 (Lproc p) /\ held_by s3 lk = Some (tp s2) /\ tp s3 = tp s2 /\
    noff (this_cpu s3) = 1 /\ cur s3 = Some p /\ pipes s3 = pipes s2 /\ mem s3 = mem s2 /\
    sleeplocks s3 = sleeplocks s2 /\ ticks s3 = ticks s2 /\
    exists u n, s3 = enter lk u /\ hart_ok u /\ cur u = Some p /\ noff (this_cpu u) = 0 /\
      u = s2 <| cpus := cpus u |> <| procs ::= alter (fun pr => pr <| pchan := None |>) p |>
             <| locks ::= <[Lproc p := mkSpinlock 0 n None]> |>.
Proof.
  intros [Hk Hp Hn Hs [n Hl]] Hpr [m Hf] Hne. unfold mycpu, cpuid. rewrite bindE. cbn [read].
  rewrite bindE, (set_cpu_Ret _ _ _ k2) by done. rewrite bindE.
  set (g := fun c : cpu => c <| intena := i |>).
  rewrite (set_proc_Ret p _ e (on_cpu g s2) pr2) by done. rewrite bindE.
  pose proof (on_cpu_here g s2 k2 Hk) as H1.
  rewrite (release_Ret (Lproc p) e (on_cpu g s2 <| procs ::= alter (fun pr => pr <| pchan := None |>) p |>)
             (g k2) n); [|exact H1|done|cbn; lia|exact Hl].
  destruct (pop_cpu_ok_at_one k2 i Hn Hs) as (Hok & Hn0 & Hcp).
  change (k2 <| intena := i |>) with (g k2) in *.
  set (s3 := _ <| locks ::= _ |>).
  assert (H3 : cpus s3 !! tp s3 = Some (pop_cpu (g k2))).
  { unfold s3, on_cpu. cbn. rewrite list_alter_alter_eq. by apply (lookup_alter_here (pop_cpu ∘ g)). }
  assert (Hf3 : free_lock s3 lk).
  { exists m. unfold s3. cbn. by rewrite lookup_insert_ne. }
  rewrite acquire_Ret by (first [by exists (pop_cpu (g k2)) | done]).
  pose proof (on_cpu_here push_cpu s3 _ H3) as H4.
  assert (Ht : this_cpu (enter lk s3) = push_cpu (pop_cpu (g k2))) by exact (this_cpu_Some _ _ H4).
  exists (enter lk s3). split; [done|]. split; [done|].
  split; [exists n; unfold s3; cbn; rewrite lookup_insert_ne by done; by rewrite lookup_insert_eq|].
  split; [unfold held_by, lock_of; cbn; by rewrite lookup_insert_eq|]. split; [done|].
  split; [rewrite Ht; change (noff (push_cpu ?c)) with (Z.succ (noff c)); rewrite Hn0; done|].
  split; [unfold cur; rewrite Ht; change (cproc (push_cpu ?c)) with (cproc c); by rewrite Hcp|].
  repeat (split; [done|]). exists s3, n. split; [done|]. split; [by exists (pop_cpu (g k2))|].
  split; [unfold cur; rewrite (this_cpu_Some _ _ H3); by rewrite Hcp|]. split; [by rewrite (this_cpu_Some _ _ H3)|]. done.
Qed.


(** A thread that holds other locks besides its own when it calls [sched]
    panics. *)
Lemma sched_locks_panic e s p k n :
  cpus s !! tp s = Some k -> cproc k = Some p -> 1 < noff k -> sie k = false ->
  locks s !! Lproc p = Some (mkSpinlock 1 n (Some (tp s))) ->
  sched e s = Panic "sched locks" s.
Proof.
  intros Hk Hp Hn Hs Hl. unfold sched.
  assert (Hok : cpu_ok k) by (split; [lia|done]).
  assert (Hcur : curproc e s = Ret p e s).
  { unfold curproc. rewrite bindE, myproc_Ret by by exists k.
    unfold cur. rewrite (this_cpu_Some _ _ Hk), Hp, (left_off_nested s k) by (done || lia). done. }
  rewrite bindE, Hcur. rewrite bindE.
  unfold holding, mycpu, cpuid. msimp. rewrite (lock_of_Some _ _ _ Hl). cbn [locked lcpu].
  rewrite bool_decide_true by done. change (negb (negb (1 =? 0) && true)) with false. cbn match.
  msimp. rewrite (get_cpu_Ret _ _ k) by done.
  destruct (Z.eqb_spec (noff k) 1); [lia|]. done.
Qed.

(** The same thread when the environment resumes it: it goes on inside the
    critical section of [lk], with what the environment left. *)
Lemma sleep_wakes ch lk s p pr f e :
  table_ready s -> cur s = Some p -> procs s !! p = Some pr -> free_lock s lk ->
  (forall i, lk <> Lproc i) -> noff (this_cpu s) = 0 ->
  exists n, let t := parked ch lk n p (enter lk s) in
    sleep ch lk [] (enter lk s) = Blocked t /\ free_lock t lk /\
    procs t !! p = Some (pr <| pchan := Some ch |> <| state := SLEEPING |>) /\
    (forall k2 pr2, at_sched (f t) p k2 -> procs (f t) !! p = Some pr2 -> free_lock (f t) lk ->
      exists u m, sleep ch lk (f :: e) (enter lk s) = Ret tt e (enter lk u) /\
        hart_ok u /\ cur u = Some p /\ noff (this_cpu u) = 0 /\
        u = f t <| cpus := cpus u |> <| procs ::= alter (fun pr => pr <| pchan := None |>) p |>
               <| locks ::= <[Lproc p := mkSpinlock 0 m None]> |>).
Proof.
  intros Hs Hcur Hp Hl Hne Hn.
  destruct Hs as ((k & Hk & Hok) & Hlen & Hfp). destruct Hl as [n Hl].
  assert (Hlt : (p < NPROC)%nat) by (rewrite <- Hlen; by eapply lookup_lt_Some).
  unfold cur in Hcur. rewrite (this_cpu_Some _ _ Hk) in Hcur, Hn. set (t := parked ch lk n p (enter lk s)).
  set (pr1 := pr <| pchan := Some ch |> <| state := SLEEPING |>).
  assert (Hp1 : procs t !! p = Some pr1) by (unfold t, parked; cbn; by rewrite list_lookup_alter_eq, Hp).
  assert (Has : at_sched t p (push_cpu k)).
  { destruct (Hfp p Hlt) as [m Hm]. split; [by apply (on_cpu_here push_cpu)|done| |done|].
    - change (noff (push_cpu k)) with (Z.succ (noff k)). lia.
    - exists m. unfold t, parked. cbn. rewrite lookup_insert_ne, lookup_insert_eq by done.
      unfold held, lock_of. cbn. by rewrite lookup_insert_ne, Hm. }
  assert (E : forall e, sleep ch lk e (enter lk s) = (sched;; set_proc p (fun pr => pr <| pchan := None |>);; release (Lproc p);; acquire lk) e t).
  { intros e'. apply (sleep_parks ch lk n e' (enter lk s) p (push_cpu k) pr); try done.
    - by apply (on_cpu_here push_cpu).
    - change (noff (push_cpu k)) with (Z.succ (noff k)). lia.
    - cbn. rewrite lookup_insert_eq. unfold held, lock_of. by rewrite Hl.
    - apply free_lock_enter; [done|]. by apply Hfp. }
  exists n. cbn zeta. fold t. split; [by rewrite E, bindE, (sched_switch [] t p (push_cpu k) pr1)|].
  split; [exists n; unfold t, parked; cbn; by rewrite lookup_insert_eq|]. split; [done|].
  intros k2 pr2 Has2 Hpr2 Hfree2. rewrite E, bindE, (sched_switch (f :: e) t p (push_cpu k) pr1) by done.
  destruct (sleep_resumes lk e (f t) p k2 pr2 (intena (push_cpu k)) Has2 Hpr2 Hfree2 (Hne p))
    as (s3 & H1 & _ & _ & _ & _ & _ & _ & _ & _ & _ & _ & u & m & -> & Hu1 & Hu2 & Hu3 & Hu4).
  exists u, m. split; [exact H1|done].
Qed.

(** ** A concrete machine

    One hart that runs process 0; process 1 sleeps until the next clock
    tick, process 2 is a zombie child of process 0; every other slot is
    unused and every lock is free. *)

Definition free_locks : gmap lockid spinlock :=
  list_to_map (((fun l => (l, mkSpinlock 0 "lock" None)) <$>
                 [Lkmem; Lpid; Lwait; Lticks; Lftable; Lptable; Lbcache; Llog; Litable]) ++
               ((fun i => (Lproc i, mkSpinlock 0 "proc" None)) <$> proc_table)).

Definition context0 : context := mkContext 0 0 (replicate 12 0).

Definition proc0 : proc :=
  mkProc UNUSED None 0 0 0 None 0 0 0 0 context0 (replicate NOFILE None) None ∅ 0 0 0.

Definition running : proc := proc0 <| state := RUNNING |> <| pid := 1 |>.
Definition sleeper : proc :=
  proc0 <| state := SLEEPING |> <| pchan := Some ChTicks |> <| pid := 2 |> <| parent := Some 0%nat |>.
Definition zombie : proc :=
  proc0 <| state := ZOMBIE |> <| pid := 3 |> <| xstate := 7 |> <| parent := Some 0%nat |>.

Definition machine0 : mach :=
  mkMach 0 [mkCpu (Some 0%nat) context0 0 false true csrs0] free_locks ∅ 0 0
    (running :: sleeper :: zombie :: replicate 61 proc0) None 4 0 [] ∅
    (replicate NFILE (mkFile FD_NONE 0 0 0 0 None 0 0)) []
    no_bcache no_log no_superblock [] no_devices.

Definition is_free (s : mach) (lk : lockid) : bool :=
  match locks s !! lk with
  | Some l => (locked l =? 0) && bool_decide (lcpu l = None)
  | None => false
  end.

Lemma is_free_sound s lk : is_free s lk = true -> free_lock s lk.
Proof.
  unfold is_free, free_lock. destruct (locks s !! lk) as [[a n c]|]; [|done]. cbn.
  intros [Ha%Z.eqb_eq Hc%bool_decide_eq_true]%andb_true_iff. subst. eauto.
Qed.

Lemma table_locks_free s :
  forallb (fun i => is_free s (Lproc i)) proc_table = true ->
  forall i, (i < NPROC)%nat -> free_lock s (Lproc i).
Proof.
  intros Hall i Hi. apply is_free_sound. rewrite forallb_forall in Hall. apply Hall.
  apply in_seq. lia.
Qed.

Lemma machine0_ready : table_ready machine0.
Proof.
  split; [|split].
  - eexists. split; [reflexivity|]. split; [cbn; lia|]. cbn. lia.
  - reflexivity.
  - apply table_locks_free. vm_compute. reflexivity.
Qed.

Lemma wakeup_exact_witness :
  exists s', wakeup ChTicks [] machine0 = Ret tt [] s' /\
    procs s' !! 1%nat = Some (sleeper <| state := RUNNABLE |>) /\ locks s' = locks machine0.
Proof.
  destruct (wakeup_exact ChTicks [] machine0 machine0_ready)
    as (s' & H1 & _ & H2 & H3 & _).
  exists s'. split; [exact H1|]. split; [|exact H3].
  rewrite (H2 1%nat sleeper eq_refl). reflexivity.
Defined.

Lemma kill_correct_witness :
  exists i p s', kill 2 [] machine0 = Ret 0 [] s' /\ procs machine0 !! i = Some p /\ pid p = 2.
Proof.
  destruct (kill_correct 2 [] machine0 machine0_ready)
    as [(i & p & s' & H1 & H2 & H3 & _)|(s' & _ & _ & _ & HF)].
  - exists i, p, s'. auto.
  - exfalso. apply (Forall_lookup_1 _ _ 1%nat sleeper HF); reflexivity.
Defined.

Lemma count_zombies_correct_witness :
  exists s', sys_count_zombies [] machine0 = Ret 1 [] s' /\ procs s' = procs machine0.
Proof.
  destruct (count_zombies_correct [] machine0) as (s' & H1 & _ & H2 & _).
  - apply machine0_ready.
  - apply is_free_sound. vm_compute. reflexivity.
  - reflexivity.
  - exists s'. auto.
Defined.

(** Process 0 inside the critical section of the clock. *)
Definition machine_ticks : mach :=
  machine0 <| cpus := [mkCpu (Some 0%nat) context0 1 true false csrs0] |>
    <| locks ::= <[Lticks := mkSpinlock 1 "time" (Some 0%nat)]> |>.


(** ** Facts for the clients *)

Lemma killed_Ret p e s pr :
  table_ready s -> (p < NPROC)%nat -> procs s !! p = Some pr ->
  killed p e s = Ret (killed_ pr) e (left_off s).
Proof.
  intros (Hok & _ & Hfree) Hp Hpr. unfold killed. rewrite bindE, acquire_Ret by auto.
  rewrite bindE, (get_proc_Ret p e (enter (Lproc p) s) pr) by done.
  by rewrite bindE, release_enter by auto.
Qed.

Lemma curproc_ready e s p :
  hart_ok s -> cur s = Some p -> curproc e s = Ret p e (left_off s).
Proof. intros Hok Hc. unfold curproc. rewrite bindE, myproc_Ret by done. by rewrite Hc. Qed.

Lemma table_ready_enter lk s :
  (forall i, lk <> Lproc i) -> table_ready s -> table_ready (enter lk s).
Proof.
  intros Hne (H1 & H2 & H3). split; [by apply hart_ok_enter|]. split; [done|].
  intros i Hi. by apply free_lock_enter; [apply Hne|apply H3].
Qed.

Lemma cur_enter lk s : hart_ok s -> cur (enter lk s) = cur s.
Proof.
  intros (k & Hk & Hok). unfold cur.
  rewrite (this_cpu_Some (enter lk s) (push_cpu k)) by by apply (on_cpu_here push_cpu).
  by rewrite (this_cpu_Some _ _ Hk).
Qed.

(** A thread that sleeps on [ch] inside the critical section of [lk], and is
    never resumed, is left in the table as a sleeper, with [lk] free. *)
Lemma sleep_blocks ch lk s p pr :
  table_ready s -> cur s = Some p -> procs s !! p = Some pr -> free_lock s lk ->
  (forall i, lk <> Lproc i) -> noff (this_cpu s) = 0 ->
  exists n, let t := parked ch lk n p (enter lk s) in
    sleep ch lk [] (enter lk s) = Blocked t /\ free_lock t lk /\
    procs t !! p = Some (pr <| pchan := Some ch |> <| state := SLEEPING |>).
Proof.
  intros ((k & Hk & Hok) & Hlen & Hfp) Hcur Hp [n Hfree] Hne Hn.
  rewrite (this_cpu_Some _ _ Hk) in Hn. unfold cur in Hcur. rewrite (this_cpu_Some _ _ Hk) in Hcur.
  assert (Hlt : (p < NPROC)%nat) by (rewrite <- Hlen; by eapply lookup_lt_Some).
  set (pr1 := pr <| pchan := Some ch |> <| state := SLEEPING |>).
  assert (Hp1 : procs (parked ch lk n p (enter lk s)) !! p = Some pr1).
  { unfold parked. cbn. by rewrite list_lookup_alter_eq, Hp. }
  exists n. cbn zeta. split; [|split; [|done]].
  - rewrite (sleep_parks ch lk n [] (enter lk s) p (push_cpu k) pr).
    + rewrite bindE. rewrite (sched_switch [] _ p (push_cpu k) pr1); [done| |done|done].
      destruct (Hfp p Hlt) as [m Hm]. split.
      * by apply (on_cpu_here push_cpu).
      * done.
      * change (noff (push_cpu k)) with (Z.succ (noff k)). lia.
      * done.
      * exists m. unfold parked. cbn. rewrite lookup_insert_ne, lookup_insert_eq by done.
        unfold held, lock_of. cbn. by rewrite lookup_insert_ne, Hm.
    + by apply (on_cpu_here push_cpu).
    + done.
    + change (noff (push_cpu k)) with (Z.succ (noff k)). lia.
    + done.
    + cbn. rewrite lookup_insert_eq. unfold held, lock_of. by rewrite Hfree.
    + done.
    + apply free_lock_enter; [done|]. by apply Hfp.
    + done.
  - exists n. unfold parked. cbn. by rewrite lookup_insert_eq.
Qed.
