(* ===== verification/Uart.v ===== *)
(** * The serial line

    Model of [kernel/uart.c].  The registers of the device are the fields
    [rhr], [tx_busy] and [uwrites] of [serial]; [uartintr] is in [Console],
    which it calls. *)
From stdpp Require Import base tactics list numbers gmap strings.
From S2P Require Import Prelude Machine Spinlock Wp Vm Sched.

Open Scope Z_scope.

(** ** Registers *)

Definition RHR : Z := 0.
Definition THR : Z := 0.
Definition IER : Z := 1.
Definition IER_RX_ENABLE : Z := Z.shiftl 1 0.
Definition IER_TX_ENABLE : Z := Z.shiftl 1 1.
Definition FCR : Z := 2.
Definition FCR_FIFO_ENABLE : Z := Z.shiftl 1 0.
Definition FCR_FIFO_CLEAR : Z := Z.shiftl 3 1.
Definition LCR : Z := 3.
Definition LCR_EIGHT_BITS : Z := Z.shiftl 3 0.
Definition LCR_BAUD_LATCH : Z := Z.shiftl 1 7.
Definition LSR_RX_READY : Z := Z.shiftl 1 0.
Definition LSR_TX_IDLE : Z := Z.shiftl 1 5.

Definition set_serial (f : uart -> uart) : M unit := modify (fun s => s <| io ::= fun d => d <| serial ::= f |> |>).
Definition get_serial : M uart := read (fun s => serial (io s)).

Definition WriteReg (reg v : Z) : M unit := set_serial (fun u => u <| uwrites ::= cons (reg, u8 v) |>).

(** [ReadReg(LSR)]. *)
Definition read_LSR : M Z :=
  u ← get_serial;
  set_serial (fun u => u <| tx_busy ::= tail |>);;
  mret (Z.lor (match rhr u with [] => 0 | _ => LSR_RX_READY end)
              (match tx_busy u with true :: _ => 0 | _ => LSR_TX_IDLE end)).

(** [ReadReg(RHR)]. *)
Definition read_RHR : M Z :=
  u ← get_serial;
  set_serial (fun u => u <| rhr ::= tail |>);;
  mret (default 0 (head (rhr u))).

(** [for(;;);] *)
Definition hang {A} : M A := fun _ s => Blocked s.

(** ** Code *)

Definition UART_TX_BUF_SIZE : Z := 32.
Definition tx_slot (x : Z) : nat := Z.to_nat (x mod UART_TX_BUF_SIZE).

Definition uartinit : M unit :=
  WriteReg IER 0;;
  WriteReg LCR LCR_BAUD_LATCH;;
  WriteReg 0 3;;
  WriteReg 1 0;;
  WriteReg LCR LCR_EIGHT_BITS;;
  WriteReg FCR (Z.lor FCR_FIFO_ENABLE FCR_FIFO_CLEAR);;
  WriteReg IER (Z.lor IER_TX_ENABLE IER_RX_ENABLE);;
  initlock Luart "uart".

Section uart.
Context (fuel : nat).

(** One iteration of the loop of [uartstart]. *)
Definition uartstart_step (_ : unit) : M (unit + unit) :=
  u ← get_serial;
  if uart_tx_w u =? uart_tx_r u then mret (inr tt)
  else
    lsr ← read_LSR;
    if Z.land lsr LSR_TX_IDLE =? 0 then mret (inr tt)
    else
      c ← or_fault (uart_tx_buf u !! tx_slot (uart_tx_r u));
      set_serial (fun u => u <| uart_tx_r ::= fun r => u64 (r + 1) |>);;
      wakeup ChUart;;
      WriteReg THR c;;
      mret (inl tt).

Definition uartstart : M unit := loop fuel uartstart_step tt.

(** The loop of [uartputc] that waits for space. *)
Definition uartputc_wait (_ : unit) : M (unit + unit) :=
  u ← get_serial;
  if uart_tx_w u =? u64 (uart_tx_r u + UART_TX_BUF_SIZE) then sleep ChUart Luart;; mret (inl tt)
  else mret (inr tt).

(** [uart_tx_buf[uart_tx_w % UART_TX_BUF_SIZE] = c; uart_tx_w += 1;] *)
Definition tx_put (c : Z) (u : uart) : uart :=
  u <| uart_tx_buf ::= <[tx_slot (uart_tx_w u) := u8 c]> |> <| uart_tx_w ::= fun w => u64 (w + 1) |>.

Definition uartputc (c : Z) : M unit :=
  acquire Luart;;
  p ← read (fun s => panicked (io s));
  if negb (p =? 0) then hang
  else
    loop fuel uartputc_wait tt;;
    set_serial (tx_put c);;
    uartstart;;
    release Luart.

Definition uartputc_sync (c : Z) : M unit :=
  push_off;;
  p ← read (fun s => panicked (io s));
  if negb (p =? 0) then hang
  else
    loop fuel (fun _ : unit => lsr ← read_LSR; mret (if Z.land lsr LSR_TX_IDLE =? 0 then inl tt else inr tt)) tt;;
    WriteReg THR c;;
    pop_off.

End uart.

Definition uartgetc : M Z :=
  lsr ← read_LSR;
  if negb (Z.land lsr 1 =? 0) then read_RHR else mret (-1).

(** ** Printing with [uartputc_sync] *)

Definition with_serial (u : uart) (s : mach) : mach := s <| io ::= fun d => d <| serial := u |> |>.

(** The register writes that send [l], the last first. *)
Definition out (l : list Z) : list (Z * Z) := rev ((fun c => (THR, u8 c)) <$> l).

(** [l] is sent; the device was polled meanwhile. *)
Definition prints (l : list Z) (u u' : uart) : Prop :=
  exists b, u' = u <| tx_busy := b |> <| uwrites := out l ++ uwrites u |> /\ (length b <= length (tx_busy u))%nat.

Lemma out_app l1 l2 : out (l1 ++ l2) = out l2 ++ out l1.
Proof. unfold out. by rewrite fmap_app, rev_app_distr. Qed.

Lemma prints_nil u : prints [] u u.
Proof. exists (tx_busy u). by destruct u. Qed.

Lemma prints_app l1 l2 u u' u'' : prints l1 u u' -> prints l2 u' u'' -> prints (l1 ++ l2) u u''.
Proof.
  intros (b & -> & Hb) (b' & -> & Hb'). exists b'. cbn in *. rewrite out_app, <- app_assoc. split; [done|lia].
Qed.

Lemma prints_busy l u u' fuel : prints l u u' -> (length (tx_busy u) < fuel)%nat -> (length (tx_busy u') < fuel)%nat.
Proof. intros (b & -> & Hb). cbn. lia. Qed.

(** The answers left after polling until the device is idle. *)
Fixpoint after_busy (l : list bool) : list bool :=
  match l with true :: l => after_busy l | false :: l => l | [] => [] end.

Lemma after_busy_length l : (length (after_busy l) <= length l)%nat.
Proof. induction l as [|[] l IH]; cbn; lia. Qed.

Lemma read_LSR_Ret e s : exists r,
  read_LSR e s = Ret r e (with_serial (serial (io s) <| tx_busy ::= tail |>) s) /\
  (Z.land r LSR_TX_IDLE =? 0) = match tx_busy (serial (io s)) with true :: _ => true | _ => false end /\
  (Z.land r 1 =? 0) = match rhr (serial (io s)) with [] => true | _ => false end.
Proof.
  unfold read_LSR, get_serial, set_serial. msimp. eexists. split; [done|].
  by destruct (rhr (serial (io s))), (tx_busy (serial (io s))) as [|[] ?].
Qed.

Lemma with_serial_with u u' s : with_serial u (with_serial u' s) = with_serial u s.
Proof. done. Qed.

Lemma wait_idle_Ret b : forall fuel e s, tx_busy (serial (io s)) = b -> (length b < fuel)%nat ->
  loop fuel (fun _ : unit => lsr ← read_LSR; mret (if Z.land lsr LSR_TX_IDLE =? 0 then inl tt else inr tt)) tt e s =
  Ret tt e (with_serial (serial (io s) <| tx_busy := after_busy b |>) s).
Proof.
  induction b as [|x b IH]; intros [|fuel] e s Hb Hf; cbn in Hf; try lia; cbn [loop]; rewrite bindE, bindE;
    destruct (read_LSR_Ret e s) as (r & -> & Hr & _); rewrite Hr, Hb; clear Hr;
    replace (serial (io s) <| tx_busy ::= tail |>) with (serial (io s) <| tx_busy := tail (tx_busy (serial (io s))) |>) by done;
    rewrite Hb.
  - done.
  - destruct x; cbn [tail after_busy mret M_ret]; [|done]. rewrite IH by (done || lia). done.
Qed.

Lemma wp_uartputc_sync fuel c e t : nested t -> panicked (io t) = 0 -> (length (tx_busy (serial (io t))) < fuel)%nat ->
  wp (uartputc_sync fuel c) e t (fun _ t' => exists u, prints [c] (serial (io t)) u /\ t' = with_serial u t).
Proof.
  intros Hn Hp Hf. assert (Hid := nested_left_off_id t Hn). destruct Hn as (k & Hk & Hok & Hpos).
  unfold uartputc_sync. eapply wp_call.
  - rewrite bindE, (push_off_Ret _ _ k) by done. msimp. change (panicked (io (on_cpu push_cpu t))) with (panicked (io t)).
    rewrite Hp. change (negb (0 =? 0)) with false. cbn match. rewrite bindE.
    rewrite (wait_idle_Ret _ fuel e (on_cpu push_cpu t) eq_refl) by done. unfold WriteReg, set_serial. msimp.
    destruct (push_cpu_ok k Hok) as [H1 H2].
    rewrite (pop_off_Ret e _ (push_cpu k)); [reflexivity| |done|done]. by apply (on_cpu_here push_cpu).
  - exists (serial (io t) <| tx_busy := after_busy (tx_busy (serial (io t))) |> <| uwrites ::= cons (THR, u8 c) |>). split.
    + eexists. split; [reflexivity|apply after_busy_length].
    + transitivity (with_serial (serial (io t) <| tx_busy := after_busy (tx_busy (serial (io t))) |>
        <| uwrites ::= cons (THR, u8 c) |>) (left_off t)); [|by rewrite Hid].
      unfold left_off. rewrite <- on_cpu_on_cpu. reflexivity.
Qed.

(** [wakeup] in a critical section. *)
Lemma wp_wakeup_nested ch e t : nested t -> table_ready t ->
  wp (wakeup ch) e t (fun _ t' => t' = t <| procs ::= imap (wake1 ch (cur t)) |>).
Proof.
  intros Hn Ht. eapply wp_call; [by apply wakeup_Ret|]. by apply (nested_left_off_id (t <| procs ::= imap (wake1 ch (cur t)) |>)).
Qed.

Definition woken (b : bool) (ch : chan) (me : option nat) (l : list proc) : list proc :=
  if b then imap (wake1 ch me) l else l.

Lemma woken_woken b ch me l : woken b ch me (woken true ch me l) = woken true ch me l.
Proof.
  destruct b; [|done]. cbn. apply list_eq. intros i. rewrite !list_lookup_imap. destruct (l !! i); [|done]. cbn. by rewrite wake1_idem.
Qed.

Lemma woken_length b ch me l : length (woken b ch me l) = length l.
Proof. destruct b; [apply length_imap|done]. Qed.

(** ** The output buffer *)

(** The buffer holds the bytes [q]. *)
Record tx_rep (u : uart) (q : list Z) : Prop := mkTxRep {
  tx_len : length (uart_tx_buf u) = 32%nat;
  tx_r : 0 <= uart_tx_r u < 2 ^ 64;
  tx_w : uart_tx_w u = u64 (uart_tx_r u + Z.of_nat (length q));
  tx_fit : (length q <= 32)%nat;
  tx_at : forall i c, q !! i = Some c -> uart_tx_buf u !! tx_slot (uart_tx_r u + Z.of_nat i) = Some c
}.

Lemma tx_slot_u64 x : tx_slot (u64 x) = tx_slot x.
Proof.
  unfold tx_slot, u64, UART_TX_BUF_SIZE. f_equal. symmetry. apply Znumtheory.Zmod_div_mod; [lia|lia|].
  exists (2 ^ 59). lia.
Qed.

Lemma tx_slot_lt x : (tx_slot x < 32)%nat.
Proof. unfold tx_slot, UART_TX_BUF_SIZE. pose proof (Z.mod_pos_bound x 32). lia. Qed.

Lemma tx_slot_inj r i j : 0 <= i < 32 -> 0 <= j < 32 -> tx_slot (r + i) = tx_slot (r + j) -> i = j.
Proof.
  unfold tx_slot, UART_TX_BUF_SIZE. intros Hi Hj H.
  pose proof (Z.mod_pos_bound (r + i) 32). pose proof (Z.mod_pos_bound (r + j) 32).
  assert (E : (r + i) mod 32 = (r + j) mod 32) by lia.
  pose proof (Z.div_mod (r + i) 32). pose proof (Z.div_mod (r + j) 32). lia.
Qed.

Lemma u64_add_eq x n m : 0 <= n < 2 ^ 64 -> 0 <= m < 2 ^ 64 -> u64 (x + n) = u64 (x + m) <-> n = m.
Proof.
  intros Hn Hm. split; [|by intros ->]. unfold u64. intros E.
  pose proof (Z.div_mod (x + n) (2 ^ 64)). pose proof (Z.div_mod (x + m) (2 ^ 64)). lia.
Qed.

Lemma u64_succ x y : u64 (u64 x + y) = u64 (x + y).
Proof. unfold u64. apply Zplus_mod_idemp_l. Qed.

Lemma tx_empty u q : tx_rep u q -> (uart_tx_w u =? uart_tx_r u) = bool_decide (q = []).
Proof.
  intros [_ Hr Hw Hf _]. rewrite Hw. replace (uart_tx_r u) with (u64 (uart_tx_r u + 0)) at 2 by (rewrite Z.add_0_r; by apply u64_id).
  destruct q as [|c q].
  - rewrite bool_decide_true by done. by apply Z.eqb_eq.
  - rewrite bool_decide_false by done. apply Z.eqb_neq. rewrite u64_add_eq by (cbn in *; lia). cbn. lia.
Qed.

Lemma tx_full u q : tx_rep u q -> (uart_tx_w u =? u64 (uart_tx_r u + UART_TX_BUF_SIZE)) = (length q =? 32)%nat.
Proof.
  intros [_ Hr Hw Hf _]. rewrite Hw. unfold UART_TX_BUF_SIZE. destruct (Nat.eqb_spec (length q) 32) as [E|E].
  - rewrite E. by apply Z.eqb_eq.
  - apply Z.eqb_neq. rewrite u64_add_eq by lia. lia.
Qed.

Lemma tx_put_rep c u q : tx_rep u q -> 0 <= c < 256 -> (length q < 32)%nat -> tx_rep (tx_put c u) (q ++ [c]).
Proof.
  intros [Hlen Hr Hw Hf Hat] Hc Hlt. unfold tx_put. split; cbn.
  - by rewrite length_insert.
  - done.
  - rewrite Hw, u64_succ, length_app. f_equal. cbn. lia.
  - rewrite length_app. cbn. lia.
  - intros i x Hx. rewrite Hw, tx_slot_u64. destruct (decide (i < length q)%nat) as [Hi|Hi].
    + rewrite lookup_app_l in Hx by done. rewrite list_lookup_insert_ne; [by apply Hat|]. intros E. apply tx_slot_inj in E; lia.
    + rewrite lookup_app_r in Hx by lia. assert (i = length q) as ->.
      { apply lookup_lt_Some in Hx. cbn in Hx. lia. }
      rewrite Nat.sub_diag in Hx. injection Hx as <-. rewrite list_lookup_insert_eq by (rewrite Hlen; apply tx_slot_lt).
      f_equal. unfold u8. by apply Z.mod_small.
Qed.

Lemma tx_next_rep c u q : tx_rep u (c :: q) ->
  uart_tx_buf u !! tx_slot (uart_tx_r u) = Some c /\ tx_rep (u <| uart_tx_r ::= fun r => u64 (r + 1) |>) q.
Proof.
  intros [Hlen Hr Hw Hf Hat]. cbn in Hf. split.
  - replace (uart_tx_r u) with (uart_tx_r u + Z.of_nat 0) by lia. by apply Hat.
  - split; cbn; [done|apply u64_range| |lia|].
    + rewrite Hw, u64_succ. f_equal. cbn. lia.
    + intros i x Hx. rewrite <- (tx_slot_u64 (u64 _ + _)), u64_succ, tx_slot_u64.
      replace (uart_tx_r u + 1 + Z.of_nat i) with (uart_tx_r u + Z.of_nat (S i)) by lia. by apply Hat.
Qed.

(** The first [k] bytes of the buffer [q] were sent; when the device answers
    that it is idle, all of them. *)
Definition transmits (k : nat) (q : list Z) (u u' : uart) : Prop :=
  (k <= length q)%nat /\ tx_rep u' (drop k q) /\ uwrites u' = out (take k q) ++ uwrites u /\
  rhr u' = rhr u /\ (length (tx_busy u') <= length (tx_busy u))%nat /\ (tx_busy u = [] -> k = length q).

Lemma wp_uartstart q : forall n e t, nested t -> table_ready t -> tx_rep (serial (io t)) q -> (length q < n)%nat ->
  wp (uartstart n) e t (fun _ t' => exists k u, transmits k q (serial (io t)) u /\
    t' = with_serial u t <| procs ::= woken (negb (k =? 0)%nat) ChUart (cur t) |>).
Proof.
  assert (Hsame : forall t, t = with_serial (serial (io t)) t <| procs ::= woken (negb (0 =? 0)%nat) ChUart (cur t) |>).
  { intros t. destruct t as [? ? ? ? ? ? ? ? ? ? ? ? ? ? ? ? ? ? [? ? ? ? ? ?]]. done. }
  induction q as [|c q IH]; intros [|n] e t Hn Ht Hq Hlt; cbn in Hlt; try lia;
    unfold uartstart; cbn [loop]; apply wp_bind; unfold uartstart_step at 1, get_serial; apply wp_bind, wp_read; rewrite (tx_empty _ _ Hq).
  { apply wp_ret, wp_ret. exists 0%nat, (serial (io t)). split; [split; [cbn; lia|]; split; [done|]; split; [done|]; split; [done|]; split; [cbn; lia|done]|]. apply Hsame. }
  rewrite bool_decide_false by done. apply wp_bind. destruct (read_LSR_Ret e t) as (r & Hr & Hidle & _).
  eapply wp_call; [exact Hr|]. rewrite Hidle. clear Hr Hidle. destruct (tx_busy (serial (io t))) as [|[] b] eqn:Eb.
  2: { apply wp_ret, wp_ret. exists 0%nat. eexists. split; [|cbn; by destruct t]. split; [cbn; lia|]. split; [by destruct Hq|].
       split; [done|]. split; [done|]. split; [cbn; rewrite Eb; cbn; lia|by rewrite Eb]. }
  all: destruct (tx_next_rep _ _ _ Hq) as [Hc Hq']; apply wp_bind; eapply wp_or_fault; [exact Hc|];
    apply wp_bind; unfold set_serial; apply wp_modify; set (t1 := _ <| io ::= _ |>);
    apply wp_bind; eapply wp_mono; [by apply wp_wakeup_nested|]; intros _ t2 ->;
    apply wp_bind; unfold WriteReg, set_serial; apply wp_modify; set (t2 := _ <| io ::= _ |>); apply wp_ret;
    (eapply wp_mono; [apply (IH n e t2); [done| |by destruct Hq'|lia]|]).
  1, 3: apply (table_ready_procs t1 (imap (wake1 ChUart (cur t1)))); [intros; apply length_imap|done].
  all: intros _ t' (k & u & (Hk & Hrep & Hout & Hrhr & Hb & Hall) & ->); exists (S k), u; split;
    [|transitivity (with_serial u t <| procs ::= fun l => woken (negb (k =? 0)%nat) ChUart (cur t) (woken true ChUart (cur t) l) |>);
      [done|apply procs_update_ext; exact (woken_woken _ _ _ _)]].
  all: split; [cbn; lia|]; split; [done|]; split; [|split; [done|split; [change (tx_busy (serial (io t2))) with (tail (tx_busy (serial (io t)))) in Hb; rewrite Eb in Hb |- *; cbn in Hb |- *; lia|]]].
  1, 3: rewrite Hout, firstn_cons; change (c :: take k q) with ([c] ++ take k q); rewrite out_app, <- app_assoc; done.
  - intros _. cbn. f_equal. apply Hall. change (tx_busy (serial (io t2))) with (tail (tx_busy (serial (io t)))). by rewrite Eb.
  - by rewrite Eb.
Qed.

(** [uartputc] is a bounded queue in front of the device.  When the
    buffer has room, the byte goes behind those that wait; then as many bytes
    as the device takes are sent, in order, and what is left stays in the
    buffer.  The callers that wait for room are woken if anything was sent, and
    the locks and memory are as before; an idle device is sent everything. *)
Theorem uartputc_queues (fuel : nat) (c : Z) (q : list Z) (e : env) (s : mach) :
  table_ready s -> free_lock s Luart -> panicked (io s) = 0 -> tx_rep (serial (io s)) q ->
  0 <= c < 256 -> (length q < 32)%nat -> (33 < fuel)%nat ->
  exists k s', uartputc fuel c e s = Ret tt e s' /\
    tx_rep (serial (io s')) (drop k (q ++ [c])) /\
    uwrites (serial (io s')) = out (take k (q ++ [c])) ++ uwrites (serial (io s)) /\
    (tx_busy (serial (io s)) = [] -> k = S (length q)) /\
    procs s' = woken (negb (k =? 0)%nat) ChUart (cur s) (procs s) /\ locks s' = locks s /\ mem s' = mem s.
Proof.
  intros Ht Hl Hp Hq Hc Hlt Hf. assert (Hok : hart_ok s) by apply Ht. unfold uartputc. rewrite bindE, acquire_Ret by done.
  msimp. change (panicked (io (enter Luart s))) with (panicked (io s)). rewrite Hp. change (negb (0 =? 0)) with false. cbn match.
  rewrite bindE. replace (loop fuel uartputc_wait tt e (enter Luart s)) with (Ret tt e (enter Luart s)).
  2: { destruct fuel as [|fuel]; [lia|]. cbn [loop]. rewrite bindE. unfold uartputc_wait at 1, get_serial. msimp.
       change (serial (io (enter Luart s))) with (serial (io s)). rewrite (tx_full _ _ Hq). by destruct (Nat.eqb_spec (length q) 32); [lia|]. }
  unfold set_serial. msimp. set (t := enter Luart s <| io ::= _ |>).
  assert (Hnest : nested t).
  { destruct Hok as (k & Hk & Hok). exists (push_cpu k). split; [by apply (on_cpu_here push_cpu)|].
    split; [by apply push_cpu_cpu_ok|]. destruct (push_cpu_ok k Hok). lia. }
  destruct (wp_uartstart (q ++ [c]) fuel e t Hnest) as ([] & t' & E & k & u & (Hk & Hrep & Hout & _ & _ & Hall) & ->).
  { by apply (table_ready_enter Luart s). } { by apply (tx_put_rep c (serial (io s))). } { rewrite length_app. cbn. lia. }
  rewrite E. set (s1 := with_serial u s <| procs ::= woken (negb (k =? 0)%nat) ChUart (cur s) |>).
  rewrite (release_from Luart e _ s1).
  - exists k, (left_off s1). split; [done|]. split; [done|]. split; [done|]. split; [|done].
    intros Hb. rewrite (Hall Hb), length_app. cbn. lia.
  - unfold s1, t. change (cur (_ <| io ::= _ |>)) with (cur (enter Luart s)). by rewrite cur_enter.
  - done.
  - done.
Qed.

(** A serial line that answers "busy" once and is then idle. *)
Definition machine_uart : mach :=
  machine0 <| locks ::= <[Luart := mkSpinlock 0 "uart" None]> |>
    <| io ::= fun d => d <| serial := mkUart (replicate 32 0) (2 ^ 64 - 1) (2 ^ 64 - 1) [] [] [] |> |>.

Lemma machine_uart_ready : table_ready machine_uart.
Proof.
  split; [|split; [reflexivity|]].
  - eexists. split; [reflexivity|]. split; [cbn; lia|]. cbn. lia.
  - intros i Hi. destruct (proj2 (proj2 machine0_ready) i Hi) as [n Hn]. exists n. cbn. by rewrite lookup_insert_ne.
Qed.

Lemma uartputc_queues_witness : exists s', uartputc 40 65 [] machine_uart = Ret tt [] s' /\
  uwrites (serial (io s')) = [(THR, 65)].
Proof.
  destruct (uartputc_queues 40 65 [] [] machine_uart) as (k & s' & H1 & _ & H2 & H3 & _).
  - exact machine_uart_ready.
  - exists "uart"%string. cbn. by rewrite lookup_insert_eq.
  - reflexivity.
  - split; [reflexivity|cbn; lia|reflexivity|cbn; lia|]. intros i c Hi. by rewrite lookup_nil in Hi.
  - lia.
  - cbn. lia.
  - lia.
  - exists s'. split; [exact H1|]. rewrite H2, (H3 eq_refl). reflexivity.
Defined.
