(* ===== verification/Sleeplock.v ===== *)
(** * Sleep locks

    Model of [kernel/sleeplock.c].  Sleep lock [n] is an entry of the table
    [sleeplocks]; the spin lock that protects it is [Lsleep n]. *)
From stdpp Require Import base tactics list numbers gmap strings.
From S2P Require Import Prelude Machine Spinlock Sched.

Open Scope Z_scope.

(** ** Code *)

Definition get_sleeplock (n : nat) : M sleeplock := s ← read id; or_fault (sleeplocks s !! n).
Definition set_sleeplock (n : nat) (f : sleeplock -> sleeplock) : M unit :=
  _ ← get_sleeplock n; modify (fun s => s <| sleeplocks ::= alter f n |>).

Definition initsleeplock (n : nat) (name : string) : M unit :=
  initlock (Lsleep n) "sleep lock";;
  set_sleeplock n (fun l => l <| sname := name |>);;
  set_sleeplock n (fun l => l <| slocked := 0 |>);;
  set_sleeplock n (fun l => l <| spid := 0 |>).

(** [while (lk->locked) sleep(lk, &lk->lk);] *)
Definition acquiresleep_step (n : nat) (_ : unit) : M (unit + unit) :=
  l ← get_sleeplock n;
  if negb (slocked l =? 0) then sleep (ChSleep n) (Lsleep n);; mret (inl tt)
  else mret (inr tt).

Definition acquiresleep (fuel n : nat) : M unit :=
  acquire (Lsleep n);;
  loop fuel (acquiresleep_step n) tt;;
  set_sleeplock n (fun l => l <| slocked := 1 |>);;
  p ← curproc;
  pr ← get_proc p;
  set_sleeplock n (fun l => l <| spid := pid pr |>);;
  release (Lsleep n).

Definition releasesleep (n : nat) : M unit :=
  acquire (Lsleep n);;
  set_sleeplock n (fun l => l <| slocked := 0 |>);;
  set_sleeplock n (fun l => l <| spid := 0 |>);;
  wakeup (ChSleep n);;
  release (Lsleep n).

Definition holdingsleep (n : nat) : M bool :=
  acquire (Lsleep n);;
  l ← get_sleeplock n;
  r ← (if slocked l =? 0 then mret false
       else p ← curproc; pr ← get_proc p; mret (spid l =? pid pr));
  release (Lsleep n);;
  mret r.

(** ** Effects *)

Lemma get_sleeplock_Ret n e s l : sleeplocks s !! n = Some l -> get_sleeplock n e s = Ret l e s.
Proof. intros H. unfold get_sleeplock. msimp. by rewrite H. Qed.

Lemma set_sleeplock_Ret n f e s l :
  sleeplocks s !! n = Some l ->
  set_sleeplock n f e s = Ret tt e (s <| sleeplocks ::= alter f n |>).
Proof. intros H. unfold set_sleeplock. rewrite bindE. by rewrite (get_sleeplock_Ret _ _ _ l). Qed.

(** The machine can run the code: the process table is in order, process [p]
    runs, and the lock's spin lock is free. *)
Record ready (s : mach) (n p : nat) (l : sleeplock) (pr : proc) : Prop := mkReady {
  rd_table : table_ready s;
  rd_free : free_lock s (Lsleep n);
  rd_cur : cur s = Some p;
  rd_proc : procs s !! p = Some pr;
  rd_lock : sleeplocks s !! n = Some l
}.

Lemma ready_lt s n p l pr : ready s n p l pr -> (p < NPROC)%nat.
Proof.
  intros [(_ & Hlen & _) _ _ Hp _]. apply lookup_lt_Some in Hp. lia.
Qed.

Lemma acquiresleep_free fuel n e s p l pr :
  ready s n p l pr -> slocked l = 0 ->
  acquiresleep (S fuel) n e s =
  Ret tt e (left_off (s <| sleeplocks ::= alter (fun l => l <| slocked := 1 |> <| spid := pid pr |>) n |>)).
Proof.
  intros Hr H0. assert (Hr' := Hr). destruct Hr' as [(Hok & Hlen & Hf) Hfree Hcur Hp Hl].
  unfold acquiresleep. rewrite bindE, acquire_Ret by done.
  cbn [loop]. rewrite bindE. rewrite bindE. unfold acquiresleep_step at 1.
  rewrite bindE, (get_sleeplock_Ret n e (enter (Lsleep n) s) l) by done. rewrite H0.
  change (negb (0 =? 0)) with false. cbn match. cbn [mret M_ret].
  rewrite bindE, (set_sleeplock_Ret n _ e (enter (Lsleep n) s) l) by done.
  set (f := fun l : sleeplock => l <| slocked := 1 |>).
  assert (Hcur1 : cur (enter (Lsleep n) (s <| sleeplocks ::= alter f n |>)) = Some p)
    by (by rewrite cur_enter).
  assert (Hok1 : hart_ok (enter (Lsleep n) (s <| sleeplocks ::= alter f n |>)))
    by by apply hart_ok_enter.
  change (enter (Lsleep n) s <| sleeplocks ::= alter f n |>)
    with (enter (Lsleep n) (s <| sleeplocks ::= alter f n |>)).
  rewrite bindE, (curproc_ready e _ p) by done. rewrite left_off_enter by done.
  rewrite bindE, (get_proc_Ret p e _ pr) by done.
  rewrite bindE, (set_sleeplock_Ret n _ e _ (f l)) by by apply (lookup_alter_here f).
  apply (release_from (Lsleep n) e _ (s <| sleeplocks ::= alter (fun l => f l <| spid := pid pr |>) n |>));
    [|done|done].
  unfold enter, on_cpu. cbn. f_equal. by rewrite list_alter_alter_eq.
Qed.

Lemma releasesleep_Ret n e s p l pr :
  ready s n p l pr ->
  releasesleep n e s =
  Ret tt e (left_off (s <| sleeplocks ::= alter (fun l => l <| slocked := 0 |> <| spid := 0 |>) n |>
                        <| procs ::= imap (wake1 (ChSleep n) (Some p)) |>)).
Proof.
  intros [Ht Hfree Hcur Hp Hl]. assert (Hok : hart_ok s) by apply Ht.
  unfold releasesleep. rewrite bindE, acquire_Ret by done.
  rewrite bindE, (set_sleeplock_Ret n _ e (enter (Lsleep n) s) l) by done.
  set (f := fun l : sleeplock => l <| slocked := 0 |>).
  rewrite bindE, (set_sleeplock_Ret n _ e _ (f l)) by by apply (lookup_alter_here f).
  set (s1 := s <| sleeplocks ::= alter (fun l => f l <| spid := 0 |>) n |>).
  assert (H1 : enter (Lsleep n) s <| sleeplocks ::= alter f n |>
    <| sleeplocks ::= alter (fun l : sleeplock => l <| spid := 0 |>) n |> = enter (Lsleep n) s1).
  2: { rewrite H1. rewrite bindE, wakeup_Ret by (apply table_ready_enter; done).
       rewrite cur_enter by done. change (cur s1) with (cur s). rewrite Hcur.
       change (enter (Lsleep n) s1 <| procs ::= ?g |>) with (enter (Lsleep n) (s1 <| procs ::= g |>)).
       rewrite left_off_enter by done.
       by rewrite (release_from (Lsleep n) e _ (s1 <| procs ::= imap (wake1 (ChSleep n) (Some p)) |>)). }
  unfold s1, enter, on_cpu. cbn. f_equal. by rewrite list_alter_alter_eq.
Qed.

Lemma holdingsleep_Ret n e s p l pr :
  ready s n p l pr ->
  holdingsleep n e s = Ret (negb (slocked l =? 0) && (spid l =? pid pr)) e (left_off s).
Proof.
  intros [Ht Hfree Hcur Hp Hl]. assert (Hok : hart_ok s) by apply Ht.
  unfold holdingsleep. rewrite bindE, acquire_Ret by done.
  rewrite bindE, (get_sleeplock_Ret n e (enter (Lsleep n) s) l) by done. rewrite bindE.
  destruct (slocked l =? 0); cbn [negb andb].
  - cbn [mret M_ret]. by rewrite bindE, release_enter.
  - rewrite bindE, (curproc_ready e _ p);
      [|by apply hart_ok_enter|by rewrite cur_enter]. rewrite left_off_enter by done.
    rewrite bindE, (get_proc_Ret p e (enter (Lsleep n) s) pr) by done. cbn [mret M_ret].
    by rewrite bindE, release_enter.
Qed.

(** The protocol of a sleep lock.  [acquiresleep] of a free lock takes
    it at once for the calling process; of a taken lock it puts the process
    to sleep on the lock with the lock's spin lock free; [releasesleep] frees
    it and makes runnable exactly the processes that sleep on it;
    [holdingsleep] tells whether the calling process has it. *)
Theorem sleeplock_protocol (fuel n : nat) (e : env) (s : mach) (p : nat) (l : sleeplock) (pr : proc) :
  ready s n p l pr ->
  (slocked l = 0 ->
     exists s', acquiresleep (S fuel) n e s = Ret tt e s' /\
       sleeplocks s' !! n = Some (l <| slocked := 1 |> <| spid := pid pr |>) /\
       locks s' = locks s /\ procs s' = procs s) /\
  (slocked l <> 0 -> noff (this_cpu s) = 0 ->
     exists s', acquiresleep (S fuel) n [] s = Blocked s' /\
       procs s' !! p = Some (pr <| pchan := Some (ChSleep n) |> <| state := SLEEPING |>) /\
       sleeplocks s' = sleeplocks s /\ free_lock s' (Lsleep n)) /\
  (exists s', releasesleep n e s = Ret tt e s' /\
     sleeplocks s' !! n = Some (l <| slocked := 0 |> <| spid := 0 |>) /\
     procs s' = imap (wake1 (ChSleep n) (Some p)) (procs s) /\ locks s' = locks s) /\
  (exists s', holdingsleep n e s = Ret (bool_decide (slocked l <> 0 /\ spid l = pid pr)) e s' /\
     sleeplocks s' = sleeplocks s /\ procs s' = procs s /\ locks s' = locks s).
Proof.
  intros Hr. split; [|split; [|split]].
  - intros H0. eexists. split; [by eapply acquiresleep_free|]. split; [|done].
    cbn. rewrite list_lookup_alter_eq. by destruct Hr as [_ _ _ _ ->].
  - intros H0 Hn. destruct Hr as [Ht Hfree Hcur Hp Hl]. assert (Hok : hart_ok s) by apply Ht.
    destruct (sleep_blocks (ChSleep n) (Lsleep n) s p pr) as (m & Hs & Hf & Hpr); [done..|].
    unfold acquiresleep. rewrite bindE, acquire_Ret by done.
    cbn [loop]. rewrite bindE. rewrite bindE. unfold acquiresleep_step at 1.
    rewrite bindE, (get_sleeplock_Ret n [] (enter (Lsleep n) s) l) by done.
    destruct (Z.eqb_spec (slocked l) 0); [done|]. cbn [negb]. rewrite bindE, Hs.
    eexists. split; [done|]. split; [exact Hpr|]. by split.
  - eexists. split; [by eapply releasesleep_Ret|]. split; [|done].
    cbn. rewrite list_lookup_alter_eq. by destruct Hr as [_ _ _ _ ->].
  - exists (left_off s). split; [|done]. rewrite (holdingsleep_Ret n e s p l pr) by done. f_equal.
    destruct (Z.eqb_spec (slocked l) 0), (Z.eqb_spec (spid l) (pid pr)); cbn;
      case_bool_decide; naive_solver.
Qed.

(** Process 0 and a free sleep lock. *)
Definition machine_sleeplock : mach :=
  machine0 <| sleeplocks := [mkSleeplock 0 "inode" 0] |>
    <| locks ::= <[Lsleep 0 := mkSpinlock 0 "sleep lock" None]> |>.

Lemma sleeplock_protocol_witness :
  exists s', acquiresleep 1 0 [] machine_sleeplock = Ret tt [] s' /\
    sleeplocks s' !! 0%nat = Some (mkSleeplock 1 "inode" 1).
Proof.
  destruct (sleeplock_protocol 0 0 [] machine_sleeplock 0 (mkSleeplock 0 "inode" 0) running)
    as (H & _).
  - split.
    + split; [|split; [reflexivity|]].
      * eexists. split; [reflexivity|]. split; [cbn; lia|]. cbn. lia.
      * apply table_locks_free. vm_compute. reflexivity.
    + apply is_free_sound. vm_compute. reflexivity.
    + reflexivity.
    + reflexivity.
    + reflexivity.
  - destruct (H eq_refl) as (s' & H1 & H2 & _). exists s'. auto.
Defined.
