(* ===== verification/Bio.v ===== *)
(** * Buffer cache

    Model of [kernel/bio.c].  The doubly linked list of buffers is the list
    of their indices from [head.next] on; the sleep lock of buffer [n] is
    sleep lock [n].  The disk driver is an interface: [virtio_disk_rw]
    transfers one block between a buffer and the disk. *)
From stdpp Require Import base tactics list numbers gmap strings.
From S2P Require Import Prelude Machine Wp Spinlock Sched Sleeplock.

Open Scope Z_scope.

(** ** The disk *)

(** [virtio_disk_rw n write] of [kernel/virtio_disk.c]. *)
Class Disk : Type := virtio_disk_rw : nat -> bool -> M unit.

Definition set_buf_of (n : nat) (f : buf -> buf) (c : bcache) : bcache := c <| bufs ::= alter f n |>.

(** The effect of a transfer on the cache and the disk. *)
Definition transfer (n : nat) (write : bool) (c : bcache) : bcache :=
  match bufs c !! n with
  | None => c
  | Some b =>
      if write then
        c <| disk ::= fun d bno => if bno =? blockno b then bdata b else d bno |>
          <| writes ::= cons (blockno b, bdata b) |>
      else set_buf_of n (fun b' => b' <| bdata := disk c (blockno b) |>) c
  end.

(** What the code relies on: the call returns when the transfer is done, and
    has no other effect. *)
Class DiskLaw `{Disk} : Prop :=
  disk_transfers : forall n w e s, is_Some (bufs (bc s) !! n) ->
    virtio_disk_rw n w e s = Ret tt e (s <| bc ::= transfer n w |>).

(** ** Code *)

Definition get_buf (n : nat) : M buf := s ← read id; or_fault (bufs (bc s) !! n).
Definition set_buf (n : nat) (f : buf -> buf) : M unit :=
  _ ← get_buf n; modify (fun s => s <| bc ::= set_buf_of n f |>).

Section bio.
Context `{DK : Disk} (fuel : nat).

(** [for(b = bcache.buf; b < bcache.buf+NBUF; b++)]; every buffer goes to the
    front of the list. *)
Definition binit : M unit :=
  initlock Lbcache "bcache";;
  modify (fun s => s <| bc ::= fun c => c <| lru := [] |> |>);;
  for_each (seq 0 NBUF) (fun n =>
    initsleeplock n "buffer";;
    modify (fun s => s <| bc ::= fun c => c <| lru ::= cons n |> |>)).

(** The first loop of [bget]. *)
Definition bget_cached (dev bno : Z) (n : nat) : M (option nat) :=
  b ← get_buf n;
  if (bdev b =? dev) && (blockno b =? bno) then
    set_buf n (fun b => b <| refcnt := u32 (refcnt b + 1) |>);;
    release Lbcache;;
    acquiresleep fuel n;;
    mret (Some n)
  else mret None.

(** The second loop: from [head.prev] on. *)
Definition bget_recycle (dev bno : Z) (n : nat) : M (option nat) :=
  b ← get_buf n;
  if refcnt b =? 0 then
    set_buf n (fun b => b <| bdev := dev |> <| blockno := bno |> <| valid := 0 |> <| refcnt := 1 |>);;
    release Lbcache;;
    acquiresleep fuel n;;
    mret (Some n)
  else mret None.

Definition bget (dev bno : Z) : M nat :=
  acquire Lbcache;;
  l ← read (fun s => lru (bc s));
  r ← for_first l (bget_cached dev bno);
  match r with
  | Some n => mret n
  | None =>
      r ← for_first (rev l) (bget_recycle dev bno);
      match r with
      | Some n => mret n
      | None => panic "bget: no buffers"%string
      end
  end.

Definition bread (dev bno : Z) : M nat :=
  n ← bget dev bno;
  b ← get_buf n;
  when (valid b =? 0)
    (virtio_disk_rw n false;;
     set_buf n (fun b => b <| valid := 1 |>));;
  mret n.

Definition bwrite (n : nat) : M unit :=
  h ← holdingsleep n;
  if negb h then panic "bwrite"%string else virtio_disk_rw n true.

Definition brelse (n : nat) : M unit :=
  h ← holdingsleep n;
  if negb h then panic "brelse"%string
  else
    releasesleep n;;
    acquire Lbcache;;
    set_buf n (fun b => b <| refcnt := u32 (refcnt b - 1) |>);;
    b ← get_buf n;
    when (refcnt b =? 0)
      (modify (fun s => s <| bc ::= fun c => c <| lru ::= fun l => n :: filter (fun m => m <> n) l |> |>));;
    release Lbcache.

Definition bpin (n : nat) : M unit :=
  acquire Lbcache;;
  set_buf n (fun b => b <| refcnt := u32 (refcnt b + 1) |>);;
  release Lbcache.

Definition bunpin (n : nat) : M unit :=
  acquire Lbcache;;
  set_buf n (fun b => b <| refcnt := u32 (refcnt b - 1) |>);;
  release Lbcache.

End bio.

(** ** A thread that runs file system code *)

(** Process [p] runs, every lock of the file system is free, and nobody waits
    for a sleep lock or for the log. *)
Record fs_thread (s : mach) (p : nat) (pr : proc) : Prop := mkFsThread {
  ft_table : table_ready s;
  ft_cur : cur s = Some p;
  ft_proc : procs s !! p = Some pr;
  ft_bcache : free_lock s Lbcache;
  ft_log : free_lock s Llog;
  ft_itable : free_lock s Litable;
  ft_sleep : forall n, (n < NBUF + NINODE)%nat -> free_lock s (Lsleep n);
  ft_quiet : forall q, q ∈ procs s -> state q = SLEEPING ->
    match pchan q with Some (ChSleep _) | Some ChLog => False | _ => True end
}.

Lemma fs_thread_same s t p pr :
  fs_thread s p pr -> cpus t = cpus s -> tp t = tp s -> locks t = locks s -> procs t = procs s ->
  fs_thread t p pr.
Proof.
  intros [(H1 & H2 & H3) Hc Hp Hb Hl Hi Hs Hq] E1 E2 E3 E4.
  assert (Hf : forall lk, free_lock s lk -> free_lock t lk) by (unfold free_lock; by rewrite E3).
  split; auto.
  - split; [unfold hart_ok; by rewrite E1, E2|]. split; [by rewrite E4|auto].
  - unfold cur, this_cpu. rewrite E1, E2. exact Hc.
  - by rewrite E4.
  - by rewrite E4.
Qed.

Lemma fs_thread_left_off s p pr : fs_thread s p pr -> fs_thread (left_off s) p pr.
Proof.
  intros [Ht Hc Hp Hb Hl Hi Hs Hq]. split; auto.
  - by apply table_ready_left_off.
  - by rewrite cur_left_off by apply Ht.
Qed.

(** Replace the cache and the sleep locks. *)
Definition with_bc (sl : list sleeplock) (c : bcache) (s : mach) : mach :=
  s <| sleeplocks := sl |> <| bc := c |>.

Lemma with_bc_left_off sl c s : with_bc sl c (left_off s) = left_off (with_bc sl c s).
Proof. done. Qed.

Lemma with_bc_twice sl c sl' c' s : with_bc sl c (with_bc sl' c' s) = with_bc sl c s.
Proof. done. Qed.

Lemma with_bc_id s : with_bc (sleeplocks s) (bc s) s = s.
Proof. by destruct s. Qed.

Lemma fs_thread_with_bc sl c s p pr : fs_thread s p pr -> fs_thread (left_off (with_bc sl c s)) p pr.
Proof. intros H. by apply fs_thread_left_off, (fs_thread_same s). Qed.

Lemma fs_thread_ready s p pr n l :
  fs_thread s p pr -> (n < NBUF + NINODE)%nat -> sleeplocks s !! n = Some l -> ready s n p l pr.
Proof. intros [] Hn Hl. by split; auto. Qed.

Lemma wake1_quiet s p pr ch me :
  fs_thread s p pr -> (match ch with ChSleep _ | ChLog => True | _ => False end) ->
  imap (wake1 ch me) (procs s) = procs s.
Proof.
  intros H Hch. apply list_eq. intros i. rewrite list_lookup_imap.
  destruct (procs s !! i) as [q|] eqn:Hi; [|done]. cbn. f_equal. unfold wake1.
  destruct (decide (state q = SLEEPING)) as [Hs|Hs].
  - assert (Hq := ft_quiet _ _ _ H q (list_elem_of_lookup_2 _ _ _ Hi) Hs).
    rewrite (bool_decide_eq_false_2 (pchan q = Some ch)), andb_false_r; [done|].
    intros E. rewrite E in Hq. by destruct ch.
  - by rewrite (bool_decide_eq_false_2 (state q = SLEEPING)), andb_false_r by done.
Qed.

(** ** The abstract cache

    [v] is what each block of the root device holds for the kernel: the
    cached contents, or those of the disk.  [held] has a block once for every
    reference to its buffer, [lockd] are the blocks whose buffers the process
    has locked. *)

Definition caches (c : bcache) (n : nat) (bno : Z) (b : buf) : Prop :=
  bufs c !! n = Some b /\ bdev b = ROOTDEV /\ blockno b = bno.

Definition count (bno : Z) (held : list Z) : Z :=
  Z.of_nat (length (filter (fun b => b = bno) held)).

(** The state of the sleep lock of a buffer. *)
Definition lock_state (pid_ : Z) (taken : Prop) (l : sleeplock) : Prop :=
  (taken -> slocked l = 1 /\ spid l = pid_) /\ (~ taken -> slocked l = 0).

Record cache_rep (c : bcache) (sl : list sleeplock) (pid_ : Z) (v : Z -> list Z)
    (held lockd : list Z) : Prop := mkCacheRep {
  cr_len : length (bufs c) = NBUF;
  cr_lru : lru c ≡ₚ seq 0 NBUF;
  cr_other : forall n b, bufs c !! n = Some b -> bdev b <> ROOTDEV -> refcnt b = 0;
  cr_ref : forall n bno b, caches c n bno b -> refcnt b = count bno held;
  cr_view : forall n bno b, caches c n bno b -> bdata b = v bno;
  cr_valid : forall n bno b, caches c n bno b -> valid b <> 0;
  cr_clean : forall bno, bno ∉ held -> v bno = disk c bno;
  cr_held : forall bno, bno ∈ held -> exists n b, caches c n bno b;
  cr_unique : forall n m bno b b', caches c n bno b -> caches c m bno b' -> n = m;
  cr_bound : Z.of_nat (length held) < 2 ^ 31;
  cr_lock : forall n b, bufs c !! n = Some b -> exists l, sl !! n = Some l /\
    lock_state pid_ (bdev b = ROOTDEV /\ blockno b ∈ lockd) l;
  cr_sub : forall bno, bno ∈ lockd -> bno ∈ held;
  cr_size : forall bno, length (v bno) = 1024%nat
}.

(** Buffer [n] holds block [bno]. *)
Definition buffer_of (c : bcache) (n : nat) (bno : Z) : Prop := exists b, caches c n bno b.

Lemma count_cons bno b held : count bno (b :: held) = (if b =? bno then 1 else 0) + count bno held.
Proof.
  unfold count. rewrite filter_cons. destruct (Z.eqb_spec b bno) as [->|Hne].
  - rewrite decide_True by done. cbn [length]. lia.
  - by rewrite decide_False.
Qed.

Lemma held_count_range bno held : 0 <= count bno held <= Z.of_nat (length held).
Proof. unfold count. pose proof (length_filter (fun b => b = bno) held). lia. Qed.

Lemma count_zero bno held : count bno held = 0 <-> bno ∉ held.
Proof.
  induction held as [|b held IH]; [split; [intros _; apply not_elem_of_nil|done]|].
  rewrite count_cons, not_elem_of_cons. pose proof (held_count_range bno held).
  destruct (Z.eqb_spec b bno); split; intros Hx; try lia; naive_solver lia.
Qed.

Lemma count_perm bno held held' : held ≡ₚ held' -> count bno held = count bno held'.
Proof. intros Hp. unfold count. by rewrite Hp. Qed.

Lemma cache_rep_equiv c sl pid_ v v' held held' lockd lockd' :
  cache_rep c sl pid_ v held lockd -> (forall b, v' b = v b) ->
  held ≡ₚ held' -> lockd ≡ₚ lockd' -> cache_rep c sl pid_ v' held' lockd'.
Proof.
  intros [] Hv Hh Hl.
  assert (Eh : forall b, b ∈ held' <-> b ∈ held) by (intros b; by rewrite Hh).
  assert (El : forall b, b ∈ lockd' <-> b ∈ lockd) by (intros b; by rewrite Hl).
  split; try done.
  - intros n bno b Hc. rewrite <- (count_perm bno held) by done. eauto.
  - intros n bno b Hc. rewrite Hv. eauto.
  - intros bno Hb. rewrite Hv. apply cr_clean0. by rewrite <- Eh.
  - intros bno Hb%Eh. auto.
  - by rewrite <- Hh.
  - intros n b Hb. destruct (cr_lock0 n b Hb) as (l & H1 & H2 & H3). exists l. split; [done|].
    split; rewrite El; auto.
  - intros bno Hb%El. apply Eh. auto.
  - intros bno. by rewrite Hv.
Qed.

(** *** Changes of one buffer *)

Lemma caches_set n f c m bno b' :
  (forall b, bdev (f b) = bdev b) -> (forall b, blockno (f b) = blockno b) ->
  caches (set_buf_of n f c) m bno b' <->
  exists b, caches c m bno b /\ b' = if decide (m = n) then f b else b.
Proof.
  intros Hd Hb. unfold caches, set_buf_of. cbn. destruct (decide (m = n)) as [->|Hne].
  - rewrite list_lookup_alter_eq. split.
    + intros (Hl & H1 & H2). destruct (bufs c !! n) as [b|] eqn:E; [|done]. injection Hl as <-.
      rewrite Hd in H1. rewrite Hb in H2. eauto.
    + intros (b & (Hl & H1 & H2) & ->). rewrite Hl, Hd, Hb. done.
  - rewrite list_lookup_alter_ne by done. split; [eauto|]. by intros (b & ? & ->).
Qed.

Lemma caches_inj c n bno b bno' b' : caches c n bno b -> caches c n bno' b' -> bno = bno' /\ b = b'.
Proof. intros (H1 & _ & H2) (H3 & _ & H4). simplify_eq. done. Qed.

Section rep.
Context (c : bcache) (sl : list sleeplock) (pid_ : Z) (v : Z -> list Z) (held lockd : list Z).
Hypothesis R : cache_rep c sl pid_ v held lockd.

Lemma rep_index n bno b : caches c n bno b -> (n < NBUF)%nat.
Proof. intros (H & _). rewrite <- (cr_len _ _ _ _ _ _ R). by eapply lookup_lt_Some. Qed.

(** Any change that keeps device and block number and gives the right
    reference count and contents. *)
Lemma rep_set n f bno v' held' :
  buffer_of c n bno ->
  (forall b, bdev (f b) = bdev b) -> (forall b, blockno (f b) = blockno b) ->
  (forall b, caches c n bno b -> valid (f b) <> 0 /\ refcnt (f b) = count bno held' /\ bdata (f b) = v' bno) ->
  (forall b, b <> bno -> count b held' = count b held /\ v' b = v b) ->
  (bno ∉ held' -> v' bno = disk c bno) ->
  Z.of_nat (length held') < 2 ^ 31 -> (forall b, b ∈ lockd -> b ∈ held') -> length (v' bno) = 1024%nat ->
  cache_rep (set_buf_of n f c) sl pid_ v' held' lockd.
Proof.
  intros [b0 Hb0] Hd Hb Hf Hother Hclean Hbound Hsub Hsize. destruct R.
  assert (Hcn : forall m b1 b', caches (set_buf_of n f c) m b1 b' ->
    exists b, caches c m b1 b /\ b' = if decide (m = n) then f b else b) by (intros; by apply caches_set).
  assert (Hkey : forall m b1 b', caches (set_buf_of n f c) m b1 b' ->
    valid b' <> 0 /\ refcnt b' = count b1 held' /\ bdata b' = v' b1).
  { intros m b1 b' (b & Hm & ->)%Hcn. destruct (decide (m = n)) as [->|Hne].
    - destruct (caches_inj _ _ _ _ _ _ Hb0 Hm) as [<- <-]. auto.
    - assert (Hb1 : b1 <> bno) by (intros ->; eauto). destruct (Hother b1 Hb1) as [-> ->].
      split; [by eapply cr_valid0|]. split; [by eapply cr_ref0|by eapply cr_view0]. }
  split; try done.
  - cbn. by rewrite length_alter.
  - intros m b Hm Hdev. cbn in Hm. destruct (decide (m = n)) as [->|Hne].
    + rewrite list_lookup_alter_eq in Hm. destruct Hb0 as (E & E1 & _). rewrite E in Hm.
      injection Hm as <-. rewrite Hd in Hdev. done.
    + rewrite list_lookup_alter_ne in Hm by done. eauto.
  - intros m b1 b' (_ & H & _)%Hkey. done.
  - intros m b1 b' (_ & _ & H)%Hkey. done.
  - intros m b1 b' (H & _)%Hkey. done.
  - intros b1 H1. destruct (decide (b1 = bno)) as [->|Hne]; [auto|].
    destruct (Hother b1 Hne) as [Hc ->]. apply cr_clean0. apply count_zero. rewrite <- Hc. by apply count_zero.
  - intros b1 H1. destruct (decide (b1 = bno)) as [->|Hne].
    + exists n, (f b0). apply caches_set; [done..|]. exists b0. by rewrite decide_True.
    + destruct (Hother b1 Hne) as [Hc _]. destruct (cr_held0 b1) as (m & b & Hm).
      { destruct (decide (b1 ∈ held)) as [|Hn]; [done|exfalso]. apply count_zero in Hn.
        rewrite <- Hc in Hn. by apply count_zero in Hn. }
      exists m. eexists. apply caches_set; [done..|]. exists b. done.
  - intros m1 m2 b1 b b' (x & Hx & _)%Hcn (y & Hy & _)%Hcn. eauto.
  - intros m b Hm. cbn in Hm. destruct (decide (m = n)) as [->|Hne].
    + rewrite list_lookup_alter_eq in Hm. destruct (bufs c !! n) as [b2|] eqn:E; [|done].
      injection Hm as <-. rewrite Hd, Hb. auto.
    + rewrite list_lookup_alter_ne in Hm by done. auto.
  - intros b1. destruct (decide (b1 = bno)) as [->|Hne]; [done|]. by destruct (Hother b1 Hne) as [_ ->].
Qed.
Lemma not_held_bno b0 b : b <> b0 -> count b (b0 :: held) = count b held.
Proof. intros Hne. rewrite count_cons. destruct (Z.eqb_spec b0 b); [congruence|lia]. Qed.

(** Take another reference. *)
Lemma rep_add_ref n bno :
  buffer_of c n bno -> Z.of_nat (length held) + 1 < 2 ^ 31 ->
  cache_rep (set_buf_of n (fun b => b <| refcnt := u32 (refcnt b + 1) |>) c) sl pid_ v (bno :: held) lockd.
Proof.
  intros Hn Hb. apply (rep_set n _ bno); try done.
  - intros b HH. split; [exact (cr_valid _ _ _ _ _ _ R n bno b HH)|]. split.
    + cbn. rewrite (cr_ref _ _ _ _ _ _ R n bno b HH), count_cons, Z.eqb_refl.
      pose proof (held_count_range bno held). rewrite u32_id; lia.
    + exact (cr_view _ _ _ _ _ _ R n bno b HH).
  - intros b Hne. by rewrite not_held_bno.
  - intros H. exfalso. apply H. by left.
  - cbn [length]. lia.
  - intros b Hl. right. by apply (cr_sub _ _ _ _ _ _ R).
  - apply R.
Qed.

(** Give a reference back; the last one only when the block is clean. *)
Lemma rep_drop_ref n bno held' :
  buffer_of c n bno -> held ≡ₚ bno :: held' -> bno ∈ held' \/ v bno = disk c bno ->
  (forall b, b ∈ lockd -> b ∈ held') ->
  cache_rep (set_buf_of n (fun b => b <| refcnt := u32 (refcnt b - 1) |>) c) sl pid_ v held' lockd.
Proof.
  intros Hn Hp Hc Hsub. assert (Hlen : length held = S (length held')) by (by rewrite Hp).
  pose proof (cr_bound _ _ _ _ _ _ R) as Hb. apply (rep_set n _ bno); try done.
  - intros b HH. split; [exact (cr_valid _ _ _ _ _ _ R n bno b HH)|]. split.
    + cbn. rewrite (cr_ref _ _ _ _ _ _ R n bno b HH), (count_perm _ _ _ Hp), count_cons, Z.eqb_refl.
      pose proof (held_count_range bno held'). rewrite u32_id; lia.
    + exact (cr_view _ _ _ _ _ _ R n bno b HH).
  - intros b Hne. rewrite (count_perm _ _ _ Hp), count_cons. destruct (Z.eqb_spec bno b); [congruence|]. done.
  - destruct Hc; [done|auto].
  - lia.
  - apply R.
Qed.

(** Change the contents of a held block. *)
Lemma rep_data n bno d :
  buffer_of c n bno -> bno ∈ held -> length d = 1024%nat ->
  cache_rep (set_buf_of n (fun b => b <| bdata := d |>) c) sl pid_
    (fun b => if b =? bno then d else v b) held lockd.
Proof.
  intros Hn Hh Hd. apply (rep_set n _ bno); rewrite ?Z.eqb_refl; try done.
  - intros b HH. split; [exact (cr_valid _ _ _ _ _ _ R n bno b HH)|]. split; [|done].
    by apply (cr_ref _ _ _ _ _ _ R n bno b HH).
  - intros b Hne. split; [done|]. by destruct (Z.eqb_spec b bno).
  - apply R.
  - apply R.
Qed.

(** Write a held block to the disk. *)
Lemma rep_write n bno :
  buffer_of c n bno -> bno ∈ held ->
  let c' := transfer n true c in
  cache_rep c' sl pid_ v held lockd /\
  (forall b, disk c' b = if b =? bno then v bno else disk c b) /\
  writes c' = (bno, v bno) :: writes c /\ bufs c' = bufs c.
Proof.
  intros [b0 (Hb & Hd & Hno)] Hh. unfold transfer. rewrite Hb. cbn zeta.
  assert (Hv : bdata b0 = v bno) by by eapply (cr_view _ _ _ _ _ _ R); split.
  rewrite Hno, Hv. split; [|done]. destruct R. split; try done.
  intros b1 H1. cbn. destruct (Z.eqb_spec b1 bno) as [->|]; [done|auto].
Qed.

Lemma rep_lru l : l ≡ₚ lru c -> cache_rep (c <| lru := l |>) sl pid_ v held lockd.
Proof. intros Hl. destruct R. split; try done. cbn. by rewrite Hl. Qed.

(** Lock and unlock a buffer. *)
Lemma rep_lock n bno :
  buffer_of c n bno -> bno ∈ held ->
  cache_rep c (alter (fun l => l <| slocked := 1 |> <| spid := pid_ |>) n sl) pid_ v held (bno :: lockd).
Proof.
  intros [b0 H0] Hh. destruct R. split; try done.
  - intros m b Hb. destruct (cr_lock0 m b Hb) as (l & Hl & Hs1 & Hs2).
    destruct (decide (m = n)) as [->|Hne].
    + rewrite list_lookup_alter_eq, Hl. eexists. split; [done|]. split; [done|]. intros Hn. exfalso.
      apply Hn. destruct H0 as (E & E1 & E2). simplify_eq. split; [done|by left].
    + rewrite list_lookup_alter_ne by done. exists l. split; [done|]. split.
      * intros [Hd Hin%elem_of_cons]. apply Hs1. split; [done|]. destruct Hin as [E|]; [|done].
        exfalso. apply Hne. eapply cr_unique0; [|exact H0]. by split.
      * intros Hn. apply Hs2. intros [Hd Hin]. apply Hn. split; [done|by right].
  - intros b [->|Hb]%elem_of_cons; auto.
Qed.

Lemma rep_unlock n bno lockd' :
  buffer_of c n bno -> lockd ≡ₚ bno :: lockd' -> bno ∉ lockd' ->
  cache_rep c (alter (fun l => l <| slocked := 0 |> <| spid := 0 |>) n sl) pid_ v held lockd'.
Proof.
  intros [b0 H0] Hp Hnew. destruct R.
  assert (El : forall b, b ∈ lockd <-> b = bno \/ b ∈ lockd') by (intros b; by rewrite Hp, elem_of_cons).
  split; try done.
  - intros m b Hb. destruct (cr_lock0 m b Hb) as (l & Hl & Hs1 & Hs2).
    destruct (decide (m = n)) as [->|Hne].
    + rewrite list_lookup_alter_eq, Hl. eexists. split; [done|]. split; [|done]. intros [_ Hin].
      exfalso. destruct H0 as (E & _ & E2). simplify_eq. by apply Hnew.
    + rewrite list_lookup_alter_ne by done. exists l. split; [done|]. split.
      * intros [Hd Hin]. apply Hs1. split; [done|]. apply El. by right.
      * intros Hn. apply Hs2. intros [Hd Hin%El]. destruct Hin as [E|Hin]; [|by apply Hn].
        apply Hne. eapply cr_unique0; [|exact H0]. by split.
  - intros b Hb. apply cr_sub0, El. by right.
Qed.

(** Put block [bno], which no buffer holds, into an unused buffer. *)
Lemma rep_recycle n b0 bno :
  (forall m b, ~ caches c m bno b) -> bufs c !! n = Some b0 -> refcnt b0 = 0 ->
  Z.of_nat (length held) + 1 < 2 ^ 31 ->
  let f b := b <| bdev := ROOTDEV |> <| blockno := bno |> <| valid := 1 |> <| refcnt := 1 |>
               <| bdata := disk c bno |> in
  cache_rep (set_buf_of n f c) sl pid_ v (bno :: held) lockd.
Proof.
  intros Hmiss Hn H0 Hb f. destruct R.
  assert (Hnb : bno ∉ held) by (intros (m & b & Hm)%cr_held0; by eapply Hmiss).
  assert (Hold : bdev b0 = ROOTDEV -> blockno b0 ∉ held).
  { intros Hd. apply count_zero. rewrite <- (cr_ref0 n _ b0); [done|by split]. }
  assert (Hcn : forall m b1 b', caches (set_buf_of n f c) m b1 b' ->
    (m = n /\ b1 = bno /\ b' = f b0) \/ (m <> n /\ b1 <> bno /\ caches c m b1 b')).
  { intros m b1 b' (Hm & Hd & Hno). cbn in Hm. destruct (decide (m = n)) as [->|Hne].
    - rewrite list_lookup_alter_eq, Hn in Hm. injection Hm as <-. left. by rewrite <- Hno.
    - rewrite list_lookup_alter_ne in Hm by done. right. split; [done|]. split; [|by split].
      intros ->. by eapply Hmiss. }
  assert (Hfn : caches (set_buf_of n f c) n bno (f b0))
    by (split; [cbn; by rewrite list_lookup_alter_eq, Hn|done]).
  assert (Hkeep : forall m b1 b, m <> n -> caches c m b1 b -> caches (set_buf_of n f c) m b1 b).
  { intros m b1 b Hne (E & E1). split; [cbn; by rewrite list_lookup_alter_ne|done]. }
  split; try done.
  - cbn. by rewrite length_alter.
  - intros m b Hm Hd. cbn in Hm. destruct (decide (m = n)) as [->|Hne].
    + rewrite list_lookup_alter_eq, Hn in Hm. by injection Hm as <-.
    + rewrite list_lookup_alter_ne in Hm by done. eauto.
  - intros m b1 b [(-> & -> & ->)|(_ & Hne & Hc)]%Hcn.
    + rewrite count_cons, Z.eqb_refl. apply count_zero in Hnb. cbn. lia.
    + rewrite not_held_bno by done. eauto.
  - intros m b1 b [(-> & -> & ->)|(_ & Hne & Hc)]%Hcn; [|eauto]. cbn. by rewrite cr_clean0.
  - intros m b1 b [(-> & -> & ->)|(_ & Hne & Hc)]%Hcn; [done|eauto].
  - intros b1 Hn1. apply not_elem_of_cons in Hn1 as [_ Hn1]. cbn. auto.
  - intros b1 [->|Hin]%elem_of_cons; [eauto|]. destruct (cr_held0 b1 Hin) as (m & b & Hm).
    exists m, b. apply Hkeep; [|done]. intros ->. destruct Hm as (E & E1 & E2). simplify_eq.
    by apply Hold.
  - intros m1 m2 b1 b b' [(-> & -> & _)|(? & ? & ?)]%Hcn [(-> & ? & _)|(? & ? & ?)]%Hcn; try done; eauto.
  - cbn [length]. lia.
  - intros m b Hm. cbn in Hm. destruct (decide (m = n)) as [->|Hne].
    + rewrite list_lookup_alter_eq, Hn in Hm. injection Hm as <-. destruct (cr_lock0 n b0 Hn) as (l & Hl & _ & Hs).
      exists l. split; [done|]. assert (slocked l = 0) as E.
      { apply Hs. intros [Hd Hin%cr_sub0]. by apply Hold. }
      split; [|done]. cbn. by intros [_ Hin%cr_sub0].
    + rewrite list_lookup_alter_ne in Hm by done. auto.
  - intros b Hl. right. auto.
Qed.

(** While fewer blocks are held than there are buffers, one is unused. *)
Lemma rep_room :
  (length held < NBUF)%nat -> exists n b, bufs c !! n = Some b /\ refcnt b = 0.
Proof.
  intros Hlt. destruct R. destruct (decide (Exists (fun b => refcnt b = 0) (bufs c))) as [He|Hn].
  - apply list.Exists_exists in He as (b & Hb & Hr). apply list_elem_of_lookup in Hb as [n Hn]. eauto.
  - exfalso. rewrite <- Forall_Exists_neg in Hn. rewrite Forall_lookup in Hn.
    assert (Hroot : forall n b, bufs c !! n = Some b -> caches c n (blockno b) b).
    { intros n b Hb. split; [done|]. split; [|done]. destruct (decide (bdev b = ROOTDEV)); [done|].
      exfalso. apply (Hn n b Hb). eauto. }
    assert (Hnd : NoDup (blockno <$> bufs c)).
    { apply NoDup_alt. intros i j x Hi Hj. rewrite list_lookup_fmap in Hi, Hj.
      destruct (bufs c !! i) as [bi|] eqn:Ei, (bufs c !! j) as [bj|] eqn:Ej; try done.
      injection Hi as <-. injection Hj as E. eapply cr_unique0; [by apply Hroot|]. rewrite <- E. by apply Hroot. }
    assert (Hin : blockno <$> bufs c ⊆ held).
    { intros x (b & -> & Hb)%list_elem_of_fmap. apply list_elem_of_lookup in Hb as [n Hb].
      destruct (decide (blockno b ∈ held)) as [|Hno]; [done|exfalso]. apply count_zero in Hno.
      apply (Hn n b Hb). by rewrite (cr_ref0 _ _ _ (Hroot n b Hb)). }
    apply NoDup_submseteq in Hin; [|done]. apply submseteq_length in Hin.
    rewrite length_fmap, cr_len0 in Hin. lia.
Qed.
End rep.

(** ** The operations *)

Lemma for_first_skip {A B} (l1 l2 : list A) (f : A -> M (option B)) e s :
  (forall x, x ∈ l1 -> f x e s = Ret None e s) ->
  for_first (l1 ++ l2) f e s = for_first l2 f e s.
Proof.
  induction l1 as [|x l1 IH]; intros H; [done|]. cbn [app for_first].
  rewrite bindE, H by by left. cbn match. apply IH. intros y Hy. apply H. by right.
Qed.

Lemma for_first_none {A B} (l : list A) (f : A -> M (option B)) e s :
  (forall x, x ∈ l -> f x e s = Ret None e s) -> for_first l f e s = Ret None e s.
Proof. intros H. rewrite <- (app_nil_r l). by rewrite for_first_skip. Qed.

Lemma get_buf_Ret n e s b : bufs (bc s) !! n = Some b -> get_buf n e s = Ret b e s.
Proof. intros H. unfold get_buf. msimp. by rewrite H. Qed.

Lemma set_buf_Ret n f e s b :
  bufs (bc s) !! n = Some b -> set_buf n f e s = Ret tt e (s <| bc ::= set_buf_of n f |>).
Proof. intros H. unfold set_buf. rewrite bindE. by rewrite (get_buf_Ret n e s b). Qed.

Lemma buffer_of_set n f c m bno :
  (forall b, bdev (f b) = bdev b) -> (forall b, blockno (f b) = blockno b) ->
  buffer_of c m bno -> buffer_of (set_buf_of n f c) m bno.
Proof. intros Hd Hb [b H]. eexists. apply caches_set; [done..|]. by exists b. Qed.

(** The list of buffers is split at the one looked for. *)
Lemma lru_split c sl pid_ v held lockd n :
  cache_rep c sl pid_ v held lockd -> (n < NBUF)%nat ->
  exists l1 l2, lru c = l1 ++ n :: l2 /\ n ∉ l1.
Proof.
  intros R Hn. assert (Hin : n ∈ lru c).
  { rewrite (cr_lru _ _ _ _ _ _ R). apply elem_of_seq. lia. }
  apply list_elem_of_split in Hin as (l1 & l2 & E). exists l1, l2. split; [done|].
  assert (Hnd : NoDup (lru c)) by (rewrite (cr_lru _ _ _ _ _ _ R); apply NoDup_seq).
  rewrite E in Hnd. apply list.NoDup_app in Hnd as (_ & Hnd & _). intros Hx. apply (Hnd n Hx). by left.
Qed.

Lemma lru_lt c sl pid_ v held lockd n :
  cache_rep c sl pid_ v held lockd -> n ∈ lru c -> exists b, bufs c !! n = Some b.
Proof.
  intros R Hn. rewrite (cr_lru _ _ _ _ _ _ R), elem_of_seq in Hn.
  apply lookup_lt_is_Some_2. rewrite (cr_len _ _ _ _ _ _ R). lia.
Qed.

(** The buffer that is recycled: the last unused one of the list. *)
Lemma bread_miss_victim c sl pid_ v held lockd :
  cache_rep c sl pid_ v held lockd -> (length held < NBUF)%nat ->
  exists n b l1 l2, rev (lru c) = l1 ++ n :: l2 /\ bufs c !! n = Some b /\ refcnt b = 0 /\
    forall m, m ∈ l1 -> exists bm, bufs c !! m = Some bm /\ refcnt bm <> 0.
Proof.
  intros R Hroom. destruct (rep_room _ _ _ _ _ _ R Hroom) as (n0 & b0 & Hb0 & H0).
  assert (Hall : forall m, m ∈ rev (lru c) -> exists b, bufs c !! m = Some b).
  { intros m Hm. eapply lru_lt; [done|]. by apply list_elem_of_In, in_rev, list_elem_of_In. }
  assert (Hin : n0 ∈ rev (lru c)).
  { apply list_elem_of_In. rewrite <- in_rev. apply list_elem_of_In.
    rewrite (cr_lru _ _ _ _ _ _ R), elem_of_seq. pose proof (lookup_lt_Some _ _ _ Hb0).
    rewrite (cr_len _ _ _ _ _ _ R) in *. lia. }
  revert Hall Hin. generalize (rev (lru c)). intros l. induction l as [|m l IH]; intros Hall Hin.
  { by apply elem_of_nil in Hin. }
  destruct (Hall m ltac:(by left)) as [b Hb]. destruct (decide (refcnt b = 0)) as [Hr|Hr].
  - exists m, b, [], l. split; [done|]. split; [done|]. split; [done|]. intros k Hk. by apply elem_of_nil in Hk.
  - apply elem_of_cons in Hin as [->|Hin]; [congruence|].
    destruct IH as (n & b' & l1 & l2 & -> & H1 & H2 & H3); [intros k Hk; apply Hall; by right|done|].
    exists n, b', (m :: l1), l2. split; [done|]. split; [done|]. split; [done|].
    intros k [->|Hk]%elem_of_cons; eauto.
Qed.

(** The sleep locks of inodes are not those of buffers. *)
Lemma inode_locks_kept (f : sleeplock -> sleeplock) n (sl : list sleeplock) k :
  (n < NBUF)%nat -> (NBUF <= k)%nat -> alter f n sl !! k = sl !! k.
Proof. intros Hn Hk. apply list_lookup_alter_ne. lia. Qed.

Section ops.
Context {DK : Disk} {DL : @DiskLaw DK} (fuel : nat).

Lemma bget_take n e s p pr l :
  fs_thread s p pr -> (n < NBUF)%nat -> sleeplocks s !! n = Some l -> slocked l = 0 ->
  (release Lbcache;; acquiresleep (S fuel) n;; mret (Some n)) e (enter Lbcache s) =
  Ret (Some n) e (left_off (with_bc (alter (fun l : sleeplock => l <| slocked := 1 |> <| spid := pid pr |>) n
                                       (sleeplocks s)) (bc s) s)).
Proof.
  intros H Hn Hl H0. assert (Hok : hart_ok s) by apply (ft_table _ _ _ H).
  rewrite bindE, release_enter by (done || apply H). rewrite bindE.
  rewrite (acquiresleep_free fuel n e (left_off s) p l pr); [|eapply fs_thread_ready|done].
  - set (g := fun l : sleeplock => l <| slocked := 1 |> <| spid := pid pr |>).
    change (left_off s <| sleeplocks ::= alter g n |>)
      with (left_off (with_bc (alter g n (sleeplocks s)) (bc s) s)).
    cbn [mret M_ret]. by rewrite left_off_idem.
  - by apply fs_thread_left_off.
  - lia.
  - done.
Qed.

(** [brelse] moves the buffer to the front. *)
Lemma move_front_perm (n : nat) (l : list nat) :
  NoDup l -> n ∈ l -> n :: filter (fun m => m <> n) l ≡ₚ l.
Proof.
  intros Hnd Hin. apply list_elem_of_split in Hin as (l1 & l2 & ->).
  apply list.NoDup_app in Hnd as (_ & Hd & Hnd). apply list.NoDup_cons in Hnd as [Hn2 _].
  assert (Hid : forall k : list nat, n ∉ k -> filter (fun m => m <> n) k = k).
  { intros k. induction k as [|m k IH]; intros Hk; [done|]. apply not_elem_of_cons in Hk as [Hm Hk].
    rewrite filter_cons, decide_True by congruence. by rewrite IH. }
  rewrite filter_app, filter_cons, decide_False by (intros Hx; by apply Hx).
  rewrite !Hid; [by rewrite Permutation_middle|done|]. intros Hx. apply (Hd n Hx). by left.
Qed.

Lemma bread_spec bno e s p pr v held lockd :
  fs_thread s p pr -> cache_rep (bc s) (sleeplocks s) (pid pr) v held lockd ->
  bno ∉ lockd -> bno ∈ held \/ (length held < NBUF)%nat -> Z.of_nat (length held) + 1 < 2 ^ 31 ->
  exists n sl' c', bread (S fuel) ROOTDEV bno e s = Ret n e (left_off (with_bc sl' c' s)) /\
    cache_rep c' sl' (pid pr) v (bno :: held) (bno :: lockd) /\ buffer_of c' n bno /\
    disk c' = disk (bc s) /\ writes c' = writes (bc s) /\
    (forall k, (NBUF <= k)%nat -> sl' !! k = sleeplocks s !! k) /\
    (forall m b, b ∈ held -> buffer_of (bc s) m b -> buffer_of c' m b).
Proof.
  intros H R Hnl Hroom Hbd. assert (Hok : hart_ok s) by apply (ft_table _ _ _ H).
  set (key := fun b : buf => (bdev b =? ROOTDEV) && (blockno b =? bno)).
  assert (Hkey : forall n b, bufs (bc s) !! n = Some b -> key b = true <-> caches (bc s) n bno b).
  { intros n b Hb. unfold key, caches. rewrite andb_true_iff, !Z.eqb_eq. naive_solver. }
  unfold bread, bget. rewrite bindE. rewrite bindE, acquire_Ret by (done || apply H).
  rewrite bindE. cbn [read]. change (lru (bc (enter Lbcache s))) with (lru (bc s)). rewrite bindE.
  destruct (decide (Exists (fun n => key <$> bufs (bc s) !! n = Some true) (lru (bc s)))) as [He|Hn].
  - (* cached *)
    apply list.Exists_exists in He as (n & Hin & (b & Hb & Hk)%fmap_Some). symmetry in Hk.
    assert (Hc : caches (bc s) n bno b) by by apply (Hkey n b Hb).
    assert (Hlt : (n < NBUF)%nat) by by eapply rep_index.
    destruct (lru_split _ _ _ _ _ _ n R Hlt) as (l1 & l2 & El & Hl1). rewrite El.
    rewrite for_first_skip.
    2: { intros m Hm. assert (m ∈ lru (bc s)) as Hm' by (rewrite El; apply elem_of_app; by left).
         destruct (lru_lt _ _ _ _ _ _ m R Hm') as [bm Hbm].
         unfold bget_cached. rewrite bindE, (get_buf_Ret m e (enter Lbcache s) bm) by done.
         fold (key bm). destruct (key bm) eqn:Ekm; [|done]. exfalso. apply (Hkey m bm Hbm) in Ekm.
         rewrite (cr_unique _ _ _ _ _ _ R m n bno bm b) in Hm by done. done. }
    cbn [for_first]. rewrite bindE. unfold bget_cached at 1.
    rewrite bindE, (get_buf_Ret n e (enter Lbcache s) b) by done. fold (key b). rewrite Hk.
    set (g := fun b : buf => b <| refcnt := u32 (refcnt b + 1) |>).
    rewrite bindE, (set_buf_Ret n g e (enter Lbcache s) b) by done.
    change (enter Lbcache s <| bc ::= set_buf_of n g |>)
      with (enter Lbcache (with_bc (sleeplocks s) (set_buf_of n g (bc s)) s)).
    set (s1 := with_bc (sleeplocks s) (set_buf_of n g (bc s)) s).
    destruct (cr_lock _ _ _ _ _ _ R n b Hb) as (l & Hl & _ & Hfree).
    assert (Hf0 : slocked l = 0).
    { apply Hfree. intros [_ Hx]. destruct Hc as (_ & _ & E). by rewrite E in Hx. }
    assert (H1 : fs_thread s1 p pr) by by apply (fs_thread_same s).
    rewrite (bget_take n e s1 p pr l) by done. cbn [mret M_ret].
    set (sl' := alter _ n (sleeplocks s1)).
    change (with_bc sl' (bc s1) s1) with (with_bc sl' (set_buf_of n g (bc s)) s).
    assert (Hbn : buffer_of (bc s) n bno) by by exists b.
    assert (Hbn1 : buffer_of (set_buf_of n g (bc s)) n bno) by by apply buffer_of_set.
    assert (Hv : bufs (set_buf_of n g (bc s)) !! n = Some (g b)) by (cbn; by rewrite list_lookup_alter_eq, Hb).
    rewrite bindE, (get_buf_Ret n e _ (g b)) by done.
    rewrite (proj2 (Z.eqb_neq (valid (g b)) 0)) by exact (cr_valid _ _ _ _ _ _ R n bno b Hc).
    exists n, sl', (set_buf_of n g (bc s)). split; [done|]. split; [|split; [done|]].
    + apply (rep_lock _ _ _ _ (bno :: held)); [by apply rep_add_ref|done|by left].
    + split; [done|]. split; [done|]. split; [intros; by apply inode_locks_kept|].
      intros m b1 _ Hm. by apply buffer_of_set.
  - (* not cached *)
    assert (Hmiss : forall m b, ~ caches (bc s) m bno b).
    { intros m b Hc. apply Hn. apply list.Exists_exists. exists m. split.
      - rewrite (cr_lru _ _ _ _ _ _ R), elem_of_seq. pose proof (rep_index _ _ _ _ _ _ R _ _ _ Hc). lia.
      - apply fmap_Some. exists b. split; [apply Hc|]. symmetry. by apply (Hkey m b); [apply Hc|]. }
    assert (Hnh : bno ∉ held) by (intros (m & b & Hm)%(cr_held _ _ _ _ _ _ R); by eapply Hmiss).
    destruct Hroom as [?|Hroom]; [done|].
    rewrite for_first_none.
    2: { intros m Hm. destruct (lru_lt _ _ _ _ _ _ m R Hm) as [bm Hbm].
         unfold bget_cached. rewrite bindE, (get_buf_Ret m e (enter Lbcache s) bm) by done.
         fold (key bm). destruct (key bm) eqn:Ekm; [|done]. exfalso. apply (Hkey m bm Hbm) in Ekm.
         by eapply Hmiss. }
    destruct (bread_miss_victim _ _ _ _ _ _ R Hroom) as (n & b & l1 & l2 & El & Hb & Hr0 & Hl1).
    rewrite bindE, El, for_first_skip.
    2: { intros m Hm. destruct (Hl1 m Hm) as (bm & Hbm & Hrm).
         unfold bget_recycle. rewrite bindE, (get_buf_Ret m e (enter Lbcache s) bm) by done.
         by rewrite (proj2 (Z.eqb_neq _ _) Hrm). }
    cbn [for_first]. rewrite bindE. unfold bget_recycle at 1.
    rewrite bindE, (get_buf_Ret n e (enter Lbcache s) b) by done. rewrite Hr0. change (0 =? 0) with true. cbn match.
    set (g := fun b : buf => b <| bdev := ROOTDEV |> <| blockno := bno |> <| valid := 0 |> <| refcnt := 1 |>).
    rewrite bindE, (set_buf_Ret n g e (enter Lbcache s) b) by done.
    change (enter Lbcache s <| bc ::= set_buf_of n g |>)
      with (enter Lbcache (with_bc (sleeplocks s) (set_buf_of n g (bc s)) s)).
    set (s1 := with_bc (sleeplocks s) (set_buf_of n g (bc s)) s).
    assert (Hlt : (n < NBUF)%nat) by (rewrite <- (cr_len _ _ _ _ _ _ R); by eapply lookup_lt_Some).
    destruct (cr_lock _ _ _ _ _ _ R n b Hb) as (l & Hl & _ & Hfree).
    assert (Hf0 : slocked l = 0).
    { apply Hfree. intros [Hd Hx%(cr_sub _ _ _ _ _ _ R)]. apply count_zero in Hx; [done|].
      by rewrite <- (cr_ref _ _ _ _ _ _ R n (blockno b) b). }
    assert (H1 : fs_thread s1 p pr) by by apply (fs_thread_same s).
    rewrite (bget_take n e s1 p pr l) by done. cbn [mret M_ret].
    set (sl' := alter _ n (sleeplocks s1)).
    change (with_bc sl' (bc s1) s1) with (with_bc sl' (set_buf_of n g (bc s)) s).
    set (s2 := left_off (with_bc sl' (set_buf_of n g (bc s)) s)).
    assert (Hv : bufs (bc s2) !! n = Some (g b)) by (cbn; by rewrite list_lookup_alter_eq, Hb).
    rewrite bindE, (get_buf_Ret n e s2 (g b)) by done. change (valid (g b) =? 0) with true. cbn [when].
    rewrite bindE, bindE, disk_transfers by eauto.
    set (h := fun b : buf => b <| bdata := disk (bc s) bno |>).
    assert (Ht : transfer n false (bc s2) = set_buf_of n h (set_buf_of n g (bc s))).
    { unfold transfer. rewrite Hv. done. }
    assert (E3 : s2 <| bc ::= transfer n false |> = left_off (with_bc sl' (set_buf_of n h (set_buf_of n g (bc s))) s)).
    { rewrite <- Ht. done. }
    rewrite E3, (set_buf_Ret n _ e _ (h (g b))) by (cbn; by rewrite !list_lookup_alter_eq, Hb).
    set (k := fun b : buf => b <| bdev := ROOTDEV |> <| blockno := bno |> <| valid := 1 |> <| refcnt := 1 |>
               <| bdata := disk (bc s) bno |>).
    assert (Hk : set_buf_of n (fun b : buf => b <| valid := 1 |>) (set_buf_of n h (set_buf_of n g (bc s))) =
      set_buf_of n k (bc s)).
    { unfold set_buf_of. cbn. f_equal. by rewrite !list_alter_alter_eq. }
    exists n, sl', (set_buf_of n k (bc s)). split; [by rewrite <- Hk|].
    assert (Rk := rep_recycle _ _ _ _ _ _ R n b bno Hmiss Hb Hr0 Hbd). fold k in Rk.
    assert (Hbn : buffer_of (set_buf_of n k (bc s)) n bno).
    { exists (k b). split; [cbn; by rewrite list_lookup_alter_eq, Hb|done]. }
    split; [by apply (rep_lock _ _ _ _ (bno :: held)); [|done|left]|].
    split; [done|]. split; [done|]. split; [done|]. split; [intros; by apply inode_locks_kept|].
    intros m b1 Hb1 [bm Hm]. exists bm. destruct Hm as (E & E1 & E2).
    split; [|done]. cbn. rewrite list_lookup_alter_ne; [done|]. intros ->.
    assert (Hx : count b1 held = 0); [|by apply count_zero in Hx].
    rewrite <- (cr_ref _ _ _ _ _ _ R m b1 bm); [congruence|by split].
Qed.
Lemma locked_buffer s p pr v held lockd n bno :
  fs_thread s p pr -> cache_rep (bc s) (sleeplocks s) (pid pr) v held lockd ->
  buffer_of (bc s) n bno -> bno ∈ lockd ->
  exists l, ready s n p l pr /\ (n < NBUF)%nat /\
    (negb (slocked l =? 0) && (spid l =? pid pr)) = true.
Proof.
  intros H R [b Hb] Hin. assert (Hlt : (n < NBUF)%nat) by by eapply rep_index.
  assert (Hb' := Hb). destruct Hb' as (E & E1 & E2).
  destruct (cr_lock _ _ _ _ _ _ R n b E) as (l & Hl & Hs & _).
  exists l. split; [|split; [done|]].
  - eapply fs_thread_ready; [done|lia|done].
  - destruct Hs as [-> ->]; [by rewrite E2|]. by rewrite Z.eqb_refl.
Qed.

Lemma bwrite_spec n bno e s p pr v held lockd :
  fs_thread s p pr -> cache_rep (bc s) (sleeplocks s) (pid pr) v held lockd ->
  buffer_of (bc s) n bno -> bno ∈ lockd ->
  exists c', bwrite n e s = Ret tt e (left_off (with_bc (sleeplocks s) c' s)) /\
    cache_rep c' (sleeplocks s) (pid pr) v held lockd /\
    (forall b, disk c' b = if b =? bno then v bno else disk (bc s) b) /\
    writes c' = (bno, v bno) :: writes (bc s) /\
    (forall m b, buffer_of (bc s) m b -> buffer_of c' m b).
Proof.
  intros H R Hn Hin. destruct (locked_buffer s p pr v held lockd n bno) as (l & Hr & Hlt & Hl); [done..|].
  assert (Hheld : bno ∈ held) by by apply (cr_sub _ _ _ _ _ _ R).
  destruct (rep_write _ _ _ _ _ _ R n bno Hn Hheld) as (R' & Hd & Hw & Hbufs).
  exists (transfer n true (bc s)). split; [|split; [done|]; split; [done|]; split; [done|]].
  - unfold bwrite. rewrite bindE, (holdingsleep_Ret n e s p l pr), Hl by done. cbn [negb].
    rewrite disk_transfers; [done|]. change (bc (left_off s)) with (bc s).
    apply lookup_lt_is_Some_2. by rewrite (cr_len _ _ _ _ _ _ R).
  - intros m b [x Hx]. exists x. unfold caches. by rewrite Hbufs.
Qed.

Lemma brelse_spec n bno e s p pr v held lockd held' lockd' :
  fs_thread s p pr -> cache_rep (bc s) (sleeplocks s) (pid pr) v held lockd ->
  buffer_of (bc s) n bno -> held ≡ₚ bno :: held' -> lockd ≡ₚ bno :: lockd' -> bno ∉ lockd' ->
  bno ∈ held' \/ v bno = disk (bc s) bno -> (forall b, b ∈ lockd' -> b ∈ held') ->
  exists sl' c', brelse n e s = Ret tt e (left_off (with_bc sl' c' s)) /\
    cache_rep c' sl' (pid pr) v held' lockd' /\ disk c' = disk (bc s) /\ writes c' = writes (bc s) /\
    (forall k, (NBUF <= k)%nat -> sl' !! k = sleeplocks s !! k) /\
    (forall m b, buffer_of (bc s) m b -> buffer_of c' m b).
Proof.
  intros H R Hn Hh Hl Hnew Hc Hsub.
  destruct (locked_buffer s p pr v held lockd n bno) as (l & Hr & Hlt & Hlk); [done..|rewrite Hl; by left|].
  assert (Hok : hart_ok s) by apply (ft_table _ _ _ H).
  set (g := fun b : buf => b <| refcnt := u32 (refcnt b - 1) |>).
  set (sl' := alter (fun l : sleeplock => l <| slocked := 0 |> <| spid := 0 |>) n (sleeplocks s)).
  assert (R1 : cache_rep (bc s) sl' (pid pr) v held lockd') by by apply (rep_unlock _ _ _ _ _ _ R n bno).
  assert (R2 : cache_rep (set_buf_of n g (bc s)) sl' (pid pr) v held' lockd')
    by by apply (rep_drop_ref _ _ _ _ _ _ R1 n bno).
  destruct Hn as [b Hb]. assert (Hb' := Hb). destruct Hb' as (E & E1 & E2).
  set (c1 := set_buf_of n g (bc s)) in *.
  assert (Ec1 : bufs c1 !! n = Some (g b)) by (cbn; by rewrite list_lookup_alter_eq, E).
  set (c2 := c1 <| lru ::= fun l => n :: filter (fun m => m <> n) l |>).
  assert (R3 : cache_rep c2 sl' (pid pr) v held' lockd').
  { apply rep_lru; [done|]. apply move_front_perm.
    - rewrite (cr_lru _ _ _ _ _ _ R2). apply NoDup_seq.
    - rewrite (cr_lru _ _ _ _ _ _ R2), elem_of_seq. lia. }
  assert (Hhandle : forall m b0, buffer_of (bc s) m b0 -> buffer_of c1 m b0)
    by (intros; by apply buffer_of_set).
  assert (Hrun : brelse n e s = Ret tt e (left_off (with_bc sl' (if refcnt (g b) =? 0 then c2 else c1) s))).
  { unfold brelse. fold g. rewrite bindE, (holdingsleep_Ret n e s p l pr), Hlk by done. cbn [negb].
    rewrite bindE, (releasesleep_Ret n e (left_off s) p l pr).
    2: { eapply fs_thread_ready; [by apply fs_thread_left_off|lia|apply Hr]. }
    assert (Eq : left_off s <| sleeplocks ::= alter (fun l : sleeplock => l <| slocked := 0 |> <| spid := 0 |>) n |>
                   <| procs ::= imap (wake1 (ChSleep n) (Some p)) |> = left_off (with_bc sl' (bc s) s)).
    { rewrite (procs_update_ext _ (imap (wake1 (ChSleep n) (Some p))) id).
      - by destruct s.
      - exact (wake1_quiet s p pr (ChSleep n) (Some p) H I). }
    rewrite Eq, left_off_idem by done.
    set (s1 := with_bc sl' (bc s) s).
    rewrite bindE, acquire_Ret by (by apply hart_ok_left_off || apply H). rewrite enter_left_off by done.
    rewrite bindE, (set_buf_Ret n g e (enter Lbcache s1) b) by done.
    change (enter Lbcache s1 <| bc ::= set_buf_of n g |>) with (enter Lbcache (with_bc sl' c1 s)).
    rewrite bindE, (get_buf_Ret n e (enter Lbcache (with_bc sl' c1 s)) (g b)) by done. rewrite bindE.
    destruct (refcnt (g b) =? 0); cbn [when modify mret M_ret].
    - apply (release_from Lbcache e _ (with_bc sl' c2 s)); [done|done|apply H].
    - apply (release_from Lbcache e _ (with_bc sl' c1 s)); [done|done|apply H]. }
  exists sl', (if refcnt (g b) =? 0 then c2 else c1). split; [done|].
  assert (Hkeep : forall k, (NBUF <= k)%nat -> sl' !! k = sleeplocks s !! k) by (intros; by apply inode_locks_kept).
  destruct (refcnt (g b) =? 0).
  - split; [done|]. split; [done|]. split; [done|]. split; [done|]. intros m b0 Hm%Hhandle. exact Hm.
  - split; [done|]. split; [done|]. split; [done|]. by split.
Qed.

Lemma bpin_spec n bno e s p pr v held lockd :
  fs_thread s p pr -> cache_rep (bc s) (sleeplocks s) (pid pr) v held lockd ->
  buffer_of (bc s) n bno -> Z.of_nat (length held) + 1 < 2 ^ 31 ->
  exists c', bpin n e s = Ret tt e (left_off (with_bc (sleeplocks s) c' s)) /\
    cache_rep c' (sleeplocks s) (pid pr) v (bno :: held) lockd /\
    disk c' = disk (bc s) /\ writes c' = writes (bc s) /\
    (forall m b, buffer_of (bc s) m b -> buffer_of c' m b).
Proof.
  intros H R Hn Hbd. assert (Hok : hart_ok s) by apply (ft_table _ _ _ H).
  set (g := fun b : buf => b <| refcnt := u32 (refcnt b + 1) |>).
  exists (set_buf_of n g (bc s)). split; [|split; [by apply rep_add_ref|]; split; [done|]; split; [done|]].
  - destruct Hn as [b (E & _)]. unfold bpin. fold g. rewrite bindE, acquire_Ret by (done || apply H).
    rewrite bindE, (set_buf_Ret n g e (enter Lbcache s) b) by done.
    apply (release_from Lbcache e _ (with_bc (sleeplocks s) (set_buf_of n g (bc s)) s)); [done|done|apply H].
  - intros m b Hm. by apply buffer_of_set.
Qed.

Lemma bunpin_spec n bno e s p pr v held lockd held' :
  fs_thread s p pr -> cache_rep (bc s) (sleeplocks s) (pid pr) v held lockd ->
  buffer_of (bc s) n bno -> held ≡ₚ bno :: held' -> bno ∈ held' \/ v bno = disk (bc s) bno ->
  (forall b, b ∈ lockd -> b ∈ held') ->
  exists c', bunpin n e s = Ret tt e (left_off (with_bc (sleeplocks s) c' s)) /\
    cache_rep c' (sleeplocks s) (pid pr) v held' lockd /\
    disk c' = disk (bc s) /\ writes c' = writes (bc s) /\
    (forall m b, buffer_of (bc s) m b -> buffer_of c' m b).
Proof.
  intros H R Hn Hh Hc Hsub. assert (Hok : hart_ok s) by apply (ft_table _ _ _ H).
  set (g := fun b : buf => b <| refcnt := u32 (refcnt b - 1) |>).
  exists (set_buf_of n g (bc s)).
  split; [|split; [by apply (rep_drop_ref _ _ _ _ _ _ R n bno)|]; split; [done|]; split; [done|]].
  - destruct Hn as [b (E & _)]. unfold bunpin. fold g. rewrite bindE, acquire_Ret by (done || apply H).
    rewrite bindE, (set_buf_Ret n g e (enter Lbcache s) b) by done.
    apply (release_from Lbcache e _ (with_bc (sleeplocks s) (set_buf_of n g (bc s)) s)); [done|done|apply H].
  - intros m b Hm. by apply buffer_of_set.
Qed.
End ops.

(** ** Calls as predicate transformers

    What file system code changes: buffers, sleep locks, the log, inodes, and
    the interrupt bookkeeping of the hart. *)

Definition upd (v : Z -> list Z) (b : Z) (d : list Z) : Z -> list Z :=
  fun x => if x =? b then d else v x.

(** The disk after a list of writes, the last first. *)
Definition play (W : list (Z * list Z)) (d : Z -> list Z) : Z -> list Z :=
  foldr (fun w d => upd d w.1 w.2) d W.

Lemma upd_same v b d : upd v b d b = d.
Proof. unfold upd. by rewrite Z.eqb_refl. Qed.

Lemma upd_other v b d x : x <> b -> upd v b d x = v x.
Proof. intros H. unfold upd. by destruct (Z.eqb_spec x b). Qed.

Lemma play_app W1 W2 d x : play (W1 ++ W2) d x = play W1 (play W2 d) x.
Proof. unfold play. by rewrite foldr_app. Qed.

Lemma play_ext W d1 d2 x : (forall y, d1 y = d2 y) -> play W d1 x = play W d2 x.
Proof.
  intros H. induction W as [|w W IH]; [apply H|]. unfold play. cbn [foldr]. unfold upd at 1 3.
  by destruct (x =? w.1).
Qed.

Definition fs_frame (s t : mach) : Prop :=
  t = s <| cpus := cpus t |> <| sleeplocks := sleeplocks t |> <| bc := bc t |>
        <| slog := slog t |> <| inodes := inodes t |> /\
  (cpus t = cpus s \/ cpus t = cpus (left_off s)).

Lemma fs_frame_refl s : fs_frame s s.
Proof. split; [by destruct s|by left]. Qed.

Lemma fs_frame_trans s t u : hart_ok s -> fs_frame s t -> fs_frame t u -> fs_frame s u.
Proof.
  intros Hok [Et Ht] [Eu Hu]. assert (Htp : tp t = tp s) by by rewrite Et. split.
  - rewrite Eu. rewrite Et. by destruct s, u.
  - destruct Hu as [->| ->]; [done|]. right.
    destruct Ht as [E|E]; unfold left_off, on_cpu in *; cbn in *; rewrite E, Htp; [done|].
    assert (Hi := left_off_idem s Hok). unfold left_off, on_cpu in Hi.
    apply (f_equal cpus) in Hi. exact Hi.
Qed.

Lemma fs_frame_left_off sl c s : fs_frame s (left_off (with_bc sl c s)).
Proof. split; [by destruct s|by right]. Qed.

Section calls.
Context {DK : Disk} {DL : @DiskLaw DK} (fuel : nat) (p : nat) (pr : proc) (e : env).

(** Process [p] runs file system code; the blocks hold [v]; it refers to the
    blocks [h] and has those of [k] locked. *)
Definition fs_rep (s : mach) (v : Z -> list Z) (h k : list Z) : Prop :=
  fs_thread s p pr /\ cache_rep (bc s) (sleeplocks s) (pid pr) v h k.

(** From [s] to [t] the blocks [W] were written, the buffers of the blocks
    [keep] stayed where they are, and beyond the cache and the log nothing
    happened. *)
Record fs_step (keep : list Z) (W : list (Z * list Z)) (s t : mach) : Prop := mkFsStep {
  bs_frame : fs_frame s t;
  bs_inodes : inodes t = inodes s;
  bs_locks : forall i, (NBUF <= i)%nat -> sleeplocks t !! i = sleeplocks s !! i;
  bs_writes : writes (bc t) = W ++ writes (bc s);
  bs_disk : forall b, disk (bc t) b = play W (disk (bc s)) b;
  bs_keep : forall n b, b ∈ keep -> buffer_of (bc s) n b -> buffer_of (bc t) n b
}.

(** The same without a change of the log. *)
Record bio_step (keep : list Z) (W : list (Z * list Z)) (s t : mach) : Prop := mkBioStep {
  bs_step :> fs_step keep W s t;
  bs_log : slog t = slog s
}.

Lemma fs_step_trans keep keep1 keep2 W1 W2 s t u :
  hart_ok s -> fs_step keep1 W1 s t -> fs_step keep2 W2 t u ->
  (forall b, b ∈ keep -> b ∈ keep1 /\ b ∈ keep2) -> fs_step keep (W2 ++ W1) s u.
Proof.
  intros Hok [F1 I1 S1 Wr1 D1 K1] [F2 I2 S2 Wr2 D2 K2] Hk. split.
  - by eapply fs_frame_trans.
  - congruence.
  - intros i Hi. by rewrite S2, S1.
  - by rewrite Wr2, Wr1, app_assoc.
  - intros b. rewrite D2, play_app. by apply play_ext.
  - intros n b [H1 H2]%Hk Hb. auto.
Qed.

Lemma bio_step_trans keep keep1 keep2 W1 W2 s t u :
  hart_ok s -> bio_step keep1 W1 s t -> bio_step keep2 W2 t u ->
  (forall b, b ∈ keep -> b ∈ keep1 /\ b ∈ keep2) -> bio_step keep (W2 ++ W1) s u.
Proof.
  intros Hok [S1 L1] [S2 L2] Hk. split; [by apply (fs_step_trans _ keep1 keep2 _ _ _ t)|congruence].
Qed.

Lemma bio_step_refl keep s : bio_step keep [] s s.
Proof. split; [split|]; try done. apply fs_frame_refl. Qed.

Lemma fs_rep_hart s v h k : fs_rep s v h k -> hart_ok s.
Proof. intros [[]]. apply ft_table0. Qed.

(** A block nobody refers to is on the disk. *)
Lemma fs_rep_clean s v h k b : fs_rep s v h k -> b ∉ h -> v b = disk (bc s) b.
Proof. intros [_ R]. by apply R. Qed.

Lemma fs_rep_size s v h k b : fs_rep s v h k -> length (v b) = 1024%nat.
Proof. intros [_ R]. by apply R. Qed.

Lemma fs_rep_ext s v h k v' h' k' :
  fs_rep s v h k -> (forall b, v' b = v b) -> h ≡ₚ h' -> k ≡ₚ k' -> fs_rep s v' h' k'.
Proof. intros [Hf R] Hv Hh Hk. split; [done|]. by eapply cache_rep_equiv. Qed.

Lemma fs_rep_log s v h k f : fs_rep s v h k -> fs_rep (s <| slog ::= f |>) v h k.
Proof. intros [Hf R]. split; [by apply (fs_thread_same s)|done]. Qed.

Lemma fs_step_log keep s f : fs_step keep [] s (s <| slog ::= f |>).
Proof. split; try done. split; [by destruct s|by left]. Qed.

Lemma fs_rep_with s v h k sl c v' h' k' :
  fs_rep s v h k -> cache_rep c sl (pid pr) v' h' k' -> fs_rep (left_off (with_bc sl c s)) v' h' k'.
Proof. intros [H _] R. split; [by apply fs_thread_with_bc|done]. Qed.

Lemma wp_bread bno s v h k (Q : nat -> mach -> Prop) :
  fs_rep s v h k -> bno ∉ k -> bno ∈ h \/ (length h < NBUF)%nat -> Z.of_nat (length h) + 1 < 2 ^ 31 ->
  (forall n t, fs_rep t v (bno :: h) (bno :: k) -> buffer_of (bc t) n bno -> bio_step h [] s t -> Q n t) ->
  wp (bread (S fuel) ROOTDEV bno) e s Q.
Proof.
  intros H Hk Hr Hb HQ. assert (H' := H). destruct H' as [Hf R].
  destruct (bread_spec fuel bno e s p pr v h k) as (n & sl & c & E & R' & Hn & Hd & Hw & Hl & Hkeep); [done..|].
  eapply wp_call; [done|]. apply HQ; [by eapply fs_rep_with|done|].
  split; [split|]; try done; [apply fs_frame_left_off|]. intros b. cbn. by rewrite Hd.
Qed.

Lemma wp_bwrite n bno s v h k (Q : unit -> mach -> Prop) :
  fs_rep s v h k -> buffer_of (bc s) n bno -> bno ∈ k ->
  (forall t, fs_rep t v h k -> bio_step h [(bno, v bno)] s t -> Q tt t) ->
  wp (bwrite n) e s Q.
Proof.
  intros H Hn Hk HQ. assert (H' := H). destruct H' as [Hf R].
  destruct (bwrite_spec n bno e s p pr v h k) as (c & E & R' & Hd & Hw & Hkeep); [done..|].
  eapply wp_call; [done|]. apply HQ; [by eapply fs_rep_with|].
  split; [split|]; try done; [apply fs_frame_left_off|]. intros; by apply Hkeep.
Qed.

Lemma wp_brelse n bno s v h k h' k' (Q : unit -> mach -> Prop) :
  fs_rep s v h k -> buffer_of (bc s) n bno -> h ≡ₚ bno :: h' -> k ≡ₚ bno :: k' -> bno ∉ k' ->
  bno ∈ h' \/ v bno = disk (bc s) bno -> (forall b, b ∈ k' -> b ∈ h') ->
  (forall t, fs_rep t v h' k' -> bio_step h [] s t -> Q tt t) ->
  wp (brelse n) e s Q.
Proof.
  intros H Hn Hh Hk Hk' Hc Hsub HQ. assert (H' := H). destruct H' as [Hf R].
  destruct (brelse_spec n bno e s p pr v h k h' k') as (sl & c & E & R' & Hd & Hw & Hl & Hkeep); [done..|].
  eapply wp_call; [done|]. apply HQ; [by eapply fs_rep_with|].
  split; [split|]; try done; [apply fs_frame_left_off|..].
  - intros b. cbn. by rewrite Hd.
  - intros; by apply Hkeep.
Qed.

Lemma wp_bpin n bno s v h k (Q : unit -> mach -> Prop) :
  fs_rep s v h k -> buffer_of (bc s) n bno -> Z.of_nat (length h) + 1 < 2 ^ 31 ->
  (forall t, fs_rep t v (bno :: h) k -> bio_step h [] s t -> Q tt t) ->
  wp (bpin n) e s Q.
Proof.
  intros H Hn Hb HQ. assert (H' := H). destruct H' as [Hf R].
  destruct (bpin_spec n bno e s p pr v h k) as (c & E & R' & Hd & Hw & Hkeep); [done..|].
  eapply wp_call; [done|]. apply HQ; [by eapply fs_rep_with|].
  split; [split|]; try done; [apply fs_frame_left_off|..].
  - intros b. cbn. by rewrite Hd.
  - intros; by apply Hkeep.
Qed.

Lemma wp_bunpin n bno s v h k h' (Q : unit -> mach -> Prop) :
  fs_rep s v h k -> buffer_of (bc s) n bno -> h ≡ₚ bno :: h' ->
  bno ∈ h' \/ v bno = disk (bc s) bno -> (forall b, b ∈ k -> b ∈ h') ->
  (forall t, fs_rep t v h' k -> bio_step h [] s t -> Q tt t) ->
  wp (bunpin n) e s Q.
Proof.
  intros H Hn Hh Hc Hsub HQ. assert (H' := H). destruct H' as [Hf R].
  destruct (bunpin_spec n bno e s p pr v h k h') as (c & E & R' & Hd & Hw & Hkeep); [done..|].
  eapply wp_call; [done|]. apply HQ; [by eapply fs_rep_with|].
  split; [split|]; try done; [apply fs_frame_left_off|..].
  - intros b. cbn. by rewrite Hd.
  - intros; by apply Hkeep.
Qed.

Lemma wp_get_buf n bno s v h k (Q : buf -> mach -> Prop) :
  fs_rep s v h k -> buffer_of (bc s) n bno ->
  (forall b, bdata b = v bno -> blockno b = bno -> Q b s) -> wp (get_buf n) e s Q.
Proof.
  intros [_ R] [b Hb] HQ. apply (wp_call _ _ _ b s); [apply get_buf_Ret, Hb|].
  apply HQ; [by apply (cr_view _ _ _ _ _ _ R n)|apply Hb].
Qed.

(** A store into the data of a buffer. *)
Lemma wp_set_data n bno d f s v h k (Q : unit -> mach -> Prop) :
  fs_rep s v h k -> buffer_of (bc s) n bno -> bno ∈ h -> length d = 1024%nat ->
  (forall b, bdata b = v bno -> f b = b <| bdata := d |>) ->
  (forall t, fs_rep t (upd v bno d) h k -> bio_step h [] s t -> Q tt t) ->
  wp (set_buf n f) e s Q.
Proof.
  intros [Hf R] Hn Hh Hd Hfd HQ. assert (Hn' := Hn). destruct Hn' as [b Hb]. assert (Hb' := Hb).
  destruct Hb' as (E & _).
  eapply wp_call; [by apply (set_buf_Ret n f e s b)|].
  set (g := fun b : buf => b <| bdata := d |>).
  assert (Ec : set_buf_of n f (bc s) = set_buf_of n g (bc s)).
  { unfold set_buf_of. destruct (bc s) as [bs l dk w]. cbn in *. f_equal.
    apply list_eq. intros i. destruct (decide (i = n)) as [->|Hne].
    - rewrite !list_lookup_alter_eq, E. cbn. f_equal. apply Hfd.
      exact (cr_view _ _ _ _ _ _ R n bno b Hb).
    - by rewrite !list_lookup_alter_ne. }
  apply HQ.
  - split; [by apply (fs_thread_same s)|]. cbn. rewrite Ec. by apply rep_data.
  - split; [split|]; try done.
    + split; [by destruct s|by left].
    + intros m b' _ Hm. cbn. rewrite Ec. by apply buffer_of_set.
Qed.

End calls.

(** A buffer is still where an earlier call left it. *)
Ltac handle :=
  match goal with
  | H : buffer_of (bc ?t) ?n ?b |- buffer_of (bc ?t) ?n ?b => exact H
  | S : bio_step _ _ ?s ?t |- buffer_of (bc ?t) _ _ => apply (bs_keep _ _ _ _ S); [set_solver|handle]
  | S : fs_step _ _ ?s ?t |- buffer_of (bc ?t) _ _ => apply (bs_keep _ _ _ _ S); [set_solver|handle]
  end.

(** Join two consecutive steps [S1] and [S2] into [S1], for the blocks [h]. *)
Tactic Notation "join" constr(h) hyp(S1) hyp(S2) :=
  let S := fresh in
  lazymatch type of S1 with
  | bio_step _ _ ?s _ =>
      assert (Hok : hart_ok s) by (eapply fs_rep_hart; eassumption);
      lazymatch type of S2 with
      | bio_step _ _ _ _ => assert (S := bio_step_trans h _ _ _ _ _ _ _ Hok S1 S2 ltac:(set_solver))
      | _ => assert (S := fs_step_trans h _ _ _ _ _ _ _ Hok (bs_step _ _ _ _ S1) S2 ltac:(set_solver))
      end; clear Hok
  | fs_step _ _ ?s _ =>
      assert (Hok : hart_ok s) by (eapply fs_rep_hart; eassumption);
      lazymatch type of S2 with
      | bio_step _ _ _ _ => assert (S := fs_step_trans h _ _ _ _ _ _ _ Hok S1 (bs_step _ _ _ _ S2) ltac:(set_solver))
      | _ => assert (S := fs_step_trans h _ _ _ _ _ _ _ Hok S1 S2 ltac:(set_solver))
      end; clear Hok
  end; clear S1 S2; rename S into S1.

(** ** After boot *)

(** Static storage is zero: no buffer belongs to a device or is in use. *)
Definition zero_cache (c : bcache) : Prop :=
  length (bufs c) = NBUF /\
  (forall n b, bufs c !! n = Some b -> bdev b = 0 /\ refcnt b = 0) /\
  forall bno, length (disk c bno) = 1024%nat.

Lemma rep_fresh c sl pid_ :
  zero_cache c -> lru c ≡ₚ seq 0 NBUF ->
  (forall n, (n < NBUF)%nat -> exists l, sl !! n = Some l /\ slocked l = 0) ->
  cache_rep c sl pid_ (disk c) [] [].
Proof.
  intros (Hl & Hb & Hd) Hlru Hs.
  assert (Hno : forall n bno b, ~ caches c n bno b).
  { intros n bno b (E & E1 & _). destruct (Hb n b E) as [E0 _]. rewrite E0 in E1. done. }
  split; try (intros n bno b Hc; by apply Hno in Hc); try (intros bno Hx; by apply elem_of_nil in Hx); try done.
  - intros n b E _. by apply (Hb n).
  - intros n m bno b b' Hc. by apply Hno in Hc.
  - intros n b E. destruct (Hs n) as (l & El & E0); [rewrite <- Hl; by eapply lookup_lt_Some|].
    exists l. split; [done|]. split; [|done]. intros [_ Hx]. by apply elem_of_nil in Hx.
Qed.

Lemma initsleeplock_Ret n nm e s l :
  sleeplocks s !! n = Some l ->
  initsleeplock n nm e s = Ret tt e (s <| locks ::= <[Lsleep n := mkSpinlock 0 "sleep lock" None]> |>
    <| sleeplocks ::= alter (fun _ => mkSleeplock 0 nm 0) n |>).
Proof.
  intros Hl. unfold initsleeplock, initlock, set_lock. rewrite bindE. cbn [modify].
  set (f1 := fun l : sleeplock => l <| sname := nm |>).
  set (f2 := fun l : sleeplock => l <| slocked := 0 |>).
  rewrite bindE, (set_sleeplock_Ret n f1 e _ l) by done.
  rewrite bindE, (set_sleeplock_Ret n f2 e _ (f1 l)) by by apply (lookup_alter_here f1).
  rewrite (set_sleeplock_Ret n _ e _ (f2 (f1 l))).
  2: { cbn. rewrite !list_lookup_alter_eq, Hl. done. }
  f_equal. destruct s. unfold update_with. cbn. f_equal. by rewrite !list_alter_alter_eq.
Qed.

(** [binit] puts every buffer, none of them in use, into the list and
    frees their locks; from then on the cache holds, for every block, what
    the disk holds, and only the locks, the sleep locks and the order of the
    list have changed. *)
Theorem binit_empties (e : env) (s : mach) (pid_ : Z) :
  zero_cache (bc s) -> (NBUF <= length (sleeplocks s))%nat ->
  exists t, binit e s = Ret tt e t /\
    cache_rep (bc t) (sleeplocks t) pid_ (disk (bc s)) [] [] /\
    (free_lock t Lbcache /\ forall n, (n < NBUF)%nat -> free_lock t (Lsleep n)) /\
    t = s <| locks := locks t |> <| sleeplocks := sleeplocks t |> <| bc := bc s <| lru := lru (bc t) |> |>.
Proof.
  intros Hz Hl.
  set (I := fun (i : nat) (t : mach) => lru (bc t) = rev (seq 0 i) /\
    length (sleeplocks t) = length (sleeplocks s) /\
    (forall n, (n < i)%nat -> exists l, sleeplocks t !! n = Some l /\ slocked l = 0) /\
    (free_lock t Lbcache /\ forall n, (n < i)%nat -> free_lock t (Lsleep n)) /\
    t = s <| locks := locks t |> <| sleeplocks := sleeplocks t |> <| bc := bc s <| lru := lru (bc t) |> |>).
  assert (Hw : wp binit e s (fun _ t => I NBUF t)).
  { unfold binit. apply wp_bind, wp_modify, wp_bind, wp_modify. apply (wp_for_each _ I).
    - split; [done|]. split; [done|]. split; [intros n Hn; lia|]. split; [|by destruct s as [? ? ? ? ? ? ? ? ? ? ? ? ? ? []]].
      split; [|intros n Hn; lia]. exists "bcache"%string. cbn. by rewrite lookup_insert_eq.
    - intros i n t Hi (E1 & E2 & E3 & (E4 & E5) & E6). apply lookup_seq in Hi as [-> Hi]. cbn [Nat.add].
      destruct (lookup_lt_is_Some_2 (sleeplocks t) i) as [l El]; [lia|].
      apply wp_bind. eapply wp_call; [by eapply initsleeplock_Ret|]. apply wp_modify.
      split; [rewrite seq_S, rev_app_distr; cbn; by rewrite E1|]. split; [rewrite <- E2; apply length_alter|].
      split; [|split; [split|]].
      + intros m Hm. cbn. destruct (decide (m = i)) as [->|Hne].
        * rewrite list_lookup_alter_eq, El. eauto.
        * rewrite list_lookup_alter_ne by done. apply E3. lia.
      + destruct E4 as [nm E4]. exists nm. cbn. by rewrite lookup_insert_ne.
      + intros m Hm. destruct (decide (m = i)) as [->|Hne].
        * exists "sleep lock"%string. cbn. by rewrite lookup_insert_eq.
        * destruct (E5 m ltac:(lia)) as [nm E]. exists nm. cbn. rewrite lookup_insert_ne by congruence. done.
      + rewrite E6. cbn. by destruct s as [? ? ? ? ? ? ? ? ? ? ? ? ? ? []].
    - intros t Ht. exact Ht. }
  destruct Hw as ([] & t & Hr & E1 & E2 & E3 & E4 & E5). exists t. split; [done|]. split; [|done].
  assert (Ebc : bc t = bc s <| lru := lru (bc t) |>) by by rewrite E5 at 1.
  change (disk (bc s)) with (disk (bc s <| lru := lru (bc t) |>)). rewrite <- Ebc.
  apply rep_fresh; [|by rewrite E1, <- Permutation_rev|done].
  rewrite Ebc. exact Hz.
Qed.

(** ** Reading a block *)

Section claims.
Context {DK : Disk} {DL : @DiskLaw DK}.

(** With every buffer in use and none for the block, [bget] gives up. *)
Lemma bread_panics fuel bno e s p pr v h k :
  fs_thread s p pr -> cache_rep (bc s) (sleeplocks s) (pid pr) v h k ->
  bno ∉ h -> (forall n b, bufs (bc s) !! n = Some b -> refcnt b <> 0) ->
  exists t, bread fuel ROOTDEV bno e s = Panic "bget: no buffers"%string t.
Proof.
  intros H R Hh Hfull. assert (Hok : hart_ok s) by apply (ft_table _ _ _ H).
  unfold bread, bget. rewrite bindE. rewrite bindE, acquire_Ret by (done || apply H).
  rewrite bindE. cbn [read]. change (lru (bc (enter Lbcache s))) with (lru (bc s)). rewrite bindE.
  assert (Hall : forall m, m ∈ lru (bc s) -> exists b, bufs (bc s) !! m = Some b /\
    bdev b = ROOTDEV /\ blockno b <> bno /\ refcnt b <> 0).
  { intros m Hm. destruct (lru_lt _ _ _ _ _ _ m R Hm) as [b Hb]. exists b. split; [done|].
    assert (Hd : bdev b = ROOTDEV).
    { destruct (decide (bdev b = ROOTDEV)) as [|Hd]; [done|]. exfalso. apply (Hfull m b Hb).
      by apply (cr_other _ _ _ _ _ _ R m). }
    split; [done|]. split; [|by apply (Hfull m)]. intros <-. apply (Hfull m b Hb).
    rewrite (cr_ref _ _ _ _ _ _ R m (blockno b) b) by done. by apply count_zero. }
  rewrite for_first_none.
  2: { intros m Hm. destruct (Hall m Hm) as (b & Hb & Hd & Hn & _).
       unfold bget_cached. rewrite bindE, (get_buf_Ret m e (enter Lbcache s) b) by done.
       by rewrite (proj2 (Z.eqb_neq _ _) Hn), andb_false_r. }
  rewrite bindE, for_first_none; [by eexists|].
  intros m Hm. apply list_elem_of_In, in_rev, list_elem_of_In in Hm.
  destruct (Hall m Hm) as (b & Hb & _ & _ & Hr).
  unfold bget_recycle. rewrite bindE, (get_buf_Ret m e (enter Lbcache s) b) by done.
  by rewrite (proj2 (Z.eqb_neq _ _) Hr).
Qed.

(** C31. [bread] on every branch.  Called for a block that the process has
    not locked it returns, as long as the block is in use or some buffer is
    not, a buffer that is locked by the process, valid, and holds the current
    contents of the block, be they in the cache or on the disk; the block has
    one more reference, the invariant of the cache holds again (in
    particular no block has two buffers) and nothing is written.  If every
    buffer is in use, and none for the block, it panics. *)
Theorem bread_correct (fuel : nat) (bno : Z) (e : env) (s : mach) (p : nat) (pr : proc)
    (v : Z -> list Z) (h k : list Z) :
  fs_rep p pr s v h k -> bno ∉ k -> Z.of_nat (length h) + 1 < 2 ^ 31 ->
  (bno ∈ h \/ (length h < NBUF)%nat ->
     exists n b l t, bread (S fuel) ROOTDEV bno e s = Ret n e t /\
       caches (bc t) n bno b /\ bdata b = v bno /\ valid b <> 0 /\ refcnt b = count bno h + 1 /\
       sleeplocks t !! n = Some l /\ slocked l = 1 /\ spid l = pid pr /\
       fs_rep p pr t v (bno :: h) (bno :: k) /\ bio_step h [] s t) /\
  (bno ∉ h -> (forall n b, bufs (bc s) !! n = Some b -> refcnt b <> 0) ->
     exists t, bread (S fuel) ROOTDEV bno e s = Panic "bget: no buffers"%string t).
Proof.
  intros Hr Hk Hb. split; [|destruct Hr; by eapply bread_panics].
  intros Hroom. destruct (wp_bread fuel p pr e bno s v h k (fun n t =>
    fs_rep p pr t v (bno :: h) (bno :: k) /\ buffer_of (bc t) n bno /\ bio_step h [] s t))
    as (n & t & E & (Hf & R) & [b Hc] & Hs); [done..|].
  destruct (cr_lock _ _ _ _ _ _ R n b) as (l & El & Hl & _); [apply Hc|].
  destruct Hl as [H1 H2]; [destruct Hc as (_ & ? & ->); split; [done|by left]|].
  exists n, b, l, t. split; [done|]. split; [done|].
  split; [by apply (cr_view _ _ _ _ _ _ R n)|]. split; [by apply (cr_valid _ _ _ _ _ _ R n bno)|].
  split; [|do 3 (split; [done|]); split; [by split|done]].
  rewrite (cr_ref _ _ _ _ _ _ R n bno b) by done. rewrite count_cons, Z.eqb_refl. lia.
Qed.
End claims.

(** *** A machine with a disk *)

#[local] Instance test_disk : Disk := fun n w e s => Ret tt e (s <| bc ::= transfer n w |>).
#[local] Instance test_disk_law : DiskLaw.
Proof. by intros n w e s _. Qed.

Definition zero_buf : buf := mkBuf 0 0 0 0 (replicate 1024 0).

(** [machine0] with buffers and sleep locks, before and after [binit]. *)
Definition machine_boot (d : Z -> list Z) : mach :=
  machine0 <| sleeplocks := replicate (NBUF + NINODE) (mkSleeplock 0 "" 0) |>
    <| locks ::= fun l => foldr (fun n => <[Lsleep n := mkSpinlock 0 "sleep lock" None]>) l (seq 0 (NBUF + NINODE)) |>
    <| bc := mkBcache (replicate NBUF zero_buf) [] d [] |>.
Definition machine_disk (d : Z -> list Z) : mach :=
  machine_boot d <| bc ::= fun c => c <| lru := rev (seq 0 NBUF) |> |>.

Lemma zero_cache_boot d : (forall b, length (d b) = 1024%nat) -> zero_cache (bc (machine_boot d)).
Proof.
  intros Hd. split; [done|]. split; [|done]. intros n b Hb%lookup_replicate_1. by destruct Hb as [-> _].
Qed.

Lemma forallb_seq_free s n :
  forallb (fun i => is_free s (Lsleep i)) (seq 0 n) = true ->
  forall i, (i < n)%nat -> free_lock s (Lsleep i).
Proof. rewrite forallb_forall. intros H i Hi. apply is_free_sound, H, in_seq. lia. Qed.

Lemma fs_thread_disk d : fs_thread (machine_disk d) 0 running.
Proof.
  split; try (apply is_free_sound; vm_compute; reflexivity); try done.
  - split; [|split; [reflexivity|]].
    + eexists. split; [reflexivity|]. split; [cbn; lia|]. cbn. lia.
    + apply table_locks_free. vm_compute. reflexivity.
  - apply forallb_seq_free. vm_compute. reflexivity.
  - intros q Hq Hs. change (procs (machine_disk d)) with (running :: sleeper :: zombie :: replicate 61 proc0) in Hq.
    do 3 (apply elem_of_cons in Hq as [->|Hq]; [done|]). apply elem_of_replicate in Hq as [-> _]. done.
Qed.

Lemma fs_rep_disk d : (forall b, length (d b) = 1024%nat) -> fs_rep 0 running (machine_disk d) d [] [].
Proof.
  intros Hd. split; [apply fs_thread_disk|].
  apply (rep_fresh (bc (machine_disk d))); [by apply zero_cache_boot|symmetry; exact (Permutation_rev (seq 0 NBUF))|].
  intros n Hn. exists (mkSleeplock 0 "" 0). split; [|done]. apply lookup_replicate_2. lia.
Qed.

Lemma binit_empties_witness :
  exists t, binit [] (machine_boot (fun _ => replicate 1024 0)) = Ret tt [] t /\ free_lock t Lbcache.
Proof.
  destruct (binit_empties [] (machine_boot (fun _ => replicate 1024 0)) 0) as (t & H1 & _ & (H2 & _) & _).
  - apply zero_cache_boot. intros b. reflexivity.
  - apply Nat.leb_le. reflexivity.
  - exists t. auto.
Defined.

(** Block 5 is full of sevens. *)
Lemma bread_correct_witness :
  exists n b t, bread 1 ROOTDEV 5 [] (machine_disk (fun _ => replicate 1024 7)) = Ret n [] t /\
    caches (bc t) n 5 b /\ bdata b = replicate 1024 7.
Proof.
  destruct (bread_correct 0 5 [] (machine_disk (fun _ => replicate 1024 7)) 0 running
    (fun _ => replicate 1024 7) [] []) as [H _].
  - apply fs_rep_disk. intros b. reflexivity.
  - apply not_elem_of_nil.
  - reflexivity.
  - destruct H as (n & b & l & t & H1 & H2 & H3 & _); [right; cbn; apply Nat.ltb_lt; reflexivity|].
    exists n, b, t. auto.
Defined.
