(* ===== verification/Virtio.v ===== *)
(** * The disk driver

    Model of [kernel/virtio_disk.c].  The queue that the driver shares with
    the device is in [vdk]: descriptors, the ring of available requests, the
    ring of used ones.  The registers of the device are [vregs] and
    [vwrites].  A buffer's field [disk] is its entry of [bdisk]. *)
From stdpp Require Import base tactics list numbers gmap strings.
From S2P Require Import Prelude Machine Spinlock Wp Kalloc Vm Sched Bio.

Open Scope Z_scope.

(** ** [kernel/virtio.h] *)

Definition VIRTIO_MMIO_MAGIC_VALUE : Z := 0x000.
Definition VIRTIO_MMIO_VERSION : Z := 0x004.
Definition VIRTIO_MMIO_DEVICE_ID : Z := 0x008.
Definition VIRTIO_MMIO_VENDOR_ID : Z := 0x00c.
Definition VIRTIO_MMIO_DEVICE_FEATURES : Z := 0x010.
Definition VIRTIO_MMIO_DRIVER_FEATURES : Z := 0x020.
Definition VIRTIO_MMIO_QUEUE_SEL : Z := 0x030.
Definition VIRTIO_MMIO_QUEUE_NUM_MAX : Z := 0x034.
Definition VIRTIO_MMIO_QUEUE_NUM : Z := 0x038.
Definition VIRTIO_MMIO_QUEUE_READY : Z := 0x044.
Definition VIRTIO_MMIO_QUEUE_NOTIFY : Z := 0x050.
Definition VIRTIO_MMIO_INTERRUPT_STATUS : Z := 0x060.
Definition VIRTIO_MMIO_INTERRUPT_ACK : Z := 0x064.
Definition VIRTIO_MMIO_STATUS : Z := 0x070.
Definition VIRTIO_MMIO_QUEUE_DESC_LOW : Z := 0x080.
Definition VIRTIO_MMIO_QUEUE_DESC_HIGH : Z := 0x084.
Definition VIRTIO_MMIO_DRIVER_DESC_LOW : Z := 0x090.
Definition VIRTIO_MMIO_DRIVER_DESC_HIGH : Z := 0x094.
Definition VIRTIO_MMIO_DEVICE_DESC_LOW : Z := 0x0a0.
Definition VIRTIO_MMIO_DEVICE_DESC_HIGH : Z := 0x0a4.

Definition VIRTIO_CONFIG_S_ACKNOWLEDGE : Z := 1.
Definition VIRTIO_CONFIG_S_DRIVER : Z := 2.
Definition VIRTIO_CONFIG_S_DRIVER_OK : Z := 4.
Definition VIRTIO_CONFIG_S_FEATURES_OK : Z := 8.

Definition VIRTIO_BLK_F_RO : Z := 5.
Definition VIRTIO_BLK_F_SCSI : Z := 7.
Definition VIRTIO_BLK_F_CONFIG_WCE : Z := 11.
Definition VIRTIO_BLK_F_MQ : Z := 12.
Definition VIRTIO_F_ANY_LAYOUT : Z := 27.
Definition VIRTIO_RING_F_INDIRECT_DESC : Z := 28.
Definition VIRTIO_RING_F_EVENT_IDX : Z := 29.

Definition NUM : nat := 8.
Definition VRING_DESC_F_NEXT : Z := 1.
Definition VRING_DESC_F_WRITE : Z := 2.

(** ** Code *)

Definition get_vdk : M vdisk := read (fun s => vdk (io s)).
Definition set_vdk (f : vdisk -> vdisk) : M unit := modify (fun s => s <| io ::= fun d => d <| vdk ::= f |> |>).

Definition mmio_read (reg : Z) : M Z := d ← get_vdk; mret (u32 (vregs d reg)).
Definition mmio_write (reg v : Z) : M unit := set_vdk (fun d => d <| vwrites ::= cons (reg, u32 v) |>).

Definition no_desc : vdesc := mkVdesc DNull 0 0 0.

(** [features &= ~(1 << bit)], on the features the driver does not want. *)
Definition mask_features (f : Z) : Z :=
  fold_left (fun f bit => Z.land f (u64 (Z.lnot (Z.shiftl 1 bit))))
    [VIRTIO_BLK_F_RO; VIRTIO_BLK_F_SCSI; VIRTIO_BLK_F_CONFIG_WCE; VIRTIO_BLK_F_MQ; VIRTIO_F_ANY_LAYOUT;
     VIRTIO_RING_F_EVENT_IDX; VIRTIO_RING_F_INDIRECT_DESC] f.

Definition virtio_disk_init : M unit :=
  initlock Lvdisk "virtio_disk";;
  magic ← mmio_read VIRTIO_MMIO_MAGIC_VALUE;
  version ← mmio_read VIRTIO_MMIO_VERSION;
  device ← mmio_read VIRTIO_MMIO_DEVICE_ID;
  vendor ← mmio_read VIRTIO_MMIO_VENDOR_ID;
  if negb (magic =? 0x74726976) || negb (version =? 2) || negb (device =? 2) || negb (vendor =? 0x554d4551) then
    panic "could not find virtio disk"%string
  else
    let status := 0 in
    mmio_write VIRTIO_MMIO_STATUS status;;
    let status := Z.lor status VIRTIO_CONFIG_S_ACKNOWLEDGE in
    mmio_write VIRTIO_MMIO_STATUS status;;
    let status := Z.lor status VIRTIO_CONFIG_S_DRIVER in
    mmio_write VIRTIO_MMIO_STATUS status;;
    features ← mmio_read VIRTIO_MMIO_DEVICE_FEATURES;
    mmio_write VIRTIO_MMIO_DRIVER_FEATURES (mask_features features);;
    let status := Z.lor status VIRTIO_CONFIG_S_FEATURES_OK in
    mmio_write VIRTIO_MMIO_STATUS status;;
    status ← mmio_read VIRTIO_MMIO_STATUS;
    if Z.land status VIRTIO_CONFIG_S_FEATURES_OK =? 0 then panic "virtio disk FEATURES_OK unset"%string
    else
      mmio_write VIRTIO_MMIO_QUEUE_SEL 0;;
      ready ← mmio_read VIRTIO_MMIO_QUEUE_READY;
      if negb (ready =? 0) then panic "virtio disk should not be ready"%string
      else
        max ← mmio_read VIRTIO_MMIO_QUEUE_NUM_MAX;
        if max =? 0 then panic "virtio disk has no queue 0"%string
        else if max <? Z.of_nat NUM then panic "virtio disk max queue too short"%string
        else
          desc_ ← kalloc; avail ← kalloc; used ← kalloc;
          if (desc_ =? 0) || (avail =? 0) || (used =? 0) then panic "virtio disk kalloc"%string
          else
            memset_mem desc_ 0 PGSIZE;; memset_mem avail 0 PGSIZE;; memset_mem used 0 PGSIZE;;
            set_vdk (fun d => d <| desc := replicate NUM no_desc |> <| avail_ring := replicate NUM 0%nat |>
              <| avail_idx := 0 |> <| used_ring := replicate NUM 0%nat |> <| used_count := 0 |>);;
            mmio_write VIRTIO_MMIO_QUEUE_NUM (Z.of_nat NUM);;
            mmio_write VIRTIO_MMIO_QUEUE_DESC_LOW desc_;;
            mmio_write VIRTIO_MMIO_QUEUE_DESC_HIGH (Z.shiftr desc_ 32);;
            mmio_write VIRTIO_MMIO_DRIVER_DESC_LOW avail;;
            mmio_write VIRTIO_MMIO_DRIVER_DESC_HIGH (Z.shiftr avail 32);;
            mmio_write VIRTIO_MMIO_DEVICE_DESC_LOW used;;
            mmio_write VIRTIO_MMIO_DEVICE_DESC_HIGH (Z.shiftr used 32);;
            mmio_write VIRTIO_MMIO_QUEUE_READY 1;;
            set_vdk (fun d => d <| dfree := replicate NUM true |>);;
            mmio_write VIRTIO_MMIO_STATUS (Z.lor status VIRTIO_CONFIG_S_DRIVER_OK).

(** [disk.free[i]], [disk.desc[i]], [disk.info[i]]. *)
Definition is_free_desc (i : nat) : M bool := d ← get_vdk; or_fault (dfree d !! i).
Definition get_desc (i : nat) : M vdesc := d ← get_vdk; or_fault (desc d !! i).
Definition set_desc (i : nat) (x : vdesc) : M unit := _ ← get_desc i; set_vdk (fun d => d <| desc ::= <[i := x]> |>).
Definition get_info (i : nat) : M (option nat * Z) := d ← get_vdk; or_fault (info d !! i).
Definition set_info (i : nat) (x : option nat * Z) : M unit := _ ← get_info i; set_vdk (fun d => d <| info ::= <[i := x]> |>).

(** [None] is the result -1. *)
Definition alloc_desc : M (option nat) :=
  for_first (seq 0 NUM) (fun i =>
    f ← is_free_desc i;
    if f : bool then set_vdk (fun d => d <| dfree ::= <[i := false]> |>);; mret (Some i) else mret None).

Definition free_desc (i : nat) : M unit :=
  if (NUM <=? i)%nat then panic "free_desc 1"%string
  else
    f ← is_free_desc i;
    if f : bool then panic "free_desc 2"%string
    else
      set_desc i no_desc;;
      set_vdk (fun d => d <| dfree ::= <[i := true]> |>);;
      wakeup ChDesc.

Section disk.
Context (fuel : nat).

Definition free_chain_step (i : nat) : M (nat + unit) :=
  x ← get_desc i;
  free_desc i;;
  mret (if negb (Z.land (dflags x) VRING_DESC_F_NEXT =? 0) then inl (dnext x) else inr tt).

Definition free_chain (i : nat) : M unit := loop fuel free_chain_step i.

(** The loop of [alloc3_desc]; [idx] holds what was allocated so far. *)
Fixpoint alloc3_loop (n : nat) (idx : list nat) : M (option (list nat)) :=
  match n with
  | O => mret (Some idx)
  | S n =>
      i ← alloc_desc;
      match i with
      | Some i => alloc3_loop n (idx ++ [i])
      | None => for_each idx free_desc;; mret None
      end
  end.

Definition alloc3_desc : M (option (list nat)) := alloc3_loop 3 [].

Definition alloc3_step (_ : unit) : M (unit + list nat) :=
  r ← alloc3_desc;
  match r with Some idx => mret (inr idx) | None => sleep ChDesc Lvdisk;; mret (inl tt) end.

(** Fill the three descriptors and the request. *)
Definition format_request (n : nat) (write : bool) (sector : Z) (i0 i1 i2 : nat) : M unit :=
  d ← get_vdk; _ ← or_fault (ops d !! i0);
  set_vdk (fun d => d <| ops ::= <[i0 := (write, sector)]> |>);;
  set_desc i0 (mkVdesc (DOp i0) 16 VRING_DESC_F_NEXT i1);;
  set_desc i1 (mkVdesc (DBuf n) BSIZE (Z.lor (if write then 0 else VRING_DESC_F_WRITE) VRING_DESC_F_NEXT) i2);;
  x ← get_info i0;
  set_info i0 (fst x, 0xff);;
  set_desc i2 (mkVdesc (DStatus i0) 1 VRING_DESC_F_WRITE 0).

(** Publish the chain that starts at [i0]. *)
Definition submit (n i0 : nat) : M unit :=
  d ← get_vdk; _ ← or_fault (bdisk d !! n);
  set_vdk (fun d => d <| bdisk ::= <[n := 1]> |>);;
  x ← get_info i0;
  set_info i0 (Some n, snd x);;
  d ← get_vdk;
  let k := Z.to_nat (avail_idx d mod Z.of_nat NUM) in
  _ ← or_fault (avail_ring d !! k);
  set_vdk (fun d => d <| avail_ring ::= <[k := i0]> |>);;
  set_vdk (fun d => d <| avail_idx ::= fun i => (i + 1) mod 2 ^ 16 |>);;
  mmio_write VIRTIO_MMIO_QUEUE_NOTIFY 0.

Definition wait_step (n : nat) (_ : unit) : M (unit + unit) :=
  d ← get_vdk;
  b ← or_fault (bdisk d !! n);
  if b =? 1 then sleep (ChBuf n) Lvdisk;; mret (inl tt) else mret (inr tt).

Definition virtio_disk_rw (n : nat) (write : bool) : M unit :=
  b ← get_buf n;
  let sector := u32 (blockno b * (BSIZE / 512)) in
  acquire Lvdisk;;
  idx ← loop fuel alloc3_step tt;
  match idx with
  | [i0; i1; i2] =>
      format_request n write sector i0 i1 i2;;
      submit n i0;;
      loop fuel (wait_step n) tt;;
      x ← get_info i0;
      set_info i0 (None, snd x);;
      free_chain i0;;
      release Lvdisk
  | _ => fault
  end.

Definition intr_step (_ : unit) : M (unit + unit) :=
  d ← get_vdk;
  if used_idx d =? used_count d then mret (inr tt)
  else
    id ← or_fault (used_ring d !! Z.to_nat (used_idx d mod Z.of_nat NUM));
    x ← get_info id;
    if negb (snd x =? 0) then panic "virtio_disk_intr status"%string
    else
      n ← or_fault (fst x);
      _ ← or_fault (bdisk d !! n);
      set_vdk (fun d => d <| bdisk ::= <[n := 0]> |>);;
      wakeup (ChBuf n);;
      set_vdk (fun d => d <| used_idx ::= fun i => (i + 1) mod 2 ^ 16 |>);;
      mret (inl tt).

Definition virtio_disk_intr : M unit :=
  acquire Lvdisk;;
  st ← mmio_read VIRTIO_MMIO_INTERRUPT_STATUS;
  mmio_write VIRTIO_MMIO_INTERRUPT_ACK (Z.land st 3);;
  loop fuel intr_step tt;;
  release Lvdisk.

(** The driver behind the buffer cache. *)
#[global] Instance virtio_disk : Disk := virtio_disk_rw.

End disk.
