(* ===== verification/VirtioCalls.v ===== *)
(** * What the disk driver promises

    A transfer is a chain of three descriptors: [virtio_disk_rw] publishes it
    and sleeps, the device completes it, [virtio_disk_intr] hands the buffer
    back, and [virtio_disk_rw] frees the chain. *)
From stdpp Require Import base tactics list numbers gmap strings.
From S2P Require Import Prelude Machine Spinlock Wp Vm Sched Uart Bio Virtio.

Open Scope Z_scope.

(** ** Access to the queue *)

Definition with_vdk (d : vdisk) (s : mach) : mach := s <| io ::= fun x => x <| vdk := d |> |>.

(** The arrays have their lengths. *)
Record vdisk_ok (d : vdisk) : Prop := mkVdiskOk {
  vo_desc : length (desc d) = NUM;
  vo_free : length (dfree d) = NUM;
  vo_avail : length (avail_ring d) = NUM;
  vo_used : length (used_ring d) = NUM;
  vo_info : length (info d) = NUM;
  vo_ops : length (ops d) = NUM
}.

Section access.
Context (e : env) (t : mach).

Lemma wp_get_vdk (Q : vdisk -> mach -> Prop) : Q (vdk (io t)) t -> wp get_vdk e t Q.
Proof. exact (wp_read e (fun s => vdk (io s)) t Q). Qed.

Lemma wp_set_vdk f (Q : unit -> mach -> Prop) : Q tt (with_vdk (f (vdk (io t))) t) -> wp (set_vdk f) e t Q.
Proof. intros H. eexists tt, _. split; [|exact H]. reflexivity. Qed.

Lemma wp_get_desc i x (Q : vdesc -> mach -> Prop) : desc (vdk (io t)) !! i = Some x -> Q x t -> wp (get_desc i) e t Q.
Proof. intros Hx HQ. apply wp_bind, wp_get_vdk. by eapply wp_or_fault. Qed.

Lemma wp_set_desc i x (Q : unit -> mach -> Prop) : (i < length (desc (vdk (io t))))%nat ->
  Q tt (with_vdk (vdk (io t) <| desc ::= <[i := x]> |>) t) -> wp (set_desc i x) e t Q.
Proof.
  intros Hi HQ. destruct (lookup_lt_is_Some_2 _ _ Hi) as [y Hy]. apply wp_bind. eapply wp_get_desc; [exact Hy|]. by apply wp_set_vdk.
Qed.

Lemma wp_get_info i x (Q : option nat * Z -> mach -> Prop) : info (vdk (io t)) !! i = Some x -> Q x t -> wp (get_info i) e t Q.
Proof. intros Hx HQ. apply wp_bind, wp_get_vdk. by eapply wp_or_fault. Qed.

Lemma wp_set_info i x (Q : unit -> mach -> Prop) : (i < length (info (vdk (io t))))%nat ->
  Q tt (with_vdk (vdk (io t) <| info ::= <[i := x]> |>) t) -> wp (set_info i x) e t Q.
Proof.
  intros Hi HQ. destruct (lookup_lt_is_Some_2 _ _ Hi) as [y Hy]. apply wp_bind. eapply wp_get_info; [exact Hy|]. by apply wp_set_vdk.
Qed.

Lemma wp_mmio_write reg v (Q : unit -> mach -> Prop) :
  Q tt (with_vdk (vdk (io t) <| vwrites ::= cons (reg, u32 v) |>) t) -> wp (mmio_write reg v) e t Q.
Proof. apply wp_set_vdk. Qed.
End access.

(** ** Descriptors *)

Definition find_free (l : list bool) : option nat := fst <$> list_find (fun b => b = true) l.

Definition take_free (l : list bool) : option (nat * list bool) := i ← find_free l; Some (i, <[i := false]> l).

(** The three descriptors [alloc3_desc] takes. *)
Definition three_free (l : list bool) : option (nat * nat * nat) :=
  r0 ← take_free l; r1 ← take_free r0.2; r2 ← take_free r1.2; Some (r0.1, r1.1, r2.1).

Definition free_count (l : list bool) : nat := length (filter (fun b => b = true) l).

Lemma take_free_spec l : match take_free l with
  | Some (i, l') => l !! i = Some true /\ l' = <[i := false]> l /\ free_count l = S (free_count l')
  | None => free_count l = 0%nat end.
Proof.
  unfold take_free, find_free. destruct (list_find (fun b => b = true) l) as [[i b]|] eqn:E; cbn.
  - apply list_find_Some in E as (Hi & -> & _). split; [done|]. split; [done|]. unfold free_count.
    rewrite <- (take_drop_middle l i true Hi) at 1. rewrite (insert_take_drop l i false) by by eapply lookup_lt_Some.
    rewrite !list.filter_app, !length_app, !filter_cons. rewrite decide_True, decide_False by done. cbn. lia.
  - apply list_find_None in E. unfold free_count. induction E as [|b l Hb _ IH]; [done|]. by rewrite filter_cons, decide_False.
Qed.

Lemma take_free_some l : (1 <= free_count l)%nat -> exists i, take_free l = Some (i, <[i := false]> l) /\
  free_count l = S (free_count (<[i := false]> l)).
Proof.
  intros H. assert (H0 := take_free_spec l). destruct (take_free l) as [[i l']|]; [|lia]. destruct H0 as (_ & -> & H0). by exists i.
Qed.

(** There are three descriptors to take whenever three are free. *)
Lemma three_free_enough l : (3 <= free_count l)%nat -> exists i0 i1 i2, three_free l = Some (i0, i1, i2).
Proof.
  intros H. destruct (take_free_some l) as (i0 & E0 & H0); [lia|]. destruct (take_free_some (<[i0 := false]> l)) as (i1 & E1 & H1); [lia|].
  destruct (take_free_some (<[i1 := false]> (<[i0 := false]> l))) as (i2 & E2 & H2); [lia|].
  exists i0, i1, i2. unfold three_free. rewrite E0. cbn [mbind option_bind fst snd]. rewrite E1. cbn [mbind option_bind fst snd]. by rewrite E2.
Qed.

Lemma take_free_inv l r : take_free l = Some r -> l !! r.1 = Some true /\ r.2 = <[r.1 := false]> l.
Proof. intros H. assert (H0 := take_free_spec l). rewrite H in H0. by destruct r, H0 as (? & ? & _). Qed.

Lemma three_free_facts l i0 i1 i2 : three_free l = Some (i0, i1, i2) ->
  l !! i0 = Some true /\ l !! i1 = Some true /\ l !! i2 = Some true /\ i0 <> i1 /\ i0 <> i2 /\ i1 <> i2 /\
  take_free l = Some (i0, <[i0 := false]> l) /\ take_free (<[i0 := false]> l) = Some (i1, <[i1 := false]> (<[i0 := false]> l)) /\
  take_free (<[i1 := false]> (<[i0 := false]> l)) = Some (i2, <[i2 := false]> (<[i1 := false]> (<[i0 := false]> l))).
Proof.
  intros H. unfold three_free in H. apply bind_Some in H as ([j0 l0] & E0 & H). apply bind_Some in H as ([j1 l1] & E1 & H).
  apply bind_Some in H as ([j2 l2] & E2 & H). cbn [fst snd] in *. injection H as -> -> ->.
  destruct (take_free_inv _ _ E0) as [H0 Hl0], (take_free_inv _ _ E1) as [H1 Hl1], (take_free_inv _ _ E2) as [H2 Hl2].
  cbn [fst snd] in *. subst l0 l1 l2.
  assert (Hlt := lookup_lt_Some _ _ _ H0).
  assert (Hne1 : i0 <> i1). { intros ->. rewrite list_lookup_insert_eq in H1 by done. done. }
  rewrite list_lookup_insert_ne in H1 by done.
  assert (Hne2 : i1 <> i2). { intros ->. rewrite list_lookup_insert_eq in H2; [done|]. rewrite length_insert. by eapply lookup_lt_Some. }
  rewrite list_lookup_insert_ne in H2 by done.
  assert (Hne3 : i0 <> i2). { intros ->. rewrite list_lookup_insert_eq in H2 by done. done. }
  rewrite list_lookup_insert_ne in H2 by done. done.
Qed.

Lemma alloc_loop e t l : forall n k, dfree (vdk (io t)) = l -> (k + n = length l)%nat ->
  for_first (seq k n) (fun i => f ← is_free_desc i;
    if f : bool then set_vdk (fun d => d <| dfree ::= <[i := false]> |>);; mret (Some i) else mret None) e t =
  match list_find (fun b => b = true) (drop k l) with
  | Some (i, _) => Ret (Some (k + i)%nat) e (with_vdk (vdk (io t) <| dfree ::= <[(k + i)%nat := false]> |>) t)
  | None => Ret None e t
  end.
Proof.
  induction n as [|n IH]; intros k Hl Hk.
  - rewrite drop_ge by lia. done.
  - cbn [seq for_first]. destruct (lookup_lt_is_Some_2 l k) as [b Hb]; [lia|]. rewrite (drop_S _ b k Hb). cbn [list_find].
    rewrite bindE, bindE. unfold is_free_desc, get_vdk. msimp. rewrite Hl, Hb. cbn [or_fault mret M_ret].
    destruct b.
    + rewrite decide_True by done. unfold set_vdk. msimp. by rewrite Nat.add_0_r.
    + rewrite decide_False by done. cbn [mret M_ret]. rewrite IH by (done || lia).
      destruct (list_find (fun b => b = true) (drop (S k) l)) as [[i b]|]; cbn; [|done]. by rewrite Nat.add_succ_r.
Qed.

Lemma alloc_desc_Ret e t : length (dfree (vdk (io t))) = NUM ->
  alloc_desc e t = match take_free (dfree (vdk (io t))) with
    | Some (i, l) => Ret (Some i) e (with_vdk (vdk (io t) <| dfree := l |>) t)
    | None => Ret None e t end.
Proof.
  intros Hl. unfold alloc_desc. rewrite (alloc_loop e t _ NUM 0) by done. rewrite drop_0. unfold take_free, find_free.
  by destruct (list_find _ _) as [[i b]|].
Qed.

Lemma alloc3_desc_Ret e t i0 i1 i2 : length (dfree (vdk (io t))) = NUM -> three_free (dfree (vdk (io t))) = Some (i0, i1, i2) ->
  alloc3_desc e t = Ret (Some [i0; i1; i2]) e
    (with_vdk (vdk (io t) <| dfree ::= fun l => <[i2 := false]> (<[i1 := false]> (<[i0 := false]> l)) |>) t).
Proof.
  intros Hl H. destruct (three_free_facts _ _ _ _ H) as (_ & _ & _ & _ & _ & _ & E0 & E1 & E2).
  unfold alloc3_desc. cbn [alloc3_loop]. rewrite bindE, alloc_desc_Ret by done. rewrite E0.
  set (t1 := with_vdk _ t). rewrite bindE, alloc_desc_Ret by (cbn; by rewrite length_insert).
  change (dfree (vdk (io t1))) with (<[i0 := false]> (dfree (vdk (io t)))). rewrite E1.
  set (t2 := with_vdk _ t1). rewrite bindE, alloc_desc_Ret by (cbn; by rewrite !length_insert).
  change (dfree (vdk (io t2))) with (<[i1 := false]> (<[i0 := false]> (dfree (vdk (io t))))). rewrite E2. done.
Qed.

(** ** Publishing a request *)

(** The queue after [format_request] and [submit]: the three descriptors, the
    request and the ring entry are written, the device is notified. *)
Definition published (n : nat) (write : bool) (sector : Z) (i0 i1 i2 : nat) (d : vdisk) : vdisk :=
  d <| ops ::= <[i0 := (write, sector)]> |>
    <| desc ::= fun l => <[i2 := mkVdesc (DStatus i0) 1 VRING_DESC_F_WRITE 0]>
         (<[i1 := mkVdesc (DBuf n) BSIZE (Z.lor (if write then 0 else VRING_DESC_F_WRITE) VRING_DESC_F_NEXT) i2]>
         (<[i0 := mkVdesc (DOp i0) 16 VRING_DESC_F_NEXT i1]> l)) |>
    <| info ::= <[i0 := (Some n, 0xff)]> |>
    <| bdisk ::= <[n := 1]> |>
    <| avail_ring ::= <[Z.to_nat (avail_idx d mod Z.of_nat NUM) := i0]> |>
    <| avail_idx ::= fun i => (i + 1) mod 2 ^ 16 |>
    <| vwrites ::= cons (VIRTIO_MMIO_QUEUE_NOTIFY, 0) |>.

Lemma avail_slot d : (Z.to_nat (avail_idx d mod Z.of_nat NUM) < NUM)%nat.
Proof. assert (H := Z.mod_pos_bound (avail_idx d) (Z.of_nat NUM) ltac:(reflexivity)). change NUM with 8%nat in *. lia. Qed.

Lemma wp_publish e t n write sector i0 i1 i2 (Q : unit -> mach -> Prop) :
  vdisk_ok (vdk (io t)) -> (i0 < NUM)%nat -> (i1 < NUM)%nat -> (i2 < NUM)%nat -> (n < length (bdisk (vdk (io t))))%nat ->
  Q tt (with_vdk (published n write sector i0 i1 i2 (vdk (io t))) t) ->
  wp (format_request n write sector i0 i1 i2;; submit n i0) e t Q.
Proof.
  destruct t as [? ? ? ? ? ? ? ? ? ? ? ? ? ? ? ? ? ? [? ? d ? ? ?]]. cbn [vdk io].
  intros [Hd Hf Ha Hu Hi Ho] H0 H1 H2 Hn HQ. unfold format_request, submit.
  destruct (lookup_lt_is_Some_2 (ops d) i0) as [o Eo]; [lia|]. destruct (lookup_lt_is_Some_2 (info d) i0) as [x Ex]; [lia|].
  destruct (lookup_lt_is_Some_2 (bdisk d) n) as [b Eb]; [done|].
  destruct (lookup_lt_is_Some_2 (avail_ring d) (Z.to_nat (avail_idx d mod Z.of_nat NUM))) as [a Ea]; [rewrite Ha; apply avail_slot|].
  apply wp_bind. apply wp_bind, wp_get_vdk, wp_bind. eapply wp_or_fault; [exact Eo|]. apply wp_bind, wp_set_vdk, wp_bind.
  apply wp_set_desc; [cbn -[NUM]; lia|]. apply wp_bind, wp_set_desc; [cbn -[NUM]; rewrite length_insert; lia|]. apply wp_bind.
  eapply wp_get_info; [exact Ex|]. apply wp_bind, wp_set_info; [cbn -[NUM]; lia|]. apply wp_set_desc; [cbn -[NUM]; rewrite !length_insert; lia|].
  apply wp_bind, wp_get_vdk, wp_bind. eapply wp_or_fault; [exact Eb|]. apply wp_bind, wp_set_vdk, wp_bind.
  eapply wp_get_info; [cbn -[NUM]; apply list_lookup_insert_eq; lia|]. apply wp_bind, wp_set_info; [cbn -[NUM]; rewrite length_insert; lia|].
  apply wp_bind, wp_get_vdk, wp_bind. eapply wp_or_fault; [exact Ea|]. apply wp_bind, wp_set_vdk, wp_bind, wp_set_vdk, wp_set_vdk.
  cbn -[NUM] in HQ |- *. by rewrite list_insert_insert_eq.
Qed.

(** ** What the device reads

    A device follows a chain from its first descriptor; a block device
    expects a header of 16 bytes, the data, and a status byte it may write. *)
Fixpoint chain (fuel : nat) (d : vdisk) (i : nat) : option (list vdesc) :=
  match fuel with
  | O => None
  | S fuel =>
      x ← desc d !! i;
      if Z.land (dflags x) VRING_DESC_F_NEXT =? 0 then Some [x]
      else l ← chain fuel d (dnext x); Some (x :: l)
  end.

Definition device_writes (x : vdesc) : bool := negb (Z.land (dflags x) VRING_DESC_F_WRITE =? 0).

(** The transfer that the ring entry [i] asks for: direction, sector, buffer;
    and the request whose status byte the device will write. *)
Definition device_request (d : vdisk) (i : nat) : option (bool * Z * nat * nat) :=
  match chain 3 d i with
  | Some [h; b; st] =>
      match daddr h, daddr b, daddr st with
      | DOp j, DBuf n, DStatus k =>
          o ← ops d !! j;
          if negb (device_writes h) && (dlen h =? 16) && (dlen b =? BSIZE) && (dlen st =? 1) && device_writes st &&
             bool_decide (device_writes b = negb o.1)
          then Some (o.1, o.2, n, k) else None
      | _, _, _ => None
      end
  | _ => None
  end.

Lemma published_request n write sector i0 i1 i2 d : length (desc d) = NUM -> length (ops d) = NUM ->
  (i0 < NUM)%nat -> (i1 < NUM)%nat -> (i2 < NUM)%nat -> i0 <> i1 -> i0 <> i2 -> i1 <> i2 ->
  device_request (published n write sector i0 i1 i2 d) i0 = Some (write, sector, n, i0).
Proof.
  intros Hd Ho H0 H1 H2 N1 N2 N3. unfold device_request. cbn [chain].
  change (desc (published n write sector i0 i1 i2 d)) with
    (<[i2 := mkVdesc (DStatus i0) 1 VRING_DESC_F_WRITE 0]>
         (<[i1 := mkVdesc (DBuf n) BSIZE (Z.lor (if write then 0 else VRING_DESC_F_WRITE) VRING_DESC_F_NEXT) i2]>
         (<[i0 := mkVdesc (DOp i0) 16 VRING_DESC_F_NEXT i1]> (desc d)))).
  rewrite (list_lookup_insert_ne _ i2 i0), (list_lookup_insert_ne _ i1 i0), list_lookup_insert_eq by (done || lia). cbn [mbind option_bind dflags dnext].
  change (Z.land VRING_DESC_F_NEXT VRING_DESC_F_NEXT =? 0) with false. cbn match.
  rewrite (list_lookup_insert_ne _ i2 i1), list_lookup_insert_eq by (done || rewrite length_insert; lia). cbn [mbind option_bind dflags dnext].
  replace (Z.land _ VRING_DESC_F_NEXT =? 0) with false by (by destruct write). cbn match.
  rewrite list_lookup_insert_eq by (rewrite !length_insert; lia). cbn [mbind option_bind dflags dnext daddr].
  change (Z.land VRING_DESC_F_WRITE VRING_DESC_F_NEXT =? 0) with true. cbn match.
  change (ops (published n write sector i0 i1 i2 d)) with (<[i0 := (write, sector)]> (ops d)).
  cbn [mbind option_bind daddr]. rewrite list_lookup_insert_eq by lia. by destruct write.
Qed.

(** ** Freeing a chain *)

Definition freed (i : nat) (d : vdisk) : vdisk := d <| desc ::= <[i := no_desc]> |> <| dfree ::= <[i := true]> |>.

Lemma wp_free_desc e t i (Q : unit -> mach -> Prop) : nested t -> table_ready t -> (i < length (desc (vdk (io t))))%nat -> (i < NUM)%nat ->
  dfree (vdk (io t)) !! i = Some false ->
  Q tt (with_vdk (freed i (vdk (io t))) t <| procs ::= woken true ChDesc (cur t) |>) ->
  wp (free_desc i) e t Q.
Proof.
  intros Hn Ht Hd Hi Hf HQ. unfold free_desc. destruct (Nat.leb_spec NUM i); [lia|]. apply wp_bind.
  apply wp_bind, wp_get_vdk. eapply wp_or_fault; [exact Hf|]. cbn match. apply wp_bind, wp_set_desc; [done|].
  apply wp_bind, wp_set_vdk. set (t1 := with_vdk _ _). eapply wp_mono; [apply wp_wakeup_nested; done|]. by intros [] ? ->.
Qed.

(** [i0], [i1], [i2] form a chain of descriptors in use. *)
Record linked (d : vdisk) (i0 i1 i2 : nat) : Prop := mkLinked {
  li_0 : exists x, desc d !! i0 = Some x /\ Z.land (dflags x) VRING_DESC_F_NEXT <> 0 /\ dnext x = i1;
  li_1 : exists x, desc d !! i1 = Some x /\ Z.land (dflags x) VRING_DESC_F_NEXT <> 0 /\ dnext x = i2;
  li_2 : exists x, desc d !! i2 = Some x /\ Z.land (dflags x) VRING_DESC_F_NEXT = 0;
  li_used : Forall (fun i => dfree d !! i = Some false /\ (i < NUM)%nat) [i0; i1; i2];
  li_diff : NoDup [i0; i1; i2]
}.

Lemma wp_free_chain_step e t i x (Q : nat + unit -> mach -> Prop) : nested t -> table_ready t -> (i < NUM)%nat ->
  desc (vdk (io t)) !! i = Some x -> dfree (vdk (io t)) !! i = Some false ->
  Q (if negb (Z.land (dflags x) VRING_DESC_F_NEXT =? 0) then inl (dnext x) else inr tt)
    (with_vdk (freed i (vdk (io t))) t <| procs ::= woken true ChDesc (cur t) |>) ->
  wp (free_chain_step i) e t Q.
Proof.
  intros Hn Ht Hi Hx Hf HQ. apply wp_bind. eapply wp_get_desc; [exact Hx|]. apply wp_bind.
  apply wp_free_desc; try done; [by eapply lookup_lt_Some|]. by apply wp_ret.
Qed.

Lemma table_ready_vdk d g t : table_ready t -> (forall ps, length (g ps) = length ps) -> table_ready (with_vdk d t <| procs ::= g |>).
Proof. intros (H1 & H2 & H3) Hg. split; [exact H1|]. split; [cbn; by rewrite Hg|exact H3]. Qed.

Lemma wp_free_chain fuel e t i0 i1 i2 (Q : unit -> mach -> Prop) : nested t -> table_ready t -> (3 <= fuel)%nat ->
  linked (vdk (io t)) i0 i1 i2 ->
  Q tt (with_vdk (freed i2 (freed i1 (freed i0 (vdk (io t))))) t <| procs ::= woken true ChDesc (cur t) |>) ->
  wp (free_chain fuel i0) e t Q.
Proof.
  intros Hn Ht Hf [(x0 & E0 & F0 & N0) (x1 & E1 & F1 & N1) (x2 & E2 & F2) Hu Hd] HQ.
  apply list.Forall_cons in Hu as ([U0 B0] & Hu). apply list.Forall_cons in Hu as ([U1 B1] & Hu). apply list.Forall_cons in Hu as ([U2 B2] & _).
  apply list.NoDup_cons in Hd as [D0 Hd]. apply list.NoDup_cons in Hd as [D1 _].
  assert (D01 : i0 <> i1) by set_solver. assert (D02 : i0 <> i2) by set_solver. assert (D12 : i1 <> i2) by set_solver.
  destruct fuel as [|[|[|fuel]]]; [lia..|]. unfold free_chain. cbn [loop].
  apply wp_bind. eapply wp_free_chain_step; [done|done|done|exact E0|exact U0|]. rewrite (proj2 (Z.eqb_neq _ _) F0), N0. cbn [negb].
  set (t1 := _ <| procs ::= _ |>). apply wp_bind. eapply (wp_free_chain_step e t1 i1 x1); [exact Hn| |done|..].
  { apply (table_ready_vdk _ _ t); [done|]. intros. apply woken_length. }
  { unfold t1. cbn -[NUM]. by rewrite list_lookup_insert_ne. } { unfold t1. cbn -[NUM]. by rewrite list_lookup_insert_ne. }
  rewrite (proj2 (Z.eqb_neq _ _) F1), N1. cbn [negb]. set (t2 := _ <| procs ::= _ |>). apply wp_bind.
  eapply (wp_free_chain_step e t2 i2 x2); [exact Hn| |done|..].
  { apply (table_ready_vdk _ _ t1); [apply (table_ready_vdk _ _ t); [done|]|]; intros; apply woken_length. }
  { unfold t2, t1. cbn -[NUM]. by rewrite !list_lookup_insert_ne. } { unfold t2, t1. cbn -[NUM]. by rewrite !list_lookup_insert_ne. }
  rewrite F2. change (0 =? 0) with true. cbn [negb]. apply wp_ret.
  replace (_ <| procs ::= _ |>) with (with_vdk (freed i2 (freed i1 (freed i0 (vdk (io t))))) t <| procs ::= woken true ChDesc (cur t) |>); [exact HQ|].
  unfold t2, t1. change (cur (with_vdk _ _ <| procs ::= _ |>)) with (cur t).
  destruct t as [? ? ? ? ? ? ? ? ? ? ? ? ? ? ? ? ? ? [? ? d ? ? ?]]. cbn -[NUM woken freed]. by rewrite !woken_woken.
Qed.

(** ** A transfer *)

Definition taken (i0 i1 i2 : nat) (d : vdisk) : vdisk := d <| dfree ::= fun l => <[i2 := false]> (<[i1 := false]> (<[i0 := false]> l)) |>.

(** What [virtio_disk_rw] does after the buffer is handed back. *)
Definition finish (fuel i0 : nat) : M unit :=
  x ← get_info i0; set_info i0 (None, snd x);; free_chain fuel i0;; release Lvdisk.

Lemma wp_finish fuel e u i0 i1 i2 n st (Q : unit -> mach -> Prop) :
  let v := vdk (io u) in
  table_ready u -> free_lock u Lvdisk -> (3 <= fuel)%nat -> linked v i0 i1 i2 -> info v !! i0 = Some (Some n, st) ->
  Q tt (left_off (with_vdk (freed i2 (freed i1 (freed i0 (v <| info ::= <[i0 := (None, st)]> |>)))) u <| procs ::= woken true ChDesc (cur u) |>)) ->
  wp (finish fuel i0) e (enter Lvdisk u) Q.
Proof.
  intros v Ht Hl Hf Hli Hinfo HQ. unfold finish. apply wp_bind. eapply wp_get_info; [exact Hinfo|].
  apply wp_bind, wp_set_info; [by eapply lookup_lt_Some|]. set (t1 := with_vdk _ _). apply wp_bind.
  apply (wp_free_chain _ _ _ _ i1 i2); [by apply (enter_nested Lvdisk u), Ht| |done|by destruct Hli|].
  { by apply (table_ready_enter Lvdisk u). }
  set (u1 := with_vdk (freed i2 (freed i1 (freed i0 (v <| info ::= <[i0 := (None, st)]> |>)))) u <| procs ::= woken true ChDesc (cur u) |>).
  eapply wp_call; [apply (release_from Lvdisk e _ u1)|exact HQ].
  - unfold u1, t1. change (cur (with_vdk ?d (enter ?l u))) with (cur (enter l u)). rewrite cur_enter by apply Ht. reflexivity.
  - apply Ht.
  - exact Hl.
Qed.

(** The first part of [virtio_disk_rw]: the request is published. *)
Lemma virtio_disk_rw_publishes fuel n write e s b i0 i1 i2 :
  let d := vdk (io s) in
  hart_ok s -> free_lock s Lvdisk -> bufs (bc s) !! n = Some b -> vdisk_ok d -> (n < length (bdisk d))%nat ->
  three_free (dfree d) = Some (i0, i1, i2) ->
  virtio_disk_rw (S fuel) n write e s =
    (loop (S fuel) (wait_step n) tt;; finish (S fuel) i0) e
      (enter Lvdisk (with_vdk (published n write (u32 (blockno b * (BSIZE / 512))) i0 i1 i2 (taken i0 i1 i2 d)) s)).
Proof.
  intros d Hok Hl Hb Hd Hn H3. unfold virtio_disk_rw. rewrite bindE, (get_buf_Ret n e s b) by done. set (sector := u32 _).
  rewrite bindE, acquire_Ret by done. cbn [loop]. rewrite !bindE. unfold alloc3_step at 1.
  rewrite bindE, (alloc3_desc_Ret e _ i0 i1 i2) by (done || apply Hd). cbn match.
  set (t := with_vdk _ (enter Lvdisk s)). destruct (three_free_facts _ _ _ _ H3) as (F0 & F1 & F2 & _).
  assert (Hlen : forall i, dfree d !! i = Some true -> (i < NUM)%nat). { intros i Hi. rewrite <- (vo_free d Hd). by eapply lookup_lt_Some. }
  destruct (wp_publish e t n write sector i0 i1 i2 (fun _ u => u = with_vdk (published n write sector i0 i1 i2 (vdk (io t))) t)) as ([] & u & E & ->);
    [|by apply Hlen..|done|done|].
  { destruct Hd. split; try done. unfold t. cbn -[NUM]. by rewrite !length_insert. }
  cbn [mret M_ret]. apply M_bind_inv in E as ([] & e1 & t1 & E1 & E2). rewrite bindE, E1, bindE, E2. done.
Qed.

(** What the environment must leave for the transfer of buffer [n] to be over:
    the process [p] runs again, the buffer was handed back, and the chain and
    its [info] entry are the driver's. *)
Record completed (n p i0 i1 i2 : nat) (k2 : cpu) (t : mach) : Prop := mkCompleted {
  co_sched : at_sched t p k2;
  co_procs : length (procs t) = NPROC;
  co_locks : forall i, (i < NPROC)%nat -> i <> p -> free_lock t (Lproc i);
  co_lock : free_lock t Lvdisk;
  co_back : bdisk (vdk (io t)) !! n = Some 0;
  co_chain : linked (vdk (io t)) i0 i1 i2;
  co_info : exists st, info (vdk (io t)) !! i0 = Some (Some n, st)
}.

Lemma Blocked_inj {A} s t : @Blocked A s = Blocked t -> s = t.
Proof. by intros [= ->]. Qed.

Lemma completed_ready n p i0 i1 i2 k2 t g m u : (p < NPROC)%nat -> completed n p i0 i1 i2 k2 t -> hart_ok u ->
  u = t <| cpus := cpus u |> <| procs ::= alter g p |> <| locks ::= <[Lproc p := mkSpinlock 0 m None]> |> ->
  table_ready u /\ free_lock u Lvdisk /\ vdk (io u) = vdk (io t) /\ procs u = alter g p (procs t).
Proof.
  intros Hp [_ Hlen Hlk Hv _ _ _] Hok Hu. split; [split; [done|]; split|].
  - rewrite Hu. cbn. by rewrite length_alter.
  - intros i Hi. rewrite Hu. destruct (decide (i = p)) as [->|Hne]; [exists m; cbn; by rewrite lookup_insert_eq|].
    destruct (Hlk i Hi Hne) as [x Hx]. exists x. cbn. rewrite lookup_insert_ne; [exact Hx|congruence].
  - rewrite Hu. destruct Hv as [x Hx]. split; [exists x; cbn; by rewrite lookup_insert_ne|]. done.
Qed.

Lemma published_linked n write sector i0 i1 i2 d : vdisk_ok d ->
  (i0 < NUM)%nat -> (i1 < NUM)%nat -> (i2 < NUM)%nat -> i0 <> i1 -> i0 <> i2 -> i1 <> i2 ->
  linked (published n write sector i0 i1 i2 (taken i0 i1 i2 d)) i0 i1 i2.
Proof.
  intros [Hd Hf _ _ _ _] H0 H1 H2 N1 N2 N3. unfold published, taken. split; cbn -[NUM BSIZE].
  - eexists. rewrite !list_lookup_insert_ne, list_lookup_insert_eq by (done || lia). done.
  - eexists. rewrite list_lookup_insert_ne, list_lookup_insert_eq by (done || rewrite length_insert; lia). split; [done|]. by destruct write.
  - eexists. rewrite list_lookup_insert_eq by (rewrite !length_insert; lia). done.
  - apply list.Forall_cons; split; [split; [|done]|apply list.Forall_cons; split; [split; [|done]|apply list.Forall_cons; split; [split; [|done]|done]]].
    + by rewrite !list_lookup_insert_ne, list_lookup_insert_eq by (done || lia).
    + by rewrite list_lookup_insert_ne, list_lookup_insert_eq by (done || rewrite length_insert; lia).
    + by rewrite list_lookup_insert_eq by (rewrite !length_insert; lia).
  - rewrite !list.NoDup_cons, !list_elem_of_In. cbn [In]. split; [intuition|]. split; [intuition|]. split; [intuition|constructor].
Qed.

(** C14. A disk transfer, whatever interleaves with it.  When three
    descriptors are free, [virtio_disk_rw] sleeps on the buffer, with the
    queue released, and what it has published decodes, for a device that
    follows the chain from the new ring entry, to exactly the transfer that
    was asked for.  However the machine has changed when the process runs
    again, if the buffer was handed back and the chain was left alone, the
    call returns: the three descriptors are cleared and free again, those
    that wait for descriptors are woken, and the queue is released. *)
Theorem virtio_disk_rw_transfers (fuel n : nat) (write : bool) (s : mach) (p : nat) (pr : proc) (b : buf) :
  table_ready s -> cur s = Some p -> procs s !! p = Some pr -> noff (this_cpu s) = 0 -> free_lock s Lvdisk ->
  bufs (bc s) !! n = Some b -> vdisk_ok (vdk (io s)) -> (n < length (bdisk (vdk (io s))))%nat ->
  (3 <= free_count (dfree (vdk (io s))))%nat -> (3 <= fuel)%nat ->
  exists t i0 i1 i2 sector, virtio_disk_rw fuel n write [] s = Blocked t /\
    free_lock t Lvdisk /\ procs t !! p = Some (pr <| pchan := Some (ChBuf n) |> <| state := SLEEPING |>) /\
    sector = u32 (blockno b * (BSIZE / 512)) /\
    vdk (io t) = published n write sector i0 i1 i2 (taken i0 i1 i2 (vdk (io s))) /\
    device_request (vdk (io t)) i0 = Some (write, sector, n, i0) /\
    linked (vdk (io t)) i0 i1 i2 /\
    forall f e k2, completed n p i0 i1 i2 k2 (f t) -> exists s' st,
      virtio_disk_rw fuel n write (f :: e) s = Ret tt e s' /\
      vdk (io s') = freed i2 (freed i1 (freed i0 (vdk (io (f t)) <| info ::= <[i0 := (None, st)]> |>))) /\
      procs s' = imap (wake1 ChDesc (Some p)) (alter (fun pr => pr <| pchan := None |>) p (procs (f t))) /\
      free_lock s' Lvdisk.
Proof.
  intros Ht Hcur Hp Hn0 Hl Hb Hd Hn H3 Hf. destruct (three_free_enough _ H3) as (i0 & i1 & i2 & E3).
  destruct (three_free_facts _ _ _ _ E3) as (F0 & F1 & F2 & N1 & N2 & N3 & _).
  assert (Hlen : forall i, dfree (vdk (io s)) !! i = Some true -> (i < NUM)%nat). { intros i Hi. rewrite <- (vo_free _ Hd). by eapply lookup_lt_Some. }
  destruct fuel as [|fuel]; [lia|]. set (sector := u32 (blockno b * (BSIZE / 512))).
  pose proof (fun e => virtio_disk_rw_publishes fuel n write e s b i0 i1 i2 (proj1 Ht) Hl Hb Hd Hn E3) as E. fold sector in E.
  set (d1 := published n write sector i0 i1 i2 (taken i0 i1 i2 (vdk (io s)))) in E. set (s1 := with_vdk d1 s) in E.
  assert (Hb1 : bdisk d1 !! n = Some 1) by (cbn -[NUM]; by rewrite list_lookup_insert_eq).
  assert (Ew : forall e, loop (S fuel) (wait_step n) tt e (enter Lvdisk s1) = (sleep (ChBuf n) Lvdisk;; loop fuel (wait_step n) tt) e (enter Lvdisk s1)).
  { intros e. cbn [loop]. rewrite bindE. unfold wait_step at 1, get_vdk. msimp. change (vdk (io (enter Lvdisk s1))) with d1. rewrite Hb1.
    cbn [or_fault mret M_ret]. change (1 =? 1) with true. cbn match. rewrite bindE. by destruct (sleep (ChBuf n) Lvdisk e (enter Lvdisk s1)). }
  assert (Hall : forall f e, exists nm, let t := parked (ChBuf n) Lvdisk nm p (enter Lvdisk s1) in
    sleep (ChBuf n) Lvdisk [] (enter Lvdisk s1) = Blocked t /\ free_lock t Lvdisk /\
    procs t !! p = Some (pr <| pchan := Some (ChBuf n) |> <| state := SLEEPING |>) /\
    (forall k2 pr2, at_sched (f t) p k2 -> procs (f t) !! p = Some pr2 -> free_lock (f t) Lvdisk ->
      exists u m, sleep (ChBuf n) Lvdisk (f :: e) (enter Lvdisk s1) = Ret tt e (enter Lvdisk u) /\
        hart_ok u /\ cur u = Some p /\ noff (this_cpu u) = 0 /\
        u = f t <| cpus := cpus u |> <| procs ::= alter (fun pr => pr <| pchan := None |>) p |>
               <| locks ::= <[Lproc p := mkSpinlock 0 m None]> |>)).
  { intros f e. by apply (sleep_wakes (ChBuf n) Lvdisk s1 p pr f e). }
  destruct (Hall id []) as (nm & B & Bl & Bp & _). set (t := parked (ChBuf n) Lvdisk nm p (enter Lvdisk s1)) in *.
  exists t, i0, i1, i2, sector. split; [by rewrite E, bindE, Ew, bindE, B|]. split; [exact Bl|]. split; [exact Bp|]. split; [done|].
  split; [done|]. split; [apply published_request; try apply Hd; by auto|].
  split; [by apply published_linked; auto|].
  intros f e k2 Hc. destruct (Hall f e) as (nm' & B' & _ & _ & R). rewrite B in B'.
  apply (Blocked_inj t) in B'. rewrite <- B' in R. clear B' Bl Bp.
  assert (Hpn : (p < NPROC)%nat) by (rewrite <- (proj1 (proj2 Ht)); by eapply lookup_lt_Some).
  destruct (lookup_lt_is_Some_2 (procs (f t)) p) as [pr2 Hp2]; [by rewrite (co_procs _ _ _ _ _ _ _ Hc)|].
  destruct (R k2 pr2 (co_sched _ _ _ _ _ _ _ Hc) Hp2 (co_lock _ _ _ _ _ _ _ Hc)) as (u & m & Es & Hok & Hcu & Hnu & Hu).
  destruct (completed_ready _ _ _ _ _ _ _ _ _ _ Hpn Hc Hok Hu) as (Hu1 & Hu2 & Hu3 & Hu4). destruct (co_info _ _ _ _ _ _ _ Hc) as [st Hst].
  destruct (wp_finish (S fuel) e u i0 i1 i2 n st (fun _ s' => s' = left_off (with_vdk (freed i2 (freed i1 (freed i0 (vdk (io u) <| info ::= <[i0 := (None, st)]> |>)))) u <| procs ::= woken true ChDesc (cur u) |>)))
    as ([] & s' & E' & ->); [done|done|lia|rewrite Hu3; apply Hc|by rewrite Hu3|done|].
  eexists _, st. split; [|split; [|split]].
  - rewrite E, bindE, Ew, bindE, Es. destruct fuel as [|fuel']; [lia|]. cbn [loop]. rewrite bindE. unfold wait_step at 1, get_vdk. msimp.
    change (vdk (io (enter Lvdisk u))) with (vdk (io u)). rewrite Hu3, (co_back _ _ _ _ _ _ _ Hc). cbn [or_fault mret M_ret].
    change (0 =? 1) with false. exact E'.
  - by rewrite <- Hu3.
  - rewrite <- Hu4, <- Hcu. reflexivity.
  - exact Hu2.
Qed.

(** ** The interrupt handler *)

(** The device has completed the requests [ids], in this order, since the
    driver looked last; [ids] are the first descriptors of their chains. *)
Record used (d : vdisk) (ids : list nat) : Prop := mkUsed {
  us_ring : forall k id, ids !! k = Some id -> used_ring d !! Z.to_nat ((used_idx d + Z.of_nat k) mod Z.of_nat NUM) = Some id;
  us_count : used_count d = (used_idx d + Z.of_nat (length ids)) mod 2 ^ 16;
  us_idx : 0 <= used_idx d < 2 ^ 16;
  us_len : Z.of_nat (length ids) < 2 ^ 16
}.

(** The request [id] transfers buffer [n] and went well. *)
Definition done_well (d : vdisk) (id n : nat) : Prop := info d !! id = Some (Some n, 0) /\ (n < length (bdisk d))%nat.

Definition give_back (ns : list nat) (d : vdisk) : vdisk := d <| bdisk ::= fun l => foldl (fun l n => <[n := 0]> l) l ns |> <| used_idx := used_count d |>.

Definition wake_all (ns : list nat) (me : option nat) (ps : list proc) : list proc :=
  foldl (fun ps n => imap (wake1 (ChBuf n) me) ps) ps ns.

Lemma used_step d id ids n : used d (id :: ids) ->
  used (d <| bdisk ::= <[n := 0]> |> <| used_idx ::= fun i => (i + 1) mod 2 ^ 16 |>) ids.
Proof.
  intros [Hr Hc Hi Hl]. cbn [length] in Hc, Hl. split; cbn -[NUM Z.pow Z.of_nat].
  - intros k x Hx. rewrite <- (Hr (S k) x Hx). do 2 f_equal. rewrite Nat2Z.inj_succ.
    change (Z.of_nat NUM) with 8. change (2 ^ 16) with (8 * 8192). Z.to_euclidean_division_equations; lia.
  - rewrite Hc, Nat2Z.inj_succ, Zplus_mod_idemp_l. f_equal. lia.
  - apply Z.mod_pos_bound. reflexivity.
  - lia.
Qed.

Lemma used_more d id ids : used d (id :: ids) -> (used_idx d =? used_count d) = false /\
  used_ring d !! Z.to_nat (used_idx d mod Z.of_nat NUM) = Some id.
Proof.
  intros [Hr Hc Hi Hl]. split; [|rewrite <- (Hr 0%nat id eq_refl); do 3 f_equal; lia].
  apply Z.eqb_neq. rewrite Hc. cbn [length] in *. rewrite Nat2Z.inj_succ in *. intros E.
  Z.to_euclidean_division_equations; lia.
Qed.

Lemma wp_intr_loop e ids : forall fuel ns t (Q : unit -> mach -> Prop), nested t -> table_ready t -> used (vdk (io t)) ids ->
  Forall2 (done_well (vdk (io t))) ids ns -> (length ids < fuel)%nat ->
  Q tt (with_vdk (give_back ns (vdk (io t))) t <| procs ::= wake_all ns (cur t) |>) ->
  wp (loop fuel intr_step tt) e t Q.
Proof.
  induction ids as [|id ids IH]; intros [|fuel] ns t Q Hn Ht Hu Hw Hf HQ; cbn [length] in Hf; try lia.
  - apply Forall2_nil_inv_l in Hw as ->. cbn [loop]. apply wp_bind, wp_bind, wp_get_vdk. destruct Hu as [_ Hc Hi _].
    cbn [length] in Hc. rewrite Z.add_0_r, Z.mod_small in Hc by done. rewrite Hc, Z.eqb_refl. apply wp_ret, wp_ret.
    destruct t as [? ? ? ? ? ? ? ? ? ? ? ? ? ? ? ? ? ? [? ? [? ? ? ? ? ? ? ? ? ? ? ?] ? ? ?]]. cbn in Hc |- *. subst. exact HQ.
  - destruct ns as [|n ns]; [by apply Forall2_nil_inv_r in Hw|]. apply list.Forall2_cons in Hw as [[Hid Hlt] Hw].
    destruct (used_more _ _ _ Hu) as [He Hr]. cbn [loop]. apply wp_bind, wp_bind, wp_get_vdk. rewrite He.
    apply wp_bind. eapply wp_or_fault; [exact Hr|]. apply wp_bind. eapply wp_get_info; [exact Hid|]. cbn [snd fst]. change (0 =? 0) with true. cbn [negb].
    apply wp_bind. eapply wp_or_fault; [reflexivity|]. destruct (lookup_lt_is_Some_2 _ _ Hlt) as [b Hb]. apply wp_bind. eapply wp_or_fault; [exact Hb|].
    apply wp_bind, wp_set_vdk. set (t1 := with_vdk _ _). apply wp_bind. eapply wp_mono; [by apply wp_wakeup_nested|]. intros [] t2 ->.
    apply wp_bind, wp_set_vdk, wp_ret. set (t3 := with_vdk _ _). apply (IH fuel ns t3).
    + exact Hn.
    + destruct Ht as (T1 & T2 & T3). split; [exact T1|]. split; [unfold t3; cbn; by rewrite length_imap|exact T3].
    + by apply (used_step (vdk (io t)) id ids n).
    + eapply list.Forall2_impl; [exact Hw|]. intros i m [H1 H2]. split; [exact H1|]. unfold t3. cbn. by rewrite length_insert.
    + lia.
    + change (cur t3) with (cur t). exact HQ.
Qed.

Lemma u32_land3 x : u32 (Z.land x 3) = Z.land x 3.
Proof.
  change 3 with (Z.ones 2). rewrite Z.land_ones by lia. unfold u32. apply Z.mod_small.
  assert (H := Z.mod_pos_bound x (2 ^ 2) ltac:(reflexivity)). lia.
Qed.

(** What the disk's interrupt handler does with the requests the device
    has completed: each buffer is handed back and its sleepers are woken, in
    the order of the completions, the index catches up with the device's also
    when it wraps around, and the interrupt is acknowledged.  A request whose
    status byte is not 0 makes it panic. *)
Theorem virtio_disk_intr_serves (fuel : nat) (e : env) (s : mach) (ids ns : list nat) :
  table_ready s -> free_lock s Lvdisk -> used (vdk (io s)) ids -> (length ids < fuel)%nat ->
  (Forall2 (done_well (vdk (io s))) ids ns ->
   exists s', virtio_disk_intr fuel e s = Ret tt e s' /\ free_lock s' Lvdisk /\
     bdisk (vdk (io s')) = foldl (fun l n => <[n := 0]> l) (bdisk (vdk (io s))) ns /\
     used_idx (vdk (io s')) = used_count (vdk (io s)) /\
     vwrites (vdk (io s')) = (VIRTIO_MMIO_INTERRUPT_ACK, Z.land (u32 (vregs (vdk (io s)) VIRTIO_MMIO_INTERRUPT_STATUS)) 3) :: vwrites (vdk (io s)) /\
     dfree (vdk (io s')) = dfree (vdk (io s)) /\ desc (vdk (io s')) = desc (vdk (io s)) /\
     procs s' = wake_all ns (cur s) (procs s)) /\
  (forall id ids' n st, ids = id :: ids' -> info (vdk (io s)) !! id = Some (n, st) -> st <> 0 ->
   exists s', virtio_disk_intr fuel e s = Panic "virtio_disk_intr status" s').
Proof.
  intros Ht Hl Hu Hf. assert (Hok := proj1 Ht). set (v := u32 (Z.land (u32 (vregs (vdk (io s)) VIRTIO_MMIO_INTERRUPT_STATUS)) 3)).
  set (d1 := vdk (io s) <| vwrites ::= cons (VIRTIO_MMIO_INTERRUPT_ACK, v) |>). set (s1 := with_vdk d1 s).
  assert (E : virtio_disk_intr fuel e s = (loop fuel intr_step tt;; release Lvdisk) e (enter Lvdisk s1)).
  { unfold virtio_disk_intr. rewrite bindE, acquire_Ret by done. unfold mmio_read, get_vdk, mmio_write, set_vdk. msimp. done. }
  split.
  - intros Hw. destruct (wp_intr_loop e ids fuel ns (enter Lvdisk s1) (fun _ u => u = with_vdk (give_back ns d1) (enter Lvdisk s1) <| procs ::= wake_all ns (cur s1) |>)) as ([] & u & El & ->).
    + by apply (enter_nested Lvdisk s1).
    + by apply (table_ready_enter Lvdisk s1).
    + destruct Hu. by split.
    + eapply list.Forall2_impl; [exact Hw|]. intros i m [H1 H2]. done.
    + exact Hf.
    + by rewrite cur_enter.
    + exists (left_off (with_vdk (give_back ns d1) s <| procs ::= wake_all ns (cur s1) |>)). split; [|split; [exact Hl|split; [done|split; [done|split; [|done]]]]].
      * rewrite E, bindE, El. apply (release_from Lvdisk e _ (with_vdk (give_back ns d1) s <| procs ::= wake_all ns (cur s1) |>)); done.
      * change (vwrites (vdk (io (left_off (with_vdk (give_back ns d1) s <| procs ::= wake_all ns (cur s1) |>))))) with ((VIRTIO_MMIO_INTERRUPT_ACK, v) :: vwrites (vdk (io s))).
        do 2 f_equal. unfold v. rewrite u32_land3. done.
  - intros id ids' n st -> Hid Hst. rewrite E, bindE. destruct fuel as [|fuel]; [cbn in Hf; lia|]. cbn [loop]. rewrite bindE. unfold intr_step at 1, get_vdk. msimp.
    change (vdk (io (enter Lvdisk s1))) with d1. destruct (used_more _ _ _ Hu) as [He Hr].
    change (used_idx d1) with (used_idx (vdk (io s))). change (used_count d1) with (used_count (vdk (io s))). change (used_ring d1) with (used_ring (vdk (io s))).
    rewrite He, bindE, Hr. cbn [or_fault mret M_ret]. rewrite bindE. unfold get_info, get_vdk. msimp.
    change (info (vdk (io (enter Lvdisk s1)))) with (info (vdk (io s))). rewrite Hid. cbn [or_fault mret M_ret snd].
    rewrite (proj2 (Z.eqb_neq _ _) Hst). cbn [negb]. eexists. reflexivity.
Qed.

(** An idle queue whose ring index is about to wrap around, one buffer for
    block 3, and a process that runs on hart 0. *)
Definition idle_queue : vdisk :=
  mkVdisk (replicate NUM no_desc) (replicate NUM true) (replicate NUM 0%nat) 65535 (replicate NUM 0%nat) 0 0
    (replicate NUM (None, 0)) (replicate NUM (false, 0)) [0] (fun _ => 0) [].

Definition machine_vdk : mach :=
  machine0 <| locks ::= <[Lvdisk := mkSpinlock 0 "virtio_disk" None]> |>
    <| bc ::= fun c => c <| bufs := [mkBuf 0 1 3 1 []] |> |> <| io ::= fun x => x <| vdk := idle_queue |> |>.

(** The device and the interrupt handler complete the transfer of buffer 0. *)
Definition hand_back (t : mach) : mach := with_vdk (vdk (io t) <| bdisk ::= <[0%nat := 0]> |>) t.

Lemma machine_vdk_ready : table_ready machine_vdk.
Proof.
  split; [|split; [reflexivity|]].
  - eexists. split; [reflexivity|]. split; [cbn; lia|]. cbn. lia.
  - intros i Hi. destruct (proj2 (proj2 machine0_ready) i Hi) as [n Hn]. exists n. cbn. by rewrite lookup_insert_ne.
Qed.

Lemma blocked_project {A B} (f : mach -> B) (r : result A) (t : mach) (x : B) :
  r = Blocked t -> match r with Blocked u => Some (f u) | _ => None end = Some x -> f t = x.
Proof. by intros -> [= ->]. Qed.

(** The fact [f t = x], where the concrete run [E] stops in state [t]. *)
Tactic Notation "from_run" uconstr(f) hyp(E) := refine (blocked_project f _ _ _ E _); vm_compute; reflexivity.

Lemma hand_back_completed t i0 i1 i2 : virtio_disk_rw 3 0 true [] machine_vdk = Blocked t ->
  linked (vdk (io t)) i0 i1 i2 -> info (vdk (io t)) !! i0 = Some (Some 0%nat, 255) ->
  completed 0 0 i0 i1 i2 (mkCpu (Some 0%nat) context0 1 true false csrs0) (hand_back t).
Proof.
  intros E Hli Hin. split.
  - assert (Htp : tp t = 0%nat) by from_run tp E.
    assert (Hk : cpus t !! tp t = Some (mkCpu (Some 0%nat) context0 1 true false csrs0)) by from_run (fun u => cpus u !! tp u) E.
    assert (Hl : locks t !! Lproc 0 = Some (mkSpinlock 1 "proc" (Some 0%nat))) by from_run (fun u => locks u !! Lproc 0) E.
    split; [exact Hk|reflexivity|reflexivity|reflexivity|]. exists "proc"%string. change (tp (hand_back t)) with (tp t). rewrite Htp. exact Hl.
  - assert (H : length (procs t) = NPROC) by from_run (fun u => length (procs u)) E. exact H.
  - intros i Hi Hne. apply is_free_sound. assert (H : forallb (fun i => is_free t (Lproc i)) (seq 1 63) = true) by from_run (fun u => forallb (fun i => is_free u (Lproc i)) (seq 1 63)) E.
    rewrite forallb_forall in H. apply (H i), in_seq. unfold NPROC in Hi. lia.
  - apply is_free_sound. assert (H : is_free t Lvdisk = true) by from_run (fun u => is_free u Lvdisk) E. exact H.
  - assert (H : <[0%nat := 0]> (bdisk (vdk (io t))) !! 0%nat = Some 0) by from_run (fun u => <[0%nat := 0]> (bdisk (vdk (io u))) !! 0%nat) E. exact H.
  - destruct Hli as [? ? ? ? ?]. split; assumption.
  - exists 255. exact Hin.
Qed.

Lemma virtio_disk_rw_transfers_witness : exists t s' i0,
  virtio_disk_rw 3 0 true [] machine_vdk = Blocked t /\ device_request (vdk (io t)) i0 = Some (true, 6, 0%nat, i0) /\
  virtio_disk_rw 3 0 true [hand_back] machine_vdk = Ret tt [] s' /\ free_lock s' Lvdisk.
Proof.
  destruct (virtio_disk_rw_transfers 3 0 true machine_vdk 0 running (mkBuf 0 1 3 1 [])) as (t & i0 & i1 & i2 & sector & E & _ & _ & Hsec & Hv & Hd & Hli & R).
  - exact machine_vdk_ready.
  - reflexivity.
  - reflexivity.
  - reflexivity.
  - apply is_free_sound. reflexivity.
  - reflexivity.
  - split; reflexivity.
  - cbn. lia.
  - apply Nat.leb_le. reflexivity.
  - lia.
  - assert (Hin : info (vdk (io t)) !! i0 = Some (Some 0%nat, 255)).
    { rewrite Hv. cbn -[NUM]. apply list_lookup_insert_eq. destruct Hli as [_ _ _ Hu _]. by apply list.Forall_cons in Hu as [[_ ?] _]. }
    destruct (R hand_back [] _ (hand_back_completed t i0 i1 i2 E Hli Hin)) as (s' & st & E' & _ & _ & Hfree).
    exists t, s', i0. split; [exact E|]. split; [by rewrite Hd, Hsec|]. split; [exact E'|exact Hfree].
Defined.

(** Two completions across the wrap-around of the index: buffers 0 and 1. *)
Definition machine_used : mach :=
  with_vdk (mkVdisk (replicate NUM no_desc) (replicate NUM true) (replicate NUM 0%nat) 1 [3; 0; 0; 0; 0; 0; 0; 0]%nat 1 65535
    [(Some 0%nat, 0); (None, 0); (None, 0); (Some 1%nat, 0); (None, 0); (None, 0); (None, 0); (None, 0)] (replicate NUM (false, 0)) [1; 1] (fun _ => 7) []) machine_vdk.

Lemma virtio_disk_intr_serves_witness : exists s', virtio_disk_intr 3 [] machine_used = Ret tt [] s' /\
  bdisk (vdk (io s')) = [0; 0] /\ used_idx (vdk (io s')) = 1 /\ vwrites (vdk (io s')) = [(VIRTIO_MMIO_INTERRUPT_ACK, 3)].
Proof.
  destruct (virtio_disk_intr_serves 3 [] machine_used [0; 3]%nat [0; 1]%nat) as [H _].
  - exact machine_vdk_ready.
  - apply is_free_sound. reflexivity.
  - split; [|reflexivity|cbn; lia|cbn; lia]. intros [|[|k]] id Hk; [by injection Hk as <-|by injection Hk as <-|]. by destruct k.
  - cbn. lia.
  - destruct H as (s' & H1 & _ & H2 & H3 & H4 & _).
    + repeat constructor.
    + exists s'. split; [exact H1|]. split; [exact H2|]. split; [exact H3|]. rewrite H4. reflexivity.
Defined.
