(* ===== verification/Log.v ===== *)
(** * The log

    Model of [kernel/log.c]: the in-memory log, commit and recovery.  The log
    header of a block is [n] at offset 0 and [block[i]] at offset [4 + 4 i],
    little-endian [int]s. *)
From stdpp Require Import base tactics list numbers gmap strings.
From S2P Require Import Prelude Machine Wp Spinlock Sched Sleeplock Blocks Bio.

Open Scope Z_scope.

Definition set_log (f : log -> log) : M unit := modify (fun s => s <| slog ::= f |>).
Definition set_lh (f : logheader -> logheader) : M unit := set_log (fun l => l <| lh ::= f |>).

(** [log.lh.block[i] = b] and [log.lh.block[i]], with the bounds of the array. *)
Definition set_log_block (i : nat) (b : Z) : M unit :=
  if (i <? Z.to_nat LOGSIZE)%nat then set_lh (fun h => h <| block ::= <[i := b]> |>) else fault.
Definition log_block (i : nat) : M Z := s ← read id; or_fault (block (lh (slog s)) !! i).

(** A header block. *)
Definition hd_n (d : list Z) : Z := get_int d 0.
Definition hd_block (d : list Z) (i : nat) : Z := get_int d (4 + 4 * i).

(** [for(i = 0; i < n; i++) hb->block[i] = log.lh.block[i];] *)
Fixpoint put_blocks (d : list Z) (i : nat) (bs : list Z) : list Z :=
  match bs with
  | [] => d
  | b :: bs => put_blocks (put_word 4 d (4 + 4 * i) b) (S i) bs
  end.

Section log.
Context `{DK : Disk} (fuel : nat).

(** [for(tail = 0; tail < log.lh.n; tail++)]; the bodies do not change
    [log.lh.n]. *)
Definition each_logged (body : nat -> M unit) : M unit :=
  n ← read (fun s => ln (lh (slog s)));
  for_each (seq 0 (Z.to_nat n)) body.

Definition install_one (recovering : bool) (tail : nat) : M unit :=
  l ← read slog;
  lbuf ← bread fuel (ldev l) (u32 (lstart l + Z.of_nat tail + 1));
  b ← log_block tail;
  dbuf ← bread fuel (ldev l) (u32 b);
  lb ← get_buf lbuf;
  set_buf dbuf (fun b => b <| bdata := bdata lb |>);;
  bwrite dbuf;;
  when (negb recovering) (bunpin dbuf);;
  brelse lbuf;;
  brelse dbuf.

Definition install_trans (recovering : bool) : M unit := each_logged (install_one recovering).

Definition read_head : M unit :=
  l ← read slog;
  buf ← bread fuel (ldev l) (u32 (lstart l));
  b ← get_buf buf;
  set_lh (fun h => h <| ln := hd_n (bdata b) |>);;
  each_logged (fun i => set_log_block i (hd_block (bdata b) i));;
  brelse buf.

Definition write_head : M unit :=
  l ← read slog;
  buf ← bread fuel (ldev l) (u32 (lstart l));
  let n := ln (lh l) in
  set_buf buf (fun b => b <| bdata ::= fun d =>
    put_blocks (put_word 4 d 0 n) 0 (take (Z.to_nat n) (block (lh l))) |>);;
  bwrite buf;;
  brelse buf.

Definition recover_from_log : M unit :=
  read_head;;
  install_trans true;;
  set_lh (fun h => h <| ln := 0 |>);;
  write_head.

Definition initlog (dev : Z) (sb : superblock) : M unit :=
  if BSIZE <=? 4 + 4 * LOGSIZE then panic "initlog: too big logheader"%string
  else
    initlock Llog "log";;
    set_log (fun l => l <| lstart := logstart sb |>);;
    set_log (fun l => l <| lsize := nlog sb |>);;
    set_log (fun l => l <| ldev := dev |>);;
    recover_from_log.

(** One iteration of [while(1)] of [begin_op]. *)
Definition begin_op_step (_ : unit) : M (unit + unit) :=
  l ← read slog;
  if negb (committing l =? 0) then sleep ChLog Llog;; mret (inl tt)
  else if LOGSIZE <? ln (lh l) + (outstanding l + 1) * MAXOPBLOCKS then
    sleep ChLog Llog;; mret (inl tt)
  else
    set_log (fun l => l <| outstanding := outstanding l + 1 |>);;
    release Llog;;
    mret (inr tt).

Definition begin_op : M unit :=
  acquire Llog;;
  loop fuel begin_op_step tt.

Definition write_log_one (tail : nat) : M unit :=
  l ← read slog;
  to ← bread fuel (ldev l) (u32 (lstart l + Z.of_nat tail + 1));
  b ← log_block tail;
  from ← bread fuel (ldev l) (u32 b);
  fb ← get_buf from;
  set_buf to (fun b => b <| bdata := bdata fb |>);;
  bwrite to;;
  brelse from;;
  brelse to.

Definition write_log : M unit := each_logged write_log_one.

Definition commit : M unit :=
  l ← read slog;
  if 0 <? ln (lh l) then
    write_log;;
    write_head;;
    install_trans false;;
    set_lh (fun h => h <| ln := 0 |>);;
    write_head
  else mret tt.

Definition end_op : M unit :=
  acquire Llog;;
  set_log (fun l => l <| outstanding := outstanding l - 1 |>);;
  l ← read slog;
  if negb (committing l =? 0) then panic "log.committing"%string
  else
    do_commit ← (if outstanding l =? 0 then
                   set_log (fun l => l <| committing := 1 |>);; mret true
                 else wakeup ChLog;; mret false);
    release Llog;;
    when do_commit
      (commit;;
       acquire Llog;;
       set_log (fun l => l <| committing := 0 |>);;
       wakeup ChLog;;
       release Llog).

(** The search of [log_write]: the first [i] with [log.lh.block[i] == bno]. *)
Definition log_index (bno : Z) (h : logheader) : nat :=
  match list_find (fun b => b = bno) (take (Z.to_nat (ln h)) (block h)) with
  | Some (i, _) => i
  | None => Z.to_nat (ln h)
  end.

Definition log_write (n : nat) : M unit :=
  acquire Llog;;
  l ← read slog;
  if (LOGSIZE <=? ln (lh l)) || (lsize l - 1 <=? ln (lh l)) then panic "too big a transaction"%string
  else if outstanding l <? 1 then panic "log_write outside of trans"%string
  else
    b ← get_buf n;
    let i := log_index (i32 (blockno b)) (lh l) in
    set_log_block i (i32 (blockno b));;
    when (Z.of_nat i =? ln (lh l))
      (bpin n;;
       set_lh (fun h => h <| ln := ln h + 1 |>));;
    release Llog.

End log.

(** ** What the log means

    The block numbers the in-memory log holds, and those a header block
    lists. *)
Definition logged (l : log) : list Z := take (Z.to_nat (ln (lh l))) (block (lh l)).
Definition hd_blocks (d : list Z) : list Z := hd_block d <$> seq 0 (Z.to_nat (hd_n d)).

(** The header and the log blocks. *)
Definition log_area (st b : Z) : Prop := st <= b <= st + LOGSIZE.

(** Block numbers that can be in a log that starts at [st]. *)
Definition home_blocks (st : Z) (bs : list Z) : Prop :=
  NoDup bs /\ Forall (fun b => 0 <= b < 2 ^ 31 /\ ~ log_area st b) bs /\ (length bs <= Z.to_nat LOGSIZE)%nat.

(** Specification of recovery: the disk after the blocks of a committed
    transaction have been copied home and the header has been cleared. *)
Fixpoint install (st : Z) (i : nat) (bs : list Z) (d : Z -> list Z) : Z -> list Z :=
  match bs with
  | [] => d
  | b :: bs => install st (S i) bs (upd d b (d (st + Z.of_nat i + 1)))
  end.

Definition recovered (st : Z) (d : Z -> list Z) : Z -> list Z :=
  upd (install st 0 (hd_blocks (d st)) d) st (put_word 4 (d st) 0 0).

Lemma put_blocks_length d i bs : length (put_blocks d i bs) = length d.
Proof. revert d i. induction bs as [|b bs IH]; intros d i; [done|]. cbn [put_blocks]. by rewrite IH, put_word_length. Qed.

Lemma put_blocks_other d i bs off :
  (off + 4 <= 4 + 4 * i)%nat -> get_int (put_blocks d i bs) off = get_int d off.
Proof.
  revert d i. induction bs as [|b bs IH]; intros d i H; [done|]. cbn [put_blocks].
  rewrite IH by lia. apply get_put_int_other. lia.
Qed.

Lemma put_blocks_block d i bs j b :
  (4 + 4 * (i + length bs) <= length d)%nat -> bs !! j = Some b -> in_i32 b ->
  hd_block (put_blocks d i bs) (i + j) = b.
Proof.
  revert d i j. induction bs as [|b' bs IH]; intros d i j Hl Hj Hb; [done|]. cbn [put_blocks length] in *.
  destruct j as [|j]; cbn in Hj; simplify_eq.
  - unfold hd_block. rewrite put_blocks_other by lia. rewrite Nat.add_0_r. apply get_put_int; [lia|done].
  - replace (i + S j)%nat with (S i + j)%nat by lia. apply IH; [rewrite put_word_length; lia|done..].
Qed.

(** The header that [write_head] makes lists the blocks of the log. *)
Lemma header_roundtrip d bs :
  length d = 1024%nat -> (length bs <= 30)%nat -> Forall in_i32 bs ->
  hd_blocks (put_blocks (put_word 4 d 0 (Z.of_nat (length bs))) 0 bs) = bs.
Proof.
  intros Hd Hl HF. unfold hd_blocks.
  assert (E : hd_n (put_blocks (put_word 4 d 0 (Z.of_nat (length bs))) 0 bs) = Z.of_nat (length bs)).
  { unfold hd_n. rewrite put_blocks_other by lia. apply get_put_int; [lia|]. unfold in_i32. lia. }
  rewrite E, Nat2Z.id. apply list_eq. intros j. rewrite list_lookup_fmap.
  destruct (decide (j < length bs)%nat) as [Hj|Hj].
  - destruct (lookup_lt_is_Some_2 bs j Hj) as [b Hb]. rewrite Hb, lookup_seq_lt by done. cbn [fmap option_fmap option_map].
    f_equal. apply (put_blocks_block _ 0 bs j b); [rewrite put_word_length; lia|done|].
    by apply (Forall_lookup_1 _ _ _ _ HF Hb).
  - by rewrite lookup_seq_ge, lookup_ge_None_2 by lia.
Qed.

Lemma header_cleared d : length d = 1024%nat -> hd_blocks (put_word 4 d 0 0) = [].
Proof.
  intros Hd. unfold hd_blocks. assert (E : hd_n (put_word 4 d 0 0) = 0); [|by rewrite E].
  apply get_put_int; [lia|]. unfold in_i32. lia.
Qed.

Lemma install_other st i bs d x : x ∉ bs -> install st i bs d x = d x.
Proof.
  revert i d. induction bs as [|b bs IH]; intros i d Hx; [done|]. cbn [install].
  apply not_elem_of_cons in Hx as [Hb Hx]. by rewrite IH, upd_other.
Qed.

Lemma install_home st i bs d j b :
  NoDup bs -> Forall (fun b => ~ log_area st b) bs -> (i + length bs <= Z.to_nat LOGSIZE)%nat ->
  bs !! j = Some b -> install st i bs d b = d (st + Z.of_nat (i + j) + 1).
Proof.
  revert i j d. induction bs as [|b' bs IH]; intros i j d Hnd HF Hl Hj; [done|]. cbn [install length] in *.
  apply list.NoDup_cons in Hnd as [Hnew Hnd]. apply list.Forall_cons in HF as [Hb' HF].
  destruct j as [|j]; cbn in Hj; simplify_eq.
  - rewrite install_other by done. rewrite upd_same. do 2 f_equal. lia.
  - rewrite (IH (S i) j) by (done || lia). rewrite upd_other.
    + f_equal. lia.
    + intros <-. apply Hb'. apply lookup_lt_Some in Hj. unfold log_area, LOGSIZE, MAXOPBLOCKS in *. lia.
Qed.

Lemma install_ext st i bs d1 d2 x : (forall y, d1 y = d2 y) -> install st i bs d1 x = install st i bs d2 x.
Proof.
  revert i d1 d2. induction bs as [|b bs IH]; intros i d1 d2 H; [apply H|]. cbn [install]. apply IH.
  intros y. unfold upd. rewrite H. by destruct (y =? b).
Qed.

(** Recovery, block by block. *)
Lemma recovered_home st d j b :
  home_blocks st (hd_blocks (d st)) -> hd_blocks (d st) !! j = Some b ->
  recovered st d b = d (st + Z.of_nat j + 1).
Proof.
  intros (Hnd & HF & Hl) Hj. unfold recovered. rewrite upd_other.
  - apply (install_home st 0 _ d j b); [done| |done|done]. eapply Forall_weaken; [done|]. by intros x [_ ?].
  - intros ->. apply (Forall_lookup_1 _ _ _ _ HF) in Hj as [_ Hj]. apply Hj.
    unfold log_area, LOGSIZE, MAXOPBLOCKS. lia.
Qed.

Lemma recovered_other st d x :
  x ∉ hd_blocks (d st) -> ~ log_area st x -> recovered st d x = d x.
Proof.
  intros Hx Ha. unfold recovered. rewrite upd_other, install_other; [done|done|].
  intros ->. apply Ha. unfold log_area, LOGSIZE, MAXOPBLOCKS. lia.
Qed.

(** ** Calls *)

Section calls.
Context {DK : Disk} {DL : @DiskLaw DK} (fuel : nat) (p : nat) (pr : proc) (e : env).
Notation fs_rep := (fs_rep p pr).

(** The log holds the blocks [bs]. *)
Record log_ok (l : log) (bs : list Z) : Prop := mkLogOk {
  lo_dev : ldev l = ROOTDEV;
  lo_start : 0 <= lstart l /\ lstart l + LOGSIZE < 2 ^ 31;
  lo_len : length (block (lh l)) = Z.to_nat LOGSIZE;
  lo_n : ln (lh l) = Z.of_nat (length bs);
  lo_bs : logged l = bs;
  lo_home : home_blocks (lstart l) bs
}.

Lemma log_ok_block l bs i b : log_ok l bs -> bs !! i = Some b -> block (lh l) !! i = Some b.
Proof.
  intros [_ _ _ Hn Hb _] Hi. unfold logged in Hb. rewrite <- Hb in Hi.
  by apply lookup_take_Some in Hi as [? _].
Qed.

Lemma log_ok_home l bs i b : log_ok l bs -> bs !! i = Some b ->
  0 <= b < 2 ^ 31 /\ ~ log_area (lstart l) b /\ (i < Z.to_nat LOGSIZE)%nat.
Proof.
  intros [_ _ _ _ _ (_ & HF & Hl)] Hi. destruct (Forall_lookup_1 _ _ _ _ HF Hi) as [H1 H2].
  apply lookup_lt_Some in Hi. split; [done|]. split; [done|lia].
Qed.

Lemma wp_log_block i b s bs (Q : Z -> mach -> Prop) :
  log_ok (slog s) bs -> bs !! i = Some b -> Q b s -> wp (log_block i) e s Q.
Proof.
  intros Hl Hi HQ. unfold log_block. apply wp_bind, wp_read.
  apply (wp_or_fault _ _ b); [|done]. exact (log_ok_block _ _ _ _ Hl Hi).
Qed.

(** A loop over the logged blocks. *)
Lemma wp_each_logged (I : nat -> mach -> Prop) body s bs (Q : unit -> mach -> Prop) :
  log_ok (slog s) bs -> I 0%nat s ->
  (forall i b t, bs !! i = Some b -> I i t -> wp (body i) e t (fun _ u => I (S i) u)) ->
  (forall t, I (length bs) t -> Q tt t) ->
  wp (each_logged body) e s Q.
Proof.
  intros Hl H0 Hs HQ. unfold each_logged. apply wp_bind, wp_read.
  rewrite (lo_n _ _ Hl), Nat2Z.id. apply (wp_for_each _ I); [done| |].
  - intros i x t Hi HI. apply lookup_seq in Hi as [-> Hi]. cbn [Nat.add].
    destruct (lookup_lt_is_Some_2 bs i Hi) as [b Hb]. by eapply Hs.
  - intros t. rewrite length_seq. apply HQ.
Qed.

(** The place of logged block [i] in the log. *)
Definition log_slot (st : Z) (i : nat) : Z := st + Z.of_nat i + 1.

Lemma log_slot_area st i : (i < Z.to_nat LOGSIZE)%nat -> log_area st (log_slot st i) /\ log_slot st i <> st.
Proof. unfold log_area, log_slot, LOGSIZE, MAXOPBLOCKS. lia. Qed.

Lemma log_slot_inj st i j : log_slot st i = log_slot st j -> i = j.
Proof. unfold log_slot. lia. Qed.

Lemma log_area_u32 l bs b : log_ok l bs -> log_area (lstart l) b -> u32 b = b.
Proof. intros [_ Hs _ _ _ _] Hb. unfold log_area in Hb. apply u32_id. unfold LOGSIZE, MAXOPBLOCKS in *. lia. Qed.

(** The process holds no buffer of the log. *)
Definition log_private (st : Z) (h : list Z) : Prop := forall b, log_area st b -> b ∉ h.

Lemma wp_write_log_one i b s v h bs (Q : unit -> mach -> Prop) :
  fs_rep s v h [] -> log_ok (slog s) bs -> bs !! i = Some b ->
  b ∈ h -> (length h < NBUF)%nat -> log_private (lstart (slog s)) h ->
  let a := log_slot (lstart (slog s)) i in
  (forall t, fs_rep t (upd v a (v b)) h [] -> bio_step h [(a, v b)] s t -> Q tt t) ->
  wp (write_log_one (S fuel) i) e s Q.
Proof.
  intros R L Hi Hb Hroom Hp a HQ.
  destruct (log_ok_home _ _ _ _ L Hi) as (Hb0 & Hb1 & Hlt).
  destruct (log_slot_area (lstart (slog s)) i Hlt) as [Ha _]. fold a in Ha.
  assert (Hah : a ∉ h) by by apply Hp. assert (Hab : b <> a) by by intros ->.
  assert (HN : (NBUF < 100)%nat) by (unfold NBUF; lia).
  unfold write_log_one. apply wp_bind, wp_read, wp_bind. rewrite (lo_dev _ _ L).
  fold (log_slot (lstart (slog s)) i). fold a. rewrite (log_area_u32 _ _ a L Ha).
  eapply wp_bread; [done|apply not_elem_of_nil|by right|lia|]. intros to t1 R1 To1 S1.
  apply wp_bind. eapply wp_log_block; [by rewrite (bs_log _ _ _ _ S1)|done|].
  apply wp_bind. rewrite u32_id by lia.
  eapply wp_bread; [done|set_solver|left; set_solver|cbn; lia|]. intros from t2 R2 From2 S2.
  apply wp_bind. eapply wp_get_buf; [done|done|]. intros fb Hfb _.
  apply wp_bind. eapply (wp_set_data p pr e to a (v b)); [done|handle|set_solver|apply R2|..].
  { intros x _. by rewrite Hfb. }
  intros t3 R3 S3. apply wp_bind.
  eapply (wp_bwrite p pr e to a); [done|handle|set_solver|]. intros t4 R4 S4. rewrite upd_same in S4.
  apply wp_bind. eapply (wp_brelse p pr e from b _ _ _ _ (a :: h) [a]);
    [done|handle|done|done|set_solver|left; set_solver|set_solver|].
  intros t5 R5 S5.
  assert (To5 : buffer_of (bc t5) to a) by handle. join h S1 S2. join h S1 S3. join h S1 S4. join h S1 S5.
  eapply (wp_brelse p pr e to a _ _ _ _ h []); [done|done|done|done|set_solver| |set_solver|].
  { right. rewrite (bs_disk _ _ _ _ S1). cbn. by rewrite !upd_same. }
  intros t6 R6 S6. apply HQ; [done|]. by join h S1 S6.
Qed.

Lemma play_other W d x : x ∉ W.*1 -> play W d x = d x.
Proof.
  induction W as [|[y z] W IH]; intros Hx; [done|]. apply not_elem_of_cons in Hx as [Hy Hx].
  unfold play. cbn [foldr fst snd]. by rewrite upd_other; [apply IH|].
Qed.

Lemma elem_of_rev_fst (W : list (Z * list Z)) x : x ∈ (rev W).*1 <-> x ∈ W.*1.
Proof. by rewrite <- Permutation_rev. Qed.

(** What [write_log] writes, in the order of the writes. *)
Definition log_writes (st : Z) (bs : list Z) (v : Z -> list Z) : list (Z * list Z) :=
  imap (fun i b => (log_slot st i, v b)) bs.

Lemma log_writes_area st bs v x :
  (length bs <= Z.to_nat LOGSIZE)%nat -> x ∈ (log_writes st bs v).*1 -> log_area st x /\ x <> st.
Proof.
  intros Hl ([a d] & -> & Ha)%list_elem_of_fmap. apply list_elem_of_lookup in Ha as [i Hi].
  unfold log_writes in Hi. rewrite list_lookup_imap in Hi. apply fmap_Some in Hi as (b & Hb & [= -> ->]).
  apply lookup_lt_Some in Hb. apply log_slot_area. lia.
Qed.

Lemma log_writes_lookup st bs v d i b :
  bs !! i = Some b -> play (rev (log_writes st bs v)) d (log_slot st i) = v b.
Proof.
  revert d. induction bs as [|b' bs IH] using rev_ind; intros d Hi; [done|].
  unfold log_writes. rewrite imap_app, rev_app_distr. cbn [imap rev app]. unfold play. cbn [foldr fst snd].
  destruct (decide (i = length bs)) as [->|Hne].
  - rewrite Nat.add_0_r, upd_same. rewrite lookup_app_r, Nat.sub_diag in Hi by lia. by injection Hi as ->.
  - assert (Hlt : (i < length bs)%nat).
    { apply lookup_lt_Some in Hi. rewrite length_app in Hi. cbn in Hi. lia. }
    rewrite upd_other by (intros E%log_slot_inj; lia). apply IH. by rewrite lookup_app_l in Hi.
Qed.

Lemma wp_write_log s v h bs (Q : unit -> mach -> Prop) :
  fs_rep s v h [] -> log_ok (slog s) bs -> (forall b, b ∈ bs -> b ∈ h) ->
  (length h < NBUF)%nat -> log_private (lstart (slog s)) h ->
  let W := rev (log_writes (lstart (slog s)) bs v) in
  (forall t, fs_rep t (play W v) h [] -> bio_step h W s t -> Q tt t) ->
  wp (write_log (S fuel)) e s Q.
Proof.
  intros R L Hb Hroom Hp W HQ. set (st := lstart (slog s)) in *.
  set (Wi := fun i => rev (log_writes st (take i bs) v)).
  apply (wp_each_logged (fun i t => fs_rep t (play (Wi i) v) h [] /\ bio_step h (Wi i) s t) _ _ bs); [done| | |].
  - split; [done|apply bio_step_refl].
  - intros i b t Hi [R1 S1]. assert (El := bs_log _ _ _ _ S1).
    destruct (log_ok_home _ _ _ _ L Hi) as (_ & Hhome & Hlt).
    eapply wp_write_log_one; [done|by rewrite El|done| |done|by rewrite El|].
    { apply Hb. by eapply list_elem_of_lookup_2. }
    rewrite El. fold st. intros u R2 S2.
    assert (Hv : play (Wi i) v b = v b).
    { apply play_other. unfold Wi. rewrite elem_of_rev_fst. intros Ha.
      apply log_writes_area in Ha as [Ha _]; [by apply Hhome|]. rewrite length_take. lia. }
    assert (EW : Wi (S i) = (log_slot st i, v b) :: Wi i).
    { unfold Wi, log_writes. rewrite (take_S_r _ _ _ Hi), imap_app, rev_app_distr. cbn.
      apply lookup_lt_Some in Hi. by rewrite length_take, Nat.min_l, Nat.add_0_r by lia. }
    rewrite EW. rewrite Hv in R2, S2. split; [done|]. by join h S1 S2.
  - intros t. unfold Wi. rewrite firstn_all. intros [R1 S1]. by apply HQ.
Qed.

(** The header that [write_head] makes out of the contents [d] of the header
    block. *)
Definition header (bs : list Z) (d : list Z) : list Z :=
  put_blocks (put_word 4 d 0 (Z.of_nat (length bs))) 0 bs.

Lemma wp_write_head s v h bs (Q : unit -> mach -> Prop) :
  let st := lstart (slog s) in
  fs_rep s v h [] -> log_ok (slog s) bs -> (length h < NBUF)%nat -> log_private st h ->
  (forall t, fs_rep t (upd v st (header bs (v st))) h [] ->
     bio_step h [(st, header bs (v st))] s t -> Q tt t) ->
  wp (write_head (S fuel)) e s Q.
Proof.
  intros st R L Hroom Hp HQ.
  assert (Ha : log_area st st) by (unfold log_area, LOGSIZE, MAXOPBLOCKS; lia).
  assert (Hn : st ∉ h) by by apply Hp. assert (HN : (NBUF < 100)%nat) by (unfold NBUF; lia).
  unfold write_head. apply wp_bind, wp_read, wp_bind. rewrite (lo_dev _ _ L). fold st.
  rewrite (log_area_u32 _ _ st L Ha).
  eapply wp_bread; [done|apply not_elem_of_nil|by right|lia|]. intros n t1 R1 Hn1 S1. apply wp_bind.
  eapply (wp_set_data p pr e n st (header bs (v st))); [done|handle|set_solver| | |].
  { unfold header. rewrite put_blocks_length, put_word_length. by eapply fs_rep_size. }
  { intros b Hb. assert (Hl := lo_bs _ _ L). unfold logged in Hl.
    unfold header. rewrite <- Hb, <- (lo_n _ _ L), Hl. done. }
  intros t2 R2 S2. apply wp_bind.
  eapply (wp_bwrite p pr e n st); [done|handle|set_solver|]. intros t3 R3 S3. rewrite upd_same in S3.
  assert (Hn3 : buffer_of (bc t3) n st) by handle. join h S1 S2. join h S1 S3.
  eapply (wp_brelse p pr e n st _ _ _ _ h []); [done|done|done|done|set_solver| |set_solver|].
  { right. rewrite (bs_disk _ _ _ _ S1). cbn. by rewrite !upd_same. }
  intros t4 R4 S4. apply HQ; [done|]. by join h S1 S4.
Qed.

(** One block goes home.  The pin of the transaction is given up, unless the
    log is being recovered. *)
Lemma wp_install_one (recovering : bool) i b s v h h' bs (Q : unit -> mach -> Prop) :
  fs_rep s v h [] -> log_ok (slog s) bs -> bs !! i = Some b -> log_private (lstart (slog s)) h ->
  (if recovering then h' = h /\ b ∉ h /\ (S (length h) < NBUF)%nat
   else h ≡ₚ b :: h' /\ (length h < NBUF)%nat) ->
  let a := log_slot (lstart (slog s)) i in
  (forall t, fs_rep t (upd v b (v a)) h' [] -> bio_step h' [(b, v a)] s t -> Q tt t) ->
  wp (install_one (S fuel) recovering i) e s Q.
Proof.
  intros R L Hi Hp Hh a HQ.
  destruct (log_ok_home _ _ _ _ L Hi) as (Hb0 & Hb1 & Hlt).
  destruct (log_slot_area (lstart (slog s)) i Hlt) as [Ha _]. fold a in Ha.
  assert (Hah : a ∉ h) by by apply Hp. assert (Hab : b <> a) by by intros ->.
  assert (HN : (NBUF < 100)%nat) by (unfold NBUF; lia).
  assert (Hsub : forall x, x ∈ h' -> x ∈ h).
  { destruct recovering; [by destruct Hh as [-> _]|]. destruct Hh as [E _]. intros x Hx. rewrite E. by right. }
  assert (Hroom : (length h < NBUF)%nat) by (destruct recovering; lia).
  assert (Hb : b ∈ a :: h \/ (length (a :: h) < NBUF)%nat).
  { destruct recovering; [right; cbn; lia|]. destruct Hh as [E _]. left. right. rewrite E. by left. }
  assert (Hva := fs_rep_clean _ _ _ _ _ _ _ R Hah).
  unfold install_one. apply wp_bind, wp_read, wp_bind. rewrite (lo_dev _ _ L).
  fold (log_slot (lstart (slog s)) i). fold a. rewrite (log_area_u32 _ _ a L Ha).
  eapply wp_bread; [done|apply not_elem_of_nil|by right|lia|]. intros lb t1 R1 Lb1 S1.
  apply wp_bind. eapply wp_log_block; [by rewrite (bs_log _ _ _ _ S1)|done|].
  apply wp_bind. rewrite u32_id by lia.
  eapply wp_bread; [done|set_solver|done|cbn; lia|]. intros db t2 R2 Db2 S2.
  apply wp_bind. eapply (wp_get_buf p pr e lb a); [done|handle|]. intros x Hx _.
  apply wp_bind. eapply (wp_set_data p pr e db b (v a)); [done|handle|set_solver|by eapply fs_rep_size|..].
  { intros y _. by rewrite Hx. }
  intros t3 R3 S3. apply wp_bind.
  eapply (wp_bwrite p pr e db b); [done|handle|set_solver|]. intros t4 R4 S4. rewrite upd_same in S4.
  assert (Lb4 : buffer_of (bc t4) lb a) by handle. assert (Db4 : buffer_of (bc t4) db b) by handle.
  assert (S14 := S1). join h S14 S2. join h S14 S3. join h S14 S4. clear S1.
  assert (Eb : disk (bc t4) b = v a).
  { rewrite (bs_disk _ _ _ _ S14). cbn. by rewrite upd_same. }
  apply wp_bind. apply (wp_mono _ _ _ (fun _ t5 =>
    fs_rep t5 (upd v b (v a)) (b :: a :: h') [b; a] /\ bio_step (b :: a :: h) [] t4 t5)).
  { apply wp_when.
    - intros Hrec. destruct recovering; [done|]. destruct Hh as [E _].
      eapply (wp_bunpin p pr e db b _ _ _ _ (b :: a :: h')); [done|done| |left; by left|set_solver|].
      { rewrite E. apply Permutation_cons; [done|]. apply Permutation_swap. }
      done.
    - intros Hrec. destruct recovering; [|done]. destruct Hh as [-> _]. split; [done|apply bio_step_refl]. }
  intros [] t5 [R5 S5]. apply wp_bind.
  eapply (wp_brelse p pr e lb a _ _ _ _ (b :: h') [b]); [done|handle|..].
  { apply Permutation_swap. } { apply Permutation_swap. } { set_solver. }
  { right. rewrite (bs_disk _ _ _ _ S5). cbn [play foldr]. rewrite (bs_disk _ _ _ _ S14). cbn. rewrite !upd_other by done. done. }
  { set_solver. }
  intros t6 R6 S6.
  assert (Db6 : buffer_of (bc t6) db b) by handle.
  join h' S14 S5. join h' S14 S6.
  eapply (wp_brelse p pr e db b _ _ _ _ h' []); [done|done|done|done|set_solver| |set_solver|].
  { right. rewrite (bs_disk _ _ _ _ S14). cbn. by rewrite !upd_same. }
  intros t7 R7 S7. apply HQ; [done|]. by join h' S14 S7.
Qed.

(** What [install_trans] writes, in the order of the writes. *)
Definition home_writes (st : Z) (bs : list Z) (v : Z -> list Z) : list (Z * list Z) :=
  imap (fun i b => (b, v (log_slot st i))) bs.

Lemma home_writes_fst st bs v : (home_writes st bs v).*1 = bs.
Proof.
  apply list_eq. intros i. unfold home_writes. rewrite list_lookup_fmap, list_lookup_imap.
  by destruct (bs !! i).
Qed.

Lemma home_writes_lookup st bs v d i b :
  NoDup bs -> bs !! i = Some b -> play (rev (home_writes st bs v)) d b = v (log_slot st i).
Proof.
  revert d. induction bs as [|b' bs IH] using rev_ind; intros d Hnd Hi; [done|].
  apply list.NoDup_app in Hnd as (Hnd & Hd & _).
  unfold home_writes. rewrite imap_app, rev_app_distr. cbn [imap rev app]. unfold play. cbn [foldr fst snd].
  destruct (decide (i < length bs)%nat) as [Hlt|Hge].
  - rewrite lookup_app_l in Hi by done. rewrite upd_other; [by apply IH|].
    intros ->. apply (Hd b'); [by eapply list_elem_of_lookup_2|by left].
  - assert (Hl := lookup_lt_Some _ _ _ Hi). rewrite length_app in Hl. cbn in Hl.
    assert (i = length bs) as -> by lia. rewrite lookup_app_r, Nat.sub_diag in Hi by lia.
    injection Hi as ->. by rewrite upd_same, Nat.add_0_r.
Qed.

Lemma wp_install_trans (recovering : bool) s v others bs (Q : unit -> mach -> Prop) :
  let pinned i := (if recovering then [] else drop i bs) ++ others in
  fs_rep s v (pinned 0%nat) [] -> log_ok (slog s) bs -> log_private (lstart (slog s)) others ->
  (if recovering then (forall b, b ∈ bs -> b ∉ others) /\ (S (length others) < NBUF)%nat
   else (length (bs ++ others) < NBUF)%nat) ->
  let W := rev (home_writes (lstart (slog s)) bs v) in
  (forall t, fs_rep t (play W v) others [] -> bio_step others W s t -> Q tt t) ->
  wp (install_trans (S fuel) recovering) e s Q.
Proof.
  intros pinned R L Hp Hr W HQ. set (st := lstart (slog s)) in *.
  set (Wi := fun i => rev (home_writes st (take i bs) v)).
  apply (wp_each_logged (fun i t => fs_rep t (play (Wi i) v) (pinned i) [] /\ bio_step others (Wi i) s t) _ _ bs);
    [done| | |].
  - split; [done|apply bio_step_refl].
  - intros i b t Hi [R1 S1]. assert (El := bs_log _ _ _ _ S1).
    destruct (log_ok_home _ _ _ _ L Hi) as (_ & Hhome & Hlt).
    assert (Hpr : log_private st (pinned i)).
    { intros x Hx. unfold pinned. rewrite elem_of_app. intros [Hin|Hin]; [|by apply (Hp x)].
      destruct recovering; [by apply elem_of_nil in Hin|].
      apply list_elem_of_lookup in Hin as [j Hj]. rewrite lookup_drop in Hj.
      by destruct (log_ok_home _ _ _ _ L Hj) as (_ & Hn & _). }
    assert (Hv : play (Wi i) v (log_slot st i) = v (log_slot st i)).
    { apply play_other. unfold Wi. rewrite elem_of_rev_fst, home_writes_fst. intros Ha.
      apply list_elem_of_lookup in Ha as [j Hj]. apply lookup_take_Some in Hj as [Hj _].
      destruct (log_ok_home _ _ _ _ L Hj) as (_ & Hn & _). apply Hn, log_slot_area, Hlt. }
    assert (EW : Wi (S i) = (b, v (log_slot st i)) :: Wi i).
    { unfold Wi, home_writes. rewrite (take_S_r _ _ _ Hi), imap_app, rev_app_distr. cbn.
      apply lookup_lt_Some in Hi. by rewrite length_take, Nat.min_l, Nat.add_0_r by lia. }
    eapply (wp_install_one recovering i b t _ (pinned i) (pinned (S i)));
      [done|by rewrite El|done|by rewrite El| |].
    { unfold pinned. destruct recovering.
      - destruct Hr as [Hr1 Hr2]. split; [done|]. split; [|done]. apply Hr1. by eapply list_elem_of_lookup_2.
      - rewrite (drop_S _ _ _ Hi). split; [done|]. rewrite length_app in *.
        cbn [length]. rewrite length_drop. apply lookup_lt_Some in Hi. lia. }
    rewrite El. fold st. rewrite Hv. intros u R2 S2.
    rewrite EW. split; [done|]. by join others S1 S2.
  - intros t. unfold Wi, pinned. rewrite firstn_all, drop_all. intros [R1 S1].
    apply HQ; [|done]. by destruct recovering.
Qed.

(** The writes of a commit, in their order: the log, the header, the home
    blocks, the empty header. *)
Definition commit_writes (st : Z) (bs : list Z) (v : Z -> list Z) : list (Z * list Z) :=
  log_writes st bs v ++ (st, header bs (v st)) ::
  ((fun b => (b, v b)) <$> bs) ++ [(st, header [] (header bs (v st)))].

(** The contents between the two halves of a commit. *)
Definition committed (st : Z) (bs : list Z) (v : Z -> list Z) : Z -> list Z :=
  upd (play (rev (log_writes st bs v)) v) st (header bs (v st)).

Lemma log_writes_not_home st bs v b l :
  log_ok l bs -> st = lstart l -> ~ log_area st b -> b ∉ (log_writes st bs v).*1.
Proof.
  intros L -> Hb Ha. apply log_writes_area in Ha as [? _]; [done|]. apply (lo_home _ _ L).
Qed.

Lemma committed_slot st bs v i b l :
  log_ok l bs -> st = lstart l -> bs !! i = Some b -> committed st bs v (log_slot st i) = v b.
Proof.
  intros L -> Hi. destruct (log_ok_home _ _ _ _ L Hi) as (_ & _ & Hlt).
  unfold committed. rewrite upd_other by by apply log_slot_area. by apply log_writes_lookup.
Qed.

Lemma committed_home_writes st bs v l :
  log_ok l bs -> st = lstart l -> home_writes st bs (committed st bs v) = (fun b => (b, v b)) <$> bs.
Proof.
  intros L E. apply list_eq. intros i. unfold home_writes. rewrite list_lookup_imap, list_lookup_fmap.
  destruct (bs !! i) as [b|] eqn:Hi; [|done]. cbn. by rewrite (committed_slot _ _ _ _ _ _ L E Hi).
Qed.

Lemma log_ok_cleared l bs : log_ok l bs -> log_ok (l <| lh ::= fun h : logheader => h <| ln := 0 |> |>) [].
Proof.
  intros []. split; try done. split; [by apply NoDup_nil|]. split; [done|cbn; lia].
Qed.

Lemma log_private_homes l bs others :
  log_ok l bs -> log_private (lstart l) others -> log_private (lstart l) (bs ++ others).
Proof.
  intros L Hp b Hb [Hin|Hin]%elem_of_app; [|by apply (Hp b)].
  apply list_elem_of_lookup in Hin as [i Hi]. by destruct (log_ok_home _ _ _ _ L Hi) as (_ & ? & _).
Qed.

Lemma play_homes bs v d x :
  play (rev ((fun b => (b, v b)) <$> bs)) d x = if decide (x ∈ bs) then v x else d x.
Proof.
  induction bs as [|b bs IH] using rev_ind; [done|].
  rewrite fmap_app, rev_app_distr. cbn [fmap list_fmap rev app]. unfold play. cbn [foldr fst snd].
  destruct (decide (x = b)) as [->|Hne].
  - rewrite upd_same, decide_True; [done|]. rewrite elem_of_app. right. by left.
  - rewrite upd_other by done. unfold play in IH. rewrite IH.
    destruct (decide (x ∈ bs)) as [Hx|Hx].
    + rewrite decide_True; [done|]. rewrite elem_of_app. by left.
    + rewrite decide_False; [done|]. rewrite elem_of_app, list_elem_of_singleton. by intros [?|?].
Qed.

Lemma wp_commit s v others bs (Q : unit -> mach -> Prop) :
  let st := lstart (slog s) in
  fs_rep s v (bs ++ others) [] -> log_ok (slog s) bs -> bs <> [] -> (length (bs ++ others) < NBUF)%nat ->
  log_private st others ->
  (forall t v', fs_rep t v' others [] -> fs_step others (rev (commit_writes st bs v)) s t ->
     (forall x, ~ log_area st x -> v' x = v x) ->
     slog t = slog s <| lh ::= fun h : logheader => h <| ln := 0 |> |> -> Q tt t) ->
  wp (commit (S fuel)) e s Q.
Proof.
  intros st R L Hne Hroom Hp HQ. assert (Hpr := log_private_homes _ _ _ L Hp).
  assert (Hall : forall b, b ∈ others -> b ∈ bs ++ others) by set_solver.
  unfold commit. apply wp_bind, wp_read. rewrite (lo_n _ _ L).
  destruct (Z.ltb_spec 0 (Z.of_nat (length bs))) as [_|Hx]; [|destruct bs; [done|cbn in Hx; lia]].
  apply wp_bind. eapply wp_write_log; [done|done|set_solver|done|done|]. fold st. intros t1 R1 S1.
  assert (E1 := bs_log _ _ _ _ S1). assert (Est : lstart (slog t1) = st) by by rewrite E1.
  apply wp_bind. eapply (wp_write_head t1); [done|by rewrite E1|done|by rewrite Est|].
  rewrite Est. intros t2 R2 S2.
  assert (Hv : play (rev (log_writes st bs v)) v st = v st).
  { apply play_other. rewrite elem_of_rev_fst. intros Ha. apply log_writes_area in Ha as [_ Hn]; [done|].
    apply (lo_home _ _ L). }
  rewrite Hv in R2, S2. fold (committed st bs v) in R2.
  assert (E2 := bs_log _ _ _ _ S2). apply wp_bind.
  assert (Est2 : lstart (slog t2) = st) by by rewrite E2.
  eapply (wp_install_trans false t2 _ others bs); [done|by rewrite E2, E1|by rewrite Est2|done|].
  rewrite Est2, (committed_home_writes _ _ _ _ L) by done. intros t3 R3 S3.
  assert (E3 := bs_log _ _ _ _ S3). apply wp_bind, wp_modify.
  set (f := fun l : log => l <| lh ::= fun h : logheader => h <| ln := 0 |> |>).
  assert (R4 := fs_rep_log p pr _ _ _ _ f R3). assert (S4 := fs_step_log others t3 f).
  assert (E4 : slog (t3 <| slog ::= f |>) = f (slog s)) by (cbn; by rewrite E3, E2, E1).
  assert (Est4 : lstart (slog (t3 <| slog ::= f |>)) = st) by by rewrite E4.
  eapply (wp_write_head _ _ others []); [done|rewrite E4; by eapply log_ok_cleared| |by rewrite Est4|].
  { rewrite length_app in Hroom. lia. }
  rewrite Est4. intros t5 R5 S5.
  assert (Ehd : play (rev ((fun b => (b, v b)) <$> bs)) (committed st bs v) st = header bs (v st)).
  { rewrite play_other; [unfold committed; by rewrite upd_same|]. rewrite elem_of_rev_fst.
    intros (x & Ex & (b & -> & Hb)%list_elem_of_fmap)%list_elem_of_fmap. cbn [fst] in Ex.
    apply list_elem_of_lookup in Hb as [i Hi]. destruct (log_ok_home _ _ _ _ L Hi) as (_ & Hn & _).
    fold st in Hn. apply Hn. rewrite <- Ex. unfold log_area, LOGSIZE, MAXOPBLOCKS. lia. }
  rewrite Ehd in R5, S5.
  apply (HQ t5 _ R5); [| |by rewrite (bs_log _ _ _ _ S5)].
  2: { intros x Hx. rewrite upd_other, play_homes.
       2: { intros ->. apply Hx. unfold log_area, LOGSIZE, MAXOPBLOCKS. lia. }
       case_decide; [done|]. unfold committed. rewrite upd_other.
       2: { intros ->. apply Hx. unfold log_area, LOGSIZE, MAXOPBLOCKS. lia. }
       apply play_other. rewrite elem_of_rev_fst. by apply (log_writes_not_home st bs v x (slog s)). }
  join others S1 S2. join others S1 S3. join others S1 S4. join others S1 S5.
  unfold commit_writes. rewrite rev_app_distr. cbn [rev]. rewrite rev_app_distr. cbn [rev app].
  rewrite <- !app_assoc. exact S1.
Qed.

(** *** Crashes

    A block is written as a whole.  The disk after a crash is the disk before
    with some of the writes, in their order, done. *)

Lemma header_length bs d : length (header bs d) = length d.
Proof. unfold header. by rewrite put_blocks_length, put_word_length. Qed.

Lemma log_writes_length st bs v : length (log_writes st bs v) = length bs.
Proof. apply length_imap. Qed.

Section crash.
Context (l : log) (bs : list Z) (v d0 : Z -> list Z).
Hypothesis L : log_ok l bs.
Hypothesis Hsize : length (v (lstart l)) = 1024%nat.
Hypothesis Hold : hd_blocks (d0 (lstart l)) = [].
Hypothesis Hclean : forall x, x ∉ bs -> v x = d0 x.
Notation st := (lstart l).

Lemma header_reads_back : hd_blocks (header bs (v st)) = bs.
Proof.
  destruct (lo_home _ _ L) as (_ & HF & Hl). apply header_roundtrip; [done|exact Hl|].
  eapply Forall_weaken; [exact HF|]. intros b [Hb _]. unfold in_i32. lia.
Qed.

(** Before the header is written recovery gives the old contents back. *)
Lemma crash_before k x :
  (k <= length bs)%nat -> ~ log_area st x ->
  recovered st (play (rev (take k (commit_writes st bs v))) d0) x = d0 x.
Proof.
  intros Hk Hx. unfold commit_writes. rewrite take_app_le by by rewrite log_writes_length.
  assert (Hin : forall y, y ∈ (take k (log_writes st bs v)).*1 -> log_area st y /\ y <> st).
  { intros y (w & -> & Hw)%list_elem_of_fmap. apply (log_writes_area st bs v); [apply (lo_home _ _ L)|].
    apply list_elem_of_fmap. exists w. split; [done|].
    apply list_elem_of_lookup in Hw as [i Hi]. apply lookup_take_Some in Hi as [Hi _].
    by eapply list_elem_of_lookup_2. }
  assert (Hst : play (rev (take k (log_writes st bs v))) d0 st = d0 st).
  { apply play_other. rewrite elem_of_rev_fst. intros [_ ?]%Hin. done. }
  rewrite recovered_other; [|by rewrite Hst, Hold; apply not_elem_of_nil|done].
  apply play_other. rewrite elem_of_rev_fst. by intros [? _]%Hin.
Qed.

(** All the writes together put the new contents in place. *)
Lemma commit_plays x : ~ log_area st x -> play (rev (commit_writes st bs v)) d0 x = v x.
Proof using L Hclean.
  clear Hsize. intros Hx. assert (Hne : x <> st) by (intros ->; apply Hx; unfold log_area, LOGSIZE, MAXOPBLOCKS; lia).
  unfold commit_writes. rewrite rev_app_distr. cbn [rev]. rewrite rev_app_distr. cbn [rev app].
  rewrite <- app_assoc. cbn [app].
  change (play ((st, ?d) :: ?W) d0 x) with (upd (play W d0) st d x).
  rewrite upd_other, play_app, play_homes by done. case_decide as Hin; [done|].
  change (upd (play (rev (log_writes st bs v)) d0) st (header bs (v st)) x = v x).
  rewrite upd_other by done. rewrite play_other; [symmetry; by apply Hclean|].
  rewrite elem_of_rev_fst. by apply (log_writes_not_home st bs v x l).
Qed.

Lemma commit_header : play (rev (commit_writes st bs v)) d0 st = header [] (header bs (v st)).
Proof. unfold commit_writes. rewrite rev_app_distr. cbn [rev]. rewrite rev_app_distr. apply upd_same. Qed.

(** From then on it gives the new contents. *)
Lemma crash_after k x :
  (length bs < k)%nat -> ~ log_area st x ->
  recovered st (play (rev (take k (commit_writes st bs v))) d0) x = v x.
Proof.
  intros Hk Hx. assert (Hhome := log_writes_not_home).
  set (d1 := upd (play (rev (log_writes st bs v)) d0) st (header bs (v st))).
  assert (Hst : log_area st st) by (unfold log_area, LOGSIZE, MAXOPBLOCKS; lia).
  assert (Hbs : forall b, b ∈ bs -> ~ log_area st b).
  { intros b [i Hi]%list_elem_of_lookup. apply (log_ok_home _ _ _ _ L Hi). }
  set (homes := (fun b => (b, v b)) <$> bs).
  assert (Hd1 : forall y, ~ log_area st y -> d1 y = d0 y).
  { intros y Hy. unfold d1. rewrite upd_other by by intros ->. apply play_other.
    rewrite elem_of_rev_fst. by apply (log_writes_not_home st bs v y l). }
  destruct (Nat.le_gt_cases k (S (length bs + length bs))) as [Hle|Hgt].
  - (* the header lists the blocks *)
    set (j := (k - S (length bs))%nat).
    assert (ET : take k (commit_writes st bs v) = log_writes st bs v ++ (st, header bs (v st)) :: take j homes).
    { unfold commit_writes. rewrite take_app_ge by (rewrite log_writes_length; lia).
      rewrite log_writes_length. replace (k - length bs)%nat with (S j) by lia. cbn [take].
      rewrite take_app_le; [done|]. unfold homes. rewrite length_fmap. lia. }
    rewrite ET, rev_app_distr. cbn [rev]. rewrite <- app_assoc. cbn [app].
    set (d := play _ d0).
    assert (Ed : forall y, d y = if decide (y ∈ take j bs) then v y else d1 y).
    { intros y. unfold d. rewrite play_app. unfold homes. rewrite <- fmap_take. apply play_homes. }
    assert (Htake : forall y, y ∈ take j bs -> y ∈ bs).
    { intros y [i Hi]%list_elem_of_lookup. apply lookup_take_Some in Hi as [Hi _].
      by eapply list_elem_of_lookup_2. }
    assert (Edst : d st = header bs (v st)).
    { rewrite Ed, decide_False by (intros Hin; by apply (Hbs st); auto). apply upd_same. }
    destruct (decide (x ∈ bs)) as [Hin|Hnin].
    + apply list_elem_of_lookup in Hin as [i Hi].
      rewrite (recovered_home st d i); [|by rewrite Edst, header_reads_back; apply L|by rewrite Edst, header_reads_back].
      destruct (log_ok_home _ _ _ _ L Hi) as (_ & _ & Hlt). destruct (log_slot_area st i Hlt) as [Ha Hn].
      change (st + Z.of_nat i + 1) with (log_slot st i).
      rewrite Ed, decide_False by (intros Hin; by apply (Hbs (log_slot st i)); auto).
      unfold d1. rewrite upd_other by done. by apply log_writes_lookup.
    + rewrite recovered_other; [|by rewrite Edst, header_reads_back|done].
      rewrite Ed, decide_False by auto. rewrite Hd1 by done. symmetry. by apply Hclean.
  - (* the transaction is erased *)
    assert (ET : take k (commit_writes st bs v) = commit_writes st bs v).
    { apply take_ge. unfold commit_writes. rewrite length_app, log_writes_length. cbn [length].
      rewrite length_app, length_fmap. cbn [length]. lia. }
    rewrite ET, recovered_other; [by apply commit_plays| |done].
    rewrite commit_header. unfold header at 1. cbn [put_blocks length Z.of_nat].
    rewrite header_cleared by (by rewrite header_length). apply not_elem_of_nil.
Qed.
End crash.

(** The same for any log, with the final contents of the disk. *)
Lemma wp_commit_any s v others bs (Q : unit -> mach -> Prop) :
  let st := lstart (slog s) in
  fs_rep s v (bs ++ others) [] -> log_ok (slog s) bs -> (length (bs ++ others) < NBUF)%nat ->
  log_private st others -> (forall x, x ∉ bs -> v x = disk (bc s) x) ->
  (forall t v', fs_rep t v' others [] -> log_ok (slog t) [] ->
     slog t = slog s <| lh ::= fun h : logheader => h <| ln := 0 |> |> ->
     (forall x, ~ log_area st x -> v' x = v x /\ disk (bc t) x = v x) -> Q tt t) ->
  wp (commit (S fuel)) e s Q.
Proof.
  intros st R L Hroom Hp Hclean HQ. destruct (decide (bs = [])) as [->|Hne].
  - assert (Hn := lo_n _ _ L). cbn in Hn. unfold commit. apply wp_bind, wp_read. rewrite Hn.
    apply wp_ret, (HQ s v R L).
    + destruct (slog s) as [? ? ? ? ? []]. cbn in *. by subst.
    + intros x _. split; [done|]. symmetry. apply Hclean, not_elem_of_nil.
  - eapply wp_commit; [done..|]. intros t v' R' S' Hv E'. apply (HQ t v' R'); [|done|].
    + rewrite E'. by eapply log_ok_cleared.
    + intros x Hx. split; [by apply Hv|]. rewrite (bs_disk _ _ _ _ S').
      by apply (commit_plays (slog s) bs v (disk (bc s)) L Hclean).
Qed.

(** C10. Commits are atomic.  Let the log hold the blocks [bs], the home
    copies of which are still the old ones, and let every modified block be
    logged.  Then [commit] returns; the disk holds the new contents
    everywhere outside the log, the log is empty in memory and on the disk,
    and the pins of the transaction are given up.  If the machine stops after
    any number [k] of the block writes that [commit] makes, recovery of what
    is then on the disk gives the old contents of every block, if the header
    had not been written, and the new contents of every block, if it had. *)
Theorem commit_atomic (s : mach) (v : Z -> list Z) (others bs : list Z) :
  let st := lstart (slog s) in
  fs_rep s v (bs ++ others) [] -> log_ok (slog s) bs -> (length (bs ++ others) < NBUF)%nat ->
  log_private st others -> hd_blocks (disk (bc s) st) = [] -> (forall x, x ∉ bs -> v x = disk (bc s) x) ->
  exists (t : mach) (cw : list (Z * list Z)), commit (S fuel) e s = Ret tt e t /\ writes (bc t) = rev cw ++ writes (bc s) /\
    fs_rep t (disk (bc t)) others [] /\ log_ok (slog t) [] /\ hd_blocks (disk (bc t) st) = [] /\
    (forall x, ~ log_area st x -> disk (bc t) x = v x) /\
    forall k x, ~ log_area st x ->
      recovered st (play (rev (take k cw)) (disk (bc s))) x =
      if decide (k <= length bs)%nat then disk (bc s) x else v x.
Proof.
  intros st R L Hroom Hp Hold Hclean.
  destruct (decide (bs = [])) as [->|Hne].
  { exists s, []. split.
    { unfold commit. rewrite bindE. cbn [read]. by rewrite (lo_n _ _ L). }
    assert (Hall : forall x, v x = disk (bc s) x) by (intros x; apply Hclean, not_elem_of_nil).
    split; [done|]. split; [by eapply fs_rep_ext|]. split; [done|]. split; [done|]. split; [done|].
    intros k x Hx. rewrite take_nil. cbn [rev play foldr].
    rewrite recovered_other by (rewrite ?Hold; auto using not_elem_of_nil). by case_decide. }
  assert (Hw : wp (commit (S fuel)) e s (fun _ t => exists v', fs_rep t v' others [] /\
    fs_step others (rev (commit_writes st bs v)) s t /\ (forall x, ~ log_area st x -> v' x = v x) /\
    slog t = slog s <| lh ::= fun h : logheader => h <| ln := 0 |> |>)).
  { eapply wp_commit; [done..|]. intros t v' R' S' Hv' E'. by exists v'. }
  destruct Hw as ([] & t & E & v' & R' & S' & Hv' & E').
  assert (Hsize : length (v st) = 1024%nat) by by eapply fs_rep_size.
  assert (Hd : forall x, disk (bc t) x = play (rev (commit_writes st bs v)) (disk (bc s)) x) by apply S'.
  assert (Hst : disk (bc t) st = header [] (header bs (v st))).
  { rewrite Hd. apply commit_header. }
  assert (Hhd : hd_blocks (disk (bc t) st) = []).
  { rewrite Hst. apply (header_cleared (header bs (v st))). by rewrite header_length. }
  assert (Hafter : forall x, ~ log_area st x -> disk (bc t) x = v x).
  { intros x Hx. rewrite Hd. by apply (commit_plays (slog s) bs v (disk (bc s)) L Hclean). }
  exists t, (commit_writes st bs v). split; [done|]. split; [apply S'|]. split.
  { eapply fs_rep_ext; [done| |done..]. intros x. symmetry. destruct (decide (x ∈ others)) as [Hx|Hx].
    - assert (Hn : ~ log_area st x) by (intros Ha; by apply (Hp x)). by rewrite Hv', Hafter.
    - by eapply fs_rep_clean. }
  split; [rewrite E'; by eapply log_ok_cleared|]. split; [done|]. split; [done|].
  intros k x Hx. case_decide as Hk.
  - by apply (crash_before (slog s) bs v).
  - apply (crash_after (slog s) bs v (disk (bc s)) L Hsize Hclean k x); [lia|done].
Qed.
End calls.
