(* ===== verification/LogCalls.v ===== *)
(** * Recovery and transactions

    Correctness of the other entry points of [kernel/log.c]: recovery after a
    crash, [log_write], [begin_op] and [end_op]. *)
From stdpp Require Import base tactics list numbers gmap strings.
From S2P Require Import Prelude Machine Wp Spinlock Sched Sleeplock Blocks Bio Log.

Open Scope Z_scope.

(** ** Recovery *)

(** The in-memory log before the first transaction, and a header block that
    recovery can use. *)
Definition log_fresh (l : log) : Prop :=
  ldev l = ROOTDEV /\ 0 <= lstart l /\ lstart l + LOGSIZE < 2 ^ 31 /\
  length (block (lh l)) = Z.to_nat LOGSIZE.

Definition header_ok (st : Z) (d : list Z) : Prop := 0 <= hd_n d /\ home_blocks st (hd_blocks d).

Lemma hd_blocks_length d : length (hd_blocks d) = Z.to_nat (hd_n d).
Proof. unfold hd_blocks. by rewrite length_fmap, length_seq. Qed.

Lemma hd_blocks_lookup d i : (i < Z.to_nat (hd_n d))%nat -> hd_blocks d !! i = Some (hd_block d i).
Proof. intros Hi. unfold hd_blocks. by rewrite list_lookup_fmap, lookup_seq_lt. Qed.

Section recovery.
Context {DK : Disk} {DL : @DiskLaw DK} (fuel : nat) (p : nat) (pr : proc) (e : env).
Notation fs_rep := (fs_rep p pr).

Lemma log_area_start st : log_area st st.
Proof. unfold log_area, LOGSIZE, MAXOPBLOCKS. lia. Qed.

Lemma set_log_block_Ret i b s :
  (i < Z.to_nat LOGSIZE)%nat ->
  set_log_block i b e s = Ret tt e (s <| slog ::= fun l : log => l <| lh ::= fun h : logheader => h <| block ::= <[i := b]> |> |> |>).
Proof.
  intros Hi. unfold set_log_block. by rewrite (proj2 (Nat.ltb_lt _ _) Hi).
Qed.

Lemma take_step {A} (i : nat) (bs r : list A) b :
  bs !! i = Some b -> length r = length bs \/ (i < length r)%nat ->
  <[i := b]> (take i bs ++ drop i r) = take (S i) bs ++ drop (S i) r.
Proof.
  intros Hi Hr. assert (Hl := lookup_lt_Some _ _ _ Hi).
  destruct (lookup_lt_is_Some_2 r i) as [x Hx]; [lia|].
  rewrite (drop_S _ _ _ Hx), (take_S_r _ _ _ Hi), <- app_assoc. cbn [app].
  rewrite insert_app_r_alt by (rewrite length_take; lia).
  rewrite length_take, Nat.min_l, Nat.sub_diag by lia. done.
Qed.

(** [read_head] brings the header of the disk into memory. *)
Lemma wp_read_head s v (Q : unit -> mach -> Prop) :
  let st := lstart (slog s) in
  fs_rep s v [] [] -> log_fresh (slog s) -> header_ok st (v st) ->
  (forall t, fs_rep t v [] [] -> fs_step [] [] s t -> log_ok (slog t) (hd_blocks (v st)) ->
     lstart (slog t) = st -> Q tt t) ->
  wp (read_head (S fuel)) e s Q.
Proof.
  intros st R (Hdev & Hs0 & Hs1 & Hlen) [Hn Hh] HQ. fold st in Hs0, Hs1.
  assert (HN : (0 < NBUF < 100)%nat) by (unfold NBUF; lia).
  set (bs := hd_blocks (v st)) in *.
  assert (Hbs : length bs = Z.to_nat (hd_n (v st))) by apply hd_blocks_length.
  unfold read_head. apply wp_bind, wp_read, wp_bind. rewrite Hdev. fold st.
  rewrite u32_id by (unfold LOGSIZE, MAXOPBLOCKS in *; lia).
  eapply wp_bread; [done|apply not_elem_of_nil|right; cbn; lia|cbn; lia|]. intros n t1 R1 H1 S1.
  apply wp_bind. eapply wp_get_buf; [done|done|]. intros b Hb _. rewrite Hb.
  apply wp_bind, wp_modify.
  set (f := fun l : log => l <| lh ::= fun h : logheader => h <| ln := hd_n (v st) |> |>).
  set (t2 := t1 <| slog ::= f |>).
  set (blk := block (lh (slog s))) in *.
  set (L := fun i => slog s <| lh := mkLogheader (hd_n (v st)) (take i bs ++ drop i blk) |>).
  assert (Hle : (length bs <= Z.to_nat LOGSIZE)%nat) by apply Hh.
  apply wp_bind. unfold each_logged. apply wp_bind, wp_read.
  change (Z.to_nat (ln (lh (slog t2)))) with (Z.to_nat (hd_n (v st))). rewrite <- Hbs.
  apply (wp_for_each _ (fun i t => t = t1 <| slog := L i |>)).
  - unfold t2. assert (E : f (slog t1) = L 0%nat).
    { rewrite (bs_log _ _ _ _ S1). unfold f, L. rewrite take_0, drop_0. unfold blk.
      by destruct (slog s) as [? ? ? ? ? []]. }
    rewrite <- E. done.
  - intros i x t Hi ->. apply lookup_seq in Hi as [-> Hi]. cbn [Nat.add].
    destruct (lookup_lt_is_Some_2 bs i Hi) as [c Hc].
    assert (Ec : hd_block (v st) i = c).
    { unfold bs in Hc. rewrite hd_blocks_lookup in Hc by lia. by injection Hc. }
    eapply wp_call; [apply set_log_block_Ret; lia|]. rewrite Ec.
    unfold L. rewrite <- (take_step i bs blk c) by (done || (right; lia)). done.
  - intros t ->. rewrite length_seq.
    eapply (wp_brelse p pr e n st _ _ _ _ [] []); [|done|done|done|set_solver| |set_solver|].
    + exact (fs_rep_log p pr _ _ _ _ (fun _ => L (length bs)) R1).
    + right. change (v st = disk (bc t1) st). rewrite (bs_disk _ _ _ _ S1).
      cbn [play foldr]. eapply fs_rep_clean; [done|apply not_elem_of_nil].
    + intros t3 R3 S3. assert (E3 := bs_log _ _ _ _ S3). cbn in E3.
      apply HQ; [done| |rewrite E3|by rewrite E3].
      * assert (S2 := fs_step_log [] t1 (fun _ => L (length bs))). join ([] : list Z) S1 S2.
        by join ([] : list Z) S1 S3.
      * split; cbn; try done.
        -- rewrite length_app, length_take, length_drop, Hlen. lia.
        -- rewrite Hbs. lia.
        -- unfold logged. cbn. rewrite <- Hbs, (firstn_all bs), take_app_le by lia. apply firstn_all.
Qed.

(** What recovery writes, in the order of the writes. *)
Definition recovery_writes (st : Z) (d : Z -> list Z) : list (Z * list Z) :=
  home_writes st (hd_blocks (d st)) d ++ [(st, header [] (d st))].

Lemma wp_recover_from_log s v (Q : unit -> mach -> Prop) :
  let st := lstart (slog s) in
  fs_rep s v [] [] -> log_fresh (slog s) -> header_ok st (v st) ->
  (forall t v', fs_rep t v' [] [] -> fs_step [] (rev (recovery_writes st v)) s t ->
     log_ok (slog t) [] -> Q tt t) ->
  wp (recover_from_log (S fuel)) e s Q.
Proof.
  intros st R L Hh HQ. set (bs := hd_blocks (v st)).
  assert (Hemp : forall x : Z, log_private x []) by (intros x b _; apply not_elem_of_nil).
  assert (HN : (1 < NBUF)%nat) by (unfold NBUF; lia).
  unfold recover_from_log. apply wp_bind. eapply wp_read_head; [done..|].
  intros t1 R1 S1 L1 E1. fold st in E1. fold st bs in L1. apply wp_bind.
  eapply (wp_install_trans fuel p pr e true t1 v [] bs); [done|done|apply Hemp|split; [set_solver|done]|].
  rewrite E1. intros t2 R2 S2. assert (E2 := bs_log _ _ _ _ S2). apply wp_bind, wp_modify.
  set (f := fun l : log => l <| lh ::= fun h : logheader => h <| ln := 0 |> |>).
  assert (R3 := fs_rep_log p pr _ _ _ _ f R2). assert (S3 := fs_step_log [] t2 f).
  assert (L3 : log_ok (slog (t2 <| slog ::= f |>)) []).
  { cbn. rewrite E2. by eapply log_ok_cleared. }
  assert (E3 : lstart (slog (t2 <| slog ::= f |>)) = st) by (cbn; by rewrite E2).
  eapply (wp_write_head _ _ _ _ _ _ [] []); [done|done|cbn; lia|apply Hemp|].
  rewrite E3. intros t4 R4 S4.
  assert (Ehd : play (rev (home_writes st bs v)) v st = v st).
  { apply play_other. rewrite elem_of_rev_fst, home_writes_fst. intros [i Hi]%list_elem_of_lookup.
    destruct (log_ok_home _ _ _ _ L1 Hi) as (_ & Hn & _). rewrite E1 in Hn. apply Hn, log_area_start. }
  rewrite Ehd in R4, S4. apply (HQ t4 _ R4); [|by rewrite (bs_log _ _ _ _ S4)].
  join ([] : list Z) S1 S2. join ([] : list Z) S1 S3. join ([] : list Z) S1 S4.
  unfold recovery_writes. fold bs. rewrite rev_app_distr. cbn [rev app].
  rewrite app_nil_r in S1. exact S1.
Qed.
End recovery.

Section recovery_crash.
Context (st : Z) (d : Z -> list Z).
Notation bs := (hd_blocks (d st)).
Hypothesis Hh : home_blocks st bs.
Hypothesis Hsize : length (d st) = 1024%nat.

Lemma homes_outside i b : bs !! i = Some b -> ~ log_area st b /\ (i < Z.to_nat LOGSIZE)%nat.
Proof.
  intros Hi. destruct Hh as (_ & HF & Hl). split; [apply (Forall_lookup_1 _ _ _ _ HF Hi)|].
  apply lookup_lt_Some in Hi. lia.
Qed.

(** The writes of recovery give the disk that recovery is specified to give. *)
Lemma recovery_plays x : play (rev (recovery_writes st d)) d x = recovered st d x.
Proof.
  unfold recovery_writes. rewrite rev_app_distr. cbn [rev app]. unfold recovered.
  unfold play. cbn [foldr fst snd]. unfold upd. destruct (x =? st); [done|].
  change (foldr _ d (rev (home_writes st bs d)) x) with (play (rev (home_writes st bs d)) d x).
  destruct (decide (x ∈ bs)) as [[i Hi]%list_elem_of_lookup|Hx].
  - destruct Hh as (Hnd & HF & Hl). rewrite (home_writes_lookup _ _ _ _ i) by done.
    rewrite (install_home st 0 bs d i x); [done|done| |done|done].
    eapply Forall_weaken; [done|]. by intros y [_ ?].
  - rewrite install_other by done. apply play_other. by rewrite elem_of_rev_fst, home_writes_fst.
Qed.

Lemma recovery_again k x :
  ~ log_area st x -> recovered st (play (rev (take k (recovery_writes st d))) d) x = recovered st d x.
Proof.
  intros Hx. assert (Hlen : length (home_writes st bs d) = length bs) by apply length_imap.
  destruct (Nat.le_gt_cases k (length bs)) as [Hk|Hk].
  - unfold recovery_writes. rewrite take_app_le by lia. set (dk := play _ d).
    assert (Hk' : forall y, y ∉ bs -> dk y = d y).
    { intros y Hy. apply play_other. rewrite elem_of_rev_fst. intros Hin. apply Hy.
      apply list_elem_of_fmap in Hin as (w & -> & [i Hi]%list_elem_of_lookup).
      apply lookup_take_Some in Hi as [Hi _]. rewrite <- (home_writes_fst st bs d).
      apply list_elem_of_fmap. exists w. split; [done|]. by eapply list_elem_of_lookup_2. }
    assert (Hin : forall y, log_area st y -> y ∉ bs).
    { intros y Hy [i Hi]%list_elem_of_lookup. by apply homes_outside in Hi as [? _]. }
    assert (Est : dk st = d st) by (apply Hk', Hin, log_area_start).
    destruct (decide (x ∈ bs)) as [[i Hi]%list_elem_of_lookup|Hnin].
    + rewrite (recovered_home st dk i), (recovered_home st d i) by (rewrite ?Est; done).
      apply Hk', Hin. destruct (homes_outside i x Hi) as [_ Hlt]. apply (log_slot_area st i Hlt).
    + rewrite !recovered_other by (rewrite ?Est; done). by apply Hk'.
  - rewrite take_ge by (unfold recovery_writes; rewrite length_app, Hlen; cbn; lia).
    rewrite <- recovery_plays. set (dk := play _ d). apply recovered_other; [|done].
    assert (E : dk st = header [] (d st)).
    { unfold dk, recovery_writes. rewrite rev_app_distr. apply upd_same. }
    rewrite E. unfold header. cbn [put_blocks length Z.of_nat]. rewrite header_cleared by done.
    apply not_elem_of_nil.
Qed.
End recovery_crash.

Section log_calls.
Context {DK : Disk} {DL : @DiskLaw DK} (fuel : nat) (p : nat) (pr : proc) (e : env).
Notation fs_rep := (fs_rep p pr).

(** C11. Recovery after a crash.  With nothing cached and a well-formed
    header on the disk, [recover_from_log] returns, and the disk it leaves is
    the specified one: the blocks that the header lists have the contents the
    log has for them, every other block is untouched, and the header is
    cleared.  If the machine stops again after any number of the writes of
    recovery, recovering what is then on the disk gives the same contents. *)
Theorem recovery_correct (s : mach) (v : Z -> list Z) :
  let st := lstart (slog s) in let d := disk (bc s) in
  fs_rep s v [] [] -> log_fresh (slog s) -> header_ok st (d st) ->
  exists (t : mach) (rw : list (Z * list Z)), recover_from_log (S fuel) e s = Ret tt e t /\
    writes (bc t) = rev rw ++ writes (bc s) /\ (forall x, disk (bc t) x = recovered st d x) /\
    fs_rep t (disk (bc t)) [] [] /\ log_ok (slog t) [] /\ hd_blocks (disk (bc t) st) = [] /\
    forall k x, ~ log_area st x -> recovered st (play (rev (take k rw)) d) x = recovered st d x.
Proof.
  intros st d R L Hh.
  assert (Hv : forall x, v x = d x) by (intros x; eapply fs_rep_clean; [done|apply not_elem_of_nil]).
  assert (Hsize : length (d st) = 1024%nat) by (rewrite <- Hv; by eapply fs_rep_size).
  assert (R' : fs_rep s d [] []) by by eapply fs_rep_ext.
  assert (Hw : wp (recover_from_log (S fuel)) e s (fun _ t => exists v', fs_rep t v' [] [] /\
    fs_step [] (rev (recovery_writes st d)) s t /\ log_ok (slog t) [])).
  { eapply wp_recover_from_log; [done..|]. intros t v' H1 H2 H3. by exists v'. }
  destruct Hw as ([] & t & E & v' & R1 & S1 & L1). exists t, (recovery_writes st d).
  assert (Hd : forall x, disk (bc t) x = recovered st d x).
  { intros x. rewrite (bs_disk _ _ _ _ S1). by apply recovery_plays, Hh. }
  split; [done|]. split; [apply S1|]. split; [done|]. split; [|split; [done|split]].
  - eapply fs_rep_ext; [done| |done..]. intros x. symmetry. eapply fs_rep_clean; [done|apply not_elem_of_nil].
  - rewrite Hd. unfold recovered. rewrite upd_same. by apply header_cleared.
  - intros k x Hx. by apply recovery_again; [apply Hh|..].
Qed.

(** ** [log_write] *)

(** The log with block [b] recorded. *)
Definition log_add (b : Z) (l : log) : log :=
  l <| lh ::= fun h : logheader => h <| block ::= <[Z.to_nat (ln h) := b]> |> <| ln ::= Z.succ |> |>.

Lemma log_index_absorbed l bs b : log_ok l bs -> b ∈ bs ->
  (log_index b (lh l) < length bs)%nat /\ bs !! log_index b (lh l) = Some b.
Proof.
  intros L Hb. unfold log_index. assert (Hl := lo_bs _ _ L). unfold logged in Hl. rewrite Hl.
  destruct (list_find (fun x => x = b) bs) as [[i x]|] eqn:E.
  - apply list_find_Some in E as (Hi & -> & _). split; [by eapply lookup_lt_Some|done].
  - exfalso. apply list_find_None in E. rewrite list.Forall_forall in E. by apply (E b).
Qed.

Lemma log_index_new l bs b : log_ok l bs -> b ∉ bs -> log_index b (lh l) = length bs.
Proof.
  intros L Hb. unfold log_index. assert (Hl := lo_bs _ _ L). unfold logged in Hl. rewrite Hl.
  destruct (list_find (fun x => x = b) bs) as [[i x]|] eqn:E.
  - apply list_find_Some in E as (Hi & -> & _). exfalso. apply Hb. by eapply list_elem_of_lookup_2.
  - rewrite (lo_n _ _ L). lia.
Qed.

Lemma log_add_ok l bs b :
  log_ok l bs -> b ∉ bs -> 0 <= b < 2 ^ 31 -> ~ log_area (lstart l) b -> (length bs < Z.to_nat LOGSIZE)%nat ->
  log_ok (log_add b l) (bs ++ [b]).
Proof.
  intros [Hd Hs Hlen Hn Hl (Hnd & HF & Hle)] Hb Hr Ha Hlt. unfold logged in Hl. rewrite Hn, Nat2Z.id in Hl.
  split; try done.
  - cbn. by rewrite length_insert.
  - cbn. rewrite Hn, length_app. cbn. lia.
  - unfold logged. cbn. rewrite Hn, Nat2Z.id. replace (Z.to_nat (Z.succ (Z.of_nat (length bs)))) with (S (length bs)) by lia.
    rewrite (take_S_r _ _ b); [by rewrite take_insert_ge, Hl by lia|].
    apply list_lookup_insert_eq. by rewrite Hlen.
  - split; [|split].
    + apply list.NoDup_app. split; [done|]. split; [|by apply NoDup_singleton].
      intros x Hx ->%list_elem_of_singleton. done.
    + apply Forall_app. split; [done|]. by apply Forall_singleton.
    + rewrite length_app. cbn. lia.
Qed.

Lemma bpin_enter n b s :
  hart_ok s -> free_lock s Lbcache -> bufs (bc s) !! n = Some b ->
  bpin n e (enter Llog s) = Ret tt e (enter Llog (with_bc (sleeplocks s)
    (set_buf_of n (fun b => b <| refcnt := u32 (refcnt b + 1) |>) (bc s)) s)).
Proof.
  intros Hok Hf Hb. unfold bpin. set (g := fun b : buf => b <| refcnt := u32 (refcnt b + 1) |>).
  rewrite bindE, acquire_Ret by (by apply hart_ok_enter || by apply free_lock_enter).
  rewrite bindE, (set_buf_Ret n g e _ b) by done.
  set (s1 := with_bc (sleeplocks s) (set_buf_of n g (bc s)) s).
  rewrite (release_from Lbcache e _ (enter Llog s1)); [by rewrite left_off_enter|done|by apply hart_ok_enter|].
  by apply free_lock_enter.
Qed.

(** A step from [s] that ends outside the critical section it enters. *)
Lemma fs_step_critical keep s c lg :
  (forall n b, b ∈ keep -> buffer_of (bc s) n b -> buffer_of c n b) ->
  disk c = disk (bc s) -> writes c = writes (bc s) ->
  fs_step keep [] s (left_off (s <| bc := c |> <| slog := lg |>)).
Proof.
  intros Hk Hd Hw. split; try done.
  - split; [by destruct s|by right].
  - intros b. cbn. by rewrite Hd.
Qed.

Lemma enter_log_id f s : f (slog s) = slog s -> enter Llog s <| slog ::= f |> = enter Llog s.
Proof. intros H. destruct s. unfold enter, on_cpu. cbn in *. by rewrite H. Qed.

(** The log cannot take another block. *)
Definition log_full (l : log) : Prop := LOGSIZE <= ln (lh l) \/ lsize l - 1 <= ln (lh l).

Lemma log_full_spec l : reflect (log_full l) ((LOGSIZE <=? ln (lh l)) || (lsize l - 1 <=? ln (lh l))).
Proof. unfold log_full. apply iff_reflect. rewrite orb_true_iff, !Z.leb_le. done. Qed.

Lemma log_write_runs (s : mach) (v : Z -> list Z) (h k bs : list Z) (n : nat) (b : Z) :
  fs_rep s v h k -> log_ok (slog s) bs -> buffer_of (bc s) n b ->
  0 <= b < 2 ^ 31 -> ~ log_area (lstart (slog s)) b -> Z.of_nat (length h) + 1 < 2 ^ 31 ->
  ~ log_full (slog s) -> 1 <= outstanding (slog s) ->
  exists t, log_write n e s = Ret tt e t /\ fs_step h [] s t /\
    (b ∈ bs -> slog t = slog s /\ fs_rep t v h k) /\
    (b ∉ bs -> slog t = log_add b (slog s) /\ log_ok (slog t) (bs ++ [b]) /\ fs_rep t v (b :: h) k).
Proof.
  intros R L Hn Hb Ha Hbd Hno Hge. assert (Hok := fs_rep_hart _ _ _ _ _ _ R).
  assert (R' := R). destruct R' as [Hf Hc].
  unfold log_write. rewrite bindE, acquire_Ret by (done || apply Hf). rewrite bindE. cbn [read].
  change (slog (enter Llog s)) with (slog s).
  destruct (log_full_spec (slog s)); [done|]. rewrite (proj2 (Z.ltb_ge _ _)) by done.
  assert (Hn' := Hn). destruct Hn as [bf Hbf]. assert (Hbf' := Hbf).
  destruct Hbf' as (E & E1 & E2).
  rewrite bindE, (get_buf_Ret n e (enter Llog s) bf) by done. rewrite E2, i32_id by (unfold in_i32; lia).
  assert (Hlen := lo_n _ _ L). destruct (decide (b ∈ bs)) as [Hin|Hnin].
  - (* absorbed *)
    destruct (log_index_absorbed _ _ _ L Hin) as [Hi1 Hi2]. set (i := log_index b (lh (slog s))) in *.
    destruct (log_ok_home _ _ _ _ L Hi2) as (_ & _ & Hi3).
    rewrite bindE, set_log_block_Ret by done. rewrite (proj2 (Z.eqb_neq (Z.of_nat i) _)) by lia.
    rewrite bindE. cbn [when mret M_ret].
    assert (Es : enter Llog s <| slog ::= fun l : log => l <| lh ::= fun h : logheader => h <| block ::= <[i := b]> |> |> |>
      = enter Llog s).
    { apply enter_log_id. assert (Hid := log_ok_block _ _ _ _ L Hi2).
      destruct (slog s) as [? ? ? ? ? [? blk]]. cbn in *. by rewrite list_insert_id. }
    rewrite Es, release_enter by (done || apply Hf).
    exists (left_off s). split; [done|].
    assert (Hs : s <| bc := bc s |> <| slog := slog s |> = s) by by destruct s.
    split; [rewrite <- Hs at 2; by apply fs_step_critical|]. split; [|done].
    intros _. split; [done|]. split; [by apply fs_thread_left_off|done].
  - (* a new block *)
    rewrite (log_index_new _ _ _ L Hnin).
    assert (Hlt : (length bs < Z.to_nat LOGSIZE)%nat) by (unfold log_full in Hno; lia).
    rewrite bindE, set_log_block_Ret by done. rewrite Hlen, Z.eqb_refl. cbn [when].
    set (s1 := s <| slog ::= fun l : log => l <| lh ::= fun h : logheader => h <| block ::= <[length bs := b]> |> |> |>).
    change (enter Llog s <| slog ::= _ |>) with (enter Llog s1).
    rewrite bindE, bindE, (bpin_enter n bf s1) by (done || apply Hf).
    set (c := set_buf_of n (fun b => b <| refcnt := u32 (refcnt b + 1) |>) (bc s)).
    cbn [modify]. set (lg := log_add b (slog s)).
    assert (Es : forall x, enter Llog x <| slog ::= fun l : log => l <| lh ::= fun h : logheader => h <| ln := ln h + 1 |> |> |> =
      enter Llog (x <| slog ::= fun l : log => l <| lh ::= fun h : logheader => h <| ln := ln h + 1 |> |> |>)) by done.
    unfold set_lh, set_log. cbn [modify]. rewrite Es.
    rewrite (release_from Llog e _ (s <| bc := c |> <| slog := lg |>)); [|..].
    + eexists. split; [done|]. split.
      { apply fs_step_critical; [|done|done]. intros m x _ Hx. by apply buffer_of_set. }
      split; [done|]. intros _. split; [done|]. split; [by apply log_add_ok|].
      split; [apply fs_thread_left_off; by apply (fs_thread_same s)|]. by apply rep_add_ref.
    + f_equal. unfold lg, log_add, s1. destruct s. cbn in *. rewrite Hlen, Nat2Z.id. done.
    + done.
    + apply Hf.
Qed.

(** [log_write] on every branch: it panics when the log is full or no
    operation is in progress; a block that the log already holds is absorbed,
    and nothing changes; another block is recorded at the end of the log and
    its buffer is pinned.  The log stays well formed. *)
Theorem log_write_correct (s : mach) (v : Z -> list Z) (h k bs : list Z) (n : nat) (b : Z) :
  fs_rep s v h k -> log_ok (slog s) bs -> buffer_of (bc s) n b ->
  0 <= b < 2 ^ 31 -> ~ log_area (lstart (slog s)) b -> Z.of_nat (length h) + 1 < 2 ^ 31 ->
  (log_full (slog s) -> exists t, log_write n e s = Panic "too big a transaction"%string t) /\
  (~ log_full (slog s) -> outstanding (slog s) < 1 ->
     exists t, log_write n e s = Panic "log_write outside of trans"%string t) /\
  (~ log_full (slog s) -> 1 <= outstanding (slog s) ->
     exists t, log_write n e s = Ret tt e t /\ fs_step h [] s t /\
       (b ∈ bs -> slog t = slog s /\ fs_rep t v h k) /\
       (b ∉ bs -> slog t = log_add b (slog s) /\ log_ok (slog t) (bs ++ [b]) /\ fs_rep t v (b :: h) k)).
Proof.
  intros R L Hn Hb Ha Hbd. assert (Hok := fs_rep_hart _ _ _ _ _ _ R).
  split; [|split; [|by apply log_write_runs]].
  - intros Hf. unfold log_write. rewrite bindE, acquire_Ret by (done || apply R). rewrite bindE. cbn [read].
    change (slog (enter Llog s)) with (slog s). destruct (log_full_spec (slog s)); [by eexists|done].
  - intros Hf Ho. unfold log_write. rewrite bindE, acquire_Ret by (done || apply R). rewrite bindE. cbn [read].
    change (slog (enter Llog s)) with (slog s). destruct (log_full_spec (slog s)); [done|].
    rewrite (proj2 (Z.ltb_lt _ _)) by done. by eexists.
Qed.

(** ** [begin_op] and [end_op] *)

Definition set_outstanding (n : Z) (l : log) : log := l <| outstanding := n |>.
Definition set_committing (n : Z) (l : log) : log := l <| committing := n |>.

(** [begin_op] admits an operation exactly when no commit is running and
    the log has room for the blocks of one more operation besides those it
    holds and those reserved by the operations in progress; otherwise the
    caller sleeps on the log, with the lock of the log free and the log
    unchanged. *)
Theorem begin_op_reserves (s : mach) :
  fs_thread s p pr ->
  let l := slog s in
  let room := ln (lh l) + (outstanding l + 1) * MAXOPBLOCKS <= LOGSIZE in
  (committing l = 0 -> room ->
     begin_op (S fuel) e s = Ret tt e (left_off (s <| slog ::= set_outstanding (outstanding l + 1) |>))) /\
  (committing l <> 0 \/ ~ room -> noff (this_cpu s) = 0 ->
     exists t, begin_op (S fuel) [] s = Blocked t /\ slog t = slog s /\ free_lock t Llog /\
       procs t !! p = Some (pr <| pchan := Some ChLog |> <| state := SLEEPING |>)).
Proof.
  intros H l room. assert (Hok : hart_ok s) by apply (ft_table _ _ _ H).
  assert (Hrun : forall e, begin_op (S fuel) e s =
    (r ← begin_op_step tt; match r with inl st => loop fuel begin_op_step st | inr b => mret b end) e (enter Llog s)).
  { intros e'. unfold begin_op. by rewrite bindE, acquire_Ret by (done || apply H). }
  split.
  - intros Hc Hr. rewrite Hrun, bindE. unfold begin_op_step. rewrite bindE. cbn [read].
    change (slog (enter Llog s)) with l. rewrite Hc, (proj2 (Z.ltb_ge _ _)) by done. cbn [negb Z.eqb].
    unfold set_log. rewrite bindE. cbn [modify].
    rewrite bindE, (release_from Llog e _ (s <| slog ::= set_outstanding (outstanding l + 1) |>)); [done|done|done|apply H].
  - intros Hw Hn. destruct (sleep_blocks ChLog Llog s p pr) as (m & Hs & Hfl & Hpr);
      [apply H|apply H|apply H|apply H|done|done|].
    rewrite Hrun, bindE. unfold begin_op_step at 1. rewrite bindE. cbn [read].
    change (slog (enter Llog s)) with l. destruct (Z.eqb_spec (committing l) 0) as [Hc|Hc]; cbn [negb].
    + destruct Hw as [Hw|Hw]; [done|]. rewrite (proj2 (Z.ltb_lt _ _)) by (unfold room in Hw; lia).
      rewrite bindE, Hs. eexists. split; [done|]. split; [done|]. by split.
    + rewrite bindE, Hs. eexists. split; [done|]. split; [done|]. by split.
Qed.

Lemma wakeup_log s :
  fs_thread s p pr -> wakeup ChLog e (enter Llog s) = Ret tt e (enter Llog s).
Proof.
  intros H. assert (Hok : hart_ok s) by apply (ft_table _ _ _ H).
  rewrite wakeup_Ret by (apply table_ready_enter; [done|apply H]).
  rewrite (procs_update_ext _ (imap (wake1 ChLog (cur (enter Llog s)))) id).
  - assert (E : enter Llog s <| procs ::= id |> = enter Llog s) by by destruct s.
    by rewrite E, left_off_enter.
  - exact (wake1_quiet s p pr ChLog _ H I).
Qed.

Lemma log_ok_flags l bs n m :
  log_ok l bs -> log_ok (set_committing n (set_outstanding m l)) bs.
Proof. intros []. by split. Qed.

(** C12. [end_op] on every branch.  While other operations are in progress it
    gives up its reservation and changes nothing else.  The last operation
    commits: afterwards no operation is outstanding, the log is empty, and
    the disk holds the new contents of every block outside the log.  Ending an
    operation while a commit runs panics. *)
Theorem end_op_commits (s : mach) (v : Z -> list Z) (h k : list Z) :
  fs_rep s v h k ->
  let l := slog s in let st := lstart l in
  (committing l <> 0 -> exists t, end_op (S fuel) e s = Panic "log.committing"%string t) /\
  (committing l = 0 -> outstanding l <> 1 ->
     end_op (S fuel) e s = Ret tt e (left_off (s <| slog ::= set_outstanding (outstanding l - 1) |>))) /\
  (forall others bs, committing l = 0 -> outstanding l = 1 -> h ≡ₚ bs ++ others -> k = [] ->
     log_ok l bs -> (length (bs ++ others) < NBUF)%nat -> log_private st others ->
     hd_blocks (disk (bc s) st) = [] -> (forall x, x ∉ bs -> v x = disk (bc s) x) ->
     exists t v', end_op (S fuel) e s = Ret tt e t /\ fs_rep t v' others [] /\ log_ok (slog t) [] /\
       outstanding (slog t) = 0 /\ committing (slog t) = 0 /\
       forall x, ~ log_area st x -> v' x = v x /\ disk (bc t) x = v x).
Proof.
  intros R l st. assert (Hok := fs_rep_hart _ _ _ _ _ _ R). assert (R0 := R). destruct R0 as [H Hc].
  set (o := outstanding l - 1).
  set (s1 := s <| slog ::= set_outstanding o |>).
  assert (H1 : fs_thread s1 p pr) by by apply (fs_thread_same s).
  assert (Hrun : end_op (S fuel) e s = (l ← read slog;
    if negb (committing l =? 0) then panic "log.committing"%string
    else
      do_commit ← (if outstanding l =? 0 then
                     set_log (fun l => l <| committing := 1 |>);; mret true
                   else wakeup ChLog;; mret false);
      release Llog;;
      when do_commit
        (commit (S fuel);; acquire Llog;; set_log (fun l => l <| committing := 0 |>);;
         wakeup ChLog;; release Llog)) e (enter Llog s1)).
  { unfold end_op. by rewrite bindE, acquire_Ret by (done || apply H). }
  rewrite Hrun, bindE. cbn [read]. change (committing (slog (enter Llog s1))) with (committing l).
  change (outstanding (slog (enter Llog s1))) with o.
  split; [|split].
  - intros Hcm. rewrite (proj2 (Z.eqb_neq _ _) Hcm). by eexists.
  - intros Hcm Hou. rewrite Hcm. cbn [negb Z.eqb]. rewrite (proj2 (Z.eqb_neq o 0)) by lia.
    rewrite bindE, bindE, wakeup_log by done. cbn [mret M_ret when].
    rewrite bindE, (release_enter Llog) by (done || apply H1). done.
  - intros others bs Hcm Hou Hh -> L Hroom Hp Hold Hclean. rewrite Hcm. cbn [negb Z.eqb].
    rewrite (proj2 (Z.eqb_eq o 0)) by lia.
    set (s2 := left_off (s <| slog ::= fun l => set_committing 1 (set_outstanding o l) |>)).
    unfold set_log. rewrite bindE, bindE. cbn [modify mret M_ret when].
    rewrite bindE, (release_from Llog e _ (s <| slog ::= fun l => set_committing 1 (set_outstanding o l) |>)); [|done|done|apply H].
    fold s2.
    assert (R2 : fs_rep s2 v (bs ++ others) []).
    { eapply fs_rep_ext; [|done|done|done]. split; [|exact Hc].
      apply fs_thread_left_off. by apply (fs_thread_same s). }
    assert (L2 : log_ok (slog s2) bs) by by apply log_ok_flags.
    assert (Hw : wp (commit (S fuel)) e s2 (fun _ t => exists v', fs_rep t v' others [] /\
      log_ok (slog t) [] /\ outstanding (slog t) = o /\
      forall x, ~ log_area st x -> v' x = v x /\ disk (bc t) x = v x)).
    { eapply wp_commit_any; [done..|]. intros t v' R3 L3 E3 D3. exists v'. split; [done|]. split; [done|].
      by rewrite E3. }
    destruct Hw as ([] & t & E & v' & R3 & L3 & O3 & D3).
    rewrite bindE, E. set (t1 := t <| slog ::= set_committing 0 |>).
    assert (Hokt := fs_rep_hart _ _ _ _ _ _ R3). assert (R3' := R3). destruct R3' as [Ht Hct].
    assert (Ht1 : fs_thread t1 p pr) by by apply (fs_thread_same t).
    rewrite bindE, acquire_Ret by (done || apply Ht). rewrite bindE. cbn [modify].
    change (enter Llog t <| slog ::= _ |>) with (enter Llog t1).
    rewrite bindE, wakeup_log by done. rewrite (release_enter Llog) by (done || apply Ht1).
    exists (left_off t1), v'. split; [done|]. split; [split; [by apply fs_thread_left_off|done]|].
    split; [by destruct L3|]. split; [cbn; rewrite O3; lia|]. done.
Qed.
End log_calls.

(** ** The size of the log

    [begin_op] reserves blocks as if the log had [LOGSIZE] of them; a log of
    [LOGSIZE] blocks on the disk has room for one less, its header takes one. *)
Section reservation.
Context (fuel : nat) (p : nat) (pr : proc) (e : env).

(** C32. The reservation is one block too large.  With a log of [LOGSIZE]
    blocks, as [mkfs] makes it, three operations are admitted at once, which
    reserves [3 * MAXOPBLOCKS = LOGSIZE] blocks for them; yet in every later
    state in which they have logged [LOGSIZE - 1] blocks, one less than they
    were promised, [log_write] panics. *)
Theorem log_reservation_short (s : mach) :
  fs_thread s p pr -> lsize (slog s) = LOGSIZE -> ln (lh (slog s)) = 0 ->
  outstanding (slog s) = 0 -> committing (slog s) = 0 ->
  exists t, (begin_op (S fuel);; begin_op (S fuel);; begin_op (S fuel)) e s = Ret tt e t /\
    outstanding (slog t) * MAXOPBLOCKS = LOGSIZE /\ lsize (slog t) = LOGSIZE /\
    forall n u, hart_ok u -> free_lock u Llog -> lsize (slog u) = LOGSIZE -> ln (lh (slog u)) = LOGSIZE - 1 ->
      exists u', log_write n e u = Panic "too big a transaction"%string u'.
Proof.
  intros H Hsz Hn Ho Hc. set (s1 := s <| slog ::= set_outstanding 1 |>).
  set (s2 := s <| slog ::= set_outstanding 2 |>). set (s3 := s <| slog ::= set_outstanding 3 |>).
  assert (Hok : hart_ok s) by apply (ft_table _ _ _ H).
  assert (Hstep : forall t k, fs_thread t p pr -> ln (lh (slog t)) = 0 -> committing (slog t) = 0 ->
    outstanding (slog t) = k -> k <= 2 ->
    begin_op (S fuel) e t = Ret tt e (left_off (t <| slog ::= set_outstanding (k + 1) |>))).
  { intros t k Ht H1 H2 H3 H4. unfold begin_op.
    rewrite bindE, acquire_Ret by (apply (ft_table _ _ _ Ht) || apply Ht). cbn [loop]. rewrite bindE.
    unfold begin_op_step. rewrite bindE. cbn [read]. change (slog (enter Llog t)) with (slog t).
    rewrite H1, H2, H3. cbn [negb Z.eqb].
    rewrite (proj2 (Z.ltb_ge LOGSIZE _)) by (unfold LOGSIZE, MAXOPBLOCKS; lia).
    unfold set_log. rewrite bindE. cbn [modify].
    rewrite bindE, (release_from Llog e _ (t <| slog ::= set_outstanding (k + 1) |>));
      [done| |apply (ft_table _ _ _ Ht)|apply Ht].
    unfold enter, on_cpu, set_outstanding. cbn. by rewrite H3. }
  exists (left_off s3). split; [|split; [done|split; [exact Hsz|]]].
  - rewrite bindE, (Hstep s 0) by (done || lia). change (s <| slog ::= set_outstanding (0 + 1) |>) with s1.
    assert (H1 : fs_thread (left_off s1) p pr) by (apply fs_thread_left_off; by apply (fs_thread_same s)).
    rewrite bindE, (Hstep (left_off s1) 1) by (done || lia).
    change (left_off s1 <| slog ::= set_outstanding (1 + 1) |>) with (left_off s2). rewrite left_off_idem by done.
    assert (H2 : fs_thread (left_off s2) p pr) by (apply fs_thread_left_off; by apply (fs_thread_same s)).
    rewrite (Hstep (left_off s2) 2) by (done || lia).
    change (left_off s2 <| slog ::= set_outstanding (2 + 1) |>) with (left_off s3). by rewrite left_off_idem.
  - intros n u Hu Hf Hs Hl. unfold log_write. rewrite bindE, acquire_Ret by done. rewrite bindE. cbn [read].
    change (slog (enter Llog u)) with (slog u). rewrite Hs, Hl, (Z.leb_refl (LOGSIZE - 1)), orb_true_r. by eexists.
Qed.
End reservation.

(** ** Concrete logs *)

#[local] Existing Instance test_disk.
#[local] Existing Instance test_disk_law.

Definition zero_block : list Z := replicate 1024 0.
Definition sevens : list Z := replicate 1024 7.

(** The log of a file system made by [mkfs]: 30 blocks from block 2 on. *)
Definition empty_log : log := mkLog 2 30 0 0 1 (mkLogheader 0 (replicate 30 0)).

Definition machine_log (d : Z -> list Z) (l : log) : mach := machine_disk d <| slog := l |>.

Lemma fs_rep_machine_log d l :
  (forall b, length (d b) = 1024%nat) -> fs_rep 0 running (machine_log d l) d [] [].
Proof. intros Hd. exact (fs_rep_log 0 running _ _ _ _ (fun _ => l) (fs_rep_disk d Hd)). Qed.

(** An operation has filled block 100 with sevens and logged it; the disk is
    still full of zeros. *)
Definition tx_cache (c : bcache) : bcache :=
  set_buf_of 0 (fun b : buf => b <| bdata := sevens |>)
    (set_buf_of 0 (fun b : buf => b <| bdev := ROOTDEV |> <| blockno := 100 |> <| valid := 1 |> <| refcnt := 1 |>
      <| bdata := disk c 100 |>) c).
Definition tx_log : log := mkLog 2 30 1 0 1 (mkLogheader 1 (100 :: replicate 29 0)).
Definition machine_tx : mach := machine_log (fun _ => zero_block) tx_log <| bc ::= tx_cache |>.

Lemma tx_cache_rep m p pr d :
  fs_rep p pr m d [] [] -> bufs (bc m) !! 0%nat = Some zero_buf -> (forall n b, ~ caches (bc m) n 100 b) ->
  fs_rep p pr (m <| bc ::= tx_cache |>) (upd d 100 sevens) [100] [].
Proof.
  intros [H R] H0 Hmiss. split; [by apply (fs_thread_same m)|].
  assert (R1 := rep_recycle _ _ _ _ _ _ R 0 zero_buf 100 Hmiss H0 eq_refl ltac:(cbn; lia)).
  cbn zeta in R1. apply (rep_data _ _ _ _ _ _ R1 0 100); [|by left|done].
  eexists. split; [by apply (lookup_alter_here (fun b : buf => b <| bdev := ROOTDEV |> <| blockno := 100 |>
    <| valid := 1 |> <| refcnt := 1 |> <| bdata := disk (bc m) 100 |>))|done].
Qed.

Lemma fs_rep_tx : fs_rep 0 running machine_tx (upd (fun _ => zero_block) 100 sevens) [100] [].
Proof.
  apply (tx_cache_rep (machine_log (fun _ => zero_block) tx_log)).
  - apply fs_rep_machine_log. reflexivity.
  - reflexivity.
  - intros n b (E & E1 & _). apply lookup_replicate_1 in E as [-> _]. discriminate.
Qed.

Lemma log_ok_tx : log_ok tx_log [100].
Proof.
  split; try reflexivity.
  - split; [discriminate|reflexivity].
  - split; [apply NoDup_singleton|]. split; [|apply Nat.leb_le; reflexivity].
    apply Forall_singleton. unfold log_area, LOGSIZE, MAXOPBLOCKS. cbn. lia.
Qed.

Lemma tx_clean x : x ∉ [100] -> upd (fun _ => zero_block) 100 sevens x = zero_block.
Proof. intros Hx. apply upd_other. intros ->. apply Hx. by left. Qed.

Lemma log_private_nil st : log_private st [].
Proof. intros b _. apply not_elem_of_nil. Qed.

Lemma outside_log x : 40 <= x -> ~ log_area 2 x.
Proof. unfold log_area, LOGSIZE, MAXOPBLOCKS. lia. Qed.

(** After the second of the four writes the transaction counts. *)
Lemma commit_atomic_witness :
  exists t cw, commit 1 [] machine_tx = Ret tt [] t /\ disk (bc t) 100 = sevens /\
    recovered 2 (play (rev (take 1 cw)) (disk (bc machine_tx))) 100 = zero_block /\
    recovered 2 (play (rev (take 2 cw)) (disk (bc machine_tx))) 100 = sevens.
Proof.
  destruct (commit_atomic 0 0 running [] machine_tx (upd (fun _ => zero_block) 100 sevens) [] [100])
    as (t & cw & H1 & _ & _ & _ & _ & H2 & H3).
  - exact fs_rep_tx.
  - exact log_ok_tx.
  - apply Nat.ltb_lt. reflexivity.
  - apply log_private_nil.
  - vm_compute. reflexivity.
  - exact tx_clean.
  - exists t, cw. split; [exact H1|]. assert (Ho : ~ log_area 2 100) by (apply outside_log; lia).
    split; [exact (H2 100 Ho)|]. split; [exact (H3 1%nat 100 Ho)|exact (H3 2%nat 100 Ho)].
Defined.

Lemma end_op_commits_witness :
  exists t, end_op 1 [] machine_tx = Ret tt [] t /\ disk (bc t) 100 = sevens /\ outstanding (slog t) = 0.
Proof.
  destruct (end_op_commits 0 0 running [] machine_tx (upd (fun _ => zero_block) 100 sevens) [100] [] fs_rep_tx)
    as (_ & _ & H).
  destruct (H [] [100]) as (t & v' & H1 & _ & _ & H2 & _ & H3).
  - reflexivity.
  - reflexivity.
  - reflexivity.
  - reflexivity.
  - exact log_ok_tx.
  - apply Nat.ltb_lt. reflexivity.
  - apply log_private_nil.
  - vm_compute. reflexivity.
  - exact tx_clean.
  - exists t. split; [exact H1|]. split; [apply H3, outside_log; lia|exact H2].
Defined.

(** A disk on which the header was written before the machine stopped. *)
Definition crashed_disk : Z -> list Z :=
  upd (upd (fun _ => zero_block) 3 sevens) 2 (header [100] zero_block).

Lemma recovery_correct_witness :
  exists t, recover_from_log 1 [] (machine_log crashed_disk empty_log) = Ret tt [] t /\
    disk (bc t) 100 = sevens.
Proof.
  destruct (recovery_correct 0 0 running [] (machine_log crashed_disk empty_log) crashed_disk)
    as (t & rw & H1 & _ & H2 & _).
  - apply fs_rep_machine_log. intros b. unfold crashed_disk, upd.
    destruct (b =? 2), (b =? 3); vm_compute; reflexivity.
  - split; [reflexivity|]. split; [cbn; lia|]. split; reflexivity.
  - split; [vm_compute; congruence|].
    assert (E : hd_blocks (disk (bc (machine_log crashed_disk empty_log)) 2) = [100]) by (vm_compute; reflexivity).
    change (lstart (slog (machine_log crashed_disk empty_log))) with 2. rewrite E. exact (lo_home _ _ log_ok_tx).
  - exists t. split; [exact H1|]. rewrite H2. vm_compute. reflexivity.
Defined.

(** Logging block 100 again is absorbed. *)
Lemma log_write_correct_witness :
  exists t, log_write 0 [] machine_tx = Ret tt [] t /\ slog t = tx_log.
Proof.
  destruct (log_write_correct 0 running [] machine_tx (upd (fun _ => zero_block) 100 sevens) [100] [] [100] 0 100)
    as (_ & _ & H).
  - exact fs_rep_tx.
  - exact log_ok_tx.
  - eexists. split; [reflexivity|]. split; reflexivity.
  - lia.
  - apply outside_log. lia.
  - cbn. lia.
  - destruct H as (t & H1 & _ & H2 & _).
    + unfold log_full. change (~ (30 <= 1 \/ 30 - 1 <= 1)). lia.
    + cbn. lia.
    + exists t. split; [exact H1|]. apply H2. left.
Defined.

Lemma begin_op_reserves_witness :
  exists t, begin_op 1 [] machine_tx = Ret tt [] t /\ outstanding (slog t) = 2.
Proof.
  destruct (begin_op_reserves 0 0 running [] machine_tx) as [H _].
  - apply fs_rep_tx.
  - eexists. split; [apply H|reflexivity].
    + reflexivity.
    + vm_compute. congruence.
Defined.

Lemma log_reservation_short_witness :
  exists t, (begin_op 1;; begin_op 1;; begin_op 1) [] (machine_log (fun _ => zero_block) empty_log) = Ret tt [] t /\
    outstanding (slog t) * MAXOPBLOCKS = 30.
Proof.
  destruct (log_reservation_short 0 0 running [] (machine_log (fun _ => zero_block) empty_log))
    as (t & H1 & H2 & _).
  - apply fs_rep_machine_log. reflexivity.
  - reflexivity.
  - reflexivity.
  - reflexivity.
  - reflexivity.
  - exists t. split; [exact H1|exact H2].
Defined.
