(* ===== verification/Pipe.v ===== *)
(** * Pipes

    Model of [pipeclose], [pipewrite] and [piperead] of [kernel/pipe.c]
    ([pipealloc] is in [File]).  A pipe is a ring buffer with two counters
    that wrap around at 2^32; its abstraction is the list of the bytes
    written and not yet read. *)
From stdpp Require Import base tactics list numbers gmap strings.
From S2P Require Import Prelude Machine Spinlock Kalloc Vm Sched.

Open Scope Z_scope.

Definition PIPESIZE : Z := 512.

(** ** Code *)

Definition get_pipe (pi : Z) : M pipe := s ← read id; or_fault (pipes s !! pi).
Definition set_pipe (pi : Z) (f : pipe -> pipe) : M unit :=
  _ ← get_pipe pi; modify (fun s => s <| pipes ::= alter f pi |>).

(** [pi->data[pi->nwrite++ % PIPESIZE] = ch;] *)
Definition put (ch : Z) (pi : pipe) : pipe :=
  pi <| data ::= <[Z.to_nat (nwrite pi mod PIPESIZE) := ch]> |> <| nwrite := u32 (nwrite pi + 1) |>.

(** [ch = pi->data[pi->nread++ % PIPESIZE];] *)
Definition next (pi : pipe) : Z := default 0 (data pi !! Z.to_nat (nread pi mod PIPESIZE)).
Definition take_next (pi : pipe) : pipe := pi <| nread := u32 (nread pi + 1) |>.

Section pipe.
Context `{Linker}.

Definition pipeclose (pi : Z) (writable : Z) : M unit :=
  acquire (Lpipe pi);;
  (if negb (writable =? 0) then
     set_pipe pi (fun p => p <| writeopen := 0 |>);;
     wakeup (ChPipeRead pi)
   else
     set_pipe pi (fun p => p <| readopen := 0 |>);;
     wakeup (ChPipeWrite pi));;
  p ← get_pipe pi;
  if (readopen p =? 0) && (writeopen p =? 0) then
    release (Lpipe pi);;
    modify (fun s => s <| pipes ::= delete pi |>);;
    kfree pi
  else release (Lpipe pi).

(** One iteration of [while(i < n)]; the loop ends with [None] for the early
    return and with [Some i] otherwise. *)
Definition pipewrite_step (pi addr n : Z) (pr : nat) (i : Z) : M (Z + option Z) :=
  if n <=? i then mret (inr (Some i))
  else
    p ← get_pipe pi;
    dead ← (if readopen p =? 0 then mret true else k ← killed pr; mret (negb (k =? 0)));
    if dead : bool then release (Lpipe pi);; mret (inr None)
    else
      p ← get_pipe pi;
      if nwrite p =? u32 (nread p + PIPESIZE) then
        wakeup (ChPipeRead pi);;
        sleep (ChPipeWrite pi) (Lpipe pi);;
        mret (inl i)
      else
        proc_ ← get_proc pr;
        r ← copyin (pagetable proc_) (u64 (addr + i)) 1;
        if fst r =? -1 then mret (inr (Some i))
        else set_pipe pi (put (default 0 (head (snd r))));; mret (inl (i + 1)).

Definition pipewrite (fuel : nat) (pi addr n : Z) : M Z :=
  pr ← curproc;
  acquire (Lpipe pi);;
  r ← loop fuel (pipewrite_step pi addr n pr) 0;
  match r with
  | None => mret (-1)
  | Some i =>
      wakeup (ChPipeRead pi);;
      release (Lpipe pi);;
      mret i
  end.

(** One iteration of [while(pi->nread == pi->nwrite && pi->writeopen)]. *)
Definition piperead_wait (pi : Z) (pr : nat) (_ : unit) : M (unit + bool) :=
  p ← get_pipe pi;
  if (nread p =? nwrite p) && negb (writeopen p =? 0) then
    k ← killed pr;
    if negb (k =? 0) then release (Lpipe pi);; mret (inr false)
    else sleep (ChPipeRead pi) (Lpipe pi);; mret (inl tt)
  else mret (inr true).

(** One iteration of [for(i = 0; i < n; i++)]. *)
Definition piperead_step (pi addr n : Z) (pr : nat) (i : Z) : M (Z + Z) :=
  if n <=? i then mret (inr i)
  else
    p ← get_pipe pi;
    if nread p =? nwrite p then mret (inr i)
    else
      let ch := next p in
      set_pipe pi take_next;;
      proc_ ← get_proc pr;
      r ← copyout (pagetable proc_) (u64 (addr + i)) [ch];
      if r =? -1 then mret (inr i) else mret (inl (i + 1)).

Definition piperead (fuel : nat) (pi addr n : Z) : M Z :=
  pr ← curproc;
  acquire (Lpipe pi);;
  ok ← loop fuel (piperead_wait pi pr) tt;
  if negb ok then mret (-1)
  else
    i ← loop fuel (piperead_step pi addr n pr) 0;
    wakeup (ChPipeWrite pi);;
    release (Lpipe pi);;
    mret i.
End pipe.

(** ** The bytes in a pipe *)

Definition count (pi : pipe) : Z := u32 (nwrite pi - nread pi).

Definition contents (pi : pipe) : list Z :=
  (fun j => default 0 (data pi !! Z.to_nat ((nread pi + j) mod PIPESIZE))) <$> seqZ 0 (count pi).

Record pipe_ok (pi : pipe) : Prop := mkPipeOk {
  ok_data : length (data pi) = 512%nat;
  ok_nread : 0 <= nread pi < 2 ^ 32;
  ok_nwrite : 0 <= nwrite pi < 2 ^ 32;
  ok_count : count pi <= PIPESIZE
}.

Lemma count_range pi : 0 <= count pi < 2 ^ 32.
Proof. apply u32_range. Qed.

Lemma contents_length pi : Z.of_nat (length (contents pi)) = count pi.
Proof. unfold contents. rewrite length_fmap, length_seqZ. pose proof (count_range pi). lia. Qed.

(** The counters agree exactly when the pipe is empty, and differ by the
    size exactly when it is full, whatever they wrapped. *)
Lemma empty_iff pi : pipe_ok pi -> (nread pi = nwrite pi <-> count pi = 0).
Proof.
  intros [_ Hr Hw _]. unfold count, u32. split.
  - intros ->. by rewrite Z.sub_diag.
  - intros H. Z.to_euclidean_division_equations. lia.
Qed.

Lemma full_iff pi : pipe_ok pi -> (nwrite pi = u32 (nread pi + PIPESIZE) <-> count pi = PIPESIZE).
Proof.
  intros [_ Hr Hw _]. unfold count, u32, PIPESIZE. split; intros H;
    Z.to_euclidean_division_equations; lia.
Qed.

Lemma nwrite_index pi :
  pipe_ok pi -> nwrite pi mod PIPESIZE = (nread pi + count pi) mod PIPESIZE.
Proof.
  intros [_ Hr Hw _]. unfold count, u32, PIPESIZE. Z.to_euclidean_division_equations. lia.
Qed.

Lemma count_put ch pi : pipe_ok pi -> count pi < PIPESIZE -> count (put ch pi) = count pi + 1.
Proof.
  intros [_ Hr Hw _]. unfold count, put, u32, PIPESIZE. cbn. intros H.
  Z.to_euclidean_division_equations. lia.
Qed.

Lemma count_take_next pi : pipe_ok pi -> 0 < count pi -> count (take_next pi) = count pi - 1.
Proof.
  intros [_ Hr Hw _]. unfold count, take_next, u32. cbn. intros H.
  Z.to_euclidean_division_equations. lia.
Qed.

Lemma put_ok ch pi : pipe_ok pi -> count pi < PIPESIZE -> pipe_ok (put ch pi).
Proof.
  intros Hok Hc. assert (Hok' := Hok). destruct Hok' as [H1 H2 H3 H4]. split.
  - unfold put. cbn. by rewrite length_insert.
  - done.
  - unfold put. cbn. apply u32_range.
  - rewrite count_put by done. lia.
Qed.

Lemma take_next_ok pi : pipe_ok pi -> 0 < count pi -> pipe_ok (take_next pi).
Proof.
  intros Hok Hc. assert (Hok' := Hok). destruct Hok' as [H1 H2 H3 H4]. split; try done.
  - unfold take_next. cbn. apply u32_range.
  - rewrite count_take_next by done. lia.
Qed.

(** Writing a byte appends it. *)
Lemma contents_put ch pi :
  pipe_ok pi -> count pi < PIPESIZE -> contents (put ch pi) = contents pi ++ [ch].
Proof.
  intros Hok Hc. pose proof (count_range pi) as Hr. unfold contents at 1.
  rewrite count_put by done. rewrite seqZ_app by lia. rewrite fmap_app.
  change (seqZ (0 + count pi) 1) with [0 + count pi]. rewrite Z.add_0_l.
  assert (Hidx := nwrite_index pi Hok). assert (Hlen := ok_data _ Hok).
  pose proof (Z.mod_pos_bound (nwrite pi) PIPESIZE ltac:(done)) as Hb.
  f_equal.
  - unfold contents. apply list_fmap_ext. intros i j Hj. apply list_elem_of_lookup_2 in Hj.
    apply elem_of_seqZ in Hj. unfold put. cbn [data nread update_with].
    rewrite list_lookup_insert_ne; [done|]. rewrite Hidx.
    pose proof (Z.mod_pos_bound (nread pi + j) PIPESIZE ltac:(done)).
    pose proof (Z.mod_pos_bound (nread pi + count pi) PIPESIZE ltac:(done)).
    intros Heq. apply Z2Nat.inj in Heq; [|lia..]. unfold PIPESIZE in *.
    Z.to_euclidean_division_equations. lia.
  - cbn. unfold put. cbn [data nread update_with]. rewrite <- Hidx.
    rewrite list_lookup_insert_eq; [done|]. rewrite Hlen. unfold PIPESIZE in *. lia.
Qed.

(** Reading a byte removes the first. *)
Lemma contents_take_next pi :
  pipe_ok pi -> 0 < count pi -> contents pi = next pi :: contents (take_next pi).
Proof.
  intros Hok Hc. unfold contents. rewrite count_take_next by done.
  rewrite seqZ_cons by lia. rewrite fmap_cons. f_equal; [by rewrite Z.add_0_r|].
  rewrite <- Z.sub_1_r. change (Z.succ 0) with (1 + 0). rewrite <- fmap_add_seqZ, <- list_fmap_compose.
  apply list_fmap_ext. intros i j Hj. cbn [compose]. unfold take_next. cbn [data nread update_with].
  do 3 f_equal. unfold u32, PIPESIZE. destruct Hok as [_ Hr _ _].
  Z.to_euclidean_division_equations. lia.
Qed.

(** ** Effects *)

Lemma alter_as_insert {A} (f : A -> A) (m : gmap Z A) i x :
  m !! i = Some x -> alter f i m = <[i := f x]> m.
Proof.
  intros Hi. apply map_eq. intros j. destruct (decide (i = j)) as [->|Hne].
  - by rewrite lookup_alter_eq, lookup_insert_eq, Hi.
  - by rewrite lookup_alter_ne, lookup_insert_ne.
Qed.

Lemma get_pipe_Ret pi e s p : pipes s !! pi = Some p -> get_pipe pi e s = Ret p e s.
Proof. intros H. unfold get_pipe. msimp. by rewrite H. Qed.

Definition with_pipe (pi : Z) (p : pipe) (s : mach) : mach := s <| pipes ::= <[pi := p]> |>.

Lemma set_pipe_Ret pi f e s p :
  pipes s !! pi = Some p -> set_pipe pi f e s = Ret tt e (with_pipe pi (f p) s).
Proof.
  intros H. unfold set_pipe. rewrite bindE, (get_pipe_Ret _ _ _ p) by done.
  unfold with_pipe, modify. cbn. by rewrite (alter_as_insert f _ _ p).
Qed.

Lemma with_pipe_twice pi p q s : with_pipe pi p (with_pipe pi q s) = with_pipe pi p s.
Proof. unfold with_pipe. cbn. by rewrite insert_insert_eq. Qed.

Lemma with_pipe_same pi p s : pipes s !! pi = Some p -> with_pipe pi p s = s.
Proof. intros H. unfold with_pipe. destruct s. cbn in *. by rewrite insert_id. Qed.

(** Process [p] runs and can use the pipe [pp] at [pi]. *)
Record usable (s : mach) (pi : Z) (p : nat) (pr : proc) (pp : pipe) : Prop := mkUsable {
  us_table : table_ready s;
  us_free : free_lock s (Lpipe pi);
  us_cur : cur s = Some p;
  us_proc : procs s !! p = Some pr;
  us_pipe : pipes s !! pi = Some pp;
  us_ok : pipe_ok pp
}.

Lemma usable_lt s pi p pr pp : usable s pi p pr pp -> (p < NPROC)%nat.
Proof. intros [(_ & Hlen & _) _ _ Hp _ _]. apply lookup_lt_Some in Hp. lia. Qed.

Lemma usable_with_pipe s pi p pr pp qq :
  usable s pi p pr pp -> pipe_ok qq -> usable (with_pipe pi qq s) pi p pr qq.
Proof.
  intros [H1 H2 H3 H4 H5 H6] Hq. split; try done. cbn. by rewrite lookup_insert_eq.
Qed.

Lemma killed_inside s pi p pr pp e :
  usable s pi p pr pp ->
  killed p e (enter (Lpipe pi) s) = Ret (killed_ pr) e (enter (Lpipe pi) s).
Proof.
  intros Hu. rewrite (killed_Ret p e (enter (Lpipe pi) s) pr).
  - rewrite left_off_enter; [done|]. apply Hu.
  - apply table_ready_enter; [done|]. apply Hu.
  - by eapply usable_lt.
  - apply Hu.
Qed.

(** The wakeup and release at the end of an operation. *)
Lemma finish_operation s pi ch p pr pp e {A} (a : A) :
  usable s pi p pr pp ->
  (wakeup ch;; release (Lpipe pi);; mret a) e (enter (Lpipe pi) s) =
  Ret a e (left_off (s <| procs ::= imap (wake1 ch (Some p)) |>)).
Proof.
  intros Hu. assert (Hok : hart_ok s) by apply Hu.
  rewrite bindE, wakeup_Ret by (apply table_ready_enter; [done|apply Hu]).
  rewrite cur_enter, (us_cur _ _ _ _ _ Hu) by done.
  change (enter (Lpipe pi) s <| procs ::= ?g |>) with (enter (Lpipe pi) (s <| procs ::= g |>)).
  rewrite left_off_enter by done.
  rewrite bindE, (release_from (Lpipe pi) e _ (s <| procs ::= imap (wake1 ch (Some p)) |>)); try done.
  apply Hu.
Qed.

Section transfer.
Context `{Linker}.

(** The bytes [l] of the user memory at [addr], readable by the kernel. *)
Definition user_bytes (m : bytes) (pt addr : Z) (l : list Z) : Prop :=
  forall i c, l !! i = Some c -> exists a,
    user_addr m pt (addr + Z.of_nat i) 0 = Some a /\ PGSIZE <= a /\ load8 m a = c.

Lemma user_bytes_cons m pt addr c l :
  user_bytes m pt addr (c :: l) ->
  (exists a, user_addr m pt addr 0 = Some a /\ PGSIZE <= a /\ load8 m a = c) /\
  user_bytes m pt (addr + 1) l.
Proof.
  intros Hb. split.
  - destruct (Hb 0%nat c eq_refl) as (a & H1 & H2). rewrite Z.add_0_r in H1. eauto.
  - intros i d Hi. destruct (Hb (S i) d Hi) as (a & H1 & H2). exists a.
    by replace (addr + 1 + Z.of_nat i) with (addr + Z.of_nat (S i)) by lia.
Qed.

Lemma write_byte s pi p pr pp e addr n i c :
  usable s pi p pr pp -> killed_ pr = 0 -> readopen pp <> 0 -> i < n -> count pp < PIPESIZE ->
  0 <= addr + i < 2 ^ 64 ->
  (exists a, user_addr (mem s) (pagetable pr) (addr + i) 0 = Some a /\ PGSIZE <= a /\
     load8 (mem s) a = c) ->
  pipewrite_step pi addr n p i e (enter (Lpipe pi) s) =
  Ret (inl (i + 1)) e (enter (Lpipe pi) (with_pipe pi (put c pp) s)).
Proof.
  intros Hu Hk Hro Hi Hc Haddr (a & Ha & Hpos & Hv). unfold pipewrite_step.
  assert (Hpp := us_pipe _ _ _ _ _ Hu).
  destruct (Z.leb_spec n i); [lia|].
  rewrite bindE, (get_pipe_Ret pi e (enter (Lpipe pi) s) pp) by done.
  destruct (Z.eqb_spec (readopen pp) 0); [done|]. rewrite bindE.
  rewrite bindE, (killed_inside s pi p pr pp) by done. rewrite Hk. cbn [mret M_ret].
  change (negb (0 =? 0)) with false. cbn match.
  rewrite bindE, (get_pipe_Ret pi e (enter (Lpipe pi) s) pp) by done.
  destruct (Z.eqb_spec (nwrite pp) (u32 (nread pp + PIPESIZE))) as [Hf|Hf].
  { apply full_iff in Hf; [lia|apply Hu]. }
  rewrite bindE, (get_proc_Ret p e (enter (Lpipe pi) s) pr) by apply Hu.
  rewrite u64_id by lia. rewrite bindE, copyin_byte by
    (done || (change (mem (enter (Lpipe pi) s)) with (mem s); rewrite Ha; congruence)).
  change (mem (enter (Lpipe pi) s)) with (mem s). rewrite Ha, Hv. cbn [fst snd head default].
  change (0 =? -1) with false. cbn match.
  rewrite bindE, (set_pipe_Ret pi _ e (enter (Lpipe pi) s) pp) by done. done.
Qed.

Definition put_all (l : list Z) (pp : pipe) : pipe := foldl (fun pp c => put c pp) pp l.

Lemma put_all_spec l pp :
  pipe_ok pp -> count pp + Z.of_nat (length l) <= PIPESIZE ->
  pipe_ok (put_all l pp) /\ contents (put_all l pp) = contents pp ++ l.
Proof.
  revert pp. induction l as [|c l IH]; intros pp Hok Hc; [by rewrite app_nil_r|].
  cbn [length] in Hc. change (put_all (c :: l) pp) with (put_all l (put c pp)).
  destruct (IH (put c pp)) as [H1 H2].
  - apply put_ok; [done|lia].
  - rewrite count_put by (done || lia). lia.
  - split; [done|]. rewrite H2, contents_put by (done || lia). by rewrite <- app_assoc.
Qed.

Lemma readopen_put c pp : readopen (put c pp) = readopen pp.
Proof. done. Qed.

Lemma write_loop fuel s pi p pr pp e addr n i l :
  usable s pi p pr pp -> killed_ pr = 0 -> readopen pp <> 0 ->
  i + Z.of_nat (length l) = n -> count pp + Z.of_nat (length l) <= PIPESIZE ->
  0 <= addr + i -> addr + n <= 2 ^ 64 -> (length l < fuel)%nat ->
  user_bytes (mem s) (pagetable pr) (addr + i) l ->
  loop fuel (pipewrite_step pi addr n p) i e (enter (Lpipe pi) s) =
  Ret (Some n) e (enter (Lpipe pi) (with_pipe pi (put_all l pp) s)).
Proof.
  revert fuel s pp i. induction l as [|c l IH];
    intros fuel s pp i Hu Hk Hro Hn Hc Hlo Hhi Hf Hb.
  - destruct fuel as [|fuel]; [lia|]. cbn [loop]. rewrite bindE. unfold pipewrite_step at 1.
    cbn [length] in Hn. destruct (Z.leb_spec n i); [|lia]. cbn [mret M_ret].
    cbn [put_all foldl]. rewrite with_pipe_same by apply Hu. do 2 f_equal. lia.
  - destruct fuel as [|fuel]; [lia|]. cbn [length] in *. cbn [loop]. rewrite bindE.
    apply user_bytes_cons in Hb as [Hb1 Hb2].
    rewrite (write_byte s pi p pr pp e addr n i c) by (done || lia).
    assert (Hok := us_ok _ _ _ _ _ Hu).
    rewrite (IH fuel (with_pipe pi (put c pp) s) (put c pp) (i + 1)).
    + by rewrite with_pipe_twice.
    + eapply usable_with_pipe; [done|]. apply put_ok; [done|lia].
    + done.
    + done.
    + lia.
    + rewrite count_put by (done || lia). lia.
    + lia.
    + done.
    + lia.
    + by rewrite Z.add_assoc.
Qed.

(** C39. [pipewrite] appends.  When the pipe is open for reading, has room
    for the bytes, the process is not killed and its buffer is mapped, the
    call returns the number of bytes without sleeping, the pipe then holds
    what it held followed by these bytes in order, and exactly the readers
    that sleep on the pipe become runnable.  The counters may wrap. *)
Theorem pipewrite_appends (fuel : nat) (e : env) (s : mach) (pi addr : Z) (p : nat) (pr : proc)
    (pp : pipe) (l : list Z) :
  usable s pi p pr pp -> killed_ pr = 0 -> readopen pp <> 0 ->
  count pp + Z.of_nat (length l) <= PIPESIZE ->
  0 <= addr -> addr + Z.of_nat (length l) <= 2 ^ 64 -> (length l < fuel)%nat ->
  user_bytes (mem s) (pagetable pr) addr l ->
  exists s' pp', pipewrite fuel pi addr (Z.of_nat (length l)) e s = Ret (Z.of_nat (length l)) e s' /\
    pipes s' = <[pi := pp']> (pipes s) /\ pipe_ok pp' /\ contents pp' = contents pp ++ l /\
    procs s' = imap (wake1 (ChPipeRead pi) (Some p)) (procs s) /\
    locks s' = locks s /\ mem s' = mem s.
Proof.
  intros Hu Hk Hro Hc Hlo Hhi Hf Hb. assert (Hok : hart_ok s) by apply Hu.
  destruct (put_all_spec l pp (us_ok _ _ _ _ _ Hu) Hc) as [Hok' Hcont].
  unfold pipewrite. rewrite bindE, (curproc_ready e s p) by (done || apply Hu).
  rewrite bindE, acquire_Ret by (first [by apply hart_ok_left_off | apply Hu]).
  rewrite enter_left_off by done. rewrite bindE.
  rewrite (write_loop fuel s pi p pr pp e addr (Z.of_nat (length l)) 0 l) by
    (done || lia || by rewrite Z.add_0_r).
  rewrite (finish_operation (with_pipe pi (put_all l pp) s) pi (ChPipeRead pi) p pr (put_all l pp))
    by by eapply usable_with_pipe.
  eexists _, (put_all l pp). split; [done|]. done.
Qed.

(** Storing a buffer to user memory, byte by byte. *)
Fixpoint user_stores (m : bytes) (pt addr : Z) (l : list Z) : option bytes :=
  match l with
  | [] => Some m
  | c :: l => a ← user_addr m pt addr PTE_W; user_stores (store8 m a c) pt (addr + 1) l
  end.

Definition with_mem (m : bytes) (s : mach) : mach := s <| mem := m |>.

Lemma usable_with_mem s pi p pr pp m : usable s pi p pr pp -> usable (with_mem m s) pi p pr pp.
Proof. intros [H1 H2 H3 H4 H5 H6]. by split. Qed.

Lemma read_byte s pi p pr pp e addr n i :
  usable s pi p pr pp -> i < n -> 0 < count pp -> 0 <= addr + i < 2 ^ 64 ->
  piperead_step pi addr n p i e (enter (Lpipe pi) s) =
  match user_addr (mem s) (pagetable pr) (addr + i) PTE_W with
  | Some a => Ret (inl (i + 1)) e (enter (Lpipe pi)
                (with_mem (store8 (mem s) a (next pp)) (with_pipe pi (take_next pp) s)))
  | None => Ret (inr i) e (enter (Lpipe pi) (with_pipe pi (take_next pp) s))
  end.
Proof.
  intros Hu Hi Hc Haddr. unfold piperead_step. destruct (Z.leb_spec n i); [lia|].
  assert (Hpp := us_pipe _ _ _ _ _ Hu).
  rewrite bindE, (get_pipe_Ret pi e (enter (Lpipe pi) s) pp) by done.
  destruct (Z.eqb_spec (nread pp) (nwrite pp)) as [He|He].
  { apply empty_iff in He; [lia|apply Hu]. }
  rewrite bindE, (set_pipe_Ret pi _ e (enter (Lpipe pi) s) pp) by done.
  rewrite bindE, (get_proc_Ret p e _ pr) by apply Hu.
  rewrite u64_id by lia. rewrite bindE, copyout_byte by done.
  change (mem (with_pipe pi (take_next pp) (enter (Lpipe pi) s))) with (mem s).
  by destruct (user_addr (mem s) (pagetable pr) (addr + i) PTE_W).
Qed.

Definition take_many (k : nat) (pp : pipe) : pipe := Nat.iter k take_next pp.

Lemma read_loop fuel s pi p pr pp e addr n i k m' :
  usable s pi p pr pp -> k = Z.to_nat (Z.min (n - i) (count pp)) -> i <= n ->
  0 <= addr + i -> addr + n <= 2 ^ 64 -> (k < fuel)%nat ->
  user_stores (mem s) (pagetable pr) (addr + i) (take k (contents pp)) = Some m' ->
  exists pp', loop fuel (piperead_step pi addr n p) i e (enter (Lpipe pi) s) =
    Ret (i + Z.of_nat k) e (enter (Lpipe pi) (with_mem m' (with_pipe pi pp' s))) /\
    pipe_ok pp' /\ contents pp' = drop k (contents pp).
Proof.
  revert fuel s pp i. induction k as [|k IH]; intros fuel s pp i Hu Hk Hi Hlo Hhi Hf Hm.
  - exists pp. rewrite with_pipe_same by apply Hu. destruct fuel as [|fuel]; [lia|].
    cbn in Hm. injection Hm as <-. split; [|split; [apply Hu|done]].
    cbn [loop]. rewrite bindE. unfold piperead_step at 1. rewrite Z.add_0_r.
    replace (enter (Lpipe pi) (with_mem (mem s) s)) with (enter (Lpipe pi) s) by by destruct s.
    destruct (Z.leb_spec n i) as [|Hlt]; [done|].
    rewrite bindE, (get_pipe_Ret pi e (enter (Lpipe pi) s) pp) by apply Hu.
    assert (Hc : count pp = 0) by (pose proof (count_range pp); lia).
    apply empty_iff in Hc; [|apply Hu]. by rewrite Hc, Z.eqb_refl.
  - destruct fuel as [|fuel]; [lia|]. assert (Hc : 0 < count pp) by lia.
    assert (Hok := us_ok _ _ _ _ _ Hu).
    rewrite (contents_take_next pp Hok Hc) in Hm |- *. rewrite firstn_cons in Hm.
    cbn [user_stores] in Hm.
    destruct (user_addr (mem s) (pagetable pr) (addr + i) PTE_W) as [a|] eqn:Ha; [|done].
    cbn [mbind option_bind] in Hm. cbn [loop]. rewrite bindE.
    rewrite (read_byte s pi p pr pp e addr n i) by (done || lia). rewrite Ha.
    set (s1 := with_mem (store8 (mem s) a (next pp)) (with_pipe pi (take_next pp) s)).
    destruct (IH fuel s1 (take_next pp) (i + 1)) as (pp' & Hl & Hok' & Hcont).
    + apply usable_with_mem. eapply usable_with_pipe; [done|]. by apply take_next_ok.
    + rewrite count_take_next by done. lia.
    + lia.
    + lia.
    + lia.
    + lia.
    + by rewrite Z.add_assoc.
    + exists pp'. rewrite Hl. split; [|split; [done|]].
      * replace (i + 1 + Z.of_nat k) with (i + Z.of_nat (S k)) by lia. f_equal.
        unfold s1, with_mem, with_pipe, enter, on_cpu. cbn. by rewrite insert_insert_eq.
      * by rewrite Hcont.
Qed.

Lemma piperead_ready fuel s pi p pr pp e addr n :
  usable s pi p pr pp -> 0 < count pp ->
  piperead (S fuel) pi addr n e s =
  (i ← loop (S fuel) (piperead_step pi addr n p) 0;
   wakeup (ChPipeWrite pi);; release (Lpipe pi);; mret i) e (enter (Lpipe pi) s).
Proof.
  intros Hu Hc. assert (Hok : hart_ok s) by apply Hu.
  unfold piperead. rewrite bindE, (curproc_ready e s p) by (done || apply Hu).
  rewrite bindE, acquire_Ret by (first [by apply hart_ok_left_off | apply Hu]).
  rewrite enter_left_off by done. rewrite bindE.
  replace (loop (S fuel) (piperead_wait pi p) tt e (enter (Lpipe pi) s))
    with (Ret true e (enter (Lpipe pi) s)); [done|].
  cbn [loop]. rewrite bindE. unfold piperead_wait at 1.
  rewrite bindE, (get_pipe_Ret pi e (enter (Lpipe pi) s) pp) by apply Hu.
  destruct (Z.eqb_spec (nread pp) (nwrite pp)) as [He|He]; [|done].
  apply empty_iff in He; [lia|apply Hu].
Qed.

(** C40. [piperead] takes bytes out in the order they were written.  From a
    pipe that is not empty a read of up to [n] bytes into a mapped buffer
    returns min(n, bytes available), stores the first so many bytes of the
    pipe in the buffer, leaves the rest in the pipe, and wakes exactly the
    writers that sleep on it. *)
Theorem piperead_takes_first (fuel : nat) (e : env) (s : mach) (pi addr n : Z) (p : nat)
    (pr : proc) (pp : pipe) (m' : bytes) :
  usable s pi p pr pp -> 0 < count pp -> 0 <= n ->
  0 <= addr -> addr + n <= 2 ^ 64 -> Z.min n (count pp) <= Z.of_nat fuel ->
  user_stores (mem s) (pagetable pr) addr (take (Z.to_nat n) (contents pp)) = Some m' ->
  exists s' pp', piperead (S fuel) pi addr n e s = Ret (Z.min n (count pp)) e s' /\
    pipes s' = <[pi := pp']> (pipes s) /\ pipe_ok pp' /\
    contents pp' = drop (Z.to_nat n) (contents pp) /\ mem s' = m' /\
    procs s' = imap (wake1 (ChPipeWrite pi) (Some p)) (procs s) /\ locks s' = locks s.
Proof.
  intros Hu Hc Hn Hlo Hhi Hf Hm. rewrite (piperead_ready fuel s pi p pr pp) by done.
  pose proof (contents_length pp) as Hlen. pose proof (count_range pp) as Hcr.
  set (k := Z.to_nat (Z.min (n - 0) (count pp))).
  assert (Hk : take k (contents pp) = take (Z.to_nat n) (contents pp) /\
               drop k (contents pp) = drop (Z.to_nat n) (contents pp)).
  { destruct (decide (n <= count pp)) as [Hle|Hgt].
    - replace k with (Z.to_nat n) by lia. done.
    - rewrite !take_ge, !drop_ge by lia. done. }
  destruct Hk as [Hk1 Hk2]. rewrite <- Hk1 in Hm. rewrite <- Hk2.
  destruct (read_loop (S fuel) s pi p pr pp e addr n 0 k m') as (pp' & Hl & Hok' & Hcont);
    try (done || lia); [by rewrite Z.add_0_r|].
  rewrite bindE, Hl.
  rewrite (finish_operation (with_mem m' (with_pipe pi pp' s)) pi (ChPipeWrite pi) p pr pp')
    by (apply usable_with_mem; by eapply usable_with_pipe).
  eexists _, pp'. split; [f_equal; lia|]. done.
Qed.

(** A byte is lost when the buffer of a reader is not mapped: the read
    returns 0 bytes, but the first byte of the pipe is gone. *)
Theorem piperead_fault_loses_byte (fuel : nat) (e : env) (s : mach) (pi addr n : Z) (p : nat)
    (pr : proc) (pp : pipe) :
  usable s pi p pr pp -> 0 < count pp -> 0 < n -> 0 <= addr < 2 ^ 64 ->
  user_addr (mem s) (pagetable pr) addr PTE_W = None ->
  exists s' pp', piperead (S fuel) pi addr n e s = Ret 0 e s' /\
    pipes s' = <[pi := pp']> (pipes s) /\ contents pp = next pp :: contents pp'.
Proof.
  intros Hu Hc Hn Haddr Ha. rewrite (piperead_ready fuel s pi p pr pp) by done.
  rewrite bindE. cbn [loop]. rewrite bindE.
  rewrite (read_byte s pi p pr pp e addr n 0) by (done || lia). rewrite Z.add_0_r, Ha.
  assert (Hok := us_ok _ _ _ _ _ Hu). cbn [mret M_ret].
  rewrite (finish_operation (with_pipe pi (take_next pp) s) pi (ChPipeWrite pi) p pr (take_next pp))
    by (eapply usable_with_pipe; [done|by apply take_next_ok]).
  eexists _, (take_next pp). split; [done|]. split; [done|]. by apply contents_take_next.
Qed.
End transfer.

(** ** A concrete pipe

    Process 0 has one user page, mapped at 0 and holding "hi"; the counters
    of the empty pipe are about to wrap. *)

Definition user_page : bytes :=
  let m := store64 ∅ 0x80001000 (Z.lor (PA2PTE 0x80002000) PTE_V) in
  let m := store64 m 0x80002000 (Z.lor (PA2PTE 0x80003000) PTE_V) in
  let m := store64 m 0x80003000 (Z.lor (PA2PTE 0x80004000) (Z.lor PTE_V (Z.lor PTE_W PTE_U))) in
  store8 (store8 m 0x80004000 104) 0x80004001 105.

Definition user : proc := running <| pagetable := 0x80001000 |>.

Definition pipe0 : pipe := mkPipe (replicate 512 5) 0xFFFFFFFF 0xFFFFFFFF 1 1.

Definition machine_pipe (pp : pipe) : mach :=
  machine0 <| mem := user_page |> <| procs ::= <[0%nat := user]> |>
    <| pipes := {[0x80005000 := pp]} |>
    <| locks ::= <[Lpipe 0x80005000 := mkSpinlock 0 "pipe" None]> |>.

Lemma machine_pipe_usable pp : pipe_ok pp -> usable (machine_pipe pp) 0x80005000 0 user pp.
Proof.
  intros Hok. split; try done.
  - split; [|split; [reflexivity|]].
    + eexists. split; [reflexivity|]. split; [cbn; lia|]. cbn. lia.
    + intros i Hi. destruct (proj2 (proj2 machine0_ready) i Hi) as [n Hn]. exists n.
      cbn. by rewrite lookup_insert_ne.
  - exists "pipe"%string. cbn. by rewrite lookup_insert_eq.
Qed.

Lemma pipe0_ok : pipe_ok pipe0.
Proof. split; vm_compute; try done; split; done. Qed.

Lemma pipewrite_appends_witness :
  exists s' pp', @pipewrite 5 0x80005000 0 2 [] (machine_pipe pipe0) = Ret 2 [] s' /\
    pipes s' = <[0x80005000 := pp']> (pipes (machine_pipe pipe0)) /\ contents pp' = [104; 105].
Proof.
  destruct (@pipewrite_appends 5 [] (machine_pipe pipe0) 0x80005000 0 0 user pipe0 [104; 105])
    as (s' & pp' & H1 & H2 & _ & H3 & _).
  - apply machine_pipe_usable, pipe0_ok.
  - reflexivity.
  - discriminate.
  - vm_compute. discriminate.
  - lia.
  - vm_compute. discriminate.
  - cbn. lia.
  - intros [|[|i]] c Hi; simplify_eq/=.
    + exists 0x80004000. vm_compute. repeat split; discriminate.
    + exists 0x80004001. vm_compute. repeat split; discriminate.
  - exists s', pp'. split; [exact H1|]. split; [exact H2|]. rewrite H3. reflexivity.
Defined.

Definition pipe_hi : pipe := put 105 (put 104 pipe0).

Lemma pipe_hi_ok : pipe_ok pipe_hi.
Proof. split; vm_compute; try done; split; done. Qed.

Lemma piperead_takes_first_witness :
  exists s' pp', @piperead 4 0x80005000 1 1 [] (machine_pipe pipe_hi) = Ret 1 [] s' /\
    contents pp' = [105] /\ pipes s' = <[0x80005000 := pp']> (pipes (machine_pipe pipe_hi)).
Proof.
  destruct (@piperead_takes_first 3 [] (machine_pipe pipe_hi) 0x80005000 1 1 0 user pipe_hi
    (store8 user_page 0x80004001 104)) as (s' & pp' & H1 & H2 & _ & H3 & _).
  - apply machine_pipe_usable, pipe_hi_ok.
  - reflexivity.
  - lia.
  - lia.
  - vm_compute. discriminate.
  - vm_compute. discriminate.
  - vm_compute. reflexivity.
  - exists s', pp'. split; [exact H1|]. split; [|exact H2]. rewrite H3. reflexivity.
Defined.

(** The buffer is at 4096, which is not mapped. *)
Lemma piperead_fault_loses_byte_witness :
  exists s' pp', @piperead 4 0x80005000 4096 1 [] (machine_pipe pipe_hi) = Ret 0 [] s' /\
    pipes s' = <[0x80005000 := pp']> (pipes (machine_pipe pipe_hi)) /\
    contents pipe_hi = next pipe_hi :: contents pp'.
Proof.
  apply (@piperead_fault_loses_byte 3 [] (machine_pipe pipe_hi) 0x80005000 4096 1 0 user pipe_hi).
  - apply machine_pipe_usable, pipe_hi_ok.
  - reflexivity.
  - lia.
  - vm_compute. split; [discriminate|reflexivity].
  - vm_compute. reflexivity.
Defined.
