(* ===== verification/File.v ===== *)
(** * Open files

    Model of [kernel/file.c] and of [pipealloc] of [kernel/pipe.c]: the table
    of open files with its reference counts.  The inode layer below it
    ([kernel/fs.c], [kernel/log.c]) and the device switch are an interface,
    the class [FsOps]. *)
From stdpp Require Import base tactics list numbers gmap strings.
From S2P Require Import Prelude Machine Spinlock Kalloc Vm Sched Pipe.

Open Scope Z_scope.

(** ** The layer below

    The operations of the file system and the devices that the code of this
    layer calls.  Inodes are indices into the inode table. *)
Class FsOps : Type := {
  idup : option nat -> M (option nat);
  iput : option nat -> M unit;
  begin_op : M unit;
  end_op : M unit;
  namei : string -> M (option nat);
  ilock : option nat -> M unit;
  iunlock : option nat -> M unit;
  stati : option nat -> M (list Z);                    (* the bytes of a struct stat *)
  readi : option nat -> Z -> Z -> Z -> M Z;            (* inode, user address, offset, n *)
  writei : option nat -> Z -> Z -> Z -> M Z;
  devread : Z -> option (Z -> Z -> M Z);               (* devsw[major].read, if set *)
  devwrite : Z -> option (Z -> Z -> M Z)
}.

Definition NDEV : Z := 10.

(** ** Code *)

Definition get_file (f : nat) : M file := s ← read id; or_fault (files s !! f).
Definition set_file (f : nat) (g : file -> file) : M unit :=
  _ ← get_file f; modify (fun s => s <| files ::= alter g f |>).

Definition fileinit : M unit := initlock Lftable "ftable".

Definition filealloc_body (f : nat) : M (option nat) :=
  fl ← get_file f;
  if ref fl =? 0 then
    set_file f (fun fl => fl <| ref := 1 |>);;
    release Lftable;;
    mret (Some f)
  else mret None.

Definition filealloc : M (option nat) :=
  acquire Lftable;;
  r ← for_first (seq 0 NFILE) filealloc_body;
  match r with
  | Some f => mret (Some f)
  | None => release Lftable;; mret None
  end.

Definition filedup (f : nat) : M nat :=
  acquire Lftable;;
  fl ← get_file f;
  if ref fl <? 1 then panic "filedup"%string
  else
    set_file f (fun fl => fl <| ref ::= Z.succ |>);;
    release Lftable;;
    mret f.

Section file.
Context `{LK : Linker} `{FS : FsOps}.

Definition fileclose (f : nat) : M unit :=
  acquire Lftable;;
  fl ← get_file f;
  if ref fl <? 1 then panic "fileclose"%string
  else
    set_file f (fun fl => fl <| ref ::= Z.pred |>);;
    fl ← get_file f;
    if 0 <? ref fl then release Lftable
    else
      let ff := fl in
      set_file f (fun fl => fl <| ref := 0 |>);;
      set_file f (fun fl => fl <| type_ := FD_NONE |>);;
      release Lftable;;
      match type_ ff with
      | FD_PIPE => pipeclose (fpipe ff) (writable ff)
      | FD_INODE | FD_DEVICE => begin_op;; iput (ip ff);; end_op
      | FD_NONE => mret tt
      end.

Definition filestat (f : nat) (addr : Z) : M Z :=
  p ← curproc;
  fl ← get_file f;
  match type_ fl with
  | FD_INODE | FD_DEVICE =>
      ilock (ip fl);;
      st ← stati (ip fl);
      iunlock (ip fl);;
      pr ← get_proc p;
      r ← copyout (pagetable pr) addr st;
      mret (if r <? 0 then -1 else 0)
  | _ => mret (-1)
  end.

Definition fileread (fuel f : nat) (addr n : Z) : M Z :=
  fl ← get_file f;
  if readable fl =? 0 then mret (-1)
  else
    match type_ fl with
    | FD_PIPE => piperead fuel (fpipe fl) addr n
    | FD_DEVICE =>
        if (major fl <? 0) || (NDEV <=? major fl) then mret (-1)
        else match devread (major fl) with
             | None => mret (-1)
             | Some dev => dev addr n
             end
    | FD_INODE =>
        ilock (ip fl);;
        r ← readi (ip fl) addr (off fl) n;
        when (0 <? r) (set_file f (fun fl => fl <| off := u32 (off fl + r) |>));;
        iunlock (ip fl);;
        mret r
    | FD_NONE => panic "fileread"%string
    end.

(** One iteration of [while(i < n)] of [filewrite]; the result is the final
    [i]. *)
Definition filewrite_step (f : nat) (addr n : Z) (i : Z) : M (Z + Z) :=
  if n <=? i then mret (inr i)
  else
    let max := ((MAXOPBLOCKS - 1 - 1 - 2) / 2) * BSIZE in
    let n1 := n - i in
    let n1 := if max <? n1 then max else n1 in
    begin_op;;
    fl ← get_file f;
    ilock (ip fl);;
    r ← writei (ip fl) (u64 (addr + i)) (off fl) n1;
    when (0 <? r) (set_file f (fun fl => fl <| off := u32 (off fl + r) |>));;
    iunlock (ip fl);;
    end_op;;
    if negb (r =? n1) then mret (inr i) else mret (inl (i + r)).

Definition filewrite (fuel f : nat) (addr n : Z) : M Z :=
  fl ← get_file f;
  if writable fl =? 0 then mret (-1)
  else
    match type_ fl with
    | FD_PIPE => pipewrite fuel (fpipe fl) addr n
    | FD_DEVICE =>
        if (major fl <? 0) || (NDEV <=? major fl) then mret (-1)
        else match devwrite (major fl) with
             | None => mret (-1)
             | Some dev => dev addr n
             end
    | FD_INODE =>
        i ← loop fuel (filewrite_step f addr n) 0;
        mret (if i =? n then n else -1)
    | FD_NONE => panic "filewrite"%string
    end.

(** [pipealloc]: the two files, or [None] for -1.  A new pipe page holds what
    [kalloc] left in it. *)
Definition pipealloc : M (option (nat * nat)) :=
  f0 ← filealloc;
  match f0 with
  | None => mret None
  | Some f0 =>
      f1 ← filealloc;
      match f1 with
      | None => fileclose f0;; mret None
      | Some f1 =>
          pi ← kalloc;
          if pi =? 0 then fileclose f0;; fileclose f1;; mret None
          else
            modify (fun s => s <| pipes ::= <[pi := {| data := replicate 512 5; nread := 0;
                                                      nwrite := 0; readopen := 1; writeopen := 1 |}]> |>);;
            initlock (Lpipe pi) "pipe";;
            set_file f0 (fun fl => fl <| type_ := FD_PIPE |> <| readable := 1 |> <| writable := 0 |>
                                      <| fpipe := pi |>);;
            set_file f1 (fun fl => fl <| type_ := FD_PIPE |> <| readable := 0 |> <| writable := 1 |>
                                      <| fpipe := pi |>);;
            mret (Some (f0, f1))
      end
  end.
End file.

(** ** Effects *)

Lemma get_file_Ret f e s fl : files s !! f = Some fl -> get_file f e s = Ret fl e s.
Proof. intros H. unfold get_file. msimp. by rewrite H. Qed.

Lemma set_file_Ret f g e s fl :
  files s !! f = Some fl -> set_file f g e s = Ret tt e (s <| files ::= alter g f |>).
Proof. intros H. unfold set_file. rewrite bindE. by rewrite (get_file_Ret _ _ _ fl). Qed.

Definition files_ready (s : mach) : Prop :=
  hart_ok s /\ free_lock s Lftable /\ length (files s) = NFILE.

(** The first file that is not in use. *)
Fixpoint first_unused (l : list file) (i : nat) : option nat :=
  match l with
  | [] => None
  | f :: l => if ref f =? 0 then Some i else first_unused l (S i)
  end.

Lemma filealloc_loop n k e s :
  files_ready s -> (k + n = NFILE)%nat ->
  for_first (seq k n) filealloc_body e (enter Lftable s) =
  match first_unused (drop k (files s)) k with
  | Some f => Ret (Some f) e (left_off (s <| files ::= alter (fun fl => fl <| ref := 1 |>) f |>))
  | None => Ret None e (enter Lftable s)
  end.
Proof.
  intros (Hok & Hfree & Hlen). revert k. induction n as [|n IH]; intros k Hk.
  - rewrite drop_ge by lia. done.
  - destruct (lookup_lt_is_Some_2 (files s) k) as [fl Hfl]; [lia|].
    rewrite (drop_S _ fl k) by done. cbn [seq for_first first_unused]. rewrite bindE.
    unfold filealloc_body at 1. rewrite bindE, (get_file_Ret k e (enter Lftable s) fl) by done.
    destruct (ref fl =? 0).
    + rewrite bindE, (set_file_Ret k _ e (enter Lftable s) fl) by done. rewrite bindE.
      by rewrite (release_from Lftable e _ (s <| files ::= alter (fun fl => fl <| ref := 1 |>) k |>)).
    + cbn [mret M_ret]. apply IH. lia.
Qed.

Lemma filealloc_Ret e s :
  files_ready s ->
  filealloc e s =
  match first_unused (files s) 0 with
  | Some f => Ret (Some f) e (left_off (s <| files ::= alter (fun fl => fl <| ref := 1 |>) f |>))
  | None => Ret None e (left_off s)
  end.
Proof.
  intros Hr. assert (Hr' := Hr). destruct Hr' as (Hok & Hfree & Hlen). unfold filealloc.
  rewrite bindE, acquire_Ret by done. rewrite bindE, filealloc_loop by done. rewrite drop_0.
  destruct (first_unused (files s) 0); [done|]. by rewrite bindE, release_enter.
Qed.

Lemma first_unused_spec l k f :
  first_unused l k = Some f ->
  exists fl, l !! (f - k)%nat = Some fl /\ (k <= f)%nat /\ ref fl = 0.
Proof.
  revert k. induction l as [|x l IH]; intros k H; [done|]. cbn in H.
  destruct (Z.eqb_spec (ref x) 0) as [H0|H0]; simplify_eq.
  - exists x. by rewrite Nat.sub_diag.
  - destruct (IH _ H) as (fl & Hl & Hle & Href). exists fl.
    replace (f - k)%nat with (S (f - S k)) by lia. split; [done|]. split; [lia|done].
Qed.

Lemma first_unused_None l k : first_unused l k = None -> Forall (fun fl => ref fl <> 0) l.
Proof.
  revert k. induction l as [|x l IH]; intros k H; [constructor|]. cbn in H.
  destruct (Z.eqb_spec (ref x) 0); [done|]. constructor; eauto.
Qed.

Lemma filedup_Ret f e s fl :
  hart_ok s -> free_lock s Lftable -> files s !! f = Some fl ->
  filedup f e s =
  if ref fl <? 1 then Panic "filedup" (enter Lftable s)
  else Ret f e (left_off (s <| files ::= alter (fun fl => fl <| ref ::= Z.succ |>) f |>)).
Proof.
  intros Hok Hfree Hf. unfold filedup. rewrite bindE, acquire_Ret by done.
  rewrite bindE, (get_file_Ret f e (enter Lftable s) fl) by done.
  destruct (ref fl <? 1); [done|].
  rewrite bindE, (set_file_Ret f _ e (enter Lftable s) fl) by done. rewrite bindE.
  by rewrite (release_from Lftable e _ (s <| files ::= alter (fun fl => fl <| ref ::= Z.succ |>) f |>)).
Qed.

Lemma fileclose_shared `{LK : Linker} `{FS : FsOps} f e s fl :
  files_ready s -> files s !! f = Some fl -> 1 < ref fl ->
  fileclose f e s = Ret tt e (left_off (s <| files ::= alter (fun fl => fl <| ref ::= Z.pred |>) f |>)).
Proof.
  intros (Hok & Hfree & _) Hf Hr. unfold fileclose. rewrite bindE, acquire_Ret by done.
  rewrite bindE, (get_file_Ret f e (enter Lftable s) fl) by done.
  destruct (Z.ltb_spec (ref fl) 1); [lia|].
  rewrite bindE, (set_file_Ret f _ e (enter Lftable s) fl) by done. rewrite bindE.
  set (g := fun fl : file => fl <| ref ::= Z.pred |>).
  rewrite (get_file_Ret f e _ (g fl)) by by apply (lookup_alter_here g).
  change (ref (g fl)) with (Z.pred (ref fl)). destruct (Z.ltb_spec 0 (Z.pred (ref fl))); [|lia].
  by rewrite (release_from Lftable e _ (s <| files ::= alter g f |>)).
Qed.

(** The file table counts references.  [filealloc] gives a file that
    was not in use one reference, and fails only when every file is in use;
    [filedup] adds one; [fileclose] of a file that has others left removes
    one and does nothing else; duplicating or closing a file that is not in
    use panics. *)
Theorem file_table_counts `{LK : Linker} `{FS : FsOps} (e : env) (s : mach) :
  files_ready s ->
  ((exists f fl s', filealloc e s = Ret (Some f) e s' /\ files s !! f = Some fl /\ ref fl = 0 /\
      files s' = <[f := fl <| ref := 1 |>]> (files s) /\ locks s' = locks s) \/
   (exists s', filealloc e s = Ret None e s' /\ files s' = files s /\
      Forall (fun fl => ref fl <> 0) (files s))) /\
  (forall f fl, files s !! f = Some fl -> 1 <= ref fl ->
     exists s', filedup f e s = Ret f e s' /\ files s' = <[f := fl <| ref := ref fl + 1 |>]> (files s) /\
       locks s' = locks s) /\
  (forall f fl, files s !! f = Some fl -> 1 < ref fl ->
     exists s', fileclose f e s = Ret tt e s' /\ files s' = <[f := fl <| ref := ref fl - 1 |>]> (files s) /\
       pipes s' = pipes s /\ procs s' = procs s /\ locks s' = locks s) /\
  (forall f fl, files s !! f = Some fl -> ref fl < 1 ->
     (exists s', filedup f e s = Panic "filedup" s') /\
     (exists s', fileclose f e s = Panic "fileclose" s')).
Proof.
  intros Hr.
  assert (Hins : forall (g : file -> file) f fl, files s !! f = Some fl ->
    alter g f (files s) = <[f := g fl]> (files s)).
  { intros g f fl Hf. rewrite list_insert_alter. apply list_alter_ext; [|done].
    intros x Hx. by simplify_eq. }
  split; [|split; [|split]].
  - rewrite filealloc_Ret by done. destruct (first_unused (files s) 0) as [f|] eqn:Hf.
    + left. destruct (first_unused_spec _ _ _ Hf) as (fl & Hl & _ & H0). rewrite Nat.sub_0_r in Hl.
      eexists f, fl, _. split; [done|]. split; [done|]. split; [done|]. split; [|done].
      exact (Hins (fun fl => fl <| ref := 1 |>) f fl Hl).
    + right. eexists. split; [done|]. split; [done|]. by eapply first_unused_None.
  - intros f fl Hf H1. rewrite (filedup_Ret f e s fl) by (done || apply Hr).
    destruct (Z.ltb_spec (ref fl) 1); [lia|]. eexists. split; [done|]. split; [|done].
    exact (Hins (fun fl => fl <| ref ::= Z.succ |>) f fl Hf).
  - intros f fl Hf H1. rewrite (fileclose_shared f e s fl) by done. eexists. split; [done|].
    split; [|done]. exact (Hins (fun fl => fl <| ref ::= Z.pred |>) f fl Hf).
  - intros f fl Hf H1. split.
    + rewrite (filedup_Ret f e s fl) by (done || apply Hr). destruct (Z.ltb_spec (ref fl) 1); [|lia]. eauto.
    + destruct Hr as (Hok & Hfree & _). unfold fileclose. rewrite bindE, acquire_Ret by done.
      rewrite bindE, (get_file_Ret f e (enter Lftable s) fl) by done.
      destruct (Z.ltb_spec (ref fl) 1); [|lia]. eauto.
Qed.

(** ** New pipes *)

Lemma files_ready_left_off s g :
  files_ready s -> (forall l, length (g l) = length l) ->
  files_ready (left_off (s <| files ::= g |>)).
Proof.
  intros (H1 & H2 & H3) Hg. split; [by apply (hart_ok_left_off (s <| files ::= g |>))|].
  split; [exact H2|]. cbn. by rewrite Hg.
Qed.

(** [pipealloc] makes an empty pipe with two different files, one that
    only reads and one that only writes, from the first free page and two
    files that were not in use; nobody holds the lock of the new pipe. *)
Theorem pipealloc_makes_pipe `{LK : Linker} `{FS : FsOps} (e : env) (s : mach) (f0 f1 : nat) (pi : Z) (l : list Z) :
  0 < kernel_end -> files_ready s -> kmem_ready s -> kmem_inv s (pi :: l) ->
  first_unused (files s) 0 = Some f0 ->
  first_unused (alter (fun fl => fl <| ref := 1 |>) f0 (files s)) 0 = Some f1 ->
  exists s' pp fl0 fl1, pipealloc e s = Ret (Some (f0, f1)) e s' /\ f0 <> f1 /\
    files s' !! f0 = Some fl0 /\ files s' !! f1 = Some fl1 /\
    (type_ fl0, ref fl0, readable fl0, writable fl0, fpipe fl0) = (FD_PIPE, 1, 1, 0, pi) /\
    (type_ fl1, ref fl1, readable fl1, writable fl1, fpipe fl1) = (FD_PIPE, 1, 0, 1, pi) /\
    pipes s' !! pi = Some pp /\ pipe_ok pp /\ contents pp = [] /\ readopen pp = 1 /\ writeopen pp = 1 /\
    free_lock s' (Lpipe pi) /\ kmem_inv s' l.
Proof.
  intros Hend Hf Hk Hl H0 H1. unfold pipealloc.
  set (r1 := fun fl : file => fl <| ref := 1 |>) in *.
  destruct (first_unused_spec _ _ _ H0) as (g0 & Hg0 & _ & _). rewrite Nat.sub_0_r in Hg0.
  destruct (first_unused_spec _ _ _ H1) as (g1 & Hg1 & _ & Hr1). rewrite Nat.sub_0_r in Hg1.
  assert (Hne : f0 <> f1).
  { intros <-. rewrite (lookup_alter_here r1 _ _ g0 Hg0) in Hg1. by simplify_eq. }
  rewrite list_lookup_alter_ne in Hg1 by done.
  rewrite bindE, filealloc_Ret by done. rewrite H0.
  set (s1 := left_off (s <| files ::= alter r1 f0 |>)).
  change (left_off (s <| files ::= _ |>)) with s1.
  assert (Hf1 : files_ready s1) by (apply files_ready_left_off; [done|intros; apply length_alter]).
  assert (H1' : first_unused (files s1) 0 = Some f1) by exact H1.
  rewrite bindE, filealloc_Ret by done. rewrite H1'.
  set (s2 := left_off (s1 <| files ::= alter r1 f1 |>)).
  change (left_off (s1 <| files ::= _ |>)) with s2.
  assert (Hk2 : kmem_ready s2).
  { split; [|exact (proj2 Hk)]. apply hart_ok_left_off. apply Hf1. }
  assert (Hl2 : kmem_inv s2 (pi :: l)) by exact Hl.
  rewrite bindE, kalloc_Ret by done.
  destruct (kmem_inv_kalloc Hend s2 pi l Hl2) as (Hpi & Hpi0 & Hl3). rewrite Hpi.
  destruct (Z.eqb_spec pi 0); [done|]. rewrite bindE. cbn [modify]. rewrite bindE.
  set (p0 := {| data := replicate 512 5; nread := 0; nwrite := 0; readopen := 1; writeopen := 1 |}).
  assert (Ha : files (left_off (allocated s2)) = alter r1 f1 (alter r1 f0 (files s))).
  { unfold allocated. by destruct (freelist s2 =? 0). }
  unfold initlock, set_lock. cbn [modify].
  rewrite bindE, (set_file_Ret f0 _ e _ (r1 g0)).
  2: { cbn. change (files (left_off (allocated s2)) !! f0 = Some (r1 g0)). rewrite Ha.
       rewrite list_lookup_alter_ne by done. by apply lookup_alter_here. }
  rewrite bindE, (set_file_Ret f1 _ e _ (r1 g1)).
  2: { cbn. rewrite list_lookup_alter_ne by done.
       change (files (left_off (allocated s2)) !! f1 = Some (r1 g1)). rewrite Ha.
       rewrite list_lookup_alter_eq, list_lookup_alter_ne by done. by rewrite Hg1. }
  cbn [mret M_ret]. eexists _, p0, _, _. split; [done|]. split; [done|].
  split. { cbn. rewrite list_lookup_alter_ne, list_lookup_alter_eq by done.
           change (files (allocated s2)) with (files (left_off (allocated s2))). rewrite Ha.
           rewrite list_lookup_alter_ne, list_lookup_alter_eq, Hg0 by done. done. }
  split. { cbn. rewrite list_lookup_alter_eq, list_lookup_alter_ne by done.
           change (files (allocated s2)) with (files (left_off (allocated s2))). rewrite Ha.
           rewrite list_lookup_alter_eq, list_lookup_alter_ne, Hg1 by done. done. }
  split; [done|]. split; [done|]. split; [cbn; by rewrite lookup_insert_eq|].
  split; [split; vm_compute; try done; split; done|].
  split; [done|]. split; [done|]. split; [done|].
  split; [eexists; cbn; by rewrite lookup_insert_eq|]. exact Hl3.
Qed.

(** ** Concrete instances *)

(** A file system without files and a machine without devices. *)
Definition no_fs : FsOps :=
  {| idup := fun i => mret i; iput := fun _ => mret tt; begin_op := mret tt; end_op := mret tt;
     namei := fun _ => mret None; ilock := fun _ => mret tt; iunlock := fun _ => mret tt;
     stati := fun _ => mret []; readi := fun _ _ _ _ => mret (-1); writei := fun _ _ _ _ => mret (-1);
     devread := fun _ => None; devwrite := fun _ => None |}.

Definition machine_files : mach := machine0 <| freelist := PHYSTOP - PGSIZE |>.

Lemma machine_files_ready : files_ready machine_files.
Proof.
  split; [|split; [|reflexivity]].
  - eexists. split; [reflexivity|]. split; [cbn; lia|]. cbn. lia.
  - apply is_free_sound. vm_compute. reflexivity.
Qed.

Lemma file_table_counts_witness :
  exists s', @fileclose two_pages no_fs 0 [] (machine_files <| files ::= alter (fun f => f <| ref := 2 |>) 0%nat |>)
    = Ret tt [] s' /\ (ref <$> files s' !! 0%nat) = Some 1.
Proof.
  destruct (@file_table_counts two_pages no_fs []
    (machine_files <| files ::= alter (fun f => f <| ref := 2 |>) 0%nat |>)) as (_ & _ & H & _).
  - exact machine_files_ready.
  - destruct (H 0%nat (mkFile FD_NONE 2 0 0 0 None 0 0) eq_refl) as (s' & H1 & H2 & _).
    + reflexivity.
    + exists s'. split; [exact H1|]. rewrite H2. reflexivity.
Defined.

Lemma pipealloc_makes_pipe_witness :
  exists s' pp, @pipealloc two_pages no_fs [] machine_files = Ret (Some (0%nat, 1%nat)) [] s' /\
    pipes s' !! (PHYSTOP - PGSIZE) = Some pp /\ contents pp = [].
Proof.
  destruct (@pipealloc_makes_pipe two_pages no_fs [] machine_files 0 1 (PHYSTOP - PGSIZE) [])
    as (s' & pp & fl0 & fl1 & H1 & _ & _ & _ & _ & _ & H2 & _ & H3 & _).
  - reflexivity.
  - exact machine_files_ready.
  - split; [apply machine_files_ready|]. apply is_free_sound. vm_compute. reflexivity.
  - split; [|apply NoDup_singleton]. split; [reflexivity|]. split; [by vm_compute|reflexivity].
  - reflexivity.
  - reflexivity.
  - exists s', pp. auto.
Defined.
