(* ===== verification/Proc.v ===== *)
(** * Processes: creation, exit and wait

    Model of the rest of [kernel/proc.c]: [allocproc], [freeproc], the user
    page tables, [userinit], [growproc], [fork], the added [sfork],
    [reparent], [exit], [wait] and the copy functions. *)
From stdpp Require Import base tactics list numbers gmap strings.
From S2P Require Import Prelude Machine Spinlock StringC Kalloc Vm Sched Pipe File.

Open Scope Z_scope.

(** Offsets in a trapframe page ([struct trapframe] of [kernel/proc.h]). *)
Definition TF_EPC : Z := 24.
Definition TF_SP : Z := 48.
Definition TF_A0 : Z := 112.
Definition TF_SIZE : Z := 288.

Section proc.
Context `{LK : Linker} `{FS : FsOps}.

(** ** Page tables of processes *)

Definition proc_pagetable (p : nat) : M Z :=
  pagetable ← uvmcreate;
  if pagetable =? 0 then mret 0
  else
    r ← mappages pagetable TRAMPOLINE PGSIZE trampoline (Z.lor PTE_R PTE_X);
    if r <? 0 then uvmfree pagetable 0;; mret 0
    else
      pr ← get_proc p;
      r ← mappages pagetable TRAPFRAME PGSIZE (trapframe pr) (Z.lor PTE_R PTE_W);
      if r <? 0 then
        uvmunmap pagetable TRAMPOLINE 1 false;;
        uvmfree pagetable 0;;
        mret 0
      else mret pagetable.

Definition proc_freepagetable (pagetable sz : Z) : M unit :=
  uvmunmap pagetable TRAMPOLINE 1 false;;
  uvmunmap pagetable TRAPFRAME 1 false;;
  uvmfree pagetable sz.

(** ** Slots of the process table *)

(** The assignments of [freeproc] after the page table is freed. *)
Definition clear_proc (p : proc) : proc :=
  p <| pagetable := 0 |> <| sz := 0 |> <| pid := 0 |> <| parent := None |>
    <| name ::= fun n => store8 n 0 0 |> <| pchan := None |> <| killed_ := 0 |> <| xstate := 0 |>
    <| state := UNUSED |>.

Definition freeproc (p : nat) : M unit :=
  pr ← get_proc p;
  when (negb (trapframe pr =? 0)) (kfree (trapframe pr));;
  set_proc p (fun pr => pr <| trapframe := 0 |>);;
  when (negb (pagetable pr =? 0)) (proc_freepagetable (pagetable pr) (sz pr));;
  set_proc p clear_proc.

(** The loop of [allocproc]: the first unused slot, with its lock held. *)
Definition find_unused (i : nat) : M (option nat) :=
  acquire (Lproc i);;
  pr ← get_proc i;
  if bool_decide (state pr = UNUSED) then mret (Some i)
  else release (Lproc i);; mret None.

(** From the label [found] on. *)
Definition allocproc_found (p : nat) : M (option nat) :=
  pid_ ← allocpid;
  set_proc p (fun pr => pr <| pid := pid_ |>);;
  set_proc p (fun pr => pr <| state := USED |>);;
  tf ← kalloc;
  set_proc p (fun pr => pr <| trapframe := tf |>);;
  if tf =? 0 then
    freeproc p;;
    release (Lproc p);;
    mret None
  else
    pt ← proc_pagetable p;
    set_proc p (fun pr => pr <| pagetable := pt |>);;
    if pt =? 0 then
      freeproc p;;
      release (Lproc p);;
      mret None
    else
      set_proc p (fun pr => pr <| pcontext := mkContext forkret_entry (kstack pr + PGSIZE)
                                                (replicate 12 0) |>);;
      mret (Some p).

Definition allocproc : M (option nat) :=
  found ← for_first proc_table find_unused;
  match found with
  | None => mret None
  | Some p => allocproc_found p
  end.

(** [initcode] is the assembled [user/initcode.S]. *)
Definition userinit (initcode : list Z) : M unit :=
  np ← allocproc;
  modify (fun s => s <| initproc := np |>);;
  p ← or_fault np;
  pr ← get_proc p;
  uvmfirst (pagetable pr) initcode;;
  set_proc p (fun pr => pr <| sz := PGSIZE |>);;
  store_word (trapframe pr + TF_EPC) 0;;
  store_word (trapframe pr + TF_SP) PGSIZE;;
  set_proc p (fun pr => pr <| name ::= fun n =>
    safestrcpy n 0 (store_bytes ∅ 0 [105; 110; 105; 116; 99; 111; 100; 101]) 0 16 |>);;
  cwd_ ← namei "/";
  set_proc p (fun pr => pr <| cwd := cwd_ |>);;
  set_proc p (fun pr => pr <| state := RUNNABLE |>);;
  release (Lproc p).

Definition growproc (n : Z) : M Z :=
  p ← curproc;
  pr ← get_proc p;
  if 0 <? n then
    sz_ ← uvmalloc (pagetable pr) (sz pr) (u64 (sz pr + n)) PTE_W;
    if sz_ =? 0 then mret (-1)
    else set_proc p (fun pr => pr <| sz := sz_ |>);; mret 0
  else if n <? 0 then
    sz_ ← uvmdealloc (pagetable pr) (sz pr) (u64 (sz pr + n));
    set_proc p (fun pr => pr <| sz := sz_ |>);;
    mret 0
  else set_proc p (fun pr => pr <| sz := sz pr |>);; mret 0.

(** ** Fork *)

(** [for(i = 0; i < NOFILE; i++) if(p->ofile[i]) np->ofile[i] = filedup(p->ofile[i]);] *)
Fixpoint dup_files (np : nat) (i : nat) (fs : list (option nat)) : M unit :=
  match fs with
  | [] => mret tt
  | f :: fs =>
      match f with
      | None => mret tt
      | Some f => f ← filedup f; set_proc np (fun pr => pr <| ofile ::= <[i := Some f]> |>)
      end;;
      dup_files np (S i) fs
  end.

Definition fork : M Z :=
  p ← curproc;
  np ← allocproc;
  match np with
  | None => mret (-1)
  | Some np =>
      pr ← get_proc p;
      npr ← get_proc np;
      r ← uvmcopy (pagetable pr) (pagetable npr) (sz pr);
      if r <? 0 then
        freeproc np;;
        release (Lproc np);;
        mret (-1)
      else
        set_proc np (fun q => q <| sz := sz pr |>);;
        modify (fun s => s <| mem ::= fun m => memmove m (trapframe npr) (trapframe pr) TF_SIZE |>);;
        store_word (trapframe npr + TF_A0) 0;;
        dup_files np 0 (ofile pr);;
        cwd_ ← idup (cwd pr);
        set_proc np (fun q => q <| cwd := cwd_ |>);;
        set_proc np (fun q => q <| name ::= fun n => safestrcpy n 0 (name pr) 0 16 |>);;
        npr ← get_proc np;
        let pid_ := pid npr in
        release (Lproc np);;
        acquire Lwait;;
        set_proc np (fun q => q <| parent := Some p |>);;
        release Lwait;;
        acquire (Lproc np);;
        set_proc np (fun q => q <| state := RUNNABLE |>);;
        release (Lproc np);;
        mret pid_
  end.

Definition sfork : M Z :=
  np ← allocproc;
  match np with
  | None => mret (-1)
  | Some p =>
      me ← curproc; mp ← get_proc me;
      set_proc p (fun q => q <| sz := sz mp |>);;
      me ← curproc; mp ← get_proc me;
      set_proc p (fun q => q <| pagetable := pagetable mp |>);;
      me ← curproc;
      set_proc p (fun q => q <| parent := Some me |>);;
      set_proc p (fun q => q <| state := RUNNABLE |>);;
      me ← curproc; mp ← get_proc me;
      set_proc p (fun q => q <| pcontext := pcontext mp |>);;
      q ← get_proc p;
      mret (pid q)
  end.

(** ** Exit and wait *)

(** [wakeup] on a process pointer; nobody sleeps on the null channel. *)
Definition wakeup_proc (p : option nat) : M unit :=
  match p with Some i => wakeup (ChProc i) | None => mret tt end.

Definition reparent_body (p i : nat) : M unit :=
  pp ← get_proc i;
  if bool_decide (parent pp = Some p) then
    init ← read initproc;
    set_proc i (fun pp => pp <| parent := init |>);;
    wakeup_proc init
  else mret tt.

Definition reparent (p : nat) : M unit := for_each proc_table (reparent_body p).

(** [for(int fd = 0; fd < NOFILE; fd++)] of [exit]. *)
Definition close_fd (p fd : nat) : M unit :=
  pr ← get_proc p;
  match ofile pr !! fd with
  | Some (Some f) =>
      fileclose f;;
      set_proc p (fun pr => pr <| ofile ::= <[fd := None]> |>)
  | _ => mret tt
  end.

(** [exit] does not return: its result type is empty. *)
Definition exit (status : Z) : M Empty_set :=
  p ← curproc;
  init ← read initproc;
  if bool_decide (init = Some p) then panic "init exiting"%string
  else
    for_each (seq 0 NOFILE) (close_fd p);;
    begin_op;;
    pr ← get_proc p;
    iput (cwd pr);;
    end_op;;
    set_proc p (fun pr => pr <| cwd := None |>);;
    acquire Lwait;;
    reparent p;;
    pr ← get_proc p;
    wakeup_proc (parent pr);;
    acquire (Lproc p);;
    set_proc p (fun pr => pr <| xstate := status |>);;
    set_proc p (fun pr => pr <| state := ZOMBIE |>);;
    release Lwait;;
    sched;;
    panic "zombie exit"%string.

(** The four bytes of an [int]. *)
Definition int_bytes (v : Z) : list Z :=
  [u8 v; u8 (v / 2 ^ 8); u8 (v / 2 ^ 16); u8 (v / 2 ^ 24)].

(** The loop over the table of [wait]: [inr r] when [wait] returns [r] from
    inside it, [inl havekids] when the table is exhausted. *)
Fixpoint wait_scan (p : nat) (addr : Z) (l : list nat) (havekids : bool) : M (bool + Z) :=
  match l with
  | [] => mret (inl havekids)
  | i :: l =>
      pp ← get_proc i;
      if bool_decide (parent pp = Some p) then
        acquire (Lproc i);;
        pp ← get_proc i;
        if bool_decide (state pp = ZOMBIE) then
          let pid_ := pid pp in
          pr ← get_proc p;
          r ← (if addr =? 0 then mret 0 else copyout (pagetable pr) addr (int_bytes (xstate pp)));
          if r <? 0 then
            release (Lproc i);;
            release Lwait;;
            mret (inr (-1))
          else
            freeproc i;;
            release (Lproc i);;
            release Lwait;;
            mret (inr pid_)
        else
          release (Lproc i);;
          wait_scan p addr l true
      else wait_scan p addr l havekids
  end.

(** One iteration of [for(;;)]. *)
Definition wait_step (p : nat) (addr : Z) (_ : unit) : M (unit + Z) :=
  r ← wait_scan p addr proc_table false;
  match r with
  | inr v => mret (inr v)
  | inl havekids =>
      stop ← (if havekids : bool then k ← killed p; mret (negb (k =? 0)) else mret true);
      if stop : bool then release Lwait;; mret (inr (-1))
      else sleep (ChProc p) Lwait;; mret (inl tt)
  end.

Definition wait (fuel : nat) (addr : Z) : M Z :=
  p ← curproc;
  acquire Lwait;;
  loop fuel (wait_step p addr) tt.

(** ** Copying to and from user or kernel addresses *)

Definition either_copyout (user_dst : bool) (dst : Z) (src : list Z) : M Z :=
  p ← curproc;
  if user_dst then pr ← get_proc p; copyout (pagetable pr) dst src
  else modify (fun s => s <| mem ::= fun m => store_bytes m dst src |>);; mret 0.

(** The return value and the bytes written to the kernel buffer. *)
Definition either_copyin (user_src : bool) (src len : Z) : M (Z * list Z) :=
  p ← curproc;
  if user_src then pr ← get_proc p; copyin (pagetable pr) src len
  else s ← read id; mret (0, load_bytes (mem s) src len).

End proc.

(** ** Running with a process lock held *)

(** The table is in order and the locks the code below takes are free. *)
Definition sys_ready (s : mach) : Prop :=
  table_ready s /\ free_lock s Lkmem /\ free_lock s Lpid /\ free_lock s Lwait /\ free_lock s Lftable /\
  free_lock s Litable.

(** Change memory and the free list. *)
Definition with_vm (m : bytes) (fl : Z) (s : mach) : mach := s <| mem := m |> <| freelist := fl |>.

Lemma vm_only_inv {A} (m : M A) e s a e' s' :
  vm_only m -> nested s -> free_lock s Lkmem -> m e s = Ret a e' s' ->
  e' = e /\ exists mm fl, s' = with_vm mm fl s.
Proof.
  intros Hm Hn Hf H. specialize (Hm e s (nested_still _ Hn) Hf). rewrite H in Hm. destruct Hm as [-> Hs].
  split; [done|]. exists (mem s'), (freelist s'). exact Hs.
Qed.

Lemma vm_only_get_proc p : vm_only (get_proc p).
Proof.
  intros e s _ _. unfold get_proc. msimp. destruct (procs s !! p); cbn; [|done].
  split; [done|apply mem_only_refl].
Qed.
#[export] Hint Resolve vm_only_get_proc : vm.

(** Change slot [p] of the table. *)
Definition with_proc (f : proc -> proc) (p : nat) (s : mach) : mach := s <| procs ::= alter f p |>.

Lemma with_proc_twice f g p s : with_proc f p (with_proc g p s) = with_proc (f ∘ g) p s.
Proof. unfold with_proc. cbn. by rewrite list_alter_alter_eq. Qed.

Lemma set_proc_with f p e s pr :
  procs s !! p = Some pr -> set_proc p f e s = Ret tt e (with_proc f p s).
Proof. apply set_proc_Ret. Qed.

Lemma lookup_with_proc f p s pr :
  procs s !! p = Some pr -> procs (with_proc f p s) !! p = Some (f pr).
Proof. apply lookup_alter_here. Qed.

(** Find slot [p] after some changes to it, and compare states that differ in
    how the changes to it are grouped. *)
Ltac slot_lookup Hp :=
  unfold with_vm, with_proc; cbn; rewrite ?list_alter_alter_eq;
  rewrite list_lookup_alter_eq, Hp; reflexivity.

Lemma with_proc_vm f p mm fl s : with_proc f p (with_vm mm fl s) = with_vm mm fl (with_proc f p s).
Proof. done. Qed.

Lemma with_vm_vm m1 f1 m2 f2 s : with_vm m1 f1 (with_vm m2 f2 s) = with_vm m1 f1 s.
Proof. done. Qed.

Lemma enter_vm lk mm fl s : with_vm mm fl (enter lk s) = enter lk (with_vm mm fl s).
Proof. done. Qed.

Lemma enter_proc lk f p s : with_proc f p (enter lk s) = enter lk (with_proc f p s).
Proof. done. Qed.

Lemma enter_pid lk s : enter lk s <| nextpid ::= Z.succ |> = enter lk (s <| nextpid ::= Z.succ |>).
Proof. done. Qed.

Lemma with_proc_ext f g p s : (forall q, f q = g q) -> with_proc f p s = with_proc g p s.
Proof. intros Hfg. unfold with_proc. cbn. f_equal. apply list_alter_ext; auto. Qed.

(** Bring a state to the form [enter lk (with_vm mm fl (with_proc f p s))] and
    compare what it does to slot [p]. *)
Ltac slot_norm :=
  rewrite ?enter_pid, ?enter_vm, ?enter_proc;
  repeat (rewrite ?with_proc_vm, ?with_vm_vm, ?with_proc_twice, ?enter_vm, ?enter_proc).

Ltac slot_eq :=
  slot_norm;
  repeat lazymatch goal with
  | |- enter ?lk _ = enter ?lk _ => apply (f_equal (enter lk))
  | |- with_vm ?m ?f _ = with_vm ?m ?f _ => apply (f_equal (with_vm m f))
  | |- left_off _ = left_off _ => apply (f_equal left_off)
  end;
  apply with_proc_ext; intros []; reflexivity.

(** The same by computation. *)
Ltac slot_calc :=
  unfold with_vm, with_proc; cbn; rewrite ?list_alter_alter_eq; reflexivity.

Section procs.
Context `{LK : Linker} `{FS : FsOps}.

Lemma vm_only_proc_pagetable p : vm_only (proc_pagetable p).
Proof. unfold proc_pagetable. vm_solve. Qed.

Lemma vm_only_proc_freepagetable pt sz : vm_only (proc_freepagetable pt sz).
Proof. unfold proc_freepagetable. vm_solve. Qed.

(** What [freeproc] leaves of a slot. *)
Definition freed_slot (pr : proc) : proc := clear_proc (pr <| trapframe := 0 |>).

Lemma freeproc_inv p e s u e' s' :
  nested s -> free_lock s Lkmem -> freeproc p e s = Ret u e' s' ->
  e' = e /\ exists mm fl, s' = with_vm mm fl (with_proc freed_slot p s).
Proof.
  intros Hn Hf H. unfold freeproc in H.
  apply M_bind_inv in H as (pr & e1 & s1 & H1 & H).
  destruct (procs s !! p) as [pr0|] eqn:Hp; [|unfold get_proc in H1; rewrite bindE in H1; cbn [read id] in H1; by rewrite Hp in H1].
  rewrite (get_proc_Ret p e s pr0) in H1 by done. injection H1 as <- <- <-.
  apply M_bind_inv in H as ([] & e2 & s2 & H2 & H).
  apply vm_only_inv in H2 as (-> & m2 & f2 & ->); [|apply vm_only_when, vm_only_kfree|done|done].
  rewrite bindE, (set_proc_with _ p e (with_vm m2 f2 s) pr0) in H by done.
  apply M_bind_inv in H as ([] & e3 & s3 & H3 & H).
  apply vm_only_inv in H3 as (-> & m3 & f3 & ->);
    [|apply vm_only_when, vm_only_proc_freepagetable|done|done].
  rewrite (set_proc_with _ p e _ (pr0 <| trapframe := 0 |>)) in H
    by by apply (lookup_alter_here (fun pr : proc => pr <| trapframe := 0 |>)).
  injection H as <- <- <-. split; [done|]. exists m3, f3.
  slot_eq.
Qed.

(** ** Allocation of a slot *)

Definition unused_key (p : proc) : Z := if bool_decide (state p = UNUSED) then 1 else 0.

(** The first unused slot. *)
Definition first_free (ps : list proc) : option nat := SchedCommon.find_loop unused_key ps 0 1.

Lemma find_unused_loop n k e s :
  (k + n = NPROC)%nat -> table_ready s ->
  for_first (seq k n) find_unused e s =
  match SchedCommon.find_loop unused_key (drop k (procs s)) k 1 with
  | Some i => Ret (Some i) e (enter (Lproc i) s)
  | None => Ret None e (if (n =? 0)%nat then s else left_off s)
  end.
Proof.
  revert k s. induction n as [|n IH]; intros k s Hk Hs.
  - destruct Hs as (_ & Hlen & _). rewrite drop_ge by lia. done.
  - destruct (table_lookup s k Hs ltac:(lia)) as [p Hp].
    assert (Hs' := Hs). destruct Hs' as (Hok & Hlen & Hfree).
    cbn [seq for_first]. rewrite bindE. unfold find_unused at 1.
    rewrite bindE, acquire_Ret by (done || apply Hfree; lia).
    rewrite bindE, (get_proc_Ret k e (enter (Lproc k) s) p) by done.
    rewrite (drop_S _ p k) by done. cbn [SchedCommon.find_loop]. unfold unused_key at 1.
    destruct (bool_decide (state p = UNUSED)); [done|]. change (0 =? 1) with false. cbn match.
    rewrite bindE, release_enter by (done || apply Hfree; lia). cbn [mret M_ret].
    rewrite IH by (lia || by apply table_ready_left_off). change (procs (left_off s)) with (procs s).
    destruct (SchedCommon.find_loop unused_key (drop (S k) (procs s)) (S k) 1).
    + by rewrite enter_left_off.
    + destruct n; cbn [Nat.eqb]; [done|]. by rewrite left_off_idem.
Qed.

Lemma allocpid_nested e s :
  nested s -> free_lock s Lpid -> allocpid e s = Ret (nextpid s) e (s <| nextpid ::= Z.succ |>).
Proof.
  intros Hn Hf. assert (Hok := nested_hart_ok _ Hn). unfold allocpid.
  rewrite bindE, acquire_Ret by done. msimp.
  rewrite (release_from Lpid e _ (s <| nextpid ::= Z.succ |>)) by done.
  rewrite nested_left_off_id by done. done.
Qed.

(** The fields [allocproc] gives to the slot it returns. *)
Definition new_slot (pid_ tf pt : Z) (pr : proc) : proc :=
  pr <| pid := pid_ |> <| state := USED |> <| trapframe := tf |> <| pagetable := pt |>
     <| pcontext := mkContext forkret_entry (kstack pr + PGSIZE) (replicate 12 0) |>.

(** The state [allocproc] returns in: the slot is filled and locked. *)
Definition slot_taken (p : nat) (tf pt : Z) (mm : bytes) (fl : Z) (s : mach) : mach :=
  enter (Lproc p) (with_vm mm fl (with_proc (new_slot (nextpid s) tf pt) p (s <| nextpid ::= Z.succ |>))).

(** The state it returns in when memory runs out: the slot is unused again. *)
Definition slot_returned (p : nat) (g : proc -> proc) (mm : bytes) (fl : Z) (s : mach) : mach :=
  left_off (with_vm mm fl (with_proc (freed_slot ∘ g) p (s <| nextpid ::= Z.succ |>))).

Lemma allocproc_found_inv p e s pr r e' s' :
  hart_ok s -> (forall lk, lk = Lkmem \/ lk = Lpid \/ lk = Lproc p -> free_lock s lk) ->
  procs s !! p = Some pr ->
  allocproc_found p e (enter (Lproc p) s) = Ret r e' s' ->
  e' = e /\
  ((r = Some p /\ exists tf pt mm fl, tf <> 0 /\ pt <> 0 /\ s' = slot_taken p tf pt mm fl s) \/
   (r = None /\ exists g mm fl, s' = slot_returned p g mm fl s)).
Proof.
  intros Hok Hlk Hp H. pose proof (enter_nested (Lproc p) s Hok) as Hn.
  assert (Hfk : free_lock (enter (Lproc p) s) Lkmem) by (apply free_lock_enter; [done|auto]).
  assert (Hfp : free_lock (enter (Lproc p) s) Lpid) by (apply free_lock_enter; [done|auto]).
  assert (Hfpp : free_lock s (Lproc p)) by auto.
  unfold allocproc_found in H. rewrite bindE, allocpid_nested in H by done.
  change (nextpid (enter (Lproc p) s)) with (nextpid s) in H.
  rewrite bindE, (set_proc_with _ p e _ pr) in H by done.
  rewrite bindE, (set_proc_with _ p e _ (pr <| pid := nextpid s |>)) in H
    by by apply (lookup_with_proc (fun pr => pr <| pid := nextpid s |>)).
  apply M_bind_inv in H as (tf & e1 & s1 & H1 & H).
  apply vm_only_inv in H1 as (-> & m1 & f1 & ->); [|apply vm_only_kalloc|done|done].
  rewrite bindE, (set_proc_with _ p e _ (pr <| pid := nextpid s |> <| state := USED |>)) in H.
  2: slot_lookup Hp.
  destruct (Z.eqb_spec tf 0) as [Htf|Htf].
  - apply M_bind_inv in H as ([] & e2 & s2 & H2 & H).
    apply freeproc_inv in H2 as (-> & m2 & f2 & ->); [|done|done].
    rewrite bindE in H.
    rewrite (release_from (Lproc p) e _
      (with_vm m2 f2 (with_proc (freed_slot ∘ ((fun pr : proc => pr <| trapframe := tf |>)
        ∘ ((fun pr : proc => pr <| state := USED |>) ∘ (fun pr : proc => pr <| pid := nextpid s |>)))) p
        (s <| nextpid ::= Z.succ |>)))) in H; [|  |done|done].
    + injection H as <- <- <-. split; [done|]. right. split; [done|]. eexists _, m2, f2. done.
    + slot_eq.
  - apply M_bind_inv in H as (pt & e2 & s2 & H2 & H).
    apply vm_only_inv in H2 as (-> & m2 & f2 & ->); [|apply vm_only_proc_pagetable|done|done].
    set (q := pr <| pid := nextpid s |> <| state := USED |> <| trapframe := tf |>) in *.
    assert (Hq : forall m f, procs (with_vm m f (with_proc (fun pr => pr <| trapframe := tf |>) p
       (with_vm m1 f1 (with_proc (fun pr => pr <| state := USED |>) p
         (with_proc (fun pr => pr <| pid := nextpid s |>) p
           (enter (Lproc p) s <| nextpid ::= Z.succ |>)))))) !! p = Some q).
    { intros m f. slot_lookup Hp. }
    rewrite bindE, (set_proc_with _ p e _ q) in H by apply Hq.
    destruct (Z.eqb_spec pt 0) as [Hpt|Hpt].
    + apply M_bind_inv in H as ([] & e3 & s3 & H3 & H).
      apply freeproc_inv in H3 as (-> & m3 & f3 & ->); [|done|done].
      rewrite bindE in H.
      rewrite (release_from (Lproc p) e _
        (with_vm m3 f3 (with_proc (freed_slot ∘ ((fun pr : proc => pr <| pagetable := pt |>) ∘
          ((fun pr : proc => pr <| trapframe := tf |>)
          ∘ ((fun pr : proc => pr <| state := USED |>) ∘ (fun pr : proc => pr <| pid := nextpid s |>))))) p
          (s <| nextpid ::= Z.succ |>)))) in H; [|  |done|done].
      * injection H as <- <- <-. split; [done|]. right. split; [done|]. eexists _, m3, f3. done.
      * slot_eq.
    + rewrite bindE, (set_proc_with _ p e _ (q <| pagetable := pt |>)) in H.
      2: slot_lookup Hp.
      injection H as <- <- <-. split; [done|]. left. split; [done|]. exists tf, pt, m2, f2.
      split; [done|]. split; [done|]. unfold slot_taken. slot_calc.
Qed.

Lemma sys_ready_left_off s : sys_ready s -> sys_ready (left_off s).
Proof. intros (H1 & H2). split; [by apply table_ready_left_off|done]. Qed.

Lemma enter_left_off_slot p tf pt mm fl s :
  hart_ok s -> slot_taken p tf pt mm fl (left_off s) = slot_taken p tf pt mm fl s.
Proof.
  intros Hok. unfold slot_taken.
  rewrite <- (enter_left_off (Lproc p)
    (with_vm mm fl (with_proc (new_slot (nextpid s) tf pt) p (s <| nextpid ::= Z.succ |>)))) by done.
  reflexivity.
Qed.

(** What [allocproc] does, when it returns. *)
Lemma allocproc_inv e s r e' s' :
  sys_ready s -> allocproc e s = Ret r e' s' ->
  e' = e /\
  match first_free (procs s) with
  | None => r = None /\ s' = left_off s
  | Some p =>
      (r = Some p /\ exists tf pt mm fl, tf <> 0 /\ pt <> 0 /\ s' = slot_taken p tf pt mm fl s) \/
      (r = None /\ exists g mm fl, s' = slot_returned p g mm fl s)
  end.
Proof.
  intros (Ht & Hk & Hpid & _) H. unfold allocproc in H. rewrite bindE in H.
  change proc_table with (seq 0 NPROC) in H. rewrite find_unused_loop in H by done.
  rewrite drop_0 in H. unfold first_free.
  destruct (SchedCommon.find_loop unused_key (procs s) 0 1) as [p|] eqn:Hf.
  - apply SchedCommon.find_loop_first in Hf as (pr & Hp & _ & _).
    assert (Hlt : (p < NPROC)%nat).
    { apply lookup_lt_Some in Hp. destruct Ht as (_ & Hlen & _). lia. }
    destruct Ht as (Hok & Hlen & Hfree).
    apply (allocproc_found_inv p e s pr) in H; try done.
    intros lk [->|[->| ->]]; auto.
  - injection H as <- <- <-. done.
Qed.

Lemma first_free_unused ps p :
  first_free ps = Some p ->
  exists pr, ps !! p = Some pr /\ state pr = UNUSED /\
    forall j q, (j < p)%nat -> ps !! j = Some q -> state q <> UNUSED.
Proof.
  intros (pr & Hp & Hk & Hb)%SchedCommon.find_loop_first. exists pr. split; [done|].
  unfold unused_key in *. split; [by case_bool_decide|].
  intros j q Hj Hq. specialize (Hb j q Hj Hq). by case_bool_decide.
Qed.

(** [allocproc].  With every slot in use it returns 0 and changes
    nothing but interrupt bookkeeping.  When it returns a slot, that is the
    first unused one: it is now USED, with the next process identifier, a
    trapframe and a page table, its lock is held by this hart, and no other
    slot changed.  When it fails for lack of memory the slot is unused
    again and its lock free. *)
Theorem allocproc_slots (e : env) (s : mach) :
  sys_ready s ->
  (first_free (procs s) = None -> allocproc e s = Ret None e (left_off s)) /\
  (forall p e' s', allocproc e s = Ret (Some p) e' s' ->
     exists pr, first_free (procs s) = Some p /\ procs s' !! p = Some pr /\ state pr = USED /\
       pid pr = nextpid s /\ trapframe pr <> 0 /\ pagetable pr <> 0 /\
       nextpid s' = nextpid s + 1 /\ held_by s' (Lproc p) = Some (tp s) /\
       noff (this_cpu s') = noff (this_cpu s) + 1 /\
       (forall j, j <> p -> procs s' !! j = procs s !! j)) /\
  (forall p e' s', first_free (procs s) = Some p -> allocproc e s = Ret None e' s' ->
     (state <$> procs s' !! p) = Some UNUSED /\ locks s' = locks s /\
     (forall j, j <> p -> procs s' !! j = procs s !! j)).
Proof.
  intros Hs. assert (Hs' := Hs). destruct Hs' as (Ht & Hk & Hpid & _). split; [|split].
  - intros Hf. unfold allocproc. rewrite bindE. change proc_table with (seq 0 NPROC).
    rewrite find_unused_loop by done. rewrite drop_0. unfold first_free in Hf. by rewrite Hf.
  - intros p e' s' H. apply allocproc_inv in H as [-> H]; [|done].
    destruct (first_free (procs s)) as [q|] eqn:Hf; [|by destruct H].
    destruct H as [(Hpq & tf & pt & mm & fl & Htf & Hpt & ->)|(? & _)]; [|done].
    simplify_eq. destruct (first_free_unused _ _ Hf) as (pr & Hp & _).
    destruct Ht as ((k & Hcpu & Hok) & Hlen & Hfree).
    exists (new_slot (nextpid s) tf pt pr). split; [done|].
    split; [cbn; by rewrite list_lookup_alter_eq, Hp|].
    do 4 (split; [done|]). split; [cbn; lia|].
    split; [unfold held_by, lock_of; cbn; by rewrite lookup_insert_eq|].
    split.
    + rewrite (this_cpu_Some _ _ Hcpu), (this_cpu_Some _ (push_cpu k)); [cbn; lia|].
      by apply (on_cpu_here push_cpu).
    + intros j Hj. cbn. by rewrite list_lookup_alter_ne.
  - intros p e' s' Hf H. apply allocproc_inv in H as [-> H]; [|done]. rewrite Hf in H.
    destruct H as [(? & _)|(_ & g & mm & fl & ->)]; [done|].
    destruct (first_free_unused _ _ Hf) as (pr & Hp & _).
    split; [cbn; by rewrite list_lookup_alter_eq, Hp|]. split; [done|].
    intros j Hj. cbn. by rewrite list_lookup_alter_ne.
Qed.

(** ** Shared fork *)

(** The slot of the child of [sfork]. *)
Definition sfork_slot (pid_ tf pt : Z) (me : nat) (mp q : proc) : proc :=
  new_slot pid_ tf pt q <| sz := sz mp |> <| pagetable := pagetable mp |> <| parent := Some me |>
    <| state := RUNNABLE |> <| pcontext := pcontext mp |>.

Lemma curproc_nested e s p : nested s -> cur s = Some p -> curproc e s = Ret p e s.
Proof.
  intros Hn Hc. rewrite (curproc_ready e s p) by (done || by apply nested_hart_ok).
  by rewrite nested_left_off_id.
Qed.

Lemma sfork_inv e s me mp r e' s' :
  sys_ready s -> cur s = Some me -> procs s !! me = Some mp -> state mp <> UNUSED ->
  sfork e s = Ret r e' s' ->
  e' = e /\
  (r = -1 \/
   exists p tf pt mm fl, first_free (procs s) = Some p /\ p <> me /\ r = nextpid s /\
     s' = enter (Lproc p) (with_vm mm fl
            (with_proc (sfork_slot (nextpid s) tf pt me mp) p (s <| nextpid ::= Z.succ |>)))).
Proof.
  intros Hs Hcur Hmp Hst H. assert (Hok : hart_ok s) by apply Hs.
  unfold sfork in H. apply M_bind_inv in H as (np & e1 & s1 & H1 & H).
  apply allocproc_inv in H1 as [-> H1]; [|done].
  destruct np as [p|]; [|injection H as <- <- <-; auto].
  destruct (first_free (procs s)) as [q|] eqn:Hf; [|by destruct H1].
  destruct H1 as [(Hpq & tf & pt & mm & fl & Htf & Hpt & ->)|(? & _)]; [|done].
  injection Hpq as ->. destruct (first_free_unused _ _ Hf) as (pr & Hp & Hun & _).
  assert (Hne : q <> me) by (intros ->; congruence).
  assert (Hn : nested (slot_taken q tf pt mm fl s)) by exact (enter_nested (Lproc q) _ Hok).
  assert (Hc1 : cur (slot_taken q tf pt mm fl s) = Some me).
  { unfold slot_taken. rewrite cur_enter by exact Hok. exact Hcur. }
  assert (Hm1 : forall g, procs (with_proc g q (slot_taken q tf pt mm fl s)) !! me = Some mp).
  { intros g. cbn. by rewrite !list_lookup_alter_ne. }
  assert (Hm0 : procs (slot_taken q tf pt mm fl s) !! me = Some mp).
  { cbn. by rewrite list_lookup_alter_ne. }
  assert (Hq0 : procs (slot_taken q tf pt mm fl s) !! q = Some (new_slot (nextpid s) tf pt pr)).
  { cbn. by rewrite list_lookup_alter_eq, Hp. }
  rewrite bindE, (curproc_nested e _ me) in H by done.
  rewrite bindE, (get_proc_Ret me e _ mp) in H by done.
  rewrite bindE, (set_proc_with _ q e _ _ Hq0) in H.
  rewrite bindE, (curproc_nested e _ me) in H by done.
  rewrite bindE, (get_proc_Ret me e _ mp) in H by apply Hm1.
  rewrite bindE, (set_proc_with _ q e _ _ (lookup_with_proc _ _ _ _ Hq0)), with_proc_twice in H.
  rewrite bindE, (curproc_nested e _ me) in H by done.
  rewrite bindE, (set_proc_with _ q e _ _ (lookup_with_proc _ _ _ _ Hq0)), with_proc_twice in H.
  rewrite bindE, (set_proc_with _ q e _ _ (lookup_with_proc _ _ _ _ Hq0)), with_proc_twice in H.
  rewrite bindE, (curproc_nested e _ me) in H by done.
  rewrite bindE, (get_proc_Ret me e _ mp) in H by apply Hm1.
  rewrite bindE, (set_proc_with _ q e _ _ (lookup_with_proc _ _ _ _ Hq0)), with_proc_twice in H.
  rewrite bindE, (get_proc_Ret q e _ _ (lookup_with_proc _ _ _ _ Hq0)) in H.
  injection H as <- <- <-. split; [done|]. right. exists q, tf, pt, mm, fl.
  split; [done|]. split; [done|]. split; [done|].
  unfold slot_taken. slot_eq.
Qed.

(** The shared fork is not usable.  A process that calls [sfork] and
    gets a child back leaves with the lock of the child held and the
    interrupt nesting one deeper: the child, which shares the page table of
    its parent and is marked RUNNABLE, cannot be scheduled, and the next time
    the parent gives up the processor the kernel panics. *)
Theorem sfork_keeps_child_locked (e : env) (s : mach) (me : nat) (mp : proc) (r : Z) (e' : env) (s' : mach) :
  sys_ready s -> cur s = Some me -> procs s !! me = Some mp -> state mp <> UNUSED ->
  noff (this_cpu s) = 0 ->
  sfork e s = Ret r e' s' -> r <> -1 ->
  exists p q, procs s' !! p = Some q /\ p <> me /\ pid q = r /\ r = nextpid s /\
    state q = RUNNABLE /\ parent q = Some me /\ pagetable q = pagetable mp /\ sz q = sz mp /\
    held_by s' (Lproc p) = Some (tp s) /\ noff (this_cpu s') = 1 /\
    (forall e1, exists s1, yield e1 s' = Panic "sched locks" s1).
Proof.
  intros Hs Hcur Hmp Hst Hn0 H Hr. apply (sfork_inv e s me mp) in H as [-> [?|H]]; try done.
  destruct H as (p & tf & pt & mm & fl & Hf & Hne & -> & ->).
  destruct (first_free_unused _ _ Hf) as (pr & Hp & _).
  assert (Hlt : (me < NPROC)%nat).
  { apply lookup_lt_Some in Hmp. destruct Hs as ((_ & Hlen & _) & _). lia. }
  destruct Hs as ((Hok & Hlen & Hfree) & Hrest).
  set (t := with_vm mm fl (with_proc (sfork_slot (nextpid s) tf pt me mp) p (s <| nextpid ::= Z.succ |>))).
  assert (Hokt : hart_ok t) by exact Hok.
  destruct Hok as (k & Hk & Hcok). rewrite (this_cpu_Some _ _ Hk) in Hn0.
  assert (Hk1 : cpus (enter (Lproc p) t) !! tp (enter (Lproc p) t) = Some (push_cpu k))
    by by apply (on_cpu_here push_cpu).
  exists p, (sfork_slot (nextpid s) tf pt me mp pr).
  split; [cbn; by rewrite list_lookup_alter_eq, Hp|].
  do 7 (split; [done|]). split; [unfold held_by, lock_of; cbn; by rewrite lookup_insert_eq|].
  split; [rewrite (this_cpu_Some _ _ Hk1); cbn; lia|].
  intros e1. unfold yield.
  assert (Hcur1 : cur (enter (Lproc p) t) = Some me) by (rewrite cur_enter by done; exact Hcur).
  rewrite bindE, (curproc_nested e1 _ me) by (done || by apply enter_nested).
  assert (Hfree1 : free_lock (enter (Lproc p) t) (Lproc me)).
  { apply free_lock_enter; [congruence|]. exact (Hfree me Hlt). }
  rewrite bindE, acquire_Ret by (done || by apply hart_ok_enter).
  set (u := enter (Lproc me) (enter (Lproc p) t)).
  assert (Hmu : procs u !! me = Some mp) by (cbn; by rewrite list_lookup_alter_ne).
  rewrite bindE, (set_proc_with _ me e1 u mp) by done.
  assert (Hku : cpus u !! tp u = Some (push_cpu (push_cpu k)))
    by exact (on_cpu_here push_cpu _ _ Hk1).
  destruct Hfree1 as [n1 Hn1].
  rewrite bindE, (sched_locks_panic e1 _ me (push_cpu (push_cpu k)) n1).
  - eauto.
  - exact Hku.
  - unfold cur in Hcur. rewrite (this_cpu_Some _ _ Hk) in Hcur. exact Hcur.
  - change (noff (push_cpu (push_cpu k))) with (Z.succ (Z.succ (noff k))). lia.
  - done.
  - cbn. rewrite lookup_insert_eq. unfold held. do 2 f_equal. unfold lock_of. by rewrite Hn1.
Qed.

(** ** Fork *)

Definition with_files (fs : list file) (s : mach) : mach := s <| files := fs |>.

Lemma with_proc_files f p fs s : with_proc f p (with_files fs s) = with_files fs (with_proc f p s).
Proof. done. Qed.

Lemma filedup_inv f e s r e' s' :
  nested s -> free_lock s Lftable -> filedup f e s = Ret r e' s' ->
  r = f /\ e' = e /\ exists fs, s' = with_files fs s.
Proof.
  intros Hn Hf H. assert (Hok := nested_hart_ok _ Hn).
  destruct (files s !! f) as [fl|] eqn:Hfl.
  - rewrite (filedup_Ret f e s fl) in H by done. case_match; [done|]. injection H as <- <- <-.
    split; [done|]. split; [done|]. eexists. rewrite nested_left_off_id by done. reflexivity.
  - unfold filedup in H. rewrite bindE, acquire_Ret in H by done. rewrite bindE in H.
    unfold get_file in H. rewrite bindE in H. cbn [read id] in H.
    change (files (enter Lftable s)) with (files s) in H. by rewrite Hfl in H.
Qed.

Lemma dup_files_inv np i l e s u e' s' q :
  nested s -> free_lock s Lftable -> procs s !! np = Some q ->
  dup_files np i l e s = Ret u e' s' ->
  e' = e /\ exists fs g, s' = with_files fs (with_proc (fun q => q <| ofile ::= g |>) np s).
Proof.
  revert i s q. induction l as [|f l IH]; intros i s q Hn Hf Hq H.
  - injection H as <- <- <-. split; [done|]. exists (files s), id.
    unfold with_files, with_proc. destruct s. cbn. rewrite list_alter_id; [done|]. by intros [].
  - cbn [dup_files] in H. destruct f as [f|].
    + rewrite bindE in H. rewrite bindE in H.
      destruct (filedup f e s) as [a e1 s1| | | | |] eqn:Hd; try done.
      apply filedup_inv in Hd as (-> & -> & fs & ->); [|done..].
      rewrite (set_proc_with _ np e _ q) in H by done.
      set (g1 := fun q : proc => q <| ofile ::= <[i := Some f]> |>) in *.
      apply (IH _ _ (g1 q)) in H as (-> & fs' & g & ->).
      * split; [done|]. exists fs', (g ∘ <[i := Some f]>). unfold with_files. slot_calc.
      * done.
      * done.
      * by apply (lookup_with_proc g1).
    + rewrite bindE in H. cbn [mret M_ret] in H. by eapply IH.
Qed.

(** The law of the file system [fork] relies on: when [idup] returns, it is
    with the inode it is given, and it has changed the inode table only. *)
Definition with_inodes (l : list inode) (s : mach) : mach := s <| inodes := l |>.

Class IdupLaw : Prop := idup_inv : forall i e s r e' s',
  nested s -> free_lock s Litable -> idup i e s = Ret r e' s' -> r = i /\ e' = e /\ exists l, s' = with_inodes l s.

Lemma with_proc_inodes f p il s : with_proc f p (with_inodes il s) = with_inodes il (with_proc f p s).
Proof. done. Qed.

Context {Hidup : IdupLaw}.

(** The slot of the child after [fork]. *)
Definition fork_slot (pid_ tf pt : Z) (g : list (option nat) -> list (option nat)) (p : nat)
    (pr q : proc) : proc :=
  new_slot pid_ tf pt q <| sz := sz pr |> <| ofile ::= g |> <| cwd := cwd pr |>
    <| name ::= fun n => safestrcpy n 0 (name pr) 0 16 |> <| parent := Some p |>
    <| state := RUNNABLE |>.

(** The end of [fork]: publish the child. *)
Lemma fork_publish np p (pid_ : Z) (e : env) (s : mach) (q : proc) :
  sys_ready s -> (np < NPROC)%nat -> procs s !! np = Some q ->
  (release (Lproc np);;
   acquire Lwait;;
   set_proc np (fun q => q <| parent := Some p |>);;
   release Lwait;;
   acquire (Lproc np);;
   set_proc np (fun q => q <| state := RUNNABLE |>);;
   release (Lproc np);;
   mret pid_) e (enter (Lproc np) s) =
  Ret pid_ e (left_off (with_proc (fun q => q <| parent := Some p |> <| state := RUNNABLE |>) np s)).
Proof.
  intros ((Hok & Hlen & Hfree) & _ & _ & Hw & _) Hlt Hq. specialize (Hfree np Hlt).
  rewrite bindE, release_enter by done.
  rewrite bindE, acquire_Ret by (done || by apply hart_ok_left_off).
  rewrite enter_left_off by done.
  rewrite bindE, (set_proc_with _ np e (enter Lwait s) q) by done.
  rewrite bindE. set (g1 := fun q : proc => q <| parent := Some p |>).
  rewrite (release_from Lwait e _ (with_proc g1 np s)) by done.
  rewrite bindE, acquire_Ret by (done || by apply hart_ok_left_off).
  rewrite enter_left_off by done.
  rewrite bindE, (set_proc_with _ np e (enter (Lproc np) (with_proc g1 np s)) (g1 q))
    by by apply (lookup_with_proc g1).
  rewrite bindE, (release_from (Lproc np) e _
    (with_proc (fun q => q <| parent := Some p |> <| state := RUNNABLE |>) np s)); [done| |done|done].
  slot_eq.
Qed.

Lemma fork_inv e s p pr r e' s' :
  sys_ready s -> cur s = Some p -> procs s !! p = Some pr -> state pr <> UNUSED ->
  fork e s = Ret r e' s' ->
  e' = e /\
  ((first_free (procs s) = None /\ r = -1 /\ s' = left_off s) \/
   (exists np mm fl, first_free (procs s) = Some np /\ r = -1 /\ exists h,
      s' = left_off (with_vm mm fl (with_proc (freed_slot ∘ h) np (s <| nextpid ::= Z.succ |>)))) \/
   (exists np tf pt g mm fl fs il, first_free (procs s) = Some np /\ np <> p /\ r = nextpid s /\
      s' = left_off (with_inodes il (with_files fs (with_vm mm fl
             (with_proc (fork_slot (nextpid s) tf pt g p pr) np (s <| nextpid ::= Z.succ |>))))))).
Proof.
  intros Hs Hcur Hp Hst H. assert (Hok : hart_ok s) by apply Hs.
  unfold fork in H. rewrite bindE, (curproc_ready e s p) in H by done.
  apply M_bind_inv in H as (np & e1 & s1 & H1 & H).
  apply allocproc_inv in H1 as [-> H1]; [|by apply sys_ready_left_off].
  change (procs (left_off s)) with (procs s) in H1.
  destruct (first_free (procs s)) as [q|] eqn:Hf.
  2: { destruct H1 as [-> ->]. injection H as <- <- <-. split; [done|]. left.
       by rewrite left_off_idem. }
  destruct (first_free_unused _ _ Hf) as (qr & Hq & Hun & _).
  assert (Hne : q <> p) by (intros ->; congruence).
  assert (Hlt : (q < NPROC)%nat).
  { apply lookup_lt_Some in Hq. destruct Hs as ((_ & Hlen & _) & _). lia. }
  assert (Hfq : free_lock s (Lproc q)) by (destruct Hs as ((_ & _ & Hfr) & _); auto).
  assert (Hs' := Hs). destruct Hs' as (_ & Hfk & _ & _ & Hff & Hfi).
  destruct H1 as [(-> & tf & pt & mm & fl & Htf & Hpt & ->)|(-> & g & mm & fl & ->)].
  2: { injection H as <- <- <-. split; [done|]. right. left. exists q, mm, fl.
       split; [done|]. split; [done|]. exists g.
       set (x := with_vm mm fl (with_proc (freed_slot ∘ g) q (s <| nextpid ::= Z.succ |>))).
       change (slot_returned q g mm fl (left_off s)) with (left_off (left_off x)).
       by apply left_off_idem. }
  rewrite enter_left_off_slot in H by done. unfold slot_taken in H.
  set (t0 := with_vm mm fl (with_proc (new_slot (nextpid s) tf pt) q (s <| nextpid ::= Z.succ |>))) in *.
  assert (Hokt : forall t, cpus t = cpus s -> tp t = tp s -> hart_ok t).
  { intros t H1 H2. unfold hart_ok. by rewrite H1, H2. }
  assert (Hp0 : procs t0 !! p = Some pr) by (cbn; by rewrite list_lookup_alter_ne).
  assert (Hq0 : procs t0 !! q = Some (new_slot (nextpid s) tf pt qr))
    by (cbn; by rewrite list_lookup_alter_eq, Hq).
  rewrite bindE, (get_proc_Ret p e (enter (Lproc q) t0) pr) in H by done.
  rewrite bindE, (get_proc_Ret q e (enter (Lproc q) t0) _ Hq0) in H.
  assert (Hnest : forall t, cpus t = cpus s -> tp t = tp s -> nested (enter (Lproc q) t))
    by (intros t H1 H2; apply enter_nested, Hokt; done).
  assert (Hkm : forall t, locks t = locks s -> free_lock (enter (Lproc q) t) Lkmem).
  { intros t Ht. apply free_lock_enter; [done|]. unfold free_lock. by rewrite Ht. }
  assert (Hft : forall t, locks t = locks s -> free_lock (enter (Lproc q) t) Lftable).
  { intros t Ht. apply free_lock_enter; [done|]. unfold free_lock. by rewrite Ht. }
  assert (Hit : forall t, locks t = locks s -> free_lock (enter (Lproc q) t) Litable).
  { intros t Ht. apply free_lock_enter; [done|]. unfold free_lock. by rewrite Ht. }
  apply M_bind_inv in H as (rc & e2 & s2 & H2 & H).
  apply vm_only_inv in H2 as (-> & m2 & f2 & ->); [|apply vm_only_uvmcopy|by apply Hnest|by apply Hkm].
  change (with_vm m2 f2 (enter (Lproc q) t0)) with (enter (Lproc q) (with_vm m2 f2 t0)) in H.
  destruct (rc <? 0).
  - apply M_bind_inv in H as ([] & e3 & s3 & H3 & H).
    apply freeproc_inv in H3 as (-> & m3 & f3 & ->); [|by apply Hnest|by apply Hkm].
    rewrite bindE, (release_from (Lproc q) e _ (with_vm m3 f3 (with_proc freed_slot q t0))) in H;
      [|done|by apply Hokt|done].
    injection H as <- <- <-. split; [done|]. right. left. exists q, m3, f3. split; [done|].
    split; [done|]. exists (new_slot (nextpid s) tf pt). unfold t0. slot_eq.
  - rewrite bindE, (set_proc_with _ q e _ (new_slot (nextpid s) tf pt qr)) in H by done.
    apply M_bind_inv in H as ([] & e3 & s3 & H3 & H).
    apply vm_only_inv in H3 as (-> & m3 & f3 & ->);
      [|apply (vm_only_modify_mem (fun m => memmove m _ _ TF_SIZE))
       |exact (Hnest (with_vm m2 f2 t0) eq_refl eq_refl)|exact (Hkm t0 eq_refl)].
    apply M_bind_inv in H as ([] & e4 & s4 & H4 & H).
    apply vm_only_inv in H4 as (-> & m4 & f4 & ->);
      [|apply vm_only_store_word|exact (Hnest t0 eq_refl eq_refl)|exact (Hkm t0 eq_refl)].
    apply M_bind_inv in H as ([] & e5 & s5 & H5 & H).
    set (t1 := with_vm m4 f4 (with_proc (fun q => q <| sz := sz pr |>) q t0)).
    assert (Hq1 : procs t1 !! q = Some (new_slot (nextpid s) tf pt qr <| sz := sz pr |>)).
    { unfold t1, t0. slot_lookup Hq. }
    destruct (dup_files_inv q 0 (ofile pr) e (enter (Lproc q) t1) () e5 s5 _
      (Hnest t1 eq_refl eq_refl) (Hft t1 eq_refl) Hq1 H5) as (-> & fs & g & ->).
    apply M_bind_inv in H as (c & e6 & s6 & H6 & H).
    set (t1' := with_files fs (with_proc (fun q => q <| ofile ::= g |>) q t1)).
    apply idup_inv in H6 as (-> & -> & il & ->); [|exact (Hnest t1' eq_refl eq_refl)|exact (Hit t1' eq_refl)].
    set (t2 := with_inodes il t1').
    change (with_inodes il (with_files fs (with_proc (fun q => q <| ofile ::= g |>) q (enter (Lproc q) t1))))
      with (enter (Lproc q) t2) in H.
    assert (Hq2 : procs t2 !! q = Some (new_slot (nextpid s) tf pt qr <| sz := sz pr |> <| ofile ::= g |>)).
    { unfold t2, t1', t1, t0, with_inodes, with_files. slot_lookup Hq. }
    rewrite bindE, (set_proc_with _ q e (enter (Lproc q) t2) _ Hq2) in H.
    rewrite bindE, (set_proc_with _ q e _ _ (lookup_with_proc _ _ (enter (Lproc q) t2) _ Hq2)), with_proc_twice in H.
    rewrite bindE, (get_proc_Ret q e _ _ (lookup_with_proc _ _ (enter (Lproc q) t2) _ Hq2)) in H.
    set (t3 := with_proc ((fun q : proc => q <| name ::= fun n => safestrcpy n 0 (name pr) 0 16 |>)
      ∘ (fun q : proc => q <| cwd := cwd pr |>)) q t2).
    change (with_proc _ q (enter (Lproc q) t2)) with (enter (Lproc q) t3) in H.
    assert (Hq3 : exists q3, procs t3 !! q = Some q3)
      by (eexists; apply (lookup_with_proc _ _ t2 _ Hq2)).
    destruct Hq3 as [q3 Hq3]. rewrite (fork_publish q p _ e t3 q3) in H; [| |done|exact Hq3].
    + injection H as <- <- <-. split; [done|]. right. right. exists q, tf, pt, g, m4, f4, fs, il.
      split; [done|]. split; [done|]. split; [done|]. apply (f_equal left_off).
      unfold t3, t2, t1', t1, t0.
      rewrite ?with_proc_inodes, ?with_proc_files. slot_norm.
      apply (f_equal (with_inodes il)), (f_equal (with_files fs)), (f_equal (with_vm m4 f4)), with_proc_ext. by intros [].
    + destruct Hs as ((H1 & H2 & H3) & H4). split; [|exact H4]. split; [exact H1|]. split; [|exact H3].
      unfold t3, t2, t1', t1, t0. cbn. by rewrite !length_alter.
Qed.

Lemma left_off_cpu s :
  hart_ok s -> noff (this_cpu (left_off s)) = noff (this_cpu s) /\
               sie (this_cpu (left_off s)) = sie (this_cpu s).
Proof.
  intros (k & Hk & Hok). unfold left_off.
  rewrite (this_cpu_Some _ _ (on_cpu_here _ _ _ Hk)), (this_cpu_Some _ _ Hk).
  by apply pop_push_same.
Qed.

Lemma left_off_cpu_of t s :
  hart_ok s -> cpus t = cpus s -> tp t = tp s ->
  noff (this_cpu (left_off t)) = noff (this_cpu s) /\ sie (this_cpu (left_off t)) = sie (this_cpu s).
Proof.
  intros Hok H1 H2. assert (Ht : hart_ok t) by (unfold hart_ok; by rewrite H1, H2).
  destruct (left_off_cpu t Ht) as [-> ->]. unfold this_cpu. by rewrite H1, H2.
Qed.


End procs.

(** ** A machine with free memory *)

Definition eight_pages : Linker :=
  {| kernel_end := PHYSTOP - 8 * PGSIZE; etext := KERNBASE; trampoline := KERNBASE;
     forkret_entry := KERNBASE |}.

(** [machine0] after [kinit]. *)
Definition machine_mem : mach :=
  match @kinit eight_pages 9 [] machine0 with Ret _ _ s => s | _ => machine0 end.

Lemma machine_mem_ready : sys_ready machine_mem.
Proof.
  split; [split; [|split]|].
  - eexists. split; [vm_compute; reflexivity|]. vm_compute. split; done.
  - vm_compute. reflexivity.
  - apply table_locks_free. vm_compute. reflexivity.
  - repeat split; apply is_free_sound; vm_compute; reflexivity.
Qed.

#[global] Instance no_fs_idup : @IdupLaw no_fs.
Proof. intros i e s r e' s' _ _ [= <- <- <-]. split; [done|]. split; [done|]. exists (inodes s). by destruct s. Qed.


(** The same machine hands out slot 3 with identifier 4. *)
Lemma allocproc_slots_witness :
  exists s' pr, @allocproc eight_pages [] machine_mem = Ret (Some 3%nat) [] s' /\
    procs s' !! 3%nat = Some pr /\ state pr = USED /\ pid pr = 4.
Proof.
  destruct (@allocproc_slots eight_pages [] machine_mem machine_mem_ready) as (_ & H & _).
  assert (Hc : match @allocproc eight_pages [] machine_mem with
               | Ret (Some p) [] _ => (p =? 3)%nat | _ => false end = true) by (vm_compute; reflexivity).
  destruct (@allocproc eight_pages [] machine_mem) as [[p|] [|] s'| | | | |] eqn:E; try discriminate Hc.
  apply Nat.eqb_eq in Hc. subst p.
  destruct (H _ _ _ eq_refl) as (pr & _ & H1 & H2 & H3 & _).
  exists s', pr. split; [reflexivity|]. split; [exact H1|]. split; [exact H2|].
  rewrite H3. vm_compute. reflexivity.
Defined.

Lemma sfork_keeps_child_locked_witness :
  exists r s' p q, @sfork eight_pages [] machine_mem = Ret r [] s' /\ r = 4 /\
    procs s' !! p = Some q /\ state q = RUNNABLE /\
    held_by s' (Lproc p) = Some 0%nat /\ exists s1, yield [] s' = Panic "sched locks" s1.
Proof.
  assert (Hc : match @sfork eight_pages [] machine_mem with
               | Ret r [] _ => r =? 4 | _ => false end = true) by (vm_compute; reflexivity).
  destruct (@sfork eight_pages [] machine_mem) as [r [|] s'| | | | |] eqn:E; try discriminate Hc.
  apply Z.eqb_eq in Hc.
  destruct (@sfork_keeps_child_locked eight_pages [] machine_mem 0 running r [] s' machine_mem_ready)
    as (p & q & H1 & _ & _ & _ & H2 & _ & _ & _ & H3 & _ & H4);
    [vm_compute; reflexivity|vm_compute; reflexivity|vm_compute; discriminate
    |vm_compute; reflexivity|exact E|lia|].
  exists r, s', p, q. split; [reflexivity|]. split; [exact Hc|]. split; [exact H1|].
  split; [exact H2|]. split; [exact H3|]. apply H4.
Defined.
