(* ===== verification/Fs.v ===== *)
(** * Inodes, directories and paths

    Model of [kernel/fs.c].  Blocks are lists of bytes; the structures on
    them ([struct dinode], [struct dirent], arrays of block numbers, the free
    map) are fields at their offsets.  An inode pointer is an index into the
    inode table, [None] for the null pointer.  The sleep lock of inode [i] is
    sleep lock [NBUF + i]. *)
From stdpp Require Import base tactics list numbers gmap strings.
From S2P Require Import Prelude Machine Spinlock Sched Sleeplock Blocks Bio Log Vm File Proc.

Open Scope Z_scope.

(** ** The disk layout: [kernel/fs.h], [kernel/stat.h] *)

Definition ROOTINO : Z := 1.
Definition FSMAGIC : Z := 0x10203040.
Definition NDIRECT : nat := 12.
Definition NINDIRECT : nat := 256.
Definition MAXFILE : Z := Z.of_nat NDIRECT + Z.of_nat NINDIRECT.
Definition IPB : Z := BSIZE / 64.
Definition BPB : Z := BSIZE * 8.
Definition DIRSIZ : nat := 14.
Definition DIRENT : Z := 16.
Definition T_DIR : Z := 1.
Definition T_FILE : Z := 2.
Definition T_DEVICE : Z := 3.

Definition IBLOCK (i : Z) (sb : superblock) : Z := u32 (i / IPB + inodestart sb).
Definition BBLOCK (b : Z) (sb : superblock) : Z := u32 (b / BPB + bmapstart sb).

(** Offset of the [struct dinode] of inode [i] in its block. *)
Definition dinode_off (i : Z) : nat := (64 * Z.to_nat (i mod IPB))%nat.

Definition get_short (d : list Z) (off : nat) : Z := i16 (get_word 2 d off).
Definition byte_at (d : list Z) (i : nat) : Z := default 0 (d !! i).

(** [dip->type] and the other fields of the [struct dinode] at [o]. *)
Definition di_type (d : list Z) (o : nat) : Z := get_short d o.
Definition di_addrs (d : list Z) (o : nat) : list Z :=
  (fun j => get_word 4 d (o + 12 + 4 * j)) <$> seq 0 (S NDIRECT).

Definition put_addrs (d : list Z) (o : nat) (l : list Z) : list Z :=
  put_bytes d (o + 12) (concat (le_bytes 4 <$> l)).

Definition put_dinode (ip : inode) (o : nat) (d : list Z) : list Z :=
  put_addrs
    (put_word 4 (put_word 2 (put_word 2 (put_word 2 (put_word 2 d o (itype ip))
      (o + 2) (imajor ip)) (o + 4) (iminor ip)) (o + 6) (nlink ip)) (o + 8) (isize ip))
    o (addrs ip).

Definition get_dinode (d : list Z) (o : nat) (ip : inode) : inode :=
  ip <| itype := di_type d o |> <| imajor := get_short d (o + 2) |> <| iminor := get_short d (o + 4) |>
    <| nlink := get_short d (o + 6) |> <| isize := get_word 4 d (o + 8) |> <| addrs := di_addrs d o |>.

(** [printf] of a fixed message. *)
Definition print (msg : string) : M unit := modify (fun s => s <| console ::= cons msg |>).

Definition get_inode (i : nat) : M inode := s ← read id; or_fault (inodes s !! i).
Definition set_inode (i : nat) (f : inode -> inode) : M unit :=
  _ ← get_inode i; modify (fun s => s <| inodes ::= alter f i |>).
Definition ilockid (i : nat) : nat := (NBUF + i)%nat.

Section fs.
Context `{DK : Disk} (fuel : nat).

Definition set_data (n : nat) (f : list Z -> list Z) : M unit :=
  set_buf n (fun b => b <| bdata ::= f |>).

(** ** The super block *)

Definition readsb (dev : Z) : M superblock :=
  bp ← bread fuel dev 1;
  b ← get_buf bp;
  let w i := get_word 4 (bdata b) (4 * i) in
  brelse bp;;
  mret (mkSuperblock (w 0%nat) (w 1%nat) (w 2%nat) (w 3%nat) (w 4%nat) (w 5%nat) (w 6%nat) (w 7%nat)).

Definition fsinit (dev : Z) : M unit :=
  sb1 ← readsb dev;
  modify (fun s => s <| sb := sb1 |>);;
  if negb (magic sb1 =? FSMAGIC) then panic "invalid file system"%string
  else initlog fuel dev sb1.

(** ** Blocks *)

Definition bzero (dev bno : Z) : M unit :=
  bp ← bread fuel dev bno;
  set_data bp (fun _ => replicate (Z.to_nat BSIZE) 0);;
  log_write bp;;
  brelse bp.

(** [1 << (bi % 8)]; the byte of the map is [bi / 8]. *)
Definition bit (bi : Z) : Z := Z.shiftl 1 (bi mod 8).
Definition map_byte (bi : Z) : nat := Z.to_nat (bi / 8).

Definition balloc_bit (dev b : Z) (bp : nat) (k : nat) : M (option Z) :=
  let bi := Z.of_nat k in
  d ← get_buf bp;
  if Z.land (byte_at (bdata d) (map_byte bi)) (bit bi) =? 0 then
    set_data bp (fun d => <[map_byte bi := Z.lor (byte_at d (map_byte bi)) (bit bi)]> d);;
    log_write bp;;
    brelse bp;;
    bzero dev (b + bi);;
    mret (Some (b + bi))
  else mret None.

(** The body of the outer loop; [bi] runs while [bi < BPB && b + bi < sb.size]. *)
Definition balloc_block (dev : Z) (j : nat) : M (option Z) :=
  let b := Z.of_nat j * BPB in
  s ← read sb;
  bp ← bread fuel dev (BBLOCK b s);
  r ← for_first (seq 0 (Z.to_nat (Z.min BPB (fssize s - b)))) (balloc_bit dev b bp);
  match r with
  | Some a => mret (Some a)
  | None => brelse bp;; mret None
  end.

Definition balloc (dev : Z) : M Z :=
  s ← read sb;
  r ← for_first (seq 0 (Z.to_nat ((fssize s + BPB - 1) / BPB))) (balloc_block dev);
  match r with
  | Some a => mret a
  | None => print "balloc: out of blocks"%string;; mret 0
  end.

Definition bfree (dev b : Z) : M unit :=
  s ← read sb;
  bp ← bread fuel dev (BBLOCK b s);
  let bi := b mod BPB in
  d ← get_buf bp;
  if Z.land (byte_at (bdata d) (map_byte bi)) (bit bi) =? 0 then panic "freeing free block"%string
  else
    set_data bp (fun d => <[map_byte bi := Z.land (byte_at d (map_byte bi)) (Z.lnot (bit bi))]> d);;
    log_write bp;;
    brelse bp.

(** ** Inodes *)

Definition iinit : M unit :=
  initlock Litable "itable";;
  for_each (seq 0 NINODE) (fun i => initsleeplock (ilockid i) "inode").

(** The loop of [iget]: the entry found, or the first empty one. *)
Fixpoint iget_scan (dev inum_ : Z) (l : list nat) (empty : option nat) : M (nat + option nat) :=
  match l with
  | [] => mret (inr empty)
  | i :: l =>
      ip ← get_inode i;
      if (0 <? iref ip) && (idev ip =? dev) && (inum ip =? inum_) then
        set_inode i (fun ip => ip <| iref := iref ip + 1 |>);;
        release Litable;;
        mret (inl i)
      else
        iget_scan dev inum_ l
          (match empty with Some _ => empty | None => if iref ip =? 0 then Some i else None end)
  end.

Definition iget (dev inum_ : Z) : M nat :=
  acquire Litable;;
  r ← iget_scan dev inum_ (seq 0 NINODE) None;
  match r with
  | inl i => mret i
  | inr None => panic "iget: no inodes"%string
  | inr (Some i) =>
      set_inode i (fun ip => ip <| idev := dev |> <| inum := inum_ |> <| iref := 1 |> <| ivalid := 0 |>);;
      release Litable;;
      mret i
  end.

Definition ialloc_body (dev type : Z) (k : nat) : M (option nat) :=
  let inum_ := Z.of_nat k in
  s ← read sb;
  bp ← bread fuel dev (IBLOCK inum_ s);
  d ← get_buf bp;
  let o := dinode_off inum_ in
  if di_type (bdata d) o =? 0 then
    set_data bp (fun d => put_bytes d o (replicate 64 0));;
    set_data bp (fun d => put_word 2 d o type);;
    log_write bp;;
    brelse bp;;
    i ← iget dev inum_;
    mret (Some i)
  else brelse bp;; mret None.

Definition ialloc (dev type : Z) : M (option nat) :=
  s ← read sb;
  r ← for_first (seq 1 (Z.to_nat (ninodes s) - 1)) (ialloc_body dev type);
  match r with
  | Some i => mret (Some i)
  | None => print "ialloc: no inodes"%string;; mret None
  end.

Definition iupdate (i : nat) : M unit :=
  ip ← get_inode i;
  s ← read sb;
  bp ← bread fuel (idev ip) (IBLOCK (inum ip) s);
  set_data bp (put_dinode ip (dinode_off (inum ip)));;
  log_write bp;;
  brelse bp.

Definition idup (ip : option nat) : M (option nat) :=
  acquire Litable;;
  i ← or_fault ip;
  set_inode i (fun ip => ip <| iref := iref ip + 1 |>);;
  release Litable;;
  mret ip.

Definition ilock (ip : option nat) : M unit :=
  match ip with
  | None => panic "ilock"%string
  | Some i =>
      p ← get_inode i;
      if iref p <? 1 then panic "ilock"%string
      else
        acquiresleep fuel (ilockid i);;
        p ← get_inode i;
        if ivalid p =? 0 then
          s ← read sb;
          bp ← bread fuel (idev p) (IBLOCK (inum p) s);
          b ← get_buf bp;
          set_inode i (get_dinode (bdata b) (dinode_off (inum p)));;
          brelse bp;;
          set_inode i (fun p => p <| ivalid := 1 |>);;
          p ← get_inode i;
          if itype p =? 0 then panic "ilock: no type"%string else mret tt
        else mret tt
  end.

Definition iunlock (ip : option nat) : M unit :=
  match ip with
  | None => panic "iunlock"%string
  | Some i =>
      h ← holdingsleep (ilockid i);
      if negb h then panic "iunlock"%string
      else
        p ← get_inode i;
        if iref p <? 1 then panic "iunlock"%string
        else releasesleep (ilockid i)
  end.

(** ** Inode content *)

Definition bmap (i : nat) (bn : Z) : M Z :=
  p ← get_inode i;
  if bn <? Z.of_nat NDIRECT then
    addr ← or_fault (addrs p !! Z.to_nat bn);
    if addr =? 0 then
      addr ← balloc (idev p);
      if addr =? 0 then mret 0
      else set_inode i (fun p => p <| addrs ::= <[Z.to_nat bn := addr]> |>);; mret addr
    else mret addr
  else
    let bn := bn - Z.of_nat NDIRECT in
    if bn <? Z.of_nat NINDIRECT then
      addr ← or_fault (addrs p !! NDIRECT);
      addr ← (if addr =? 0 then
                addr ← balloc (idev p);
                when (negb (addr =? 0)) (set_inode i (fun p => p <| addrs ::= <[NDIRECT := addr]> |>));;
                mret addr
              else mret addr);
      if addr =? 0 then mret 0
      else
        bp ← bread fuel (idev p) addr;
        b ← get_buf bp;
        let addr := get_word 4 (bdata b) (4 * Z.to_nat bn) in
        addr ← (if addr =? 0 then
                  addr ← balloc (idev p);
                  when (negb (addr =? 0))
                    (set_data bp (fun d => put_word 4 d (4 * Z.to_nat bn) addr);;
                     log_write bp);;
                  mret addr
                else mret addr);
        brelse bp;;
        mret addr
    else panic "bmap: out of range"%string.

Definition itrunc_direct (i k : nat) : M unit :=
  p ← get_inode i;
  addr ← or_fault (addrs p !! k);
  when (negb (addr =? 0))
    (bfree (idev p) addr;;
     set_inode i (fun p => p <| addrs ::= <[k := 0]> |>)).

Definition itrunc_indirect (i bp j : nat) : M unit :=
  p ← get_inode i;
  b ← get_buf bp;
  let addr := get_word 4 (bdata b) (4 * j) in
  when (negb (addr =? 0)) (bfree (idev p) addr).

Definition itrunc (i : nat) : M unit :=
  for_each (seq 0 NDIRECT) (itrunc_direct i);;
  p ← get_inode i;
  addr ← or_fault (addrs p !! NDIRECT);
  when (negb (addr =? 0))
    (bp ← bread fuel (idev p) addr;
     for_each (seq 0 NINDIRECT) (itrunc_indirect i bp);;
     brelse bp;;
     bfree (idev p) addr;;
     set_inode i (fun p => p <| addrs ::= <[NDIRECT := 0]> |>));;
  set_inode i (fun p => p <| isize := 0 |>);;
  iupdate i.

Definition iput (ip : option nat) : M unit :=
  acquire Litable;;
  i ← or_fault ip;
  p ← get_inode i;
  when ((iref p =? 1) && negb (ivalid p =? 0) && (nlink p =? 0))
    (acquiresleep fuel (ilockid i);;
     release Litable;;
     itrunc i;;
     set_inode i (fun p => p <| itype := 0 |>);;
     iupdate i;;
     set_inode i (fun p => p <| ivalid := 0 |>);;
     releasesleep (ilockid i);;
     acquire Litable);;
  set_inode i (fun p => p <| iref := iref p - 1 |>);;
  release Litable.

Definition iunlockput (ip : option nat) : M unit :=
  iunlock ip;;
  iput ip.

(** The bytes of the [struct stat]; four bytes of padding follow [nlink]. *)
Definition stati (i : nat) : M (list Z) :=
  p ← get_inode i;
  mret (le_bytes 4 (idev p) ++ le_bytes 4 (inum p) ++ le_bytes 2 (itype p) ++ le_bytes 2 (nlink p) ++
        replicate 4 0 ++ le_bytes 8 (isize p)).

(** The loop of [readi]; [copy tot d] copies [d] to offset [tot] of the
    destination and returns -1 on failure.  The state is [tot], [off] and the
    bytes copied so far. *)
Definition readi_step (copy : Z -> list Z -> M Z) (i : nat) (n : Z) (st : Z * Z * list Z) :
    M (Z * Z * list Z + Z * list Z) :=
  let '(tot, off, acc) := st in
  if tot <? n then
    addr ← bmap i (off / BSIZE);
    if addr =? 0 then mret (inr (tot, acc))
    else
      p ← get_inode i;
      bp ← bread fuel (idev p) addr;
      let m := Z.min (n - tot) (BSIZE - off mod BSIZE) in
      b ← get_buf bp;
      let d := get_bytes (bdata b) (Z.to_nat (off mod BSIZE)) (Z.to_nat m) in
      r ← copy tot d;
      brelse bp;;
      if r =? -1 then mret (inr (-1, acc))
      else mret (inl (u32 (tot + m), u32 (off + m), acc ++ d))
  else mret (inr (tot, acc)).

Definition readi_with (copy : Z -> list Z -> M Z) (i : nat) (off n : Z) : M (Z * list Z) :=
  p ← get_inode i;
  if (isize p <? off) || (u32 (off + n) <? off) then mret (0, [])
  else
    let n := if isize p <? u32 (off + n) then isize p - off else n in
    loop fuel (readi_step copy i n) (0, off, []).

Definition readi (i : nat) (user_dst : bool) (dst off n : Z) : M Z :=
  r ← readi_with (fun tot d => either_copyout user_dst (u64 (dst + tot)) d) i off n;
  mret (i32 (fst r)).

(** [readi] into a variable of the caller: the bytes it is given. *)
Definition readi_local (i : nat) (off n : Z) : M (Z * list Z) := readi_with (fun _ _ => mret 0) i off n.

(** The loop of [writei]; [fetch tot m] gives [m] bytes at offset [tot] of the
    source, with the return value and the bytes that were copied. *)
Definition writei_step (fetch : Z -> Z -> M (Z * list Z)) (i : nat) (n : Z) (st : Z * Z) : M (Z * Z + Z * Z) :=
  let '(tot, off) := st in
  if tot <? n then
    addr ← bmap i (off / BSIZE);
    if addr =? 0 then mret (inr (tot, off))
    else
      p ← get_inode i;
      bp ← bread fuel (idev p) addr;
      let m := Z.min (n - tot) (BSIZE - off mod BSIZE) in
      r ← fetch tot m;
      set_data bp (fun d => put_bytes d (Z.to_nat (off mod BSIZE)) (snd r));;
      if fst r =? -1 then brelse bp;; mret (inr (tot, off))
      else
        log_write bp;;
        brelse bp;;
        mret (inl (u32 (tot + m), u32 (off + m)))
  else mret (inr (tot, off)).

Definition writei_with (fetch : Z -> Z -> M (Z * list Z)) (i : nat) (off n : Z) : M Z :=
  p ← get_inode i;
  if (isize p <? off) || (u32 (off + n) <? off) then mret (-1)
  else if MAXFILE * BSIZE <? u32 (off + n) then mret (-1)
  else
    r ← loop fuel (writei_step fetch i n) (0, off);
    let '(tot, off) := r in
    p ← get_inode i;
    when (isize p <? off) (set_inode i (fun p => p <| isize := off |>));;
    iupdate i;;
    mret (i32 tot).

Definition writei (i : nat) (user_src : bool) (src off n : Z) : M Z :=
  writei_with (fun tot m => either_copyin user_src (u64 (src + tot)) m) i off n.

(** [writei] from a variable of the caller. *)
Definition writei_local (i : nat) (src : list Z) (off : Z) : M Z :=
  writei_with (fun tot m => mret (0, get_bytes src (Z.to_nat tot) (Z.to_nat m))) i off (Z.of_nat (length src)).

(** ** Directories

    A name is the list of its bytes before the terminating zero, at most
    [DIRSIZ] of them. *)

(** [strncmp] of [kernel/string.c] on two such arrays. *)
Fixpoint strncmp_name (n : nat) (p q : list Z) : Z :=
  match n with
  | O => 0
  | S n =>
      let a := byte_at p 0 in
      let b := byte_at q 0 in
      if negb (a =? 0) && (a =? b) then strncmp_name n (tail p) (tail q) else a - b
  end.

Definition namecmp (s t : list Z) : Z := strncmp_name DIRSIZ s t.

(** The fields of a [struct dirent]. *)
Definition de_inum (de : list Z) : Z := get_word 2 de 0.
Definition de_name (de : list Z) : list Z := drop 2 de.

(** The offsets [0, sizeof(de), ...] below [size]. *)
Definition dirents (size : Z) : list nat := seq 0 (Z.to_nat ((size + DIRENT - 1) / DIRENT)).

Definition dirlookup_body (i : nat) (name : list Z) (k : nat) : M (option (nat * Z)) :=
  let off := Z.of_nat k * DIRENT in
  r ← readi_local i off DIRENT;
  if negb (fst r =? DIRENT) then panic "dirlookup read"%string
  else
    let de := snd r in
    if de_inum de =? 0 then mret None
    else if namecmp name (de_name de) =? 0 then
      p ← get_inode i;
      j ← iget (idev p) (de_inum de);
      mret (Some (j, off))
    else mret None.

(** The inode, and the offset of its entry. *)
Definition dirlookup (i : nat) (name : list Z) : M (option (nat * Z)) :=
  p ← get_inode i;
  if negb (itype p =? T_DIR) then panic "dirlookup not DIR"%string
  else for_first (dirents (isize p)) (dirlookup_body i name).

Definition dirlink_body (i : nat) (k : nat) : M (option Z) :=
  let off := Z.of_nat k * DIRENT in
  r ← readi_local i off DIRENT;
  if negb (fst r =? DIRENT) then panic "dirlink read"%string
  else if de_inum (snd r) =? 0 then mret (Some off) else mret None.

(** [strncpy(de.name, name, DIRSIZ)]. *)
Definition dirent_bytes (inum_ : Z) (name : list Z) : list Z :=
  le_bytes 2 inum_ ++ take DIRSIZ (name ++ replicate DIRSIZ 0).

Definition dirlink (i : nat) (name : list Z) (inum_ : Z) : M Z :=
  r ← dirlookup i name;
  match r with
  | Some (j, _) => iput (Some j);; mret (-1)
  | None =>
      p ← get_inode i;
      r ← for_first (dirents (isize p)) (dirlink_body i);
      let off := match r with Some off => off | None => Z.of_nat (length (dirents (isize p))) * DIRENT end in
      w ← writei_local i (dirent_bytes inum_ name) off;
      mret (if negb (w =? DIRENT) then -1 else 0)
  end.

(** ** Paths *)

Definition SLASH : Z := 47.

Fixpoint skip_slashes (path : list Z) : list Z :=
  match path with
  | c :: p => if c =? SLASH then skip_slashes p else path
  | [] => []
  end.

(** The bytes up to the next slash, and the rest. *)
Fixpoint take_elem (path : list Z) : list Z * list Z :=
  match path with
  | c :: p => if c =? SLASH then ([], path) else let '(e, r) := take_elem p in (c :: e, r)
  | [] => ([], [])
  end.

(** The path after the first element, and that element as a name. *)
Definition skipelem (path : list Z) : option (list Z * list Z) :=
  match skip_slashes path with
  | [] => None
  | path =>
      let '(s, path) := take_elem path in
      Some (skip_slashes path, take DIRSIZ s)
  end.

Definition namex_step (nameiparent_ : bool) (st : nat * list Z * list Z) :
    M (nat * list Z * list Z + option nat * list Z) :=
  let '(ip, path, name) := st in
  match skipelem path with
  | None =>
      if nameiparent_ then iput (Some ip);; mret (inr (None, name))
      else mret (inr (Some ip, name))
  | Some (path, name) =>
      ilock (Some ip);;
      p ← get_inode ip;
      if negb (itype p =? T_DIR) then iunlockput (Some ip);; mret (inr (None, name))
      else if nameiparent_ && (match path with [] => true | _ => false end) then
        iunlock (Some ip);; mret (inr (Some ip, name))
      else
        next ← dirlookup ip name;
        match next with
        | None => iunlockput (Some ip);; mret (inr (None, name))
        | Some (next, _) => iunlockput (Some ip);; mret (inl (next, path, name))
        end
  end.

Definition namex (path : list Z) (nameiparent_ : bool) : M (option nat * list Z) :=
  ip ← (if byte_at path 0 =? SLASH then iget ROOTDEV ROOTINO
        else p ← curproc; pr ← get_proc p; i ← idup (cwd pr); or_fault i);
  loop fuel (namex_step nameiparent_) (ip, path, []).

Definition namei (path : list Z) : M (option nat) := r ← namex path false; mret (fst r).
Definition nameiparent (path : list Z) : M (option nat * list Z) := namex path true.

End fs.
