(* ===== verification/FsBlocks.v ===== *)
(** * Transactions and the free map

    What file system calls do between [begin_op] and [end_op], and the
    allocation of disk blocks ([bzero], [balloc] and [bfree] of
    [kernel/fs.c]). *)
From stdpp Require Import base tactics list numbers gmap strings.
From S2P Require Import Prelude Machine Wp Spinlock Sched Sleeplock Blocks Bio Log LogCalls Vm File Proc Fs.

Open Scope Z_scope.

(** ** Transactions *)

(** What [log_write] does to the list of logged blocks. *)
Definition add_logged (b : Z) (lg : list Z) : list Z := if decide (b ∈ lg) then lg else lg ++ [b].

Lemma elem_of_add_logged x b lg : x ∈ add_logged b lg <-> x = b \/ x ∈ lg.
Proof.
  unfold add_logged. case_decide as H; [naive_solver|].
  rewrite elem_of_app, list_elem_of_singleton. tauto.
Qed.

Lemma add_logged_length b lg : (length lg <= length (add_logged b lg) <= S (length lg))%nat.
Proof. unfold add_logged. case_decide; [lia|]. rewrite length_app. cbn. lia. Qed.

(** A block outside the log. *)
Definition home (st b : Z) : Prop := 0 <= b < 2 ^ 31 /\ ~ log_area st b.

(** The log takes [c] more blocks. *)
Definition log_room (l : log) (lg : list Z) (c : nat) : Prop :=
  Z.of_nat (length lg + c) <= LOGSIZE /\ Z.of_nat (length lg + c) <= lsize l - 1.

Section tx.
Context {DK : Disk} {DL : @DiskLaw DK} (fuel : nat) (p : nat) (pr : proc) (e : env).

(** Inside a transaction: the blocks hold [v], the process has the buffers of
    [k] locked, and the blocks [lg] are logged and pinned. *)
Record tx (s : mach) (v : Z -> list Z) (k lg : list Z) : Prop := mkTx {
  tx_rep : fs_rep p pr s v (k ++ lg) k;
  tx_log : log_ok (slog s) lg;
  tx_open : 1 <= outstanding (slog s)
}.

(** Steps of a transaction write nothing to the disk and leave the geometry of
    the log alone. *)
Record tx_step (keep : list Z) (s t : mach) : Prop := mkTxStep {
  ts_step :> fs_step keep [] s t;
  ts_start : lstart (slog t) = lstart (slog s);
  ts_size : lsize (slog t) = lsize (slog s)
}.

Lemma tx_step_refl keep s : tx_step keep s s.
Proof. split; [apply bio_step_refl|done..]. Qed.

Lemma tx_step_trans keep keep1 keep2 s t u v k lg :
  tx s v k lg -> tx_step keep1 s t -> tx_step keep2 t u ->
  (forall b, b ∈ keep -> b ∈ keep1 /\ b ∈ keep2) -> tx_step keep s u.
Proof.
  intros T [S1 A1 B1] [S2 A2 B2] Hk. split; [|congruence..].
  apply (fs_step_trans keep keep1 keep2 [] [] s t u); [|done..]. eapply fs_rep_hart, T.
Qed.

Lemma tx_step_sb keep s t : tx_step keep s t -> sb t = sb s.
Proof. intros [[[-> _]]]. done. Qed.

Lemma tx_step_disk keep s t b : tx_step keep s t -> disk (bc t) b = disk (bc s) b.
Proof. intros S. exact (bs_disk _ _ _ _ S b). Qed.

Lemma tx_size s v k lg b : tx s v k lg -> length (v b) = 1024%nat.
Proof. intros T. eapply fs_rep_size, T. Qed.

Lemma tx_ext s v v' k lg : tx s v k lg -> (forall b, v' b = v b) -> tx s v' k lg.
Proof. intros [R L O] Hv. split; [by eapply fs_rep_ext|done..]. Qed.

Lemma bio_tx_step keep s t : bio_step keep [] s t -> tx_step keep s t.
Proof. intros [S E]. split; [done|by rewrite E..]. Qed.

Lemma log_room_step keep s t lg lg' c :
  tx_step keep s t -> (length lg' <= S (length lg))%nat -> log_room (slog s) lg (S c) -> log_room (slog t) lg' c.
Proof. intros [_ _ E] Hl [H1 H2]. unfold log_room. rewrite E. lia. Qed.

(** [bread] of a block that is not locked; the buffer is clean unless the
    block is logged. *)
Lemma wp_tread bno s v k lg (Q : nat -> mach -> Prop) :
  tx s v k lg -> bno ∉ k -> (length (k ++ lg) < NBUF)%nat ->
  (forall n t, tx t v (bno :: k) lg -> buffer_of (bc t) n bno -> tx_step (k ++ lg) s t ->
     bno ∈ lg \/ v bno = disk (bc t) bno -> Q n t) ->
  wp (bread (S fuel) ROOTDEV bno) e s Q.
Proof.
  intros T Hk Hroom HQ. assert (HN : (NBUF < 100)%nat) by (unfold NBUF; lia).
  eapply wp_bread; [apply T|done|by right|lia|]. intros n t R Hn S.
  assert (St := bio_tx_step _ _ _ S). apply HQ; [|done|done|].
  - split; [exact R|by rewrite (bs_log _ _ _ _ S); apply T..].
  - destruct (decide (bno ∈ lg)) as [|Hl]; [by left|right]. rewrite (tx_step_disk _ _ _ bno St).
    eapply fs_rep_clean; [apply T|]. rewrite elem_of_app. tauto.
Qed.

Lemma wp_tget n bno s v k lg (Q : buf -> mach -> Prop) :
  tx s v k lg -> buffer_of (bc s) n bno ->
  (forall b, bdata b = v bno -> blockno b = bno -> Q b s) -> wp (get_buf n) e s Q.
Proof. intros T. eapply wp_get_buf, T. Qed.

Lemma wp_tset n bno f s v k lg (Q : unit -> mach -> Prop) :
  tx s v k lg -> buffer_of (bc s) n bno -> bno ∈ k -> length (f (v bno)) = 1024%nat ->
  (forall t, tx t (upd v bno (f (v bno))) k lg -> tx_step (k ++ lg) s t -> Q tt t) ->
  wp (set_data n f) e s Q.
Proof.
  intros T Hn Hk Hf HQ. unfold set_data.
  eapply (wp_set_data p pr e n bno (f (v bno))); [apply T|done|by apply elem_of_app; left|done| |].
  - intros b <-. by destruct b.
  - intros t R S. apply HQ; [|by apply bio_tx_step].
    split; [exact R|by rewrite (bs_log _ _ _ _ S); apply T..].
Qed.

Lemma wp_trelse n bno s v k k' lg (Q : unit -> mach -> Prop) :
  tx s v k lg -> buffer_of (bc s) n bno -> k ≡ₚ bno :: k' -> bno ∉ k' ->
  bno ∈ lg \/ v bno = disk (bc s) bno ->
  (forall t, tx t v k' lg -> tx_step (k ++ lg) s t -> Q tt t) ->
  wp (brelse n) e s Q.
Proof.
  intros T Hn Hk Hk' Hc HQ.
  eapply (wp_brelse p pr e n bno _ _ _ _ (k' ++ lg) k'); [apply T|done|by rewrite Hk|done|done| |set_solver|].
  - destruct Hc; [left; set_solver|by right].
  - intros t R S. apply HQ; [|by apply bio_tx_step].
    split; [exact R|by rewrite (bs_log _ _ _ _ S); apply T..].
Qed.

Lemma wp_tlog n b s v k lg (Q : unit -> mach -> Prop) :
  tx s v k lg -> buffer_of (bc s) n b -> home (lstart (slog s)) b ->
  (length (k ++ lg) < 100)%nat -> log_room (slog s) lg 1 ->
  (forall t, tx t v k (add_logged b lg) -> tx_step (k ++ lg) s t -> Q tt t) ->
  wp (log_write n) e s Q.
Proof.
  intros T Hn [Hb Ha] Hk Hroom HQ. destruct T as [R L O].
  destruct (log_write_runs p pr e s v (k ++ lg) k lg n b) as (t & E & S & Hin & Hnin); [done..|lia| |done|].
  { destruct Hroom as [H1 H2]. unfold log_full. rewrite (lo_n _ _ L). lia. }
  eapply wp_call; [done|]. unfold add_logged in HQ. destruct (decide (b ∈ lg)) as [Hb'|Hb'].
  - destruct (Hin Hb') as [El Rt]. apply HQ; [by split; rewrite ?El|]. by split; rewrite ?El.
  - destruct (Hnin Hb') as (El & Lt & Rt). apply HQ; [|by split; rewrite ?El].
    split; [|done|by rewrite El]. eapply fs_rep_ext; [exact Rt|done| |done].
    rewrite app_assoc. apply Permutation_cons_append.
Qed.

End tx.

(** A buffer is still where an earlier step of the transaction left it. *)
Ltac thandle :=
  match goal with
  | H : buffer_of (bc ?t) ?n ?b |- buffer_of (bc ?t) ?n ?b => exact H
  | S : tx_step _ ?s ?t |- buffer_of (bc ?t) _ _ => apply (bs_keep _ _ _ _ (ts_step _ _ _ S)); [set_solver|thandle]
  end.

(** Join two consecutive steps of a transaction. *)
Tactic Notation "tjoin" constr(h) hyp(S1) hyp(S2) :=
  let S := fresh in
  lazymatch type of S1 with
  | tx_step _ ?s _ =>
      match goal with
      | T : tx _ _ s _ _ _ |- _ => assert (S := tx_step_trans _ _ h _ _ _ _ _ _ _ _ T S1 S2 ltac:(set_solver))
      end
  end; clear S1 S2; rename S into S1.

(** ** Blocks of zeros *)

Definition zeros : list Z := replicate 1024 0.

Section bzero.
Context {DK : Disk} {DL : @DiskLaw DK} (fuel : nat) (p : nat) (pr : proc) (e : env).
Notation tx := (tx p pr).

Lemma wp_bzero bno s v k lg (Q : unit -> mach -> Prop) :
  tx s v k lg -> home (lstart (slog s)) bno -> bno ∉ k -> (length (k ++ lg) < NBUF)%nat ->
  log_room (slog s) lg 1 ->
  (forall t, tx t (upd v bno zeros) k (add_logged bno lg) -> tx_step (k ++ lg) s t -> Q tt t) ->
  wp (bzero (S fuel) ROOTDEV bno) e s Q.
Proof.
  intros T Hh Hk Hroom Hlog HQ. assert (HN : (NBUF < 50)%nat) by (unfold NBUF; lia).
  unfold bzero. apply wp_bind. eapply wp_tread; [done..|]. intros n t1 T1 H1 S1 _.
  apply wp_bind. eapply wp_tset; [done|done|by left|done|]. intros t2 T2 S2. cbv beta in T2.
  change (replicate (Z.to_nat BSIZE) 0) with zeros in T2.
  apply wp_bind. eapply (wp_tlog p pr e n bno t2); [done|thandle| |cbn; lia| |].
  { by rewrite (ts_start _ _ _ S2), (ts_start _ _ _ S1). }
  { unfold log_room. by rewrite (ts_size _ _ _ S2), (ts_size _ _ _ S1). }
  intros t3 T3 S3. eapply (wp_trelse p pr e n bno t3 _ (bno :: k) k); [done|thandle|done|done| |].
  { left. apply elem_of_add_logged. by left. }
  intros t4 T4 S4. apply HQ; [done|].
  tjoin (k ++ lg) S1 S2. tjoin (k ++ lg) S1 S3.
  apply (tx_step_trans p pr (k ++ lg) _ _ _ _ _ _ _ _ T S1 S4).
  intros b Hb. split; [done|]. right. apply elem_of_app in Hb as [?|?]; apply elem_of_app; [by left|right].
  apply elem_of_add_logged. by right.
Qed.
End bzero.

(** ** The free map *)

(** Block [a] is marked in use. *)
Definition used (sb : superblock) (v : Z -> list Z) (a : Z) : bool :=
  negb (Z.land (byte_at (v (BBLOCK a sb)) (map_byte (a mod BPB))) (bit (a mod BPB)) =? 0).

Definition set_used (a : Z) (d : list Z) : list Z :=
  let bi := a mod BPB in <[map_byte bi := Z.lor (byte_at d (map_byte bi)) (bit bi)]> d.
Definition set_free (a : Z) (d : list Z) : list Z :=
  let bi := a mod BPB in <[map_byte bi := Z.land (byte_at d (map_byte bi)) (Z.lnot (bit bi))]> d.

(** The bits of a map block. *)
Definition map_bit (d : list Z) (bi : Z) : bool := Z.testbit (byte_at d (map_byte bi)) (bi mod 8).

Lemma land_bit x i : 0 <= i -> (Z.land x (Z.shiftl 1 i) =? 0) = negb (Z.testbit x i).
Proof.
  intros Hi. rewrite Z.shiftl_1_l. destruct (Z.testbit x i) eqn:E; cbn.
  - apply Z.eqb_neq. intros H. apply (f_equal (fun y => Z.testbit y i)) in H.
    rewrite Z.land_spec, E, Z.pow2_bits_true, Z.bits_0 in H by lia. done.
  - apply Z.eqb_eq. apply Z.bits_inj'. intros j Hj. rewrite Z.land_spec, Z.bits_0.
    destruct (Z.eq_dec j i) as [->|Hne]; [by rewrite E|]. rewrite Z.pow2_bits_false by lia. apply andb_false_r.
Qed.

Lemma used_bit sb v a : used sb v a = map_bit (v (BBLOCK a sb)) (a mod BPB).
Proof.
  unfold used, bit. rewrite land_bit, negb_involutive; [done|]. apply Z.mod_pos_bound. lia.
Qed.

Lemma byte_at_insert d i j x :
  (i < length d)%nat -> byte_at (<[i := x]> d) j = if decide (j = i) then x else byte_at d j.
Proof.
  intros Hi. unfold byte_at. case_decide as Hj; [subst; by rewrite list_lookup_insert_eq|].
  by rewrite list_lookup_insert_ne.
Qed.

Lemma same_bit a b : 0 <= a < BPB -> 0 <= b < BPB -> map_byte a = map_byte b -> a mod 8 = b mod 8 -> a = b.
Proof.
  unfold map_byte, BPB, BSIZE. intros Ha Hb Hd Hm.
  assert (a / 8 = b / 8) by (apply Z2Nat.inj; [apply Z.div_pos; lia..|done]).
  rewrite (Z.div_mod a 8), (Z.div_mod b 8) by lia. congruence.
Qed.

Lemma map_byte_lt bi : 0 <= bi < BPB -> (map_byte bi < 1024)%nat.
Proof.
  unfold map_byte, BPB, BSIZE. intros H. assert (bi / 8 < 1024) by (apply Z.div_lt_upper_bound; lia).
  assert (0 <= bi / 8) by (apply Z.div_pos; lia). lia.
Qed.

Lemma mod_bpb a : 0 <= a mod BPB < BPB.
Proof. apply Z.mod_pos_bound. done. Qed.

Lemma set_used_bit d a bi :
  length d = 1024%nat -> 0 <= bi < BPB -> map_bit (set_used a d) bi = (bi =? a mod BPB) || map_bit d bi.
Proof.
  intros Hd Hb. unfold map_bit, set_used. assert (Ha := mod_bpb a). pose proof (map_byte_lt _ Ha).
  rewrite byte_at_insert by lia. assert (Hm : forall x, 0 <= x mod 8) by (intros; apply Z.mod_pos_bound; lia).
  case_decide as Hj.
  - unfold bit. rewrite Z.lor_spec, Z.shiftl_1_l, Z.pow2_bits_eqb, <- Hj, orb_comm by done. f_equal.
    apply eq_true_iff_eq. rewrite !Z.eqb_eq. split; [intros E; by apply same_bit|by intros ->].
  - destruct (Z.eqb_spec bi (a mod BPB)) as [->|]; done.
Qed.

Lemma set_free_bit d a bi :
  length d = 1024%nat -> 0 <= bi < BPB -> map_bit (set_free a d) bi = negb (bi =? a mod BPB) && map_bit d bi.
Proof.
  intros Hd Hb. unfold map_bit, set_free. assert (Ha := mod_bpb a). pose proof (map_byte_lt _ Ha).
  rewrite byte_at_insert by lia. assert (Hm : forall x, 0 <= x mod 8) by (intros; apply Z.mod_pos_bound; lia).
  case_decide as Hj.
  - unfold bit. rewrite Z.land_spec, Z.lnot_spec, Z.shiftl_1_l, Z.pow2_bits_eqb, <- Hj, andb_comm by done. f_equal.
    f_equal. apply eq_true_iff_eq. rewrite !Z.eqb_eq. split; [intros E; by apply same_bit|by intros ->].
  - destruct (Z.eqb_spec bi (a mod BPB)) as [->|]; done.
Qed.

(** A map block holds the bits of the blocks with its quotient. *)
Lemma BBLOCK_eq a b sb : a / BPB = b / BPB -> BBLOCK a sb = BBLOCK b sb.
Proof. unfold BBLOCK. by intros ->. Qed.

(** The free map after a change of the map block of [a]: only [a] changes,
    if different map blocks lie at different places. *)
Definition map_blocks_distinct (sb : superblock) : Prop :=
  forall a b, 0 <= a < fssize sb -> 0 <= b < fssize sb -> BBLOCK a sb = BBLOCK b sb -> a / BPB = b / BPB.

Lemma used_upd sb v a d b :
  map_blocks_distinct sb -> 0 <= a < fssize sb -> 0 <= b < fssize sb ->
  used sb (upd v (BBLOCK a sb) d) b =
  if decide (a / BPB = b / BPB) then map_bit d (b mod BPB) else used sb v b.
Proof.
  intros Hd Ha Hb. rewrite !used_bit. unfold upd. case_decide as E.
  - by rewrite (BBLOCK_eq _ _ sb E), Z.eqb_refl.
  - destruct (Z.eqb_spec (BBLOCK b sb) (BBLOCK a sb)) as [E'|]; [|done]. exfalso. apply E. symmetry. by apply Hd.
Qed.

Lemma div_mod_eq a b : a / BPB = b / BPB -> a mod BPB = b mod BPB -> a = b.
Proof.
  intros H1 H2. rewrite (Z.div_mod a BPB), (Z.div_mod b BPB) by done. congruence.
Qed.

Lemma used_set_used sb v a b :
  (forall x, length (v x) = 1024%nat) -> map_blocks_distinct sb -> 0 <= a < fssize sb -> 0 <= b < fssize sb ->
  used sb (upd v (BBLOCK a sb) (set_used a (v (BBLOCK a sb)))) b = (b =? a) || used sb v b.
Proof.
  intros Hv Hd Ha Hb. rewrite used_upd by done. case_decide as E.
  - rewrite set_used_bit by (done || apply mod_bpb). rewrite (BBLOCK_eq _ _ sb E), <- used_bit. f_equal.
    apply eq_true_iff_eq. rewrite !Z.eqb_eq. split; [intros; by apply div_mod_eq|by intros ->].
  - destruct (Z.eqb_spec b a) as [->|]; done.
Qed.

Lemma used_set_free sb v a b :
  (forall x, length (v x) = 1024%nat) -> map_blocks_distinct sb -> 0 <= a < fssize sb -> 0 <= b < fssize sb ->
  used sb (upd v (BBLOCK a sb) (set_free a (v (BBLOCK a sb)))) b = negb (b =? a) && used sb v b.
Proof.
  intros Hv Hd Ha Hb. rewrite used_upd by done. case_decide as E.
  - rewrite set_free_bit by (done || apply mod_bpb). rewrite (BBLOCK_eq _ _ sb E), <- used_bit. f_equal. f_equal.
    apply eq_true_iff_eq. rewrite !Z.eqb_eq. split; [intros; by apply div_mod_eq|by intros ->].
  - destruct (Z.eqb_spec b a) as [->|]; done.
Qed.

(** The map lies outside the log, and the blocks it gives out are neither
    part of the log nor of the map, nor locked by the process. *)
Record map_ok (st : Z) (sb : superblock) (v : Z -> list Z) (k : list Z) : Prop := mkMapOk {
  mo_size : 0 <= fssize sb <= 2 ^ 31;
  mo_distinct : map_blocks_distinct sb;
  mo_home : forall a, 0 <= a < fssize sb -> home st (BBLOCK a sb) /\ BBLOCK a sb ∉ k;
  mo_free : forall a, 0 <= a < fssize sb -> used sb v a = false ->
    home st a /\ a ∉ k /\ forall b, 0 <= b < fssize sb -> BBLOCK b sb <> a
}.

(** The contents after [a] has been allocated and freed. *)
Definition allocated (sb : superblock) (a : Z) (v : Z -> list Z) : Z -> list Z :=
  upd (upd v (BBLOCK a sb) (set_used a (v (BBLOCK a sb)))) a zeros.
Definition freed (sb : superblock) (a : Z) (v : Z -> list Z) : Z -> list Z :=
  upd v (BBLOCK a sb) (set_free a (v (BBLOCK a sb))).

Lemma used_allocated st sb v k a b :
  (forall x, length (v x) = 1024%nat) -> map_ok st sb v k -> 0 <= a < fssize sb -> used sb v a = false ->
  0 <= b < fssize sb -> used sb (allocated sb a v) b = (b =? a) || used sb v b.
Proof.
  intros Hv M Ha Hf Hb. rewrite <- (used_set_used sb v a b Hv (mo_distinct _ _ _ _ M) Ha Hb).
  destruct (mo_free _ _ _ _ M a Ha Hf) as (_ & _ & Hn). rewrite !used_bit. unfold allocated.
  by rewrite upd_other by by apply Hn.
Qed.

(** [a] is the first free block. *)
Definition first_free (sb : superblock) (v : Z -> list Z) (a : Z) : Prop :=
  0 <= a < fssize sb /\ used sb v a = false /\ forall b, 0 <= b < a -> used sb v b = true.

Section balloc.
Context {DK : Disk} {DL : @DiskLaw DK} (fuel : nat) (p : nat) (pr : proc) (e : env).
Notation tx := (tx p pr).

Lemma wp_balloc_block j s v k lg (Q : option Z -> mach -> Prop) :
  let z := fssize (sb s) in
  tx s v k lg -> map_ok (lstart (slog s)) (sb s) v k -> (S (length (k ++ lg)) < NBUF)%nat ->
  log_room (slog s) lg 2 -> Z.of_nat j * BPB < z ->
  (forall b, 0 <= b < Z.of_nat j * BPB -> used (sb s) v b = true) ->
  (forall a t, first_free (sb s) v a ->
     tx t (allocated (sb s) a v) k (add_logged a (add_logged (BBLOCK a (sb s)) lg)) ->
     tx_step (k ++ lg) s t -> Q (Some a) t) ->
  (forall t, tx t v k lg -> tx_step (k ++ lg) s t ->
     (forall b, 0 <= b < Z.of_nat (S j) * BPB -> b < z -> used (sb s) v b = true) -> Q None t) ->
  wp (balloc_block (S fuel) ROOTDEV j) e s Q.
Proof.
  intros z T M Hroom Hlog Hj Hbefore Hfound Hnone. set (b := Z.of_nat j * BPB) in *.
  assert (HN : (NBUF < 50)%nat) by (unfold NBUF; lia). assert (HB : 0 < BPB) by done.
  assert (Hb0 : 0 <= b) by (unfold b; lia). assert (Hbz : 0 <= b < z) by lia.
  destruct (mo_home _ _ _ _ M b Hbz) as [Hh Hk].
  assert (Hbb : forall i, 0 <= i < BPB -> BBLOCK (b + i) (sb s) = BBLOCK b (sb s) /\ (b + i) mod BPB = i /\ b mod BPB = 0).
  { intros i Hi. unfold b. rewrite (Z.add_comm _ i). split; [|split].
    - apply BBLOCK_eq. rewrite Z.div_add, Z.div_small, Z.div_mul by lia. done.
    - rewrite Z.mod_add, Z.mod_small by lia. done.
    - apply Z.mod_mul. lia. }
  unfold balloc_block. fold b. apply wp_bind, wp_read, wp_bind.
  eapply wp_tread; [done|done|lia|]. intros bp t1 T1 H1 S1 Hc1. apply wp_bind.
  apply (wp_for_first _ (fun i t => t = t1 /\
    forall x, 0 <= x < b + Z.of_nat i -> used (sb s) v x = true)).
  - split; [done|]. intros x Hx. apply Hbefore. lia.
  - intros i x t Hi [-> Hx]. apply lookup_seq in Hi as [-> Hi]. cbn [Nat.add].
    assert (Hi' : 0 <= Z.of_nat i < BPB) by lia. destruct (Hbb _ Hi') as (E1 & E2 & _).
    set (a := b + Z.of_nat i) in *. assert (Ha : 0 <= a < z) by lia.
    unfold balloc_bit. fold a. apply wp_bind. eapply wp_tget; [done|done|]. intros d Hd _. rewrite Hd.
    assert (Eu : (Z.land (byte_at (v (BBLOCK b (sb s))) (map_byte (Z.of_nat i))) (bit (Z.of_nat i)) =? 0) =
                 negb (used (sb s) v a)) by (unfold used; by rewrite E1, E2, negb_involutive).
    rewrite Eu. destruct (used (sb s) v a) eqn:Hu; cbn [negb].
    { apply wp_ret. split; [done|]. intros y Hy. destruct (Z.eq_dec y a) as [->|]; [done|]. apply Hx. unfold a in *. lia. }
    destruct (mo_free _ _ _ _ M a Ha Hu) as (Hha & Hka & Hna). assert (Hab := Hna b Hbz).
    apply wp_bind. eapply wp_tset; [done|done|by left|rewrite length_insert; by eapply tx_size|].
    intros t2 T2 S2. cbv beta in T2.
    apply wp_bind. eapply (wp_tlog p pr e bp (BBLOCK b (sb s)) t2); [done|thandle| |cbn; lia| |].
    { by rewrite (ts_start _ _ _ S2), (ts_start _ _ _ S1). }
    { destruct Hlog. unfold log_room. rewrite (ts_size _ _ _ S2), (ts_size _ _ _ S1). lia. }
    intros t3 T3 S3. apply wp_bind.
    eapply (wp_trelse p pr e bp (BBLOCK b (sb s)) t3 _ (_ :: k) k); [done|thandle|done|done| |].
    { left. apply elem_of_add_logged. by left. }
    intros t4 T4 S4. tjoin (k ++ lg) S1 S2. tjoin (k ++ lg) S1 S3.
    assert (S14 : tx_step (k ++ lg) s t4).
    { apply (tx_step_trans p pr (k ++ lg) _ _ _ _ _ _ _ _ T S1 S4).
      intros y [?|?]%elem_of_app; (split; [set_solver|]); apply elem_of_app; [left; by right|right; apply elem_of_add_logged; by right]. }
    pose proof (add_logged_length (BBLOCK b (sb s)) lg) as Hl1.
    apply wp_bind. eapply (wp_bzero fuel p pr e a t4); [done| |done| | |].
    { by rewrite (ts_start _ _ _ S14). }
    { rewrite length_app in *. lia. }
    { destruct Hlog. unfold log_room. rewrite (ts_size _ _ _ S14). lia. }
    intros t5 T5 S5. apply wp_ret, wp_ret, Hfound.
    + split; [done|]. split; [done|]. intros y Hy. apply Hx. unfold a in Hy. lia.
    + rewrite E1. unfold allocated, set_used. rewrite E1, E2. exact T5.
    + apply (tx_step_trans p pr (k ++ lg) _ _ _ _ _ _ _ _ T S14 S5).
      intros y Hy. split; [done|]. apply elem_of_app in Hy as [?|?]; apply elem_of_app; [by left|right].
      apply elem_of_add_logged. by right.
  - intros t [-> Hx]. rewrite length_seq in Hx. apply wp_bind.
    eapply (wp_trelse p pr e bp _ t1 _ (_ :: k) k); [done|done|done|done|done|].
    intros t2 T2 S2. apply wp_ret, Hnone; [done|by tjoin (k ++ lg) S1 S2|].
    intros y Hy Hyz. apply Hx. unfold b in *. lia.
Qed.

Lemma fs_rep_console s v h k f : fs_rep p pr s v h k -> fs_rep p pr (s <| console ::= f |>) v h k.
Proof. intros [Hf R]. split; [by apply (fs_thread_same s)|done]. Qed.

Lemma tx_console s v k lg f : tx s v k lg -> tx (s <| console ::= f |>) v k lg.
Proof. intros [R L O]. split; [by apply fs_rep_console|done..]. Qed.

(** [balloc] finds the first free block, or reports that there is none. *)
Lemma wp_balloc s v k lg (Q : Z -> mach -> Prop) :
  tx s v k lg -> map_ok (lstart (slog s)) (sb s) v k -> (S (length (k ++ lg)) < NBUF)%nat ->
  log_room (slog s) lg 2 ->
  (forall a t, first_free (sb s) v a ->
     tx t (allocated (sb s) a v) k (add_logged a (add_logged (BBLOCK a (sb s)) lg)) ->
     tx_step (k ++ lg) s t -> Q a t) ->
  (forall t, tx t v k lg -> tx_step (k ++ lg) s t ->
     (forall b, 0 <= b < fssize (sb s) -> used (sb s) v b = true) ->
     Q 0 (t <| console ::= cons "balloc: out of blocks"%string |>)) ->
  wp (balloc (S fuel) ROOTDEV) e s Q.
Proof.
  intros T M Hroom Hlog Hfound Hnone. assert (HB : 0 < BPB) by done.
  destruct (mo_size _ _ _ _ M) as [Hz _]. set (z := fssize (sb s)) in *.
  set (n := Z.to_nat ((z + BPB - 1) / BPB)).
  assert (Hn : forall j, (j < n)%nat -> Z.of_nat j * BPB < z).
  { intros j Hj. unfold n in Hj. assert (Z.of_nat j < (z + BPB - 1) / BPB) by lia.
    pose proof (Z.mul_div_le (z + BPB - 1) BPB HB). nia. }
  assert (Hall : z <= Z.of_nat n * BPB).
  { unfold n. rewrite Z2Nat.id by (apply Z.div_pos; lia).
    pose proof (Z.mul_succ_div_gt (z + BPB - 1) BPB HB). nia. }
  unfold balloc. apply wp_bind, wp_read. apply wp_bind.
  apply (wp_for_first _ (fun j t => tx t v k lg /\ tx_step (k ++ lg) s t /\
    forall b, 0 <= b < Z.of_nat j * BPB -> b < z -> used (sb s) v b = true)).
  - split; [done|]. split; [apply tx_step_refl|]. lia.
  - intros j x t Hj (T1 & S1 & Hx). apply lookup_seq in Hj as [-> Hj]. cbn [Nat.add]. fold z n in Hj.
    assert (Hjz := Hn j Hj). assert (Esb := tx_step_sb _ _ _ S1).
    apply (wp_balloc_block j t v k lg); rewrite ?Esb, ?(ts_start _ _ _ S1); try done.
    + destruct Hlog. unfold log_room. by rewrite (ts_size _ _ _ S1).
    + intros b Hb. apply Hx; lia.
    + intros a u Hf Tu Su. apply wp_ret, Hfound; [done|done|by tjoin (k ++ lg) S1 Su].
    + intros u Tu Su Hu. split; [done|]. split; [by tjoin (k ++ lg) S1 Su|done].
  - intros t (T1 & S1 & Hx). rewrite length_seq in Hx. fold z n in Hx. apply wp_bind, wp_modify, wp_ret.
    apply Hnone; [done|done|]. intros b Hb. apply Hx; lia.
Qed.

Lemma wp_bfree a s v k lg (Q : unit -> mach -> Prop) :
  tx s v k lg -> home (lstart (slog s)) (BBLOCK a (sb s)) -> BBLOCK a (sb s) ∉ k ->
  (length (k ++ lg) < NBUF)%nat -> log_room (slog s) lg 1 -> used (sb s) v a = true ->
  (forall t, tx t (freed (sb s) a v) k (add_logged (BBLOCK a (sb s)) lg) -> tx_step (k ++ lg) s t -> Q tt t) ->
  wp (bfree (S fuel) ROOTDEV a) e s Q.
Proof.
  intros T Hh Hk Hroom Hlog Hu HQ. assert (HN : (NBUF < 50)%nat) by (unfold NBUF; lia).
  unfold bfree. apply wp_bind, wp_read, wp_bind. eapply wp_tread; [done..|]. intros n t1 T1 H1 S1 _.
  apply wp_bind. eapply wp_tget; [done|done|]. intros d Hd _. rewrite Hd.
  unfold used in Hu. apply negb_true_iff in Hu. rewrite Hu.
  apply wp_bind. eapply wp_tset; [done|done|by left|rewrite length_insert; by eapply tx_size|].
  intros t2 T2 S2. cbv beta in T2.
  apply wp_bind. eapply (wp_tlog p pr e n (BBLOCK a (sb s)) t2); [done|thandle| |cbn; lia| |].
  { by rewrite (ts_start _ _ _ S2), (ts_start _ _ _ S1). }
  { unfold log_room. by rewrite (ts_size _ _ _ S2), (ts_size _ _ _ S1). }
  intros t3 T3 S3. eapply (wp_trelse p pr e n (BBLOCK a (sb s)) t3 _ (_ :: k) k); [done|thandle|done|done| |].
  { left. apply elem_of_add_logged. by left. }
  intros t4 T4 S4. apply HQ; [exact T4|].
  tjoin (k ++ lg) S1 S2. tjoin (k ++ lg) S1 S3.
  apply (tx_step_trans p pr (k ++ lg) _ _ _ _ _ _ _ _ T S1 S4).
  intros b Hb. split; [done|]. right. apply elem_of_app in Hb as [?|?]; apply elem_of_app; [by left|right].
  apply elem_of_add_logged. by right.
Qed.
End balloc.

(** ** Correctness of the allocator *)

Section claims.
Context {DK : Disk} {DL : @DiskLaw DK} (fuel : nat) (p : nat) (pr : proc) (e : env).
Notation tx := (tx p pr).

Lemma map_ok_allocated st sb v k a :
  (forall x, length (v x) = 1024%nat) -> map_ok st sb v k -> 0 <= a < fssize sb -> used sb v a = false ->
  map_ok st sb (allocated sb a v) k.
Proof.
  intros Hv M Ha Hf. destruct M as [H1 H2 H3 H4] eqn:EM. split; [done..|]. intros b Hb Hu.
  apply H4; [done|]. rewrite (used_allocated st sb v k a b) in Hu by (rewrite ?EM; done).
  by apply orb_false_iff in Hu as [_ ?].
Qed.

Lemma allocated_other sb v a x :
  x <> a -> x <> BBLOCK a sb -> allocated sb a v x = v x.
Proof. intros H1 H2. unfold allocated. by rewrite !upd_other. Qed.

(** C22. [balloc] implements an allocator.  If some block is free it takes the
    first one: the set of blocks in use grows by that block and nothing else,
    the block is filled with zeros, the contents of every other block outside
    the free map stay, the changed blocks are logged, and what the allocator
    assumes about the map holds again.  If every block is in use it returns 0,
    prints a message, and changes no block. *)
Theorem balloc_correct (s : mach) (v : Z -> list Z) (k lg : list Z) :
  tx s v k lg -> map_ok (lstart (slog s)) (sb s) v k -> (S (length (k ++ lg)) < NBUF)%nat ->
  log_room (slog s) lg 2 ->
  let z := fssize (sb s) in
  (forall a, first_free (sb s) v a ->
     exists t v', balloc (S fuel) ROOTDEV e s = Ret a e t /\
       tx t v' k (add_logged a (add_logged (BBLOCK a (sb s)) lg)) /\
       (forall b, 0 <= b < z -> used (sb s) v' b = (b =? a) || used (sb s) v b) /\
       v' a = zeros /\ (forall x, x <> a -> x <> BBLOCK a (sb s) -> v' x = v x) /\
       map_ok (lstart (slog s)) (sb s) v' k /\ tx_step (k ++ lg) s t) /\
  ((forall b, 0 <= b < z -> used (sb s) v b = true) ->
     exists t, balloc (S fuel) ROOTDEV e s = Ret 0 e t /\ tx t v k lg /\
       console t = "balloc: out of blocks"%string :: console s).
Proof.
  intros T M Hroom Hlog z. assert (Hv : forall x, length (v x) = 1024%nat) by (intros; by eapply tx_size).
  assert (Hw : wp (balloc (S fuel) ROOTDEV) e s (fun r t =>
    (first_free (sb s) v r /\ tx t (allocated (sb s) r v) k (add_logged r (add_logged (BBLOCK r (sb s)) lg)) /\
       tx_step (k ++ lg) s t) \/
    (r = 0 /\ tx t v k lg /\ console t = "balloc: out of blocks"%string :: console s /\
       forall b, 0 <= b < z -> used (sb s) v b = true))).
  { eapply wp_balloc; [done..| |].
    - intros a t Hf Tt St. left. done.
    - intros t Tt St Hall. right. split; [done|]. split; [by apply tx_console|]. split; [|done].
      cbn. f_equal. destruct St as [[[-> _]] _ _]. done. }
  destruct Hw as (r & t & E & [(Hf & Tt & St)|(-> & Tt & Hc & Hall)]).
  - split.
    + intros a Ha. assert (r = a) as ->.
      { destruct Hf as (Hr & Hru & Hrb), Ha as (Ha & Hau & Hab). destruct (Z.lt_trichotomy r a) as [Hlt|[->|Hlt]]; [|done|].
        - rewrite Hab in Hru by lia. done.
        - rewrite Hrb in Hau by lia. done. }
      destruct Ha as (Ha & Hau & _). exists t, (allocated (sb s) a v). split; [done|]. split; [done|].
      split; [intros b Hb; by apply (used_allocated (lstart (slog s)) _ _ k)|].
      split; [apply upd_same|]. split; [intros; by apply allocated_other|]. split; [by apply map_ok_allocated|done].
    + intros Hall. destruct Hf as (Hr & Hru & _). rewrite Hall in Hru by done. done.
  - split; [|by eauto]. intros a (Ha & Hau & _). rewrite Hall in Hau by done. done.
Qed.

(** [bfree] on both branches: a block in use becomes free, the set of
    blocks in use shrinks by that block and nothing else, and no block outside
    the free map changes; so it undoes [balloc].  Freeing a free block
    panics. *)
Theorem bfree_correct (s : mach) (v : Z -> list Z) (k lg : list Z) (a : Z) :
  tx s v k lg -> map_ok (lstart (slog s)) (sb s) v k -> 0 <= a < fssize (sb s) ->
  (length (k ++ lg) < NBUF)%nat -> log_room (slog s) lg 1 ->
  (used (sb s) v a = true ->
     exists t v', bfree (S fuel) ROOTDEV a e s = Ret tt e t /\ tx t v' k (add_logged (BBLOCK a (sb s)) lg) /\
       (forall b, 0 <= b < fssize (sb s) -> used (sb s) v' b = negb (b =? a) && used (sb s) v b) /\
       (forall x, x <> BBLOCK a (sb s) -> v' x = v x) /\ tx_step (k ++ lg) s t) /\
  (used (sb s) v a = false -> exists t, bfree (S fuel) ROOTDEV a e s = Panic "freeing free block"%string t).
Proof.
  intros T M Ha Hroom Hlog. destruct (mo_home _ _ _ _ M a Ha) as [Hh Hk]. split; intros Hu.
  - assert (Hw : wp (bfree (S fuel) ROOTDEV a) e s (fun _ t =>
      tx t (freed (sb s) a v) k (add_logged (BBLOCK a (sb s)) lg) /\ tx_step (k ++ lg) s t)).
    { eapply wp_bfree; [done..|]. intros t Tt St. done. }
    destruct Hw as ([] & t & E & Tt & St). exists t, (freed (sb s) a v). split; [done|]. split; [done|].
    split; [|split; [intros; by apply upd_other|done]]. intros b Hb.
    apply used_set_free; [intros; by eapply tx_size|apply M|done|done].
  - assert (Hw : wp (bread (S fuel) ROOTDEV (BBLOCK a (sb s))) e s (fun n t =>
      exists b, bufs (bc t) !! n = Some b /\ bdata b = v (BBLOCK a (sb s)))).
    { eapply wp_tread; [done..|]. intros n t T1 [b Hb] _ _. exists b. split; [apply Hb|].
      destruct T1 as [[_ R1] _ _]. by apply (cr_view _ _ _ _ _ _ R1 n). }
    destruct Hw as (n & t & E & b & Hb & Hd). exists t. unfold bfree. rewrite bindE. cbn [read].
    rewrite bindE, E. rewrite bindE, (get_buf_Ret n e t b), Hd by done.
    unfold used in Hu. apply negb_false_iff in Hu. by rewrite Hu.
Qed.
End claims.

(** ** A file system with free blocks *)

#[local] Existing Instance test_disk.
#[local] Existing Instance test_disk_law.

(** 200 blocks: the log from block 2, inodes from block 32, the map in block
    45, which marks the blocks up to itself. *)
Definition test_sb : superblock := mkSuperblock FSMAGIC 200 154 200 30 2 32 45.
Definition test_map : list Z := replicate 5 255 ++ 63 :: replicate 1018 0.
Definition test_blocks : Z -> list Z := upd (fun _ => zero_block) 45 test_map.
Definition open_log : log := mkLog 2 30 1 0 1 (mkLogheader 0 (replicate 30 0)).
Definition machine_fs : mach := machine_log test_blocks open_log <| sb := test_sb |>.

Lemma fs_rep_sb p pr s v h k x : fs_rep p pr s v h k -> fs_rep p pr (s <| sb := x |>) v h k.
Proof. intros [Hf R]. split; [by apply (fs_thread_same s)|done]. Qed.

Lemma tx_machine_fs : tx 0 running machine_fs test_blocks [] [].
Proof.
  split.
  - apply fs_rep_sb, fs_rep_machine_log. intros b. unfold test_blocks, upd.
    destruct (b =? 45); vm_compute; reflexivity.
  - split; try reflexivity.
    + split; [discriminate|reflexivity].
    + split; [apply NoDup_nil; exact I|]. split; [constructor|apply Nat.leb_le; reflexivity].
  - discriminate.
Qed.

Lemma test_bblock a : 0 <= a < 200 -> BBLOCK a test_sb = 45.
Proof. intros Ha. unfold BBLOCK. rewrite Z.div_small by (unfold BPB, BSIZE; lia). reflexivity. Qed.

Lemma test_used a : 0 <= a < 200 -> used test_sb test_blocks a = (a <? 46).
Proof.
  intros Ha. assert (H : forallb (fun a => Bool.eqb (used test_sb test_blocks a) (a <? 46)) (seqZ 0 200) = true)
    by (vm_compute; reflexivity).
  rewrite forallb_forall in H. apply Bool.eqb_prop, H. apply list_elem_of_In, elem_of_seqZ. lia.
Qed.

Lemma map_ok_machine_fs : map_ok 2 test_sb test_blocks [].
Proof.
  split.
  - split; [discriminate|]. change (200 <= 2 ^ 31). lia.
  - intros a b Ha Hb _. rewrite !Z.div_small; [done|..]; unfold BPB, BSIZE; change (fssize test_sb) with 200 in *; lia.
  - intros a Ha. rewrite test_bblock by exact Ha. split; [|apply not_elem_of_nil].
    split; [lia|]. unfold log_area, LOGSIZE, MAXOPBLOCKS. lia.
  - intros a Ha Hu. rewrite test_used in Hu by exact Ha. apply Z.ltb_ge in Hu. change (fssize test_sb) with 200 in Ha.
    split; [split; [lia|unfold log_area, LOGSIZE, MAXOPBLOCKS; lia]|]. split; [apply not_elem_of_nil|].
    intros b Hb. rewrite test_bblock by exact Hb. lia.
Qed.

Lemma balloc_correct_witness :
  exists t, balloc 1 ROOTDEV [] machine_fs = Ret 46 [] t /\ slog t <> slog machine_fs.
Proof.
  destruct (balloc_correct 0 0 running [] machine_fs test_blocks [] []) as [H _].
  - exact tx_machine_fs.
  - exact map_ok_machine_fs.
  - apply Nat.ltb_lt. reflexivity.
  - split; discriminate.
  - destruct (H 46) as (t & v' & H1 & H2 & _).
    + split; [cbn; lia|]. split; [vm_compute; reflexivity|]. intros b Hb. rewrite test_used by lia. apply Z.ltb_lt. lia.
    + exists t. split; [exact H1|]. intros E. destruct H2 as [_ L _]. apply lo_n in L. rewrite E in L.
      vm_compute in L. discriminate.
Defined.

Lemma bfree_correct_witness :
  (exists t, bfree 1 ROOTDEV 45 [] machine_fs = Ret tt [] t) /\
  exists t, bfree 1 ROOTDEV 46 [] machine_fs = Panic "freeing free block"%string t.
Proof.
  split.
  - destruct (bfree_correct 0 0 running [] machine_fs test_blocks [] [] 45) as [H _].
    + exact tx_machine_fs.
    + exact map_ok_machine_fs.
    + cbn. lia.
    + apply Nat.ltb_lt. reflexivity.
    + split; discriminate.
    + destruct H as (t & v' & H & _); [vm_compute; reflexivity|]. exists t. exact H.
  - destruct (bfree_correct 0 0 running [] machine_fs test_blocks [] [] 46) as [_ H].
    + exact tx_machine_fs.
    + exact map_ok_machine_fs.
    + cbn. lia.
    + apply Nat.ltb_lt. reflexivity.
    + split; discriminate.
    + apply H. vm_compute. reflexivity.
Defined.
