(* ===== verification/FsInode.v ===== *)
(** * Reading inodes and directories

    Correctness of the part of [kernel/fs.c] that looks things up: block
    addresses and contents of inodes, the inode table, directories, and the
    resolution of paths. *)
From stdpp Require Import base tactics list numbers gmap strings.
From S2P Require Import Prelude Machine Wp Spinlock Sched Sleeplock Blocks Bio Log LogCalls Vm File Proc Fs FsBlocks.

Open Scope Z_scope.

(** ** Contents of an inode *)

(** The address of block [bn] of an inode, 0 if it has none. *)
Definition block_addr (v : Z -> list Z) (ip : inode) (bn : Z) : Z :=
  if bn <? Z.of_nat NDIRECT then default 0 (addrs ip !! Z.to_nat bn)
  else
    let bn := bn - Z.of_nat NDIRECT in
    let ind := default 0 (addrs ip !! NDIRECT) in
    if bn <? Z.of_nat NINDIRECT then if ind =? 0 then 0 else get_word 4 (v ind) (4 * Z.to_nat bn)
    else 0.

(** [n] bytes from offset [off] on. *)
Definition content (v : Z -> list Z) (ip : inode) (off n : Z) : list Z :=
  (fun o => byte_at (v (block_addr v ip (o / BSIZE))) (Z.to_nat (o mod BSIZE))) <$> seqZ off n.

Lemma content_app v ip off n m : 0 <= n -> 0 <= m ->
  content v ip off (n + m) = content v ip off n ++ content v ip (off + n) m.
Proof. intros Hn Hm. unfold content. by rewrite seqZ_app, fmap_app by lia. Qed.

Lemma content_length v ip off n : 0 <= n -> length (content v ip off n) = Z.to_nat n.
Proof. intros Hn. unfold content. by rewrite length_fmap, length_seqZ. Qed.

(** Within one block the contents are a field of the block. *)
Lemma content_block v ip off n :
  0 <= off -> 0 <= n <= BSIZE - off mod BSIZE -> length (v (block_addr v ip (off / BSIZE))) = 1024%nat ->
  content v ip off n = get_bytes (v (block_addr v ip (off / BSIZE))) (Z.to_nat (off mod BSIZE)) (Z.to_nat n).
Proof.
  intros Ho Hn Hl. assert (Hm : 0 <= off mod BSIZE < BSIZE) by (apply Z.mod_pos_bound; done).
  unfold content. change BSIZE with 1024 in *. apply list_eq. intros i. unfold get_bytes. rewrite list_lookup_fmap.
  destruct (decide (i < Z.to_nat n)%nat) as [Hi|Hi].
  - rewrite lookup_seqZ_lt by lia. rewrite lookup_take_lt, lookup_drop by done. cbn [fmap option_fmap option_map].
    assert (Hoi : off + Z.of_nat i = (off mod 1024 + Z.of_nat i) + off / 1024 * 1024).
    { pose proof (Z.div_mod off 1024). lia. }
    assert (E1 : (off + Z.of_nat i) / 1024 = off / 1024).
    { rewrite Hoi, Z.div_add, Z.div_small by lia. lia. }
    assert (E2 : (off + Z.of_nat i) mod 1024 = off mod 1024 + Z.of_nat i).
    { rewrite Hoi, Z.mod_add, Z.mod_small by lia. done. }
    rewrite E1, E2. unfold byte_at.
    replace (Z.to_nat (off mod 1024 + Z.of_nat i)) with (Z.to_nat (off mod 1024) + i)%nat by lia.
    destruct (lookup_lt_is_Some_2 (v (block_addr v ip (off / 1024))) (Z.to_nat (off mod 1024) + i)) as [x Hx]; [lia|].
    by rewrite Hx.
  - rewrite lookup_seqZ_ge, lookup_take_ge by lia. done.
Qed.

Section read.
Context {DK : Disk} {DL : @DiskLaw DK} (fuel : nat) (p : nat) (pr : proc) (e : env).
Notation fs_rep := (fs_rep p pr).

(** A block that is read can be released again. *)
Lemma clean_or_held s v h k b : fs_rep s v h k -> b ∈ h \/ v b = disk (bc s) b.
Proof. intros R. destruct (decide (b ∈ h)); [by left|right]. by eapply fs_rep_clean. Qed.

Lemma wp_bread_ro b s v h (Q : nat -> mach -> Prop) :
  fs_rep s v h [] -> (length h < NBUF)%nat ->
  (forall n t, fs_rep t v (b :: h) [b] -> buffer_of (bc t) n b -> bio_step h [] s t ->
     b ∈ h \/ v b = disk (bc t) b -> Q n t) ->
  wp (bread (S fuel) ROOTDEV b) e s Q.
Proof.
  intros R Hr HQ. assert (HN : (NBUF < 100)%nat) by (unfold NBUF; lia).
  eapply wp_bread; [done|apply not_elem_of_nil|by right|lia|]. intros n t R1 H1 S1.
  apply HQ; [exact R1|exact H1|exact S1|].
  rewrite (bs_disk _ _ _ _ S1). by eapply clean_or_held.
Qed.

Lemma wp_brelse_ro n b s v h (Q : unit -> mach -> Prop) :
  fs_rep s v (b :: h) [b] -> buffer_of (bc s) n b -> b ∈ h \/ v b = disk (bc s) b ->
  (forall t, fs_rep t v h [] -> bio_step (b :: h) [] s t -> Q tt t) ->
  wp (brelse n) e s Q.
Proof.
  intros R Hn Hc HQ. eapply (wp_brelse p pr e n b _ _ _ _ h []); [done|done|done|done|apply not_elem_of_nil|done| |done].
  intros x Hx. by apply elem_of_nil in Hx.
Qed.

(** [bmap] of a block that exists. *)
Lemma wp_bmap i bn ip s v h (Q : Z -> mach -> Prop) :
  fs_rep s v h [] -> (length h < NBUF)%nat -> inodes s !! i = Some ip -> idev ip = ROOTDEV ->
  length (addrs ip) = S NDIRECT -> 0 <= bn -> block_addr v ip bn <> 0 ->
  (forall t, fs_rep t v h [] -> bio_step h [] s t -> Q (block_addr v ip bn) t) ->
  wp (bmap (S fuel) i bn) e s Q.
Proof.
  intros R Hr Hi Hd Hl Hbn Ha HQ. unfold bmap. apply wp_bind. eapply wp_call.
  { unfold get_inode. msimp. by rewrite Hi. }
  unfold block_addr in Ha, HQ. destruct (Z.ltb_spec bn (Z.of_nat NDIRECT)) as [Hlt|Hge].
  - destruct (lookup_lt_is_Some_2 (addrs ip) (Z.to_nat bn)) as [a Ea]; [lia|]. rewrite Ea in *. cbn [default] in *.
    apply wp_bind. eapply wp_or_fault; [done|]. rewrite (proj2 (Z.eqb_neq a 0)) by done.
    apply wp_ret, HQ; [done|apply bio_step_refl].
  - set (b := bn - Z.of_nat NDIRECT) in *. destruct (Z.ltb_spec b (Z.of_nat NINDIRECT)) as [Hlt'|]; [|done].
    destruct (lookup_lt_is_Some_2 (addrs ip) NDIRECT) as [ind Eind]; [lia|]. rewrite Eind in *. cbn [default] in *. change (id ind) with ind in *.
    destruct (Z.eqb_spec ind 0) as [Hind|Hind]; [done|].
    apply wp_bind. eapply wp_or_fault; [done|]. rewrite (proj2 (Z.eqb_neq ind 0)) by done.
    apply wp_bind, wp_ret. rewrite (proj2 (Z.eqb_neq ind 0)) by done. rewrite Hd.
    apply wp_bind. eapply wp_bread_ro; [done|done|]. intros bp t1 R1 H1 S1 Hc1.
    apply wp_bind. eapply (wp_get_buf p pr); [done|done|]. intros d Hdat _. rewrite Hdat.
    cbv zeta. rewrite (proj2 (Z.eqb_neq (get_word 4 (v ind) (4 * Z.to_nat b)) 0)) by exact Ha.
    apply wp_bind, wp_ret, wp_bind. eapply (wp_brelse_ro bp ind); [done|done|done|]. intros t2 R2 S2. apply wp_ret, HQ; [done|by join h S1 S2].
Qed.

(** All blocks of the first [n] bytes exist. *)
Definition has_blocks (v : Z -> list Z) (ip : inode) (n : Z) : Prop :=
  length (addrs ip) = S NDIRECT /\ forall o, 0 <= o < n -> block_addr v ip (o / BSIZE) <> 0.

(** The loop of [readi] into a local variable, from [tot] on. *)
Lemma wp_readi_loop n fuel' i ip off tot acc s v h (Q : Z * list Z -> mach -> Prop) :
  fs_rep s v h [] -> (length h < NBUF)%nat -> inodes s !! i = Some ip -> idev ip = ROOTDEV ->
  has_blocks v ip (off + (n - tot)) -> 0 <= tot <= n -> 0 <= off -> off + (n - tot) < 2 ^ 32 -> n < 2 ^ 32 ->
  n - tot < Z.of_nat fuel' ->
  (forall t, fs_rep t v h [] -> bio_step h [] s t -> Q (n, acc ++ content v ip off (n - tot)) t) ->
  wp (loop fuel' (readi_step (S fuel) (fun _ _ => mret 0) i n) (tot, off, acc)) e s Q.
Proof.
  revert off tot acc s. induction fuel' as [|fuel' IH]; intros off tot acc s R Hr Hi Hd Hb Ht Ho Hw Hn Hf HQ; [lia|].
  cbn [loop]. apply wp_bind. unfold readi_step at 1. destruct (Z.ltb_spec tot n) as [Hlt|Hge].
  - assert (HB : 0 <= off mod BSIZE < BSIZE) by (apply Z.mod_pos_bound; done).
    set (m := Z.min (n - tot) (BSIZE - off mod BSIZE)). assert (Hm : 1 <= m <= n - tot) by lia.
    destruct Hb as [Hl Hb]. assert (Ha := Hb off ltac:(lia)).
    apply wp_bind. eapply wp_bmap; [done..| | |]; [apply Z.div_pos; [done|done]|done|].
    intros t1 R1 S1. rewrite (proj2 (Z.eqb_neq _ 0)) by done.
    apply wp_bind. eapply wp_call.
    { unfold get_inode. msimp. rewrite (bs_inodes _ _ _ _ S1). by rewrite Hi. }
    rewrite Hd. apply wp_bind. eapply wp_bread_ro; [done|done|]. intros bp t2 R2 H2 S2 Hc2.
    apply wp_bind. eapply (wp_get_buf p pr); [done|done|]. intros d Hdat _. rewrite Hdat. fold m.
    rewrite <- (content_block v ip off m) by (done || lia || by eapply fs_rep_size).
    apply wp_bind, wp_ret, wp_bind.
    eapply (wp_brelse_ro bp); [done|done|done|]. intros t3 R3 S3. change (0 =? -1) with false. cbn match.
    apply wp_ret. rewrite !u32_id by lia. join h S1 S2. join h S1 S3.
    apply IH; [done|done| |done| |lia|lia|lia|lia|lia|].
    + by rewrite (bs_inodes _ _ _ _ S1).
    + split; [done|]. intros o Ho'. apply Hb. lia.
    + intros t R4 S4. rewrite <- app_assoc, <- content_app by lia.
      replace (m + (n - (tot + m))) with (n - tot) by lia. apply HQ; [done|]. by join h S1 S4.
  - apply wp_ret, wp_ret. assert (tot = n) as -> by lia.
    specialize (HQ s R (bio_step_refl _ _)). rewrite Z.sub_diag in HQ.
    unfold content in HQ. rewrite (seqZ_nil off 0) in HQ by lia. by rewrite app_nil_r in HQ.
Qed.

(** [readi] gives the part of the file that the request covers. *)
Lemma wp_readi_local i ip off n s v h (Q : Z * list Z -> mach -> Prop) :
  fs_rep s v h [] -> (length h < NBUF)%nat -> inodes s !! i = Some ip -> idev ip = ROOTDEV ->
  has_blocks v ip (isize ip) -> 0 <= off <= isize ip -> 0 <= n -> isize ip < 2 ^ 31 -> n < 2 ^ 31 ->
  n < Z.of_nat (S fuel) ->
  let m := Z.min n (isize ip - off) in
  (forall t, fs_rep t v h [] -> bio_step h [] s t -> Q (m, content v ip off m) t) ->
  wp (readi_local (S fuel) i off n) e s Q.
Proof.
  intros R Hr Hi Hd Hb Ho Hn Hsz Hn' Hf m HQ. unfold readi_local, readi_with. apply wp_bind. eapply wp_call.
  { unfold get_inode. msimp. by rewrite Hi. }
  rewrite (u32_id (off + n)) by lia. rewrite (proj2 (Z.ltb_ge (isize ip) off)), (proj2 (Z.ltb_ge (off + n) off)) by lia.
  cbn [orb]. replace (if isize ip <? off + n then isize ip - off else n) with m by (unfold m; zb).
  apply (wp_readi_loop m (S fuel) i ip off 0 [] s v h); try (done || lia).
  - destruct Hb as [Hl Hb]. split; [done|]. intros o Ho'. apply Hb. lia.
  - intros t R1 S1. rewrite Z.sub_0_r. cbn [app]. by apply HQ.
Qed.
End read.
