(* ===== verification/Itable.v ===== *)
(** * The inode table

    Correctness of [iget], [idup], [ilock], [iunlock] and [iput] of
    [kernel/fs.c].  The table refines a finite map from inode numbers to
    reference counts. *)
From stdpp Require Import base tactics list numbers gmap strings.
From S2P Require Import Prelude Machine Wp Spinlock Sched Sleeplock Blocks Bio Log LogCalls Vm File Proc Fs FsBlocks FsInode.

Open Scope Z_scope.

(** ** Files as the disk has them *)

Definition no_inode : inode := mkInode 0 0 0 0 0 0 0 0 0 [].

Definition dinode (v : Z -> list Z) (sb : superblock) (n : Z) : inode :=
  get_dinode (v (IBLOCK n sb)) (dinode_off n) no_inode.

(** Two inodes that describe the same file. *)
Definition same_file (ip jp : inode) : Prop :=
  itype ip = itype jp /\ imajor ip = imajor jp /\ iminor ip = iminor jp /\ nlink ip = nlink jp /\
  isize ip = isize jp /\ addrs ip = addrs jp.

Lemma same_file_content v ip jp off n : same_file ip jp -> content v ip off n = content v jp off n.
Proof. intros (_ & _ & _ & _ & _ & E). unfold content, block_addr. by rewrite E. Qed.

Lemma same_file_blocks v ip jp n : same_file ip jp -> has_blocks v jp n -> has_blocks v ip n.
Proof. intros (_ & _ & _ & _ & _ & E). unfold has_blocks, block_addr. by rewrite E. Qed.

(** ** References *)

Definition refs_add (n : Z) (R : gmap Z Z) : gmap Z Z := <[n := default 0 (R !! n) + 1]> R.
Definition refs_drop (n : Z) (R : gmap Z Z) : gmap Z Z :=
  match R !! n with
  | Some c => if c =? 1 then delete n R else <[n := c - 1]> R
  | None => R
  end.

Lemma refs_drop_add n R : (forall c, R !! n = Some c -> 0 < c) -> refs_drop n (refs_add n R) = R.
Proof.
  intros Hc. unfold refs_drop, refs_add. rewrite lookup_insert_eq.
  destruct (R !! n) as [c|] eqn:E; cbn [default].
  - specialize (Hc _ eq_refl). rewrite (proj2 (Z.eqb_neq (id c + 1) 1)) by (unfold id; lia).
    rewrite insert_insert_eq. replace (id c + 1 - 1) with c by (unfold id; lia). by rewrite insert_id.
  - change (0 + 1 =? 1) with true. cbn match. by rewrite delete_insert_id.
Qed.

Lemma refs_add_other n m R : m <> n -> refs_add n R !! m = R !! m.
Proof. intros H. unfold refs_add. by rewrite lookup_insert_ne. Qed.

Lemma refs_add_same n R : refs_add n R !! n = Some (default 0 (R !! n) + 1).
Proof. unfold refs_add. by rewrite lookup_insert_eq. Qed.

Lemma refs_drop_other n m R : m <> n -> refs_drop n R !! m = R !! m.
Proof.
  intros H. unfold refs_drop. destruct (R !! n) as [c|]; [|done].
  destruct (c =? 1); [by rewrite lookup_delete_ne|by rewrite lookup_insert_ne].
Qed.

Lemma refs_drop_same n c R : R !! n = Some c -> refs_drop n R !! n = if c =? 1 then None else Some (c - 1).
Proof.
  intros H. unfold refs_drop. rewrite H. destruct (c =? 1); [by rewrite lookup_delete_eq|by rewrite lookup_insert_eq].
Qed.

(** Adding and dropping different references commute. *)
Lemma refs_drop_add_comm n m R : (forall k c, R !! k = Some c -> 0 < c) -> is_Some (R !! n) ->
  refs_drop n (refs_add m R) = refs_add m (refs_drop n R).
Proof.
  intros Hc [c Hn]. pose proof (Hc _ _ Hn). apply map_eq. intros k. destruct (decide (m = n)) as [->|Hmn].
  - rewrite refs_drop_add by (intros; by eapply Hc). destruct (decide (k = n)) as [->|Hk].
    + rewrite refs_add_same, (refs_drop_same _ c), Hn by done. destruct (Z.eqb_spec c 1) as [->|]; [done|]. cbn.
      f_equal. unfold id. lia.
    + by rewrite refs_add_other, refs_drop_other.
  - destruct (decide (k = n)) as [->|Hk]; [|destruct (decide (k = m)) as [->|Hkm]].
    + rewrite refs_add_other by done. rewrite (refs_drop_same n c) by (by rewrite refs_add_other).
      by rewrite (refs_drop_same n c).
    + by rewrite refs_drop_other, !refs_add_same, refs_drop_other by done.
    + by rewrite refs_drop_other, !refs_add_other, refs_drop_other by done.
Qed.

(** ** The table *)

Record table_rep (v : Z -> list Z) (sb : superblock) (pid_ : Z) (tab : list inode) (sl : list sleeplock)
    (R : gmap Z Z) (L : list Z) : Prop := mkTableRep {
  it_len : length tab = NINODE;
  it_nonneg : forall i ip, tab !! i = Some ip -> 0 <= iref ip;
  it_ref : forall i ip, tab !! i = Some ip -> 0 < iref ip ->
    R !! inum ip = Some (iref ip) /\ idev ip = ROOTDEV;
  it_found : forall n c, R !! n = Some c -> 0 < c /\ exists i ip, tab !! i = Some ip /\ inum ip = n /\ iref ip = c;
  it_unique : forall i j ip jp, tab !! i = Some ip -> tab !! j = Some jp -> 0 < iref ip -> 0 < iref jp ->
    inum ip = inum jp -> i = j;
  it_valid : forall i ip, tab !! i = Some ip -> 0 < iref ip -> ivalid ip <> 0 ->
    same_file ip (dinode v sb (inum ip));
  it_lock : forall i ip, tab !! i = Some ip -> exists l, sl !! ilockid i = Some l /\
    lock_state pid_ (0 < iref ip /\ inum ip ∈ L) l;
  it_sub : forall n, n ∈ L -> is_Some (R !! n)
}.

(** Entry [i] of the table refers to inode [n]. *)
Definition names (tab : list inode) (i : nat) (n : Z) : Prop :=
  exists ip, tab !! i = Some ip /\ inum ip = n /\ 0 < iref ip.

Lemma alter_cases {A} (f : A -> A) i (l : list A) j y :
  alter f i l !! j = Some y -> (j = i /\ exists x, l !! i = Some x /\ y = f x) \/ (j <> i /\ l !! j = Some y).
Proof.
  destruct (decide (j = i)) as [->|Hne].
  - rewrite list_lookup_alter_eq. intros H%fmap_Some. left. naive_solver.
  - rewrite list_lookup_alter_ne by done. tauto.
Qed.

Section table.
Context (v : Z -> list Z) (sb : superblock) (pid_ : Z).
Notation table_rep := (table_rep v sb pid_).

(** A change of entry [i] that keeps it in use, or takes it into use. *)
Lemma table_update tab sl R R' L i ip g :
  table_rep tab sl R L -> tab !! i = Some ip ->
  0 < iref (g ip) -> idev (g ip) = ROOTDEV -> R' !! inum (g ip) = Some (iref (g ip)) ->
  (forall m, m <> inum (g ip) -> R' !! m = R !! m) ->
  (0 < iref ip -> inum (g ip) = inum ip) ->
  (iref ip = 0 -> R !! inum (g ip) = None) ->
  (ivalid (g ip) <> 0 -> same_file (g ip) (dinode v sb (inum (g ip)))) ->
  table_rep (alter g i tab) sl R' L.
Proof.
  intros T Hi Hr Hd HR Ho Hin Hnew Hv.
  assert (Hcase : iref ip = 0 \/ 0 < iref ip) by (pose proof (it_nonneg _ _ _ _ _ _ _ T _ _ Hi); lia).
  assert (Hother : forall j jp, j <> i -> tab !! j = Some jp -> 0 < iref jp -> inum jp <> inum (g ip)).
  { intros j jp Hj Hjp Hrj E. destruct Hcase as [H0|H0].
    - specialize (Hnew H0). destruct (it_ref _ _ _ _ _ _ _ T _ _ Hjp Hrj) as [E' _]. rewrite E in E'. congruence.
    - rewrite (Hin H0) in E. apply Hj. by eapply (it_unique _ _ _ _ _ _ _ T). }
  split.
  - rewrite length_alter. apply T.
  - intros j jp [[-> (x & Hx & ->)]|[_ Hj]]%alter_cases; [simplify_eq; lia|by apply (it_nonneg _ _ _ _ _ _ _ T _ _ Hj)].
  - intros j jp [[-> (x & Hx & ->)]|[Hne Hj]]%alter_cases Hrj; [by simplify_eq|].
    rewrite Ho by by eapply Hother. by apply (it_ref _ _ _ _ _ _ _ T _ _ Hj).
  - intros n c Hn. destruct (decide (n = inum (g ip))) as [->|Hne].
    + simplify_eq. split; [done|]. exists i, (g ip). split; [by rewrite list_lookup_alter_eq, Hi|done].
    + rewrite Ho in Hn by done. destruct (it_found _ _ _ _ _ _ _ T _ _ Hn) as (Hc & j & jp & Hj & En & Ec).
      split; [done|]. destruct (decide (j = i)) as [->|Hji].
      * simplify_eq. exfalso. by apply Hne, eq_sym, Hin.
      * exists j, jp. split; [by rewrite list_lookup_alter_ne|done].
  - intros j k jp kp [[-> (x & Hx & ->)]|[Hj Hjp]]%alter_cases [[-> (y & Hy & ->)]|[Hk Hkp]]%alter_cases H1 H2 E.
    + done.
    + simplify_eq. exfalso. by apply (Hother k kp).
    + simplify_eq. exfalso. by apply (Hother j jp).
    + by eapply (it_unique _ _ _ _ _ _ _ T).
  - intros j jp [[-> (x & Hx & ->)]|[Hne Hj]]%alter_cases; [simplify_eq; auto|by apply (it_valid _ _ _ _ _ _ _ T _ _ Hj)].
  - intros j jp [[-> (x & Hx & ->)]|[Hne Hj]]%alter_cases; [|by apply (it_lock _ _ _ _ _ _ _ T _ _ Hj)]. simplify_eq.
    destruct (it_lock _ _ _ _ _ _ _ T _ _ Hi) as (l & Hl & H1 & H2). exists l. split; [done|].
    destruct Hcase as [H0|H0].
    + split; [|intros _; apply H2; lia]. intros [_ HL]. destruct (it_sub _ _ _ _ _ _ _ T _ HL) as [c Hc].
      rewrite Hnew in Hc; done.
    + split; [intros [_ HL]; apply H1|intros HL; apply H2; intros [_ HL']; apply HL].
      * split; [done|]. by rewrite <- (Hin H0).
      * split; [done|]. by rewrite (Hin H0).
  - intros n Hn. destruct (decide (n = inum (g ip))) as [->|Hne]; [by rewrite HR|].
    rewrite Ho by done. by apply T.
Qed.

(** One more reference. *)
Lemma table_ref tab sl R L i ip :
  table_rep tab sl R L -> tab !! i = Some ip -> 0 < iref ip ->
  table_rep (alter (fun ip => ip <| iref := iref ip + 1 |>) i tab) sl (refs_add (inum ip) R) L.
Proof.
  intros T Hi Hr. destruct (it_ref _ _ _ _ _ _ _ T _ _ Hi Hr) as [E D].
  apply (table_update tab sl R _ L i ip); cbn; try done; try lia.
  - by rewrite refs_add_same, E.
  - intros m Hm. by apply refs_add_other.
  - by apply (it_valid _ _ _ _ _ _ _ T _ _ Hi Hr).
Qed.

(** The first reference, in a free entry. *)
Lemma table_new tab sl R L i ip n :
  table_rep tab sl R L -> tab !! i = Some ip -> iref ip = 0 -> R !! n = None ->
  table_rep (alter (fun ip => ip <| idev := ROOTDEV |> <| inum := n |> <| iref := 1 |> <| ivalid := 0 |>) i tab)
    sl (refs_add n R) L.
Proof.
  intros T Hi Hr Hn. apply (table_update tab sl R _ L i ip); cbn; try done; try lia.
  - by rewrite refs_add_same, Hn.
  - intros m Hm. by apply refs_add_other.
Qed.

(** An entry that becomes valid. *)
Lemma table_load tab sl R L i ip :
  table_rep tab sl R L -> tab !! i = Some ip -> 0 < iref ip ->
  table_rep (alter (fun jp => get_dinode (v (IBLOCK (inum ip) sb)) (dinode_off (inum ip)) jp <| ivalid := 1 |>) i tab)
    sl R L.
Proof.
  intros T Hi Hr. destruct (it_ref _ _ _ _ _ _ _ T _ _ Hi Hr) as [E D].
  apply (table_update tab sl R _ L i ip); cbn; try done; lia.
Qed.

(** One reference less. *)
Lemma table_drop tab sl R L i ip :
  table_rep tab sl R L -> tab !! i = Some ip -> 0 < iref ip -> inum ip ∉ L ->
  table_rep (alter (fun ip => ip <| iref := iref ip - 1 |>) i tab) sl (refs_drop (inum ip) R) L.
Proof.
  intros T Hi Hr HL. destruct (it_ref _ _ _ _ _ _ _ T _ _ Hi Hr) as [E D].
  destruct (decide (iref ip = 1)) as [E1|E1].
  2: { apply (table_update tab sl R _ L i ip); cbn; try done; try lia.
       - rewrite (refs_drop_same _ _ _ E). by rewrite (proj2 (Z.eqb_neq _ _)).
       - intros m Hm. by apply refs_drop_other.
       - by apply (it_valid _ _ _ _ _ _ _ T _ _ Hi Hr). }
  assert (Hi0 : forall j jp, alter (fun ip => ip <| iref := iref ip - 1 |>) i tab !! j = Some jp -> 0 < iref jp ->
    j <> i /\ tab !! j = Some jp /\ inum jp <> inum ip).
  { intros j jp [[-> (x & Hx & ->)]|[Hne Hj]]%alter_cases Hrj; [simplify_eq; cbn in Hrj; lia|].
    split; [done|]. split; [done|]. intros En. apply Hne. by eapply (it_unique _ _ _ _ _ _ _ T). }
  split.
  - rewrite length_alter. apply T.
  - intros j jp [[-> (x & Hx & ->)]|[_ Hj]]%alter_cases; [simplify_eq; cbn; lia|by apply (it_nonneg _ _ _ _ _ _ _ T _ _ Hj)].
  - intros j jp Hj Hrj. destruct (Hi0 _ _ Hj Hrj) as (_ & Hj' & Hn). rewrite refs_drop_other by done.
    by apply (it_ref _ _ _ _ _ _ _ T _ _ Hj').
  - intros n c Hn. destruct (decide (n = inum ip)) as [->|Hne].
    + rewrite (refs_drop_same _ _ _ E), E1 in Hn. done.
    + rewrite refs_drop_other in Hn by done. destruct (it_found _ _ _ _ _ _ _ T _ _ Hn) as (Hc & j & jp & Hj & En & Ec).
      split; [done|]. exists j, jp. rewrite list_lookup_alter_ne; [done|]. intros ->. by simplify_eq.
  - intros j k jp kp Hj Hk H1 H2. destruct (Hi0 _ _ Hj H1) as (_ & Hj' & _), (Hi0 _ _ Hk H2) as (_ & Hk' & _).
    by apply (it_unique _ _ _ _ _ _ _ T).
  - intros j jp Hj Hrj. destruct (Hi0 _ _ Hj Hrj) as (_ & Hj' & _). by apply (it_valid _ _ _ _ _ _ _ T _ _ Hj').
  - intros j jp [[-> (x & Hx & ->)]|[Hne Hj]]%alter_cases; [|by apply (it_lock _ _ _ _ _ _ _ T _ _ Hj)]. simplify_eq.
    destruct (it_lock _ _ _ _ _ _ _ T _ _ Hi) as (l & Hl & H1 & H2). exists l. split; [done|]. cbn.
    split; [intros [? _]; lia|]. intros _. apply H2. tauto.
  - intros n Hn. rewrite refs_drop_other by (intros ->; done). by apply T.
Qed.

(** Taking and giving back the lock of an inode. *)
Lemma table_locks tab sl R L L' i ip g :
  table_rep tab sl R L -> tab !! i = Some ip -> 0 < iref ip ->
  (forall l, sl !! ilockid i = Some l -> lock_state pid_ (inum ip ∈ L') (g l)) ->
  (forall n, n <> inum ip -> n ∈ L' <-> n ∈ L) ->
  table_rep tab (alter g (ilockid i) sl) R L'.
Proof.
  intros T Hi Hr Hg HL. split; try apply T.
  - intros j jp Hj. destruct (decide (j = i)) as [->|Hji].
    + simplify_eq. destruct (it_lock _ _ _ _ _ _ _ T _ _ Hi) as (l & Hl & _). exists (g l).
      rewrite list_lookup_alter_eq, Hl. split; [done|]. destruct (Hg _ Hl) as [H1 H2].
      split; [intros [_ H]; auto|intros H; apply H2; tauto].
    + destruct (it_lock _ _ _ _ _ _ _ T _ _ Hj) as (l & Hl & H1 & H2). exists l.
      rewrite list_lookup_alter_ne by (unfold ilockid; lia). split; [done|].
      assert (Hiff : 0 < iref jp -> inum jp ∈ L' <-> inum jp ∈ L).
      { intros Hrj. apply HL. intros En. apply Hji. by eapply (it_unique _ _ _ _ _ _ _ T). }
      split; [intros [Ha Hb]; apply H1|intros Ha; apply H2; intros [Hb Hc]; apply Ha]; (split; [done|]); by apply Hiff.
  - intros n Hn. destruct (decide (n = inum ip)) as [->|Hne].
    + destruct (it_ref _ _ _ _ _ _ _ T _ _ Hi Hr) as [-> _]. done.
    + apply T. by apply HL.
Qed.

Lemma table_sl tab sl sl' R L :
  table_rep tab sl R L -> (forall i, (NBUF <= i)%nat -> sl' !! i = sl !! i) -> table_rep tab sl' R L.
Proof.
  intros T Hs. split; try apply T. intros i ip Hi. rewrite Hs by (unfold ilockid; lia).
  by apply (it_lock _ _ _ _ _ _ _ T).
Qed.

(** A table with fewer inodes than entries has a free entry. *)
Lemma table_free tab sl R L : table_rep tab sl R L -> (size R < NINODE)%nat ->
  exists i ip, tab !! i = Some ip /\ iref ip = 0.
Proof.
  intros T Hsz. destruct (decide (Exists (fun ip => iref ip = 0) tab)) as [H|H].
  { apply list.Exists_exists in H as (ip & Hin & E). apply list_elem_of_lookup in Hin as [i Hi]. eauto. }
  exfalso. assert (Hpos : forall i ip, tab !! i = Some ip -> 0 < iref ip).
  { intros i ip Hi. pose proof (it_nonneg _ _ _ _ _ _ _ T _ _ Hi).
    destruct (decide (iref ip = 0)); [|lia]. exfalso. apply H, list.Exists_exists. exists ip.
    split; [by eapply list_elem_of_lookup_2|done]. }
  assert (HN : NoDup (inum <$> tab)).
  { apply NoDup_alt. intros i j n Hi Hj. rewrite list_lookup_fmap in Hi, Hj.
    apply fmap_Some in Hi as (ip & Hi & ->). apply fmap_Some in Hj as (jp & Hj & E).
    eapply (it_unique _ _ _ _ _ _ _ T); eauto. }
  assert (Hsub : inum <$> tab ⊆ elements (dom R)).
  { intros n Hn. apply list_elem_of_fmap in Hn as (ip & -> & Hin). apply list_elem_of_lookup in Hin as [i Hi].
    apply elem_of_elements, elem_of_dom. destruct (it_ref _ _ _ _ _ _ _ T _ _ Hi (Hpos _ _ Hi)) as [-> _]. done. }
  assert (Hle := submseteq_length _ _ (NoDup_submseteq _ _ HN Hsub)).
  rewrite length_fmap, (it_len _ _ _ _ _ _ _ T) in Hle.
  change (length (elements (dom R))) with (size (dom R)) in Hle. rewrite size_dom in Hle. lia.
Qed.

(** A table with as many inodes as entries has none. *)
Lemma table_full tab sl R L : table_rep tab sl R L -> (NINODE <= size R)%nat ->
  forall i ip, tab !! i = Some ip -> 0 < iref ip.
Proof.
  intros T Hsz i ip Hi. pose proof (it_nonneg _ _ _ _ _ _ _ T _ _ Hi). destruct (decide (iref ip = 0)) as [H0|]; [|lia].
  exfalso. set (used_ := filter (fun ip => 0 < iref ip) tab).
  assert (Hsub : elements (dom R) ⊆ inum <$> used_).
  { intros n Hn%elem_of_elements%elem_of_dom. destruct Hn as [c Hc].
    destruct (it_found _ _ _ _ _ _ _ T _ _ Hc) as (Hpos & j & jp & Hj & <- & <-). apply list_elem_of_fmap.
    exists jp. split; [done|]. apply list_elem_of_filter. split; [done|by eapply list_elem_of_lookup_2]. }
  assert (Hle := submseteq_length _ _ (NoDup_submseteq _ _ (NoDup_elements (dom R)) Hsub)).
  change (length (elements (dom R))) with (size (dom R)) in Hle. rewrite size_dom, length_fmap in Hle.
  assert (Hlt : (length used_ < length tab)%nat).
  { apply length_filter_lt with ip; [by eapply list_elem_of_lookup_2|lia]. }
  rewrite (it_len _ _ _ _ _ _ _ T) in Hlt. lia.
Qed.
End table.

(** ** Calls *)

Section calls.
Context {DK : Disk} {DL : @DiskLaw DK} (fuel : nat) (p : nat) (pr : proc) (e : env).
Notation fs_rep := (fs_rep p pr).

(** The inode table and the cache in a state where the process has no buffer
    locked: [R] counts the references to inodes, those of [L] are locked by
    the process, the blocks [h] are pinned. *)
Definition ino_rep (s : mach) (v : Z -> list Z) (h : list Z) (R : gmap Z Z) (L : list Z) : Prop :=
  fs_rep s v h [] /\ table_rep v (sb s) (pid pr) (inodes s) (sleeplocks s) R L.

(** Steps that write nothing and keep the entries of the inodes in [keep]. *)
Record ino_step (keep : gset Z) (s t : mach) : Prop := mkInoStep {
  is_frame : fs_frame s t;
  is_log : slog t = slog s;
  is_writes : writes (bc t) = writes (bc s);
  is_disk : forall b, disk (bc t) b = disk (bc s) b;
  is_names : forall i n, n ∈ keep -> names (inodes s) i n -> names (inodes t) i n
}.

Lemma ino_step_trans keep s t u :
  hart_ok s -> ino_step keep s t -> ino_step keep t u -> ino_step keep s u.
Proof.
  intros H [F1 L1 W1 D1 N1] [F2 L2 W2 D2 N2]. split.
  - by eapply fs_frame_trans.
  - congruence.
  - congruence.
  - intros b. by rewrite D2.
  - auto.
Qed.

Lemma ino_step_refl keep s : ino_step keep s s.
Proof. split; try done. apply fs_frame_refl. Qed.

Lemma ino_step_weaken keep keep' s t : keep' ⊆ keep -> ino_step keep s t -> ino_step keep' s t.
Proof. intros Hk [F L W D N]. split; auto. Qed.

Lemma bio_ino_step keep h s t : bio_step h [] s t -> ino_step keep s t.
Proof.
  intros [S E]. split; [apply S|done|apply S|apply S|]. by rewrite (bs_inodes _ _ _ _ S).
Qed.

Lemma ino_step_sb keep s t : ino_step keep s t -> sb t = sb s.
Proof. intros [[-> _]]. done. Qed.

Lemma bio_ino_rep s t v h R L : ino_rep s v h R L -> fs_rep t v h [] -> bio_step h [] s t -> ino_rep t v h R L.
Proof.
  intros [_ T] Rt [S E]. split; [done|].
  rewrite (bs_inodes _ _ _ _ S). assert (sb t = sb s) as -> by (destruct S as [[-> _]]; done).
  eapply table_sl; [done|]. apply S.
Qed.

Lemma cache_rep_sl c sl sl' v h k :
  cache_rep c sl (pid pr) v h k -> (forall n, (n < NBUF)%nat -> sl' !! n = sl !! n) ->
  cache_rep c sl' (pid pr) v h k.
Proof.
  intros R Hs. split; try apply R. intros n b Hb. rewrite Hs; [by apply (cr_lock _ _ _ _ _ _ R)|].
  rewrite <- (cr_len _ _ _ _ _ _ R). by eapply lookup_lt_Some.
Qed.

(** Leaving a critical section with new inodes and inode locks. *)
Definition with_ino (g : list inode -> list inode) (l : list sleeplock -> list sleeplock) (s : mach) : mach :=
  s <| inodes ::= g |> <| sleeplocks ::= l |>.

Lemma ino_rep_with g l s v h R L R' L' :
  ino_rep s v h R L -> (forall n, (n < NBUF)%nat -> l (sleeplocks s) !! n = sleeplocks s !! n) ->
  table_rep v (sb s) (pid pr) (g (inodes s)) (l (sleeplocks s)) R' L' ->
  ino_rep (left_off (with_ino g l s)) v h R' L'.
Proof.
  intros [[Hf Rc] _] Hl T. split; [|done]. split; [by apply fs_thread_left_off, (fs_thread_same s)|].
  by eapply cache_rep_sl.
Qed.

Lemma ino_step_with keep g l s :
  (forall i n, n ∈ keep -> names (inodes s) i n -> names (g (inodes s)) i n) ->
  ino_step keep s (left_off (with_ino g l s)).
Proof. intros Hn. split; try done. split; [by destruct s|by right]. Qed.

Lemma fs_rep_ino g s v h k : fs_rep s v h k -> fs_rep (s <| inodes ::= g |>) v h k.
Proof. intros [Hf R]. split; [by apply (fs_thread_same s)|done]. Qed.

Lemma get_inode_Ret i s ip : inodes s !! i = Some ip -> get_inode i e s = Ret ip e s.
Proof. intros H. unfold get_inode. msimp. by rewrite H. Qed.

Lemma set_inode_Ret i f s ip : inodes s !! i = Some ip ->
  set_inode i f e s = Ret tt e (s <| inodes ::= alter f i |>).
Proof. intros H. unfold set_inode. by rewrite bindE, (get_inode_Ret i s ip). Qed.

Lemma wp_get_inode i s ip (Q : inode -> mach -> Prop) :
  inodes s !! i = Some ip -> Q ip s -> wp (get_inode i) e s Q.
Proof. intros H. by apply wp_call, get_inode_Ret. Qed.

(** The scan of [iget]. *)
Lemma iget_scan_spec n s l empty : (forall i, i ∈ l -> is_Some (inodes s !! i)) ->
  (exists i ip, i ∈ l /\ inodes s !! i = Some ip /\ 0 < iref ip /\ inum ip = n /\
     iget_scan ROOTDEV n l empty e s =
     (set_inode i (fun ip => ip <| iref := iref ip + 1 |>);; release Litable;; mret (inl i)) e s) \/
  exists r, iget_scan ROOTDEV n l empty e s = Ret (inr r) e s /\
    (forall i ip, i ∈ l -> inodes s !! i = Some ip -> 0 < iref ip -> idev ip = ROOTDEV -> inum ip <> n) /\
    match r with
    | Some i => empty = Some i \/ exists ip, inodes s !! i = Some ip /\ iref ip = 0
    | None => empty = None /\ forall i ip, i ∈ l -> inodes s !! i = Some ip -> iref ip <> 0
    end.
Proof.
  revert empty. induction l as [|i l IH]; intros empty Hl.
  { right. exists empty. split; [done|]. split; [by intros i ip ?%elem_of_nil|].
    destruct empty; [by left|]. split; [done|]. by intros i ip ?%elem_of_nil. }
  destruct (Hl i ltac:(left)) as [ip Hi]. cbn [iget_scan]. rewrite bindE, (get_inode_Ret i s ip) by done.
  destruct ((0 <? iref ip) && (idev ip =? ROOTDEV) && (inum ip =? n)) eqn:E.
  { apply andb_true_iff in E as [[E1 E2]%andb_true_iff E3]. left. exists i, ip. split; [left|].
    split; [done|]. split; [lia|]. split; [lia|done]. }
  set (empty' := match empty with Some _ => empty | None => if iref ip =? 0 then Some i else None end).
  destruct (IH empty' ltac:(intros; apply Hl; by right)) as [(j & jp & Hj & H)|(r & Er & Hm & Hr)].
  { left. exists j, jp. split; [by right|done]. }
  right. exists r. split; [done|]. split.
  - intros j jp [->|Hj]%elem_of_cons Hjp; [|by eapply Hm]. assert (ip = jp) as <- by congruence. intros H1 H2 H3.
    by rewrite (proj2 (Z.ltb_lt 0 (iref ip))), (proj2 (Z.eqb_eq _ _) H2), (proj2 (Z.eqb_eq _ _) H3) in E by done.
  - unfold empty' in Hr. destruct r as [j|].
    + destruct Hr as [Hr|Hr]; [|by right]. destruct empty as [k|]; [by left|].
      destruct (Z.eqb_spec (iref ip) 0); [|done]. simplify_eq. right. eauto.
    + destruct Hr as [He Hr]. destruct empty as [k|]; [done|]. destruct (Z.eqb_spec (iref ip) 0); [done|].
      split; [done|]. intros j jp [->|Hj]%elem_of_cons Hjp; [by simplify_eq|by eapply Hr].
Qed.

(** Acquiring and releasing the lock of the table around changes of entries. *)
Lemma release_itable (g : list inode -> list inode) s : hart_ok s -> free_lock s Litable ->
  release Litable e (enter Litable s <| inodes ::= g |>) = Ret tt e (left_off (with_ino g id s)).
Proof. intros Hok Hf. apply (release_from Litable e _ (with_ino g id s)); [|done|done]. by destruct s. Qed.

Lemma ino_rep_hart s v h R L : ino_rep s v h R L -> hart_ok s.
Proof. intros [[H _] _]. apply (ft_table _ _ _ H). Qed.

Lemma ino_rep_free s v h R L : ino_rep s v h R L -> free_lock s Litable.
Proof. intros [[H _] _]. apply H. Qed.

(** A change of an entry in use that keeps it in use keeps all names. *)
Lemma names_alter tab i g :
  (forall ip, tab !! i = Some ip -> 0 < iref ip -> 0 < iref (g ip) /\ inum (g ip) = inum ip) ->
  forall j n, names tab j n -> names (alter g i tab) j n.
Proof.
  intros Hg j n (jp & Hj & <- & Hr). destruct (decide (j = i)) as [->|Hne].
  - destruct (Hg _ Hj Hr) as [H1 H2]. exists (g jp). by rewrite list_lookup_alter_eq, Hj.
  - exists jp. by rewrite list_lookup_alter_ne.
Qed.

Lemma ino_step_set keep i g s ip :
  inodes s !! i = Some ip -> 0 < iref (g ip) -> inum (g ip) = inum ip -> ino_step keep s (s <| inodes ::= alter g i |>).
Proof.
  intros Hi Hr Hn. split; try done; [split; [by destruct s|by left]|].
  intros j n _. apply names_alter. intros jp Hj _. assert (jp = ip) as -> by congruence. done.
Qed.

Lemma wp_iget keep n s v h R L (Q : nat -> mach -> Prop) :
  ino_rep s v h R L -> is_Some (R !! n) \/ (size R < NINODE)%nat ->
  (forall i t, ino_rep t v h (refs_add n R) L -> names (inodes t) i n -> ino_step keep s t -> Q i t) ->
  wp (iget ROOTDEV n) e s Q.
Proof.
  intros H Hroom HQ. assert (Hok := ino_rep_hart _ _ _ _ _ H). assert (Hf := ino_rep_free _ _ _ _ _ H).
  assert (T := proj2 H). unfold iget. apply wp_bind. eapply wp_call; [by apply acquire_Ret|].
  set (s0 := enter Litable s). assert (Hinit : forall i, i ∈ seq 0 NINODE -> is_Some (inodes s0 !! i)).
  { intros i Hi%elem_of_seq. apply lookup_lt_is_Some_2. change (inodes s0) with (inodes s).
    rewrite (it_len _ _ _ _ _ _ _ T). lia. }
  apply wp_bind. destruct (iget_scan_spec n s0 (seq 0 NINODE) None Hinit)
    as [(i & ip & _ & Hi & Hr & En & E)|(r & E & Hm & Hr)].
  - set (g := fun ip : inode => ip <| iref := iref ip + 1 |>) in *.
    apply (wp_call _ _ _ (inl i) (left_off (with_ino (alter g i) id s))).
    { rewrite E, bindE, (set_inode_Ret i g s0 ip) by done. unfold s0. by rewrite bindE, release_itable. }
    apply wp_ret, HQ.
    + eapply ino_rep_with; [done|done|]. subst n. by apply table_ref.
    + exists (g ip). split; [|split; [done|cbn; lia]]. by apply (lookup_alter_here g).
    + apply ino_step_with. intros j m _. apply names_alter. intros jp Hj Hrj. cbn. split; [lia|done].
  - eapply wp_call; [exact E|]. assert (Hnew : R !! n = None).
    { destruct (R !! n) as [c|] eqn:Ec; [|done]. exfalso.
      destruct (it_found _ _ _ _ _ _ _ T _ _ Ec) as (Hc & i & ip & Hi & En & Er).
      apply (Hm i ip); [apply elem_of_seq|done|lia| |done].
      - apply lookup_lt_Some in Hi. rewrite (it_len _ _ _ _ _ _ _ T) in Hi. lia.
      - eapply (it_ref _ _ _ _ _ _ _ T); [done|lia]. }
    destruct r as [i|].
    + destruct Hr as [Hr|(ip & Hi & Hr)]; [done|].
      set (g := fun ip : inode => ip <| idev := ROOTDEV |> <| inum := n |> <| iref := 1 |> <| ivalid := 0 |>).
      apply wp_bind. eapply wp_call; [by apply (set_inode_Ret i g s0 ip)|].
      apply wp_bind. eapply wp_call; [by apply release_itable|]. apply wp_ret, HQ.
      * eapply ino_rep_with; [done|done|]. by apply (table_new _ _ _ _ _ _ _ _ ip).
      * exists (g ip). split; [|done]. by apply (lookup_alter_here g).
      * apply ino_step_with. intros j m _. apply names_alter. intros jp Hj Hrj. exfalso.
        change (inodes s0) with (inodes s) in Hi. assert (jp = ip) by congruence. subst. lia.
    + exfalso. destruct Hroom as [[c Hc]|Hroom]; [congruence|].
      destruct (table_free _ _ _ _ _ _ _ T Hroom) as (i & ip & Hi & H0). destruct Hr as [_ Hr].
      apply (Hr i ip); [|done|done]. apply elem_of_seq. apply lookup_lt_Some in Hi.
      rewrite (it_len _ _ _ _ _ _ _ T) in Hi. lia.
Qed.

Lemma wp_idup keep i n s v h R L (Q : option nat -> mach -> Prop) :
  ino_rep s v h R L -> names (inodes s) i n ->
  (forall t, ino_rep t v h (refs_add n R) L -> names (inodes t) i n -> ino_step keep s t -> Q (Some i) t) ->
  wp (idup (Some i)) e s Q.
Proof.
  intros H (ip & Hi & En & Hr) HQ. assert (Hok := ino_rep_hart _ _ _ _ _ H).
  assert (Hf := ino_rep_free _ _ _ _ _ H). assert (T := proj2 H). set (g := fun ip : inode => ip <| iref := iref ip + 1 |>).
  unfold idup. apply wp_bind. eapply wp_call; [by apply acquire_Ret|]. apply wp_bind. eapply wp_or_fault; [done|].
  apply wp_bind. eapply wp_call; [by apply (set_inode_Ret i g (enter Litable s) ip)|].
  apply wp_bind. eapply wp_call; [by apply release_itable|]. apply wp_ret.
  assert (Hkeep : forall j m, names (inodes s) j m -> names (alter g i (inodes s)) j m).
  { intros j m. apply names_alter. intros jp Hj Hrj. cbn. split; [lia|done]. }
  apply HQ.
  - eapply ino_rep_with; [done|done|]. subst n. by apply table_ref.
  - apply Hkeep. by exists ip.
  - apply ino_step_with. auto.
Qed.

(** [iput] of an inode that stays: it has another reference or a link. *)
Lemma wp_iput keep i n s v h R L (Q : unit -> mach -> Prop) :
  ino_rep s v h R L -> names (inodes s) i n -> n ∉ L ->
  R !! n <> Some 1 \/ nlink (dinode v (sb s) n) <> 0 ->
  (forall m, m ∈ keep -> is_Some (refs_drop n R !! m)) ->
  (forall t, ino_rep t v h (refs_drop n R) L -> ino_step keep s t -> Q tt t) ->
  wp (iput fuel (Some i)) e s Q.
Proof.
  intros H (ip & Hi & En & Hr) HL Hstay Hk HQ. assert (Hok := ino_rep_hart _ _ _ _ _ H).
  assert (Hf := ino_rep_free _ _ _ _ _ H). assert (T := proj2 H). set (g := fun ip : inode => ip <| iref := iref ip - 1 |>).
  destruct (it_ref _ _ _ _ _ _ _ T _ _ Hi Hr) as [ER _]. rewrite En in ER.
  unfold iput. apply wp_bind. eapply wp_call; [by apply acquire_Ret|]. apply wp_bind. eapply wp_or_fault; [done|].
  apply wp_bind. eapply wp_get_inode; [done|]. apply wp_bind, wp_when.
  { intros [[E1 E2]%andb_true_iff E3]%andb_true_iff. exfalso. destruct Hstay as [Hs|Hs].
    - apply Hs. rewrite ER. f_equal. lia.
    - apply Hs. destruct (it_valid _ _ _ _ _ _ _ T _ _ Hi Hr) as (_ & _ & _ & E & _); [lia|].
      rewrite <- En, <- E. lia. }
  intros _. apply wp_bind. eapply wp_call; [by apply (set_inode_Ret i g (enter Litable s) ip)|].
  eapply wp_call; [by apply release_itable|]. apply HQ.
  - eapply ino_rep_with; [done|done|]. subst n. by apply table_drop.
  - apply ino_step_with. intros j m Hm (jp & Hj & Ej & Hrj). destruct (decide (j = i)) as [->|Hne].
    + assert (jp = ip) as -> by congruence. exists (g ip). split; [by apply (lookup_alter_here g)|].
      split; [done|]. destruct (Hk _ Hm) as [c Hc]. assert (m = n) as -> by congruence.
      rewrite (refs_drop_same _ _ _ ER) in Hc. cbn. destruct (Z.eqb_spec (iref ip) 1); [done|lia].
    + exists jp. by rewrite list_lookup_alter_ne.
Qed.

Lemma with_ino_locks l s : with_ino id l s = s <| sleeplocks ::= l |>.
Proof. by destruct s. Qed.

Lemma with_ino_inodes g s : with_ino g id s = s <| inodes ::= g |>.
Proof. by destruct s. Qed.

Lemma ilock_ready i ip s v h R L : ino_rep s v h R L -> inodes s !! i = Some ip ->
  exists l, ready s (ilockid i) p l pr /\ lock_state (pid pr) (0 < iref ip /\ inum ip ∈ L) l.
Proof.
  intros [[Hf _] T] Hi. destruct (it_lock _ _ _ _ _ _ _ T _ _ Hi) as (l & Hl & Hs). exists l. split; [|done].
  eapply fs_thread_ready; [done| |done]. unfold ilockid. apply lookup_lt_Some in Hi.
  rewrite (it_len _ _ _ _ _ _ _ T) in Hi. lia.
Qed.

(** Inode [n], loaded in entry [i]. *)
Definition loaded (v : Z -> list Z) (s : mach) (i : nat) (n : Z) : Prop :=
  exists ip, inodes s !! i = Some ip /\ inum ip = n /\ 0 < iref ip /\ idev ip = ROOTDEV /\
    same_file ip (dinode v (sb s) n).

Lemma loaded_names v s i n : loaded v s i n -> names (inodes s) i n.
Proof. intros (ip & H1 & H2 & H3 & _). by exists ip. Qed.

Lemma bio_loaded v h s t i n : bio_step h [] s t -> loaded v s i n -> loaded v t i n.
Proof.
  intros [S _] (ip & H). exists ip. rewrite (bs_inodes _ _ _ _ S).
  assert (sb t = sb s) as -> by (destruct S as [[-> _]]; done). done.
Qed.

Lemma wp_acquire_ino keep i ip s v h R L (Q : unit -> mach -> Prop) :
  ino_rep s v h R L -> inodes s !! i = Some ip -> 0 < iref ip -> inum ip ∉ L ->
  (forall t, ino_rep t v h R (inum ip :: L) -> inodes t = inodes s -> ino_step keep s t -> Q tt t) ->
  wp (acquiresleep (S fuel) (ilockid i)) e s Q.
Proof.
  intros H Hi Hr HL HQ. destruct (ilock_ready i ip s v h R L H Hi) as (l & Hl & H1 & H2).
  set (g := fun l : sleeplock => l <| slocked := 1 |> <| spid := pid pr |>).
  apply (wp_call _ _ _ tt (left_off (with_ino id (alter g (ilockid i)) s))).
  { rewrite with_ino_locks. apply (acquiresleep_free fuel _ e s p l pr); [done|]. apply H2. tauto. }
  apply HQ; [|done|apply ino_step_with; auto]. eapply ino_rep_with; [done| |].
  - intros n Hn. rewrite list_lookup_alter_ne; [done|]. unfold ilockid. lia.
  - eapply table_locks; [apply H|done|done| |].
    + intros l' _. split; [done|]. intros []. left.
    + intros n Hn. rewrite elem_of_cons. naive_solver.
Qed.

Lemma wp_release_ino keep i ip s v h R L (Q : unit -> mach -> Prop) :
  ino_rep s v h R (inum ip :: L) -> inodes s !! i = Some ip -> 0 < iref ip -> inum ip ∉ L ->
  (forall t, ino_rep t v h R L -> inodes t = inodes s -> ino_step keep s t -> Q tt t) ->
  wp (releasesleep (ilockid i)) e s Q.
Proof.
  intros H Hi Hr HL HQ. destruct (ilock_ready i ip s v h R _ H Hi) as (l & Hl & H1 & H2).
  set (g := fun l : sleeplock => l <| slocked := 0 |> <| spid := 0 |>).
  apply (wp_call _ _ _ tt (left_off (with_ino id (alter g (ilockid i)) s))).
  { rewrite (releasesleep_Ret (ilockid i) e s p l pr Hl), with_ino_locks. do 2 f_equal.
    rewrite (procs_update_ext _ _ id); [by destruct s|]. apply (wake1_quiet s p pr); [apply H|done]. }
  apply HQ; [|done|apply ino_step_with; auto]. eapply ino_rep_with; [done| |].
  - intros n Hn. rewrite list_lookup_alter_ne; [done|]. unfold ilockid. lia.
  - eapply table_locks; [apply H|done|done| |].
    + intros l' _. by split.
    + intros n Hn. rewrite elem_of_cons. naive_solver.
Qed.

Lemma wp_ilock keep i n s v h R L (Q : unit -> mach -> Prop) :
  ino_rep s v h R L -> names (inodes s) i n -> n ∉ L -> itype (dinode v (sb s) n) <> 0 ->
  (length h < NBUF)%nat ->
  (forall t, ino_rep t v h R (n :: L) -> loaded v t i n -> ino_step keep s t -> Q tt t) ->
  wp (ilock (S fuel) (Some i)) e s Q.
Proof.
  intros H (ip & Hi & En & Hr) HL Hty Hroom HQ. subst n. cbn [ilock].
  apply wp_bind. eapply wp_get_inode; [done|]. rewrite (proj2 (Z.ltb_ge _ _)) by lia.
  apply wp_bind. apply (wp_acquire_ino keep i ip _ _ _ _ _ _ H); [done..|]. intros t1 H1 E1 S1.
  assert (Hsb1 := ino_step_sb _ _ _ S1). rewrite <- E1 in Hi. assert (T1 := proj2 H1).
  apply wp_bind. eapply wp_get_inode; [done|].
  destruct (it_ref _ _ _ _ _ _ _ T1 _ _ Hi Hr) as [_ Hdev]. destruct (Z.eqb_spec (ivalid ip) 0) as [Hv|Hv].
  2: { apply wp_ret, HQ; [done| |done]. exists ip. repeat (split; [done|]). by apply (it_valid _ _ _ _ _ _ _ T1 i). }
  apply wp_bind, wp_read. rewrite Hdev. apply wp_bind.
  eapply (wp_bread_ro fuel p pr e); [apply H1|done|]. intros bp t2 R2 B2 S2 C2.
  apply wp_bind. eapply (wp_get_buf p pr); [done|done|]. intros d Hdat _. rewrite Hdat. clear d Hdat.
  assert (Hi2 : inodes t2 !! i = Some ip) by by rewrite (bs_inodes _ _ _ _ S2).
  set (g := get_dinode (v (IBLOCK (inum ip) (sb t1))) (dinode_off (inum ip))).
  set (one := fun jp : inode => jp <| ivalid := 1 |>).
  apply wp_bind. eapply wp_call; [by apply (set_inode_Ret i g t2 ip)|]. set (t3 := t2 <| inodes ::= alter g i |>).
  apply wp_bind. eapply (wp_brelse_ro p pr e bp); [by apply fs_rep_ino|done|exact C2|]. intros t4 R4 S4.
  assert (Hi4 : inodes t4 = alter g i (inodes t1)).
  { rewrite (bs_inodes _ _ _ _ S4). change (inodes t3) with (alter g i (inodes t2)).
    by rewrite (bs_inodes _ _ _ _ S2). }
  assert (Hg : inodes t4 !! i = Some (g ip)) by (rewrite Hi4; by apply (lookup_alter_here g)).
  apply wp_bind. eapply wp_call; [by apply (set_inode_Ret i one t4 (g ip))|].
  set (t5 := t4 <| inodes ::= alter one i |>).
  assert (Hi5 : inodes t5 = alter (one ∘ g) i (inodes t1)).
  { change (inodes t5) with (alter one i (inodes t4)). rewrite Hi4. apply list_alter_alter_eq. }
  assert (Hg5 : inodes t5 !! i = Some (one (g ip))) by (rewrite Hi5; by apply (lookup_alter_here (one ∘ g))).
  assert (Hok : hart_ok s) by by eapply ino_rep_hart.
  assert (S5 : ino_step keep s t5).
  { apply (ino_step_trans _ _ t1); [done|done|]. assert (Hok1 := ino_rep_hart _ _ _ _ _ H1).
    apply (ino_step_trans _ _ t2); [done|by eapply bio_ino_step|].
    apply (ino_step_trans _ _ t3); [eapply fs_rep_hart, R2|apply (ino_step_set _ _ _ _ ip); [exact Hi2|exact Hr|reflexivity]|].
    apply (ino_step_trans _ _ t4); [by eapply fs_rep_hart, fs_rep_ino|by eapply bio_ino_step|].
    apply (ino_step_set _ _ _ _ (g ip)); [exact Hg|exact Hr|reflexivity]. }
  assert (Hsb5 := ino_step_sb _ _ _ S5).
  apply wp_bind. eapply wp_get_inode; [done|]. change (itype (one (g ip))) with (itype (dinode v (sb t1) (inum ip))).
  rewrite Hsb1, (proj2 (Z.eqb_neq _ 0)) by done. apply wp_ret, HQ; [| |done].
  - split; [by apply fs_rep_ino|]. rewrite Hi5, Hsb5, <- Hsb1. eapply table_sl; [by apply table_load|].
    intros j Hj. change (sleeplocks t5) with (sleeplocks t4). rewrite (bs_locks _ _ _ _ S4) by done.
    change (sleeplocks t3) with (sleeplocks t2). by apply (bs_locks _ _ _ _ S2).
  - exists (one (g ip)). rewrite Hsb5, <- Hsb1. done.
Qed.

Lemma wp_iunlock keep i n s v h R L (Q : unit -> mach -> Prop) :
  ino_rep s v h R (n :: L) -> names (inodes s) i n -> n ∉ L ->
  (forall t, ino_rep t v h R L -> inodes t = inodes s -> ino_step keep s t -> Q tt t) ->
  wp (iunlock (Some i)) e s Q.
Proof.
  intros H (ip & Hi & <- & Hr) HL HQ. cbn [iunlock]. destruct (ilock_ready i ip _ _ _ _ _ H Hi) as (l & Hl & H1 & _).
  destruct H1 as [E1 E2]; [split; [done|left]|].
  apply wp_bind. eapply wp_call; [by apply (holdingsleep_Ret (ilockid i) e s p l pr)|].
  rewrite E1, E2, Z.eqb_refl. change (negb (1 =? 0) && true) with true. cbn [negb].
  assert (E : left_off s = left_off (with_ino id id s)) by by destruct s.
  apply wp_bind. eapply wp_get_inode; [done|]. rewrite (proj2 (Z.ltb_ge _ _)) by lia.
  apply (wp_release_ino keep i ip (left_off s) v h R L); [|exact Hi|exact Hr|exact HL|].
  - rewrite E. apply (ino_rep_with _ _ _ _ _ _ _ _ _ H); [done|apply H].
  - intros t Ht Et St. apply HQ; [done|done|]. apply (ino_step_trans _ _ (left_off s)); [by eapply ino_rep_hart| |done].
    rewrite E. by apply ino_step_with.
Qed.

Lemma wp_iunlockput keep i n s v h R L (Q : unit -> mach -> Prop) :
  ino_rep s v h R (n :: L) -> names (inodes s) i n -> n ∉ L ->
  R !! n <> Some 1 \/ nlink (dinode v (sb s) n) <> 0 ->
  (forall m, m ∈ keep -> is_Some (refs_drop n R !! m)) ->
  (forall t, ino_rep t v h (refs_drop n R) L -> ino_step keep s t -> Q tt t) ->
  wp (iunlockput fuel (Some i)) e s Q.
Proof.
  intros H Hn HL Hstay Hk HQ. unfold iunlockput. apply wp_bind. eapply (wp_iunlock keep); [done..|].
  intros t1 H1 E1 S1. eapply (wp_iput keep i n); [done|by rewrite E1|done| |done|].
  - by rewrite (ino_step_sb _ _ _ S1).
  - intros t2 H2 S2. apply HQ; [done|]. apply (ino_step_trans _ _ t1); [by eapply ino_rep_hart|done..].
Qed.

(** The inode table refines a finite map from inode numbers to reference
    counts.  [iget] adds one to the count of its inode, whether it was in the
    table or gets a free entry, and returns the one entry of that inode; it
    panics exactly when the inode is new and as many different inodes are in
    use as there are entries. *)
Theorem iget_refines (n : Z) (s : mach) (v : Z -> list Z) (h : list Z) (R : gmap Z Z) (L : list Z) :
  ino_rep s v h R L ->
  (is_Some (R !! n) \/ (size R < NINODE)%nat -> exists i t, iget ROOTDEV n e s = Ret i e t /\
     ino_rep t v h (refs_add n R) L /\ names (inodes t) i n /\
     (forall j, names (inodes t) j n -> j = i) /\ ino_step (dom R) s t) /\
  (R !! n = None -> (NINODE <= size R)%nat -> exists t, iget ROOTDEV n e s = Panic "iget: no inodes"%string t).
Proof.
  intros H. assert (Hok := ino_rep_hart _ _ _ _ _ H). assert (Hf := ino_rep_free _ _ _ _ _ H). split.
  - intros Hroom. assert (Hw : wp (iget ROOTDEV n) e s (fun i t =>
      ino_rep t v h (refs_add n R) L /\ names (inodes t) i n /\ ino_step (dom R) s t)) by (eapply wp_iget; eauto).
    destruct Hw as (i & t & E & Ht & Hn & St). exists i, t. split; [done|]. split; [done|]. split; [done|].
    split; [|done]. intros j (jp & Hj & Ej & Hrj). destruct Hn as (ip & Hi & Ei & Hri).
    eapply (it_unique _ _ _ _ _ _ _ (proj2 Ht)); [done|done|done|done|congruence].
  - intros Hn Hsz. assert (T := proj2 H). assert (Hused := table_full _ _ _ _ _ _ _ T Hsz).
    unfold iget. rewrite bindE, acquire_Ret by done. set (s0 := enter Litable s).
    assert (Hinit : forall i, i ∈ seq 0 NINODE -> is_Some (inodes s0 !! i)).
    { intros i Hi%elem_of_seq. apply lookup_lt_is_Some_2. change (inodes s0) with (inodes s).
      rewrite (it_len _ _ _ _ _ _ _ T). lia. }
    rewrite bindE. destruct (iget_scan_spec n s0 (seq 0 NINODE) None Hinit)
      as [(i & ip & _ & Hi & Hr & En & E)|(r & E & Hm & Hr)].
    + exfalso. destruct (it_ref _ _ _ _ _ _ _ T i ip Hi Hr) as [E' _]. congruence.
    + rewrite E. destruct r as [i|]; [|by eexists]. exfalso. destruct Hr as [Hr|(ip & Hi & H0)]; [done|].
      specialize (Hused i ip Hi). lia.
Qed.

(** [ilock] takes the lock of an inode that is referred to and leaves its
    entry holding what the disk says about the inode; it panics for a null
    pointer, for an entry without references, and for an inode that the disk
    says is free.  [iunlock] gives the lock back. *)
Theorem ilock_loads (i : nat) (n : Z) (s : mach) (v : Z -> list Z) (h : list Z) (R : gmap Z Z) (L : list Z) :
  ino_rep s v h R L -> n ∉ L -> (length h < NBUF)%nat ->
  (names (inodes s) i n -> itype (dinode v (sb s) n) <> 0 -> exists t u,
     ilock (S fuel) (Some i) e s = Ret tt e t /\ ino_rep t v h R (n :: L) /\ loaded v t i n /\ ino_step (dom R) s t /\
     iunlock (Some i) e t = Ret tt e u /\ ino_rep u v h R L /\ inodes u = inodes t) /\
  (forall ip, inodes s !! i = Some ip -> iref ip = 0 -> ilock (S fuel) (Some i) e s = Panic "ilock"%string s) /\
  ilock (S fuel) None e s = Panic "ilock"%string s.
Proof.
  intros H HL Hroom. split; [|split; [|done]].
  - intros Hn Hty. assert (Hw : wp (ilock (S fuel) (Some i)) e s (fun _ t => ino_rep t v h R (n :: L) /\
      loaded v t i n /\ ino_step (dom R) s t)).
    { eapply (wp_ilock (dom R)); [done..|]. intros t Ht Hl St. done. }
    destruct Hw as ([] & t & E & Ht & Hl & St).
    assert (Hw : wp (iunlock (Some i)) e t (fun _ u => ino_rep u v h R L /\ inodes u = inodes t)).
    { eapply (wp_iunlock ∅); [done|by eapply loaded_names|done|]. intros u Hu Eu _. done. }
    destruct Hw as ([] & u & Eu & Hu & Iu). exists t, u. done.
  - intros ip Hi Hr. unfold ilock. rewrite bindE, (get_inode_Ret i s ip), Hr by done. done.
Qed.
End calls.
