(* ===== verification/Namei.v ===== *)
(** * Directories and paths

    Correctness of [dirlookup], [skipelem] and [namex] of [kernel/fs.c]: a
    path names the inode that its elements lead to in the directory tree. *)
From stdpp Require Import base tactics list numbers gmap strings.
From S2P Require Import Prelude Machine Wp Spinlock Sched Sleeplock Blocks Bio Log LogCalls Vm File Proc Fs FsBlocks FsInode Itable.

Open Scope Z_scope.

(** ** Path elements *)

(** The parts of a path between slashes. *)
Fixpoint split (path : list Z) : list (list Z) :=
  match path with
  | [] => [[]]
  | c :: p =>
      if c =? SLASH then [] :: split p
      else match split p with e :: es => (c :: e) :: es | [] => [[c]] end
  end.

(** The elements: the parts that are not empty, as names. *)
Definition path_elems (path : list Z) : list (list Z) :=
  take DIRSIZ <$> filter (fun e => e <> []) (split path).

Lemma split_take_elem path :
  let '(e, r) := take_elem path in
  split path = e :: (match r with [] => [] | _ :: r => split r end) /\
  length path = (length e + length r)%nat /\ (r = [] \/ exists r', r = SLASH :: r').
Proof.
  induction path as [|c path IH]; [by split; [|split; [|left]]|]. cbn [take_elem split].
  destruct (Z.eqb_spec c SLASH) as [->|Hc]; [split; [done|]; split; [done|]; right; eauto|].
  destruct (take_elem path) as [e r]. destruct IH as (-> & Hl & Hr). cbn. split; [done|]. split; [lia|done].
Qed.

Lemma skip_slashes_elems path : path_elems (skip_slashes path) = path_elems path.
Proof.
  induction path as [|c path IH]; [done|]. cbn [skip_slashes]. destruct (Z.eqb_spec c SLASH) as [->|]; [|done].
  rewrite IH. unfold path_elems. cbn [split]. change (SLASH =? SLASH) with true. cbn match.
  rewrite filter_cons. by rewrite decide_False by (intros H; by apply H).
Qed.

Lemma skip_slashes_spec path :
  (length (skip_slashes path) <= length path)%nat /\ forall c p, skip_slashes path = c :: p -> c <> SLASH.
Proof.
  induction path as [|c path [IH1 IH2]]; [by split|]. cbn [skip_slashes].
  destruct (Z.eqb_spec c SLASH) as [->|Hc]; [split; [cbn; lia|done]|]. split; [done|]. by intros ?? [= <- <-].
Qed.

(** A path that does not begin with a slash. *)
Lemma elems_cons c p : c <> SLASH ->
  let '(s, r) := take_elem (c :: p) in path_elems (c :: p) = take DIRSIZ s :: path_elems r /\
    (length r < length (c :: p))%nat.
Proof.
  intros Hc. assert (H := split_take_elem (c :: p)). destruct (take_elem (c :: p)) as [s r] eqn:E.
  destruct H as (Hs & Hl & Hr). assert (Hne : s <> []).
  { cbn [take_elem] in E. rewrite (proj2 (Z.eqb_neq _ _)) in E by done.
    destruct (take_elem p). by injection E as <- _. }
  split; [|destruct s; [done|cbn in *; lia]].
  unfold path_elems. rewrite Hs, filter_cons, decide_True by done. cbn [fmap list_fmap]. f_equal.
  destruct Hr as [->|[r' ->]]; [done|]. cbn [split]. change (SLASH =? SLASH) with true. cbn match.
  by rewrite filter_cons, decide_False by (intros H; by apply H).
Qed.

(** [skipelem] takes the first element off a path: it fails exactly when
    there is none, and otherwise gives that element, cut to the length of a
    name, and a shorter path with the other elements, which is empty exactly
    when that was the last one. *)
Lemma skipelem_spec (path : list Z) :
  match skipelem path with
  | None => path_elems path = []
  | Some (rest, x) =>
      path_elems path = x :: path_elems rest /\ (length x <= DIRSIZ)%nat /\
      (length rest < length path)%nat /\ (rest = [] <-> path_elems rest = [])
  end.
Proof.
  unfold skipelem. rewrite <- (skip_slashes_elems path). destruct (skip_slashes_spec path) as [Hl Hc].
  destruct (skip_slashes path) as [|c p]; [done|]. specialize (Hc c p eq_refl).
  assert (H := elems_cons c p Hc). destruct (take_elem (c :: p)) as [s r]. destruct H as [-> Hr].
  rewrite <- (skip_slashes_elems r). destruct (skip_slashes_spec r) as [Hl' Hc'].
  split; [done|]. split; [rewrite length_take; lia|]. split; [lia|].
  destruct (skip_slashes r) as [|c' p']; [done|]. specialize (Hc' c' p' eq_refl).
  assert (H := elems_cons c' p' Hc'). destruct (take_elem (c' :: p')). destruct H as [-> _]. done.
Qed.

(** ** Directories *)

(** The bytes up to the terminating zero; a name has at most [DIRSIZ]. *)
Fixpoint cstr (l : list Z) : list Z :=
  match l with c :: l => if c =? 0 then [] else c :: cstr l | [] => [] end.

Definition same_name (s t : list Z) : Prop := take DIRSIZ (cstr s) = take DIRSIZ (cstr t).

#[global] Instance same_name_dec s t : Decision (same_name s t) := decide (take DIRSIZ (cstr s) = take DIRSIZ (cstr t)).

Lemma strncmp_name_0 n p q : strncmp_name n p q = 0 <-> take n (cstr p) = take n (cstr q).
Proof.
  revert p q. induction n as [|n IH]; intros p q; [done|]. cbn [strncmp_name].
  assert (Hh : forall (r : list Z), byte_at r 0 = 0 /\ cstr r = [] \/
    exists c r', c <> 0 /\ r = c :: r' /\ byte_at r 0 = c /\ cstr r = c :: cstr r').
  { intros [|c r]; [by left|]. cbn [cstr]. destruct (Z.eqb_spec c 0) as [->|Hc]; [by left|]. right. by exists c, r. }
  destruct (Hh p) as [[-> ->]|(a & p' & Ha & -> & -> & ->)], (Hh q) as [[-> ->]|(b & q' & Hb & -> & -> & ->)].
  - done.
  - cbn. split; [lia|done].
  - rewrite (proj2 (Z.eqb_neq a 0)) by done. cbn. split; [lia|done].
  - rewrite (proj2 (Z.eqb_neq a 0)) by done. cbn. destruct (Z.eqb_spec a b) as [->|Hab].
    + rewrite IH. split; [by intros ->|by intros [= ->]].
    + split; [lia|congruence].
Qed.

(** [namecmp] compares names. *)
Lemma namecmp_spec s t : (namecmp s t =? 0) = bool_decide (same_name s t).
Proof.
  unfold namecmp. destruct (Z.eqb_spec (strncmp_name DIRSIZ s t) 0) as [H|H].
  - symmetry. by apply bool_decide_eq_true, strncmp_name_0.
  - symmetry. apply bool_decide_eq_false. intros Hs. by apply H, strncmp_name_0.
Qed.

(** Entry [k] of a directory; whether it is the entry of a name. *)
Definition entry (v : Z -> list Z) (ip : inode) (k : nat) : list Z := content v ip (Z.of_nat k * DIRENT) DIRENT.

Definition is_entry (v : Z -> list Z) (ip : inode) (name : list Z) (k : nat) : Prop :=
  de_inum (entry v ip k) <> 0 /\ same_name name (de_name (entry v ip k)).

#[global] Instance is_entry_dec v ip name k : Decision (is_entry v ip name k).
Proof. unfold is_entry. apply _. Defined.

(** The first entry of a name. *)
Definition dir_find (v : Z -> list Z) (ip : inode) (name : list Z) : option nat :=
  snd <$> list_find (is_entry v ip name) (dirents (isize ip)).

Lemma same_file_entry v ip jp k : same_file ip jp -> entry v ip k = entry v jp k.
Proof. apply same_file_content. Qed.

(** What a directory needs to be searched. *)
Definition file_ok (v : Z -> list Z) (ip : inode) : Prop :=
  has_blocks v ip (isize ip) /\ 0 <= isize ip <= MAXFILE * BSIZE.
Definition dir_ok (v : Z -> list Z) (ip : inode) : Prop :=
  file_ok v ip /\ isize ip mod DIRENT = 0 /\ itype ip = T_DIR.

Lemma same_file_dir_ok v ip jp : same_file ip jp -> dir_ok v jp -> dir_ok v ip.
Proof.
  intros Hs ((Hb & Hsz) & Hm & Ht). assert (Hs' := Hs). destruct Hs' as (E1 & _ & _ & _ & E5 & _).
  unfold dir_ok, file_ok. rewrite E1, E5. repeat split; try done || lia; by eapply same_file_blocks.
Qed.

Lemma dirents_lookup sz i k : dirents sz !! i = Some k <-> k = i /\ Z.of_nat i * DIRENT < sz.
Proof.
  unfold dirents, DIRENT. rewrite lookup_seq. cbn [Nat.add].
  assert (Hd : (i < Z.to_nat ((sz + 16 - 1) / 16))%nat <-> Z.of_nat i * 16 < sz); [|rewrite Hd; naive_solver].
  assert (Z.of_nat i < (sz + 16 - 1) / 16 <-> Z.of_nat i * 16 < sz); [|lia].
  pose proof (Z.div_mod (sz + 16 - 1) 16). pose proof (Z.mod_pos_bound (sz + 16 - 1) 16). lia.
Qed.

Section dirs.
Context {DK : Disk} {DL : @DiskLaw DK} (fuel : nat) (p : nat) (pr : proc) (e : env).
Notation fs_rep := (fs_rep p pr).
Notation ino_rep := (ino_rep p pr).

(** [dirlookup] gives the inode of the first entry of the name, with a new
    reference to it. *)
Lemma wp_dirlookup keep i n name s v h R L (Q : option (nat * Z) -> mach -> Prop) :
  ino_rep s v h R L -> loaded v s i n -> dir_ok v (dinode v (sb s) n) ->
  (length h < NBUF)%nat -> (size R < NINODE)%nat -> DIRENT <= Z.of_nat fuel ->
  (forall t, ino_step keep s t ->
     match dir_find v (dinode v (sb s) n) name with
     | Some k =>
         forall j, ino_rep t v h (refs_add (de_inum (entry v (dinode v (sb s) n) k)) R) L ->
           names (inodes t) j (de_inum (entry v (dinode v (sb s) n) k)) ->
           Q (Some (j, Z.of_nat k * DIRENT)) t
     | None => ino_rep t v h R L -> Q None t
     end) ->
  wp (dirlookup (S fuel) i name) e s Q.
Proof.
  intros H (ip & Hi & En & Hr & Hdev & Hsame) Hdir Hroom Hsz Hfuel HQ. assert (Rs := proj1 H). unfold dirlookup, dir_find in *.
  set (dp := dinode v (sb s) n) in *.
  assert (Hip : dir_ok v ip) by by eapply same_file_dir_ok. destruct Hip as ((Hb & Hsize) & Hmod & Hty).
  assert (Eent : forall k, entry v dp k = entry v ip k) by (intros; symmetry; by apply same_file_entry).
  assert (Esz : isize dp = isize ip) by (symmetry; apply Hsame).
  assert (Hlist : forall k, is_entry v dp name k <-> is_entry v ip name k) by (intros; unfold is_entry; by rewrite Eent).
  apply wp_bind. eapply wp_get_inode; [done|]. rewrite Hty. change (negb (T_DIR =? T_DIR)) with false. cbn match.
  apply (wp_for_first e (fun c t => fs_rep t v h [] /\ bio_step h [] s t /\
    forall k, (k < c)%nat -> ~ is_entry v ip name k)).
  - split; [apply H|]. split; [apply bio_step_refl|]. intros k. lia.
  - intros c k t [-> Hc]%dirents_lookup (Rt & St & Hno). unfold dirlookup_body. apply wp_bind.
    assert (Hit : inodes t !! i = Some ip) by by rewrite (bs_inodes _ _ _ _ St).
    assert (Hlast : Z.of_nat c * DIRENT + DIRENT <= isize ip).
    { unfold DIRENT in *. pose proof (Z.div_mod (isize ip) 16). lia. }
    assert (Hmax : isize ip < 2 ^ 31) by (unfold MAXFILE, NDIRECT, NINDIRECT, BSIZE in Hsize; lia).
    apply (wp_readi_local fuel p pr e i ip _ _ _ v h); try first [done | unfold DIRENT in *; lia].
    rewrite Z.min_l by lia. fold (entry v ip c). intros t1 R1 S1. join h St S1. cbn [fst snd].
    change (negb (DIRENT =? DIRENT)) with false. cbn match zeta.
    destruct (Z.eqb_spec (de_inum (entry v ip c)) 0) as [Hz|Hz].
    { apply wp_ret. split; [done|]. split; [done|]. intros k Hk. destruct (decide (k = c)) as [->|Hne]; [|apply Hno; lia].
      by intros [? _]. }
    rewrite namecmp_spec. case_bool_decide as Hname.
    2: { apply wp_ret. split; [done|]. split; [done|]. intros k Hk.
         destruct (decide (k = c)) as [->|Hne]; [|apply Hno; lia]. by intros [_ ?]. }
    assert (Hfind : list_find (is_entry v dp name) (dirents (isize dp)) = Some (c, c)).
    { apply list_find_Some. rewrite Esz, dirents_lookup. split; [done|]. split; [by apply Hlist|].
      intros j y [-> _]%dirents_lookup Hj. rewrite Hlist. by apply Hno. }
    rewrite Hfind in HQ. cbn [fmap option_fmap option_map snd] in HQ.
    apply wp_bind. eapply wp_get_inode; [by rewrite (bs_inodes _ _ _ _ St)|]. rewrite Hdev.
    apply wp_bind. eapply (wp_iget p pr e keep); [by apply (bio_ino_rep p pr s)|by right|].
    intros j t2 H2 Hj S2. apply wp_ret. apply (HQ t2); [|by rewrite Eent..].
    apply (ino_step_trans keep s t1); [by eapply ino_rep_hart|by eapply bio_ino_step|done].
  - intros t (Rt & St & Hno). specialize (HQ t ltac:(by eapply bio_ino_step)).
    assert (Hfind : list_find (is_entry v dp name) (dirents (isize dp)) = None).
    { apply list_find_None, list.Forall_forall. intros k Hk. rewrite Hlist. apply Hno.
      unfold dirents in *. rewrite length_seq. apply elem_of_seq in Hk. rewrite <- Esz. lia. }
    rewrite Hfind in HQ. apply HQ. by apply (bio_ino_rep p pr s).
Qed.
End dirs.

(** ** The directory tree *)

Section tree.
Context (v : Z -> list Z) (sb : superblock).

(** The inode that the entry of a name leads to. *)
Definition dir_lookup (n : Z) (name : list Z) : option Z :=
  (fun k => de_inum (entry v (dinode v sb n) k)) <$> dir_find v (dinode v sb n) name.

(** The inode that path elements lead to from inode [n]. *)
Fixpoint resolve (n : Z) (es : list (list Z)) : option Z :=
  match es with
  | [] => Some n
  | x :: es => if itype (dinode v sb n) =? T_DIR then dir_lookup n x ≫= fun m => resolve m es else None
  end.

(** The directory of the last element, and that element. *)
Definition resolve_parent (n : Z) (es : list (list Z)) : option (Z * list Z) :=
  x ← last es;
  d ← resolve n (removelast es);
  if itype (dinode v sb d) =? T_DIR then Some (d, x) else None.

(** Inodes that are in order: in use, linked, with their blocks in place, and
    directories of whole entries that lead to inodes in order again. *)
Record tree_ok (F : gset Z) : Prop := mkTreeOk {
  tr_used : forall n, n ∈ F -> itype (dinode v sb n) <> 0 /\ nlink (dinode v sb n) <> 0;
  tr_dir : forall n, n ∈ F -> itype (dinode v sb n) = T_DIR -> dir_ok v (dinode v sb n);
  tr_closed : forall n x m, n ∈ F -> itype (dinode v sb n) = T_DIR -> dir_lookup n x = Some m -> m ∈ F
}.

(** What [namex] looks for, as it goes. *)
Fixpoint walk (par : bool) (n : Z) (es : list (list Z)) : option (Z * option (list Z)) :=
  match es with
  | [] => if par then None else Some (n, None)
  | x :: es =>
      if itype (dinode v sb n) =? T_DIR then
        if par && bool_decide (es = []) then Some (n, Some x)
        else dir_lookup n x ≫= fun m => walk par m es
      else None
  end.

Lemma walk_resolve n es : walk false n es = (fun m => (m, None)) <$> resolve n es.
Proof.
  revert n. induction es as [|x es IH]; intros n; [done|]. cbn. destruct (_ =? _); [|done].
  destruct (dir_lookup n x); [apply IH|done].
Qed.

Lemma walk_parent n es : walk true n es = (fun r => (r.1, Some r.2)) <$> resolve_parent n es.
Proof.
  revert n. induction es as [|x es IH]; intros n; [done|]. destruct es as [|y es].
  - cbn. by destruct (_ =? _).
  - cbn [walk]. rewrite bool_decide_eq_false_2 by done. cbn [andb]. unfold resolve_parent.
    change (last (x :: y :: es)) with (last (y :: es)).
    change (removelast (x :: y :: es)) with (x :: removelast (y :: es)). cbn [resolve].
    destruct (itype (dinode v sb n) =? T_DIR).
    + destruct (dir_lookup n x) as [m|]; cbn [mbind option_bind]; [apply IH|]. by destruct (last (y :: es)).
    + by destruct (last (y :: es)).
Qed.

End tree.

Lemma refs_add_keep n m R : is_Some (R !! m) -> is_Some (refs_add n R !! m).
Proof. intros H. destruct (decide (m = n)) as [->|Hne]; [by rewrite refs_add_same|by rewrite refs_add_other]. Qed.

Lemma refs_add_size n R : (size (refs_add n R) <= S (size R))%nat.
Proof.
  unfold refs_add. rewrite map_size_insert. destruct (R !! n); unfold id; lia.
Qed.

Section namex.
Context {DK : Disk} {DL : @DiskLaw DK} (fuel : nat) (p : nat) (pr : proc) (e : env).
Notation ino_rep := (ino_rep p pr).

(** The outcome of [namex]: a reference to the inode it leads to. *)
Definition found (s : mach) (v : Z -> list Z) (h : list Z) (R : gmap Z Z)
    (w : option (Z * option (list Z))) (r : option nat * list Z) (t : mach) : Prop :=
  ino_step (dom R) s t /\
  match w with
  | Some (n, x) => exists i, r.1 = Some i /\ names (inodes t) i n /\ ino_rep t v h (refs_add n R) [] /\
      (forall y, x = Some y -> r.2 = y)
  | None => r.1 = None /\ ino_rep t v h R []
  end.

(** The outcome of a round of its loop: a reference to the next inode and a
    shorter path to follow from there, or the final outcome. *)
Definition round (s0 : mach) (v : Z -> list Z) (h : list Z) (R : gmap Z Z) (F : gset Z) (par : bool)
    (path : list Z) (w : option (Z * option (list Z))) (r : nat * list Z * list Z + option nat * list Z)
    (t : mach) : Prop :=
  match r with
  | inl (j, path', _) => exists m, (length path' < length path)%nat /\
      w = walk v (sb s0) par m (path_elems path') /\
      ino_rep t v h (refs_add m R) [] /\ ino_step (dom R) s0 t /\ names (inodes t) j m /\ m ∈ F
  | inr r => found s0 v h R w r t
  end.

(** One round of the loop; the process has a reference to inode [n]. *)
Lemma wp_namex_step par F i n path name s0 s v h R :
  ino_rep s v h (refs_add n R) [] -> (forall k c, R !! k = Some c -> 0 < c) ->
  hart_ok s0 -> ino_step (dom R) s0 s -> names (inodes s) i n -> tree_ok v (sb s0) F -> n ∈ F ->
  (length h < NBUF)%nat -> (size R + 2 <= NINODE)%nat -> DIRENT <= Z.of_nat fuel ->
  wp (namex_step (S fuel) par (i, path, name)) e s (round s0 v h R F par path (walk v (sb s0) par n (path_elems path))).
Proof.
  intros H Hpos Hok0 S0 Hi HF Hn Hroom Hsz Hfuel. assert (Hok := ino_rep_hart _ _ _ _ _ _ _ H).
  assert (HRn : refs_drop n (refs_add n R) = R) by (apply refs_drop_add; intros; by eapply Hpos).
  assert (Hkeep : forall m, m ∈ dom R -> is_Some (refs_drop n (refs_add n R) !! m)).
  { intros m Hm. rewrite HRn. by apply elem_of_dom. }
  destruct (tr_used _ _ _ HF _ Hn) as [Hty Hlink]. rewrite <- (ino_step_sb _ _ _ S0) in HF, Hty, Hlink |- *.
  unfold namex_step. assert (Hsk := skipelem_spec path). destruct (skipelem path) as [[path' x]|].
  2: { rewrite Hsk. cbn [walk]. destruct par; [|apply wp_ret].
       - apply wp_bind. eapply (wp_iput (S fuel) p pr e (dom R) i n); [done|done|apply not_elem_of_nil|by right|done|].
         intros t Ht St. apply wp_ret. rewrite HRn in Ht. split; [by apply (ino_step_trans _ _ s)|done].
       - split; [done|]. exists i. done. }
  destruct Hsk as (-> & _ & Hlen & Hlast). cbn [walk].
  assert (Hb : (match path' with [] => true | _ => false end) = bool_decide (path_elems path' = [])).
  { destruct path' as [|c q]; [symmetry; by apply bool_decide_eq_true|]. symmetry. apply bool_decide_eq_false.
    intros E. by apply Hlast in E. }
  rewrite Hb. clear Hb Hlast.
  apply wp_bind. eapply (wp_ilock fuel p pr e (dom R) i n); [exact H|exact Hi|apply not_elem_of_nil|exact Hty|exact Hroom|].
  intros t1 H1 L1 S1. assert (S01 := ino_step_trans _ _ _ _ Hok0 S0 S1). assert (Esb := ino_step_sb _ _ _ S1).
  assert (Hok1 := ino_rep_hart _ _ _ _ _ _ _ H1). assert (L1' := L1). destruct L1' as (ip & Hip & _ & _ & _ & Hsame).
  apply wp_bind. eapply wp_get_inode; [done|]. assert (itype ip = itype (dinode v (sb s) n)) as ->.
  { rewrite <- Esb. apply Hsame. }
  assert (Hput : forall name' (w : option (Z * option (list Z))), w = None ->
    wp (iunlockput (S fuel) (Some i);; mret (inr (None, name'))) e t1 (round s0 v h R F par path w)).
  { intros name' w ->. apply wp_bind. eapply (wp_iunlockput (S fuel) p pr e (dom R) i n);
      [exact H1|by eapply loaded_names|apply not_elem_of_nil|rewrite Esb; right; exact Hlink|exact Hkeep|].
    intros t Ht St. apply wp_ret. rewrite HRn in Ht. split; [by apply (ino_step_trans _ _ t1)|done]. }
  destruct (Z.eqb_spec (itype (dinode v (sb s) n)) T_DIR) as [Hdir|Hdir]; cbn [negb]; [|by apply Hput].
  destruct (par && bool_decide (path_elems path' = [])) eqn:Epar.
  { apply wp_bind. eapply (wp_iunlock p pr e (dom R) i n); [exact H1|by eapply loaded_names|apply not_elem_of_nil|].
    intros t Ht Et St. apply wp_ret. split; [by apply (ino_step_trans _ _ t1)|]. exists i. split; [done|].
    split; [rewrite Et; by eapply loaded_names|]. split; [done|]. by intros y [= ->]. }
  apply wp_bind. eapply (wp_dirlookup fuel p pr e ({[n]} ∪ dom R) i n); [exact H1|exact L1| |exact Hroom| |exact Hfuel|].
  { rewrite Esb. by eapply tr_dir. }
  { pose proof (refs_add_size n R). lia. }
  intros t2 S2. assert (S2' : ino_step (dom R) t1 t2).
  { eapply ino_step_weaken; [|done]. set_solver. }
  unfold dir_lookup. rewrite Esb. destruct (dir_find v (dinode v (sb s) n) x) as [k|] eqn:Ef; cbn [fmap option_fmap option_map mbind option_bind].
  - set (m := de_inum (entry v (dinode v (sb s) n) k)). intros j H2 Hj.
    assert (Hm : m ∈ F) by (eapply (tr_closed _ _ _ HF n x); [done|done|]; unfold dir_lookup; by rewrite Ef).
    assert (HR2 : refs_drop n (refs_add m (refs_add n R)) = refs_add m R).
    { rewrite refs_drop_add_comm; [by rewrite HRn| |by rewrite refs_add_same].
      intros k' c Hc. destruct (it_found _ _ _ _ _ _ _ (proj2 H) _ _ Hc) as [? _]. done. }
    apply wp_bind. eapply (wp_iunlockput (S fuel) p pr e ({[m]} ∪ dom R) i n); [exact H2| |apply not_elem_of_nil| | |].
    + apply S2; [set_solver|by eapply loaded_names].
    + right. rewrite (ino_step_sb _ _ _ S2), Esb. exact Hlink.
    + intros m' Hm'. rewrite HR2. apply elem_of_union in Hm' as [->%elem_of_singleton|Hm'%elem_of_dom];
        [by rewrite refs_add_same|by apply refs_add_keep].
    + intros t3 H3 S3. rewrite HR2 in H3. apply wp_ret. exists m. split; [done|]. split; [by rewrite (ino_step_sb _ _ _ S0)|]. split; [done|].
      split; [|split; [|done]].
      * apply (ino_step_trans _ _ t1); [done|done|]. apply (ino_step_trans _ _ t2); [done|done|].
        eapply ino_step_weaken; [|exact S3]. set_solver.
      * apply S3; [set_solver|done].
  - intros H2. apply wp_bind. eapply (wp_iunlockput (S fuel) p pr e (dom R) i n); [exact H2| |apply not_elem_of_nil| |exact Hkeep|].
    + apply S2; [set_solver|by eapply loaded_names].
    + right. rewrite (ino_step_sb _ _ _ S2), Esb. exact Hlink.
    + intros t Ht St. apply wp_ret. rewrite HRn in Ht. split; [|done].
      apply (ino_step_trans _ _ t1); [done|done|]. apply (ino_step_trans _ _ t2); [by apply (ino_rep_hart _ _ _ _ _ _ _ H1)|done|done].
Qed.

(** The inode a path starts from: the root, or the current directory. *)
Definition starts (s : mach) (path : list Z) (n : Z) : Prop :=
  (byte_at path 0 = SLASH /\ n = ROOTINO) \/
  (byte_at path 0 <> SLASH /\ exists c, cwd pr = Some c /\ names (inodes s) c n).

(** What a lookup needs: a consistent inode table with two free entries, a
    free buffer, and a directory tree in order below the start of the path. *)
Record lookup_ready (s : mach) (v : Z -> list Z) (h : list Z) (R : gmap Z Z) (F : gset Z) (path : list Z) (n : Z) :
    Prop := mkLookupReady {
  lk_rep : ino_rep s v h R [];
  lk_tree : tree_ok v (sb s) F;
  lk_start : starts s path n;
  lk_in : n ∈ F;
  lk_bufs : (length h < NBUF)%nat;
  lk_inodes : (size R + 2 <= NINODE)%nat;
  lk_fuel : DIRENT <= Z.of_nat fuel;
  lk_path : (length path < S fuel)%nat
}.

Lemma wp_start path n s v h R F (Q : nat -> mach -> Prop) :
  lookup_ready s v h R F path n ->
  (forall i t, ino_rep t v h (refs_add n R) [] -> names (inodes t) i n -> ino_step (dom R) s t -> Q i t) ->
  wp (if byte_at path 0 =? SLASH then iget ROOTDEV ROOTINO
      else p ← curproc; pr ← get_proc p; i ← idup (cwd pr); or_fault i) e s Q.
Proof.
  intros [H _ Hs _ _ Hsz _ _] HQ. destruct Hs as [[-> ->]|(Hs & c & Hc & Hn)].
  - change (SLASH =? SLASH) with true. cbn match. eapply wp_iget; [done|right; lia|done].
  - rewrite (proj2 (Z.eqb_neq _ _)) by done. assert (Hok := ino_rep_hart _ _ _ _ _ _ _ H).
    apply wp_bind. eapply wp_call; [apply curproc_ready; [done|apply H]|].
    apply wp_bind. eapply wp_call; [apply get_proc_Ret, H|]. rewrite Hc.
    assert (E : left_off s = left_off (with_ino id id s)) by by destruct s.
    assert (H' : ino_rep (left_off s) v h R []).
    { rewrite E. apply (ino_rep_with _ _ _ _ _ _ _ _ _ _ _ H); [done|apply H]. }
    apply wp_bind. eapply (wp_idup p pr e (dom R) c n); [done|done|]. intros t Ht Hn' St.
    apply wp_ret, HQ; [done|done|]. apply (ino_step_trans _ _ (left_off s)); [done| |done].
    rewrite E. by apply ino_step_with.
Qed.

Lemma wp_namex par path n s v h R F (Q : option nat * list Z -> mach -> Prop) :
  lookup_ready s v h R F path n ->
  (forall r t, found s v h R (walk v (sb s) par n (path_elems path)) r t -> Q r t) ->
  wp (namex (S fuel) path par) e s Q.
Proof.
  intros Hready HQ. unfold namex. apply wp_bind. eapply wp_start; [done|]. intros i t Ht Hi St.
  destruct Hready as [H HF _ Hin Hroom Hsz Hfuel Hlen].
  assert (Hpos : forall k c, R !! k = Some c -> 0 < c).
  { intros k c Hk. by destruct (it_found _ _ _ _ _ _ _ (proj2 H) _ _ Hk). }
  apply (wp_loop e (fun m st t => let '(i, path', _) := st in (length path' <= m)%nat /\ exists cur,
    walk v (sb s) par n (path_elems path) = walk v (sb s) par cur (path_elems path') /\
    ino_rep t v h (refs_add cur R) [] /\ ino_step (dom R) s t /\ names (inodes t) i cur /\ cur ∈ F) _ _ (length path)).
  - done.
  - split; [done|]. by exists n.
  - intros m [[j path'] name] u [Hm (cur & E & Hu & Su & Hj & Hcur)]. rewrite E in HQ |- *.
    eapply wp_mono; [eapply (wp_namex_step par F j cur path' name s); [done|done|by eapply ino_rep_hart|done..]|].
    intros [[[k path''] name']|r] w; cbn [round]; [|apply HQ].
    intros (cur' & Hlt & E' & Hrest). exists (pred m). split; [lia|]. split; [lia|]. by exists cur'.
Qed.

(** C13. [namei] resolves paths.  In a directory tree in order, and with
    entries left in the inode table, it returns the entry of the inode that
    the elements of the path lead to from the root or the current directory,
    and has added one reference to that inode and to nothing else; if an
    element is missing or a directory on the way is not one, it returns null
    and leaves all reference counts as they were.  No lock is kept, nothing
    is written, and the entries of inodes that were referred to stay. *)
Theorem namei_resolves (s : mach) (v : Z -> list Z) (h : list Z) (R : gmap Z Z) (F : gset Z)
    (path : list Z) (n : Z) :
  lookup_ready s v h R F path n ->
  exists r t, namei (S fuel) path e s = Ret r e t /\ ino_step (dom R) s t /\
    match resolve v (sb s) n (path_elems path) with
    | Some m => exists i, r = Some i /\ names (inodes t) i m /\ ino_rep t v h (refs_add m R) []
    | None => r = None /\ ino_rep t v h R []
    end.
Proof.
  intros H. assert (Hw : wp (namei (S fuel) path) e s (fun r t => ino_step (dom R) s t /\
    match resolve v (sb s) n (path_elems path) with
    | Some m => exists i, r = Some i /\ names (inodes t) i m /\ ino_rep t v h (refs_add m R) []
    | None => r = None /\ ino_rep t v h R []
    end)).
  2: { destruct Hw as (r & t & Hw). by exists r, t. }
  unfold namei. apply wp_bind. eapply wp_namex; [done|]. intros [r y] t [St Hf]. apply wp_ret. split; [done|].
  rewrite walk_resolve in Hf. destruct (resolve v (sb s) n (path_elems path)) as [m|]; [|done].
  destruct Hf as (i & Hi & Hn & Ht & _). by exists i.
Qed.

(** [nameiparent] finds the directory of the last element of a path,
    with one more reference to it, and that element; it fails, and leaves
    all reference counts as they were, for a path without elements and when
    the elements before the last do not lead to a directory. *)
Theorem nameiparent_resolves (s : mach) (v : Z -> list Z) (h : list Z) (R : gmap Z Z) (F : gset Z)
    (path : list Z) (n : Z) :
  lookup_ready s v h R F path n ->
  exists r y t, nameiparent (S fuel) path e s = Ret (r, y) e t /\ ino_step (dom R) s t /\
    match resolve_parent v (sb s) n (path_elems path) with
    | Some (d, x) => exists i, r = Some i /\ y = x /\ names (inodes t) i d /\ ino_rep t v h (refs_add d R) []
    | None => r = None /\ ino_rep t v h R []
    end.
Proof.
  intros H. assert (Hw : wp (nameiparent (S fuel) path) e s (fun r t => ino_step (dom R) s t /\
    match resolve_parent v (sb s) n (path_elems path) with
    | Some (d, x) => exists i, r.1 = Some i /\ r.2 = x /\ names (inodes t) i d /\ ino_rep t v h (refs_add d R) []
    | None => r.1 = None /\ ino_rep t v h R []
    end)).
  2: { destruct Hw as ([r y] & t & Hw). by exists r, y, t. }
  eapply wp_namex; [done|]. intros [r y] t [St Hf]. split; [done|].
  rewrite walk_parent in Hf. destruct (resolve_parent v (sb s) n (path_elems path)) as [[d x]|]; [|done].
  destruct Hf as (i & Hi & Hn & Ht & Hx). exists i. split; [done|]. split; [by apply Hx|done].
Qed.
End namex.

(** ** A small tree

    The root directory holds itself as ["."] and a file ["a"]. *)

#[local] Existing Instance test_disk.
#[local] Existing Instance test_disk_law.

Definition root_dinode : inode := mkInode 0 0 0 0 T_DIR 0 0 1 32 (60 :: replicate 12 0).
Definition file_dinode : inode := mkInode 0 0 0 0 T_FILE 0 0 1 0 (replicate 13 0).
Definition tree_blocks : Z -> list Z :=
  upd (upd (fun _ => zero_block) 32 (put_dinode file_dinode 128 (put_dinode root_dinode 64 zero_block)))
    60 (put_bytes zero_block 0 (dirent_bytes 1 [46] ++ dirent_bytes 2 [97])).
Definition machine_tree : mach :=
  machine_log tree_blocks open_log <| sb := test_sb |> <| inodes := replicate NINODE no_inode |>.

Lemma table_rep_empty v sb0 pid_ sl :
  (forall i, (i < NINODE)%nat -> exists l, sl !! ilockid i = Some l /\ slocked l = 0) ->
  table_rep v sb0 pid_ (replicate NINODE no_inode) sl ∅ [].
Proof.
  intros Hsl. split; try done.
  - intros i ip [-> _]%lookup_replicate_1. done.
  - intros i ip [-> _]%lookup_replicate_1. done.
  - intros i j ip jp [-> _]%lookup_replicate_1. done.
  - intros i ip [-> _]%lookup_replicate_1. done.
  - intros i ip [-> Hi]%lookup_replicate_1. destruct (Hsl i Hi) as (l & Hl & H0). exists l. split; [done|].
    split; [by intros [? _]|done].
  - intros n Hn. by apply elem_of_nil in Hn.
Qed.

Lemma ino_rep_tree : ino_rep 0 running machine_tree tree_blocks [] ∅ [].
Proof.
  split.
  - apply fs_rep_ino, fs_rep_sb, fs_rep_machine_log. intros b. unfold tree_blocks, upd.
    destruct (b =? 60), (b =? 32); vm_compute; reflexivity.
  - apply table_rep_empty. intros i Hi. exists (mkSleeplock 0 "" 0). split; [|done].
    apply lookup_replicate_2. unfold ilockid. lia.
Qed.

Lemma tree_lookup x m : dir_lookup tree_blocks test_sb 1 x = Some m -> m = 1 \/ m = 2.
Proof.
  unfold dir_lookup, dir_find. intros (k & (w & H & ->)%fmap_Some & ->)%fmap_Some.
  destruct w as [i k]. apply list_find_Some in H as (Hl & _). apply list_elem_of_lookup_2 in Hl.
  change (dirents (isize (dinode tree_blocks test_sb 1))) with (dirents 32) in Hl. change (dirents 32) with [0%nat; 1%nat] in Hl.
  apply elem_of_cons in Hl as [->|Hl]; [left; vm_compute; reflexivity|].
  apply list_elem_of_singleton in Hl as ->. right. vm_compute. reflexivity.
Qed.

Lemma tree_ok_tree : tree_ok tree_blocks test_sb {[1; 2]}.
Proof.
  split.
  - intros n [->%elem_of_singleton| ->%elem_of_singleton]%elem_of_union; vm_compute; split; discriminate.
  - intros n [->%elem_of_singleton| ->%elem_of_singleton]%elem_of_union Ht; [|vm_compute in Ht; discriminate].
    split; [split|].
    + split; [reflexivity|]. intros o Ho. change (isize (dinode tree_blocks test_sb 1)) with 32 in Ho.
      rewrite Z.div_small by (unfold BSIZE; lia). vm_compute. discriminate.
    + vm_compute. split; discriminate.
    + split; reflexivity.
  - intros n x m [->%elem_of_singleton| ->%elem_of_singleton]%elem_of_union Ht Hl; [|vm_compute in Ht; discriminate].
    apply tree_lookup in Hl. set_solver.
Qed.

Lemma tree_ready path : byte_at path 0 = SLASH -> (length path < 21)%nat ->
  lookup_ready 20 0 running machine_tree tree_blocks [] ∅ {[1; 2]} path 1.
Proof.
  intros Hp Hl. split.
  - exact ino_rep_tree.
  - exact tree_ok_tree.
  - left. split; [exact Hp|reflexivity].
  - set_solver.
  - apply Nat.ltb_lt. reflexivity.
  - apply Nat.leb_le. reflexivity.
  - discriminate.
  - exact Hl.
Qed.

(** [/./a] is inode 2. *)
Lemma namei_resolves_witness :
  exists i t, namei 21 [47; 46; 47; 97] [] machine_tree = Ret (Some i) [] t /\ names (inodes t) i 2.
Proof.
  destruct (namei_resolves 20 0 running [] machine_tree tree_blocks [] ∅ {[1; 2]} [47; 46; 47; 97] 1) as (r & t & H & _ & Hr).
  - apply tree_ready; [reflexivity|cbn; lia].
  - change (sb machine_tree) with test_sb in Hr.
    assert (E : resolve tree_blocks test_sb 1 (path_elems [47; 46; 47; 97]) = Some 2) by (vm_compute; reflexivity).
    rewrite E in Hr. destruct Hr as (i & -> & Hn & _). exists i, t. split; [exact H|exact Hn].
Defined.

(** The parent of [//a/] is the root. *)
Lemma nameiparent_resolves_witness :
  exists i t, nameiparent 21 [47; 47; 97; 47] [] machine_tree = Ret (Some i, [97]) [] t /\ names (inodes t) i 1.
Proof.
  destruct (nameiparent_resolves 20 0 running [] machine_tree tree_blocks [] ∅ {[1; 2]} [47; 47; 97; 47] 1)
    as (r & y & t & H & _ & Hr).
  - apply tree_ready; [reflexivity|cbn; lia].
  - change (sb machine_tree) with test_sb in Hr.
    assert (E : resolve_parent tree_blocks test_sb 1 (path_elems [47; 47; 97; 47]) = Some (1, [97]))
      by (vm_compute; reflexivity).
    rewrite E in Hr. destruct Hr as (i & -> & -> & Hn & _). exists i, t. split; [exact H|exact Hn].
Defined.

(** The root gets the first entry of an empty table, and is loaded from the
    disk. *)
Lemma iget_refines_witness :
  exists i t, iget ROOTDEV 1 [] machine_tree = Ret i [] t /\ names (inodes t) i 1.
Proof.
  destruct (iget_refines 0 running [] 1 machine_tree tree_blocks [] ∅ []) as [H _].
  - exact ino_rep_tree.
  - destruct H as (i & t & H1 & _ & H2 & _); [right; apply Nat.ltb_lt; reflexivity|]. exists i, t. auto.
Defined.

Definition machine_open : mach :=
  machine_tree <| inodes ::= alter (fun ip => ip <| idev := ROOTDEV |> <| inum := 1 |> <| iref := 1 |> <| ivalid := 0 |>) 0%nat |>.

Lemma ino_rep_open : ino_rep 0 running machine_open tree_blocks [] (refs_add 1 ∅) [].
Proof.
  destruct ino_rep_tree as [Hr Ht]. split; [by apply fs_rep_ino|].
  exact (table_new _ _ _ _ _ _ _ 0%nat no_inode 1 Ht eq_refl eq_refl (lookup_empty _)).
Qed.

Lemma ilock_loads_witness :
  (exists t u, ilock 1 (Some 0%nat) [] machine_open = Ret tt [] t /\ loaded tree_blocks t 0 1 /\
    iunlock (Some 0%nat) [] t = Ret tt [] u) /\
  ilock 1 (Some 1%nat) [] machine_open = Panic "ilock"%string machine_open.
Proof.
  destruct (ilock_loads 0 0 running [] 0 1 machine_open tree_blocks [] (refs_add 1 ∅) []) as [H _].
  - exact ino_rep_open.
  - apply not_elem_of_nil.
  - apply Nat.ltb_lt. reflexivity.
  - split.
    + destruct H as (t & u & H1 & _ & H2 & _ & H3 & _).
      * eexists. split; [reflexivity|]. split; reflexivity.
      * vm_compute. discriminate.
      * exists t, u. auto.
    + destruct (ilock_loads 0 0 running [] 1 1 machine_open tree_blocks [] (refs_add 1 ∅) []) as (_ & H' & _).
      * exact ino_rep_open.
      * apply not_elem_of_nil.
      * apply Nat.ltb_lt. reflexivity.
      * apply (H' no_inode); reflexivity.
Defined.
