(* ===== verification/Mkfs.v ===== *)
(** * The program that builds the initial disk image

    Model of [mkfs/mkfs.c].  The image is a file of the host: what its sectors
    hold, and how many it has (a write beyond the end leaves a hole of zeros).
    A run ends early when [die] or [assert] stops it.  The host is
    little-endian.  The progress messages are left out. *)
From stdpp Require Import base tactics list numbers gmap strings.
From S2P Require Import Prelude Machine Blocks Bio Fs.

Open Scope Z_scope.

Record fsimage := mkImage {
  img : Z -> list Z; sects : Z;       (* the file *)
  freeinode : Z; freeblock : Z;
  msb : superblock                    (* the variable [sb] *)
}.

#[global] Instance fsimage_settable : Settable fsimage := fun s =>
  mkImage (img s) (sects s) (freeinode s) (freeblock s) (msb s).

(** How a run stops before its end: [die] with its argument, a failed
    [assert], wrong usage; [NoEnd] if the fuel of a loop does not suffice. *)
Inductive halt : Set :=
| Died (s : list Z)
| Aborted
| Usage
| NoEnd.

Definition MK (A : Type) : Type := fsimage -> A * fsimage + halt.

#[global] Instance MK_ret : MRet MK := fun _ a s => inl (a, s).
#[global] Instance MK_bind : MBind MK := fun _ _ k m s =>
  match m s with inl (a, s') => k a s' | inr h => inr h end.

Definition halts {A} (h : halt) : MK A := fun _ => inr h.
Definition die {A} (s : list Z) : MK A := halts (Died s).
Definition assert_ (b : bool) : MK unit := if b then mret tt else halts Aborted.
Definition get : MK fsimage := fun s => inl (s, s).
Definition put (f : fsimage -> fsimage) : MK unit := fun s => inl (tt, f s).

Fixpoint mloop {St B} (fuel : nat) (step : St -> MK (St + B)) (st : St) : MK B :=
  match fuel with
  | O => halts NoEnd
  | S n => r ← step st; match r with inl st => mloop n step st | inr b => mret b end
  end.

Fixpoint mfor {A} (l : list A) (f : A -> MK unit) : MK unit :=
  match l with [] => mret tt | x :: l => f x;; mfor l f end.

(** ** Constants and byte order *)

Definition FSSIZE : Z := 2000.
Definition NINODES : Z := 200.
Definition nbitmap : Z := FSSIZE / BPB + 1.
Definition ninodeblocks : Z := NINODES / IPB + 1.
Definition nlog : Z := LOGSIZE.

(** The bytes are stored least significant first, and read back by the host. *)
Definition xshort (x : Z) : Z := le_value [u8 x; u8 (Z.shiftr x 8)].
Definition xint (x : Z) : Z := le_value [u8 x; u8 (Z.shiftr x 8); u8 (Z.shiftr x 16); u8 (Z.shiftr x 24)].

Definition zeroes : list Z := replicate (Z.to_nat BSIZE) 0.

(** ** Sectors *)

Definition wsect (sec : Z) (buf : list Z) : MK unit :=
  let k := u32 (sec * BSIZE) / BSIZE in
  put (fun s => s <| img ::= fun v => upd v k buf |> <| sects ::= Z.max (k + 1) |>).

Definition rsect (sec : Z) : MK (list Z) :=
  s ← get;
  let k := u32 (sec * BSIZE) / BSIZE in
  if k <? sects s then mret (img s k) else die (path_bytes "read").

(** ** Inodes; a [struct dinode] is its 64 bytes *)

Definition DINODE : nat := 64.

Definition winode (inum : Z) (ip : list Z) : MK unit :=
  s ← get;
  let bn := IBLOCK inum (msb s) in
  buf ← rsect bn;
  wsect bn (put_bytes buf (dinode_off inum) ip).

Definition rinode (inum : Z) : MK (list Z) :=
  s ← get;
  let bn := IBLOCK inum (msb s) in
  buf ← rsect bn;
  mret (get_bytes buf (dinode_off inum) DINODE).

(** [din.size] and [din.addrs[k]]. *)
Definition din_size (din : list Z) : Z := get_word 4 din 8.
Definition set_din_size (v : Z) (din : list Z) : list Z := put_word 4 din 8 v.
Definition din_addr (k : nat) (din : list Z) : Z := get_word 4 din (12 + 4 * k).
Definition set_din_addr (k : nat) (v : Z) (din : list Z) : list Z := put_word 4 din (12 + 4 * k) v.

Definition ialloc (type : Z) : MK Z :=
  s ← get;
  let inum := freeinode s in
  put (fun s => s <| freeinode ::= fun i => u32 (i + 1) |>);;
  let din := replicate DINODE 0 in
  let din := put_word 2 din 0 (xshort type) in
  let din := put_word 2 din 6 (xshort 1) in
  let din := set_din_size (xint 0) din in
  winode inum din;;
  mret inum.

(** [freeblock++] *)
Definition next_block : MK Z :=
  s ← get;
  put (fun s => s <| freeblock ::= fun b => u32 (b + 1) |>);;
  mret (freeblock s).

Definition balloc (used : Z) : MK unit :=
  assert_ (used <? BPB);;
  let buf := foldl (fun buf i => <[(i / 8)%nat := u8 (Z.lor (byte_at buf (i / 8)) (Z.shiftl 1 (Z.of_nat (i mod 8))))]> buf)
    (replicate (Z.to_nat BSIZE) 0) (seq 0 (Z.to_nat used)) in
  s ← get;
  wsect (bmapstart (msb s)) buf.

(** ** Appending to a file *)

(** The block of entry [fbn - NDIRECT] of the indirect block. *)
Definition indirect_block (din : list Z) (fbn : nat) : MK Z :=
  indirect ← rsect (xint (din_addr NDIRECT din));
  let o := (4 * (fbn - NDIRECT))%nat in
  indirect ← (if get_word 4 indirect o =? 0 then
    b ← next_block;
    let indirect := put_word 4 indirect o (xint b) in
    wsect (xint (din_addr NDIRECT din)) indirect;;
    mret indirect
  else mret indirect);
  mret (xint (get_word 4 indirect o)).

(** The block of the file with index [fbn], allocated if need be. *)
Definition file_block (din : list Z) (fbn : nat) : MK (Z * list Z) :=
  if (fbn <? NDIRECT)%nat then
    din ← (if xint (din_addr fbn din) =? 0 then b ← next_block; mret (set_din_addr fbn (xint b) din) else mret din);
    mret (xint (din_addr fbn din), din)
  else
    din ← (if xint (din_addr NDIRECT din) =? 0 then b ← next_block; mret (set_din_addr NDIRECT (xint b) din) else mret din);
    x ← indirect_block din fbn;
    mret (x, din).

Definition iappend_step (st : list Z * Z * Z * list Z) : MK (list Z * Z * Z * list Z + list Z * Z) :=
  let '(din, off, n, p) := st in
  if 0 <? n then
    let fbn := off / BSIZE in
    assert_ (fbn <? MAXFILE);;
    r ← file_block din (Z.to_nat fbn);
    let '(x, din) := r in
    let n1 := Z.min n (u32 ((fbn + 1) * BSIZE - off)) in
    buf ← rsect x;
    wsect x (put_bytes buf (Z.to_nat (off - fbn * BSIZE)) (take (Z.to_nat n1) p));;
    mret (inl (din, u32 (off + n1), n - n1, drop (Z.to_nat n1) p))
  else mret (inr (din, off)).

(** Each iteration writes at least one byte. *)
Definition iappend (inum : Z) (p : list Z) (n : Z) : MK unit :=
  din ← rinode inum;
  r ← mloop (S (Z.to_nat n)) iappend_step (din, xint (din_size din), n, p);
  let '(din, off) := r in
  winode inum (set_din_size (xint off) din).

(** ** The program *)

Definition nmeta : Z := 2 + nlog + ninodeblocks + nbitmap.

Definition init_sb : superblock :=
  mkSuperblock FSMAGIC (xint FSSIZE) (xint (FSSIZE - nmeta)) (xint NINODES) (xint nlog) (xint 2) (xint (2 + nlog))
    (xint (2 + nlog + ninodeblocks)).

(** The bytes of [sb]. *)
Definition sb_bytes (s : superblock) : list Z :=
  concat (le_bytes 4 <$> [magic s; fssize s; nblocks s; ninodes s; Machine.nlog s; logstart s; inodestart s; bmapstart s]).

Definition SLASH : Z := 47.
Definition UNDERSCORE : Z := 95.

(** The name in the image of the host's file [arg]. *)
Definition shortname (arg : list Z) : list Z :=
  if bool_decide (take 5 arg = path_bytes "user/") then drop 5 arg else arg.

Definition drop_underscore (name : list Z) : list Z :=
  match name with c :: r => if c =? UNDERSCORE then r else name | [] => [] end.

(** The parts of [main] before and after the loop over the files. *)
Definition clear_image : MK unit :=
  put (fun s => s <| msb := init_sb |> <| freeblock := nmeta |>);;
  mfor (seq 0 (Z.to_nat FSSIZE)) (fun i => wsect (Z.of_nat i) zeroes);;
  s ← get;
  wsect 1 (put_bytes zeroes 0 (sb_bytes (msb s))).

Definition make_root : MK Z :=
  rootino ← ialloc T_DIR;
  assert_ (rootino =? ROOTINO);;
  iappend rootino (dirent_bytes (xshort rootino) (path_bytes ".")) DIRENT;;
  iappend rootino (dirent_bytes (xshort rootino) (path_bytes "..")) DIRENT;;
  mret rootino.

(** The size of the root directory is rounded up. *)
Definition finish (rootino : Z) : MK unit :=
  din ← rinode rootino;
  let off := xint (din_size din) in
  let off := u32 ((off / BSIZE + 1) * BSIZE) in
  winode rootino (set_din_size (xint off) din);;
  s ← get;
  balloc (i32 (freeblock s)).

Section host.
(** The files of the host: whether the image can be opened, and what the
    reads of another file return, one after the other. *)
Context (opens : list Z -> bool) (reads : list Z -> option (list (list Z))).

Definition add_file (rootino : Z) (arg : list Z) : MK unit :=
  let name := shortname arg in
  assert_ (negb (existsb (fun c => c =? SLASH) name));;
  match reads arg with
  | None => die arg
  | Some chunks =>
      let name := drop_underscore name in
      assert_ (length name <=? DIRSIZ)%nat;;
      inum ← ialloc T_FILE;
      iappend rootino (dirent_bytes (xshort inum) name) DIRENT;;
      mfor chunks (fun buf => iappend inum buf (Z.of_nat (length buf)))
  end.

Definition main (argv : list (list Z)) : MK unit :=
  match argv with
  | _ :: image :: files =>
      if negb (opens image) then die image
      else
        clear_image;;
        rootino ← make_root;
        mfor files (add_file rootino);;
        finish rootino
  | _ => halts Usage
  end.
End host.

(** The empty file that [open] creates, and the initialised variables. *)
Definition start_image : fsimage := mkImage (fun _ => zeroes) 0 1 0 (mkSuperblock 0 0 0 0 0 0 0 0).
