(* ===== verification/MkfsRep.v ===== *)
(** * What the image builder builds

    Correctness of [mkfs/mkfs.c], stated with the functions that describe what
    the kernel reads from a disk: inodes, contents, directories, the free map. *)
From stdpp Require Import base tactics list numbers gmap strings.
From Stdlib Require Import ZifyNat.
From S2P Require Import Prelude Machine Blocks Bio Fs FsBlocks FsInode Itable Namei Mkfs.

Open Scope Z_scope.

#[local] Ltac Zify.zify_post_hook ::= Z.to_euclidean_division_equations.

(** ** Byte order *)

Lemma xint_id x : 0 <= x < 2 ^ 32 -> xint x = x.
Proof.
  intros H. unfold xint, u8. rewrite !Z.shiftr_div_pow2 by lia.
  change (le_value [x mod 2 ^ 8; (x / 2 ^ 8) mod 2 ^ 8; (x / 2 ^ 16) mod 2 ^ 8; (x / 2 ^ 24) mod 2 ^ 8]) with
    (x mod 2 ^ 8 + 2 ^ 8 * ((x / 2 ^ 8) mod 2 ^ 8 + 2 ^ 8 * ((x / 2 ^ 16) mod 2 ^ 8 + 2 ^ 8 * ((x / 2 ^ 24) mod 2 ^ 8 + 2 ^ 8 * 0)))).
  lia.
Qed.

Lemma xshort_id x : 0 <= x < 2 ^ 16 -> xshort x = x.
Proof.
  intros H. unfold xshort, u8. rewrite !Z.shiftr_div_pow2 by lia.
  change (le_value [x mod 2 ^ 8; (x / 2 ^ 8) mod 2 ^ 8]) with (x mod 2 ^ 8 + 2 ^ 8 * ((x / 2 ^ 8) mod 2 ^ 8 + 2 ^ 8 * 0)). lia.
Qed.

(** ** Inodes as bytes *)

Lemma get_bytes_within d off n o m : (o + m <= n)%nat -> get_bytes (get_bytes d off n) o m = get_bytes d (off + o) m.
Proof.
  intros H. unfold get_bytes. rewrite skipn_firstn_comm, take_take, drop_drop. f_equal. lia.
Qed.

Lemma get_word_within d off n o m : (o + m <= n)%nat -> get_word m (get_bytes d off n) o = get_word m d (off + o).
Proof. intros H. unfold get_word. by rewrite get_bytes_within. Qed.

(** The inode that 64 bytes describe. *)
Definition din_inode (din : list Z) : inode := get_dinode din 0 no_inode.

Lemma dinode_bytes v sb n : dinode v sb n = din_inode (get_bytes (v (IBLOCK n sb)) (dinode_off n) DINODE).
Proof.
  unfold dinode, din_inode, get_dinode, di_type, get_short, di_addrs, DINODE.
  rewrite !get_word_within by lia. rewrite !Nat.add_0_r. cbn -[seq NDIRECT get_word dinode_off no_inode].
  f_equal. apply list_fmap_ext. intros k j [-> Hj]%lookup_seq. unfold NDIRECT in Hj. rewrite get_word_within by lia. f_equal. lia.
Qed.

Lemma length_addrs din : length (addrs (din_inode din)) = S NDIRECT.
Proof. unfold din_inode, get_dinode. cbn -[seq NDIRECT]. unfold di_addrs. by rewrite length_fmap, length_seq. Qed.

Lemma din_addr_lookup din k : (k <= NDIRECT)%nat -> addrs (din_inode din) !! k = Some (din_addr k din).
Proof.
  intros Hk. unfold din_inode, get_dinode. cbn -[seq NDIRECT]. unfold di_addrs.
  rewrite list_lookup_fmap, lookup_seq_lt by lia. done.
Qed.

(** Equal but for the block addresses. *)
Definition same_head (d d' : list Z) : Prop :=
  length d' = length d /\ forall o n, (o + n <= 12)%nat -> get_word n d' o = get_word n d o.

Lemma set_din_addr_ok k x din : length din = DINODE -> (k <= NDIRECT)%nat -> 0 <= x < 2 ^ 32 ->
  addrs (din_inode (set_din_addr k x din)) = <[k := x]> (addrs (din_inode din)) /\ same_head din (set_din_addr k x din).
Proof.
  unfold DINODE, NDIRECT. intros Hl Hk Hx. split.
  - apply list_eq. intros j. destruct (decide (j < 13)%nat) as [Hj|Hj].
    + rewrite din_addr_lookup by (unfold NDIRECT; lia). unfold din_addr, set_din_addr. destruct (decide (j = k)) as [->|Hne].
      * rewrite list_lookup_insert_eq by (rewrite length_addrs; unfold NDIRECT; lia). rewrite get_put_word by lia. f_equal. change (8 * Z.of_nat 4) with 32. lia.
      * rewrite list_lookup_insert_ne, din_addr_lookup by (done || unfold NDIRECT; lia). unfold din_addr. rewrite get_put_word_other by lia. done.
    + rewrite !lookup_ge_None_2; [done| |]; rewrite ?length_insert, length_addrs; unfold NDIRECT; lia.
  - split; [apply put_word_length|]. intros o n Ho. unfold set_din_addr. apply get_put_word_other. lia.
Qed.

(** ** The blocks of a file *)

(** The data blocks of the inode are [bl], in order; [ind] is its indirect
    block, 0 if it has none. *)
Record maps (v : Z -> list Z) (ip : inode) (bl : list Z) (ind : Z) : Prop := mkMaps {
  ma_addrs : length (addrs ip) = S NDIRECT;
  ma_max : (length bl <= NDIRECT + NINDIRECT)%nat;
  ma_range : Forall (fun b => 0 < b < 2 ^ 31) bl /\ 0 <= ind < 2 ^ 31;
  ma_ind : addrs ip !! NDIRECT = Some ind /\ (ind = 0 <-> (length bl <= NDIRECT)%nat);
  ma_direct : forall k, (k < NDIRECT)%nat -> addrs ip !! k = Some (default 0 (bl !! k));
  ma_indirect : ind <> 0 -> forall k, (k < NINDIRECT)%nat -> get_word 4 (v ind) (4 * k) = default 0 (bl !! (NDIRECT + k)%nat)
}.

Lemma maps_block_addr v ip bl ind k : maps v ip bl ind -> (k < NDIRECT + NINDIRECT)%nat ->
  block_addr v ip (Z.of_nat k) = default 0 (bl !! k).
Proof.
  intros [Ha Hm _ [Hi Hi0] Hd Hx] Hk. unfold block_addr. destruct (Z.ltb_spec (Z.of_nat k) (Z.of_nat NDIRECT)).
  - rewrite Nat2Z.id, Hd by lia. done.
  - rewrite Hi. cbn [default]. change (id ind) with ind. rewrite <- Nat2Z.inj_sub, Nat2Z.id by lia.
    destruct (Z.ltb_spec (Z.of_nat (k - NDIRECT)) (Z.of_nat NINDIRECT)); [|lia].
    destruct (Z.eqb_spec ind 0) as [E|E].
    + apply Hi0 in E. by rewrite lookup_ge_None_2 by lia.
    + rewrite Hx by (done || lia). do 2 f_equal. lia.
Qed.

(** The blocks a file owns. *)
Definition owned (bl : list Z) (ind : Z) : list Z := bl ++ (if ind =? 0 then [] else [ind]).

(** The data blocks hold [data]. *)
Definition holds (v : Z -> list Z) (bl data : list Z) : Prop :=
  forall o x, data !! o = Some x -> exists b, bl !! (o / 1024)%nat = Some b /\ v b !! (o mod 1024)%nat = Some x.

Definition nblk (n : nat) : nat := ((n + 1023) / 1024)%nat.

(** How many blocks a file of [n] bytes owns. *)
Definition cost (n : nat) : nat := (nblk n + if (NDIRECT <? nblk n)%nat then 1 else 0)%nat.

Record file_rep (v : Z -> list Z) (ip : inode) (data bl : list Z) (ind : Z) : Prop := mkFileRep {
  fr_maps : maps v ip bl ind;
  fr_holds : holds v bl data;
  fr_blocks : length bl = nblk (length data);
  fr_distinct : NoDup (owned bl ind)
}.

Lemma owned_length v ip data bl ind : file_rep v ip data bl ind -> length (owned bl ind) = cost (length data).
Proof.
  intros [M _ Hb _]. unfold owned, cost. rewrite length_app, Hb. destruct (ma_ind _ _ _ _ M) as [_ Hi]. rewrite Hb in Hi.
  destruct (Z.eqb_spec ind 0) as [E|E], (Nat.ltb_spec NDIRECT (nblk (length data))); cbn; try done; exfalso.
  - apply Hi in E. lia.
  - by apply E, Hi.
Qed.

Lemma elem_of_owned bl ind b : b ∈ owned bl ind <-> b ∈ bl \/ (ind <> 0 /\ b = ind).
Proof.
  unfold owned. rewrite elem_of_app. destruct (Z.eqb_spec ind 0) as [->|E].
  - split; [intros [H|H]; [by left|by apply elem_of_nil in H]|intros [H|[H _]]; [by left|done]].
  - rewrite list_elem_of_singleton. naive_solver.
Qed.

Lemma file_rep_frame v v' ip data bl ind : file_rep v ip data bl ind -> (forall b, b ∈ owned bl ind -> v' b = v b) -> file_rep v' ip data bl ind.
Proof.
  intros [[M1 M2 M3 M4 M5 M6] H Hb Hd] Hv. split; [split; try done| |done|done].
  - intros Hi k Hk. rewrite Hv by (apply elem_of_owned; by right). by apply M6.
  - intros o x Hx. destruct (H o x Hx) as (b & Hbl & Hb'). exists b. split; [done|]. rewrite Hv; [done|].
    apply elem_of_owned. left. by eapply list_elem_of_lookup_2.
Qed.

(** ** The state of a run *)

Lemma mk_bind {A B} (m : MK A) (k : A -> MK B) s a s' : m s = inl (a, s') -> (m ≫= k) s = k a s'.
Proof. intros H. unfold mbind, MK_bind. by rewrite H. Qed.

(** The image has its size, blocks below [freeblock] are given out, the
    others are still zero. *)
Record core (s : fsimage) : Prop := mkCore {
  co_sects : sects s = FSSIZE;
  co_free : nmeta <= freeblock s <= FSSIZE;
  co_size : forall b, length (img s b) = 1024%nat;
  co_zero : forall b, freeblock s <= b -> img s b = zeroes
}.

Definition with_img (b : Z) (buf : list Z) (s : fsimage) : fsimage := s <| img ::= fun v => upd v b buf |>.

Lemma sector b : 0 <= b < FSSIZE -> u32 (b * BSIZE) / BSIZE = b.
Proof. unfold FSSIZE, BSIZE. intros H. rewrite u32_id by lia. lia. Qed.

Lemma rsect_ok b s : core s -> 0 <= b < FSSIZE -> rsect b s = inl (img s b, s).
Proof.
  intros [Hs _ _ _] Hb. unfold rsect. erewrite mk_bind by reflexivity. cbv zeta. rewrite sector, Hs by done.
  destruct (Z.ltb_spec b FSSIZE); [done|lia].
Qed.

Lemma wsect_ok b buf s : sects s = FSSIZE -> 0 <= b < FSSIZE -> wsect b buf s = inl (tt, with_img b buf s).
Proof.
  intros Hs Hb. unfold wsect, put, with_img. cbv zeta. rewrite sector by done. do 2 f_equal.
  destruct s as [v n ? ? ?]. cbn in Hs |- *. rewrite Hs, Z.max_r by lia. done.
Qed.

Lemma core_with_img b buf s : core s -> b < freeblock s -> length buf = 1024%nat -> core (with_img b buf s).
Proof.
  intros [Hs Hf Hl Hz] Hb Hbuf. split; [done|done| |]; intros c; unfold with_img; cbn -[zeroes]; unfold upd.
  - by destruct (Z.eqb_spec c b).
  - intros Hc. destruct (Z.eqb_spec c b); [lia|]. by apply Hz.
Qed.

Lemma nmeta_eq : nmeta = 46.
Proof. reflexivity. Qed.

(** [freeblock++] *)
Definition bumped (s : fsimage) : fsimage := s <| freeblock ::= fun b => b + 1 |>.

Lemma next_block_ok s : core s -> freeblock s < FSSIZE -> next_block s = inl (freeblock s, bumped s) /\ core (bumped s).
Proof.
  intros [Hs Hf Hl Hz] Hlt. rewrite nmeta_eq in *. split.
  - unfold next_block. erewrite mk_bind by reflexivity. unfold put. erewrite mk_bind by reflexivity.
    unfold bumped. cbn. rewrite u32_id; [done|]. unfold FSSIZE in *. lia.
  - split; [done|cbn; rewrite nmeta_eq; lia|done|]. cbn -[zeroes]. intros b Hb. apply Hz. lia.
Qed.

(** What allocating and writing does to the rest of the image: only blocks of
    the file or fresh ones change, and the file owns the fresh ones after. *)
Record grows (s s' : fsimage) (o o' : list Z) : Prop := mkGrows {
  gr_free : freeblock s <= freeblock s';
  gr_owned : o' ≡ₚ o ++ seqZ (freeblock s) (freeblock s' - freeblock s);
  gr_img : forall b, b < freeblock s -> b ∉ o -> img s' b = img s b;
  gr_rest : freeinode s' = freeinode s /\ msb s' = msb s /\ sects s' = sects s
}.

Lemma grows_refl s o : grows s s o o.
Proof. split; [lia| |done|done]. by rewrite Z.sub_diag, seqZ_nil, app_nil_r by lia. Qed.

Lemma grows_trans s1 s2 s3 o1 o2 o3 : grows s1 s2 o1 o2 -> grows s2 s3 o2 o3 -> grows s1 s3 o1 o3.
Proof.
  intros [F1 O1 I1 (R1 & R2 & R3)] [F2 O2 I2 (R4 & R5 & R6)]. split; [lia| | |].
  - rewrite O2, O1, <- app_assoc. apply Permutation_app; [done|].
    replace (freeblock s3 - freeblock s1) with ((freeblock s2 - freeblock s1) + (freeblock s3 - freeblock s2)) by lia.
    rewrite seqZ_app by lia. replace (freeblock s1 + (freeblock s2 - freeblock s1)) with (freeblock s2) by lia. done.
  - intros b Hb Ho. rewrite I2; [by apply I1|lia|]. rewrite O1, elem_of_app, elem_of_seqZ. intros [?|?]; [done|lia].
  - split; [congruence|]. split; congruence.
Qed.

(** ** The block of an index *)

Lemma le_value_zeros n : le_value (replicate n 0) = 0.
Proof. induction n as [|n IH]; [done|]. cbn [replicate le_value]. by rewrite IH. Qed.

Lemma get_word_zeros m n o : get_word n (replicate m 0) o = 0.
Proof. unfold get_word, get_bytes. rewrite drop_replicate, take_replicate. apply le_value_zeros. Qed.

Lemma file_block_old din k b bl ind s : core s -> maps (img s) (din_inode din) bl ind -> 0 <= ind < FSSIZE -> bl !! k = Some b ->
  file_block din k s = inl ((b, din), s).
Proof.
  intros C [M1 M2 [M3 _] [M4 Mi] M5 M6] Hi Hb. assert (Hlt := lookup_lt_Some _ _ _ Hb). unfold FSSIZE in *.
  assert (Hb0 : 0 < b < 2 ^ 31) by by apply (list.Forall_lookup_1 _ _ _ _ M3 Hb).
  unfold file_block. destruct (Nat.ltb_spec k NDIRECT) as [Hk|Hk].
  - specialize (M5 k Hk). rewrite Hb, din_addr_lookup in M5 by lia. injection M5 as M5. change (default 0 (Some b)) with b in M5. rewrite M5, xint_id by lia.
    destruct (Z.eqb_spec b 0); [lia|]. erewrite mk_bind by reflexivity. by rewrite M5, xint_id by lia.
  - rewrite din_addr_lookup in M4 by lia. injection M4 as M4. rewrite M4, xint_id by lia. destruct (Z.eqb_spec ind 0) as [E|E]; [apply Mi in E; lia|].
    erewrite mk_bind by reflexivity. unfold indirect_block. erewrite mk_bind; [reflexivity|]. rewrite M4, xint_id by lia. erewrite mk_bind by (apply rsect_ok; done). cbv zeta.
    specialize (M6 E (k - NDIRECT)%nat ltac:(lia)). replace (NDIRECT + (k - NDIRECT))%nat with k in M6 by lia. rewrite Hb in M6. change (default 0 (Some b)) with b in M6.
    rewrite M6. destruct (Z.eqb_spec b 0); [lia|]. erewrite mk_bind by reflexivity. by rewrite M6, xint_id by lia.
Qed.

Lemma lookup_snoc (l : list Z) (x : Z) j : default 0 ((l ++ [x]) !! j) = if decide (j = length l) then x else default 0 (l !! j).
Proof.
  case_decide as E; [subst; by rewrite list_lookup_middle|]. destruct (decide (j < length l)%nat).
  - by rewrite lookup_app_l by lia.
  - rewrite !lookup_ge_None_2; [done|lia|rewrite length_app; cbn; lia].
Qed.

Lemma maps_direct v ip ip' bl ind x : maps v ip bl ind -> (length bl < NDIRECT)%nat -> 0 < x < 2 ^ 31 ->
  addrs ip' = <[length bl := x]> (addrs ip) -> maps v ip' (bl ++ [x]) ind.
Proof.
  intros [M1 M2 [M3 M3'] [M4 Mi] M5 M6] Hk Hx Ea. assert (E0 : ind = 0) by (apply Mi; lia). split.
  - by rewrite Ea, length_insert.
  - rewrite length_app. cbn [length]. lia.
  - split; [|done]. apply Forall_app. split; [done|]. by apply list.Forall_cons.
  - rewrite Ea, list_lookup_insert_ne by lia. split; [done|]. rewrite length_app. cbn [length]. split; [lia|done].
  - intros k Hk'. rewrite Ea, lookup_snoc. case_decide as E; [subst k; rewrite list_lookup_insert_eq by (rewrite M1; lia); done|].
    rewrite list_lookup_insert_ne by done. by apply M5.
  - done.
Qed.

Lemma maps_indirect v v' ip ip' bl ind ind' x : maps v ip bl ind -> (NDIRECT <= length bl < NDIRECT + NINDIRECT)%nat -> 0 < x < 2 ^ 31 ->
  0 < ind' < 2 ^ 31 -> addrs ip' = <[NDIRECT := ind']> (addrs ip) ->
  (forall j, (j < NINDIRECT)%nat -> get_word 4 (v' ind') (4 * j) = if decide (NDIRECT + j = length bl)%nat then x else default 0 (bl !! (NDIRECT + j)%nat)) ->
  maps v' ip' (bl ++ [x]) ind'.
Proof.
  intros [M1 M2 [M3 M3'] [M4 Mi] M5 M6] Hk Hx Hi Ea Hw. split.
  - by rewrite Ea, length_insert.
  - rewrite length_app. cbn [length]. lia.
  - split; [|lia]. apply Forall_app. split; [done|]. by apply list.Forall_cons.
  - rewrite Ea, list_lookup_insert_eq by lia. split; [done|]. rewrite length_app. cbn [length]. split; [lia|lia].
  - intros k Hk'. rewrite Ea, list_lookup_insert_ne, lookup_snoc, decide_False by lia. by apply M5.
  - intros _ k Hk'. by rewrite lookup_snoc, Hw.
Qed.

(** The blocks of a file and those that are still free are apart. *)
Definition in_use (s : fsimage) (o : list Z) : Prop := NoDup o /\ Forall (fun b => nmeta <= b < freeblock s) o.

(** What [file_block] does for the block after the last one. *)
Record extended (s s' : fsimage) (din din' : list Z) (bl : list Z) (ind x ind' : Z) : Prop := mkExtended {
  ex_core : core s';
  ex_maps : maps (img s') (din_inode din') (bl ++ [x]) ind';
  ex_grows : grows s s' (owned bl ind) (owned (bl ++ [x]) ind');
  ex_head : same_head din din';
  ex_fresh : freeblock s <= x < freeblock s' /\ x <> ind';
  ex_count : freeblock s' = freeblock s + (if (length bl =? NDIRECT)%nat then 2 else 1);
  ex_data : forall b, b <> ind' -> img s' b = img s b
}.

Lemma file_block_new_direct din bl ind s : core s -> length din = DINODE -> maps (img s) (din_inode din) bl ind ->
  (length bl < NDIRECT)%nat -> freeblock s < FSSIZE ->
  exists x ind' din' s', file_block din (length bl) s = inl ((x, din'), s') /\ extended s s' din din' bl ind x ind'.
Proof.
  intros C Hl M Hk Hf. assert (Cf := co_free _ C). rewrite nmeta_eq in Cf. unfold FSSIZE in *.
  destruct (next_block_ok s C ltac:(done)) as [E C']. set (x := freeblock s) in *.
  destruct (set_din_addr_ok (length bl) x din Hl) as [Ea Hh]; [lia|lia|].
  assert (E0 : ind = 0) by (apply (ma_ind _ _ _ _ M); lia). exists x, ind, (set_din_addr (length bl) x din), (bumped s). split.
  - unfold file_block. destruct (Nat.ltb_spec (length bl) NDIRECT) as [_|]; [|lia].
    assert (H := ma_direct _ _ _ _ M (length bl) Hk). rewrite din_addr_lookup, lookup_ge_None_2 in H by lia. injection H as H. change (default 0 None) with 0 in H. rewrite H. change (xint 0 =? 0) with true. cbn match.
    erewrite mk_bind; [|erewrite mk_bind by exact E; reflexivity]. rewrite (xint_id x) by lia.
    assert (Hx := din_addr_lookup (set_din_addr (length bl) x din) (length bl) ltac:(lia)). rewrite Ea in Hx.
    rewrite list_lookup_insert_eq in Hx by (rewrite length_addrs; lia). injection Hx as Hx. rewrite <- Hx, xint_id by lia. done.
  - split; [done|by eapply maps_direct; [| |lia|]| |done| | |done].
    + split; [cbn; lia| |done|done]. cbn. unfold owned. rewrite E0. cbn. rewrite !app_nil_r. replace (freeblock s + 1 - freeblock s) with 1 by lia. done.
    + cbn. fold x. split; [lia|]. rewrite E0. lia.
    + cbn. destruct (Nat.eqb_spec (length bl) NDIRECT); [lia|done].
Qed.

Lemma indirect_entry din k ind s : core s -> nmeta <= ind < freeblock s -> din_addr NDIRECT din = ind ->
  (NDIRECT <= k < NDIRECT + NINDIRECT)%nat -> get_word 4 (img s ind) (4 * (k - NDIRECT)) = 0 -> freeblock s < FSSIZE ->
  let s' := with_img ind (put_word 4 (img s ind) (4 * (k - NDIRECT)) (freeblock s)) (bumped s) in
  indirect_block din k s = inl (freeblock s, s') /\ core s' /\ forall j, (j < NINDIRECT)%nat ->
    get_word 4 (img s' ind) (4 * j) = if decide (NDIRECT + j = k)%nat then freeblock s else get_word 4 (img s ind) (4 * j).
Proof.
  intros C Hi Ha Hk Hw Hf s'. rewrite nmeta_eq in Hi. assert (Cf := co_free _ C). rewrite nmeta_eq in Cf. assert (Cl := co_size _ C ind).
  destruct (next_block_ok s C Hf) as [E C']. assert (HN : NINDIRECT = 256%nat) by done. assert (HD : NDIRECT = 12%nat) by done. unfold FSSIZE in *. split; [|split].
  - unfold indirect_block. rewrite Ha, xint_id by lia. erewrite mk_bind by (apply rsect_ok; [done|unfold FSSIZE; lia]). cbv zeta. rewrite Hw.
    change (0 =? 0) with true. cbn match.
    erewrite mk_bind; [|erewrite mk_bind by exact E; erewrite mk_bind by (apply wsect_ok; [apply C'|unfold FSSIZE; lia]); reflexivity].
    rewrite (xint_id (freeblock s)) by lia. rewrite get_put_word by lia. rewrite xint_id by (change (8 * Z.of_nat 4) with 32; lia).
    change (8 * Z.of_nat 4) with 32. rewrite Z.mod_small by lia. done.
  - apply core_with_img; [exact C'|cbn; lia|]. by rewrite put_word_length.
  - intros j Hj. unfold s', with_img. cbn -[get_word put_word Nat.mul]. unfold upd. rewrite Z.eqb_refl. case_decide as Ej.
    + replace (4 * (k - NDIRECT))%nat with (4 * j)%nat by lia. rewrite get_put_word by lia. change (8 * Z.of_nat 4) with 32. lia.
    + apply get_put_word_other. lia.
Qed.

Lemma owned_lookup (o : list Z) (lo hi b : Z) : Forall (fun b => lo <= b < hi) o -> b ∈ o -> lo <= b < hi.
Proof. intros H Hb. by apply (proj1 (list.Forall_forall _ _) H). Qed.

Lemma file_block_new din bl ind s : core s -> length din = DINODE -> maps (img s) (din_inode din) bl ind ->
  in_use s (owned bl ind) -> (length bl < NDIRECT + NINDIRECT)%nat ->
  freeblock s + (if (length bl =? NDIRECT)%nat then 2 else 1) <= FSSIZE ->
  exists x ind' din' s', file_block din (length bl) s = inl ((x, din'), s') /\ extended s s' din din' bl ind x ind'.
Proof.
  intros C Hl M [Hnd Hin] Hk Hf. destruct (decide (length bl < NDIRECT)%nat) as [Hd|Hd].
  { apply file_block_new_direct; try done. destruct (Nat.eqb_spec (length bl) NDIRECT); lia. }
  assert (Cf := co_free _ C). rewrite nmeta_eq in Cf. assert (Ha := proj1 (ma_ind _ _ _ _ M)). rewrite din_addr_lookup in Ha by lia. injection Ha as Ha.
  destruct (ma_ind _ _ _ _ M) as [_ Hi0]. unfold file_block. destruct (Nat.ltb_spec (length bl) NDIRECT) as [|_]; [lia|]. rewrite Ha.
  destruct (Nat.eqb_spec (length bl) NDIRECT) as [Heq|Hne].
  - (* the indirect block is allocated first *)
    assert (E0 : ind = 0) by (apply Hi0; lia). rewrite E0 in M, Hnd, Hin |- *. change (xint 0 =? 0) with true. cbn match.
    destruct (next_block_ok s C ltac:(unfold FSSIZE in *; lia)) as [E C1]. erewrite mk_bind; [|erewrite mk_bind by exact E; reflexivity].
    set (y := freeblock s) in *. unfold FSSIZE in *. rewrite (xint_id y) by lia. set (din1 := set_din_addr NDIRECT y din).
    destruct (set_din_addr_ok NDIRECT y din Hl) as [Ea Hh]; [lia|lia|]. fold din1 in Ea, Hh.
    assert (Ha1 : din_addr NDIRECT din1 = y).
    { assert (H := din_addr_lookup din1 NDIRECT ltac:(lia)). rewrite Ea, list_lookup_insert_eq in H by (rewrite length_addrs; lia). by injection H. }
    assert (Hz : img (bumped s) y = zeroes) by (apply C; lia).
    destruct (indirect_entry din1 (length bl) y (bumped s)) as (E2 & C2 & Hw); [done|cbn; rewrite nmeta_eq; fold y; lia|done|lia| |cbn; unfold FSSIZE; fold y; lia|].
    { rewrite Hz. apply get_word_zeros. }
    set (x := freeblock (bumped s)) in *. assert (Hx : x = y + 1) by done.
    eexists x, y, din1, _. split; [erewrite mk_bind by exact E2; reflexivity|]. split; [exact C2| | |exact Hh|split; [|lia]|cbn; fold y; destruct (Nat.eqb_spec (length bl) NDIRECT); [lia|done]|].
    + eapply maps_indirect; [exact M|lia|lia|lia|exact Ea|]. intros j Hj. rewrite Hw by done. case_decide; [done|].
      rewrite Hz, lookup_ge_None_2 by lia. apply get_word_zeros.
    + split; [cbn; lia| | |done].
      * unfold owned. cbn -[seqZ]. destruct (Z.eqb_spec y 0); [lia|]. rewrite app_nil_r, <- app_assoc. apply Permutation_app; [done|].
        fold y. replace (y + 1 + 1 - y) with (1 + 1) by lia. rewrite seqZ_app by lia. cbn. apply perm_swap.
      * intros b Hb _. cbn. unfold upd. destruct (Z.eqb_spec b y); [lia|done].
    + cbn. fold y. lia.
    + intros b Hb. cbn. unfold upd. by destruct (Z.eqb_spec b y).
  - assert (Hind : ind <> 0) by lia. assert (Hr : nmeta <= ind < freeblock s). { eapply owned_lookup; [exact Hin|]. apply elem_of_owned. by right. }
    rewrite nmeta_eq in Hr. unfold FSSIZE in *. rewrite (xint_id ind) by lia. destruct (Z.eqb_spec ind 0) as [|_]; [done|]. erewrite mk_bind by reflexivity.
    assert (Hw0 := ma_indirect _ _ _ _ M Hind (length bl - NDIRECT)%nat ltac:(lia)). rewrite lookup_ge_None_2 in Hw0 by lia. change (default 0 None) with 0 in Hw0.
    destruct (indirect_entry din (length bl) ind s) as (E2 & C2 & Hw); [done|by rewrite nmeta_eq|done|lia|done|unfold FSSIZE; lia|].
    set (x := freeblock s) in *. eexists x, ind, din, _. split; [erewrite mk_bind by exact E2; reflexivity|].
    split; [exact C2| | |by split|split; [cbn; fold x; lia|lia]|cbn; fold x; destruct (Nat.eqb_spec (length bl) NDIRECT); [lia|done]|].
    + eapply maps_indirect; [exact M|lia|lia|lia| |].
      { symmetry. apply list_insert_id. apply M. }
      intros j Hj. rewrite Hw by done. case_decide; [done|]. by apply (ma_indirect _ _ _ _ M).
    + split; [cbn; lia| | |done].
      * unfold owned. cbn -[seqZ]. destruct (Z.eqb_spec ind 0); [lia|]. fold x. replace (x + 1 - x) with 1 by lia. cbn. rewrite <- !app_assoc. apply Permutation_app; [done|]. apply perm_swap.
      * intros b Hb Ho. cbn. unfold upd. destruct (Z.eqb_spec b ind) as [->|]; [|done]. destruct Ho. apply elem_of_owned. by right.
    + intros b Hb. cbn. unfold upd. by destruct (Z.eqb_spec b ind).
Qed.

(** ** Appending *)

Lemma holds_write v bl data c x : holds v bl data -> (forall b, length (v b) = 1024%nat) -> NoDup bl ->
  bl !! (length data / 1024)%nat = Some x -> (length data mod 1024 + length c <= 1024)%nat ->
  holds (upd v x (put_bytes (v x) (length data mod 1024) c)) bl (data ++ c).
Proof.
  intros H Hv Hn Hx Hc o y Ho. unfold upd. specialize (Hv x). destruct (decide (o < length data)%nat) as [Hlt|Hge].
  - rewrite lookup_app_l in Ho by done. destruct (H o y Ho) as (b & Hb & Hy). exists b. split; [done|].
    destruct (Z.eqb_spec b x) as [->|]; [|done]. assert (E := NoDup_lookup _ _ _ _ Hn Hb Hx).
    unfold put_bytes. rewrite list_lookup_inserts_lt; [done|]. lia.
  - rewrite lookup_app_r in Ho by lia. assert (Hl := lookup_lt_Some _ _ _ Ho). exists x.
    replace (o / 1024)%nat with (length data / 1024)%nat by lia. split; [done|]. rewrite Z.eqb_refl.
    unfold put_bytes. rewrite list_lookup_inserts by lia. rewrite <- Ho. f_equal. lia.
Qed.

Lemma maps_write v ip bl ind x w : maps v ip bl ind -> NoDup (owned bl ind) -> x ∈ bl -> maps (upd v x w) ip bl ind.
Proof.
  intros [M1 M2 M3 M4 M5 M6] Hn Hx. split; try done. intros Hi. unfold upd. destruct (Z.eqb_spec ind x) as [->|]; [|by apply M6].
  exfalso. unfold owned in Hn. destruct (Z.eqb_spec x 0) as [|_]; [done|]. apply NoDup_app in Hn as (_ & Hn & _). apply (Hn x Hx). by apply list_elem_of_singleton.
Qed.

Lemma in_use_grows s s' o o' : core s -> in_use s o -> grows s s' o o' -> in_use s' o'.
Proof.
  intros C [Hn Hf] [G1 G2 _ _]. assert (Cf := co_free _ C). split; rewrite G2.
  - apply NoDup_app. split; [done|]. split; [|apply NoDup_seqZ]. intros b Hb Hs%elem_of_seqZ. assert (H := owned_lookup _ _ _ _ Hf Hb). lia.
  - apply Forall_app. split.
    + eapply list.Forall_impl; [exact Hf|]. intros b Hb. cbv beta in Hb |- *. lia.
    + apply list.Forall_forall. intros b Hb%elem_of_seqZ. lia.
Qed.

Lemma cost_mono a b : (a <= b)%nat -> (cost a <= cost b)%nat.
Proof.
  intros H. unfold cost. assert (nblk a <= nblk b)%nat by (unfold nblk; lia).
  destruct (Nat.ltb_spec NDIRECT (nblk a)), (Nat.ltb_spec NDIRECT (nblk b)); lia.
Qed.

(** A file grows by [n1] bytes within one block. *)
Lemma nblk_same n n1 : (n mod 1024 <> 0)%nat -> (n mod 1024 + n1 <= 1024)%nat -> nblk (n + n1) = nblk n /\ (n / 1024 < nblk n)%nat.
Proof. unfold nblk. lia. Qed.

Lemma nblk_next n n1 : (n mod 1024 = 0)%nat -> (1 <= n1 <= 1024)%nat -> nblk (n + n1) = S (nblk n) /\ (n / 1024 = nblk n)%nat.
Proof. unfold nblk. lia. Qed.

(** The capacity of a file. *)
Definition max_bytes : Z := MAXFILE * BSIZE.

(** The block that the next bytes of a file go to. *)
Lemma append_block din data bl ind s n1 : core s -> length din = DINODE -> file_rep (img s) (din_inode din) data bl ind ->
  in_use s (owned bl ind) -> (1 <= n1)%nat -> (length data mod 1024 + n1 <= 1024)%nat -> Z.of_nat (length data + n1) <= max_bytes ->
  freeblock s + Z.of_nat (cost (length data + n1)) - Z.of_nat (cost (length data)) <= FSSIZE ->
  exists x din' bl' ind' s', file_block din (length data / 1024) s = inl ((x, din'), s') /\ core s' /\ same_head din din' /\
    maps (img s') (din_inode din') bl' ind' /\ holds (img s') bl' data /\ length bl' = nblk (length data + n1) /\
    grows s s' (owned bl ind) (owned bl' ind') /\ bl' !! (length data / 1024)%nat = Some x.
Proof.
  intros C Hl [M H Hb Hd] U H1 Hm Hmax Hf. assert (Hmb : max_bytes = 268 * 1024) by done.
  destruct (decide (length data mod 1024 = 0)%nat) as [Hz|Hz].
  - destruct (nblk_next _ n1 Hz ltac:(lia)) as [E1 E2]. assert (Hbl : (length bl < NDIRECT + NINDIRECT)%nat). { rewrite Hb. change (NDIRECT + NINDIRECT)%nat with 268%nat. unfold nblk in *. lia. }
    destruct (file_block_new din bl ind s C Hl M U Hbl) as (x & ind' & din' & s' & E & X).
    { rewrite Hb. unfold cost in Hf. rewrite E1 in Hf. destruct (Nat.eqb_spec (nblk (length data)) NDIRECT), (Nat.ltb_spec NDIRECT (nblk (length data))), (Nat.ltb_spec NDIRECT (S (nblk (length data)))); lia. }
    destruct X as [X1 X2 X3 X4 X5 X6 X7]. exists x, din', (bl ++ [x]), ind', s'. rewrite E2, <- Hb.
    split; [exact E|]. split; [done|]. split; [done|]. split; [done|]. split; [|split; [|split; [done|by rewrite list_lookup_middle]]].
    + intros o y Hy. destruct (H o y Hy) as (b & Hbl' & Hy'). exists b. split; [by rewrite lookup_app_l by by eapply lookup_lt_Some|].
      rewrite X7; [done|]. intros ->. destruct (in_use_grows _ _ _ _ C U X3) as [Hn _]. unfold owned in Hn.
      destruct (Z.eqb_spec ind' 0) as [Ei|_].
      { destruct (ma_range _ _ _ _ M) as [Hr _]. assert (Hp := list.Forall_lookup_1 _ _ _ _ Hr Hbl'). cbn in Hp. lia. }
      apply NoDup_app in Hn as (_ & Hn & _). apply (Hn ind'); [|by apply list_elem_of_singleton]. apply elem_of_app. left. by eapply list_elem_of_lookup_2.
    + rewrite length_app, E1, Hb. cbn [length]. lia.
  - destruct (nblk_same _ n1 Hz Hm) as [E1 E2]. destruct (lookup_lt_is_Some_2 bl (length data / 1024)) as [x Hx]; [lia|].
    exists x, din, bl, ind, s. rewrite E1. split; [|split; [done|split; [by split|split; [done|split; [done|split; [done|split; [apply grows_refl|done]]]]]]].
    eapply file_block_old; [done|done| |done]. destruct (decide (ind = 0)) as [->|Hi]; [unfold FSSIZE; lia|].
    destruct U as [_ U]. assert (Hr := owned_lookup _ _ _ ind U ltac:(apply elem_of_owned; by right)). assert (Cf := co_free _ C). rewrite nmeta_eq in *. lia.
Qed.

Lemma same_head_trans a b c : same_head a b -> same_head b c -> same_head a c.
Proof. intros [L1 H1] [L2 H2]. split; [congruence|]. intros o n Ho. by rewrite H2, H1. Qed.

(** What appending [p] to a file does: [din] is the copy of its inode. *)
Record appended (s s' : fsimage) (din din' data p bl bl' : list Z) (ind ind' : Z) : Prop := mkAppended {
  ap_core : core s';
  ap_head : same_head din din';
  ap_rep : file_rep (img s') (din_inode din') (data ++ p) bl' ind';
  ap_grows : grows s s' (owned bl ind) (owned bl' ind')
}.

Lemma appended_cost s s' din din' data p bl bl' ind ind' : file_rep (img s) (din_inode din) data bl ind ->
  appended s s' din din' data p bl bl' ind ind' ->
  freeblock s' = freeblock s + Z.of_nat (cost (length data + length p)) - Z.of_nat (cost (length data)).
Proof.
  intros R [_ _ R' [G1 G2 _ _]]. apply owned_length in R. apply owned_length in R'. apply Permutation_length in G2.
  rewrite length_app, length_seqZ, R, R', length_app in G2. lia.
Qed.

Lemma iappend_step_ok s din data bl ind p : core s -> length din = DINODE -> file_rep (img s) (din_inode din) data bl ind ->
  in_use s (owned bl ind) -> p <> [] -> Z.of_nat (length data + length p) <= max_bytes ->
  freeblock s + Z.of_nat (cost (length data + length p)) - Z.of_nat (cost (length data)) <= FSSIZE ->
  exists n1 din' bl' ind' s', (1 <= n1 <= length p)%nat /\
    iappend_step (din, Z.of_nat (length data), Z.of_nat (length p), p) s =
      inl (inl (din', Z.of_nat (length data + n1), Z.of_nat (length p - n1), drop n1 p), s') /\
    appended s s' din din' data (take n1 p) bl bl' ind ind'.
Proof.
  intros C Hl R U Hp Hmax Hf. assert (Hlp : (1 <= length p)%nat) by (destruct p; [done|cbn; lia]). assert (Hmb : max_bytes = 268 * 1024) by done.
  set (n1 := Nat.min (length p) (1024 - length data mod 1024)). assert (Hn1 : (1 <= n1 <= length p)%nat) by lia.
  assert (Hc := cost_mono (length data + n1) (length data + length p) ltac:(lia)).
  destruct (append_block din data bl ind s n1 C Hl R U) as (x & din' & bl' & ind' & s' & E & C' & Hh & M' & H' & Hb' & G & Hx); [lia|lia|lia|lia|].
  assert (U' := in_use_grows _ _ _ _ C U G). destruct U' as [Hn' Hr']. assert (Hxb := list_elem_of_lookup_2 _ _ _ Hx).
  assert (Hxr := owned_lookup _ _ _ x Hr' ltac:(apply elem_of_owned; by left)). rewrite nmeta_eq in Hxr. assert (Cf := co_free _ C').
  assert (Hnb : NoDup bl') by (by apply NoDup_app in Hn' as [? _]).
  set (w := put_bytes (img s' x) (length data mod 1024) (take n1 p)).
  exists n1, din', bl', ind', (with_img x w s'). split; [done|].
  assert (Htk : length (take n1 p) = n1) by (rewrite length_take; lia). split.
  - unfold iappend_step. destruct (Z.ltb_spec 0 (Z.of_nat (length p))); [|lia].
    replace (Z.of_nat (length data) / BSIZE) with (Z.of_nat (length data / 1024)) by (unfold BSIZE; lia).
    assert (Hfb : (Z.of_nat (length data / 1024) <? MAXFILE) = true) by (apply Z.ltb_lt; change MAXFILE with 268; lia).
    rewrite Hfb. erewrite mk_bind by reflexivity. rewrite Nat2Z.id. erewrite mk_bind by exact E. cbv zeta beta iota.
    erewrite mk_bind by (apply rsect_ok; [done|lia]). assert (Hsec := co_sects _ C').
    replace (Z.min (Z.of_nat (length p)) (u32 ((Z.of_nat (length data / 1024) + 1) * BSIZE - Z.of_nat (length data)))) with (Z.of_nat n1).
    2: { unfold BSIZE. rewrite u32_id by lia. lia. }
    replace (Z.to_nat (Z.of_nat (length data) - Z.of_nat (length data / 1024) * BSIZE)) with (length data mod 1024)%nat by (unfold BSIZE; lia).
    rewrite Nat2Z.id. fold w. erewrite mk_bind by (apply wsect_ok; [done|lia]). rewrite u32_id by lia.
    replace (Z.of_nat (length data) + Z.of_nat n1) with (Z.of_nat (length data + n1)) by lia.
    by replace (Z.of_nat (length p) - Z.of_nat n1) with (Z.of_nat (length p - n1)) by lia.
  - split; [| |split|].
    + apply core_with_img; [done|lia|]. unfold w. rewrite put_bytes_length. apply C'.
    + done.
    + unfold with_img. cbn. by apply maps_write.
    + unfold with_img. cbn. apply holds_write; [done|apply C'|done|done|]. rewrite Htk. lia.
    + rewrite length_app, Htk. done.
    + done.
    + destruct G as [G1 G2 G3 G4]. split; [done|done| |done]. intros b Hb Ho. unfold with_img. cbn. unfold upd.
      destruct (Z.eqb_spec b x) as [->|]; [|by apply G3]. exfalso.
      assert (Hx2 : x ∈ owned bl' ind') by (apply elem_of_owned; by left). rewrite G2, elem_of_app, elem_of_seqZ in Hx2. destruct Hx2; [done|lia].
Qed.

Lemma iappend_loop : forall fuel p s din data bl ind, core s -> length din = DINODE -> file_rep (img s) (din_inode din) data bl ind ->
  in_use s (owned bl ind) -> Z.of_nat (length data + length p) <= max_bytes ->
  freeblock s + Z.of_nat (cost (length data + length p)) - Z.of_nat (cost (length data)) <= FSSIZE -> (length p < fuel)%nat ->
  exists din' bl' ind' s',
    mloop fuel iappend_step (din, Z.of_nat (length data), Z.of_nat (length p), p) s = inl ((din', Z.of_nat (length data + length p)), s') /\
    appended s s' din din' data p bl bl' ind ind'.
Proof.
  induction fuel as [|fuel IH]; intros p s din data bl ind C Hl R U Hmax Hf Hfuel; [lia|]. cbn [mloop].
  destruct (decide (p = [])) as [->|Hp].
  - exists din, bl, ind, s. erewrite mk_bind by reflexivity. cbn [length]. rewrite Nat.add_0_r. split; [done|].
    split; [done|by split|by rewrite app_nil_r|apply grows_refl].
  - destruct (iappend_step_ok s din data bl ind p) as (n1 & din1 & bl1 & ind1 & s1 & Hn & E & A); [done..|].
    assert (Hcost := appended_cost _ _ _ _ _ _ _ _ _ _ R A). destruct A as [C1 H1 R1 G1].
    assert (Htk : length (take n1 p) = n1) by (rewrite length_take; lia). rewrite Htk in Hcost.
    assert (Hlen : length (data ++ take n1 p) = (length data + n1)%nat) by by rewrite length_app, Htk.
    destruct (IH (drop n1 p) s1 din1 (data ++ take n1 p) bl1 ind1) as (din' & bl' & ind' & s' & E' & [C2 H2 R2 G2]); try done.
    + rewrite (proj1 H1). done.
    + exact (in_use_grows _ _ _ _ C U G1).
    + rewrite Hlen, length_drop. lia.
    + rewrite Hlen, length_drop. replace (length data + n1 + (length p - n1))%nat with (length data + length p)%nat by lia. lia.
    + rewrite length_drop. lia.
    + exists din', bl', ind', s'. erewrite mk_bind by exact E. rewrite Hlen, length_drop in E'.
      replace (length data + n1 + (length p - n1))%nat with (length data + length p)%nat in E' by lia. split; [exact E'|].
      rewrite <- app_assoc, take_drop in R2. split; [done|by eapply same_head_trans|done|by eapply grows_trans].
Qed.

(** ** The files of the image *)

(** A file: its type, size and data, the blocks that hold them. *)
Record afile := mkAfile { aty : Z; asize : Z; adata : list Z; abl : list Z; aind : Z }.

Definition aowned (f : afile) : list Z := owned (abl f) (aind f).

(** Inode [S i] of the image is the file [f]. *)
Record file_at (v : Z -> list Z) (i : nat) (f : afile) : Prop := mkFileAt {
  fa_type : itype (dinode v init_sb (Z.of_nat (S i))) = aty f;
  fa_nlink : nlink (dinode v init_sb (Z.of_nat (S i))) = 1;
  fa_size : isize (dinode v init_sb (Z.of_nat (S i))) = asize f;
  fa_rep : file_rep v (dinode v init_sb (Z.of_nat (S i))) (adata f) (abl f) (aind f)
}.

(** The block of the super block. *)
Definition super_block : list Z := put_bytes zeroes 0 (sb_bytes init_sb).

(** The image holds the files [fs], and they own every block given out
    exactly once. *)
Record mk_rep (s : fsimage) (fs : list afile) : Prop := mkMkRep {
  mr_core : core s;
  mr_sb : msb s = init_sb;
  mr_inum : freeinode s = 1 + Z.of_nat (length fs);
  mr_few : Z.of_nat (length fs) < NINODES;
  mr_file : forall i f, fs !! i = Some f -> file_at (img s) i f;
  mr_owned : concat (aowned <$> fs) ≡ₚ seqZ nmeta (freeblock s - nmeta);
  mr_super : img s 1 = super_block
}.

Lemma inode_block i : Z.of_nat i < NINODES -> IBLOCK (Z.of_nat (S i)) init_sb = 32 + Z.of_nat (S i / 16) /\
  dinode_off (Z.of_nat (S i)) = (64 * (S i mod 16))%nat.
Proof.
  intros H. unfold NINODES in H. unfold IBLOCK, dinode_off. change (inodestart init_sb) with 32. change IPB with 16.
  rewrite u32_id by lia. split; [lia|]. f_equal. lia.
Qed.

Lemma inode_block_meta i : Z.of_nat i < NINODES -> 0 <= IBLOCK (Z.of_nat (S i)) init_sb < nmeta.
Proof. intros H. destruct (inode_block i H) as [-> _]. rewrite nmeta_eq. unfold NINODES in H. lia. Qed.

(** The copy of an inode that [rinode] makes. *)
Definition din_at (v : Z -> list Z) (i : nat) : list Z := get_bytes (v (IBLOCK (Z.of_nat (S i)) init_sb)) (dinode_off (Z.of_nat (S i))) DINODE.

Lemma dinode_at v i : dinode v init_sb (Z.of_nat (S i)) = din_inode (din_at v i).
Proof. apply dinode_bytes. Qed.

Lemma din_at_length v i : Z.of_nat i < NINODES -> (forall b, length (v b) = 1024%nat) -> length (din_at v i) = DINODE.
Proof.
  intros Hi Hv. unfold din_at, get_bytes, DINODE. destruct (inode_block i Hi) as [_ ->]. rewrite length_take, length_drop, Hv. lia.
Qed.

Lemma rinode_ok s i : core s -> msb s = init_sb -> Z.of_nat i < NINODES -> rinode (Z.of_nat (S i)) s = inl (din_at (img s) i, s).
Proof.
  intros C Hs Hi. unfold rinode. erewrite mk_bind by reflexivity. cbv zeta. rewrite Hs. assert (H := inode_block_meta i Hi).
  rewrite nmeta_eq in H. erewrite mk_bind by (apply rsect_ok; [done|unfold FSSIZE; lia]). done.
Qed.

Definition inode_written (i : nat) (d : list Z) (s : fsimage) : fsimage :=
  let b := IBLOCK (Z.of_nat (S i)) init_sb in with_img b (put_bytes (img s b) (dinode_off (Z.of_nat (S i))) d) s.

Lemma winode_ok s i d : core s -> msb s = init_sb -> Z.of_nat i < NINODES ->
  winode (Z.of_nat (S i)) d s = inl (tt, inode_written i d s) /\ core (inode_written i d s).
Proof.
  intros C Hs Hi. assert (H := inode_block_meta i Hi). assert (Cf := co_free _ C). rewrite nmeta_eq in *. split.
  - unfold winode. erewrite mk_bind by reflexivity. cbv zeta. rewrite Hs.
    erewrite mk_bind by (apply rsect_ok; [done|unfold FSSIZE in *; lia]). apply wsect_ok; [apply C|unfold FSSIZE in *; lia].
  - apply core_with_img; [done|lia|]. rewrite put_bytes_length. apply C.
Qed.

Lemma inode_written_other s i d b : b <> IBLOCK (Z.of_nat (S i)) init_sb -> img (inode_written i d s) b = img s b.
Proof. intros H. unfold inode_written, with_img. cbn -[IBLOCK init_sb put_bytes]. unfold upd. destruct (Z.eqb_spec b (IBLOCK (Z.of_nat (S i)) init_sb)); done. Qed.

Lemma din_at_written s i j d : core s -> Z.of_nat i < NINODES -> Z.of_nat j < NINODES -> length d = DINODE ->
  din_at (img (inode_written i d s)) j = if decide (i = j) then d else din_at (img s) j.
Proof.
  intros C Hi Hj Hd. unfold din_at, inode_written, with_img. cbn -[IBLOCK init_sb put_bytes dinode_off DINODE]. unfold upd.
  assert (Hl := co_size _ C (IBLOCK (Z.of_nat (S i)) init_sb)). destruct (inode_block i Hi) as [Bi Oi], (inode_block j Hj) as [Bj Oj].
  case_decide as E.
  - subst j. rewrite Z.eqb_refl, <- Hd. apply get_put_bytes. rewrite Hl, Oi, Hd. unfold DINODE. lia.
  - destruct (Z.eqb_spec (IBLOCK (Z.of_nat (S j)) init_sb) (IBLOCK (Z.of_nat (S i)) init_sb)) as [Eb|]; [|done]. rewrite Eb.
    apply get_put_bytes_other. rewrite Hd, Oi, Oj. rewrite Bi, Bj in Eb. unfold DINODE. lia.
Qed.

(** A change of inode [i]: the other files stay. *)
Lemma file_at_written s i j d f : core s -> Z.of_nat i < NINODES -> Z.of_nat j < NINODES -> length d = DINODE -> i <> j ->
  Forall (fun b => nmeta <= b) (aowned f) -> file_at (img s) j f -> file_at (img (inode_written i d s)) j f.
Proof.
  intros C Hi Hj Hd Hne Ho [F1 F2 F3 F4].
  assert (E : dinode (img (inode_written i d s)) init_sb (Z.of_nat (S j)) = dinode (img s) init_sb (Z.of_nat (S j))).
  { rewrite !dinode_at, din_at_written by done. by rewrite decide_False. }
  split; rewrite E; try done. eapply file_rep_frame; [exact F4|]. intros b Hb. apply inode_written_other.
  assert (Hm := inode_block_meta i Hi). assert (H := proj1 (list.Forall_forall _ _) Ho b Hb). cbv beta in H. lia.
Qed.

Lemma set_din_size_ok d n : length d = DINODE -> 0 <= n < 2 ^ 32 ->
  addrs (din_inode (set_din_size n d)) = addrs (din_inode d) /\ isize (din_inode (set_din_size n d)) = n /\
  itype (din_inode (set_din_size n d)) = itype (din_inode d) /\ nlink (din_inode (set_din_size n d)) = nlink (din_inode d) /\
  length (set_din_size n d) = DINODE.
Proof.
  unfold DINODE. intros Hl Hn. unfold set_din_size, din_inode, get_dinode, di_type, get_short, di_addrs. cbn -[get_word put_word seq Nat.mul].
  rewrite get_put_word by lia. rewrite put_word_length. change (8 * Z.of_nat 4) with 32. rewrite Z.mod_small by lia.
  rewrite !get_put_word_other by lia. split; [|done]. apply list_fmap_ext. intros k j _. apply get_put_word_other. lia.
Qed.

Lemma same_head_fields d d' : same_head d d' -> itype (din_inode d') = itype (din_inode d) /\ nlink (din_inode d') = nlink (din_inode d) /\ isize (din_inode d') = isize (din_inode d).
Proof.
  intros [_ H]. unfold din_inode, get_dinode, di_type, get_short. cbn -[get_word]. rewrite !H by lia. done.
Qed.

Lemma din_size_isize d : din_size d = isize (din_inode d).
Proof. done. Qed.

Lemma file_rep_addrs v ip ip' data bl ind : addrs ip' = addrs ip -> file_rep v ip data bl ind -> file_rep v ip' data bl ind.
Proof. intros E [[M1 M2 M3 M4 M5 M6] H Hb Hd]. split; [|done|done|done]. by split; rewrite ?E. Qed.

(** Lists of blocks, one per file. *)
Lemma concat_insert_perm (ls : list (list Z)) i (o o' extra : list Z) : ls !! i = Some o -> o' ≡ₚ o ++ extra ->
  concat (<[i := o']> ls) ≡ₚ concat ls ++ extra.
Proof.
  intros Hi Ho. rewrite insert_take_drop by (by eapply lookup_lt_Some). rewrite <- (take_drop_middle ls i o Hi) at 3.
  rewrite !concat_app. cbn [concat]. rewrite Ho, <- !app_assoc. apply Permutation_app; [done|]. apply Permutation_app; [done|].
  apply Permutation_app_comm.
Qed.

Lemma concat_elem (ls : list (list Z)) i o b : ls !! i = Some o -> b ∈ o -> b ∈ concat ls.
Proof.
  intros Hi Hb. rewrite <- (take_drop_middle ls i o Hi), concat_app. cbn [concat]. rewrite !elem_of_app. auto.
Qed.

Lemma concat_disjoint (ls : list (list Z)) i j o o' b : NoDup (concat ls) -> ls !! i = Some o -> ls !! j = Some o' ->
  b ∈ o -> b ∈ o' -> i = j.
Proof.
  revert i j. induction ls as [|l ls IH]; intros [|i] [|j] Hn Hi Hj Hb Hb'; try done; cbn in Hn; apply NoDup_app in Hn as (_ & Hd & Hn).
  - injection Hi as ->. exfalso. apply (Hd b Hb). by apply (concat_elem ls j o').
  - injection Hj as ->. exfalso. apply (Hd b Hb'). by apply (concat_elem ls i o).
  - f_equal. by apply (IH i j).
Qed.

Section rep.
Context (s : fsimage) (fs : list afile) (R : mk_rep s fs).

Lemma rep_lt i f : fs !! i = Some f -> Z.of_nat i < NINODES.
Proof. intros Hi. apply lookup_lt_Some in Hi. assert (H := mr_few _ _ R). lia. Qed.

Lemma rep_owned_lookup i f : fs !! i = Some f -> (aowned <$> fs) !! i = Some (aowned f).
Proof. intros Hi. by rewrite list_lookup_fmap, Hi. Qed.

Lemma rep_in_use i f : fs !! i = Some f -> in_use s (aowned f).
Proof.
  intros Hi. destruct (mr_file _ _ R i f Hi) as [_ _ _ F]. split; [apply F|]. apply list.Forall_forall. intros b Hb.
  assert (H := concat_elem _ _ _ _ (rep_owned_lookup i f Hi) Hb). rewrite (mr_owned _ _ R), elem_of_seqZ in H. lia.
Qed.

Lemma rep_apart i j f g b : fs !! i = Some f -> fs !! j = Some g -> b ∈ aowned f -> b ∈ aowned g -> i = j.
Proof.
  intros Hi Hj. eapply concat_disjoint; [|by apply rep_owned_lookup..]. rewrite (mr_owned _ _ R). apply NoDup_seqZ.
Qed.

Lemma rep_meta i f : fs !! i = Some f -> Forall (fun b => nmeta <= b) (aowned f).
Proof. intros Hi. destruct (rep_in_use i f Hi) as [_ H]. eapply list.Forall_impl; [exact H|]. intros b Hb. cbv beta in Hb. lia. Qed.

End rep.

Definition with_data (p bl : list Z) (ind : Z) (f : afile) : afile :=
  mkAfile (aty f) (Z.of_nat (length (adata f) + length p)) (adata f ++ p) bl ind.

(** The loop, on the file in slot [i]. *)
Lemma iappend_runs s fs i f p : mk_rep s fs -> fs !! i = Some f -> asize f = Z.of_nat (length (adata f)) ->
  Z.of_nat (length (adata f) + length p) <= max_bytes ->
  freeblock s + Z.of_nat (cost (length (adata f) + length p)) - Z.of_nat (cost (length (adata f))) <= FSSIZE ->
  exists din' bl ind s1,
    iappend (Z.of_nat (S i)) p (Z.of_nat (length p)) s = inl (tt, inode_written i (set_din_size (Z.of_nat (length (adata f) + length p)) din') s1) /\
    appended s s1 (din_at (img s) i) din' (adata f) p (abl f) bl (aind f) ind.
Proof.
  intros R Hi Hs Hmax Hf. assert (Hlt := rep_lt _ _ R i f Hi). destruct (mr_file _ _ R i f Hi) as [F1 F2 F3 F4]. rewrite dinode_at in F1, F2, F3, F4.
  assert (C := mr_core _ _ R). assert (Hdl := din_at_length (img s) i Hlt (co_size _ C)). assert (Hmb : max_bytes = 268 * 1024) by done.
  destruct (iappend_loop (S (length p)) p s (din_at (img s) i) (adata f) (abl f) (aind f)) as (din' & bl & ind & s1 & E & A); try done || lia.
  { by apply (rep_in_use s fs R i f). }
  exists din', bl, ind, s1. split; [|done]. unfold iappend. erewrite mk_bind by (apply rinode_ok; [done|apply R|done]).
  rewrite din_size_isize, F3, Hs, xint_id, Nat2Z.id by lia. erewrite mk_bind by exact E. cbv beta iota. rewrite xint_id by lia.
  destruct A as [C1 _ _ [_ _ _ (_ & G & _)]]. apply winode_ok; [done|rewrite G; apply R|done].
Qed.

Lemma appended_others s s1 fs i j f g din' p bl ind : mk_rep s fs -> fs !! i = Some f -> fs !! j = Some g -> i <> j ->
  appended s s1 (din_at (img s) i) din' (adata f) p (abl f) bl (aind f) ind -> file_at (img s1) j g.
Proof.
  intros R Hi Hj Hne [_ _ _ [_ _ G _]]. assert (C := mr_core _ _ R). destruct (mr_file _ _ R j g Hj) as [F1 F2 F3 F4].
  assert (E : dinode (img s1) init_sb (Z.of_nat (S j)) = dinode (img s) init_sb (Z.of_nat (S j))).
  { rewrite !dinode_at. unfold din_at. assert (Hm := inode_block_meta j (rep_lt _ _ R j g Hj)). rewrite G; [done| |].
    - assert (Cf := co_free _ C). lia.
    - intros Hb. assert (H := proj1 (list.Forall_forall _ _) (rep_meta _ _ R i f Hi) _ Hb). cbv beta in H. lia. }
  split; rewrite E; try done. eapply file_rep_frame; [exact F4|]. intros b Hb. apply G.
  - destruct (rep_in_use _ _ R j g Hj) as [_ H]. assert (Hr := owned_lookup _ _ _ b H Hb). lia.
  - intros Hb'. by apply Hne, (rep_apart _ _ R i j f g b Hi Hj).
Qed.

Lemma iappend_ok s fs i f p : mk_rep s fs -> fs !! i = Some f -> asize f = Z.of_nat (length (adata f)) ->
  Z.of_nat (length (adata f) + length p) <= max_bytes ->
  freeblock s + Z.of_nat (cost (length (adata f) + length p)) - Z.of_nat (cost (length (adata f))) <= FSSIZE ->
  exists bl ind s', iappend (Z.of_nat (S i)) p (Z.of_nat (length p)) s = inl (tt, s') /\
    mk_rep s' (<[i := with_data p bl ind f]> fs) /\
    freeblock s' = freeblock s + Z.of_nat (cost (length (adata f) + length p)) - Z.of_nat (cost (length (adata f))).
Proof.
  intros R Hi Hs Hmax Hf. destruct (iappend_runs s fs i f p R Hi Hs Hmax Hf) as (din' & bl & ind & s1 & E & A).
  assert (Hlt := rep_lt _ _ R i f Hi). assert (Hmb : max_bytes = 268 * 1024) by done. assert (Hoth := appended_others s s1 fs i).
  destruct (mr_file _ _ R i f Hi) as [F1 F2 F3 F4]. rewrite dinode_at in F1, F2, F3, F4.
  assert (Hcost := appended_cost _ _ _ _ _ _ _ _ _ _ F4 A). assert (A' := A). destruct A' as [C1 H1 R1 G1]. assert (C := mr_core _ _ R).
  destruct (same_head_fields _ _ H1) as (T1 & T2 & T3). assert (Hdl : length din' = DINODE).
  { rewrite (proj1 H1). apply din_at_length; [done|apply C]. }
  set (n := (length (adata f) + length p)%nat) in *. destruct (set_din_size_ok din' (Z.of_nat n) Hdl ltac:(lia)) as (D1 & D2 & D3 & D4 & D5).
  set (d := set_din_size (Z.of_nat n) din') in *. exists bl, ind, (inode_written i d s1). split; [exact E|]. split; [|exact Hcost].
  destruct G1 as [G1 G2 G3 (G4 & G5 & G6)]. split.
  - apply winode_ok; [done|by rewrite G5; apply R|done].
  - cbn. rewrite G5. apply R.
  - cbn. rewrite G4, length_insert. apply R.
  - rewrite length_insert. apply R.
  - intros j g Hj. apply list_lookup_insert_Some in Hj as [(<- & <- & _)|(Hne & Hj)].
    + assert (Ed : dinode (img (inode_written i d s1)) init_sb (Z.of_nat (S i)) = din_inode d).
      { rewrite dinode_at, din_at_written by done. by rewrite decide_True. }
      split; rewrite Ed; cbn [with_data aty asize adata abl aind]; [congruence|congruence|exact D2|].
      apply (file_rep_addrs _ (din_inode din')); [exact D1|]. eapply file_rep_frame; [exact R1|]. intros b Hb. apply inode_written_other.
      assert (Hm := inode_block_meta i Hlt). assert (U := in_use_grows _ _ _ _ C (rep_in_use _ _ R i f Hi) (mkGrows _ _ _ _ G1 G2 G3 (conj G4 (conj G5 G6)))).
      assert (Hr := owned_lookup _ _ _ b (proj2 U) Hb). lia.
    + apply file_at_written; [done|done|by apply (rep_lt _ _ R j g)|done|done|by apply (rep_meta _ _ R j g)|].
      by apply (Hoth j f g din' p bl ind).
  - cbn. rewrite list_fmap_insert. rewrite (concat_insert_perm _ i (aowned f) _ (seqZ (freeblock s) (freeblock s1 - freeblock s))).
    + rewrite (mr_owned _ _ R). assert (Cf := co_free _ C). replace (freeblock s1 - nmeta) with ((freeblock s - nmeta) + (freeblock s1 - freeblock s)) by lia.
      rewrite seqZ_app by lia. by replace (nmeta + (freeblock s - nmeta)) with (freeblock s) by lia.
    + by apply rep_owned_lookup.
    + exact G2.
  - rewrite inode_written_other by (destruct (inode_block i Hlt) as [-> _]; lia). rewrite G3; [apply R| |].
    + assert (Cf := co_free _ C). rewrite nmeta_eq in Cf. lia.
    + intros Hb. assert (Hr := proj1 (list.Forall_forall _ _) (rep_meta _ _ R i f Hi) _ Hb). cbv beta in Hr. rewrite nmeta_eq in Hr. lia.
Qed.

(** ** A new file *)

Definition empty_file (ty : Z) : afile := mkAfile ty 0 [] [] 0.

Definition new_din (ty : Z) : list Z := set_din_size (xint 0) (put_word 2 (put_word 2 (replicate DINODE 0) 0 (xshort ty)) 6 (xshort 1)).

Lemma new_din_ok ty : 0 <= ty < 2 ^ 15 -> length (new_din ty) = DINODE /\ itype (din_inode (new_din ty)) = ty /\
  nlink (din_inode (new_din ty)) = 1 /\ isize (din_inode (new_din ty)) = 0 /\ addrs (din_inode (new_din ty)) = replicate (S NDIRECT) 0.
Proof.
  intros Ht. unfold new_din. set (d := put_word 2 (put_word 2 (replicate DINODE 0) 0 (xshort ty)) 6 (xshort 1)).
  assert (Hd : length d = DINODE) by (unfold d; by rewrite !put_word_length).
  destruct (set_din_size_ok d (xint 0) Hd ltac:(rewrite xint_id; lia)) as (D1 & D2 & D3 & D4 & D5).
  rewrite D1, D2, D3, D4. split; [done|]. unfold d, din_inode, get_dinode, di_type, get_short, di_addrs. cbn -[get_word put_word seq Nat.mul replicate xshort xint].
  split; [|split; [|split; [by rewrite xint_id by lia|]]].
  - rewrite get_put_word_other, get_put_word by (rewrite ?length_replicate; unfold DINODE; lia). rewrite xshort_id by lia. unfold i16. change (8 * Z.of_nat 2) with 16. lia.
  - rewrite get_put_word by (rewrite put_word_length, length_replicate; unfold DINODE; lia). by rewrite xshort_id by lia.
  - apply list_eq. intros k. destruct (decide (k < 13)%nat) as [Hk|Hk].
    + rewrite list_lookup_fmap, lookup_seq_lt by (unfold NDIRECT; lia). rewrite lookup_replicate_2 by (unfold NDIRECT; lia). cbn -[get_word put_word Nat.mul replicate].
      rewrite !get_put_word_other by lia. by rewrite get_word_zeros.
    + rewrite !lookup_ge_None_2; [done| |]; rewrite ?length_replicate, ?length_fmap, ?length_seq; unfold NDIRECT; lia.
Qed.

Lemma empty_file_rep v ip ty : addrs ip = replicate (S NDIRECT) 0 -> file_rep v ip (adata (empty_file ty)) [] 0.
Proof.
  intros E. split; [split|..].
  - by rewrite E, length_replicate.
  - cbn [length]. lia.
  - split; [done|lia].
  - rewrite E. split; [by apply lookup_replicate_2; lia|]. cbn [length]. split; [lia|done].
  - intros k Hk. rewrite E. by apply lookup_replicate_2; lia.
  - done.
  - intros o x Ho. cbn in Ho. by destruct o.
  - done.
  - apply NoDup_nil_2.
Qed.

Lemma ialloc_ok s fs ty : mk_rep s fs -> Z.of_nat (S (length fs)) < NINODES -> 0 <= ty < 2 ^ 15 ->
  exists s', ialloc ty s = inl (Z.of_nat (S (length fs)), s') /\ mk_rep s' (fs ++ [empty_file ty]) /\ freeblock s' = freeblock s.
Proof.
  intros R Hl Ht. assert (C := mr_core _ _ R). unfold NINODES in Hl. set (i := length fs). destruct (new_din_ok ty Ht) as (N1 & N2 & N3 & N4 & N5).
  set (s1 := s <| freeinode ::= fun i => u32 (i + 1) |>). assert (C1 : core s1) by (by destruct C).
  assert (Hi : Z.of_nat i < NINODES) by (unfold NINODES; lia).
  destruct (winode_ok s1 i (new_din ty) C1 (mr_sb _ _ R) Hi) as [E C2].
  exists (inode_written i (new_din ty) s1). split; [|split; [|done]].
  - unfold ialloc. erewrite mk_bind by reflexivity. cbv zeta. rewrite (mr_inum _ _ R). unfold put. erewrite mk_bind by reflexivity. fold s1. fold (new_din ty).
    replace (1 + Z.of_nat (length fs)) with (Z.of_nat (S i)) by (unfold i; lia). by erewrite mk_bind by exact E.
  - assert (Hn : length (fs ++ [empty_file ty]) = S i) by (rewrite length_app; cbn; unfold i; lia). split.
    + done.
    + apply R.
    + cbn. rewrite (mr_inum _ _ R), Hn, u32_id by lia. unfold i. lia.
    + rewrite Hn. unfold NINODES. lia.
    + intros j f Hj. apply lookup_app_Some in Hj as [Hj|[Hj1 Hj2]].
      * apply file_at_written; [done|done|by apply (rep_lt s fs R j f)|done| |by apply (rep_meta s fs R j f)|by apply (mr_file _ _ R)].
        apply lookup_lt_Some in Hj. unfold i. lia.
      * apply list_lookup_singleton_Some in Hj2 as [Hj2 <-]. assert (j = i) as -> by (unfold i; lia).
        assert (Ed : dinode (img (inode_written i (new_din ty) s1)) init_sb (Z.of_nat (S i)) = din_inode (new_din ty)).
        { rewrite dinode_at, din_at_written by done. by rewrite decide_True. }
        split; rewrite Ed; [exact N2|exact N3|exact N4|]. by apply (empty_file_rep _ _ ty).
    + rewrite fmap_app, concat_app. cbn. rewrite app_nil_r. apply R.
    + rewrite inode_written_other by (destruct (inode_block i Hi) as [-> _]; lia). apply R.
Qed.

(** ** The image as a list of files: type and data *)

Definition entry_of (f : afile) (x : Z * list Z) : Prop := aty f = x.1 /\ adata f = x.2 /\ asize f = Z.of_nat (length x.2).

Definition image_of (s : fsimage) (l : list (Z * list Z)) : Prop := exists fs, mk_rep s fs /\ Forall2 entry_of fs l.

Definition total (l : list (Z * list Z)) : nat := sum_list ((fun x => cost (length x.2)) <$> l).

Lemma total_cons x l : total (x :: l) = (cost (length x.2) + total l)%nat.
Proof. done. Qed.

Lemma owned_total s fs l : (forall i f, fs !! i = Some f -> file_at (img s) i f) -> Forall2 entry_of fs l ->
  length (concat (aowned <$> fs)) = total l.
Proof.
  intros HF H. assert (Hall : Forall (fun f => length (aowned f) = cost (length (adata f))) fs).
  { apply Forall_lookup_2. intros i f Hi. eapply owned_length, (fa_rep _ _ _ (HF i f Hi)). }
  clear HF. induction H as [|f x fs l (_ & E & _) _ IH]; [done|]. apply list.Forall_cons in Hall as [Hf Hall].
  unfold total. cbn. rewrite length_app, Hf, E. f_equal. by apply IH.
Qed.

Lemma image_free s l : image_of s l -> freeblock s = nmeta + Z.of_nat (total l).
Proof.
  intros (fs & R & H). assert (E := Permutation_length (mr_owned _ _ R)). rewrite (owned_total s fs l (mr_file _ _ R) H), length_seqZ in E.
  assert (Cf := co_free _ (mr_core _ _ R)). lia.
Qed.

Lemma total_insert l i ty d d' : l !! i = Some (ty, d) -> (total (<[i := (ty, d')]> l) + cost (length d) = total l + cost (length d'))%nat.
Proof.
  revert i. induction l as [|x l IH]; intros [|i] Hi; try done.
  - injection Hi as ->. change (total ((ty, d') :: l) + cost (length d) = total ((ty, d) :: l) + cost (length d'))%nat. rewrite !total_cons. cbn [snd]. lia.
  - change (total (x :: <[i := (ty, d')]> l) + cost (length d) = total (x :: l) + cost (length d'))%nat. specialize (IH i Hi). rewrite !total_cons. lia.
Qed.

Lemma image_append s l i ty d p : image_of s l -> l !! i = Some (ty, d) -> Z.of_nat (length (d ++ p)) <= max_bytes ->
  nmeta + Z.of_nat (total (<[i := (ty, d ++ p)]> l)) <= FSSIZE ->
  exists s', iappend (Z.of_nat (S i)) p (Z.of_nat (length p)) s = inl (tt, s') /\ image_of s' (<[i := (ty, d ++ p)]> l).
Proof.
  intros I Hi Hm Ht. assert (Hfree := image_free s l I). destruct I as (fs & R & H).
  destruct (Forall2_lookup_r _ _ _ _ _ H Hi) as (f & Hf & E1 & E2 & E3). cbn in E1, E2, E3.
  assert (Hti := total_insert l i ty d (d ++ p) Hi). rewrite length_app in *.
  destruct (iappend_ok s fs i f p) as (bl & ind & s' & E & R' & _); try done; rewrite ?E2; try lia.
  exists s'. split; [done|]. eexists. split; [exact R'|]. apply Forall2_insert; [done|].
  unfold with_data, entry_of. cbn. rewrite E1, E2, length_app. done.
Qed.

Lemma total_grow l i ty d p : l !! i = Some (ty, d) -> (total l <= total (<[i := (ty, d ++ p)]> l))%nat.
Proof.
  intros Hi. assert (H := total_insert l i ty d (d ++ p) Hi). assert (Hc := cost_mono (length d) (length (d ++ p)) ltac:(rewrite length_app; lia)). lia.
Qed.

(** The loop that copies a file of the host. *)
Lemma image_copy : forall chunks s l i ty d, image_of s l -> l !! i = Some (ty, d) -> Z.of_nat (length (d ++ concat chunks)) <= max_bytes ->
  nmeta + Z.of_nat (total (<[i := (ty, d ++ concat chunks)]> l)) <= FSSIZE ->
  exists s', mfor chunks (fun buf => iappend (Z.of_nat (S i)) buf (Z.of_nat (length buf))) s = inl (tt, s') /\
    image_of s' (<[i := (ty, d ++ concat chunks)]> l).
Proof.
  induction chunks as [|c chunks IH]; intros s l i ty d I Hi Hm Ht; cbn [concat mfor] in *.
  - exists s. split; [done|]. rewrite app_nil_r, list_insert_id by done. done.
  - rewrite app_assoc in *. assert (Hlt := lookup_lt_Some _ _ _ Hi).
    assert (Hi1 : <[i := (ty, d ++ c)]> l !! i = Some (ty, d ++ c)) by by apply list_lookup_insert_eq.
    assert (Hg := total_grow (<[i := (ty, d ++ c)]> l) i ty (d ++ c) (concat chunks) Hi1). rewrite list_insert_insert_eq in Hg.
    destruct (image_append s l i ty d c I Hi) as (s1 & E & I1); [rewrite length_app in Hm; lia|lia|].
    destruct (IH s1 _ i ty (d ++ c) I1 Hi1) as (s2 & E2 & I2); [done|by rewrite list_insert_insert_eq|].
    exists s2. erewrite mk_bind by exact E. split; [done|]. by rewrite list_insert_insert_eq in I2.
Qed.

Lemma image_alloc s l ty : image_of s l -> Z.of_nat (S (length l)) < NINODES -> 0 <= ty < 2 ^ 15 ->
  exists s', ialloc ty s = inl (Z.of_nat (S (length l)), s') /\ image_of s' (l ++ [(ty, [])]).
Proof.
  intros (fs & R & H) Hl Ht. rewrite <- (Forall2_length _ _ _ H) in *. destruct (ialloc_ok s fs ty R Hl Ht) as (s' & E & R' & _).
  exists s'. split; [done|]. eexists. split; [exact R'|]. apply Forall2_app; [done|]. by repeat constructor.
Qed.

(** ** The files of the host *)

(** The data of the root directory: entries for itself, and one for each file,
    whose inodes follow. *)
Definition root_data (fl : list (list Z * list Z)) : list Z :=
  dirent_bytes 1 (path_bytes ".") ++ dirent_bytes 1 (path_bytes "..") ++
  concat (imap (fun k x => dirent_bytes (Z.of_nat (2 + k)) x.1) fl).

(** The image of a list of names and data. *)
Definition build (fl : list (list Z * list Z)) : list (Z * list Z) :=
  (T_DIR, root_data fl) :: ((fun x => (T_FILE, x.2)) <$> fl).

Lemma dirent_length n name : length (dirent_bytes n name) = 16%nat.
Proof. unfold dirent_bytes. rewrite length_app, le_bytes_length, length_take, length_app, length_replicate. unfold DIRSIZ. lia. Qed.

Lemma root_data_snoc fl x : root_data (fl ++ [x]) = root_data fl ++ dirent_bytes (Z.of_nat (2 + length fl)) x.1.
Proof.
  unfold root_data. rewrite imap_app, concat_app. cbn [imap]. rewrite Nat.add_0_r. cbn [concat]. by rewrite app_nil_r, <- !app_assoc.
Qed.

Lemma root_data_length fl : length (root_data fl) = (16 * (2 + length fl))%nat.
Proof.
  induction fl as [|x fl IH] using rev_ind; [done|]. rewrite root_data_snoc, length_app, IH, dirent_length, length_app. cbn [length]. lia.
Qed.

Lemma build_length fl : length (build fl) = S (length fl).
Proof. unfold build. cbn. by rewrite length_fmap. Qed.

Section host.
Context (reads : list Z -> option (list (list Z))).

(** The argument [arg] of the program stands for a file of the image with this
    name and data. *)
Record host_file (arg : list Z) (x : list Z * list Z) : Prop := mkHostFile {
  hf_reads : exists chunks, reads arg = Some chunks /\ concat chunks = x.2;
  hf_name : x.1 = drop_underscore (shortname arg);
  hf_plain : existsb (fun c => c =? SLASH) (shortname arg) = false;
  hf_short : (length x.1 <= DIRSIZ)%nat
}.

(** The files fit into an image. *)
Record fits (fl : list (list Z * list Z)) : Prop := mkFits {
  ft_files : Z.of_nat (S (length fl)) < NINODES;
  ft_size : Forall (fun x => Z.of_nat (length x.2) <= max_bytes) fl;
  ft_blocks : nmeta + Z.of_nat (total (build fl)) <= FSSIZE
}.

Lemma build_snoc fl x : build (fl ++ [x]) = <[S (length fl) := (T_FILE, [] ++ x.2)]> (<[0%nat := (T_DIR, root_data fl ++ dirent_bytes (Z.of_nat (2 + length fl)) x.1)]> (build fl ++ [(T_FILE, [])])).
Proof.
  assert (H : <[length fl := (T_FILE, [] ++ x.2)]> (((fun x => (T_FILE, x.2)) <$> fl) ++ [(T_FILE, [])]) = ((fun x => (T_FILE, x.2)) <$> fl) ++ [(T_FILE, x.2)]).
  { rewrite insert_app_r_alt, length_fmap, Nat.sub_diag by by rewrite length_fmap. done. }
  unfold build. rewrite root_data_snoc, fmap_app. exact (f_equal (cons _) (eq_sym H)).
Qed.

Lemma add_file_ok s fl arg x : image_of s (build fl) -> host_file arg x -> fits (fl ++ [x]) ->
  exists s', add_file reads ROOTINO arg s = inl (tt, s') /\ image_of s' (build (fl ++ [x])).
Proof.
  intros I [(chunks & Er & Ec) Hname Hplain Hshort] [F1 F2 F3]. rewrite length_app in F1. cbn [length] in F1. unfold NINODES in F1.
  apply Forall_app in F2 as [_ F2]. apply list.Forall_cons in F2 as [F2 _].
  assert (Hmb : max_bytes = 268 * 1024) by done. unfold add_file. rewrite Hplain. erewrite mk_bind by reflexivity. rewrite Er, <- Hname.
  rewrite (proj2 (Nat.leb_le _ _) Hshort). erewrite mk_bind by reflexivity.
  destruct (image_alloc s (build fl) T_FILE I) as (s1 & E1 & I1); [rewrite build_length; unfold NINODES; lia|done|].
  erewrite mk_bind by exact E1. rewrite build_length, xshort_id by lia. set (l1 := build fl ++ [(T_FILE, [])]) in *.
  set (de := dirent_bytes (Z.of_nat (S (S (length fl)))) x.1). assert (Hde : length de = 16%nat) by apply dirent_length.
  rewrite build_snoc in F3 |- *. fold l1 in F3 |- *. change (2 + length fl)%nat with (S (S (length fl))) in *. fold de in F3 |- *.
  set (l2 := <[0%nat := (T_DIR, root_data fl ++ de)]> l1) in *. assert (Hn : length l1 = S (S (length fl))) by (unfold l1; rewrite length_app, build_length; cbn; lia).
  assert (H2 : l2 !! S (length fl) = Some (T_FILE, [])).
  { unfold l2. rewrite list_lookup_insert_ne by lia. unfold l1. rewrite <- build_length. by apply list_lookup_middle. }
  assert (Hg := total_grow l2 _ _ _ x.2 H2).
  destruct (image_append s1 l1 0 T_DIR (root_data fl) de I1) as (s2 & E2 & I2); [done| |fold l2; lia|].
  { rewrite length_app, root_data_length, Hde. lia. }
  rewrite Hde in E2. change (Z.of_nat 1) with ROOTINO in E2. change (Z.of_nat 16) with DIRENT in E2. erewrite mk_bind by exact E2. fold l2 in I2.
  destruct (image_copy chunks s2 l2 (S (length fl)) T_FILE [] I2 H2) as (s3 & E3 & I3); [rewrite Ec; cbn; lia|by rewrite Ec|].
  exists s3. split; [exact E3|]. by rewrite Ec in I3.
Qed.

Lemma total_app l1 l2 : total (l1 ++ l2) = (total l1 + total l2)%nat.
Proof. induction l1 as [|x l1 IH]; [done|]. rewrite <- app_comm_cons, !total_cons, IH. lia. Qed.

Lemma fits_prefix fl fl' : fits (fl ++ fl') -> fits fl.
Proof.
  intros [F1 F2 F3]. rewrite length_app in F1. apply Forall_app in F2 as [F2 _]. split; [unfold NINODES in *; lia|done|].
  unfold build in F3 |- *. rewrite total_cons in F3 |- *. rewrite fmap_app, total_app in F3. cbn [snd] in *.
  assert (Hc := cost_mono (length (root_data fl)) (length (root_data (fl ++ fl'))) ltac:(rewrite !root_data_length, length_app; lia)). lia.
Qed.

Lemma add_files_ok : forall args fl' s fl, image_of s (build fl) -> Forall2 host_file args fl' -> fits (fl ++ fl') ->
  exists s', mfor args (add_file reads ROOTINO) s = inl (tt, s') /\ image_of s' (build (fl ++ fl')).
Proof.
  induction args as [|arg args IH]; intros fl' s fl I H F.
  - apply Forall2_nil_inv_l in H as ->. exists s. rewrite app_nil_r. done.
  - destruct fl' as [|x fl']; [by apply Forall2_nil_inv_r in H|]. apply list.Forall2_cons in H as [Hx H]. rewrite cons_middle, app_assoc in F |- *.
    destruct (add_file_ok s fl arg x I Hx) as (s1 & E1 & I1); [by eapply fits_prefix|]. cbn [mfor]. erewrite mk_bind by exact E1. by apply IH.
Qed.
End host.

(** ** The beginning and the end of a run *)

Lemma clear_ok : forall n k s, (forall b, img s b = zeroes) -> sects s = Z.of_nat k -> (k + n <= 2000)%nat ->
  exists s', mfor (seq k n) (fun i => wsect (Z.of_nat i) zeroes) s = inl (tt, s') /\ (forall b, img s' b = zeroes) /\
    sects s' = Z.of_nat (k + n) /\ freeinode s' = freeinode s /\ freeblock s' = freeblock s /\ msb s' = msb s.
Proof.
  induction n as [|n IH]; intros k s Hz Hs Hk; cbn [seq mfor].
  - exists s. by rewrite Nat.add_0_r.
  - set (s1 := s <| img ::= fun v => upd v (Z.of_nat k) zeroes |> <| sects ::= Z.max (Z.of_nat k + 1) |>).
    assert (E1 : wsect (Z.of_nat k) zeroes s = inl (tt, s1)). { unfold wsect, put. cbv zeta. rewrite sector by (unfold FSSIZE; lia). done. }
    erewrite mk_bind by exact E1. destruct (IH (S k) s1) as (s' & E & H1 & H2 & H3); [| |lia|].
    + intros b. unfold s1. cbn -[zeroes]. unfold upd. destruct (Z.eqb b (Z.of_nat k)); [done|apply Hz].
    + unfold s1. cbn. rewrite Hs. lia.
    + exists s'. split; [exact E|]. split; [done|]. split; [rewrite H2; lia|done].
Qed.

Lemma clear_image_ok : exists s, clear_image start_image = inl (tt, s) /\ image_of s [].
Proof.
  set (s0 := start_image <| msb := init_sb |> <| freeblock := nmeta |>). 
  destruct (clear_ok (Z.to_nat FSSIZE) 0 s0) as (s1 & E & Hz & Hs & H1 & H2 & H3); [done|done|by apply Nat.leb_le|].
  change (Z.of_nat (0 + Z.to_nat FSSIZE)) with FSSIZE in Hs.
  exists (with_img 1 super_block s1). split.
  - unfold clear_image. erewrite mk_bind by reflexivity. fold s0. erewrite mk_bind by exact E. erewrite mk_bind by reflexivity. rewrite H3. by apply wsect_ok.
  - exists []. split; [|constructor].
    assert (C : core s1). { split; [done|rewrite H2; change (freeblock s0) with nmeta; rewrite nmeta_eq; unfold FSSIZE; lia| |]; intros b; rewrite Hz; done. }
    split; [|done|done|done|by intros []| |done].
    + apply core_with_img; [done|rewrite H2; change (freeblock s0) with nmeta; rewrite nmeta_eq; lia|]. unfold super_block. by rewrite put_bytes_length.
    + unfold with_img. cbn -[nmeta seqZ]. rewrite H2. change (freeblock s0) with nmeta. by rewrite Z.sub_diag, seqZ_nil by lia.
Qed.

Lemma make_root_ok s : image_of s [] -> exists s', make_root s = inl (ROOTINO, s') /\ image_of s' (build []).
Proof.
  intros I. destruct (image_alloc s [] T_DIR I) as (s1 & E1 & I1); [done|done|]. cbn [length app] in E1, I1. change (Z.of_nat 1) with ROOTINO in E1.
  assert (Hb : forall d, (length d <= 32)%nat -> Z.of_nat (length d) <= max_bytes /\ nmeta + Z.of_nat (total [(T_DIR, d)]) <= FSSIZE).
  { intros d Hd. assert (Hc := cost_mono (length d) 32 Hd). change (cost 32) with 1%nat in Hc. rewrite total_cons, nmeta_eq. change max_bytes with (268 * 1024). unfold FSSIZE. cbn [snd]. change (total []) with 0%nat. lia. }
  destruct (image_append s1 [(T_DIR, [])] 0 T_DIR [] (dirent_bytes 1 (path_bytes ".")) I1) as (s2 & E2 & I2); [done|apply Hb; by apply Nat.leb_le|apply (Hb (dirent_bytes 1 (path_bytes "."))); by apply Nat.leb_le|].
  destruct (image_append s2 _ 0 T_DIR _ (dirent_bytes 1 (path_bytes "..")) I2 eq_refl) as (s3 & E3 & I3); [apply Hb; by apply Nat.leb_le|apply (Hb (dirent_bytes 1 (path_bytes ".") ++ dirent_bytes 1 (path_bytes ".."))); by apply Nat.leb_le|].
  exists s3. split; [|exact I3]. unfold make_root. erewrite mk_bind by exact E1. erewrite mk_bind by reflexivity. erewrite mk_bind by exact E2. by erewrite mk_bind by exact E3.
Qed.

(** ** The free map *)

Definition mark (buf : list Z) (i : nat) : list Z := <[(i / 8)%nat := u8 (Z.lor (byte_at buf (i / 8)) (Z.shiftl 1 (Z.of_nat (i mod 8))))]> buf.

Lemma byte_lor a k : 0 <= a < 256 -> (k < 8)%nat -> 0 <= Z.lor a (Z.shiftl 1 (Z.of_nat k)) < 256.
Proof.
  intros Ha Hk. assert (H1 : 0 <= Z.shiftl 1 (Z.of_nat k) < 2 ^ 8).
  { rewrite Z.shiftl_1_l. split; [apply Z.pow_nonneg; lia|apply Z.pow_lt_mono_r; lia]. }
  split; [apply Z.lor_nonneg; lia|]. destruct (Z.eq_dec (Z.lor a (Z.shiftl 1 (Z.of_nat k))) 0) as [->|Hz]; [lia|].
  change 256 with (2 ^ 8). apply Z.log2_lt_pow2; [assert (0 <= Z.lor a (Z.shiftl 1 (Z.of_nat k))) by (apply Z.lor_nonneg; lia); lia|].
  rewrite Z.log2_lor by lia. assert (Hl : forall x, 0 <= x < 2 ^ 8 -> Z.log2 x < 8).
  { intros x Hx. destruct (Z.eq_dec x 0) as [->|]; [done|]. apply Z.log2_lt_pow2; lia. }
  apply Z.max_lub_lt; apply Hl; lia.
Qed.

Lemma mark_ok buf i : length buf = 1024%nat -> Forall (fun b => 0 <= b < 256) buf -> Z.of_nat i < 8192 ->
  mark buf i = set_used (Z.of_nat i) buf /\ length (mark buf i) = 1024%nat /\ Forall (fun b => 0 <= b < 256) (mark buf i).
Proof.
  intros Hl Hb Hi. assert (Hr : 0 <= byte_at buf (i / 8) < 256).
  { unfold byte_at. destruct (lookup_lt_is_Some_2 buf (i / 8)) as [b E]; [lia|]. rewrite E. exact (list.Forall_lookup_1 _ _ _ _ Hb E). }
  assert (H := byte_lor _ (i mod 8) Hr ltac:(lia)). unfold mark, u8. change (2 ^ 8) with 256. rewrite Z.mod_small by done. split; [|split].
  - unfold set_used, map_byte, bit. change BPB with 8192. rewrite Z.mod_small by lia.
    replace (Z.to_nat (Z.of_nat i / 8)) with (i / 8)%nat by lia. by replace (Z.of_nat i mod 8) with (Z.of_nat (i mod 8)) by lia.
  - by rewrite length_insert.
  - by apply Forall_insert.
Qed.

Lemma marks_ok n : Z.of_nat n <= 8192 -> let buf := foldl mark (replicate 1024 0) (seq 0 n) in
  length buf = 1024%nat /\ Forall (fun b => 0 <= b < 256) buf /\ forall bi, 0 <= bi < 8192 -> map_bit buf bi = (bi <? Z.of_nat n).
Proof.
  induction n as [|n IH]; intros Hn.
  - split; [done|]. split; [by apply Forall_replicate|]. intros bi Hbi. cbn -[replicate]. unfold map_bit, byte_at.
    rewrite lookup_replicate_2 by (apply map_byte_lt; done). cbn. rewrite Z.bits_0. symmetry. apply Z.ltb_ge. lia.
  - destruct (IH ltac:(lia)) as (H1 & H2 & H3). rewrite seq_S, foldl_app. cbn [foldl Nat.add]. set (buf := foldl mark _ _) in *.
    destruct (mark_ok buf n H1 H2 ltac:(lia)) as (E & L & F). split; [done|]. split; [done|]. intros bi Hbi. rewrite E, set_used_bit by done.
    rewrite H3 by done. change BPB with 8192. rewrite Z.mod_small by lia. destruct (Z.eqb_spec bi (Z.of_nat n)), (Z.ltb_spec bi (Z.of_nat n)), (Z.ltb_spec bi (Z.of_nat (S n))); cbn; lia.
Qed.

Lemma balloc_ok s n : core s -> msb s = init_sb -> Z.of_nat n < 8192 ->
  exists s', Mkfs.balloc (Z.of_nat n) s = inl (tt, s') /\ sects s' = FSSIZE /\ (forall b, b <> 45 -> img s' b = img s b) /\
    forall b, 0 <= b < FSSIZE -> used init_sb (img s') b = (b <? Z.of_nat n).
Proof.
  intros C Hs Hn. destruct (marks_ok n ltac:(lia)) as (_ & _ & H). set (buf := foldl mark (replicate 1024 0) (seq 0 n)) in H.
  exists (with_img 45 buf s). split; [|split; [apply C|split]].
  - unfold Mkfs.balloc. assert (Hb : (Z.of_nat n <? BPB) = true) by (apply Z.ltb_lt; change BPB with 8192; lia). rewrite Hb.
    erewrite mk_bind by reflexivity. rewrite Nat2Z.id. cbv zeta. erewrite mk_bind by reflexivity. rewrite Hs. apply wsect_ok; [apply C|done].
  - intros b Hb. unfold with_img. cbn. unfold upd. by destruct (Z.eqb_spec b 45).
  - intros b Hb. rewrite used_bit. assert (E : BBLOCK b init_sb = 45). { unfold BBLOCK. change BPB with 8192. change (bmapstart init_sb) with 45. unfold FSSIZE in Hb. rewrite u32_id by lia. lia. }
    rewrite E. change (map_bit buf (b mod BPB) = (b <? Z.of_nat n)). change BPB with 8192. unfold FSSIZE in Hb. rewrite Z.mod_small by lia. apply H. lia.
Qed.

(** ** The file system that the kernel finds *)

Lemma file_rep_content v ip data bl ind : file_rep v ip data bl ind -> content v ip 0 (Z.of_nat (length data)) = data.
Proof.
  intros [M H Hb _]. assert (Hm := ma_max _ _ _ _ M). apply list_eq. intros o. unfold content. rewrite list_lookup_fmap.
  destruct (decide (o < length data)%nat) as [Ho|Ho].
  - rewrite lookup_seqZ_lt by lia. cbn [fmap option_fmap option_map]. destruct (lookup_lt_is_Some_2 data o Ho) as [x Hx].
    destruct (H o x Hx) as (b & Hb1 & Hb2). rewrite Hx, Z.add_0_l. f_equal. unfold BSIZE.
    replace (Z.of_nat o / 1024) with (Z.of_nat (o / 1024)) by lia. assert (Hlt := lookup_lt_Some _ _ _ Hb1).
    rewrite (maps_block_addr _ _ _ _ _ M) by lia. rewrite Hb1. change (default 0 (Some b)) with b. unfold byte_at.
    replace (Z.to_nat (Z.of_nat o mod 1024)) with (o mod 1024)%nat by lia. by rewrite Hb2.
  - rewrite lookup_seqZ_ge by lia. by rewrite lookup_ge_None_2 by lia.
Qed.

Lemma block_addr_range v ip bl ind k : maps v ip bl ind -> (k < NDIRECT + NINDIRECT)%nat ->
  block_addr v ip (Z.of_nat k) <> 0 <-> (k < length bl)%nat.
Proof.
  intros M Hk. rewrite (maps_block_addr _ _ _ _ _ M Hk). destruct (decide (k < length bl)%nat) as [H|H].
  - split; [done|intros _]. destruct (lookup_lt_is_Some_2 bl k H) as [b Eb]. rewrite Eb.
    destruct (ma_range _ _ _ _ M) as [Hr _]. assert (Hb := list.Forall_lookup_1 _ _ _ _ Hr Eb). cbn in Hb |- *. lia.
  - rewrite lookup_ge_None_2 by lia. split; [done|lia].
Qed.

Lemma maps_has_blocks v ip bl ind n : maps v ip bl ind -> 0 <= n <= max_bytes ->
  has_blocks v ip n <-> (n + 1023) / 1024 <= Z.of_nat (length bl).
Proof.
  intros M Hn. change max_bytes with (268 * 1024) in Hn. assert (HN : (NDIRECT + NINDIRECT = 268)%nat) by done. unfold has_blocks, BSIZE. split.
  - intros [_ H]. destruct (Z.le_gt_cases ((n + 1023) / 1024) (Z.of_nat (length bl))) as [|Hgt]; [done|]. exfalso.
    specialize (H (Z.of_nat (length bl) * 1024) ltac:(lia)). rewrite Z.div_mul in H by lia.
    apply (block_addr_range _ _ _ _ _ M) in H; [lia|rewrite HN; lia].
  - intros H. split; [apply M|]. intros o Ho. replace (o / 1024) with (Z.of_nat (Z.to_nat (o / 1024))) by lia.
    apply (block_addr_range _ _ _ _ _ M); rewrite ?HN; lia.
Qed.

(** The super block as [readsb] reads it. *)
Definition super_of (d : list Z) : superblock :=
  let w i := get_word 4 d (4 * i) in mkSuperblock (w 0%nat) (w 1%nat) (w 2%nat) (w 3%nat) (w 4%nat) (w 5%nat) (w 6%nat) (w 7%nat).

(** Inode [n] of the image [v] is a file of this type, with this data. *)
Record is_file (v : Z -> list Z) (n ty : Z) (data : list Z) : Prop := mkIsFile {
  if_type : itype (dinode v init_sb n) = ty;
  if_nlink : nlink (dinode v init_sb n) = 1;
  if_data : content v (dinode v init_sb n) 0 (Z.of_nat (length data)) = data;
  if_blocks : has_blocks v (dinode v init_sb n) (Z.of_nat (length data))
}.

(** The image [s] is a file system with the files [fl], next to the root
    directory, in inodes 2, 3, and so on. *)
Record fs_built (s : fsimage) (fl : list (list Z * list Z)) : Prop := mkFsBuilt {
  fb_sects : sects s = FSSIZE;
  fb_super : super_of (img s 1) = init_sb;
  fb_root : is_file (img s) ROOTINO T_DIR (root_data fl);
  fb_root_size : isize (dinode (img s) init_sb ROOTINO) = (Z.of_nat (length (root_data fl)) / BSIZE + 1) * BSIZE;
  fb_root_blocks : has_blocks (img s) (dinode (img s) init_sb ROOTINO) (isize (dinode (img s) init_sb ROOTINO)) <->
    Z.of_nat (2 + length fl) mod 64 <> 0;
  fb_files : forall k name data, fl !! k = Some (name, data) ->
    is_file (img s) (Z.of_nat (2 + k)) T_FILE data /\ isize (dinode (img s) init_sb (Z.of_nat (2 + k))) = Z.of_nat (length data);
  fb_map : forall b, 0 <= b < FSSIZE -> used init_sb (img s) b = (b <? nmeta + Z.of_nat (total (build fl)));
  fb_apart : forall n m i j, (n <= length fl)%nat -> (m <= length fl)%nat -> 0 <= i < MAXFILE -> 0 <= j < MAXFILE ->
    let a := block_addr (img s) (dinode (img s) init_sb (Z.of_nat (S n))) i in
    a <> 0 -> a = block_addr (img s) (dinode (img s) init_sb (Z.of_nat (S m))) j -> n = m /\ i = j
}.

(** The state at the end: as after the last file, but for the size of the root
    directory and the map block. *)
Definition rounded (n : Z) : Z := (n / BSIZE + 1) * BSIZE.

Lemma finish_ok s fl : image_of s (build fl) -> fits fl ->
  exists s' fs, finish ROOTINO s = inl (tt, s') /\ sects s' = FSSIZE /\ img s' 1 = super_block /\ (forall b, length (img s b) = 1024%nat) /\
    Forall2 entry_of fs (build fl) /\ concat (aowned <$> fs) ≡ₚ seqZ nmeta (freeblock s - nmeta) /\
    (forall b, nmeta <= b -> img s' b = img s b) /\
    (forall i f, fs !! i = Some f -> let ip := dinode (img s') init_sb (Z.of_nat (S i)) in
      itype ip = aty f /\ nlink ip = 1 /\ isize ip = (if (i =? 0)%nat then rounded (asize f) else asize f) /\
      file_rep (img s') ip (adata f) (abl f) (aind f)) /\
    (forall b, 0 <= b < FSSIZE -> used init_sb (img s') b = (b <? freeblock s)).
Proof.
  intros (fs & R & H) F. assert (C := mr_core _ _ R). assert (Cf := co_free _ C). destruct F as [F1 F2 F3]. rewrite nmeta_eq in Cf. unfold FSSIZE in Cf.
  destruct (Forall2_lookup_r _ _ _ 0%nat _ H eq_refl) as (f0 & H0 & E1 & E2 & E3). cbn [fst snd] in E1, E2, E3. assert (H00 : Z.of_nat 0 < NINODES) by done.
  destruct (mr_file _ _ R 0%nat f0 H0) as [_ _ T3 _]. rewrite dinode_at in T3. set (d := din_at (img s) 0) in *.
  assert (Hdl : length d = DINODE) by (apply din_at_length; [done|apply C]). rewrite E3, root_data_length in T3. unfold NINODES in F1.
  set (n := rounded (asize f0)). assert (Hn : 0 <= n < 2 ^ 32). { unfold n, rounded. rewrite E3, root_data_length. unfold BSIZE. lia. }
  destruct (set_din_size_ok d n Hdl Hn) as (D1 & D2 & D3 & D4 & D5).
  destruct (winode_ok s 0 (set_din_size n d) C (mr_sb _ _ R) H00) as [Ew Cw]. set (s1 := inode_written 0 (set_din_size n d) s) in *.
  destruct (balloc_ok s1 (Z.to_nat (freeblock s)) Cw (mr_sb _ _ R) ltac:(lia)) as (s' & Eb & B1 & B2 & B3). rewrite Z2Nat.id in Eb, B3 by lia.
  exists s', fs. split; [|split; [done|split; [|split; [apply C|split; [done|split; [apply R|split; [|split; [|done]]]]]]]].
  - unfold finish. erewrite mk_bind by (apply (rinode_ok s 0); [done|apply R|done]). fold d. cbv zeta. rewrite din_size_isize, T3.
    rewrite (xint_id (Z.of_nat _)) by lia. replace ((Z.of_nat (16 * (2 + length fl)) / BSIZE + 1) * BSIZE) with n by (unfold n, rounded; by rewrite E3, root_data_length).
    rewrite u32_id, xint_id by lia. change ROOTINO with (Z.of_nat 1). erewrite mk_bind by exact Ew. erewrite mk_bind by reflexivity.
    change (freeblock s1) with (freeblock s). rewrite i32_id by (unfold in_i32; lia). exact Eb.
  - rewrite B2 by done. unfold s1. rewrite inode_written_other by done. apply R.
  - intros b Hb. rewrite nmeta_eq in Hb. rewrite B2 by lia. unfold s1. apply inode_written_other. assert (Hm := inode_block_meta 0 H00). rewrite nmeta_eq in Hm. lia.
  - intros i f Hi ip. assert (Hlt := rep_lt _ _ R i f Hi). destruct (mr_file _ _ R i f Hi) as [G1 G2 G3 G4].
    assert (Hfr : file_rep (img s') (dinode (img s) init_sb (Z.of_nat (S i))) (adata f) (abl f) (aind f)).
    { eapply file_rep_frame; [exact G4|]. intros b Hb. assert (Hm := proj1 (list.Forall_forall _ _) (rep_meta _ _ R i f Hi) _ Hb). cbv beta in Hm. rewrite nmeta_eq in Hm.
      rewrite B2 by lia. unfold s1. apply inode_written_other. assert (Hm' := inode_block_meta 0 H00). rewrite nmeta_eq in Hm'. lia. }
    assert (Ei : din_at (img s') i = if decide (0%nat = i) then set_din_size n d else din_at (img s) i).
    { rewrite <- (din_at_written s 0 i) by done. fold s1. unfold din_at. rewrite B2; [done|]. destruct (inode_block i Hlt) as [-> _]. unfold NINODES in Hlt. lia. }
    unfold ip. rewrite dinode_at, Ei. rewrite dinode_at in G1, G2, G3, Hfr. case_decide as Ez.
    + subst i. assert (f = f0) by congruence. subst f. fold d in G1, G2, G3, Hfr. rewrite D2, D3, D4. split; [done|]. split; [done|]. split; [done|]. by apply (file_rep_addrs _ (din_inode d)).
    + destruct (Nat.eqb_spec i 0); [done|]. done.
Qed.

Lemma finish_built s s' fl : image_of s (build fl) -> fits fl -> finish ROOTINO s = inl (tt, s') -> fs_built s' fl.
Proof.
  intros I F E. assert (Hfree := image_free s _ I). destruct (finish_ok s fl I F) as (s1 & fs & E1 & S1 & S2 & S3 & S4 & S5 & S6 & S7 & S8).
  rewrite E in E1. injection E1 as <-. destruct F as [F1 F2 F3]. unfold NINODES in F1.
  assert (Hlen : length fs = S (length fl)) by (rewrite (Forall2_length _ _ _ S4); apply build_length).
  assert (Hget : forall i x, build fl !! i = Some x -> exists f, fs !! i = Some f /\ entry_of f x).
  { intros i x Hx. by apply (Forall2_lookup_r _ _ _ _ _ S4). }
  assert (Hmax : forall i x, build fl !! i = Some x -> Z.of_nat (length x.2) <= max_bytes).
  { intros [|i] x Hx; cbn [build lookup list_lookup] in Hx.
    - injection Hx as <-. cbn [snd]. rewrite root_data_length. change max_bytes with (268 * 1024). lia.
    - change (((fun x => (T_FILE, x.2)) <$> fl) !! i = Some x) in Hx. rewrite list_lookup_fmap in Hx. destruct (fl !! i) as [y|] eqn:Ey; [|done]. injection Hx as <-.
      exact (list.Forall_lookup_1 _ _ _ _ F2 Ey). }
  assert (Hfile : forall i x, build fl !! i = Some x -> is_file (img s') (Z.of_nat (S i)) x.1 x.2 /\
    isize (dinode (img s') init_sb (Z.of_nat (S i))) = if (i =? 0)%nat then rounded (Z.of_nat (length x.2)) else Z.of_nat (length x.2)).
  { intros i x Hx. destruct (Hget i x Hx) as (f & Hf & A1 & A2 & A3). destruct (S7 i f Hf) as (T1 & T2 & T3 & T4). rewrite A3 in T3. split; [|exact T3].
    specialize (Hmax i x Hx). rewrite A1 in T1. rewrite A2 in T4. split; [done|done|by eapply file_rep_content|].
    eapply maps_has_blocks; [apply T4|lia|]. rewrite (fr_blocks _ _ _ _ _ T4). unfold nblk. lia. }
  destruct (Hfile 0%nat _ eq_refl) as [Hroot Hrsize]. cbn [fst snd Nat.eqb] in Hroot, Hrsize.
  split; [done| |exact Hroot|exact Hrsize| | | |].
  - rewrite S2. by vm_compute.
  - change ROOTINO with (Z.of_nat 1). rewrite Hrsize. destruct (Hget 0%nat _ eq_refl) as (f & Hf & _ & A2 & _). destruct (S7 0%nat f Hf) as (_ & _ & _ & T4).
    assert (Hrl := root_data_length fl). rewrite (maps_has_blocks _ _ _ _ _ (fr_maps _ _ _ _ _ T4)).
    + rewrite (fr_blocks _ _ _ _ _ T4), A2. cbn [snd]. unfold rounded, nblk, BSIZE. rewrite Hrl. lia.
    + unfold rounded, BSIZE. rewrite Hrl. change max_bytes with (268 * 1024). lia.
  - intros k name data Hk. destruct (Hfile (S k) (T_FILE, data)) as [A B]; [|by split].
    change (((fun x => (T_FILE, x.2)) <$> fl) !! k = Some (T_FILE, data)). by rewrite list_lookup_fmap, Hk.
  - intros b Hb. rewrite <- Hfree. by apply S8.
  - intros n m i j Hn Hm Hi Hj. cbv zeta. rewrite <- (Z2Nat.id i), <- (Z2Nat.id j) by lia. change MAXFILE with 268 in *. assert (HN : (NDIRECT + NINDIRECT = 268)%nat) by done.
    destruct (lookup_lt_is_Some_2 fs n) as [f Hf]; [lia|]. destruct (lookup_lt_is_Some_2 fs m) as [g Hg]; [lia|].
    destruct (S7 n f Hf) as (_ & _ & _ & [M1 _ _ D1]), (S7 m g Hg) as (_ & _ & _ & [M2 _ _ D2]). intros Ha Hab. assert (Hb := Ha). rewrite Hab in Hb.
    apply (block_addr_range _ _ _ _ _ M1) in Ha; [|lia]. apply (block_addr_range _ _ _ _ _ M2) in Hb; [|lia].
    rewrite (maps_block_addr _ _ _ _ _ M1), (maps_block_addr _ _ _ _ _ M2) in Hab by lia.
    destruct (lookup_lt_is_Some_2 _ _ Ha) as [a Ea], (lookup_lt_is_Some_2 _ _ Hb) as [b Eb]. rewrite Ea, Eb in Hab. change (a = b) in Hab. subst b.
    assert (n = m) as ->.
    { eapply (concat_disjoint (aowned <$> fs) n m (aowned f) (aowned g) a); [rewrite S5; apply NoDup_seqZ|by rewrite list_lookup_fmap, Hf|by rewrite list_lookup_fmap, Hg| |];
        apply elem_of_owned; left; by eapply list_elem_of_lookup_2. }
    split; [done|]. assert (f = g) as -> by congruence. unfold owned in D1. apply NoDup_app in D1 as [D1 _]. assert (Hij := NoDup_lookup _ _ _ _ D1 Ea Eb). lia.
Qed.

Lemma main_built opens reads prog image args fl : opens image = true -> Forall2 (host_file reads) args fl -> fits fl ->
  exists s', main opens reads (prog :: image :: args) start_image = inl (tt, s') /\ fs_built s' fl.
Proof.
  intros Ho Hh F. destruct clear_image_ok as (s1 & E1 & I1). destruct (make_root_ok s1 I1) as (s2 & E2 & I2).
  destruct (add_files_ok reads args fl s2 [] I2 Hh F) as (s3 & E3 & I3). cbn [app] in I3.
  destruct (finish_ok s3 fl I3 F) as (s4 & _ & E4 & _). exists s4. split; [|by eapply finish_built].
  unfold main. rewrite Ho. cbn [negb]. erewrite mk_bind by exact E1. erewrite mk_bind by exact E2. erewrite mk_bind by exact E3. exact E4.
Qed.

(** ** Names *)

Lemma cstr_padded name n m : (forall c, c ∈ name -> c <> 0) -> (length name <= n)%nat -> cstr (take n (name ++ replicate m 0)) = name.
Proof.
  revert n. induction name as [|c name IH]; intros n Hz Hn.
  - cbn [app]. rewrite take_replicate. by destruct (n `min` m)%nat.
  - destruct n as [|n]; [cbn in Hn; lia|]. cbn [app take cstr]. assert (Hc : c <> 0) by (apply Hz; left). rewrite (proj2 (Z.eqb_neq _ _) Hc). f_equal.
    apply IH; [|cbn in Hn; lia]. intros d Hd. apply Hz. by right.
Qed.

(** A name that can stand in a directory. *)
Definition name_ok (name : list Z) : Prop := (length name <= DIRSIZ)%nat /\ forall c, c ∈ name -> c <> 0.

Lemma same_name_dirent x name n : name_ok x -> name_ok name -> same_name x (de_name (dirent_bytes n name)) <-> x = name.
Proof.
  intros [Lx Zx] [Ln Zn]. unfold same_name, de_name, dirent_bytes. assert (E2 : forall t : list Z, drop 2 (le_bytes 2 n ++ t) = t) by done. rewrite E2, cstr_padded by done.
  assert (E := cstr_padded x DIRSIZ 0 Zx Lx). cbn [replicate] in E. rewrite app_nil_r, take_ge in E by done. rewrite E, !take_ge by done. done.
Qed.

Lemma de_inum_dirent n name : 0 <= n < 2 ^ 16 -> de_inum (dirent_bytes n name) = n.
Proof.
  intros Hn. unfold de_inum, get_word, get_bytes, dirent_bytes. assert (E2 : forall t : list Z, take 2 (drop 0 (le_bytes 2 n ++ t)) = le_bytes 2 n) by done. rewrite E2, le_value_bytes. change (8 * Z.of_nat 2) with 16. lia.
Qed.

(** The entries of the root directory: inode and name. *)
Definition root_entries (fl : list (list Z * list Z)) : list (Z * list Z) :=
  (1, path_bytes ".") :: (1, path_bytes "..") :: imap (fun k x => (Z.of_nat (2 + k), x.1)) fl.

Lemma root_data_entries fl : root_data fl = concat ((fun x => dirent_bytes x.1 x.2) <$> root_entries fl).
Proof. unfold root_data, root_entries. cbn [fmap list_fmap concat]. rewrite fmap_imap. done. Qed.

Lemma concat_slice (ls : list (list Z)) k l : (forall x, x ∈ ls -> length x = 16%nat) -> ls !! k = Some l ->
  take 16 (drop (16 * k) (concat ls)) = l.
Proof.
  revert k. induction ls as [|x ls IH]; intros [|k] Hl Hk; try done.
  - injection Hk as ->. change (take 16 (l ++ concat ls) = l). assert (Hx : length l = 16%nat) by (apply Hl; left). by rewrite <- Hx, take_app_length.
  - change (take 16 (drop (16 * S k) (x ++ concat ls)) = l). assert (Hx : length x = 16%nat) by (apply Hl; left). replace (16 * S k)%nat with (length x + 16 * k)%nat by lia.
    rewrite drop_app_add. apply IH; [|done]. intros y Hy. apply Hl. by right.
Qed.

Lemma content_slice v ip n off m : 0 <= off -> 0 <= m -> off + m <= n -> content v ip off m = take (Z.to_nat m) (drop (Z.to_nat off) (content v ip 0 n)).
Proof.
  intros Ho Hm Hn. replace n with (off + (m + (n - off - m))) by lia. rewrite !content_app by lia. rewrite Z.add_0_l.
  rewrite drop_app_length' by (rewrite content_length; lia). by rewrite take_app_length' by (rewrite content_length; lia).
Qed.

Lemma root_entry s fl k n name : fs_built s fl -> root_entries fl !! k = Some (n, name) ->
  entry (img s) (dinode (img s) init_sb ROOTINO) k = dirent_bytes n name.
Proof.
  intros B Hk. destruct (fb_root _ _ B) as [_ _ Hd _]. assert (Hlt := lookup_lt_Some _ _ _ Hk).
  assert (Hl : length (root_entries fl) = (2 + length fl)%nat) by (unfold root_entries; cbn [length]; by rewrite length_imap).
  unfold entry. rewrite (content_slice _ _ (Z.of_nat (length (root_data fl)))) by (unfold DIRENT; rewrite ?root_data_length; lia).
  rewrite Hd, root_data_entries. change (Z.to_nat DIRENT) with 16%nat. replace (Z.to_nat (Z.of_nat k * DIRENT)) with (16 * k)%nat by (unfold DIRENT; lia).
  apply concat_slice; [|by rewrite list_lookup_fmap, Hk]. intros x ([a b] & -> & _)%list_elem_of_fmap. apply dirent_length.
Qed.

Lemma dir_find_root s fl k n name : fs_built s fl -> NoDup ((root_entries fl).*2) -> Forall (fun x => name_ok x.2 /\ 0 < x.1 < 2 ^ 16) (root_entries fl) ->
  root_entries fl !! k = Some (n, name) -> dir_lookup (img s) init_sb ROOTINO name = Some n.
Proof.
  intros B Hnd Hok Hk. destruct (list.Forall_lookup_1 _ _ _ _ Hok Hk) as [Hname Hn]. cbn [fst snd] in Hname, Hn. set (ip := dinode (img s) init_sb ROOTINO).
  assert (Hlt := lookup_lt_Some _ _ _ Hk). assert (Hl : length (root_entries fl) = (2 + length fl)%nat) by (unfold root_entries; cbn [length]; by rewrite length_imap).
  assert (Hf : list_find (is_entry (img s) ip name) (dirents (isize ip)) = Some (k, k)).
  { apply list_find_Some. unfold ip. rewrite (fb_root_size _ _ B). split; [|split].
    - apply dirents_lookup. split; [done|]. rewrite root_data_length. unfold DIRENT, BSIZE. lia.
    - split; rewrite (root_entry _ _ _ _ _ B Hk); [rewrite de_inum_dirent; lia|]. by apply same_name_dirent.
    - intros j x [-> _]%dirents_lookup Hj [_ Hs]. destruct (lookup_lt_is_Some_2 (root_entries fl) j) as [[m name'] Ej]; [lia|].
      destruct (list.Forall_lookup_1 _ _ _ _ Hok Ej) as [Hname' _]. rewrite (root_entry _ _ _ _ _ B Ej) in Hs. apply same_name_dirent in Hs; [|done|done]. cbn [snd] in Hs. subst name'.
      assert (j = k); [|lia]. eapply NoDup_lookup; [exact Hnd| |]; rewrite list_lookup_fmap; [rewrite Ej|rewrite Hk]; done. }
  unfold dir_lookup, dir_find. fold ip. rewrite Hf. cbn [fmap option_fmap option_map snd]. unfold ip. rewrite (root_entry _ _ _ _ _ B Hk), de_inum_dirent by lia. done.
Qed.

Lemma split_plain name : (forall c, c ∈ name -> c <> SLASH) -> split name = [name].
Proof.
  induction name as [|c name IH]; intros H; [done|]. cbn [split]. assert (Hc : c <> 47) by (apply H; left). change Fs.SLASH with 47. rewrite (proj2 (Z.eqb_neq c 47)) by done.
  rewrite IH by (intros d Hd; apply H; by right). done.
Qed.

Lemma path_elems_plain name : (forall c, c ∈ name -> c <> SLASH) -> name <> [] -> (length name <= DIRSIZ)%nat -> path_elems (SLASH :: name) = [name].
Proof.
  intros Hs Hn Hl. unfold path_elems. change (split (SLASH :: name)) with ([] :: split name). rewrite split_plain by done.
  rewrite filter_cons, decide_False by tauto. rewrite filter_cons, decide_True by done. cbn [fmap list_fmap]. by rewrite take_ge.
Qed.

(** The names of the files can be told apart. *)
Record names_ok (fl : list (list Z * list Z)) : Prop := mkNamesOk {
  nk_distinct : NoDup (fl.*1);
  nk_names : Forall (fun x => x.1 <> [] /\ x.1 <> path_bytes "." /\ x.1 <> path_bytes ".." /\ forall c, c ∈ x.1 -> c <> 0) fl
}.

Lemma host_file_plain reads arg x : host_file reads arg x -> forall c, c ∈ x.1 -> c <> SLASH.
Proof.
  intros [_ -> H _] c Hc ->. assert (Hin : SLASH ∈ shortname arg).
  { unfold drop_underscore in Hc. destruct (shortname arg) as [|d r]; [done|]. destruct (d =? UNDERSCORE); [by right|done]. }
  apply not_true_iff_false in H. apply H, existsb_exists. exists SLASH. split; [by apply list_elem_of_In|done].
Qed.

Lemma root_entries_ok reads args fl : Forall2 (host_file reads) args fl -> fits fl -> names_ok fl ->
  NoDup ((root_entries fl).*2) /\ Forall (fun x => name_ok x.2 /\ 0 < x.1 < 2 ^ 16) (root_entries fl).
Proof.
  intros Hh [F _ _] [Hd Hn]. unfold NINODES in F. split.
  - unfold root_entries. cbn [fmap list_fmap snd]. rewrite fmap_imap. match goal with |- context [imap ?f fl] => assert (E : imap f fl = fl.*1) end.
    { apply list_eq. intros i. rewrite list_lookup_imap, list_lookup_fmap. done. }
    rewrite E. rewrite !list.NoDup_cons. split; [|split; [|done]].
    + intros H. apply elem_of_cons in H as [H|H]; [done|]. apply list_elem_of_fmap in H as (x & Hx & Hin). apply (proj1 (list.Forall_forall _ _) Hn) in Hin. by destruct Hin as (_ & ? & _).
    + intros H. apply list_elem_of_fmap in H as (x & Hx & Hin). apply (proj1 (list.Forall_forall _ _) Hn) in Hin. by destruct Hin as (_ & _ & ? & _).
  - unfold root_entries. assert (Hdot : forall n, (1 <= n <= 2)%nat -> name_ok (replicate n 46)).
    { intros n Hn'. split; [rewrite length_replicate; unfold DIRSIZ; lia|]. intros c Hc. apply elem_of_replicate in Hc as [-> _]. done. }
    apply list.Forall_cons. split; [split; [exact (Hdot 1%nat ltac:(lia))|done]|]. apply list.Forall_cons. split; [split; [exact (Hdot 2%nat ltac:(lia))|done]|].
    apply Forall_lookup_2. intros k y Hy. rewrite list_lookup_imap in Hy. destruct (fl !! k) as [x|] eqn:Ex; [|done]. injection Hy as <-. cbn [fst snd].
    assert (Hk := lookup_lt_Some _ _ _ Ex). split; [|lia]. destruct (Forall2_lookup_r _ _ _ _ _ Hh Ex) as (arg & _ & Hf). split; [apply Hf|].
    by apply (list.Forall_lookup_1 _ _ _ _ Hn Ex).
Qed.

(** C19. [mkfs] builds a file system that holds exactly the files it is given.
    When they fit, it succeeds, and in the image the kernel finds: the super
    block; the root directory, with its entries; each file with its data, in
    blocks of its own; and a free map that marks exactly the blocks in use.
    The size of the root directory is rounded up to a whole number of blocks,
    one too many when the entries fill their last block, so that then its
    last block does not exist. *)
Theorem mkfs_builds (opens : list Z -> bool) (reads : list Z -> option (list (list Z))) (prog image : list Z)
    (args : list (list Z)) (fl : list (list Z * list Z)) :
  opens image = true -> Forall2 (host_file reads) args fl -> fits fl ->
  exists s, main opens reads (prog :: image :: args) start_image = inl (tt, s) /\ fs_built s fl.
Proof. apply main_built. Qed.

(** C20. The kernel finds the files that [mkfs] wrote: the path of each
    resolves, in the image, to the inode that holds its data; [.] and [..] of
    the root directory are the root directory. *)
Theorem mkfs_names (opens : list Z -> bool) (reads : list Z -> option (list (list Z))) (prog image : list Z)
    (args : list (list Z)) (fl : list (list Z * list Z)) :
  opens image = true -> Forall2 (host_file reads) args fl -> fits fl -> names_ok fl ->
  exists s, main opens reads (prog :: image :: args) start_image = inl (tt, s) /\
    dir_lookup (img s) init_sb ROOTINO (path_bytes ".") = Some ROOTINO /\
    dir_lookup (img s) init_sb ROOTINO (path_bytes "..") = Some ROOTINO /\
    forall k name data, fl !! k = Some (name, data) ->
      exists n, resolve (img s) init_sb ROOTINO (path_elems (SLASH :: name)) = Some n /\ is_file (img s) n T_FILE data.
Proof.
  intros Ho Hh F N. destruct (main_built opens reads prog image args fl Ho Hh F) as (s & E & B). exists s. split; [exact E|].
  destruct (root_entries_ok reads args fl Hh F N) as [Hd Hok]. split; [by apply (dir_find_root s fl 0)|]. split; [by apply (dir_find_root s fl 1)|].
  intros k name data Hk. exists (Z.of_nat (2 + k)). split; [|by apply (fb_files _ _ B k name)].
  destruct (Forall2_lookup_r _ _ _ _ _ Hh Hk) as (arg & _ & Hf). rewrite path_elems_plain; [|by apply (host_file_plain reads arg (name, data))| |apply Hf].
  - cbn [resolve]. rewrite (if_type _ _ _ _ (fb_root _ _ B)). change (T_DIR =? T_DIR) with true. cbn match.
    rewrite (dir_find_root s fl (2 + k) (Z.of_nat (2 + k)) name B Hd Hok); [done|]. change (imap (fun k x => (Z.of_nat (2 + k), x.1)) fl !! k = Some (Z.of_nat (2 + k), name)).
    by rewrite list_lookup_imap, Hk.
  - by destruct (list.Forall_lookup_1 _ _ _ _ (nk_names _ N) Hk) as [? _].
Qed.

(** Two files of the host; the name of one loses its underscore. *)
Definition two_files : list Z -> option (list (list Z)) := fun name =>
  if bool_decide (name = path_bytes "user/_cat") then Some [replicate 1024 7; replicate 3 8] else Some [replicate 10 9].

Definition two_args : list (list Z) := [path_bytes "README"; path_bytes "user/_cat"].

Definition two_built : list (list Z * list Z) := [(path_bytes "README", replicate 10 9); (path_bytes "cat", replicate 1024 7 ++ replicate 3 8)].

Lemma two_host : Forall2 (host_file two_files) two_args two_built.
Proof.
  apply list.Forall2_cons. split; [|apply list.Forall2_cons; split; [|done]].
  - split; [exists [replicate 10 9]; done|reflexivity|reflexivity|by apply Nat.leb_le].
  - split; [exists [replicate 1024 7; replicate 3 8]; done|reflexivity|reflexivity|by apply Nat.leb_le].
Qed.

Lemma two_fit : fits two_built.
Proof.
  split; [done| |done]. apply list.Forall_cons. split; [done|]. apply list.Forall_cons. split; [done|]. done.
Qed.

Lemma two_names : names_ok two_built.
Proof.
  split; [by apply (bool_decide_eq_true_1 _)|]. apply list.Forall_cons. split; [|apply list.Forall_cons; split; [|done]]; (split; [done|]; split; [done|]; split; [done|]).
  - intros c Hc. assert (H : Forall (fun c => c <> 0) (path_bytes "README")) by by apply (bool_decide_eq_true_1 _). exact (proj1 (list.Forall_forall _ _) H c Hc).
  - intros c Hc. assert (H : Forall (fun c => c <> 0) (path_bytes "cat")) by by apply (bool_decide_eq_true_1 _). exact (proj1 (list.Forall_forall _ _) H c Hc).
Qed.

Lemma mkfs_builds_witness : exists s, main (fun _ => true) two_files (path_bytes "mkfs" :: path_bytes "fs.img" :: two_args) start_image = inl (tt, s) /\
  is_file (img s) 3 T_FILE (replicate 1024 7 ++ replicate 3 8) /\ used init_sb (img s) 49 = true /\ used init_sb (img s) 50 = false.
Proof.
  destruct (mkfs_builds (fun _ => true) two_files (path_bytes "mkfs") (path_bytes "fs.img") two_args two_built) as (s & E & B).
  - reflexivity.
  - exact two_host.
  - exact two_fit.
  - exists s. split; [exact E|]. split; [exact (proj1 (fb_files _ _ B 1%nat _ _ eq_refl))|]. split; rewrite (fb_map _ _ B) by (unfold FSSIZE; lia); reflexivity.
Defined.

Lemma mkfs_names_witness : exists s n, main (fun _ => true) two_files (path_bytes "mkfs" :: path_bytes "fs.img" :: two_args) start_image = inl (tt, s) /\
  resolve (img s) init_sb ROOTINO (path_elems (path_bytes "/cat")) = Some n /\ is_file (img s) n T_FILE (replicate 1024 7 ++ replicate 3 8).
Proof.
  destruct (mkfs_names (fun _ => true) two_files (path_bytes "mkfs") (path_bytes "fs.img") two_args two_built) as (s & E & _ & _ & H).
  - reflexivity.
  - exact two_host.
  - exact two_fit.
  - exact two_names.
  - destruct (H 1%nat (path_bytes "cat") (replicate 1024 7 ++ replicate 3 8) eq_refl) as (n & H1 & H2). exists s, n. split; [exact E|]. split; [exact H1|exact H2].
Defined.
