(* ===== verification/ProcExit.v ===== *)
(** * Processes: waiting and orphans

    What [wait] and [reparent] of [kernel/proc.c] do to the process table. *)
From stdpp Require Import base tactics list numbers gmap strings.
From S2P Require Import Prelude Machine Spinlock StringC Kalloc Vm Sched Pipe File Proc.

Open Scope Z_scope.

Section exits.
Context `{LK : Linker} `{FS : FsOps}.

(** ** Waiting for a child *)

Definition zombie_key (p : nat) (q : proc) : Z :=
  if bool_decide (parent q = Some p /\ state q = ZOMBIE) then 1 else 0.

(** The first child of [p] in the table that has exited. *)
Definition first_zombie (p : nat) (ps : list proc) : option nat :=
  SchedCommon.find_loop (zombie_key p) ps 0 1.

Definition has_child (p : nat) (ps : list proc) : bool :=
  existsb (fun q => bool_decide (parent q = Some p)) ps.

Lemma enter_twice_back lk lk' e s :
  lk <> lk' -> hart_ok s -> free_lock s lk -> free_lock s lk' ->
  release lk' e (enter lk' (enter lk s)) = Ret tt e (enter lk s).
Proof.
  intros Hne Hok Hf Hf'. rewrite release_enter.
  - rewrite nested_left_off_id; [done|]. by apply enter_nested.
  - by apply hart_ok_enter.
  - by apply free_lock_enter.
Qed.

(** The end of [wait] when it found the zombie [i]. *)
Definition reap (i : nat) (pid_ : Z) : M (bool + Z) :=
  freeproc i;; release (Lproc i);; release Lwait;; mret (inr pid_).

Lemma wait_scan_spec p pr n k hk e s :
  (k + n = NPROC)%nat -> sys_ready s -> procs s !! p = Some pr ->
  wait_scan p 0 (seq k n) hk e (enter Lwait s) =
  match SchedCommon.find_loop (zombie_key p) (drop k (procs s)) k 1 with
  | Some i => reap i (pid (default pr (procs s !! i))) e (enter (Lproc i) (enter Lwait s))
  | None => Ret (inl (hk || has_child p (drop k (procs s)))) e (enter Lwait s)
  end.
Proof.
  intros Hk Hs Hp. revert k hk Hk. induction n as [|n IH]; intros k hk Hk.
  - destruct Hs as ((_ & Hlen & _) & _). rewrite drop_ge by lia. cbn. by rewrite orb_false_r.
  - destruct (table_lookup s k (proj1 Hs) ltac:(lia)) as [q Hq].
    destruct Hs as ((Hok & Hlen & Hfree) & Hfk & Hfp & Hfw & Hff & Hfi).
    assert (Hfl : free_lock s (Lproc k)) by (apply Hfree; lia).
    cbn [seq wait_scan]. rewrite bindE, (get_proc_Ret k e (enter Lwait s) q) by done.
    rewrite (drop_S _ q k) by done. cbn [SchedCommon.find_loop has_child existsb]. unfold zombie_key at 1.
    destruct (decide (parent q = Some p)) as [Hpar|Hpar].
    + rewrite (bool_decide_eq_true_2 (parent q = Some p)) by done.
      rewrite bindE, acquire_Ret by (by apply free_lock_enter || by apply hart_ok_enter).
      rewrite bindE, (get_proc_Ret k e (enter (Lproc k) (enter Lwait s)) q) by done.
      destruct (decide (state q = ZOMBIE)) as [Hz|Hz].
      * rewrite !bool_decide_eq_true_2 by done. change (1 =? 1) with true. cbv beta iota zeta.
        rewrite Hq. rewrite bindE, (get_proc_Ret p e (enter (Lproc k) (enter Lwait s)) pr) by done.
        done.
      * rewrite (bool_decide_eq_false_2 (state q = ZOMBIE)) by done.
        rewrite bool_decide_eq_false_2 by naive_solver. change (0 =? 1) with false. cbn match.
        rewrite bindE, enter_twice_back by done.
        rewrite IH by lia. destruct (SchedCommon.find_loop _ _ _ _); [done|].
        by rewrite orb_true_r.
    + rewrite (bool_decide_eq_false_2 (parent q = Some p)) by done.
      rewrite bool_decide_eq_false_2 by naive_solver. change (0 =? 1) with false. cbn match.
      by rewrite IH by lia.
Qed.

Lemma wait_first fuel addr e s p :
  hart_ok s -> free_lock s Lwait -> cur s = Some p ->
  wait fuel addr e s = loop fuel (wait_step p addr) tt e (enter Lwait s).
Proof.
  intros Hok Hf Hc. unfold wait. rewrite bindE, (curproc_ready e s p) by done.
  rewrite bindE, acquire_Ret by (done || by apply hart_ok_left_off). by rewrite enter_left_off.
Qed.

(** The test [!havekids || killed(p)], when it holds. *)
Lemma wait_stop e s p pr hk :
  sys_ready s -> procs s !! p = Some pr -> hk = false \/ killed_ pr <> 0 ->
  (if hk : bool then k ← killed p; mret (negb (k =? 0)) else mret true : M bool) e (enter Lwait s) =
  Ret true e (enter Lwait s).
Proof.
  intros (Ht & _ & _ & Hfw & _) Hp Hstop. destruct hk; [|done].
  destruct Hstop as [|Hk]; [done|].
  assert (Hlt : (p < NPROC)%nat).
  { apply lookup_lt_Some in Hp. destruct Ht as (_ & Hlen & _). lia. }
  rewrite bindE, (killed_Ret p e _ pr) by (done || by apply table_ready_enter).
  rewrite nested_left_off_id by (apply enter_nested, Ht).
  cbn [mret M_ret]. by rewrite (proj2 (Z.eqb_neq _ _) Hk).
Qed.

Lemma first_zombie_child p ps i :
  first_zombie p ps = Some i ->
  exists q, ps !! i = Some q /\ parent q = Some p /\ state q = ZOMBIE.
Proof.
  intros (q & Hq & Hk & _)%SchedCommon.find_loop_first. exists q. unfold zombie_key in Hk.
  by case_bool_decide as H; [destruct H|].
Qed.


(** ** Orphans *)

(** What one iteration of [reparent] does to the table. *)
Definition reparent1 (p ip : nat) (me : option nat) (ps : list proc) (i : nat) : list proc :=
  match ps !! i with
  | Some q =>
      if bool_decide (parent q = Some p)
      then imap (wake1 (ChProc ip) me) (alter (fun q => q <| parent := Some ip |>) i ps)
      else ps
  | None => ps
  end.

Lemma reparent1_length p ip me ps i : length (reparent1 p ip me ps i) = length ps.
Proof.
  unfold reparent1. destruct (ps !! i); [|done]. case_bool_decide; [|done].
  by rewrite length_imap, length_alter.
Qed.

Lemma reparent_body_Ret p ip i e s :
  (i < NPROC)%nat -> table_ready s -> nested s -> initproc s = Some ip ->
  reparent_body p i e s = Ret tt e (s <| procs ::= fun ps => reparent1 p ip (cur s) ps i |>).
Proof.
  intros Hi Hs Hn Hip. destruct (table_lookup s i Hs Hi) as [q Hq].
  unfold reparent_body. rewrite bindE, (get_proc_Ret i e s q) by done.
  destruct (decide (parent q = Some p)) as [Hpar|Hpar].
  - rewrite bool_decide_eq_true_2 by done. rewrite bindE. cbn [read]. rewrite Hip.
    set (g := fun q : proc => q <| parent := Some ip |>).
    rewrite bindE, (set_proc_with g i e s q) by done. cbn [wakeup_proc].
    rewrite wakeup_Ret by (apply table_ready_procs; [intros; apply length_alter|done]).
    rewrite nested_left_off_id by exact Hn. f_equal.
    apply (procs_update_ext s (fun ps => imap _ (alter g i ps))). cbn beta. unfold reparent1. rewrite Hq.
    by rewrite bool_decide_eq_true_2 by done.
  - rewrite bool_decide_eq_false_2 by done. cbn [mret M_ret]. f_equal.
    transitivity (s <| procs ::= id |>); [by destruct s|]. apply procs_update_ext.
    unfold reparent1. rewrite Hq. by rewrite bool_decide_eq_false_2 by done.
Qed.

Lemma reparent_loop p ip l e s :
  Forall (fun i => (i < NPROC)%nat) l -> table_ready s -> nested s -> initproc s = Some ip ->
  for_each l (reparent_body p) e s =
  Ret tt e (s <| procs ::= fun ps => foldl (reparent1 p ip (cur s)) ps l |>).
Proof.
  intros HF. revert s. induction HF as [|i l Hi HF IH]; intros s Hs Hn Hip.
  - cbn [for_each mret M_ret]. by destruct s.
  - cbn [for_each]. rewrite bindE, (reparent_body_Ret p ip) by done.
    rewrite IH; [done| |done|done].
    apply table_ready_procs; [intros; apply reparent1_length|done].
Qed.

(** What [reparent] makes of slot [j], when some child of [p] was found. *)
Definition orphan (p ip : nat) (q : proc) : proc :=
  if bool_decide (parent q = Some p) then q <| parent := Some ip |> else q.

Definition waked (b : bool) (ip : nat) (me : option nat) (j : nat) (q : proc) : proc :=
  if b then wake1 (ChProc ip) me j q else q.

Lemma waked_parent b ip me j q : parent (waked b ip me j q) = parent q.
Proof. unfold waked, wake1. destruct b; [|done]. by destruct (_ && _ && _). Qed.

Lemma wake1_parent_comm ch me j q x :
  wake1 ch me j (q <| parent := x |>) = wake1 ch me j q <| parent := x |>.
Proof. unfold wake1. cbn. by destruct (_ && _ && _). Qed.

Lemma wake1_waked b ip me j q : wake1 (ChProc ip) me j (waked b ip me j q) = waked true ip me j q.
Proof. destruct b; [apply wake1_idem|done]. Qed.

Lemma has_child_snoc p ps q : has_child p (ps ++ [q]) = has_child p ps || bool_decide (parent q = Some p).
Proof. unfold has_child. rewrite existsb_app. cbn. by rewrite orb_false_r. Qed.

Lemma reparent1_lookup p ip me ps n j :
  (n <= length ps)%nat ->
  foldl (reparent1 p ip me) ps (seq 0 n) !! j =
  (fun q => waked (has_child p (take n ps)) ip me j (if (j <? n)%nat then orphan p ip q else q)) <$> ps !! j.
Proof.
  revert j. induction n as [|n IH]; intros j Hn.
  { cbn. rewrite take_0. cbn. by destruct (ps !! j). }
  rewrite seq_S, foldl_app. cbn [foldl Nat.add].
  destruct (lookup_lt_is_Some_2 ps n ltac:(lia)) as [q Hq].
  rewrite (take_S_r _ _ _ Hq), has_child_snoc. unfold reparent1 at 1.
  rewrite IH, Hq by lia. cbn [fmap option_fmap option_map]. rewrite Nat.ltb_irrefl, waked_parent.
  destruct (decide (parent q = Some p)) as [Hpar|Hpar].
  - rewrite bool_decide_eq_true_2, orb_true_r by done. rewrite list_lookup_imap.
    destruct (decide (j = n)) as [->|Hne].
    + rewrite list_lookup_alter_eq, IH, Hq by lia. cbn [fmap option_fmap option_map].
      rewrite Nat.ltb_irrefl. replace (n <? S n)%nat with true by (symmetry; apply Nat.ltb_lt; lia).
      f_equal. unfold orphan. rewrite bool_decide_eq_true_2 by done.
      rewrite wake1_parent_comm, wake1_waked. cbn [waked]. symmetry. apply wake1_parent_comm.
    + rewrite list_lookup_alter_ne, IH by (done || lia). destruct (ps !! j) as [q'|]; [|done].
      cbn [fmap option_fmap option_map]. f_equal. rewrite wake1_waked.
      by replace (j <? S n)%nat with (j <? n)%nat by (apply eq_true_iff_eq; rewrite !Nat.ltb_lt; lia).
  - rewrite bool_decide_eq_false_2, orb_false_r by done. rewrite IH by lia.
    destruct (decide (j = n)) as [->|Hne].
    + rewrite Hq. cbn [fmap option_fmap option_map]. rewrite Nat.ltb_irrefl.
      replace (n <? S n)%nat with true by (symmetry; apply Nat.ltb_lt; lia).
      unfold orphan. by rewrite bool_decide_eq_false_2 by done.
    + by replace (j <? S n)%nat with (j <? n)%nat by (apply eq_true_iff_eq; rewrite !Nat.ltb_lt; lia).
Qed.

Lemma waked_orphan b p ip me j q :
  waked b ip me j (orphan p ip q) =
  q <| parent := if bool_decide (parent q = Some p) then Some ip else parent q |>
    <| state := if b && bool_decide (me <> Some j) && bool_decide (state q = SLEEPING) &&
                   bool_decide (pchan q = Some (ChProc ip)) then RUNNABLE else state q |>.
Proof.
  unfold orphan, waked, wake1. destruct (bool_decide (parent q = Some p)), b; try (by destruct q);
    repeat case_bool_decide; by destruct q.
Qed.

(** The table [reparent] leaves. *)
Definition reparented (p ip : nat) (me : option nat) (ps : list proc) : list proc :=
  foldl (reparent1 p ip me) ps proc_table.

Lemma reparent_Ret p ip e s :
  table_ready s -> nested s -> initproc s = Some ip ->
  reparent p e s = Ret tt e (s <| procs := reparented p ip (cur s) (procs s) |>).
Proof. intros. unfold reparent, reparented. by rewrite (reparent_loop p ip) by (done || apply proc_table_lt). Qed.

Lemma reparented_lookup p ip me ps j :
  length ps = NPROC ->
  reparented p ip me ps !! j = (fun q => waked (has_child p ps) ip me j (orphan p ip q)) <$> ps !! j.
Proof.
  intros Hlen. unfold reparented, proc_table. rewrite reparent1_lookup, take_ge by lia.
  destruct (ps !! j) as [q|] eqn:Hq; [|done]. apply lookup_lt_Some in Hq.
  cbn [fmap option_fmap option_map]. by rewrite (proj2 (Nat.ltb_lt _ _)) by lia.
Qed.

Lemma reparented_length p ip me ps : length (reparented p ip me ps) = length ps.
Proof.
  unfold reparented. generalize proc_table. intros l. revert ps.
  induction l as [|i l IH]; intros ps; [done|]. cbn [foldl]. by rewrite IH, reparent1_length.
Qed.

Lemma reparented_no_child p ip me ps :
  length ps = NPROC -> ip <> p -> has_child p (reparented p ip me ps) = false.
Proof.
  intros Hlen Hne. assert (H := fun j => reparented_lookup p ip me ps j Hlen).
  revert H. generalize (reparented p ip me ps). intros l H.
  apply not_true_iff_false. unfold has_child. intros (q & Hin & Hq)%existsb_exists.
  apply bool_decide_eq_true in Hq. apply list_elem_of_In in Hin.
  apply list_elem_of_lookup in Hin as [j Hj]. rewrite H in Hj.
  destruct (ps !! j) as [q0|]; [|done]. injection Hj as <-.
  rewrite waked_parent in Hq. unfold orphan in Hq. case_bool_decide; cbn in Hq; congruence.
Qed.

(** [reparent], called with [wait_lock] held: every child of [p], and no
    other process, gets the initial process as its parent; if there was a
    child, the initial process is woken if it waits for its children; nothing
    else about any process changes, and no process is left with [p] as its
    parent unless [p] is the initial process itself. *)
Theorem reparent_to_init (p ip : nat) (e : env) (s : mach) :
  table_ready s -> nested s -> initproc s = Some ip ->
  exists ps, reparent p e s = Ret tt e (s <| procs := ps |>) /\ length ps = length (procs s) /\
    (forall j q, procs s !! j = Some q ->
       let woken := has_child p (procs s) && bool_decide (cur s <> Some j) &&
                    bool_decide (state q = SLEEPING) && bool_decide (pchan q = Some (ChProc ip)) in
       ps !! j = Some (q <| parent := if bool_decide (parent q = Some p) then Some ip else parent q |>
                         <| state := if woken then RUNNABLE else state q |>)) /\
    (ip <> p -> has_child p ps = false).
Proof.
  intros Hs Hn Hip. assert (Hlen : length (procs s) = NPROC) by apply Hs.
  exists (reparented p ip (cur s) (procs s)).
  split; [exact (reparent_Ret p ip e s Hs Hn Hip)|]. split; [apply reparented_length|]. split.
  - intros j q Hq. rewrite reparented_lookup, Hq by done. cbn [fmap option_fmap option_map].
    f_equal. apply waked_orphan.
  - intros Hne. by apply reparented_no_child.
Qed.

End exits.


(** Process 0 exits while slot 5 is the initial process. *)
Definition machine_init : mach := machine0 <| initproc := Some 5%nat |>.

Lemma machine_init_ready : table_ready machine_init.
Proof.
  split; [|split].
  - eexists. split; [reflexivity|]. split; [cbn; lia|]. cbn. lia.
  - reflexivity.
  - apply table_locks_free. vm_compute. reflexivity.
Qed.

Lemma reparent_to_init_witness :
  exists ps, reparent 0 [] (enter Lwait machine_init) =
      Ret tt [] (enter Lwait machine_init <| procs := ps |>) /\ has_child 0 ps = false.
Proof.
  destruct (reparent_to_init 0 5 [] (enter Lwait machine_init)) as (ps & H1 & _ & _ & H2).
  - apply table_ready_enter; [discriminate|exact machine_init_ready].
  - apply enter_nested. exact (proj1 machine_init_ready).
  - reflexivity.
  - exists ps. split; [exact H1|]. apply H2. discriminate.
Defined.
