(* ===== verification/Syscall.v ===== *)
(** * System calls

    Model of [kernel/syscall.c] (arguments and dispatch), [kernel/sysproc.c]
    and the calls of [kernel/sysfile.c] that work on file descriptors. *)
From stdpp Require Import base tactics list numbers gmap strings pretty.
From S2P Require Import Prelude Machine Spinlock StringC Kalloc Vm Sched Pipe File Proc.

Open Scope Z_scope.

Definition TF_A7 : Z := 168.
Definition MAXPATH : Z := 128.
Definition MAXARG : nat := 32.

(** The functions of the tagged pipes: the sources call them and do not
    define them. *)
Class TaggedPipe : Type := {
  pipe_tagged_alloc : M (option (nat * nat));
  pipetagged_write : Z -> Z -> Z -> Z -> M Z;    (* pipe, address, n, tag *)
  pipe_tagged_read : Z -> Z -> Z -> Z -> M Z;
  sys_pipe_tagged_write : M Z                    (* entry 27 of the table *)
}.

(** The calls on paths and the loader, which this file takes as given. *)
Class PathCalls : Type := {
  exec : list Z -> list Z -> M Z;                (* path, pages of the arguments *)
  sys_chdir : M Z; sys_open : M Z; sys_mknod : M Z;
  sys_unlink : M Z; sys_link : M Z; sys_mkdir : M Z
}.

Section syscall.
Context `{LK : Linker} `{FS : FsOps} `{TP : TaggedPipe} `{PC : PathCalls}.

(** ** Arguments *)

(** The [uint64] at a user address, or [None] for -1. *)
Definition fetchaddr (addr : Z) : M (option Z) :=
  p ← curproc;
  pr ← get_proc p;
  if (sz pr <=? addr) || (sz pr <? u64 (addr + 8)) then mret None
  else
    r ← copyin (pagetable pr) addr 8;
    mret (if negb (fst r =? 0) then None else Some (load64 (store_bytes ∅ 0 (snd r)) 0)).

(** The string at a user address; its length is what the code returns. *)
Definition fetchstr (addr max : Z) : M (option (list Z)) :=
  p ← curproc;
  pr ← get_proc p;
  copyinstr (pagetable pr) addr max.

Definition argraw (n : Z) : M Z :=
  p ← curproc;
  pr ← get_proc p;
  if (0 <=? n) && (n <=? 5) then load_word (trapframe pr + TF_A0 + 8 * n)
  else panic "argraw"%string.

Definition argint (n : Z) : M Z := v ← argraw n; mret (i32 v).
Definition argaddr (n : Z) : M Z := argraw n.
Definition argstr (n max : Z) : M (option (list Z)) :=
  addr ← argaddr n; fetchstr addr max.

(** ** Calls on processes *)

Definition sys_exit : M Z :=
  n ← argint 0;
  x ← exit n;
  match x : Empty_set with end.

Definition sys_getpid : M Z := p ← curproc; pr ← get_proc p; mret (pid pr).

Definition sys_fork : M Z := fork.
Definition sys_sfork : M Z := sfork.
Definition sys_wait (fuel : nat) : M Z := p ← argaddr 0; wait fuel p.

Definition sys_sbrk : M Z :=
  n ← argint 0;
  p ← curproc;
  pr ← get_proc p;
  let addr := sz pr in
  r ← growproc n;
  mret (if r <? 0 then -1 else addr).

(** One iteration of [while(ticks - ticks0 < n)]; [ticks] is a [uint] and [n]
    is converted to one. *)
Definition sleep_step (ticks0 n : Z) (_ : unit) : M (unit + Z) :=
  t ← read ticks;
  if u32 (t - ticks0) <? n then
    me ← curproc;
    k ← killed me;
    if negb (k =? 0) then release Lticks;; mret (inr (-1))
    else sleep ChTicks Lticks;; mret (inl tt)
  else release Lticks;; mret (inr 0).

Definition sys_sleep (fuel : nat) : M Z :=
  n ← argint 0;
  let n := if n <? 0 then 0 else n in
  acquire Lticks;;
  ticks0 ← read ticks;
  loop fuel (sleep_step ticks0 n) tt.

Definition sys_kill : M Z := pid_ ← argint 0; kill pid_.

Definition sys_uptime : M Z :=
  acquire Lticks;;
  xticks ← read ticks;
  release Lticks;;
  mret xticks.

(** The loop of [sys_setpriority] takes no lock. *)
Definition setpriority_body (pid_ priority_ : Z) (i : nat) : M (option Z) :=
  pr ← get_proc i;
  if pid pr =? pid_ then
    set_proc i (fun pr => pr <| priority := priority_ |>);;
    mret (Some 0)
  else mret None.

Definition sys_setpriority : M Z :=
  pid_ ← argint 0;
  priority_ ← argint 1;
  if (pid_ <? 0) || (priority_ <? 0) then mret (-1)
  else
    r ← for_first proc_table (setpriority_body pid_ priority_);
    mret (default (-1) r).

Fixpoint times_loop (l : list nat) (total idle : Z) : M (Z * Z) :=
  match l with
  | [] => mret (total, idle)
  | i :: l =>
      pr ← get_proc i;
      times_loop l (u64 (total + total_time pr)) (u64 (idle + idle_time pr))
  end.

Definition sys_cpuutilization : M Z :=
  r ← times_loop proc_table 0 0;
  let '(total, idle) := r in
  mret (if total =? 0 then 0 else u64 (u64 (total - idle) * 100) / total).

(** ** Calls on file descriptors *)

(** The descriptor and the file, or [None] for -1. *)
Definition argfd (n : Z) : M (option (nat * nat)) :=
  fd ← argint n;
  if (fd <? 0) || (Z.of_nat NOFILE <=? fd) then mret None
  else
    p ← curproc;
    pr ← get_proc p;
    mret (match ofile pr !! Z.to_nat fd with
          | Some (Some f) => Some (Z.to_nat fd, f)
          | _ => None
          end).

Definition fdalloc_body (p f fd : nat) : M (option Z) :=
  pr ← get_proc p;
  o ← or_fault (ofile pr !! fd);
  match o with
  | None =>
      set_proc p (fun pr => pr <| ofile ::= <[fd := Some f]> |>);;
      mret (Some (Z.of_nat fd))
  | Some _ => mret None
  end.

Definition fdalloc (f : nat) : M Z :=
  p ← curproc;
  r ← for_first (seq 0 NOFILE) (fdalloc_body p f);
  mret (default (-1) r).

Definition sys_dup : M Z :=
  a ← argfd 0;
  match a with
  | None => mret (-1)
  | Some (_, f) =>
      fd ← fdalloc f;
      if fd <? 0 then mret (-1)
      else filedup f;; mret fd
  end.

Definition sys_read (fuel : nat) : M Z :=
  p ← argaddr 1;
  n ← argint 2;
  a ← argfd 0;
  match a with
  | None => mret (-1)
  | Some (_, f) => fileread fuel f p n
  end.

Definition sys_write (fuel : nat) : M Z :=
  p ← argaddr 1;
  n ← argint 2;
  a ← argfd 0;
  match a with
  | None => mret (-1)
  | Some (_, f) => filewrite fuel f p n
  end.

Definition clear_fd (p fd : nat) : M unit := set_proc p (fun pr => pr <| ofile ::= <[fd := None]> |>).

Definition sys_close : M Z :=
  a ← argfd 0;
  match a with
  | None => mret (-1)
  | Some (fd, f) =>
      p ← curproc;
      clear_fd p fd;;
      fileclose f;;
      mret 0
  end.

Definition sys_fstat : M Z :=
  st ← argaddr 1;
  a ← argfd 0;
  match a with
  | None => mret (-1)
  | Some (_, f) => filestat f st
  end.

(** [sys_pipe] and [sys_pipetagged] differ in the allocator only. *)
Definition pipe_call (alloc : M (option (nat * nat))) : M Z :=
  p ← curproc;
  fdarray ← argaddr 0;
  r ← alloc;
  match r with
  | None => mret (-1)
  | Some (rf, wf) =>
      fd0 ← fdalloc rf;
      fd1 ← (if fd0 <? 0 then mret (-1) else fdalloc wf);
      if (fd0 <? 0) || (fd1 <? 0) then
        when (0 <=? fd0) (clear_fd p (Z.to_nat fd0));;
        fileclose rf;;
        fileclose wf;;
        mret (-1)
      else
        pr ← get_proc p;
        r0 ← copyout (pagetable pr) fdarray (int_bytes fd0);
        r1 ← (if r0 <? 0 then mret (-1) else copyout (pagetable pr) (u64 (fdarray + 4)) (int_bytes fd1));
        if (r0 <? 0) || (r1 <? 0) then
          clear_fd p (Z.to_nat fd0);;
          clear_fd p (Z.to_nat fd1);;
          fileclose rf;;
          fileclose wf;;
          mret (-1)
        else mret 0
  end.

Definition sys_pipe : M Z := pipe_call pipealloc.
Definition sys_pipetagged : M Z := pipe_call pipe_tagged_alloc.

(** A call on a tagged pipe: [f->pipe], the address, the count and the tag. *)
Definition tagged_call (op : Z -> Z -> Z -> Z -> M Z) : M Z :=
  n ← argint 2;
  addr ← argaddr 1;
  tag ← argint 3;
  a ← argfd 0;
  match a with
  | None => mret (-1)
  | Some (_, f) => fl ← get_file f; op (fpipe fl) addr n tag
  end.

Definition sys_pipeagged_write : M Z := tagged_call pipetagged_write.
Definition sys_pipe_tagged_read : M Z := tagged_call pipe_tagged_read.

(** [sys_exec]: the arguments are copied into pages of their own.  A page
    whose string could not be fetched is freed with the others, which fills
    it, so what was copied into it before the error does not matter. *)
Fixpoint exec_args (fuel : nat) (uargv : Z) (argv : list Z) : M (list Z * bool) :=
  match fuel with
  | O => mret (argv, false)
  | S fuel =>
      u ← fetchaddr (u64 (uargv + 8 * Z.of_nat (length argv)));
      match u with
      | None => mret (argv, false)
      | Some uarg =>
          if uarg =? 0 then mret (argv, true)
          else
            pa ← kalloc;
            if pa =? 0 then mret (argv, false)
            else
              r ← fetchstr uarg PGSIZE;
              match r with
              | None => mret (argv ++ [pa], false)
              | Some str =>
                  modify (fun s => s <| mem ::= fun m => store_bytes m pa (str ++ [0]) |>);;
                  exec_args fuel uargv (argv ++ [pa])
              end
      end
  end.

Definition sys_exec : M Z :=
  uargv ← argaddr 1;
  path ← argstr 0 MAXPATH;
  match path with
  | None => mret (-1)
  | Some path =>
      r ← exec_args MAXARG uargv [];
      let '(argv, good) := r in
      ret ← (if good : bool then exec path argv else mret (-1));
      for_each argv kfree;;
      mret ret
  end.

(** ** Dispatch *)

(** The table [syscalls]; [None] where it holds no function. *)
Definition syscalls (fuel : nat) (num : Z) : option (M Z) :=
  match num with
  | 1 => Some sys_fork | 2 => Some sys_exit | 3 => Some (sys_wait fuel) | 4 => Some sys_pipe
  | 5 => Some (sys_read fuel) | 6 => Some sys_kill | 7 => Some sys_exec | 8 => Some sys_fstat
  | 9 => Some sys_chdir | 10 => Some sys_dup | 11 => Some sys_getpid | 12 => Some sys_sbrk
  | 13 => Some (sys_sleep fuel) | 14 => Some sys_uptime | 15 => Some sys_open
  | 16 => Some (sys_write fuel) | 17 => Some sys_mknod | 18 => Some sys_unlink
  | 19 => Some sys_link | 20 => Some sys_mkdir | 21 => Some sys_close | 22 => Some sys_sfork
  | 23 => Some sys_setpriority | 24 => Some sys_cpuutilization | 25 => Some sys_count_zombies
  | 26 => Some sys_pipetagged | 27 => Some sys_pipe_tagged_write | 28 => Some sys_pipe_tagged_read
  | _ => None
  end.

(** A string in memory, as [printf] shows it. *)
Fixpoint show_bytes (fuel : nat) (m : bytes) (a : Z) : string :=
  match fuel with
  | O => ""
  | S fuel => if load8 m a =? 0 then ""
              else String (Ascii.ascii_of_N (Z.to_N (load8 m a))) (show_bytes fuel m (a + 1))
  end.

Definition unknown_call (pid_ : Z) (name_ : bytes) (num : Z) : string :=
  pretty pid_ +:+ " " +:+ show_bytes 16 name_ 0 +:+ ": unknown sys call " +:+ pretty num.

Definition syscall (fuel : nat) : M unit :=
  p ← curproc;
  pr ← get_proc p;
  num ← load_word (trapframe pr + TF_A7);
  let num := i32 num in
  match (if 0 <? num then syscalls fuel num else None) with
  | Some f =>
      v ← f;
      pr ← get_proc p;
      store_word (trapframe pr + TF_A0) v
  | None =>
      modify (fun s => s <| console ::= cons (unknown_call (pid pr) (name pr) num) |>);;
      store_word (trapframe pr + TF_A0) (-1)
  end.

End syscall.

(** ** A process in a system call *)

(** Process [p], in slot [pr], runs on this hart. *)
Definition calling (s : mach) (p : nat) (pr : proc) : Prop :=
  table_ready s /\ cur s = Some p /\ procs s !! p = Some pr.

(** A register of its trapframe. *)
Definition reg (s : mach) (pr : proc) (n : Z) : Z := load64 (mem s) (trapframe pr + TF_A0 + 8 * n).

(** Its integer arguments and the number of the call. *)
Definition arg32 (s : mach) (pr : proc) (n : Z) : Z := i32 (reg s pr n).
Definition callno (s : mach) (pr : proc) : Z := i32 (load64 (mem s) (trapframe pr + TF_A7)).

Lemma calling_left_off s p pr : calling s p pr -> calling (left_off s) p pr.
Proof.
  intros (H1 & H2 & H3). split; [by apply table_ready_left_off|]. split; [|done].
  by rewrite cur_left_off by apply H1.
Qed.

Lemma calling_curproc e s p pr : calling s p pr -> curproc e s = Ret p e (left_off s).
Proof. intros (H1 & H2 & _). apply curproc_ready; [apply H1|done]. Qed.

Lemma calling_again e s p pr : calling s p pr -> curproc e (left_off s) = Ret p e (left_off s).
Proof.
  intros H. rewrite (calling_curproc e (left_off s) p pr) by by apply calling_left_off.
  by rewrite left_off_idem by apply H.
Qed.

Lemma argraw_Ret n e s p pr :
  calling s p pr -> 0 <= n <= 5 -> argraw n e s = Ret (reg s pr n) e (left_off s).
Proof.
  intros H Hn. unfold argraw. rewrite bindE, (calling_curproc e s p pr) by done.
  rewrite bindE, (get_proc_Ret p e (left_off s) pr) by apply H.
  by rewrite (proj2 (Z.leb_le 0 n)), (proj2 (Z.leb_le n 5)) by lia.
Qed.

Lemma argint_Ret n e s p pr :
  calling s p pr -> 0 <= n <= 5 -> argint n e s = Ret (arg32 s pr n) e (left_off s).
Proof. intros H Hn. unfold argint. by rewrite bindE, (argraw_Ret n e s p pr). Qed.

(** From the second use of [myproc] on nothing changes any more. *)
Lemma argint_again n e s p pr :
  calling s p pr -> 0 <= n <= 5 -> argint n e (left_off s) = Ret (arg32 s pr n) e (left_off s).
Proof.
  intros H Hn. rewrite (argint_Ret n e (left_off s) p pr) by (done || by apply calling_left_off).
  by rewrite left_off_idem by apply H.
Qed.

(** ** Unknown calls *)

(** The result register after it was written. *)
Lemma reg_store s pr v :
  reg (s <| mem ::= fun m => store64 m (trapframe pr + TF_A0) v |>) pr 0 = u64 v.
Proof. unfold reg. rewrite Z.mul_0_r, Z.add_0_r. apply load64_store64. Qed.

Lemma with_proc_trapframe g i s p pr :
  (forall q, trapframe (g q) = trapframe q) -> procs s !! p = Some pr ->
  exists pr', procs (with_proc g i s) !! p = Some pr' /\ trapframe pr' = trapframe pr.
Proof.
  intros Hg Hp. destruct (decide (i = p)) as [->|Hne].
  - exists (g pr). split; [by apply lookup_with_proc|done].
  - exists pr. split; [|done]. cbn. by rewrite list_lookup_alter_ne.
Qed.

Section calls.
Context `{LK : Linker} `{FS : FsOps} `{TP : TaggedPipe} `{PC : PathCalls}.

Lemma syscalls_None fuel num : ~ 1 <= num <= 28 -> syscalls fuel num = None.
Proof.
  intros H. destruct num as [|q|q]; [done| |done].
  do 5 (try (destruct q as [q|q|]; try done)); exfalso; lia.
Qed.

Lemma syscall_enter fuel e s p pr :
  calling s p pr ->
  syscall fuel e s =
  match (if 0 <? callno s pr then syscalls fuel (callno s pr) else None) with
  | Some f => (v ← f; pr ← get_proc p; store_word (trapframe pr + TF_A0) v) e (left_off s)
  | None => Ret tt e (left_off s <| console ::= cons (unknown_call (pid pr) (name pr) (callno s pr)) |>
                       <| mem ::= fun m => store64 m (trapframe pr + TF_A0) (-1) |>)
  end.
Proof.
  intros H. unfold syscall. rewrite bindE, (calling_curproc e s p pr) by done.
  rewrite bindE, (get_proc_Ret p e (left_off s) pr) by apply H.
  rewrite bindE. cbn [load_word read]. change (mem (left_off s)) with (mem s).
  fold (callno s pr). by destruct (if 0 <? callno s pr then _ else _).
Qed.

(** A call number outside 1..28 (an [int], so taken modulo 2^32): the
    process gets -1 in [a0] and the kernel prints a message; no other byte of
    memory, no process and no lock changes. *)
Theorem syscall_unknown (fuel : nat) (e : env) (s : mach) (p : nat) (pr : proc) :
  calling s p pr -> ~ 1 <= callno s pr <= 28 ->
  exists s', syscall fuel e s = Ret tt e s' /\ reg s' pr 0 = 2 ^ 64 - 1 /\
    (forall a, a < trapframe pr + TF_A0 \/ trapframe pr + TF_A0 + 8 <= a ->
       load8 (mem s') a = load8 (mem s) a) /\
    procs s' = procs s /\ locks s' = locks s /\ files s' = files s /\
    console s' = unknown_call (pid pr) (name pr) (callno s pr) :: console s.
Proof.
  intros H Hn. rewrite (syscall_enter fuel e s p pr) by done.
  replace (if 0 <? callno s pr then syscalls fuel (callno s pr) else None) with (@None (M Z)).
  2: { destruct (0 <? callno s pr); [|done]. by rewrite syscalls_None. }
  eexists. split; [done|]. split; [|split].
  - by rewrite reg_store.
  - intros a Ha. exact (load8_store_le 8 (mem s) (trapframe pr + TF_A0) (-1) a Ha).
  - done.
Qed.

(** ** Priorities *)

Lemma setpriority_loop pid_ prio n k e s :
  (k + n = length (procs s))%nat ->
  for_first (seq k n) (setpriority_body pid_ prio) e s =
  match SchedCommon.find_loop pid (drop k (procs s)) k pid_ with
  | Some i => Ret (Some 0) e (with_proc (fun pr => pr <| priority := prio |>) i s)
  | None => Ret None e s
  end.
Proof.
  revert k. induction n as [|n IH]; intros k Hk.
  - rewrite drop_ge by lia. done.
  - destruct (lookup_lt_is_Some_2 (procs s) k ltac:(lia)) as [q Hq].
    cbn [seq for_first]. rewrite bindE. unfold setpriority_body at 1.
    rewrite bindE, (get_proc_Ret k e s q) by done.
    rewrite (drop_S _ q k) by done. cbn [SchedCommon.find_loop].
    destruct (pid q =? pid_); [|cbn [mret M_ret]; by rewrite IH by lia].
    by rewrite bindE, (set_proc_with _ k e s q) by done.
Qed.

Lemma sys_setpriority_Ret e s p pr :
  calling s p pr ->
  sys_setpriority e s =
  if (arg32 s pr 0 <? 0) || (arg32 s pr 1 <? 0) then Ret (-1) e (left_off s)
  else match first_pid (procs s) (arg32 s pr 0) with
       | Some i => Ret 0 e (with_proc (fun q => q <| priority := arg32 s pr 1 |>) i (left_off s))
       | None => Ret (-1) e (left_off s)
       end.
Proof.
  intros H. assert (Hlen : length (procs s) = NPROC) by apply H.
  unfold sys_setpriority. rewrite bindE, (argint_Ret 0 e s p pr) by (done || lia).
  rewrite bindE, (argint_again 1 e s p pr) by (done || lia).
  destruct (_ || _); [done|]. rewrite bindE. change proc_table with (seq 0 NPROC).
  rewrite setpriority_loop by (change (procs (left_off s)) with (procs s); lia).
  rewrite drop_0. unfold first_pid. change (procs (left_off s)) with (procs s).
  by destruct (SchedCommon.find_loop _ _ _ _).
Qed.

(** The [setpriority] call, from the trap to the result register: with a
    negative argument or an identifier no process has, [a0] is -1 and the
    table is unchanged; otherwise the first process with the identifier, and
    no other, gets the priority, and [a0] is 0. *)
Theorem setpriority_call (fuel : nat) (e : env) (s : mach) (p : nat) (pr : proc) :
  calling s p pr -> callno s pr = 23 ->
  exists s', syscall fuel e s = Ret tt e s' /\ locks s' = locks s /\ files s' = files s /\
    let pid_ := arg32 s pr 0 in
    let prio := arg32 s pr 1 in
    ((pid_ < 0 \/ prio < 0 \/ Forall (fun q => pid q <> pid_) (procs s)) /\
       reg s' pr 0 = 2 ^ 64 - 1 /\ procs s' = procs s) \/
    (exists i q, 0 <= pid_ /\ 0 <= prio /\ procs s !! i = Some q /\ pid q = pid_ /\
       (forall j q', (j < i)%nat -> procs s !! j = Some q' -> pid q' <> pid_) /\
       reg s' pr 0 = 0 /\ procs s' !! i = Some (q <| priority := prio |>) /\
       forall j, j <> i -> procs s' !! j = procs s !! j).
Proof.
  intros H Hn. rewrite (syscall_enter fuel e s p pr), Hn by done. cbn [Z.ltb Z.compare syscalls].
  rewrite bindE, (sys_setpriority_Ret e (left_off s) p pr) by by apply calling_left_off.
  rewrite left_off_idem by apply H.
  change (arg32 (left_off s) pr) with (arg32 s pr). change (procs (left_off s)) with (procs s).
  destruct ((arg32 s pr 0 <? 0) || (arg32 s pr 1 <? 0)) eqn:Hneg.
  - rewrite bindE, (get_proc_Ret p e (left_off s) pr) by apply H. cbn [store_word modify].
    eexists. split; [done|]. split; [done|]. split; [done|]. left. split; [|split; [|done]].
    + apply orb_true_iff in Hneg as [?%Z.ltb_lt|?%Z.ltb_lt]; auto.
    + by rewrite reg_store.
  - apply orb_false_iff in Hneg as [H0%Z.ltb_ge H1%Z.ltb_ge].
    destruct (first_pid (procs s) (arg32 s pr 0)) as [i|] eqn:Hf.
    + apply SchedCommon.find_loop_first in Hf as (q & Hq & Hpid & Hb).
      set (g := fun q : proc => q <| priority := arg32 s pr 1 |>).
      destruct (with_proc_trapframe g i (left_off s) p pr) as (pr' & Hpr' & Htf); [done|apply H|].
      rewrite bindE, (get_proc_Ret p e _ pr') by done. cbn [store_word modify]. rewrite Htf.
      eexists. split; [done|]. split; [done|]. split; [done|]. right. exists i, q.
      do 5 (split; [done|]). split; [by rewrite reg_store|].
      split; [exact (lookup_with_proc g i (left_off s) q Hq)|].
      intros j Hj. cbn. by rewrite list_lookup_alter_ne.
    + rewrite bindE, (get_proc_Ret p e (left_off s) pr) by apply H. cbn [store_word modify].
      eexists. split; [done|]. split; [done|]. split; [done|]. left. split; [|split; [|done]].
      * right. right. by apply SchedCommon.find_loop_None in Hf.
      * by rewrite reg_store.
Qed.

(** ** Processor utilization *)

Lemma u64_add_l a b : u64 (u64 a + b) = u64 (a + b).
Proof. apply Zplus_mod_idemp_l. Qed.

Lemma times_loop_Ret n k total idle e s :
  (k + n = length (procs s))%nat ->
  times_loop (seq k n) (u64 total) (u64 idle) e s =
  Ret (u64 (total + sumZ total_time (drop k (procs s))),
       u64 (idle + sumZ idle_time (drop k (procs s)))) e s.
Proof.
  revert k total idle. induction n as [|n IH]; intros k total idle Hk.
  - rewrite drop_ge by lia. cbn [seq times_loop mret M_ret]. by rewrite !sumZ_nil, !Z.add_0_r.
  - destruct (lookup_lt_is_Some_2 (procs s) k ltac:(lia)) as [q Hq].
    cbn [seq times_loop]. rewrite bindE, (get_proc_Ret k e s q) by done.
    rewrite (drop_S _ q k) by done. rewrite !u64_add_l.
    rewrite IH by lia. by rewrite !sumZ_cons, !Z.add_assoc.
Qed.

(** [cpuutilization] reads the table and changes nothing.  It returns 0
    when no process was charged any time; when the idle time is within the
    total and the product by 100 fits 64 bits, it returns the share of the
    total time that was not idle in percent, rounded down, between 0 and
    100. *)
Theorem cpuutilization_percent (e : env) (s : mach) :
  length (procs s) = NPROC ->
  let total := sumZ total_time (procs s) in
  let idle := sumZ idle_time (procs s) in
  0 <= idle <= total -> total * 100 < 2 ^ 64 ->
  exists v, sys_cpuutilization e s = Ret v e s /\
    (total = 0 -> v = 0) /\ (0 < total -> v = (total - idle) * 100 / total) /\ 0 <= v <= 100.
Proof.
  intros Hlen total idle Hidle Hmax. unfold sys_cpuutilization. rewrite bindE.
  change (times_loop proc_table 0 0) with (times_loop (seq 0 NPROC) (u64 0) (u64 0)).
  rewrite times_loop_Ret by lia. rewrite drop_0, !Z.add_0_l.
  fold total idle. rewrite !(u64_id total), !(u64_id idle) by lia. eexists. split; [done|].
  destruct (Z.eqb_spec total 0) as [Ht|Ht]; [split; [done|]; split; lia|].
  rewrite (u64_id (total - idle)), u64_id by lia. split; [done|]. split; [done|].
  split; [apply Z.div_pos; lia|]. apply Z.div_le_upper_bound; lia.
Qed.

(** ** Checked addresses *)

(** [fetchaddr] reads a word only when all its eight bytes lie below the
    size of the process: both tests are needed since the sum wraps around.
    Otherwise it fails at once, without touching memory.  Sizes of processes
    are at most [MAXVA]. *)
Theorem fetchaddr_checked (addr : Z) (e : env) (s : mach) (p : nat) (pr : proc) :
  calling s p pr -> 0 <= addr < 2 ^ 64 -> 0 <= sz pr <= MAXVA ->
  (sz pr < addr + 8 -> fetchaddr addr e s = Ret None e (left_off s)) /\
  (addr + 8 <= sz pr ->
   fetchaddr addr e s =
   (r ← copyin (pagetable pr) addr 8;
    mret (if negb (fst r =? 0) then None else Some (load64 (store_bytes ∅ 0 (snd r)) 0))) e (left_off s)).
Proof.
  intros H Ha Hs. assert (MAXVA = 2 ^ 38) by done. unfold fetchaddr. rewrite bindE, (calling_curproc e s p pr) by done.
  rewrite bindE, (get_proc_Ret p e (left_off s) pr) by apply H. split; intros Hb.
  - replace ((sz pr <=? addr) || (sz pr <? u64 (addr + 8))) with true; [done|]. symmetry.
    apply orb_true_iff. destruct (Z.leb_spec (sz pr) addr); [by left|right].
    rewrite u64_id by lia. by apply Z.ltb_lt.
  - replace ((sz pr <=? addr) || (sz pr <? u64 (addr + 8))) with false; [done|]. symmetry.
    apply orb_false_iff. rewrite u64_id by lia. split; [apply Z.leb_gt|apply Z.ltb_ge]; lia.
Qed.

(** ** Descriptors *)

(** The lowest free descriptor. *)
Definition lowest_free (fds : list (option nat)) : option nat :=
  SchedCommon.find_loop (fun o : option nat => if o then 0 else 1) fds 0 1.

Definition set_fd (fd f : nat) (pr : proc) : proc := pr <| ofile ::= <[fd := Some f]> |>.

Lemma fdalloc_loop p pr f n k e s :
  (k + n = length (ofile pr))%nat -> procs s !! p = Some pr ->
  for_first (seq k n) (fdalloc_body p f) e s =
  match SchedCommon.find_loop (fun o : option nat => if o then 0 else 1) (drop k (ofile pr)) k 1 with
  | Some fd => Ret (Some (Z.of_nat fd)) e (with_proc (set_fd fd f) p s)
  | None => Ret None e s
  end.
Proof.
  intros Hk Hp. revert k Hk. induction n as [|n IH]; intros k Hk.
  - rewrite drop_ge by lia. done.
  - destruct (lookup_lt_is_Some_2 (ofile pr) k ltac:(lia)) as [o Ho].
    cbn [seq for_first]. rewrite bindE. unfold fdalloc_body at 1.
    rewrite bindE, (get_proc_Ret p e s pr), bindE, Ho by done. cbn [or_fault mret M_ret].
    rewrite (drop_S _ o k) by done. cbn [SchedCommon.find_loop].
    destruct o as [g|]; [change (0 =? 1) with false; cbn [mret M_ret]; by rewrite IH by lia|].
    by rewrite bindE, (set_proc_with _ p e s pr) by done.
Qed.

Lemma fdalloc_Ret f e s p pr :
  calling s p pr -> length (ofile pr) = NOFILE ->
  fdalloc f e s =
  match lowest_free (ofile pr) with
  | Some fd => Ret (Z.of_nat fd) e (with_proc (set_fd fd f) p (left_off s))
  | None => Ret (-1) e (left_off s)
  end.
Proof.
  intros H Hlen. unfold fdalloc. rewrite bindE, (calling_curproc e s p pr) by done.
  rewrite bindE, (fdalloc_loop p pr) by (done || apply H). rewrite drop_0. unfold lowest_free.
  by destruct (SchedCommon.find_loop _ _ _ _).
Qed.

Lemma argfd_Ret n e s p pr :
  calling s p pr -> 0 <= n <= 5 -> length (ofile pr) = NOFILE ->
  argfd n e s =
  Ret (if arg32 s pr n <? 0 then None
       else match ofile pr !! Z.to_nat (arg32 s pr n) with
            | Some (Some f) => Some (Z.to_nat (arg32 s pr n), f)
            | _ => None
            end) e (left_off s).
Proof.
  intros H Hn Hlen. unfold argfd. rewrite bindE, (argint_Ret n e s p pr) by done.
  destruct (Z.ltb_spec (arg32 s pr n) 0) as [|Hfd]; [done|]. cbn [orb].
  destruct (Z.leb_spec (Z.of_nat NOFILE) (arg32 s pr n)) as [Hge|Hlt].
  - rewrite lookup_ge_None_2 by lia. done.
  - rewrite bindE, (calling_again e s p pr) by done.
    by rewrite bindE, (get_proc_Ret p e (left_off s) pr) by apply H.
Qed.

(** [dup].  With a descriptor that is not open it returns -1; with all
    descriptors in use it returns -1; in both cases nothing changes.
    Otherwise the lowest free descriptor is returned and names the same open
    file, whose reference count goes up by one; no other descriptor, file or
    process changes. *)
Theorem dup_lowest (e : env) (s : mach) (p : nat) (pr : proc) :
  calling s p pr -> files_ready s -> length (ofile pr) = NOFILE ->
  let fd := arg32 s pr 0 in
  ((fd < 0 \/ ofile pr !! Z.to_nat fd = None \/ ofile pr !! Z.to_nat fd = Some None \/
    lowest_free (ofile pr) = None) -> sys_dup e s = Ret (-1) e (left_off s)) /\
  (forall f fl fd', 0 <= fd -> ofile pr !! Z.to_nat fd = Some (Some f) ->
     files s !! f = Some fl -> 1 <= ref fl -> lowest_free (ofile pr) = Some fd' ->
     exists s', sys_dup e s = Ret (Z.of_nat fd') e s' /\
       procs s' !! p = Some (set_fd fd' f pr) /\ ofile pr !! fd' = Some None /\
       (forall j, (j < fd')%nat -> ofile pr !! j <> Some None) /\
       files s' !! f = Some (fl <| ref := ref fl + 1 |>) /\
       (forall j, j <> p -> procs s' !! j = procs s !! j) /\
       (forall g, g <> f -> files s' !! g = files s !! g) /\ locks s' = locks s).
Proof.
  intros H Hfr Hlen fd. unfold sys_dup. rewrite bindE, (argfd_Ret 0 e s p pr) by (done || lia).
  fold fd.
  assert (Hfd : forall f, fdalloc f e (left_off s) =
     match lowest_free (ofile pr) with
     | Some fd => Ret (Z.of_nat fd) e (with_proc (set_fd fd f) p (left_off s))
     | None => Ret (-1) e (left_off s)
     end).
  { intros f. rewrite (fdalloc_Ret f e (left_off s) p pr) by (done || by apply calling_left_off).
    by rewrite left_off_idem by apply H. }
  split.
  - intros Hbad. destruct (Z.ltb_spec fd 0) as [|Hfd0]; [done|].
    destruct (ofile pr !! Z.to_nat fd) as [[f|]|]; [|done..].
    destruct Hbad as [?|[?|[?|Hb]]]; [lia|done|done|]. by rewrite bindE, Hfd, Hb.
  - intros f fl fd' H0 Ho Hf Hr Hb. rewrite (proj2 (Z.ltb_ge fd 0)), Ho by lia.
    rewrite bindE, Hfd, Hb. rewrite (proj2 (Z.ltb_ge (Z.of_nat fd') 0)) by lia.
    set (t := with_proc (set_fd fd' f) p s).
    change (with_proc (set_fd fd' f) p (left_off s)) with (left_off t).
    rewrite bindE, (filedup_Ret f e (left_off t) fl);
      [|exact (hart_ok_left_off t (proj1 Hfr))|apply Hfr|done].
    rewrite (proj2 (Z.ltb_ge (ref fl) 1)) by lia.
    apply SchedCommon.find_loop_first in Hb as (o & Ho' & Hk & Hbefore).
    eexists. split; [done|]. split; [exact (lookup_with_proc _ _ s _ (proj2 (proj2 H)))|].
    split; [by destruct o|]. split.
    { intros j Hj Hjo. by specialize (Hbefore j None Hj Hjo). }
    split; [cbn; by rewrite list_lookup_alter_eq, Hf|].
    split; [intros j Hj; cbn; by rewrite list_lookup_alter_ne|].
    split; [intros g Hg; cbn; by rewrite list_lookup_alter_ne|done].
Qed.

End calls.

(** ** An example: process 0 makes call [no] with arguments [a] and [b] *)

Definition caller : proc :=
  running <| trapframe := KERNBASE |> <| sz := 2 * PGSIZE |> <| ofile ::= <[3%nat := Some 7%nat]> |>.

Definition machine_call (no a b : Z) : mach :=
  machine0 <| procs ::= <[0%nat := caller]> |>
    <| files ::= <[7%nat := mkFile FD_PIPE 1 1 0 0 None 0 0]> |>
    <| mem := store64 (store64 (store64 ∅ (KERNBASE + TF_A7) no) (KERNBASE + TF_A0) a)
                (KERNBASE + TF_A0 + 8) b |>.

Lemma machine_call_calling no a b : calling (machine_call no a b) 0 caller.
Proof.
  split; [split; [|split]|done].
  - eexists. split; [reflexivity|]. split; [cbn; lia|]. cbn. lia.
  - reflexivity.
  - apply table_locks_free. vm_compute. reflexivity.
Qed.

#[global] Instance no_tagged : TaggedPipe :=
  {| pipe_tagged_alloc := mret None; pipetagged_write := fun _ _ _ _ => mret (-1);
     pipe_tagged_read := fun _ _ _ _ => mret (-1); sys_pipe_tagged_write := mret (-1) |}.

#[global] Instance no_paths : PathCalls :=
  {| exec := fun _ _ => mret (-1); sys_chdir := mret (-1); sys_open := mret (-1);
     sys_mknod := mret (-1); sys_unlink := mret (-1); sys_link := mret (-1); sys_mkdir := mret (-1) |}.

Lemma syscall_unknown_witness :
  exists s', @syscall eight_pages no_fs no_tagged no_paths 1 [] (machine_call 77 0 0) = Ret tt [] s' /\
    reg s' caller 0 = 2 ^ 64 - 1.
Proof.
  destruct (@syscall_unknown eight_pages no_fs no_tagged no_paths 1 [] (machine_call 77 0 0) 0 caller)
    as (s' & H1 & H2 & _).
  - apply machine_call_calling.
  - vm_compute. intros [_ H]. by apply H.
  - exists s'. split; [exact H1|exact H2].
Defined.

(** Process 2 is in slot 1. *)
Lemma setpriority_call_witness :
  exists s', @syscall eight_pages no_fs no_tagged no_paths 1 [] (machine_call 23 2 5) = Ret tt [] s' /\
    procs s' !! 1%nat = Some (sleeper <| priority := 5 |>).
Proof.
  destruct (@setpriority_call eight_pages no_fs no_tagged no_paths 1 [] (machine_call 23 2 5) 0 caller)
    as (s' & H1 & _ & _ & H).
  - apply machine_call_calling.
  - vm_compute. reflexivity.
  - exists s'. split; [exact H1|].
    change (arg32 (machine_call 23 2 5) caller 0) with 2 in H.
    change (arg32 (machine_call 23 2 5) caller 1) with 5 in H.
    destruct H as [[[H|[H|H]] _]|(i & q & _ & _ & H2 & H3 & H4 & _ & H5 & _)]; [lia|lia| |].
    + exfalso. apply (Forall_lookup_1 _ _ 1%nat sleeper H); reflexivity.
    + destruct i as [|[|i]].
      * injection H2 as <-. discriminate H3.
      * injection H2 as <-. exact H5.
      * exfalso. apply (H4 1%nat sleeper); [lia|reflexivity|reflexivity].
Defined.

Lemma cpuutilization_percent_witness :
  exists v, sys_cpuutilization [] (machine0 <| procs ::= alter (fun q => q <| total_time := 8 |>
      <| idle_time := 2 |>) 0%nat |>) =
    Ret v [] (machine0 <| procs ::= alter (fun q => q <| total_time := 8 |> <| idle_time := 2 |>) 0%nat |>)
    /\ v = 75.
Proof.
  destruct (cpuutilization_percent [] (machine0 <| procs ::= alter (fun q => q <| total_time := 8 |>
      <| idle_time := 2 |>) 0%nat |>)) as (v & H1 & _ & H2 & _).
  - reflexivity.
  - vm_compute. split; discriminate.
  - vm_compute. reflexivity.
  - exists v. split; [exact H1|]. rewrite (H2 eq_refl). vm_compute. reflexivity.
Defined.

(** The size is two pages. *)
Lemma fetchaddr_checked_witness :
  fetchaddr (2 * PGSIZE - 4) [] (machine_call 0 0 0) = Ret None [] (left_off (machine_call 0 0 0)).
Proof.
  destruct (fetchaddr_checked (2 * PGSIZE - 4) [] (machine_call 0 0 0) 0 caller) as [H _].
  - apply machine_call_calling.
  - vm_compute. split; [discriminate|reflexivity].
  - vm_compute. split; discriminate.
  - apply H. vm_compute. reflexivity.
Defined.

(** Descriptor 3 is file 7; the lowest free one is 0. *)
Lemma dup_lowest_witness :
  exists s', sys_dup [] (machine_call 10 3 0) = Ret 0 [] s' /\
    procs s' !! 0%nat = Some (set_fd 0 7 caller).
Proof.
  destruct (dup_lowest [] (machine_call 10 3 0) 0 caller (machine_call_calling _ _ _)) as [_ H].
  - split; [apply machine_call_calling|]. split; [|reflexivity].
    apply is_free_sound. vm_compute. reflexivity.
  - reflexivity.
  - destruct (H 7%nat (mkFile FD_PIPE 1 1 0 0 None 0 0) 0%nat) as (s' & H1 & H2 & _).
    + vm_compute. discriminate.
    + vm_compute. reflexivity.
    + vm_compute. reflexivity.
    + vm_compute. discriminate.
    + vm_compute. reflexivity.
    + exists s'. split; [exact H1|exact H2].
Defined.
