(* ===== verification/Exec.v ===== *)
(** * Loading programs

    Model of [kernel/exec.c].  The ELF headers ([kernel/elf.h]) are lists of
    bytes read from the file.  [exec] is cut at its labels: loading the
    segments, pushing the arguments, the end, and [bad]. *)
From stdpp Require Import base tactics list numbers gmap strings.
From S2P Require Import Prelude Machine Spinlock StringC Sched Blocks Bio Log Vm File Proc Fs Syscall.

Open Scope Z_scope.

(** ** [kernel/elf.h] *)

Definition ELF_MAGIC : Z := 0x464C457F.
Definition ELFHDR : Z := 64.
Definition PROGHDR : Z := 56.
Definition ELF_PROG_LOAD : Z := 1.
Definition USERSTACK : Z := 1.

Definition e_magic (d : list Z) : Z := get_word 4 d 0.
Definition e_entry (d : list Z) : Z := get_word 8 d 24.
Definition e_phoff (d : list Z) : Z := get_word 8 d 32.
Definition e_phnum (d : list Z) : Z := get_word 2 d 56.

Definition ph_type (d : list Z) : Z := get_word 4 d 0.
Definition ph_flags (d : list Z) : Z := get_word 4 d 4.
Definition ph_off (d : list Z) : Z := get_word 8 d 8.
Definition ph_vaddr (d : list Z) : Z := get_word 8 d 16.
Definition ph_filesz (d : list Z) : Z := get_word 8 d 32.
Definition ph_memsz (d : list Z) : Z := get_word 8 d 40.

Definition flags2perm (flags : Z) : Z :=
  let perm := if negb (Z.land flags 1 =? 0) then PTE_X else 0 in
  if negb (Z.land flags 2 =? 0) then Z.lor perm PTE_W else perm.

(** [path] after its last slash. *)
Fixpoint last_name (path last : list Z) : list Z :=
  match path with
  | [] => last
  | c :: path => if c =? SLASH then last_name path path else last_name path last
  end.

Section exec.
Context `{LK : Linker} `{DK : Disk} (fuel : nat).

(** One iteration of the loop of [loadseg]. *)
Definition loadseg_step (pagetable va : Z) (ip : nat) (offset sz i : Z) : M (Z + Z) :=
  if i <? sz then
    pa ← walkaddr pagetable (u64 (va + i));
    if pa =? 0 then panic "loadseg: address should exist"%string
    else
      let n := if u32 (sz - i) <? PGSIZE then u32 (sz - i) else PGSIZE in
      r ← readi fuel ip false pa (u32 (offset + i)) n;
      if negb (u32 r =? n) then mret (inr (-1)) else mret (inl (u32 (i + PGSIZE)))
  else mret (inr 0).

Definition loadseg (pagetable va : Z) (ip : nat) (offset sz : Z) : M Z :=
  loop fuel (loadseg_step pagetable va ip offset sz) 0.

(** One program header; the state is [sz], and [inr] leads to [bad] with it. *)
Definition exec_segment (ip : nat) (pagetable off sz : Z) : M (Z + Z) :=
  r ← readi_local fuel ip (u32 off) PROGHDR;
  let ph := snd r in
  if negb (fst r =? PROGHDR) then mret (inr sz)
  else if negb (ph_type ph =? ELF_PROG_LOAD) then mret (inl sz)
  else if ph_memsz ph <? ph_filesz ph then mret (inr sz)
  else if u64 (ph_vaddr ph + ph_memsz ph) <? ph_vaddr ph then mret (inr sz)
  else if negb (ph_vaddr ph mod PGSIZE =? 0) then mret (inr sz)
  else
    sz1 ← uvmalloc pagetable sz (u64 (ph_vaddr ph + ph_memsz ph)) (flags2perm (ph_flags ph));
    if sz1 =? 0 then mret (inr sz)
    else
      r ← loadseg pagetable (ph_vaddr ph) ip (u32 (ph_off ph)) (u32 (ph_filesz ph));
      if r <? 0 then mret (inr sz1) else mret (inl sz1).

Fixpoint exec_segments (n : nat) (ip : nat) (pagetable off sz : Z) : M (Z + Z) :=
  match n with
  | O => mret (inl sz)
  | S n =>
      r ← exec_segment ip pagetable off sz;
      match r with
      | inl sz => exec_segments n ip pagetable (off + PROGHDR) sz
      | inr sz => mret (inr sz)
      end
  end.

(** The label [bad]; [ip] is [None] once the inode has been released. *)
Definition exec_bad (pagetable sz : Z) (ip : option nat) : M Z :=
  when (negb (pagetable =? 0)) (proc_freepagetable pagetable sz);;
  match ip with
  | Some i => iunlockput fuel (Some i);; Log.end_op fuel
  | None => mret tt
  end;;
  mret (-1).

(** Push the argument strings; [None] leads to [bad]. *)
Fixpoint push_args (pagetable stackbase : Z) (argv : list Z) (sp : Z) (ustack : list Z) : M (option (Z * list Z)) :=
  match argv with
  | [] => mret (Some (sp, ustack))
  | a :: argv =>
      if (MAXARG <=? length ustack)%nat then mret None
      else
        s ← read id;
        n ← or_fault (strlen (S fuel) (mem s) a);
        let sp := u64 (sp - (n + 1)) in
        let sp := u64 (sp - sp mod 16) in
        if sp <? stackbase then mret None
        else
          r ← copyout pagetable sp (load_bytes (mem s) a (n + 1));
          if r <? 0 then mret None
          else push_args pagetable stackbase argv sp (ustack ++ [sp])
  end.

(** From the arguments on: the stack pointer, or [None] for [bad]. *)
Definition exec_stack (pagetable sz : Z) (argv : list Z) : M (option Z) :=
  uvmclear pagetable (u64 (sz - (USERSTACK + 1) * PGSIZE));;
  let stackbase := u64 (sz - USERSTACK * PGSIZE) in
  r ← push_args pagetable stackbase argv sz [];
  match r with
  | None => mret None
  | Some (sp, ustack) =>
      let argc := Z.of_nat (length ustack) in
      let sp := u64 (sp - (argc + 1) * 8) in
      let sp := u64 (sp - sp mod 16) in
      if sp <? stackbase then mret None
      else
        r ← copyout pagetable sp (concat (le_bytes 8 <$> (ustack ++ [0])));
        if r <? 0 then mret None else mret (Some sp)
  end.

(** Commit to the new image. *)
Definition exec_commit (p : nat) (path : list Z) (pt newsz entry_ sp oldsz argc : Z) : M Z :=
  pr ← get_proc p;
  store_word (trapframe pr + TF_A0 + 8) sp;;
  set_proc p (fun pr => pr <| name ::= fun n =>
    safestrcpy n 0 (store_bytes ∅ 0 (last_name path path ++ [0])) 0 16 |>);;
  set_proc p (fun pr => pr <| pagetable := pt |>);;
  set_proc p (fun pr => pr <| sz := newsz |>);;
  store_word (trapframe pr + TF_EPC) entry_;;
  store_word (trapframe pr + TF_SP) sp;;
  proc_freepagetable (pagetable pr) oldsz;;
  mret argc.

(** After the file is closed. *)
Definition exec_image (path argv : list Z) (pagetable sz entry_ : Z) : M Z :=
  p ← curproc;
  pr ← get_proc p;
  let oldsz := Machine.sz pr in
  let sz := PGROUNDUP sz in
  sz1 ← uvmalloc pagetable sz (u64 (sz + (USERSTACK + 1) * PGSIZE)) PTE_W;
  if sz1 =? 0 then exec_bad pagetable sz None
  else
    r ← exec_stack pagetable sz1 argv;
    match r with
    | None => exec_bad pagetable sz1 None
    | Some sp => exec_commit p path pagetable sz1 entry_ sp oldsz (Z.of_nat (length argv))
    end.

Definition exec (path argv : list Z) : M Z :=
  p ← curproc;
  Log.begin_op fuel;;
  ip ← namei fuel path;
  match ip with
  | None => Log.end_op fuel;; mret (-1)
  | Some i =>
      ilock fuel (Some i);;
      r ← readi_local fuel i 0 ELFHDR;
      let elf := snd r in
      if negb (fst r =? ELFHDR) then exec_bad 0 0 (Some i)
      else if negb (e_magic elf =? ELF_MAGIC) then exec_bad 0 0 (Some i)
      else
        pagetable ← proc_pagetable p;
        if pagetable =? 0 then exec_bad 0 0 (Some i)
        else
          r ← exec_segments (Z.to_nat (e_phnum elf)) i pagetable (i32 (e_phoff elf)) 0;
          match r with
          | inr sz => exec_bad pagetable sz (Some i)
          | inl sz =>
              iunlockput fuel (Some i);;
              Log.end_op fuel;;
              exec_image path argv pagetable sz (e_entry elf)
          end
  end.

End exec.
