(* ===== verification/SysPath.v ===== *)
(** * System calls on paths

    Model of the part of [kernel/sysfile.c] that works on paths, and the
    models of [fs.c], [log.c] and [exec.c] as implementations of the
    interfaces that the layers of open files, processes and system calls are
    written against. *)
From stdpp Require Import base tactics list numbers gmap strings.
From S2P Require Import Prelude Machine Spinlock Sched Blocks Bio Log Vm File Proc Fs Syscall Exec.

Open Scope Z_scope.

(** The device switch: the functions of each major number. *)
Class Devices : Type := {
  dev_read : Z -> option (Z -> Z -> M Z);
  dev_write : Z -> option (Z -> Z -> M Z)
}.

(** The file system as [File] and [Proc] use it. *)
#[global] Instance fs_ops `{DK : Disk} `{DV : Devices} (fuel : nat) : FsOps := {|
  File.idup := Fs.idup;
  File.iput := Fs.iput fuel;
  File.begin_op := Log.begin_op fuel;
  File.end_op := Log.end_op fuel;
  File.namei := fun path => Fs.namei fuel (path_bytes path);
  File.ilock := Fs.ilock fuel;
  File.iunlock := Fs.iunlock;
  File.stati := fun ip => i ← or_fault ip; Fs.stati i;
  File.readi := fun ip dst off n => i ← or_fault ip; Fs.readi fuel i true dst off n;
  File.writei := fun ip src off n => i ← or_fault ip; Fs.writei fuel i true src off n;
  File.devread := dev_read;
  File.devwrite := dev_write
|}.

Definition O_RDONLY : Z := 0.
Definition O_WRONLY : Z := 1.
Definition O_RDWR : Z := 2.
Definition O_CREATE : Z := 0x200.
Definition O_TRUNC : Z := 0x400.

Definition flag (omode bit : Z) : bool := negb (Z.land omode bit =? 0).

Section paths.
Context `{LK : Linker} `{DK : Disk} `{DV : Devices} (fuel : nat).

#[local] Existing Instance fs_ops.
#[local] Instance fs_ops_here : FsOps := fs_ops fuel.

Definition add_nlink (i : nat) (d : Z) : M unit := set_inode i (fun ip => ip <| nlink := i16 (nlink ip + d) |>).

(** The label [bad] of [sys_link]. *)
Definition link_bad (ip : nat) : M Z :=
  Fs.ilock fuel (Some ip);;
  add_nlink ip (-1);;
  iupdate fuel ip;;
  iunlockput fuel (Some ip);;
  Log.end_op fuel;;
  mret (-1).

Definition sys_link : M Z :=
  old ← argstr 0 MAXPATH;
  new ← (match old with Some _ => argstr 1 MAXPATH | None => mret None end);
  match old, new with
  | Some old, Some new =>
      Log.begin_op fuel;;
      ip ← Fs.namei fuel old;
      match ip with
      | None => Log.end_op fuel;; mret (-1)
      | Some ip =>
          Fs.ilock fuel (Some ip);;
          i ← get_inode ip;
          if itype i =? T_DIR then iunlockput fuel (Some ip);; Log.end_op fuel;; mret (-1)
          else
            add_nlink ip 1;;
            iupdate fuel ip;;
            Fs.iunlock (Some ip);;
            r ← nameiparent fuel new;
            match fst r with
            | None => link_bad ip
            | Some dp =>
                Fs.ilock fuel (Some dp);;
                d ← get_inode dp;
                i ← get_inode ip;
                l ← (if negb (idev d =? idev i) then mret (-1) else dirlink fuel dp (snd r) (inum i));
                if l <? 0 then iunlockput fuel (Some dp);; link_bad ip
                else
                  iunlockput fuel (Some dp);;
                  Fs.iput fuel (Some ip);;
                  Log.end_op fuel;;
                  mret 0
            end
      end
  | _, _ => mret (-1)
  end.

(** The loop of [isdirempty]: [Some] when an entry is in use. *)
Definition isdirempty_body (dp : nat) (k : nat) : M (option unit) :=
  r ← readi_local fuel dp (Z.of_nat k * DIRENT) DIRENT;
  if negb (fst r =? DIRENT) then panic "isdirempty: readi"%string
  else if negb (de_inum (snd r) =? 0) then mret (Some tt) else mret None.

Definition isdirempty (dp : nat) : M bool :=
  d ← get_inode dp;
  r ← for_first (drop 2 (dirents (isize d))) (isdirempty_body dp);
  mret (match r with Some _ => false | None => true end).

(** The label [bad] of [sys_unlink]. *)
Definition unlink_bad (dp : nat) : M Z :=
  iunlockput fuel (Some dp);;
  Log.end_op fuel;;
  mret (-1).

Definition dot : list Z := [46].
Definition dotdot : list Z := [46; 46].

(** [sys_unlink] once the entry at [off] of [dp] is found; both are locked. *)
Definition unlink_entry (dp ip : nat) (off : Z) : M Z :=
  i ← get_inode ip;
  if nlink i <? 1 then panic "unlink: nlink < 1"%string
  else
    e ← (if itype i =? T_DIR then isdirempty ip else mret true);
    if negb e then iunlockput fuel (Some ip);; unlink_bad dp
    else
      w ← writei_local fuel dp (replicate (Z.to_nat DIRENT) 0) off;
      if negb (w =? DIRENT) then panic "unlink: writei"%string
      else
        when (itype i =? T_DIR) (add_nlink dp (-1);; iupdate fuel dp);;
        iunlockput fuel (Some dp);;
        add_nlink ip (-1);;
        iupdate fuel ip;;
        iunlockput fuel (Some ip);;
        Log.end_op fuel;;
        mret 0.

Definition sys_unlink : M Z :=
  path ← argstr 0 MAXPATH;
  match path with
  | None => mret (-1)
  | Some path =>
      Log.begin_op fuel;;
      r ← nameiparent fuel path;
      match r with
      | (None, _) => Log.end_op fuel;; mret (-1)
      | (Some dp, name) =>
          Fs.ilock fuel (Some dp);;
          if (namecmp name dot =? 0) || (namecmp name dotdot =? 0) then unlink_bad dp
          else
            e ← dirlookup fuel dp name;
            match e with
            | None => unlink_bad dp
            | Some (ip, off) => Fs.ilock fuel (Some ip);; unlink_entry dp ip off
            end
      end
  end.

(** The label [fail] of [create]. *)
Definition create_fail (dp ip : nat) : M (option nat) :=
  set_inode ip (fun i => i <| nlink := 0 |>);;
  iupdate fuel ip;;
  iunlockput fuel (Some ip);;
  iunlockput fuel (Some dp);;
  mret None.

(** [create] once a new inode [ip] is allocated; [dp] is locked. *)
Definition create_new (dp ip : nat) (name : list Z) (type major minor : Z) : M (option nat) :=
  Fs.ilock fuel (Some ip);;
  set_inode ip (fun i => i <| imajor := major |> <| iminor := minor |> <| nlink := 1 |>);;
  iupdate fuel ip;;
  i ← get_inode ip;
  d ← get_inode dp;
  ok ← (if type =? T_DIR then
          r ← dirlink fuel ip dot (inum i);
          if r <? 0 then mret false
          else r ← dirlink fuel ip dotdot (inum d); mret (negb (r <? 0))
        else mret true);
  if negb ok then create_fail dp ip
  else
    r ← dirlink fuel dp name (inum i);
    if r <? 0 then create_fail dp ip
    else
      when (type =? T_DIR) (add_nlink dp 1;; iupdate fuel dp);;
      iunlockput fuel (Some dp);;
      mret (Some ip).

(** The locked inode, new or found, or [None]. *)
Definition create (path : list Z) (type major minor : Z) : M (option nat) :=
  r ← nameiparent fuel path;
  match r with
  | (None, _) => mret None
  | (Some dp, name) =>
      Fs.ilock fuel (Some dp);;
      e ← dirlookup fuel dp name;
      match e with
      | Some (ip, _) =>
          iunlockput fuel (Some dp);;
          Fs.ilock fuel (Some ip);;
          i ← get_inode ip;
          if (type =? T_FILE) && ((itype i =? T_FILE) || (itype i =? T_DEVICE)) then mret (Some ip)
          else iunlockput fuel (Some ip);; mret None
      | None =>
          d ← get_inode dp;
          ip ← ialloc fuel (idev d) type;
          match ip with
          | None => iunlockput fuel (Some dp);; mret None
          | Some ip => create_new dp ip name type major minor
          end
      end
  end.

(** [sys_open] with the inode [ip], which is locked. *)
Definition open_inode (ip : nat) (omode : Z) : M Z :=
  i ← get_inode ip;
  if (itype i =? T_DEVICE) && ((imajor i <? 0) || (NDEV <=? imajor i)) then
    iunlockput fuel (Some ip);; Log.end_op fuel;; mret (-1)
  else
    f ← filealloc;
    fd ← (match f with Some f => fdalloc f | None => mret (-1) end);
    match f with
    | None => iunlockput fuel (Some ip);; Log.end_op fuel;; mret (-1)
    | Some f =>
        if fd <? 0 then fileclose f;; iunlockput fuel (Some ip);; Log.end_op fuel;; mret (-1)
        else
          (if itype i =? T_DEVICE then
             set_file f (fun fl => fl <| type_ := FD_DEVICE |> <| major := imajor i |>)
           else set_file f (fun fl => fl <| type_ := FD_INODE |> <| off := 0 |>));;
          set_file f (fun fl => fl <| Machine.ip := Some ip |>
            <| readable := if flag omode O_WRONLY then 0 else 1 |>
            <| writable := if flag omode O_WRONLY || flag omode O_RDWR then 1 else 0 |>);;
          when (flag omode O_TRUNC && (itype i =? T_FILE)) (itrunc fuel ip);;
          Fs.iunlock (Some ip);;
          Log.end_op fuel;;
          mret fd
    end.

Definition sys_open : M Z :=
  omode ← argint 1;
  path ← argstr 0 MAXPATH;
  match path with
  | None => mret (-1)
  | Some path =>
      Log.begin_op fuel;;
      if flag omode O_CREATE then
        ip ← create path T_FILE 0 0;
        match ip with
        | None => Log.end_op fuel;; mret (-1)
        | Some ip => open_inode ip omode
        end
      else
        ip ← Fs.namei fuel path;
        match ip with
        | None => Log.end_op fuel;; mret (-1)
        | Some ip =>
            Fs.ilock fuel (Some ip);;
            i ← get_inode ip;
            if (itype i =? T_DIR) && negb (omode =? O_RDONLY) then
              iunlockput fuel (Some ip);; Log.end_op fuel;; mret (-1)
            else open_inode ip omode
        end
  end.

(** The common end of [sys_mkdir] and [sys_mknod]. *)
Definition made (ip : option nat) : M Z :=
  match ip with
  | None => Log.end_op fuel;; mret (-1)
  | Some ip => iunlockput fuel (Some ip);; Log.end_op fuel;; mret 0
  end.

Definition sys_mkdir : M Z :=
  Log.begin_op fuel;;
  path ← argstr 0 MAXPATH;
  ip ← (match path with Some path => create path T_DIR 0 0 | None => mret None end);
  made ip.

Definition sys_mknod : M Z :=
  Log.begin_op fuel;;
  major ← argint 1;
  minor ← argint 2;
  path ← argstr 0 MAXPATH;
  ip ← (match path with Some path => create path T_DEVICE (i16 major) (i16 minor) | None => mret None end);
  made ip.

Definition sys_chdir : M Z :=
  p ← curproc;
  Log.begin_op fuel;;
  path ← argstr 0 MAXPATH;
  ip ← (match path with Some path => Fs.namei fuel path | None => mret None end);
  match ip with
  | None => Log.end_op fuel;; mret (-1)
  | Some ip =>
      Fs.ilock fuel (Some ip);;
      i ← get_inode ip;
      if negb (itype i =? T_DIR) then iunlockput fuel (Some ip);; Log.end_op fuel;; mret (-1)
      else
        Fs.iunlock (Some ip);;
        pr ← get_proc p;
        Fs.iput fuel (cwd pr);;
        Log.end_op fuel;;
        set_proc p (fun pr => pr <| cwd := Some ip |>);;
        mret 0
  end.

(** The calls that [Syscall] dispatches to. *)
#[global] Instance path_calls : PathCalls := {|
  Syscall.exec := Exec.exec fuel;
  Syscall.sys_chdir := sys_chdir; Syscall.sys_open := sys_open; Syscall.sys_mknod := sys_mknod;
  Syscall.sys_unlink := sys_unlink; Syscall.sys_link := sys_link; Syscall.sys_mkdir := sys_mkdir
|}.

End paths.

(** ** The law that [fork] asks for *)

#[global] Instance fs_idup_law `{DK : Disk} `{DV : Devices} (fuel : nat) : @IdupLaw (fs_ops fuel).
Proof.
  intros i e s r e' s' Hn Hf. assert (Hok := nested_hart_ok _ Hn). cbn. unfold Fs.idup.
  rewrite bindE, acquire_Ret by done. destruct i as [i|]; [|done]. rewrite bindE. cbn [or_fault mret M_ret].
  rewrite bindE. set (g := fun ip : inode => ip <| iref := iref ip + 1 |>). unfold set_inode, get_inode. msimp.
  change (inodes (enter Litable s)) with (inodes s). destruct (inodes s !! i) as [ip|]; [|done]. msimp.
  rewrite (release_from Litable e _ (with_inodes (alter g i (inodes s)) s)) by done.
  rewrite nested_left_off_id by done. intros [= <- <- <-]. split; [done|]. split; [done|]. by eexists.
Qed.
