(* ===== verification/Console.v ===== *)
(** * The console

    Model of [kernel/console.c] and of [uartintr] of [kernel/uart.c], which
    feeds it the bytes of the serial line. *)
From stdpp Require Import base tactics list numbers gmap strings.
From S2P Require Import Prelude Machine Spinlock Wp Sched Vm File Proc Uart SysPath.

Open Scope Z_scope.

(** ** Code *)

Definition INPUT_BUF_SIZE : Z := 128.
Definition BACKSPACE : Z := 0x100.
Definition C (x : Z) : Z := x - 64.
Definition CTRL_D : Z := C 68.
Definition CTRL_H : Z := C 72.
Definition CTRL_P : Z := C 80.
Definition CTRL_U : Z := C 85.
Definition DEL : Z := 127.
Definition NL : Z := 10.
Definition CR : Z := 13.
Definition CONSOLE : Z := 1.

Definition slot (x : Z) : nat := Z.to_nat (x mod INPUT_BUF_SIZE).

Definition get_tty : M consbuf := read (fun s => tty (io s)).
Definition set_tty (f : consbuf -> consbuf) : M unit := modify (fun s => s <| io ::= fun d => d <| tty ::= f |> |>).

Section console.
Context (fuel : nat).

Definition consputc (c : Z) : M unit :=
  if c =? BACKSPACE then uartputc_sync fuel 8;; uartputc_sync fuel 32;; uartputc_sync fuel 8
  else uartputc_sync fuel c.

(** One iteration of the loop of [consolewrite]; the state is [i]. *)
Definition consolewrite_step (user_src : bool) (src n i : Z) : M (Z + Z) :=
  if i <? n then
    r ← either_copyin user_src (u64 (src + i)) 1;
    if fst r =? -1 then mret (inr i)
    else c ← or_fault (head (snd r)); uartputc fuel c;; mret (inl (i + 1))
  else mret (inr i).

Definition consolewrite (user_src : bool) (src n : Z) : M Z := loop fuel (consolewrite_step user_src src n) 0.

(** The loop of [consoleread] that waits for input; [false] when the process
    was killed. *)
Definition consoleread_wait (_ : unit) : M (unit + bool) :=
  c ← get_tty;
  if cr c =? cw c then
    p ← curproc;
    k ← killed p;
    if negb (k =? 0) then mret (inr false) else sleep ChCons Lcons;; mret (inl tt)
  else mret (inr true).

(** One iteration of the outer loop; the state is [dst] and [n], the result
    [None] stands for [return -1]. *)
Definition consoleread_step (user_dst : bool) (target : Z) (st : Z * Z) : M ((Z * Z) + option Z) :=
  let '(dst, n) := st in
  if 0 <? n then
    ok ← loop fuel consoleread_wait tt;
    if negb ok then mret (inr None)
    else
      t ← get_tty;
      c ← or_fault (cbuf t !! slot (cr t));
      set_tty (fun t => t <| cr ::= fun r => u32 (r + 1) |>);;
      if c =? CTRL_D then
        when (u32 n <? target) (set_tty (fun t => t <| cr ::= fun r => u32 (r - 1) |>));;
        mret (inr (Some n))
      else
        r ← either_copyout user_dst dst [c];
        if r =? -1 then mret (inr (Some n))
        else if c =? NL then mret (inr (Some (n - 1)))
        else mret (inl (u64 (dst + 1), n - 1))
  else mret (inr (Some n)).

Definition consoleread (user_dst : bool) (dst n : Z) : M Z :=
  let target := u32 n in
  acquire Lcons;;
  r ← loop fuel (consoleread_step user_dst target) (dst, n);
  release Lcons;;
  mret (match r with None => -1 | Some n => i32 (target - n) end).

(** The loop of the case [C('U')]. *)
Definition kill_line_step (_ : unit) : M (unit + unit) :=
  t ← get_tty;
  if ce t =? cw t then mret (inr tt)
  else
    c ← or_fault (cbuf t !! slot (u32 (ce t - 1)));
    if c =? NL then mret (inr tt)
    else
      set_tty (fun t => t <| ce ::= fun e => u32 (e - 1) |>);;
      consputc BACKSPACE;;
      mret (inl tt).

(** [cons.buf[cons.e++ % INPUT_BUF_SIZE] = c] *)
Definition type_char (c : Z) (t : consbuf) : consbuf :=
  t <| cbuf ::= <[slot (ce t) := u8 c]> |> <| ce ::= fun e => u32 (e + 1) |>.

(** The case [default]. *)
Definition input_char (c : Z) : M unit :=
  t ← get_tty;
  when (negb (c =? 0) && (u32 (ce t - cr t) <? INPUT_BUF_SIZE))
    (let c := if c =? CR then NL else c in
     consputc c;;
     set_tty (type_char c);;
     t ← get_tty;
     when ((c =? NL) || (c =? CTRL_D) || (u32 (ce t - cr t) =? INPUT_BUF_SIZE))
       (set_tty (fun t => t <| cw := ce t |>);;
        wakeup ChCons)).

Definition consoleintr (c : Z) : M unit :=
  acquire Lcons;;
  (if c =? CTRL_P then procdump;; mret tt
   else if c =? CTRL_U then loop fuel kill_line_step tt
   else if (c =? CTRL_H) || (c =? DEL) then
     t ← get_tty;
     when (negb (ce t =? cw t))
       (set_tty (fun t => t <| ce ::= fun e => u32 (e - 1) |>);;
        consputc BACKSPACE)
   else input_char c);;
  release Lcons.

(** The loop of [uartintr]. *)
Definition uartintr_step (_ : unit) : M (unit + unit) :=
  c ← uartgetc;
  if c =? -1 then mret (inr tt) else consoleintr c;; mret (inl tt).

Definition uartintr : M unit :=
  loop fuel uartintr_step tt;;
  acquire Luart;;
  uartstart fuel;;
  release Luart.

(** [devsw] is set by the instance below. *)
Definition consoleinit : M unit := initlock Lcons "cons";; uartinit.

#[global] Instance console_devices : Devices := {|
  dev_read := fun major => if major =? CONSOLE then Some (fun dst n => consoleread true dst n) else None;
  dev_write := fun major => if major =? CONSOLE then Some (fun src n => consolewrite true src n) else None
|}.

End console.
