(* ===== verification/ConsoleLine.v ===== *)
(** * What the console promises

    The input buffer as a line editor: the bytes that are ready to be read
    and the line that is being edited.  [consoleintr] is one key press,
    [uartintr] a sequence of them, and [consoleread] takes a line out. *)
From stdpp Require Import base tactics list numbers gmap strings.
From S2P Require Import Prelude Machine Spinlock Wp Sched Vm Pipe File Proc Uart SysPath Console.

Open Scope Z_scope.

(** ** The editor *)

Definition line : Type := list Z * list Z.

(** The buffer is full or the line is complete: what was typed is released. *)
Definition completes (c : Z) (q : line) : bool :=
  (c =? NL) || (c =? CTRL_D) || (Z.of_nat (length (q.1 ++ q.2)) + 1 =? INPUT_BUF_SIZE).

Definition takes (c : Z) (q : line) : bool :=
  negb (c =? 0) && (Z.of_nat (length (q.1 ++ q.2)) <? INPUT_BUF_SIZE).

Definition newline (c : Z) : Z := if c =? CR then NL else c.

Definition insert_char (c : Z) (q : line) : line :=
  if completes c q then (q.1 ++ q.2 ++ [c], []) else (q.1, q.2 ++ [c]).

Definition press (c : Z) (q : line) : line :=
  if c =? CTRL_P then q
  else if c =? CTRL_U then (q.1, [])
  else if (c =? CTRL_H) || (c =? DEL) then (q.1, removelast q.2)
  else if takes c q then insert_char (newline c) q else q.

(** What the key press sends to the terminal. *)
Definition rubout : list Z := [8; 32; 8].

Definition echo (c : Z) (q : line) : list Z :=
  if c =? CTRL_P then []
  else if c =? CTRL_U then concat (replicate (length q.2) rubout)
  else if (c =? CTRL_H) || (c =? DEL) then match q.2 with [] => [] | _ => rubout end
  else if takes c q then [newline c] else [].

(** The key press releases a line to the readers. *)
Definition releases (c : Z) (q : line) : bool :=
  negb (bool_decide (c ∈ [CTRL_P; CTRL_U; CTRL_H; DEL])) && takes c q && completes (newline c) q.

(** ** Representation *)

Record tty_raw (t : consbuf) (ready edit : list Z) : Prop := mkTtyRaw {
  tr_len : length (cbuf t) = 128%nat;
  tr_r : 0 <= cr t < 2 ^ 32;
  tr_w : cw t = u32 (cr t + Z.of_nat (length ready));
  tr_e : ce t = u32 (cr t + Z.of_nat (length (ready ++ edit)));
  tr_fit : (length (ready ++ edit) <= 128)%nat;
  tr_at : forall i c, (ready ++ edit) !! i = Some c -> cbuf t !! slot (cr t + Z.of_nat i) = Some c
}.

(** The line being edited has no end of line in it. *)
Definition tty_rep (t : consbuf) (q : line) : Prop :=
  tty_raw t q.1 q.2 /\ Forall (fun c => c <> NL /\ c <> CTRL_D) q.2.

Lemma slot_u32 x : slot (u32 x) = slot x.
Proof.
  unfold slot, u32, INPUT_BUF_SIZE. f_equal. symmetry. apply Znumtheory.Zmod_div_mod; [lia|lia|].
  exists (2 ^ 25). lia.
Qed.

Lemma slot_lt x : (slot x < 128)%nat.
Proof. unfold slot, INPUT_BUF_SIZE. pose proof (Z.mod_pos_bound x 128). lia. Qed.

Lemma slot_inj r i j : 0 <= i < 128 -> 0 <= j < 128 -> slot (r + i) = slot (r + j) -> i = j.
Proof.
  unfold slot, INPUT_BUF_SIZE. intros Hi Hj H.
  pose proof (Z.mod_pos_bound (r + i) 128). pose proof (Z.mod_pos_bound (r + j) 128).
  assert (E : (r + i) mod 128 = (r + j) mod 128) by lia.
  pose proof (Z.div_mod (r + i) 128). pose proof (Z.div_mod (r + j) 128). lia.
Qed.

Lemma u32_add_eq x n m : 0 <= n < 2 ^ 32 -> 0 <= m < 2 ^ 32 -> u32 (x + n) = u32 (x + m) <-> n = m.
Proof.
  intros Hn Hm. split; [|by intros ->]. unfold u32. intros E.
  pose proof (Z.div_mod (x + n) (2 ^ 32)). pose proof (Z.div_mod (x + m) (2 ^ 32)). lia.
Qed.

Lemma u32_succ x y : u32 (u32 x + y) = u32 (x + y).
Proof. unfold u32. apply Zplus_mod_idemp_l. Qed.

Lemma u32_sub x y n : 0 <= n < 2 ^ 32 -> y = u32 (x + n) -> u32 (y - x) = n.
Proof. intros Hn ->. unfold u32. rewrite Zminus_mod_idemp_l. replace (x + n - x) with n by lia. by apply Z.mod_small. Qed.

Section rep.
Context (t : consbuf) (ready edit : list Z) (H : tty_raw t ready edit).

Lemma raw_count : u32 (ce t - cr t) = Z.of_nat (length (ready ++ edit)).
Proof. destruct H. apply u32_sub; [lia|done]. Qed.

Lemma raw_edit_nil : (ce t =? cw t) = bool_decide (edit = []).
Proof.
  destruct H as [_ _ Hw He Hfit _]. rewrite Hw, He. rewrite length_app in Hfit |- *.
  destruct edit as [|c l].
  - rewrite bool_decide_true by done. apply Z.eqb_eq. f_equal. cbn. lia.
  - rewrite bool_decide_false by done. apply Z.eqb_neq. rewrite u32_add_eq by (cbn in *; lia). cbn. lia.
Qed.

Lemma raw_ready_nil : (cr t =? cw t) = bool_decide (ready = []).
Proof.
  destruct H as [_ Hr Hw _ Hfit _]. rewrite length_app in Hfit. rewrite Hw.
  replace (cr t) with (u32 (cr t + 0)) at 1 by (rewrite Z.add_0_r; by apply u32_id).
  destruct ready as [|c l].
  - rewrite bool_decide_true by done. by apply Z.eqb_eq.
  - rewrite bool_decide_false by done. apply Z.eqb_neq. rewrite u32_add_eq by (cbn in *; lia). cbn. lia.
Qed.

(** A byte at the end of the edited line. *)
Lemma raw_type c : 0 <= c < 256 -> (length (ready ++ edit) < 128)%nat -> tty_raw (type_char c t) ready (edit ++ [c]).
Proof.
  intros Hc Hlt. destruct H as [Hlen Hr Hw He Hfit Hat]. unfold type_char. split; cbn.
  - by rewrite length_insert.
  - done.
  - done.
  - rewrite He, u32_succ, app_assoc, (length_app _ [c]). f_equal. cbn. lia.
  - rewrite app_assoc, (length_app _ [c]). cbn. lia.
  - intros i x Hx. rewrite app_assoc in Hx. rewrite He, slot_u32. destruct (decide (i < length (ready ++ edit))%nat) as [Hi|Hi].
    + rewrite lookup_app_l in Hx by done. rewrite list_lookup_insert_ne; [by apply Hat|].
      intros E. apply slot_inj in E; lia.
    + rewrite lookup_app_r in Hx by lia. assert (i = length (ready ++ edit)) as ->.
      { apply lookup_lt_Some in Hx. cbn in Hx. lia. }
      rewrite Nat.sub_diag in Hx. injection Hx as <-. rewrite list_lookup_insert_eq by (rewrite Hlen; apply slot_lt).
      f_equal. unfold u8. by apply Z.mod_small.
Qed.

Lemma raw_commit : tty_raw (t <| cw := ce t |>) (ready ++ edit) [].
Proof.
  destruct H as [Hlen Hr Hw He Hfit Hat]. split; cbn; rewrite ?app_nil_r; done.
Qed.
End rep.

Lemma raw_erase t ready edit c : tty_raw t ready (edit ++ [c]) ->
  tty_raw (t <| ce ::= fun e => u32 (e - 1) |>) ready edit /\ cbuf t !! slot (u32 (ce t - 1)) = Some c.
Proof.
  intros [Hlen Hr Hw He Hfit Hat]. rewrite app_assoc, length_app in He, Hfit. cbn in He, Hfit.
  assert (E : u32 (ce t - 1) = u32 (cr t + Z.of_nat (length (ready ++ edit)))).
  { rewrite He. unfold u32. rewrite Zminus_mod_idemp_l. f_equal. lia. }
  split.
  - split; cbn; try done; [lia|]. intros i x Hx. apply Hat. rewrite app_assoc. by apply lookup_app_l_Some.
  - rewrite E, slot_u32. apply Hat. rewrite app_assoc. rewrite lookup_app_r by lia. by rewrite Nat.sub_diag.
Qed.

Lemma raw_take t c ready edit : tty_raw t (c :: ready) edit ->
  tty_raw (t <| cr ::= fun r => u32 (r + 1) |>) ready edit /\ cbuf t !! slot (cr t) = Some c.
Proof.
  intros [Hlen Hr Hw He Hfit Hat]. cbn in Hfit. split.
  - split; cbn; [done|apply u32_range| | |lia|].
    + rewrite Hw, u32_succ. f_equal. cbn. lia.
    + rewrite He, u32_succ. f_equal. cbn. lia.
    + intros i x Hx. rewrite <- (slot_u32 (u32 _ + _)), u32_succ, slot_u32.
      replace (cr t + 1 + Z.of_nat i) with (cr t + Z.of_nat (S i)) by lia. by apply Hat.
  - replace (cr t) with (cr t + Z.of_nat 0) by lia. by apply Hat.
Qed.

(** Taking back what was just taken. *)
Lemma raw_untake t c ready edit : tty_raw t (c :: ready) edit ->
  t <| cr ::= fun r => u32 (r + 1) |> <| cr ::= fun r => u32 (r - 1) |> = t.
Proof.
  intros [_ Hr _ _ _ _]. destruct t as [b r w e]. cbn in *. f_equal.
  unfold u32. rewrite Zminus_mod_idemp_l. replace (r + 1 - 1) with r by lia. by apply Z.mod_small.
Qed.

(** ** Key presses *)

Definition with_tty (b : consbuf) (s : mach) : mach := s <| io ::= fun d => d <| tty := b |> |>.

Lemma with_devices_same s : with_serial (serial (io s)) (with_tty (tty (io s)) s) = s.
Proof. destruct s as [? ? ? ? ? ? ? ? ? ? ? ? ? ? ? ? ? ? [? ? ? ? ? ?]]. done. Qed.

Lemma wp_set_tty f e s (Q : unit -> mach -> Prop) : Q tt (with_tty (f (tty (io s))) s) -> wp (set_tty f) e s Q.
Proof. intros H. eexists tt, _. split; [|exact H]. reflexivity. Qed.

Section keys.
Context (fuel : nat).

(** The serial device may be polled. *)
Definition polls (s : mach) : Prop := panicked (io s) = 0 /\ (length (tx_busy (serial (io s))) < fuel)%nat.

Lemma polls_prints l u s : prints l (serial (io s)) u -> polls s -> polls (with_serial u s).
Proof. intros Hu [Hp Hf]. split; [done|]. by eapply prints_busy. Qed.

Lemma wp_sync c e t : nested t -> polls t ->
  wp (uartputc_sync fuel c) e t (fun _ t' => exists u, prints [c] (serial (io t)) u /\ t' = with_serial u t).
Proof. intros Hn [Hp Hf]. by apply wp_uartputc_sync. Qed.

Lemma wp_consputc c e t : nested t -> polls t ->
  wp (consputc fuel c) e t (fun _ t' => exists u,
    prints (if c =? BACKSPACE then rubout else [c]) (serial (io t)) u /\ t' = with_serial u t).
Proof.
  intros Hn Hp. unfold consputc. destruct (c =? BACKSPACE); [|by apply wp_sync].
  apply wp_bind. eapply wp_mono; [by apply wp_sync|]. intros _ t1 (u1 & H1 & ->).
  assert (Hp1 := polls_prints _ _ _ H1 Hp). apply wp_bind. eapply wp_mono; [by apply wp_sync|]. intros _ t2 (u2 & H2 & ->).
  assert (Hp2 := polls_prints _ _ _ H2 Hp1). eapply wp_mono; [by apply wp_sync|]. intros _ t3 (u3 & H3 & ->).
  exists u3. split; [|done]. apply (prints_app [8] [32; 8] _ u1); [done|]. by apply (prints_app [32] [8] _ u2).
Qed.

Lemma wp_kill_line ready edit : forall n e t, nested t -> polls t -> (length edit < n)%nat ->
  tty_rep (tty (io t)) (ready, edit) ->
  wp (loop n (kill_line_step fuel) tt) e t (fun _ t' => exists u b, t' = with_serial u (with_tty b t) /\
    prints (concat (replicate (length edit) rubout)) (serial (io t)) u /\ tty_rep b (ready, [])).
Proof.
  induction edit as [|c edit IH] using rev_ind; intros [|n] e t Hn Hp Hlt [Hraw Hpl]; cbn [fst snd] in *; try lia;
    cbn [loop]; apply wp_bind; unfold kill_line_step at 1, get_tty; apply wp_bind, wp_read; rewrite (raw_edit_nil _ ready _ Hraw).
  { cbn. apply wp_ret, wp_ret. exists (serial (io t)), (tty (io t)). split; [by rewrite with_devices_same|].
    split; [apply prints_nil|]. by split. }
  rewrite bool_decide_false by (by destruct edit). destruct (raw_erase _ _ _ _ Hraw) as [Hraw' Hc].
  apply Forall_app in Hpl as [Hpl Hlast]. apply list.Forall_cons in Hlast as [[Hnl _] _].
  apply wp_bind. eapply wp_or_fault; [exact Hc|]. rewrite (proj2 (Z.eqb_neq _ _) Hnl).
  apply wp_bind, wp_set_tty. set (t1 := with_tty _ t). apply wp_bind.
  eapply wp_mono; [by apply (wp_consputc BACKSPACE e t1)|]. intros _ t2 (u & Hu & ->). apply wp_ret.
  rewrite length_app in Hlt |- *. cbn in Hlt. eapply wp_mono.
  { apply (IH n e (with_serial u t1)); [done|by eapply polls_prints|lia|by split]. }
  intros _ t' (u' & b & -> & Hu' & Hb). exists u', b. split; [done|]. split; [|done].
  rewrite Nat.add_comm. by apply (prints_app rubout _ _ u).
Qed.

(** The state after a key press. *)
Definition pressed (c : Z) (q : line) (t t' : mach) : Prop := exists u b,
  t' = (with_serial u (with_tty b t)) <| procs ::= woken (releases c q) ChCons (cur t) |> /\
  prints (echo c q) (serial (io t)) u /\ tty_rep b (press c q).

Lemma pressed_same c q t : releases c q = false -> echo c q = [] -> press c q = q -> tty_rep (tty (io t)) q -> pressed c q t t.
Proof.
  intros Hr He Hp Hq. exists (serial (io t)), (tty (io t)). rewrite Hr, He, Hp, with_devices_same. split; [by destruct t|].
  split; [apply prints_nil|done].
Qed.

Lemma takes_count c ready edit t : tty_rep t (ready, edit) ->
  negb (c =? 0) && (u32 (ce t - cr t) <? INPUT_BUF_SIZE) = takes c (ready, edit).
Proof. intros [H _]. by rewrite (raw_count _ ready edit H). Qed.

Lemma plain_key c : c <> CTRL_P -> c <> CTRL_U -> c <> CTRL_H -> c <> DEL ->
  (c =? CTRL_P) = false /\ (c =? CTRL_U) = false /\ (c =? CTRL_H) || (c =? DEL) = false /\ bool_decide (c ∈ [CTRL_P; CTRL_U; CTRL_H; DEL]) = false.
Proof.
  intros. rewrite !(proj2 (Z.eqb_neq _ _)) by done. rewrite bool_decide_false; [done|]. rewrite !elem_of_cons, elem_of_nil. naive_solver.
Qed.

Lemma insert_char_rep t c ready edit : tty_rep t (ready, edit) -> 0 <= c < 256 -> (length (ready ++ edit) < 128)%nat ->
  let t1 := type_char c t in
  tty_rep (if completes c (ready, edit) then t1 <| cw := ce t1 |> else t1) (insert_char c (ready, edit)).
Proof.
  intros [Hraw Hpl] Hc Hlt. cbn [fst snd] in *. assert (Hraw1 := raw_type _ _ _ Hraw c Hc Hlt). cbn zeta. unfold insert_char.
  destruct (completes c (ready, edit)) eqn:Hcomp; cbn [fst snd].
  - split; [|constructor]. by apply raw_commit in Hraw1.
  - split; [done|]. cbn [fst snd]. apply Forall_app. split; [done|]. constructor; [|constructor].
    unfold completes in Hcomp. rewrite !orb_false_iff, !Z.eqb_neq in Hcomp. tauto.
Qed.

Lemma completes_count c ready edit t : tty_rep t (ready, edit) -> 0 <= c < 256 -> (length (ready ++ edit) < 128)%nat ->
  (c =? NL) || (c =? CTRL_D) || (u32 (ce (type_char c t) - cr (type_char c t)) =? INPUT_BUF_SIZE) = completes c (ready, edit).
Proof.
  intros [Hraw _] Hc Hlt. cbn [fst snd] in *. rewrite (raw_count _ _ _ (raw_type _ _ _ Hraw c Hc Hlt)). unfold completes. cbn [fst snd].
  rewrite app_assoc, (length_app _ [c]), Nat2Z.inj_add. done.
Qed.

Lemma wp_input_char c e t ready edit : nested t -> table_ready t -> polls t -> 0 <= c < 256 ->
  tty_rep (tty (io t)) (ready, edit) -> c <> CTRL_P -> c <> CTRL_U -> c <> CTRL_H -> c <> DEL ->
  wp (input_char fuel c) e t (fun _ t' => pressed c (ready, edit) t t').
Proof.
  intros Hn Ht Hp Hc Hq H1 H2 H3 H4. destruct (plain_key c H1 H2 H3 H4) as (E1 & E2 & E3 & E4).
  unfold input_char, get_tty. apply wp_bind, wp_read. rewrite (takes_count c ready edit) by done. apply wp_when; intros Htk.
  2: { apply pressed_same; [unfold releases; by rewrite Htk, andb_false_r|unfold echo; by rewrite E1, E2, E3, Htk|
       unfold press; by rewrite E1, E2, E3, Htk|done]. }
  assert (Hlt : (length (ready ++ edit) < 128)%nat).
  { unfold takes, INPUT_BUF_SIZE in Htk. cbn [fst snd] in Htk. lia. }
  change (if c =? CR then NL else c) with (newline c). set (c' := newline c).
  assert (Hc' : 0 <= c' < 256) by (unfold c', newline, NL; destruct (c =? CR); lia).
  assert (Hb : (c' =? BACKSPACE) = false) by (apply Z.eqb_neq; unfold BACKSPACE; lia).
  assert (Hrel : releases c (ready, edit) = completes c' (ready, edit)) by (unfold releases; by rewrite E4, Htk).
  assert (Hecho : echo c (ready, edit) = [c']) by (unfold echo; by rewrite E1, E2, E3, Htk).
  assert (Hpress : press c (ready, edit) = insert_char c' (ready, edit)) by (unfold press; by rewrite E1, E2, E3, Htk).
  apply wp_bind. eapply wp_mono; [by apply (wp_consputc c')|]. rewrite Hb. intros _ t1 (u & Hu & ->).
  apply wp_bind, wp_set_tty. apply wp_bind, wp_read.
  change (tty (io (with_tty ?b ?x))) with b. change (tty (io (with_serial u t))) with (tty (io t)).
  rewrite (completes_count c' ready edit) by done. assert (Hrep := insert_char_rep _ c' _ _ Hq Hc' Hlt). cbn zeta in Hrep.
  unfold pressed. rewrite Hrel, Hecho, Hpress. apply wp_when; intros Hcomp; rewrite Hcomp in *.
  - apply wp_bind, wp_set_tty. eapply wp_mono; [by apply wp_wakeup_nested|]. intros _ t' ->. exists u. eexists. split; [|split; [done|exact Hrep]]. done.
  - exists u. eexists. split; [|split; [done|exact Hrep]]. done.
Qed.

(** The state the kernel is in after key presses: only the line, the serial
    device, the states of processes and the interrupt bookkeeping changed. *)
Definition keyed (u : uart) (b : consbuf) (l : list proc) (s : mach) : mach :=
  (with_serial u (with_tty b s)) <| procs := l |>.

Lemma wp_consoleintr c e s ready edit : table_ready s -> free_lock s Lcons -> polls s -> 0 <= c < 256 ->
  tty_rep (tty (io s)) (ready, edit) -> (128 < fuel)%nat ->
  wp (consoleintr fuel c) e s (fun _ s' => exists u b,
    s' = left_off (keyed u b (woken (releases c (ready, edit)) ChCons (cur s) (procs s)) s) /\
    prints (echo c (ready, edit)) (serial (io s)) u /\ tty_rep b (press c (ready, edit))).
Proof.
  intros Ht Hl Hp Hc Hq Hf. assert (Hok : hart_ok s) by apply Ht. unfold consoleintr.
  apply wp_bind. eapply wp_call; [by apply acquire_Ret|]. set (t := enter Lcons s).
  assert (Hn : nested t) by by apply enter_nested. assert (Htt : table_ready t) by by apply (table_ready_enter Lcons s).
  apply wp_bind. eapply (wp_mono _ _ _ (fun _ t' => pressed c (ready, edit) t t')).
  - destruct (Z.eqb_spec c CTRL_P) as [->|H1].
    { apply wp_bind. unfold procdump. apply wp_bind, wp_read, wp_ret, wp_ret. by apply pressed_same. }
    destruct (Z.eqb_spec c CTRL_U) as [->|H2].
    { eapply wp_mono; [apply (wp_kill_line ready edit); try done|].
      - destruct Hq as [[_ _ _ _ Hfit _] _]. cbn in Hfit. rewrite length_app in Hfit. lia.
      - intros _ t' (u & b & -> & Hu & Hb). exists u, b. split; [by destruct t|]. by split. }
    destruct ((c =? CTRL_H) || (c =? DEL)) eqn:E3.
    { assert (Hcode : releases c (ready, edit) = false /\ echo c (ready, edit) = match edit with [] => [] | _ => rubout end /\
        press c (ready, edit) = (ready, removelast edit)).
      { unfold releases, echo, press. rewrite E3, (proj2 (Z.eqb_neq _ _) H1), (proj2 (Z.eqb_neq _ _) H2).
        split; [|done]. rewrite bool_decide_true; [done|]. apply orb_true_iff in E3. rewrite !Z.eqb_eq in E3.
        rewrite !elem_of_cons. naive_solver. }
      destruct Hcode as (Hr & He & Hpr). apply wp_bind. unfold get_tty. apply wp_read. change (tty (io t)) with (tty (io s)).
      rewrite (raw_edit_nil _ ready edit) by apply Hq. apply wp_when; intros Hne.
      + apply negb_true_iff, bool_decide_eq_false_1 in Hne.
        destruct (exists_last Hne) as (edit' & x & ->). destruct Hq as [Hraw Hpl]. cbn [fst snd] in *.
        destruct (raw_erase _ _ _ _ Hraw) as [Hraw' _]. apply Forall_app in Hpl as [Hpl _].
        apply wp_bind, wp_set_tty. set (t1 := with_tty _ t).
        eapply wp_mono; [by apply (wp_consputc BACKSPACE e t1)|]. intros _ t' (u & Hu & ->).
        exists u. eexists. rewrite Hr, He, Hpr, removelast_last. split; [done|]. split; [|by split]. by destruct edit'.
      + apply negb_false_iff, bool_decide_eq_true_1 in Hne. subst edit. by apply pressed_same. }
    apply orb_false_iff in E3 as [H3%Z.eqb_neq H4%Z.eqb_neq]. by apply wp_input_char.
  - intros _ t' (u & b & -> & Hu & Hb). eapply wp_call.
    + apply (release_from Lcons e _ (keyed u b (woken (releases c (ready, edit)) ChCons (cur s) (procs s)) s)); try done.
      unfold t. by rewrite cur_enter.
    + by exists u, b.
Qed.

(** *** Sequences of key presses *)

Definition type_keys (keys : list Z) (q : line) : line := fold_left (fun q c => press c q) keys q.

Fixpoint echo_keys (keys : list Z) (q : line) : list Z :=
  match keys with [] => [] | c :: keys => echo c q ++ echo_keys keys (press c q) end.

Fixpoint some_release (keys : list Z) (q : line) : bool :=
  match keys with [] => false | c :: keys => releases c q || some_release keys (press c q) end.

(** The interrupt bookkeeping may differ. *)
Definition same_but_cpus (s s' : mach) : Prop :=
  exists cs, s' = s <| cpus := cs |> /\ cur s' = cur s /\ hart_ok s'.

Lemma left_off_same s : hart_ok s -> same_but_cpus s (left_off s).
Proof. intros H. eexists. split; [reflexivity|]. split; [by apply cur_left_off|by apply hart_ok_left_off]. Qed.

Lemma same_refl s : hart_ok s -> same_but_cpus s s.
Proof. intros H. exists (cpus s). split; [by destruct s|]. done. Qed.

Lemma same_ready s s' : same_but_cpus s s' -> table_ready s -> table_ready s'.
Proof. intros (cs & -> & _ & Hok) (_ & Hlen & Hfree). by split. Qed.

Lemma same_keyed u b l s s' : same_but_cpus s s' -> same_but_cpus (keyed u b l s) (keyed u b l s').
Proof. intros (cs & -> & Hc & Hok). by exists cs. Qed.

Lemma same_trans s1 s2 s3 : same_but_cpus s1 s2 -> same_but_cpus s2 s3 -> same_but_cpus s1 s3.
Proof. intros (cs & -> & H1 & _) (cs' & -> & H2 & H3). exists cs'. split; [done|]. split; [by rewrite H2|done]. Qed.

Lemma table_ready_keyed u b l s : length l = NPROC -> table_ready s -> table_ready (keyed u b l s).
Proof. intros Hl (H1 & _ & H3). by split. Qed.

Lemma woken_woken_or b1 b2 ch me l : woken b2 ch me (woken b1 ch me l) = woken (b1 || b2) ch me l.
Proof. destruct b1; [apply woken_woken|done]. Qed.

Definition with_rhr (l : list Z) (u : uart) : uart := u <| rhr := l |>.

(** The received bytes [keys] are read one by one and pressed. *)
Lemma wp_keys keys : forall n e s ready edit, rhr (serial (io s)) = keys -> (length keys < n)%nat ->
  table_ready s -> free_lock s Lcons -> polls s -> Forall (fun c => 0 <= c < 256) keys ->
  tty_rep (tty (io s)) (ready, edit) -> (128 < fuel)%nat ->
  wp (loop n (uartintr_step fuel) tt) e s (fun _ s' => exists u b,
    same_but_cpus (keyed u b (woken (some_release keys (ready, edit)) ChCons (cur s) (procs s)) s) s' /\
    prints (echo_keys keys (ready, edit)) (with_rhr [] (serial (io s))) u /\ tty_rep b (type_keys keys (ready, edit))).
Proof.
  induction keys as [|c keys IH]; intros [|n] e s ready edit Hk Hn Ht Hl Hp Hb Hq Hf; cbn in Hn; try lia;
    cbn [loop]; apply wp_bind; unfold uartintr_step at 1; apply wp_bind; unfold uartgetc; apply wp_bind;
    destruct (read_LSR_Ret e s) as (r & Hr & _ & Hrdy); (eapply wp_call; [exact Hr|]); rewrite Hk in Hrdy; rewrite Hrdy; cbn [negb].
  - apply wp_ret, wp_ret, wp_ret. set (u := serial (io s) <| tx_busy ::= tail |>). exists u, (tty (io s)).
    split; [|split; [|done]].
    + assert (E : keyed u (tty (io s)) (procs s) s = with_serial u s).
      { destruct s as [? ? ? ? ? ? ? ? ? ? ? ? ? ? ? ? ? ? [? ? ? ? ? ?]]. done. }
      unfold woken. cbn [some_release]. rewrite E. apply (same_refl (with_serial u s)). apply Ht.
    + exists (tail (tx_busy (serial (io s)))). split; [|change (length (tail (tx_busy (serial (io s)))) <= length (tx_busy (serial (io s))))%nat; destruct (tx_busy (serial (io s))); cbn; lia].
      unfold u, with_rhr. cbn [echo_keys]. destruct (serial (io s)); cbn in Hk; by subst.
  - unfold read_RHR, get_serial, set_serial. apply wp_bind, wp_read, wp_bind, wp_modify. apply wp_ret.
    set (s1 := _ <| io ::= _ |>). change (rhr (serial (io (with_serial _ s)))) with (rhr (serial (io s))). rewrite Hk. cbn [head default]. change (id c) with c.
    apply list.Forall_cons in Hb as [Hc Hb]. rewrite (proj2 (Z.eqb_neq c (-1))) by lia.
    assert (Hp1 : polls s1).
    { destruct Hp as [H1 H2]. split; [done|]. change (tx_busy (serial (io s1))) with (tail (tx_busy (serial (io s)))).
      destruct (tx_busy (serial (io s))); cbn in *; lia. }
    apply wp_bind. eapply wp_mono; [by apply (wp_consoleintr c e s1 ready edit)|]. intros _ s2 (u & b & -> & Hu & Hq2). apply wp_ret.
    set (l := woken (releases c (ready, edit)) ChCons (cur s1) (procs s1)) in *. set (s2 := keyed u b l s1).
    assert (Hok2 : hart_ok s2) by apply Ht.
    assert (Hs2 := left_off_same s2 Hok2). assert (Ht2 : table_ready s2).
    { apply (table_ready_keyed u b l s1); [|done]. unfold l. rewrite woken_length. apply Ht. }
    destruct (press c (ready, edit)) as [ready2 edit2] eqn:Epress.
    assert (Hrhr : rhr (serial (io (left_off s2))) = keys).
    { destruct Hu as (bz & -> & _). change (rhr (serial (io s1)) = keys). unfold s1. cbn. by rewrite Hk. }
    eapply wp_mono; [apply (IH n e (left_off s2) ready2 edit2); try done; [lia|by eapply same_ready|exact (polls_prints _ u s1 Hu Hp1)]|].
    intros _ s' (u' & b' & Hsame & Hu' & Hb'). exists u', b'. split; [|split].
    + eapply same_trans; [|exact Hsame]. cbn [some_release]. rewrite Epress, <- woken_woken_or.
      destruct Hs2 as (cs & E & Hcur & _). rewrite Hcur. change (cur s2) with (cur s).
      change (procs (left_off s2)) with l. change l with (woken (releases c (ready, edit)) ChCons (cur s) (procs s)).
      eexists. split; [|split; [exact Hcur|]]. 
      { unfold left_off, on_cpu, s2, s1. reflexivity. }
      by apply (same_ready s2 (left_off s2)); [apply left_off_same|].
    + cbn [echo_keys]. rewrite Epress. eapply prints_app; [|exact Hu'].
      destruct Hu as (bz & -> & Hbz). exists bz. split; [reflexivity|].
      change (tx_busy (serial (io s1))) with (tail (tx_busy (serial (io s)))) in Hbz.
      change (tx_busy (with_rhr [] (serial (io s)))) with (tx_busy (serial (io s))). destruct (tx_busy (serial (io s))); cbn in *; lia.
    + unfold type_keys in *. cbn [fold_left]. by rewrite Epress.
Qed.
End keys.

Lemma tx_rep_prints l u u' q : prints l u u' -> tx_rep u q -> tx_rep u' q.
Proof. intros (b & -> & _) [H1 H2 H3 H4 H5]. by split. Qed.

Lemma prints_rhr l u u' : prints l u u' -> rhr u' = rhr u.
Proof. by intros (b & -> & _). Qed.


(** ** Reading a line *)

(** What a read of [n] bytes takes from the bytes that are ready, and what it
    leaves; [None] when it has to wait.  An end of file stays for the next
    read unless it comes first. *)
Fixpoint fetch (n : nat) (first : bool) (l : list Z) : option (list Z * list Z) :=
  match n, l with
  | O, _ => Some ([], l)
  | S _, [] => None
  | S n, c :: l' =>
      if c =? CTRL_D then Some ([], if first then l' else l)
      else if c =? NL then Some ([c], l')
      else (fun r => (c :: r.1, r.2)) <$> fetch n false l'
  end.

Definition with_line (b : consbuf) (m : bytes) (s : mach) : mach := with_mem m (with_tty b s).

Section reading.
Context (fuel : nat) (target : Z).

Lemma consoleread_wait_some n e t ready edit : tty_raw (tty (io t)) ready edit -> ready <> [] -> (0 < n)%nat ->
  loop n consoleread_wait tt e t = Ret true e t.
Proof.
  intros Hraw Hne Hn. destruct n as [|n]; [lia|]. cbn [loop]. rewrite bindE. unfold consoleread_wait at 1, get_tty. msimp.
  rewrite (raw_ready_nil _ _ _ Hraw), bool_decide_false by done. done.
Qed.

Lemma read_step_take e t dst n c ready edit p pr : nested t -> tty_raw (tty (io t)) (c :: ready) edit -> 0 < n ->
  cur t = Some p -> procs t !! p = Some pr -> (0 < fuel)%nat -> 0 <= dst < 2 ^ 64 -> c <> CTRL_D ->
  consoleread_step fuel true target (dst, n) e t =
  match user_addr (mem t) (pagetable pr) dst PTE_W with
  | Some a => Ret (if c =? NL then inr (Some (n - 1)) else inl (u64 (dst + 1), n - 1)) e
                (with_line (tty (io t) <| cr ::= fun r => u32 (r + 1) |>) (store8 (mem t) a c) t)
  | None => Ret (inr (Some n)) e (with_tty (tty (io t) <| cr ::= fun r => u32 (r + 1) |>) t)
  end.
Proof.
  intros Hn Hraw Hpos Hcur Hpr Hf Hdst Hd. unfold consoleread_step.
  rewrite (proj2 (Z.ltb_lt 0 n) Hpos). rewrite bindE, (consoleread_wait_some fuel e t _ _ Hraw) by done. cbn [negb].
  destruct (raw_take _ _ _ _ Hraw) as [_ Hc]. unfold get_tty, set_tty. msimp. rewrite Hc. msimp.
  rewrite (proj2 (Z.eqb_neq _ _) Hd). set (t1 := t <| io ::= _ |>).
  assert (Hn1 : nested t1) by exact Hn. unfold either_copyout. rewrite !bindE.
  rewrite (curproc_ready e t1 p) by (try done; by apply nested_hart_ok). rewrite (nested_left_off_id t1 Hn1).
  rewrite bindE, (get_proc_Ret p e t1 pr) by done. rewrite copyout_byte by done.
  change (mem t1) with (mem t). destruct (user_addr (mem t) (pagetable pr) dst PTE_W); [|done].
  change (0 =? -1) with false. cbn match. destruct (c =? NL); done.
Qed.

Lemma consoleread_stops m dst n e t : 0 < n -> (0 < m)%nat -> loop fuel consoleread_wait tt e t = Ret false e t ->
  loop m (consoleread_step fuel true target) (dst, n) e t = Ret None e t.
Proof.
  intros Hn Hm E. destruct m as [|m]; [lia|]. cbn [loop]. rewrite bindE. unfold consoleread_step.
  rewrite (proj2 (Z.ltb_lt 0 n) Hn). by rewrite bindE, E.
Qed.

Lemma consoleread_blocks m dst n e t t' : 0 < n -> (0 < m)%nat -> loop fuel consoleread_wait tt e t = Blocked t' ->
  loop m (consoleread_step fuel true target) (dst, n) e t = Blocked t'.
Proof.
  intros Hn Hm E. destruct m as [|m]; [lia|]. cbn [loop]. rewrite bindE. unfold consoleread_step.
  rewrite (proj2 (Z.ltb_lt 0 n) Hn). by rewrite bindE, E.
Qed.

(** The loop, with the console's lock held. *)
Lemma consoleread_loop p pr edit : forall n m e t dst first ready l rest m', nested t -> cur t = Some p -> procs t !! p = Some pr ->
  tty_rep (tty (io t)) (ready, edit) -> fetch n first ready = Some (l, rest) ->
  first = negb (Z.of_nat n <? target) -> Z.of_nat n <= target < 2 ^ 31 ->
  user_stores (mem t) (pagetable pr) dst l = Some m' -> 0 <= dst -> dst + Z.of_nat n < 2 ^ 64 -> (n < m)%nat -> (0 < fuel)%nat ->
  exists b, loop m (consoleread_step fuel true target) (dst, Z.of_nat n) e t =
    Ret (Some (Z.of_nat n - Z.of_nat (length l))) e (with_line b m' t) /\ tty_rep b (rest, edit).
Proof.
  assert (Hsame : forall t m, mem t = m -> with_line (tty (io t)) m t = t).
  { intros t m <-. destruct t as [? ? ? ? ? ? ? ? ? ? ? ? ? ? ? ? ? ? [? ? ? ? ? ?]]. done. }
  induction n as [|n IH]; intros [|m] e t dst first ready l rest m' Hn Hcur Hpr Hq Hfetch Hfirst Htg Hst Hlo Hhi Hm Hf; try lia; cbn [loop].
  { injection Hfetch as <- <-. injection Hst as <-. exists (tty (io t)). rewrite Hsame by done. split; [|done].
    rewrite bindE. unfold consoleread_step. change (0 <? Z.of_nat 0) with false. cbn. done. }
  destruct ready as [|c ready]; [done|]. cbn [fetch] in Hfetch. destruct Hq as [Hraw Hpl]. cbn [fst snd] in Hraw, Hpl.
  destruct (raw_take _ _ _ _ Hraw) as [Hraw' Hc]. destruct (Z.eqb_spec c CTRL_D) as [->|Hd].
  - injection Hfetch as <- <-. injection Hst as <-. rewrite bindE. unfold consoleread_step at 1.
    unfold get_tty, set_tty. rewrite (proj2 (Z.ltb_lt 0 (Z.of_nat (S n)))) by lia. cbn match. rewrite bindE, (consoleread_wait_some fuel e t _ _ Hraw) by done.
    cbn [negb]. msimp. rewrite Hc. msimp. rewrite Z.eqb_refl.
    rewrite (u32_id (Z.of_nat (S n))) by lia. subst first. rewrite Z.sub_0_r.
    destruct (Z.of_nat (S n) <? target); msimp; cbn [negb].
    + exists (tty (io t)). rewrite Hsame by done. split; [|by split]. f_equal.
      assert (E := raw_untake _ _ _ _ Hraw). transitivity (with_tty (tty (io t)) t); [|exact (Hsame t (mem t) eq_refl)].
      rewrite <- E at 1. done.
    + exists (tty (io t) <| cr ::= fun r => u32 (r + 1) |>). split; [|by split]. by destruct t.
  - rewrite bindE, (read_step_take e t dst (Z.of_nat (S n)) c ready edit p pr) by (done || lia).
    destruct (Z.eqb_spec c NL) as [->|Hnl].
    + injection Hfetch as <- <-. cbn [user_stores] in Hst. destruct (user_addr (mem t) (pagetable pr) dst PTE_W) as [a|]; [|done].
      injection Hst as <-. eexists. split; [|by split]. cbn [length]. do 2 f_equal. 
    + destruct (fetch n false ready) as [[l' rest']|] eqn:Ef; [|done]. injection Hfetch as <- <-.
      cbn [user_stores] in Hst. destruct (user_addr (mem t) (pagetable pr) dst PTE_W) as [a|]; [|done]. cbn [mbind option_bind] in Hst.
      set (t1 := with_line _ _ t). rewrite (u64_id (dst + 1)) by lia. replace (Z.of_nat (S n) - 1) with (Z.of_nat n) by lia.
      destruct (IH m e t1 (dst + 1) false ready l' rest' m') as (b & -> & Hb); try done; try lia.
      exists b. split; [|done]. cbn [length]. do 2 f_equal. lia.
Qed.
End reading.

(** Reading the console.  When the bytes that are ready contain what a
    read of [n] bytes asks for (its [n] bytes, or a line, or the end of file),
    the read stores exactly these bytes in the user's buffer, returns how many
    they are, and leaves the rest for later reads; the line being edited is
    not touched.  When nothing is ready the caller sleeps on the console, with
    the console's lock free for the interrupt, unless it was killed: then the
    read returns -1 and takes nothing. *)
Theorem consoleread_line (fuel n : nat) (dst : Z) (p : nat) (pr : proc)
    (ready edit : list Z) (e : env) (s : mach) :
  table_ready s -> free_lock s Lcons -> cur s = Some p -> procs s !! p = Some pr -> (p < NPROC)%nat ->
  tty_rep (tty (io s)) (ready, edit) -> Z.of_nat n < 2 ^ 31 -> 0 <= dst -> dst + Z.of_nat n < 2 ^ 64 -> (S n < fuel)%nat ->
  (forall l rest m', fetch n true ready = Some (l, rest) -> user_stores (mem s) (pagetable pr) dst l = Some m' ->
     exists s', consoleread fuel true dst (Z.of_nat n) e s = Ret (Z.of_nat (length l)) e s' /\
       mem s' = m' /\ tty_rep (tty (io s')) (rest, edit) /\ procs s' = procs s /\ locks s' = locks s) /\
  (ready = [] -> (0 < n)%nat -> killed_ pr <> 0 ->
     exists s', consoleread fuel true dst (Z.of_nat n) e s = Ret (-1) e s' /\ tty (io s') = tty (io s) /\
       mem s' = mem s /\ procs s' = procs s /\ locks s' = locks s) /\
  (ready = [] -> (0 < n)%nat -> killed_ pr = 0 -> noff (this_cpu s) = 0 ->
     exists s', consoleread fuel true dst (Z.of_nat n) [] s = Blocked s' /\ free_lock s' Lcons /\
       procs s' !! p = Some (pr <| pchan := Some ChCons |> <| state := SLEEPING |>)).
Proof.
  intros Ht Hl Hcur Hpr Hlt Hq Hn Hlo Hhi Hf. assert (Hok : hart_ok s) by apply Ht. set (t := enter Lcons s).
  assert (Hnest : nested t) by by apply enter_nested. assert (Htt : table_ready t) by by apply (table_ready_enter Lcons s).
  assert (Hcur' : cur t = Some p) by (unfold t; by rewrite cur_enter).
  assert (Hstart : forall e, consoleread fuel true dst (Z.of_nat n) e s =
    (r ← loop fuel (consoleread_step fuel true (Z.of_nat n)) (dst, Z.of_nat n); release Lcons;;
     mret (match r with None => -1 | Some k => i32 (Z.of_nat n - k) end)) e t).
  { intros e'. unfold consoleread. rewrite (u32_id (Z.of_nat n)) by lia. by rewrite bindE, acquire_Ret. }
  assert (Hwait : ready = [] -> forall k e, loop (S k) consoleread_wait tt e t =
    if negb (killed_ pr =? 0) then Ret false e t else (sleep ChCons Lcons;; loop k consoleread_wait tt) e t).
  { intros -> k e'. cbn [loop]. rewrite bindE. unfold consoleread_wait at 1, get_tty. msimp.
    change (tty (io t)) with (tty (io s)). rewrite (raw_ready_nil _ [] edit) by apply Hq. rewrite bool_decide_true by done.
    rewrite bindE, (curproc_ready e' t p) by (done || apply Htt). rewrite (nested_left_off_id t Hnest).
    rewrite bindE, (killed_Ret p e' t pr) by done. rewrite (nested_left_off_id t Hnest).
    destruct (negb (killed_ pr =? 0)); [done|]. rewrite !bindE. by destruct (sleep ChCons Lcons e' t). }
  split; [|split].
  - intros l rest m' Hfetch Hst. rewrite Hstart.
    destruct (consoleread_loop fuel (Z.of_nat n) p pr edit n fuel e t dst true ready l rest m') as (b & E & Hb); try done; try lia.
    rewrite bindE, E, bindE, (release_from Lcons e _ (with_line b m' s)) by done. cbn [mret M_ret].
    exists (left_off (with_line b m' s)). split; [|done]. f_equal.
    rewrite i32_id; [lia|]. unfold in_i32. assert (length l <= n)%nat; [|lia].
    clear -Hfetch. revert ready l rest Hfetch. generalize true as first.
    induction n as [|n IH]; intros first [|c ready] l rest H; simplify_eq/=; try (cbn; lia).
    destruct (c =? CTRL_D); [simplify_eq/=; lia|]. destruct (c =? NL); [simplify_eq/=; lia|].
    destruct (fetch n false ready) as [[l' rest']|] eqn:E; simplify_eq/=. apply IH in E. lia.
  - intros Hnil Hpos Hk. rewrite Hstart. destruct fuel as [|k]; [lia|].
    assert (E : loop (S k) consoleread_wait tt e t = Ret false e t) by (by rewrite Hwait, (proj2 (Z.eqb_neq _ _) Hk)).
    rewrite bindE, consoleread_stops by (done || lia).
    rewrite bindE, (release_from Lcons e t s) by done. by exists (left_off s).
  - intros Hnil Hpos Hk Hnoff. rewrite Hstart. destruct fuel as [|k]; [lia|].
    destruct (sleep_blocks ChCons Lcons s p pr) as (nm & E & Hfree & Hp); try done. fold t in E.
    rewrite bindE, (consoleread_blocks (S k) _ _ _ _ _ _ (parked ChCons Lcons nm p t)); [|lia|lia|].
    + eexists. split; [reflexivity|]. done.
    + rewrite Hwait by done. rewrite Hk. change (negb (0 =? 0)) with false. cbn match. by rewrite bindE, E.
Qed.

(** ** A concrete console *)

Definition tty0 : consbuf := mkCons (replicate 128 0) 0xFFFFFFFF 0xFFFFFFFF 0xFFFFFFFF.

Definition machine_console (b : consbuf) (keys : list Z) : mach :=
  machine0 <| mem := user_page |> <| procs ::= <[0%nat := user]> |>
    <| locks ::= fun m => <[Lcons := mkSpinlock 0 "cons" None]> (<[Luart := mkSpinlock 0 "uart" None]> m) |>
    <| io ::= fun d => d <| tty := b |> <| serial := mkUart (replicate 32 0) 0 0 keys [] [] |> |>.

Lemma machine_console_ready b keys : table_ready (machine_console b keys).
Proof.
  split; [|split; [reflexivity|]].
  - eexists. split; [reflexivity|]. split; [cbn; lia|]. cbn. lia.
  - intros i Hi. destruct (proj2 (proj2 machine0_ready) i Hi) as [n Hn]. exists n. cbn. by rewrite lookup_insert_ne, lookup_insert_ne.
Qed.

Lemma machine_console_cons b keys : free_lock (machine_console b keys) Lcons.
Proof. exists "cons"%string. cbn. by rewrite lookup_insert_eq. Qed.

Lemma machine_console_uart b keys : free_lock (machine_console b keys) Luart.
Proof. exists "uart"%string. cbn. by rewrite lookup_insert_ne, lookup_insert_eq. Qed.

Lemma tty0_rep : tty_rep tty0 ([], []).
Proof. split; [|constructor]. split; [reflexivity|cbn; lia|reflexivity|reflexivity|cbn; lia|]. intros i c Hi. change ((@nil Z) !! i = Some c) in Hi. by rewrite lookup_nil in Hi. Qed.


Definition tty_ls : consbuf := mkCons ([108; 115; 10; 112] ++ replicate 124 0) 0 3 4.

Lemma tty_ls_rep : tty_rep tty_ls ([108; 115; 10], [112]).
Proof.
  split; [|constructor; [split; discriminate|constructor]].
  split; [reflexivity|cbn; lia|reflexivity|reflexivity|cbn; lia|].
  intros [|[|[|[|i]]]] c Hi; simplify_eq/=; reflexivity.
Qed.

(** The read takes the line [ls] and leaves the line that is being edited. *)
Lemma consoleread_line_witness :
  exists s', consoleread 200 true 0 100 [] (machine_console tty_ls []) = Ret 3 [] s' /\
    tty_rep (tty (io s')) ([], [112]).
Proof.
  destruct (consoleread_line 200 100 0 0 user [108; 115; 10] [112] [] (machine_console tty_ls [])) as (H & _).
  - apply machine_console_ready.
  - apply machine_console_cons.
  - reflexivity.
  - reflexivity.
  - unfold NPROC. lia.
  - exact tty_ls_rep.
  - lia.
  - lia.
  - lia.
  - lia.
  - destruct (user_stores user_page (pagetable user) 0 [108; 115; 10]) as [m'|] eqn:Em; [|vm_compute in Em; discriminate].
    destruct (H [108; 115; 10] [] m' eq_refl Em) as (s' & H1 & _ & H2 & _). exists s'. split; [exact H1|exact H2].
Defined.
