(* ===== verification/ProcFirst.v ===== *)
(** * The first process

    [userinit] with enough free pages: the first slot becomes a process whose
    page table maps the code it is given, its trap frame and the trampoline,
    whose current directory is the root, and which can run. *)
From stdpp Require Import base tactics list numbers gmap strings.
From S2P Require Import Prelude SchedCommon Machine Wp Spinlock StringC Kalloc Vm VmRep VmInst VmKernel VmBytes Sched Sleeplock Bio Virtio Log File Proc Fs Itable SysPath Console.

Open Scope Z_scope.

(** ** Pages of one's own *)

Section pages.
Context `{LK : Linker}.
Hypothesis end_pos : 0 < kernel_end.

Definition kmem_ok (s : mach) (l : list Z) : Prop := kmem_ready s /\ kmem_inv s l.

(** Memory changed in the pages of [l] only. *)
Definition within (l : list Z) (s t : mach) : Prop := forall b, (forall a, a ∈ l -> ~ in_page a b) -> load8 (mem t) b = load8 (mem s) b.

Lemma within_trans l s t u : within l s t -> within l t u -> within l s u.
Proof using. intros H1 H2 b Hb. rewrite H2, H1; done. Qed.

Lemma within_weaken l l' s t : (forall a, a ∈ l -> a ∈ l') -> within l s t -> within l' s t.
Proof using. intros Hs H b Hb. apply H. auto. Qed.

Lemma within_same l s t : mem t = mem s -> within l s t.
Proof using. intros E b _. by rewrite E. Qed.

(** A change inside a page that neither the table nor the free list has. *)
Lemma vm_ok_write s root D l a g : vm_ok s root D l -> page_ok a -> a ∉ l -> (forall p, D !! p <> Some a) ->
  (forall b, ~ in_page a b -> load8 (g (mem s)) b = load8 (mem s) b) ->
  vm_ok (s <| mem ::= g |>) root D l /\ forall va, leaf (g (mem s)) D va = leaf (mem s) D va.
Proof using.
  intros V Ha Hl Hd Hg. change (g (mem s)) with (mem (s <| mem ::= g |>)). apply (vm_ok_frame s (s <| mem ::= g |>) root D l l V); [apply (vo_ready _ _ _ _ V)| | |].
  - eapply kmem_inv_ext; [apply (vo_free _ _ _ _ V)|done|]. intros p b Hp Hb. apply Hg. apply (in_page_neq p); [eapply free_page; [apply (vo_free _ _ _ _ V)|done]|done|by intros ->|done].
  - intros x Hx p Hp. by apply (vo_apart _ _ _ _ V p x).
  - intros p x b Hp Hb. apply Hg. apply (in_page_neq x); [by eapply (pr_page _ _ _ (vo_rep _ _ _ _ V))|done|intros ->; by apply (Hd p)|done].
Qed.

(** [kalloc] when there is a page. *)
Lemma wp_kalloc_page e s a l : kmem_ok s (a :: l) ->
  wp kalloc e s (fun r t => r = a /\ kmem_ok t l /\ page_ok a /\ a ∉ l /\ within [a] s t).
Proof using end_pos.
  intros [Hr Hl]. destruct (kalloc_spec end_pos e s _ Hr Hl) as (t & E & T1 & T2 & T3 & T4 & T5 & T6). eapply wp_call; [exact E|]. split; [done|]. split; [done|]. split; [done|]. split; [done|].
  intros b Hb. apply T6, Hb. left.
Qed.

(** Mapping pages when the paths of the table are among [P] and there are more
    pages than those need. *)
Lemma wp_map_enough (P : list (list Z)) root va n pa perm e s D l : vm_ok s root D l -> va mod PGSIZE = 0 -> 0 <= va -> 0 < n -> va + n * PGSIZE <= MAXVA ->
  0 <= pa -> pa + n * PGSIZE < 2 ^ 64 -> 0 <= perm < 2 ^ 10 ->
  (forall va', va <= va' < va + n * PGSIZE -> has (leaf (mem s) D va') PTE_V = false) ->
  (forall p a, D !! p = Some a -> p ∈ P) -> (forall p, on_ways va n p -> p ∈ P) -> (length P < length l + size D)%nat ->
  wp (mappages root va (n * PGSIZE) pa perm) e s (fun r t => r = 0 /\ exists D' l', vm_ok t root D' l' /\ grown s D l t D' l' /\
    (forall p a, D' !! p = Some a -> p ∈ P) /\ (length l + size D <= length l' + size D')%nat /\
    forall va', 0 <= va' < MAXVA -> leaf (mem t) D' va' = maps (leaf (mem s) D) va pa perm n va').
Proof using end_pos.
  intros V H1 H2 H3 H4 H5 H6 H7 H8 HP Hw Hlen. eapply wp_mono; [by apply (wp_mappages end_pos root va n pa perm e s D l)|].
  intros r t (D' & l' & k & V' & G & N & Hr & L). assert (Hc := grown_count _ _ _ _ _ _ _ V V' G).
  assert (HP' : forall p a, D' !! p = Some a -> p ∈ P) by (intros p a Hp; apply N in Hp as [Hp|Hp]; [by eapply HP|by apply Hw]).
  destruct Hr as [[-> ->]|(_ & -> & _)]; [|exfalso; assert (Hb := dirs_bound D' P HP'); cbn [length] in Hc; lia].
  split; [done|]. exists D', l'. done.
Qed.

(** What [mappages] changes lies in the directories and in the pages it took. *)
Lemma grown_within s D l t D' l' k : grown s D l t D' l' -> (forall p a, D !! p = Some a -> a ∈ k) -> (forall a, a ∈ l -> a ∈ k) -> within k s t.
Proof using.
  intros [_ (u & -> & Hu & _) _ Ho] Hd Hl b Hb. apply Ho. intros p a Hp. apply Hb. destruct (Hu _ _ Hp) as [Hp'|Ha]; [by eapply Hd|apply Hl, elem_of_app; by left].
Qed.

Lemma grown_tail s D l t D' l' a : grown s D l t D' l' -> a ∈ l' -> a ∈ l.
Proof using. intros [_ (u & -> & _) _ _] Ha. apply elem_of_app. by right. Qed.
End pages.

(** ** Bytes *)

Lemma load8_store_bytes l : forall m a b, load8 (store_bytes m a l) b =
  if (a <=? b) && (b <? a + Z.of_nat (length l)) then u8 (default 0 (l !! Z.to_nat (b - a))) else load8 m b.
Proof.
  induction l as [|c l IH]; intros m a b; cbn [store_bytes length].
  - destruct (Z.leb_spec a b), (Z.ltb_spec b (a + Z.of_nat 0)); try lia; done.
  - rewrite IH, load8_store8. destruct (decide (b = a)) as [->|Hne].
    + rewrite Z.eqb_refl, Z.sub_diag. destruct (Z.leb_spec (a + 1) a); [lia|]. cbn [andb]. destruct (Z.leb_spec a a), (Z.ltb_spec a (a + Z.of_nat (S (length l)))); try lia. done.
    + destruct (Z.eqb_spec a b); [lia|]. destruct (Z.leb_spec (a + 1) b), (Z.leb_spec a b); try lia; cbn [andb]; [|done].
      destruct (Z.ltb_spec b (a + 1 + Z.of_nat (length l))), (Z.ltb_spec b (a + Z.of_nat (S (length l)))); try lia.
      replace (Z.to_nat (b - a)) with (S (Z.to_nat (b - (a + 1)))) by lia. done.
Qed.

Lemma load8_zeroed m a b : in_page a b -> load8 (memset m a 0 PGSIZE) b = 0.
Proof. intros Hb. unfold in_page in Hb. rewrite load8_memset by (unfold PGSIZE in *; lia). destruct (Z.leb_spec a b), (Z.ltb_spec b (a + PGSIZE)); try lia. done. Qed.

(** ** Code that only changes memory *)

Lemma wp_vm_only {A} (m : M A) e s Q : vm_only m -> still s -> free_lock s Lkmem -> wp m e s Q ->
  wp m e s (fun a t => Q a t /\ exists mm fl, t = with_vm mm fl s).
Proof.
  intros Hm Hn Hf (a & t & E & HQ). exists a, t. split; [done|]. split; [done|]. specialize (Hm e s Hn Hf). rewrite E in Hm. destruct Hm as [_ Hs]. exists (mem t), (freelist t). exact Hs.
Qed.

(** The first program: it calls [exec("/init")]. *)
Definition initcode : list Z := [
  0x17; 0x05; 0x00; 0x00; 0x13; 0x05; 0x45; 0x02;
  0x97; 0x05; 0x00; 0x00; 0x93; 0x85; 0x35; 0x02;
  0x93; 0x08; 0x70; 0x00; 0x73; 0x00; 0x00; 0x00;
  0x93; 0x08; 0x20; 0x00; 0x73; 0x00; 0x00; 0x00;
  0xef; 0xf0; 0x9f; 0xff; 0x2f; 0x69; 0x6e; 0x69;
  0x74; 0x00; 0x00; 0x24; 0x00; 0x00; 0x00; 0x00;
  0x00; 0x00; 0x00; 0x00].

Section first.
Context `{LK : Linker}.
Hypothesis end_pos : 0 < kernel_end.
Hypothesis trampoline_range : 0 <= trampoline < 2 ^ 56.

(** The directories of the first process. *)
Definition upaths : list (list Z) := [[]; [255]; [255; 511]; [0]; [0; 0]].

(** What every process maps at the top of its address space. *)
Definition umap (tf : Z) : Z -> Z := maps (maps (fun _ => 0) TRAMPOLINE trampoline RX 1) TRAPFRAME tf RW 1.

Lemma one_page_way va p : on_ways va 1 p -> p = pth va 0 \/ p = pth va 1.
Proof using. intros (j & Hj & Hp). replace j with 0 in Hp by lia. rewrite Z.add_0_r in Hp. exact Hp. Qed.

Lemma page_range a : page_ok a -> 0 <= a /\ a + 1 * PGSIZE < 2 ^ 64.
Proof using end_pos. intros Ha. assert (H := page_pos end_pos a Ha). destruct Ha as [_ Ha]. unfold PHYSTOP, KERNBASE, PGSIZE in *. lia. Qed.

Lemma procs_alike s t : alike s t -> procs t = procs s.
Proof using. intros A. exact (f_equal procs A). Qed.

Ltac upath := let q := fresh in let Hq := fresh in intros q Hq; apply one_page_way in Hq as [->| ->]; apply (bool_decide_unpack _); by vm_compute.

Lemma wp_uvmcreate e s a l : kmem_ok s (a :: l) ->
  wp uvmcreate e s (fun r t => r = a /\ vm_ok t a {[ [] := a ]} l /\ alike s t /\ within [a] s t).
Proof using end_pos.
  intros K. unfold uvmcreate. apply wp_bind. destruct K as [Hr Hl]. destruct (kalloc_spec end_pos e s _ Hr Hl) as (t & E & T1 & T2 & T3 & T4 & T5 & T6). eapply wp_call; [exact E|]. cbn [hd tail] in *.
  assert (H0 := page_pos end_pos a T4). destruct (Z.eqb_spec a 0); [lia|]. apply wp_bind. unfold memset_mem. destruct (Z.eqb_spec a 0); [lia|]. apply wp_modify, wp_ret.
  split; [done|]. split; [by apply vm_ok_new|]. split; [exact T2|]. intros b Hb. assert (Hn : ~ in_page a b) by (apply Hb; left). cbn. rewrite load8_memset_out by done. by apply T6.
Qed.

Lemma wp_proc_pagetable p pr e s l : procs s !! p = Some pr -> page_ok (trapframe pr) -> trapframe pr ∉ l -> kmem_ok s l -> (6 <= length l)%nat ->
  wp (proc_pagetable p) e s (fun root t => exists U l', root <> 0 /\ vm_ok t root U l' /\ (forall q a, U !! q = Some a -> q ∈ upaths /\ a ∈ l) /\
    (length l <= length l' + size U)%nat /\ (forall a, a ∈ l' -> a ∈ l) /\ within l s t /\ alike s t /\
    forall va, 0 <= va < MAXVA -> leaf (mem t) U va = umap (trapframe pr) va).
Proof using end_pos trampoline_range.
  intros Hp Htf Hn K Hlen. destruct l as [|a l]; [cbn in Hlen; lia|]. cbn [length] in Hlen. unfold proc_pagetable. apply wp_bind. eapply wp_mono; [by apply wp_uvmcreate|].
  intros r t (-> & V & A & W). assert (Ha := pr_page _ _ _ (vo_rep _ _ _ _ V) [] a (lookup_singleton_eq _ _)). assert (H0 := page_pos end_pos a Ha). destruct (Z.eqb_spec a 0); [lia|].
  change PGSIZE with (1 * PGSIZE) at 1 2. apply wp_bind.
  eapply wp_mono; [apply (wp_map_enough end_pos upaths a TRAMPOLINE 1 trampoline RX e t {[ [] := a ]} l V); try done; try (unfold PGSIZE; lia)|].
  { intros va _. by rewrite root_leaf. }
  { intros q b [<- _]%lookup_singleton_Some. left. }
  { upath. }
  { rewrite map_size_singleton. cbn [length upaths]. lia. }
  intros r t2 (-> & D2 & l2 & V2 & G2 & P2 & C2 & L2). change (0 <? 0) with false. cbv match. apply wp_bind.
  assert (A2 := alike_trans _ _ _ A (gr_alike _ _ _ _ _ _ G2)). exists pr, t2. split; [apply get_proc_Ret; by rewrite (procs_alike _ _ A2)|]. apply wp_bind.
  assert (Hr2 := page_range _ Htf).
  eapply wp_mono; [apply (wp_map_enough end_pos upaths a TRAPFRAME 1 (trapframe pr) RW e t2 D2 l2 V2); try done; try (unfold PGSIZE in *; lia)|].
  { intros va Hva. change TRAPFRAME with (2 ^ 38 - 8192) in Hva. rewrite L2 by (change MAXVA with (2 ^ 38); unfold PGSIZE in *; lia). rewrite maps_out, root_leaf; [done|done|lia|].
    change TRAMPOLINE with (2 ^ 38 - 4096). unfold PGSIZE in *. lia. }
  { upath. }
  { rewrite map_size_singleton in C2. cbn [length upaths]. lia. }
  intros r t3 (-> & D3 & l3 & V3 & G3 & P3 & C3 & L3). change (0 <? 0) with false. cbv match. apply wp_ret. rewrite map_size_singleton in C2.
  assert (S2 : forall b, b ∈ l2 -> b ∈ l) by (intros b; by apply (grown_tail _ _ _ _ _ _ _ G2)). assert (S3 : forall b, b ∈ l3 -> b ∈ l2) by (intros b; by apply (grown_tail _ _ _ _ _ _ _ G3)).
  assert (D2l : forall q b, D2 !! q = Some b -> b ∈ a :: l).
  { intros q b Hq. destruct (gr_used _ _ _ _ _ _ G2) as (u & -> & Hu & _). destruct (Hu _ _ Hq) as [[_ <-]%lookup_singleton_Some|Hb]; [left|]. right. apply elem_of_app. by left. }
  assert (D3l : forall q b, D3 !! q = Some b -> b ∈ a :: l).
  { intros q b Hq. destruct (gr_used _ _ _ _ _ _ G3) as (u & E3 & Hu & _). destruct (Hu _ _ Hq) as [Hb|Hb]; [by eapply D2l|]. right. apply S2. rewrite E3. apply elem_of_app. by left. }
  exists D3, l3. split; [done|]. split; [done|]. split; [intros q b Hq; split; [by eapply P3|by eapply D3l]|]. split; [cbn [length]; lia|]. split; [intros b Hb; right; auto|]. split.
  - eapply within_trans; [eapply within_weaken; [|exact W]; intros b ->%list_elem_of_singleton; left|]. eapply within_trans.
    + eapply (grown_within _ _ _ _ _ _ (a :: l) G2); [intros q b [_ <-]%lookup_singleton_Some; left|intros b Hb; by right].
    + eapply (grown_within _ _ _ _ _ _ (a :: l) G3); [done|intros b Hb; right; auto].
  - split; [eapply alike_trans; [exact A2|apply (gr_alike _ _ _ _ _ _ G3)]|]. intros va Hva. rewrite L3 by done. unfold umap. unfold maps at 1 2. destruct (_ && _); [done|]. rewrite L2 by done. unfold maps. destruct (_ && _); [done|]. apply root_leaf.
Qed.
End first.

(** ** The slot *)

Section slot.
Context `{LK : Linker} `{FS : FsOps}.
Hypothesis end_pos : 0 < kernel_end.
Hypothesis trampoline_range : 0 <= trampoline < 2 ^ 56.

(** A process with an address space: its trap frame, its page table with the
    directories [U], and the pages [l] that are left of [l0]. *)
Record space_ok (l0 : list Z) (t : mach) (tf u : Z) (U : dirs) (l : list Z) : Prop := mkSpaceOk {
  sp_vm : vm_ok t u U l;
  sp_tf : page_ok tf /\ tf ∈ l0 /\ tf ∉ l /\ forall p, U !! p <> Some tf;
  sp_dirs : forall p a, U !! p = Some a -> p ∈ upaths /\ a ∈ l0;
  sp_sub : forall a, a ∈ l -> a ∈ l0
}.

Lemma wp_set_proc_here g p e s pr (Q : unit -> mach -> Prop) : procs s !! p = Some pr -> Q tt (with_proc g p s) -> wp (set_proc p g) e s Q.
Proof using. intros Hp HQ. exists tt, (with_proc g p s). split; [by apply (set_proc_with g p e s pr)|done]. Qed.

Lemma vm_ok_proc g p s root D l : vm_ok s root D l -> vm_ok (with_proc g p s) root D l.
Proof using. intros [V1 V2 V3 V4]. by split. Qed.

Lemma kmem_ok_enter lk s l : lk <> Lkmem -> hart_ok s -> free_lock s Lkmem -> kmem_inv s l -> kmem_ok (enter lk s) l.
Proof using. intros Hl Hok Hf Hi. split; [|exact Hi]. split; [by apply hart_ok_enter|by apply free_lock_enter]. Qed.

Lemma wp_allocproc_found e s pr l : hart_ok s -> (forall lk, lk = Lkmem \/ lk = Lpid \/ lk = Lproc 0 -> free_lock s lk) -> procs s !! 0%nat = Some pr ->
  kmem_inv s l -> (7 <= length l)%nat ->
  wp (allocproc_found 0) e (enter (Lproc 0) s) (fun r t => r = Some 0%nat /\ exists tf u U l' mm fl, t = slot_taken 0 tf u mm fl s /\ u <> 0 /\
    space_ok l t tf u U l' /\ (length l <= S (length l' + size U))%nat /\ within l s t /\ forall va, 0 <= va < MAXVA -> leaf (mem t) U va = umap tf va).
Proof using end_pos trampoline_range.
  intros Hok Hlk Hp Hl Hlen. destruct l as [|tf l]; [cbn in Hlen; lia|]. cbn [length] in Hlen.
  assert (K := kmem_ok_enter (Lproc 0) s (tf :: l) ltac:(done) Hok ltac:(apply Hlk; auto) Hl).
  assert (H : wp (allocproc_found 0) e (enter (Lproc 0) s) (fun r t => r = Some 0%nat /\ exists u U l', u <> 0 /\ space_ok (tf :: l) t tf u U l' /\ (length (tf :: l) <= S (length l' + size U))%nat /\ (exists q, procs t !! 0%nat = Some q /\ trapframe q = tf /\ pagetable q = u) /\
     within (tf :: l) s t /\ forall va, 0 <= va < MAXVA -> leaf (mem t) U va = umap tf va)).
  { unfold allocproc_found. apply wp_bind. exists (nextpid s), (enter (Lproc 0) s <| nextpid ::= Z.succ |>).
    split; [apply (allocpid_nested e (enter (Lproc 0) s)); [by apply enter_nested|apply free_lock_enter; auto]|]. set (s1 := _ <| nextpid ::= Z.succ |>).
    apply wp_bind, (wp_set_proc_here _ _ _ s1 pr); [done|]. set (s2 := with_proc _ 0 s1). apply wp_bind. eapply (wp_set_proc_here _ _ _ s2); [by apply (lookup_alter_here (fun p => p <| pid := nextpid s |>))|]. set (s3 := with_proc _ 0 s2).
    apply wp_bind. destruct K as [Kr Ki]. destruct (kalloc_spec end_pos e s3 (tf :: l) Kr Ki) as (t & E & T1 & T2 & T3 & T4 & T5 & T6). eapply wp_call; [exact E|]. cbn [hd tail] in *.
    assert (P3 : procs t !! 0%nat = Some (pr <| pid := nextpid s |> <| state := USED |>)).
    { rewrite (procs_alike _ _ T2). apply (lookup_alter_here (fun p => p <| state := USED |>)). by apply (lookup_alter_here (fun p => p <| pid := nextpid s |>)). }
    apply wp_bind. eapply (wp_set_proc_here _ _ _ t); [exact P3|]. set (t1 := with_proc _ 0 t). assert (H0 := page_pos end_pos tf T4). destruct (Z.eqb_spec tf 0); [lia|].
    assert (P4 : procs t1 !! 0%nat = Some (pr <| pid := nextpid s |> <| state := USED |> <| trapframe := tf |>)) by (by apply (lookup_alter_here (fun p => p <| trapframe := tf |>))).
    assert (W1 : within (tf :: l) s t1) by (intros b Hb; apply T6, Hb; left).
    apply wp_bind. eapply wp_mono; [apply (wp_proc_pagetable end_pos trampoline_range 0 _ e t1 l P4); [exact T4|exact T5|by split|lia]|].
    intros u t2 (U & l' & Hu & V & HU & C & S & W & A & L). assert (P5 := P4). rewrite <- (procs_alike _ _ A) in P5.
    apply wp_bind. eapply (wp_set_proc_here _ _ _ t2); [exact P5|]. destruct (Z.eqb_spec u 0); [done|].
    apply wp_bind. eapply (wp_set_proc_here _ _ _ _); [by apply (lookup_alter_here (fun p => p <| pagetable := u |>))|]. apply wp_ret. split; [done|]. exists u, U, l'. split; [done|]. split.
    - split; [by apply vm_ok_proc, vm_ok_proc| |intros q a Hq; destruct (HU q a Hq); split; [done|by right]|intros a Ha; right; auto].
      split; [done|]. split; [left|]. split; [intros Hin; by apply T5, S|]. intros q Hq. apply HU in Hq as [_ Hq]. done.
    - split; [cbn [length]; lia|]. split; [|split; [|exact L]].
      + eexists. split; [apply (lookup_alter_here _ _ _ _ (lookup_alter_here (fun p => p <| pagetable := u |>) _ _ _ P5))|done].
      + eapply within_trans; [exact W1|]. eapply within_weaken; [|exact W]. intros a Ha. by right. }
  destruct H as (r & t & E & -> & u & U & l' & Hu & Sp & C & (q & Hq & Htf & Hut) & W & L). exists (Some 0%nat), t. split; [done|]. split; [done|].
  apply (allocproc_found_inv 0 e s pr) in E as [_ [(_ & tf' & u' & mm & fl & _ & _ & ->)|(? & _)]]; [|done..].
  cbn in Hq. rewrite list_lookup_alter_eq, Hp in Hq. injection Hq as <-. cbn in Htf, Hut. subst tf' u'. exists tf, u, U, l', mm, fl. done.
Qed.

Lemma wp_allocproc e s pr l : hart_ok s -> (forall lk, lk = Lkmem \/ lk = Lpid \/ lk = Lproc 0 -> free_lock s lk) -> procs s !! 0%nat = Some pr -> state pr = UNUSED ->
  kmem_inv s l -> (7 <= length l)%nat ->
  wp allocproc e s (fun r t => r = Some 0%nat /\ exists tf u U l' mm fl, t = slot_taken 0 tf u mm fl s /\ u <> 0 /\
    space_ok l t tf u U l' /\ (length l <= S (length l' + size U))%nat /\ within l s t /\ forall va, 0 <= va < MAXVA -> leaf (mem t) U va = umap tf va).
Proof using end_pos trampoline_range.
  intros Hok Hlk Hp Hst Hl Hlen. unfold allocproc. apply wp_bind. exists (Some 0%nat), (enter (Lproc 0) s). split; [|by apply (wp_allocproc_found e s pr l)].
  change proc_table with (0%nat :: seq 1 63). cbn [for_first]. unfold find_unused. rewrite !bindE, acquire_Ret by auto. rewrite bindE, (get_proc_Ret 0 e _ pr) by done.
  by rewrite bool_decide_eq_true_2 by done.
Qed.

(** ** The code of the process *)

Definition URWX : Z := Z.lor PTE_W (Z.lor PTE_R (Z.lor PTE_X PTE_U)).

(** A page that holds the bytes [src], and zeros after them. *)
Definition holds (m : bytes) (pg : Z) (src : list Z) : Prop := forall i, 0 <= i < PGSIZE -> load8 m (pg + i) = u8 (default 0 (src !! Z.to_nat i)).

Lemma vm_only_uvmfirst u src : vm_only (uvmfirst u src).
Proof using. unfold uvmfirst. repeat vm_step; apply (vm_only_modify_mem (fun m => store_bytes m _ src)). Qed.

Lemma space_write l0 t tf u U l a g : space_ok l0 t tf u U l -> page_ok a -> a ∉ l -> (forall p, U !! p <> Some a) -> (forall b, ~ in_page a b -> load8 (g (mem t)) b = load8 (mem t) b) ->
  space_ok l0 (t <| mem ::= g |>) tf u U l /\ forall va, leaf (g (mem t)) U va = leaf (mem t) U va.
Proof using. intros [V1 V2 V3 V4] Ha Hl Hd Hg. destruct (vm_ok_write t u U l a g V1 Ha Hl Hd Hg) as [V L]. split; [by split|done]. Qed.

Lemma wp_uvmfirst e t l0 tf u U l src : space_ok l0 t tf u U l -> (8 <= length l0)%nat -> (length l0 <= S (length l + size U))%nat -> Z.of_nat (length src) < PGSIZE ->
  (forall va, 0 <= va < MAXVA -> leaf (mem t) U va = umap tf va) ->
  wp (uvmfirst u src) e t (fun _ t' => exists pg U' l', space_ok l0 t' tf u U' l' /\ page_ok pg /\ pg ∈ l0 /\ pg ∉ l' /\ pg <> tf /\ (forall p, U' !! p <> Some pg) /\
    within l0 t t' /\ holds (mem t') pg src /\ forall va, 0 <= va < MAXVA -> leaf (mem t') U' va = maps (umap tf) 0 pg URWX 1 va).
Proof using end_pos trampoline_range.
  intros [V (T1 & T2 & T3 & T4) HU HS] H8 Hc Hsrc L. unfold uvmfirst. destruct (Z.leb_spec PGSIZE (Z.of_nat (length src))); [lia|].
  assert (Hb := dirs_bound U upaths (fun p a Hp => proj1 (HU p a Hp))). change (length upaths) with 5%nat in Hb. destruct l as [|pg l]; [cbn [length] in Hc; lia|]. cbn [length] in Hc.
  assert (Hnd := proj2 (vo_free _ _ _ _ V)). apply list.NoDup_cons in Hnd as [Hpl _]. assert (Hpg : page_ok pg) by (eapply free_page; [apply (vo_free _ _ _ _ V)|left]).
  assert (Hpu : forall p, U !! p <> Some pg) by (intros p Hp; apply (vo_apart _ _ _ _ V) in Hp; apply Hp; left). assert (H0 := page_pos end_pos pg Hpg). assert (Hrg := page_range end_pos _ Hpg).
  apply wp_bind. eapply wp_mono; [apply (wp_kalloc end_pos e t u U (pg :: l) V)|]. intros r t1 (-> & V1 & A1 & L1 & O1). cbn [hd tail] in *.
  apply wp_bind. unfold memset_mem. destruct (Z.eqb_spec pg 0); [lia|]. apply wp_modify.
  destruct (vm_ok_write t1 u U l pg (fun m => memset m pg 0 PGSIZE) V1 Hpg Hpl Hpu) as [V2 L2]; [intros b Hb2; by apply load8_memset_out|]. set (t2 := t1 <| mem ::= _ |>) in *.
  apply wp_bind. change PGSIZE with (1 * PGSIZE) at 1. eapply wp_mono; [apply (wp_map_enough end_pos upaths u 0 1 pg URWX e t2 U l V2); try done; try (unfold PGSIZE in *; lia)|].
  { intros va Hva. change (leaf (mem t2) U va) with (leaf (memset (mem t1) pg 0 PGSIZE) U va). rewrite L2, L1, L by (change MAXVA with (2 ^ 38); unfold PGSIZE in *; lia). unfold umap. rewrite !maps_out; try done; try lia; left; unfold PGSIZE in *; [change TRAMPOLINE with (2 ^ 38 - 4096)|change TRAPFRAME with (2 ^ 38 - 8192)]; lia. }
  { intros p a Hp. by apply (HU p a). }
  { intros p Hp. apply one_page_way in Hp as [->| ->]; apply (bool_decide_unpack _); by vm_compute. }
  { change (length upaths) with 5%nat. lia. }
  intros r t3 (-> & U' & l' & V3 & G & P3 & C3 & L3). apply wp_modify. assert (Sub : forall a, a ∈ l' -> a ∈ l) by (intros a; by apply (grown_tail _ _ _ _ _ _ _ G)).
  assert (Hpu' : forall p, U' !! p <> Some pg).
  { intros p Hp. destruct (gr_used _ _ _ _ _ _ G) as (x & -> & Hx & _). destruct (Hx _ _ Hp) as [Hp'|Hin]; [by apply (Hpu p)|]. apply Hpl, elem_of_app. by left. }
  assert (HU' : forall p a, U' !! p = Some a -> a ∈ l0 /\ a <> tf).
  { intros p a Hp. destruct (gr_used _ _ _ _ _ _ G) as (x & -> & Hx & _). destruct (Hx _ _ Hp) as [Hp'|Hin].
    - split; [by apply (HU p a)|]. intros ->. by apply (T4 p).
    - assert (Ha : a ∈ pg :: x ++ l') by (right; apply elem_of_app; by left). split; [by apply HS|]. intros ->. by apply T3. }
  assert (Hpl' : pg ∉ l') by (intros Hin; by apply Hpl, Sub).
  destruct (vm_ok_write t3 u U' l' pg (fun m => store_bytes m pg src) V3 Hpg Hpl' Hpu') as [V4 L4].
  { intros b Hnb. rewrite load8_store_bytes. destruct (Z.leb_spec pg b), (Z.ltb_spec b (pg + Z.of_nat (length src))); try done. exfalso. apply Hnb. unfold in_page. lia. }
  exists pg, U', l'. split; [split|].
  - done.
  - split; [done|]. split; [done|]. split; [intros Hin; apply T3; right; auto|]. intros p Hp. by apply HU' in Hp as [_ ?].
  - intros p a Hp. split; [by eapply P3|by apply (HU' p)].
  - intros a Ha. apply HS. right. auto.
  - split; [done|]. split; [apply HS; left|]. split; [done|]. split; [intros ->; apply T3; left|]. split; [done|]. split; [|split].
    + intros b Hb2. assert (Hnb : ~ in_page pg b) by (apply Hb2, HS; left). cbn. rewrite load8_store_bytes. destruct (Z.leb_spec pg b), (Z.ltb_spec b (pg + Z.of_nat (length src))); cbn [andb];
        try (exfalso; apply Hnb; unfold in_page; lia);
        rewrite (gr_out _ _ _ _ _ _ G) by (intros p a Hp; apply Hb2; by apply (HU' p)); cbn; rewrite load8_memset_out by done; by apply O1.
    + intros i Hi. cbn. rewrite load8_store_bytes. destruct (Z.leb_spec pg (pg + i)); [|lia]. cbn [andb]. replace (pg + i - pg) with i by lia. destruct (Z.ltb_spec (pg + i) (pg + Z.of_nat (length src))); [done|].
      rewrite (lookup_ge_None_2 src) by lia. cbn [default]. assert (Hin : in_page pg (pg + i)) by (unfold in_page; lia).
      rewrite (gr_out _ _ _ _ _ _ G); [by apply load8_zeroed|]. intros p a Hp. apply (in_page_neq pg); [done|by eapply (pr_page _ _ _ (vo_rep _ _ _ _ V3))| |done]. intros <-. by apply (Hpu' p).
    + intros va Hva. cbn. rewrite L4, L3 by done. unfold maps at 1 2. destruct (_ && _); [done|]. change (leaf (mem t2) U va) with (leaf (memset (mem t1) pg 0 PGSIZE) U va). by rewrite L2, L1, L.
Qed.
End slot.

(** ** The root directory *)

Section root.
Context `{LK : Linker} `{DK : Disk} `{DV : Devices}.

(** No inode is in use. *)
Definition no_inodes (s : mach) : Prop := forall i, (i < NINODE)%nat -> exists ip, inodes s !! i = Some ip /\ iref ip = 0.

Definition root_ref (ip : inode) : inode := ip <| idev := ROOTDEV |> <| inum := ROOTINO |> <| iref := 1 |> <| ivalid := 0 |>.

Lemma iget_scan_none e s dev n l : forall empty, (forall i, i ∈ l -> exists ip, inodes s !! i = Some ip /\ iref ip = 0) ->
  iget_scan dev n l empty e s = Ret (inr (match empty with Some _ => empty | None => head l end)) e s.
Proof using.
  induction l as [|i l IH]; intros empty H; [by destruct empty|]. cbn [iget_scan]. destruct (H i) as (ip & Hi & H0); [left|]. rewrite bindE. unfold get_inode. msimp. rewrite Hi. msimp. rewrite H0.
  change (0 <? 0) with false. change (0 =? 0) with true. cbn [andb]. cbv match. rewrite IH by (intros j Hj; apply H; by right). by destruct empty.
Qed.

Lemma namei_root fuel e s : hart_ok s -> free_lock s Litable -> no_inodes s ->
  Fs.namei (S fuel) [SLASH] e s = Ret (Some 0%nat) e (left_off (s <| inodes ::= alter root_ref 0%nat |>)).
Proof using.
  intros Hok Hf Hn. unfold Fs.namei, namex. change (byte_at [SLASH] 0 =? SLASH) with true. cbv match. rewrite bindE, bindE. unfold iget. rewrite bindE, acquire_Ret, bindE by done.
  rewrite iget_scan_none by (intros i Hi%elem_of_seq; apply Hn; unfold NINODE in *; lia). cbv match. destruct (Hn 0%nat) as (ip & Hi & _); [unfold NINODE; lia|].
  change (head (seq 0 NINODE)) with (Some 0%nat). cbv match. rewrite bindE.
  rewrite (set_inode_Ret e 0 _ (enter Litable s) ip) by done.
  rewrite bindE, (release_from Litable e _ (s <| inodes ::= alter root_ref 0%nat |>)); [|by destruct s|done|done]. reflexivity.
Qed.

(** ** [userinit] *)

Context (fuel : nat) (code : list Z).
Hypothesis end_pos : 0 < kernel_end.
Hypothesis trampoline_range : 0 <= trampoline < 2 ^ 56.

Definition init_name : bytes := store_bytes ∅ 0 [105; 110; 105; 116; 99; 111; 100; 101].

(** The slot of the first process. *)
Definition init_slot (pid_ tf u : Z) (pr : proc) : proc :=
  new_slot pid_ tf u pr <| sz := PGSIZE |> <| name ::= fun n => safestrcpy n 0 init_name 0 16 |> <| cwd := Some 0%nat |> <| state := RUNNABLE |>.

(** What [userinit] changes besides memory. *)
Definition inited (tf u : Z) (mm : bytes) (fl : Z) (s : mach) : mach :=
  left_off (with_vm mm fl (with_proc (init_slot (nextpid s) tf u) 0 (s <| nextpid ::= Z.succ |> <| initproc := Some 0%nat |> <| inodes ::= alter root_ref 0%nat |>))).

(** The address space of the first process. *)
Record first_space (l0 : list Z) (m : bytes) (tf pg : Z) (U : dirs) : Prop := mkFirstSpace {
  fs_leaf : forall va, 0 <= va < MAXVA -> leaf m U va = maps (umap tf) 0 pg URWX 1 va;
  fs_code : holds m pg code;
  fs_frame : load64 m (tf + TF_EPC) = 0 /\ load64 m (tf + TF_SP) = PGSIZE;
  fs_pages : pg <> tf /\ page_ok pg /\ page_ok tf /\ pg ∈ l0 /\ tf ∈ l0
}.

Lemma space_move l0 s t tf u U l : space_ok l0 s tf u U l -> mem t = mem s -> freelist t = freelist s -> kmem_ready t -> space_ok l0 t tf u U l.
Proof using. intros [[V1 V2 V3 V4] S2 S3 S4] Em Ef Hr. split; [|done..]. split; [done| |by rewrite Em|done]. unfold kmem_inv in *. by rewrite Em, Ef. Qed.

Lemma vm_ok_left_off s root D l : vm_ok s root D l -> vm_ok (left_off s) root D l.
Proof using. intros [[V1 V1'] V2 V3 V4]. split; [split; [by apply hart_ok_left_off|by apply free_lock_left_off]|done|done|done]. Qed.

Lemma frame_words m tf : let m' := store64 (store64 m (tf + TF_EPC) 0) (tf + TF_SP) PGSIZE in
  load64 m' (tf + TF_EPC) = 0 /\ load64 m' (tf + TF_SP) = PGSIZE /\ forall b, ~ in_page tf b -> load8 m' b = load8 m b.
Proof using.
  cbv zeta. unfold TF_EPC, TF_SP. split; [|split].
  - rewrite load64_store64_other by lia. by rewrite load64_store64.
  - by rewrite load64_store64.
  - intros b Hb. change 48 with (8 * 6). change 24 with (8 * 3). by rewrite !load8_store64_out by (done || lia).
Qed.

Lemma wp_userinit e s pr l : hart_ok s -> (forall lk, lk ∈ [Lkmem; Lpid; Lproc 0; Litable] -> free_lock s lk) -> procs s !! 0%nat = Some pr -> state pr = UNUSED -> no_inodes s ->
  kmem_inv s l -> (8 <= length l)%nat -> Z.of_nat (length code) < PGSIZE ->
  wp (userinit (FS := fs_ops (S fuel)) code) e s (fun _ t => exists tf u mm fl pg U l', t = inited tf u mm fl s /\
    vm_ok t u U l' /\ (forall p a, U !! p = Some a -> a ∈ l /\ a <> tf /\ a <> pg) /\ (forall a, a ∈ l' -> a ∈ l) /\ within l s t /\ tf ∉ l' /\ pg ∉ l' /\ first_space l mm tf pg U).
Proof using end_pos trampoline_range.
  intros Hok Hlk Hp Hst Hin Hl H8 Hsrc. set (FS := fs_ops (S fuel)).
  assert (F : forall lk, lk = Lkmem \/ lk = Lpid \/ lk = Lproc 0 -> free_lock s lk) by (intros lk H; apply Hlk; destruct H as [->|[->| ->]]; repeat (left || right)).
  unfold userinit. apply wp_bind. eapply wp_mono; [apply (wp_allocproc end_pos trampoline_range e s pr l); try done; lia|].
  intros r t (-> & tf & u & U & l1 & m1 & f1 & Et & Hu & Sp & C & W & L). apply wp_bind, wp_modify. cbn [or_fault]. apply wp_bind, wp_ret.
  set (X := with_vm m1 f1 (with_proc (new_slot (nextpid s) tf u) 0 (s <| nextpid ::= Z.succ |> <| initproc := Some 0%nat |>))).
  assert (E1 : t <| initproc := Some 0%nat |> = enter (Lproc 0) X) by (rewrite Et; reflexivity). rewrite E1. clear E1.
  assert (HX : hart_ok X) by exact Hok. assert (FX : forall lk, lk ∈ [Lkmem; Lpid; Lproc 0; Litable] -> free_lock X lk) by exact Hlk.
  set (pr1 := new_slot (nextpid s) tf u pr). assert (P1 : procs X !! 0%nat = Some pr1) by (by apply (lookup_alter_here (new_slot (nextpid s) tf u))).
  assert (N1 : nested (enter (Lproc 0) X)) by by apply enter_nested. assert (K1 : free_lock (enter (Lproc 0) X) Lkmem) by (apply free_lock_enter; [done|by apply FX; repeat (left || right)]).
  assert (Sp1 : space_ok l (enter (Lproc 0) X) tf u U l1) by (apply (space_move l t); [done|by rewrite Et..|split; [by apply hart_ok_enter|done]]).
  apply wp_bind. exists pr1, (enter (Lproc 0) X). split; [by apply get_proc_Ret|]. apply wp_bind. change (pagetable pr1) with u. change (trapframe pr1) with tf.
  eapply wp_mono; [apply (wp_vm_only (uvmfirst u code)); [apply vm_only_uvmfirst|by apply nested_still|exact K1|]|].
  { apply (wp_uvmfirst end_pos trampoline_range e _ l tf u U l1 code Sp1 H8 C Hsrc). intros va Hva. change (mem (enter (Lproc 0) X)) with m1. rewrite <- (L va Hva), Et. done. }
  intros _ t2 ((pg & U' & l' & Sp2 & Q1 & Q2 & Q3 & Q4 & Q5 & W2 & Hh & L2) & m2 & f2 & ->).
  cbv beta in *. set (Y := with_vm m2 f2 X). change (with_vm m2 f2 (enter (Lproc 0) X)) with (enter (Lproc 0) Y) in *.
  set (g1 := fun q : proc => q <| sz := PGSIZE |>). apply wp_bind, (wp_set_proc_here g1 0 e (enter (Lproc 0) Y) pr1); [exact P1|].
  apply wp_bind, wp_modify. apply wp_bind, wp_modify. set (m3 := fun m => store64 (store64 m (tf + TF_EPC) 0) (tf + TF_SP) PGSIZE).
  set (g2 := fun q : proc => q <| name ::= fun n => safestrcpy n 0 init_name 0 16 |>).
  set (Y1 := with_proc g1 0 Y <| mem ::= m3 |>). change (_ <| mem ::= _ |>) with (enter (Lproc 0) Y1).
  assert (P2 := lookup_with_proc g1 0 Y pr1 P1). apply wp_bind, (wp_set_proc_here g2 0 e (enter (Lproc 0) Y1) (g1 pr1)); [exact P2|].
  set (Y2 := with_proc g2 0 Y1). change (with_proc g2 0 (enter (Lproc 0) Y1)) with (enter (Lproc 0) Y2).
  assert (P3 := lookup_with_proc g2 0 Y1 (g1 pr1) P2). assert (N2 : nested (enter (Lproc 0) Y2)) by by apply enter_nested.
  apply wp_bind. cbn [File.namei fs_ops FS]. change (path_bytes "/") with [SLASH]. eapply wp_call.
  { apply namei_root; [by apply nested_hart_ok| |exact Hin]. apply free_lock_enter; [done|apply FX; repeat (left || right)]. }
  rewrite nested_left_off_id by exact N2.
  set (g3 := fun q : proc => q <| cwd := Some 0%nat |>). set (g4 := fun q : proc => q <| state := RUNNABLE |>).
  set (Y3 := Y2 <| inodes ::= alter root_ref 0%nat |>). change (_ <| inodes ::= _ |>) with (enter (Lproc 0) Y3).
  apply wp_bind, (wp_set_proc_here g3 0 e (enter (Lproc 0) Y3) (g2 (g1 pr1))); [exact P3|].
  set (Y4 := with_proc g3 0 Y3). change (with_proc g3 0 (enter (Lproc 0) Y3)) with (enter (Lproc 0) Y4).
  assert (P4 := lookup_with_proc g3 0 Y3 _ P3). apply wp_bind, (wp_set_proc_here g4 0 e (enter (Lproc 0) Y4) _ _ P4).
  set (Y5 := with_proc g4 0 Y4). change (with_proc g4 0 (enter (Lproc 0) Y4)) with (enter (Lproc 0) Y5).
  eapply wp_call; [apply release_enter; [exact Hok|apply FX; repeat (left || right)]|].
  assert (EY : left_off Y5 = inited tf u (m3 m2) f2 s).
  { unfold inited, Y5, Y4, Y3, Y2, Y1, Y, X. f_equal. unfold with_proc, with_vm. destruct s. cbn. by rewrite !list_alter_alter_eq. }
  destruct (frame_words m2 tf) as (M1 & M2 & M3). destruct Sp2 as [V2 (S1 & S2 & S3 & S4) SU SS].
  destruct (vm_ok_write (enter (Lproc 0) Y) u U' l' tf m3 V2 S1 S3 S4 M3) as [V3 L3].
  exists tf, u, (m3 m2), f2, pg, U', l'. split; [exact EY|]. split.
  { apply vm_ok_left_off. destruct V3 as [_ V3b V3c V3d]. split; [|exact V3b|exact V3c|exact V3d]. split; [exact Hok|apply FX; repeat (left || right)]. }
  split; [intros p a Hp'; split; [by apply (SU p a)|]; split; intros ->; [by apply (S4 p)|by apply (Q5 p)]|]. split; [exact SS|]. split.
  { intros b Hb. change (load8 (m3 m2) b = load8 (mem s) b). rewrite M3 by (by apply Hb). transitivity (load8 m1 b); [by apply W2|]. rewrite <- (W b Hb), Et. done. }
  split; [exact S3|]. split; [exact Q3|]. split.
  - intros va Hva. rewrite <- (L2 va Hva). apply L3.
  - intros i Hi. rewrite <- (Hh i Hi). apply M3. apply (in_page_neq pg); [done|done|done|]. unfold in_page. lia.
  - by split.
  - done.
Qed.
End root.

(** What [exec] reads of the page: the path, and a vector of two pointers of 64
    bits, the second of which goes past the end of [initcode]. *)
Lemma initcode_args m pg : holds m pg initcode ->
  (forall i c, path_bytes "/init" !! i = Some c -> load8 m (pg + 36 + Z.of_nat i) = c) /\ load8 m (pg + 41) = 0 /\ load64 m (pg + 43) = 36 /\ load64 m (pg + 51) = 0.
Proof.
  intros H. assert (H8 : forall i, 0 <= i < PGSIZE -> load8 m (pg + i) = u8 (default 0 (initcode !! Z.to_nat i))) by exact H.
  assert (H64 : forall i, 0 <= i -> i + 8 <= PGSIZE -> load64 m (pg + i) = fold_right (fun k v => u8 (default 0 (initcode !! Z.to_nat (i + k))) + 256 * v) 0 (seqZ 0 8)).
  { intros i H1 H2. change (seqZ 0 8) with [0; 1; 2; 3; 4; 5; 6; 7]. cbn [fold_right]. unfold load64. cbn [load_le]. rewrite <- !Z.add_assoc. rewrite !H8 by lia. rewrite (Z.add_0_r i). reflexivity. }
  split; [|split; [|split]].
  - intros i c Hc. rewrite <- Z.add_assoc, H8 by (apply lookup_lt_Some in Hc; cbn in Hc; unfold PGSIZE; lia).
    do 5 (destruct i as [|i]; [injection Hc as <-; by vm_compute|]). discriminate Hc.
  - rewrite H8 by (unfold PGSIZE; lia). by vm_compute.
  - rewrite H64 by (unfold PGSIZE; lia). by vm_compute.
  - rewrite H64 by (unfold PGSIZE; lia). by vm_compute.
Qed.

(** [userinit], with at least eight free pages: the first slot becomes a
    process that can run, whose name is initcode, whose current directory is the
    root; its page table maps the page
    of its code at 0, readable, writable and executable by it, its trap frame and
    the trampoline at the top for the kernel only, and nothing else; the page
    has the code and zeros after it, so that [exec] finds the path /init at 36
    and a vector of one argument at 43, though its end is not part of the code;
    the trap frame starts it at 0 with the stack pointer at the end of its page.
    The pages that remain free are neither its frames nor part of its table, and
    memory outside the free pages is as before. *)
Theorem userinit_correct `{LK : Linker} `{DK : Disk} `{DV : Devices} fuel e s pr l (Hend : 0 < kernel_end) (Ht : 0 <= trampoline < 2 ^ 56)
  (Hok : hart_ok s) (Hlk : forall lk, lk ∈ [Lkmem; Lpid; Lproc 0; Litable] -> free_lock s lk)
  (Hp : procs s !! 0%nat = Some pr) (Hst : state pr = UNUSED) (Hin : no_inodes s) (Hl : kmem_inv s l) (H8 : (8 <= length l)%nat) :
  exists t tf u mm fl pg U l', userinit (FS := fs_ops (S fuel)) initcode e s = Ret tt e t /\ t = inited tf u mm fl s /\
    vm_ok t u U l' /\ (forall p a, U !! p = Some a -> a ∈ l /\ a <> tf /\ a <> pg) /\ (forall a, a ∈ l' -> a ∈ l) /\ within l s t /\ tf ∉ l' /\ pg ∉ l' /\
    first_space initcode l mm tf pg U /\ load64 mm (pg + 43) = 36 /\ load64 mm (pg + 51) = 0.
Proof.
  destruct (wp_userinit fuel initcode Hend Ht e s pr l Hok Hlk Hp Hst Hin Hl H8 ltac:(by vm_compute)) as ([] & t & E & tf & u & mm & fl & pg & U & l' & H1 & H2 & H3 & H4 & H5 & H6 & H7 & F).
  destruct (initcode_args mm pg (fs_code _ _ _ _ _ _ F)) as (_ & _ & G). by exists t, tf, u, mm, fl, pg, U, l'.
Qed.

(** ** An instance *)

Definition boot_locks : gmap lockid spinlock :=
  {[ Lkmem := mkSpinlock 0 "kmem" None; Lpid := mkSpinlock 0 "nextpid" None; Lproc 0 := mkSpinlock 0 "proc" None; Litable := mkSpinlock 0 "itable" None ]}.

Definition boot_state : mach :=
  many_state <| locks := boot_locks |> <| procs := replicate NPROC proc0 |> <| inodes := replicate NINODE no_inode |>.

Lemma boot_free lk : lk ∈ [Lkmem; Lpid; Lproc 0; Litable] -> free_lock boot_state lk.
Proof. intros H. repeat (apply list.elem_of_cons in H as [->|H]; [by eexists|]). by apply elem_of_nil in H. Qed.

Lemma boot_inodes : no_inodes boot_state.
Proof. intros i Hi. exists no_inode. split; [|done]. by apply lookup_replicate_2. Qed.

Lemma userinit_correct_witness :
  exists t tf u mm fl pg U l', @userinit many_pages (@fs_ops (virtio_disk 1) (console_devices 1) 1) initcode [] boot_state = Ret tt [] t /\ t = inited tf u mm fl boot_state /\
    @vm_ok many_pages t u U l' /\ (forall p a, U !! p = Some a -> a ∈ many_free /\ a <> tf /\ a <> pg) /\ (forall a, a ∈ l' -> a ∈ many_free) /\ within many_free boot_state t /\ tf ∉ l' /\ pg ∉ l' /\
    @first_space many_pages initcode many_free mm tf pg U /\ load64 mm (pg + 43) = 36 /\ load64 mm (pg + 51) = 0.
Proof.
  refine (@userinit_correct many_pages (virtio_disk 1) (console_devices 1) 0 [] boot_state proc0 many_free _ _ (proj1 many_ready) boot_free eq_refl eq_refl boot_inodes many_inv _); (apply (bool_decide_unpack _); by vm_compute).
Defined.
