(* ===== verification/Trap.v ===== *)
(** * Traps and interrupts

    Model of [kernel/trap.c] and [kernel/plic.c].  [usertrapret] ends in a jump
    to [userret] of [trampoline.S]: its result is the argument of that jump. *)
From stdpp Require Import base tactics list numbers gmap strings.
From S2P Require Import Prelude Printf Machine Spinlock Vm Sched Uart File Proc Syscall SysPath Console Virtio.

Open Scope Z_scope.

(** ** Supervisor registers *)

Definition SSTATUS_SPP : Z := Z.shiftl 1 8.
Definition SSTATUS_SPIE : Z := Z.shiftl 1 5.
Definition SSTATUS_SIE : Z := Z.shiftl 1 1.
Definition SATP_SV39 : Z := Z.shiftl 8 60.
Definition MAKE_SATP (pagetable : Z) : Z := Z.lor SATP_SV39 (Z.shiftr (u64 pagetable) 12).

Definition get_csr : M csrs := c ← mycpu; k ← get_cpu c; mret (csr k).
Definition set_csr (f : csrs -> csrs) : M unit := c ← mycpu; set_cpu c (fun k => k <| csr ::= f |>).

(** The interrupt enable bit of [sstatus] is the field [sie] of the hart. *)
Definition r_sstatus : M Z :=
  c ← mycpu;
  k ← get_cpu c;
  mret (Z.lor (Z.ldiff (sstatus (csr k)) SSTATUS_SIE) (if sie k then SSTATUS_SIE else 0)).

Definition w_sstatus (x : Z) : M unit :=
  c ← mycpu;
  set_cpu c (fun k => k <| csr ::= fun r => r <| sstatus := x |> |> <| sie := negb (Z.land x SSTATUS_SIE =? 0) |>).

Definition r_scause : M Z := r ← get_csr; mret (scause r).
Definition r_sepc : M Z := r ← get_csr; mret (sepc r).
Definition r_stval : M Z := r ← get_csr; mret (stval r).
Definition r_satp : M Z := r ← get_csr; mret (satp r).
Definition r_time : M Z := r ← get_csr; mret (time_ r).
Definition w_sepc (x : Z) : M unit := set_csr (fun r => r <| sepc := x |>).
Definition w_stvec (x : Z) : M unit := set_csr (fun r => r <| stvec := x |>).
Definition w_stimecmp (x : Z) : M unit := set_csr (fun r => r <| stimecmp := x |>).

(** ** The interrupt controller *)

Definition UART0_IRQ : Z := 10.
Definition VIRTIO0_IRQ : Z := 1.
Definition PLIC_SENABLE (hart : Z) : Z := PLIC + 0x2080 + hart * 0x100.
Definition PLIC_SPRIORITY (hart : Z) : Z := PLIC + 0x201000 + hart * 0x2000.
Definition PLIC_SCLAIM (hart : Z) : Z := PLIC + 0x201004 + hart * 0x2000.

Definition plic_write (a v : Z) : M unit :=
  modify (fun s => s <| io ::= fun d => d <| plic_writes ::= cons (a, v) |> |>).

Definition plicinit : M unit :=
  plic_write (PLIC + UART0_IRQ * 4) 1;;
  plic_write (PLIC + VIRTIO0_IRQ * 4) 1.

Definition plicinithart : M unit :=
  hart ← cpuid;
  plic_write (PLIC_SENABLE (Z.of_nat hart)) (Z.lor (Z.shiftl 1 UART0_IRQ) (Z.shiftl 1 VIRTIO0_IRQ));;
  plic_write (PLIC_SPRIORITY (Z.of_nat hart)) 0.

(** The claim register reads as the pending interrupt, 0 when there is none. *)
Definition plic_claim : M Z :=
  s ← read id;
  modify (fun s => s <| io ::= fun d => d <| irqs ::= tail |> |>);;
  mret (default 0 (head (irqs (io s)))).

Definition plic_complete (irq : Z) : M unit :=
  hart ← cpuid;
  plic_write (PLIC_SCLAIM (Z.of_nat hart)) irq.

(** ** Traps *)

(** Addresses in the assembly files, and of [usertrap]. *)
Class Vectors : Type := { kernelvec : Z; uservec : Z; userret : Z; usertrap_entry : Z }.

Definition TF_KERNEL_SATP : Z := 0.
Definition TF_KERNEL_SP : Z := 8.
Definition TF_KERNEL_TRAP : Z := 16.
Definition TF_KERNEL_HARTID : Z := 32.

Definition to_string (l : list Z) : string :=
  String.string_of_list_ascii ((fun c => Ascii.ascii_of_N (Z.to_N c)) <$> l).

(** The end of a line. *)
Definition nl : string := String (Ascii.ascii_of_nat 10) "".

(** A call of [printf]. *)
Definition kprintf (fmt : string) (args : list arg) : M unit :=
  locking ← read (fun s => locking (io s));
  when (negb (locking =? 0)) (acquire Lpr);;
  match Printf.printf (path_bytes fmt) args with
  | Done o => modify (fun s => s <| console ::= cons (to_string o) |>)
  | _ => fault
  end;;
  when (negb (locking =? 0)) (release Lpr).

Definition never {A} (x : Empty_set) : M A := match x with end.

Section trap.
Context `{LK : Linker} `{FS : FsOps} `{TP : TaggedPipe} `{PC : PathCalls} `{VC : Vectors} (fuel : nat).

Definition trapinit : M unit := initlock Lticks "time".
Definition trapinithart : M unit := w_stvec kernelvec.

Definition clockintr : M unit :=
  c ← cpuid;
  when (c =? 0)%nat
    (acquire Lticks;;
     modify (fun s => s <| ticks ::= fun t => u32 (t + 1) |>);;
     wakeup ChTicks;;
     release Lticks);;
  t ← r_time;
  w_stimecmp (u64 (t + 1000000)).

Definition devintr : M Z :=
  scause ← r_scause;
  if scause =? 0x8000000000000009 then
    irq ← plic_claim;
    (if irq =? UART0_IRQ then uartintr fuel
     else if irq =? VIRTIO0_IRQ then virtio_disk_intr fuel
     else when (negb (irq =? 0)) (kprintf ("unexpected interrupt irq=%d" +:+ nl) [AInt irq]));;
    when (negb (irq =? 0)) (plic_complete irq);;
    mret 1
  else if scause =? 0x8000000000000005 then clockintr;; mret 2
  else mret 0.

Definition usertrapret : M Z :=
  p ← curproc;
  intr_off;;
  w_stvec (TRAMPOLINE + (uservec - trampoline));;
  pr ← get_proc p;
  kernel_satp ← r_satp;
  store_word (trapframe pr + TF_KERNEL_SATP) kernel_satp;;
  store_word (trapframe pr + TF_KERNEL_SP) (kstack pr + PGSIZE);;
  store_word (trapframe pr + TF_KERNEL_TRAP) usertrap_entry;;
  hart ← cpuid;
  store_word (trapframe pr + TF_KERNEL_HARTID) (Z.of_nat hart);;
  x ← r_sstatus;
  let x := Z.land x (u64 (Z.lnot SSTATUS_SPP)) in
  let x := Z.lor x SSTATUS_SPIE in
  w_sstatus x;;
  epc ← load_word (trapframe pr + TF_EPC);
  w_sepc epc;;
  mret (MAKE_SATP (pagetable pr)).

(** [if(killed(p)) exit(-1);] *)
Definition exit_if_killed (p : nat) : M unit :=
  k ← killed p;
  if negb (k =? 0) then x ← exit (-1); never x else mret tt.

(** What [usertrap] does about the cause of the trap; the result is
    [which_dev]. *)
Definition trap_cause (p : nat) : M Z :=
  cause ← r_scause;
  if cause =? 8 then
    exit_if_killed p;;
    pr ← get_proc p;
    epc ← load_word (trapframe pr + TF_EPC);
    store_word (trapframe pr + TF_EPC) (u64 (epc + 4));;
    intr_on;;
    syscall fuel;;
    mret 0
  else
    d ← devintr;
    if negb (d =? 0) then mret d
    else
      scause ← r_scause;
      pr ← get_proc p;
      kprintf ("usertrap(): unexpected scause 0x%lx pid=%d" +:+ nl) [ALong scause; AInt (pid pr)];;
      sepc ← r_sepc;
      stval ← r_stval;
      kprintf ("            sepc=0x%lx stval=0x%lx" +:+ nl) [ALong sepc; ALong stval];;
      setkilled p;;
      mret 0.

(** The end of [usertrap]. *)
Definition trap_end (p : nat) (which_dev : Z) : M Z :=
  exit_if_killed p;;
  when (which_dev =? 2) yield;;
  usertrapret.

Definition usertrap : M Z :=
  sstatus ← r_sstatus;
  if negb (Z.land sstatus SSTATUS_SPP =? 0) then panic "usertrap: not from user mode"%string
  else
    w_stvec kernelvec;;
    p ← curproc;
    pr ← get_proc p;
    epc ← r_sepc;
    store_word (trapframe pr + TF_EPC) epc;;
    which_dev ← trap_cause p;
    trap_end p which_dev.

(** [if(which_dev == 2 && myproc() != 0) yield();] *)
Definition kernel_yield (which_dev : Z) : M unit :=
  if which_dev =? 2 then p ← myproc; when (bool_decide (p <> None)) yield else mret tt.

Definition kerneltrap : M unit :=
  sepc ← r_sepc;
  sstatus ← r_sstatus;
  scause ← r_scause;
  if Z.land sstatus SSTATUS_SPP =? 0 then panic "kerneltrap: not from supervisor mode"%string
  else
    on ← intr_get;
    if on : bool then panic "kerneltrap: interrupts enabled"%string
    else
      which_dev ← devintr;
      if which_dev =? 0 then
        epc ← r_sepc;
        stval ← r_stval;
        kprintf ("scause=0x%lx sepc=0x%lx stval=0x%lx" +:+ nl) [ALong scause; ALong epc; ALong stval];;
        panic "kerneltrap"%string
      else
        kernel_yield which_dev;;
        w_sepc sepc;;
        w_sstatus sstatus.

End trap.
