(* ===== verification/TrapCalls.v ===== *)
(** * What the trap code promises *)
From stdpp Require Import base tactics list numbers gmap strings.
From S2P Require Import Prelude Machine Spinlock Wp Vm Sched File Proc Syscall SysPath Trap.

Open Scope Z_scope.

(** ** Supervisor registers of this hart *)

Definition csr_of (s : mach) : csrs := csr (this_cpu s).

Definition with_csr (f : csrs -> csrs) (s : mach) : mach := on_cpu (fun k => k <| csr ::= f |>) s.

Section csr.
Context (e : env) (s : mach) (k : cpu) (Hk : cpus s !! tp s = Some k).

Lemma csr_of_here : csr_of s = csr k.
Proof. unfold csr_of. by rewrite (this_cpu_Some _ _ Hk). Qed.

Lemma get_csr_Ret : get_csr e s = Ret (csr k) e s.
Proof. unfold get_csr, mycpu, cpuid. msimp. by rewrite (get_cpu_Ret _ _ k). Qed.

Lemma set_csr_Ret f : set_csr f e s = Ret tt e (with_csr f s).
Proof. unfold set_csr, mycpu, cpuid. msimp. by rewrite (set_cpu_Ret _ _ _ k). Qed.

Lemma r_sstatus_Ret :
  r_sstatus e s = Ret (Z.lor (Z.ldiff (sstatus (csr k)) SSTATUS_SIE) (if sie k then SSTATUS_SIE else 0)) e s.
Proof. unfold r_sstatus, mycpu, cpuid. msimp. by rewrite (get_cpu_Ret _ _ k). Qed.

Lemma w_sstatus_Ret x : w_sstatus x e s =
  Ret tt e (on_cpu (fun k => k <| csr ::= fun r => r <| sstatus := x |> |> <| sie := negb (Z.land x SSTATUS_SIE =? 0) |>) s).
Proof. unfold w_sstatus, mycpu, cpuid. msimp. by rewrite (set_cpu_Ret _ _ _ k). Qed.

Lemma with_csr_here f : cpus (with_csr f s) !! tp (with_csr f s) = Some (k <| csr ::= f |>).
Proof. by apply on_cpu_here. Qed.
End csr.

(** The value [r_sstatus] reads on hart [k]. *)
Definition sstatus_of (k : cpu) : Z := Z.lor (Z.ldiff (sstatus (csr k)) SSTATUS_SIE) (if sie k then SSTATUS_SIE else 0).

Lemma single_bit n i : 0 <= n -> Z.testbit (Z.shiftl 1 n) i = (n =? i).
Proof. intros Hn. rewrite Z.shiftl_1_l. by apply Z.pow2_bits_eqb. Qed.

Lemma land_single_bit x n : 0 <= n -> Z.land x (Z.shiftl 1 n) = 0 <-> Z.testbit x n = false.
Proof.
  intros Hn. split; intros H.
  - assert (E : Z.testbit (Z.land x (Z.shiftl 1 n)) n = false) by (by rewrite H, Z.bits_0).
    rewrite Z.land_spec, single_bit, Z.eqb_refl, andb_true_r in E; done.
  - apply Z.bits_inj'. intros i Hi. rewrite Z.land_spec, single_bit, Z.bits_0 by done.
    destruct (Z.eqb_spec n i) as [<-|]; [by rewrite H|apply andb_false_r].
Qed.

Lemma sstatus_sie k : negb (Z.land (sstatus_of k) SSTATUS_SIE =? 0) = sie k.
Proof.
  assert (E : Z.testbit (sstatus_of k) 1 = sie k).
  { unfold sstatus_of, SSTATUS_SIE. rewrite Z.lor_spec, Z.ldiff_spec, single_bit by lia.
    change (1 =? 1) with true. rewrite andb_false_r. by destruct (sie k). }
  unfold SSTATUS_SIE at 1. destruct (sie k).
  - apply negb_true_iff, Z.eqb_neq. intros H. apply land_single_bit in H; [congruence|lia].
  - apply negb_false_iff, Z.eqb_eq, land_single_bit; [lia|done].
Qed.

(** ** Returning to user space *)

(** [sstatus] as [usertrapret] leaves it, from the value it reads. *)
Definition user_sstatus (x : Z) : Z := Z.lor (Z.land x (u64 (Z.lnot SSTATUS_SPP))) SSTATUS_SPIE.

Lemma user_sstatus_bits x : Z.testbit (user_sstatus x) 8 = false /\ Z.testbit (user_sstatus x) 5 = true /\
  (Z.testbit x 1 = false -> Z.testbit (user_sstatus x) 1 = false).
Proof.
  unfold user_sstatus. rewrite !Z.lor_spec, !Z.land_spec.
  change (Z.testbit (u64 (Z.lnot SSTATUS_SPP)) 8) with false. change (Z.testbit SSTATUS_SPIE 8) with false.
  change (Z.testbit SSTATUS_SPIE 5) with true. change (Z.testbit SSTATUS_SPIE 1) with false.
  rewrite andb_false_r, orb_true_r. split; [done|]. split; [done|]. intros ->. done.
Qed.

(** The words of the trap frame at [tf] that [uservec] will load. *)
Definition frame_ready `{VC : Vectors} (m : bytes) (tf kstack_ satp_ : Z) (hart : nat) : Prop :=
  load64 m (tf + TF_KERNEL_SATP) = u64 satp_ /\ load64 m (tf + TF_KERNEL_SP) = u64 (kstack_ + PGSIZE) /\
  load64 m (tf + TF_KERNEL_TRAP) = u64 usertrap_entry /\ load64 m (tf + TF_KERNEL_HARTID) = u64 (Z.of_nat hart).

(** The hart is set to enter user space at [epc]. *)
Definition user_ready `{LK : Linker} `{VC : Vectors} (k : cpu) (epc : Z) : Prop :=
  sie k = false /\ stvec (csr k) = TRAMPOLINE + (uservec - trampoline) /\ sepc (csr k) = epc /\
  Z.testbit (sstatus (csr k)) 8 = false /\ Z.testbit (sstatus (csr k)) 5 = true.

(** *** Steps that change only this hart *)

(** This hart is [k]; only harts differ from [s]. *)
Definition on_hart (s : mach) (k : cpu) (t : mach) : Prop :=
  cpus t !! tp t = Some k /\ t = s <| cpus := cpus t |>.

Lemma on_hart_refl s k : cpus s !! tp s = Some k -> on_hart s k s.
Proof. intros H. split; [done|by destruct s]. Qed.

Lemma on_hart_cpu s k t f : on_hart s k t -> on_hart s (f k) (on_cpu f t).
Proof. intros [H1 H2]. split; [by apply on_cpu_here|]. rewrite H2. done. Qed.

(** Changing memory commutes with it. *)
Lemma on_hart_mem s k t g : on_hart s k t -> on_hart (s <| mem ::= g |>) k (t <| mem ::= g |>).
Proof. intros [H1 H2]. split; [done|]. rewrite H2. done. Qed.

Lemma on_hart_ok s k t : on_hart s k t -> cpu_ok k -> hart_ok t.
Proof. intros [H _] Hk. by exists k. Qed.

Section steps.
Context (e : env) (s : mach) (k : cpu) (t : mach) (H : on_hart s k t).

Lemma wp_set_csr f (Q : unit -> mach -> Prop) :
  (forall t', on_hart s (k <| csr ::= f |>) t' -> Q tt t') -> wp (set_csr f) e t Q.
Proof.
  intros HQ. eapply wp_call; [apply (set_csr_Ret e t k), H|]. apply HQ.
  by apply (on_hart_cpu s k t (fun k => k <| csr ::= f |>)).
Qed.

Lemma wp_get_csr (Q : csrs -> mach -> Prop) : Q (csr k) t -> wp get_csr e t Q.
Proof. intros HQ. eapply wp_call; [apply (get_csr_Ret e t k), H|exact HQ]. Qed.

Lemma wp_r_sstatus (Q : Z -> mach -> Prop) : Q (sstatus_of k) t -> wp r_sstatus e t Q.
Proof. intros HQ. eapply wp_call; [apply (r_sstatus_Ret e t k), H|exact HQ]. Qed.

Lemma wp_w_sstatus x (Q : unit -> mach -> Prop) :
  (forall t', on_hart s (k <| csr ::= fun r => r <| sstatus := x |> |> <| sie := negb (Z.land x SSTATUS_SIE =? 0) |>) t' -> Q tt t') ->
  wp (w_sstatus x) e t Q.
Proof.
  intros HQ. eapply wp_call; [apply (w_sstatus_Ret e t k), H|]. apply HQ.
  by apply (on_hart_cpu s k t (fun k => k <| csr ::= fun r => r <| sstatus := x |> |> <| sie := negb (Z.land x SSTATUS_SIE =? 0) |>)).
Qed.

Lemma wp_intr_off (Q : unit -> mach -> Prop) :
  (forall t', on_hart s (k <| sie := false |>) t' -> Q tt t') -> wp intr_off e t Q.
Proof.
  intros HQ. eapply wp_call; [|apply HQ; by apply (on_hart_cpu s k t (fun k => k <| sie := false |>))].
  unfold intr_off, cpuid. msimp. apply (set_cpu_Ret _ _ _ k), H.
Qed.

Lemma wp_intr_on (Q : unit -> mach -> Prop) :
  (forall t', on_hart s (k <| sie := true |>) t' -> Q tt t') -> wp intr_on e t Q.
Proof.
  intros HQ. eapply wp_call; [|apply HQ; by apply (on_hart_cpu s k t (fun k => k <| sie := true |>))].
  unfold intr_on, cpuid. msimp. apply (set_cpu_Ret _ _ _ k), H.
Qed.

Lemma wp_curproc p (Q : nat -> mach -> Prop) : cpu_ok k -> cproc k = Some p ->
  (forall t', on_hart s (pop_cpu (push_cpu k)) t' -> Q p t') -> wp curproc e t Q.
Proof.
  intros Hok Hp HQ. eapply wp_call; [apply (curproc_ready e t p)|].
  - by eapply on_hart_ok.
  - unfold cur. destruct H as [Hk _]. by rewrite (this_cpu_Some _ _ Hk).
  - apply HQ. by apply (on_hart_cpu s k t (pop_cpu ∘ push_cpu)).
Qed.

Lemma wp_get_proc p pr (Q : proc -> mach -> Prop) : procs s !! p = Some pr -> Q pr t -> wp (get_proc p) e t Q.
Proof. intros Hp HQ. eapply wp_call; [apply get_proc_Ret|exact HQ]. destruct H as [_ ->]. exact Hp. Qed.

Lemma wp_store_word a v (Q : unit -> mach -> Prop) :
  (forall t', on_hart (s <| mem ::= fun m => store64 m a v |>) k t' -> Q tt t') -> wp (store_word a v) e t Q.
Proof. intros HQ. apply wp_modify, HQ. by apply on_hart_mem. Qed.

Lemma wp_load_word a (Q : Z -> mach -> Prop) : Q (load64 (mem s) a) t -> wp (load_word a) e t Q.
Proof. intros HQ. apply wp_read. destruct H as [_ E]. rewrite E in HQ |- *. exact HQ. Qed.

Lemma wp_cpuid (Q : nat -> mach -> Prop) : Q (tp s) t -> wp cpuid e t Q.
Proof. intros HQ. apply wp_read. destruct H as [_ E]. rewrite E in HQ |- *. exact HQ. Qed.
End steps.

Lemma pop_push_csr k : csr (pop_cpu (push_cpu k)) = csr k /\ cproc (pop_cpu (push_cpu k)) = cproc k.
Proof. unfold pop_cpu. by destruct (_ && _). Qed.

Section return_.
Context `{LK : Linker} `{VC : Vectors}.

(** The stores into the trap frame. *)
Definition frame_stores (m : bytes) (tf kstack_ satp_ : Z) (hart : nat) : bytes :=
  store64 (store64 (store64 (store64 m (tf + TF_KERNEL_SATP) satp_) (tf + TF_KERNEL_SP) (kstack_ + PGSIZE))
    (tf + TF_KERNEL_TRAP) usertrap_entry) (tf + TF_KERNEL_HARTID) (Z.of_nat hart).

Lemma frame_stores_ready m tf kst st hart : frame_ready (frame_stores m tf kst st hart) tf kst st hart /\
  load64 (frame_stores m tf kst st hart) (tf + TF_EPC) = load64 m (tf + TF_EPC).
Proof.
  unfold frame_ready, frame_stores, TF_KERNEL_SATP, TF_KERNEL_SP, TF_KERNEL_TRAP, TF_KERNEL_HARTID, TF_EPC.
  repeat first [rewrite load64_store64 | rewrite load64_store64_other by lia]. done.
Qed.

Lemma wp_usertrapret e s k t p pr : on_hart s k t -> cpu_ok k -> cproc k = Some p -> procs s !! p = Some pr ->
  wp usertrapret e t (fun r t' => r = MAKE_SATP (pagetable pr) /\ exists k',
    on_hart (s <| mem ::= fun m => frame_stores m (trapframe pr) (kstack pr) (satp (csr k)) (tp s) |>) k' t' /\
    user_ready k' (load64 (mem s) (trapframe pr + TF_EPC)) /\ cproc k' = Some p /\ noff k' = noff k).
Proof.
  intros H Hok Hp Hpr. destruct (pop_push_same k Hok) as [Hn _]. destruct (pop_push_csr k) as [Hcsr Hcp]. unfold usertrapret.
  apply wp_bind. eapply (wp_curproc e s k t H p); [done..|]. clear t H. set (k1 := pop_cpu (push_cpu k)) in *. clearbody k1. intros t H.
  apply wp_bind. eapply (wp_intr_off e s _ t H). clear t H. intros t H.
  apply wp_bind. eapply (wp_set_csr e s _ t H). clear t H. intros t H.
  apply wp_bind. eapply (wp_get_proc e s _ t H); [exact Hpr|].
  apply wp_bind, wp_bind. eapply (wp_get_csr e s _ t H). apply wp_ret.
  apply wp_bind. eapply (wp_store_word e s _ t H). clear t H. intros t H.
  apply wp_bind. eapply (wp_store_word e _ _ t H). clear t H. intros t H.
  apply wp_bind. eapply (wp_store_word e _ _ t H). clear t H. intros t H.
  apply wp_bind. eapply (wp_cpuid e _ _ t H).
  apply wp_bind. eapply (wp_store_word e _ _ t H). clear t H. intros t H.
  apply wp_bind. eapply (wp_r_sstatus e _ _ t H).
  apply wp_bind. eapply (wp_w_sstatus e _ _ t H). clear t H. intros t H.
  apply wp_bind. eapply (wp_load_word e _ _ t H).
  apply wp_bind. eapply (wp_set_csr e _ _ t H). clear t H. intros t H.
  apply wp_ret. split; [done|]. eexists. split; [|split; [|split]].
  - cbn in H. rewrite Hcsr in H. exact H.
  - destruct (frame_stores_ready (mem s) (trapframe pr) (kstack pr) (satp (csr k)) (tp s)) as [_ Hepc].
    set (x := sstatus_of _). destruct (user_sstatus_bits x) as (H8 & H5 & H1).
    assert (Hx : Z.testbit x 1 = false).
    { match goal with x := sstatus_of ?k2 |- _ => assert (E := sstatus_sie k2) end. cbn [sie] in E.
      apply negb_false_iff, Z.eqb_eq in E. unfold SSTATUS_SIE in E. apply land_single_bit in E; [done|lia]. }
    split; [|split; [done|split; [|done]]].
    + cbn. apply negb_false_iff, Z.eqb_eq. apply land_single_bit; [lia|]. by apply H1.
    + exact Hepc.
  - cbn. by rewrite Hcp.
  - cbn. exact Hn.
Qed.
End return_.

(** ** The clock *)

Lemma on_hart_ready s k t : on_hart s k t -> cpu_ok k -> table_ready s -> table_ready t.
Proof. intros H Hk (_ & Hlen & Hfree). split; [by eapply on_hart_ok|]. destruct H as [_ ->]. done. Qed.

Lemma on_hart_cur s k t : on_hart s k t -> cur t = cproc k.
Proof. intros [H _]. unfold cur. by rewrite (this_cpu_Some _ _ H). Qed.

(** One tick: the counter is increased and the sleepers on it are woken. *)
Definition ticked (me : option nat) (s : mach) : mach :=
  s <| ticks ::= fun t => u32 (t + 1) |> <| procs ::= imap (wake1 ChTicks me) |>.

Lemma tick_Ret e s : table_ready s -> free_lock s Lticks ->
  (acquire Lticks;; modify (fun s => s <| ticks ::= fun t => u32 (t + 1) |>);; wakeup ChTicks;; release Lticks) e s =
  Ret tt e (left_off (ticked (cur s) s)).
Proof.
  intros Ht Hl. assert (Hok : hart_ok s) by apply Ht. rewrite bindE, acquire_Ret by done. msimp.
  set (t1 := enter Lticks s <| ticks ::= _ |>). assert (Ht1 : table_ready t1) by by apply (table_ready_enter Lticks s).
  rewrite wakeup_Ret by done. change (cur t1) with (cur (enter Lticks s)). rewrite cur_enter by done.
  assert (E : left_off (t1 <| procs ::= imap (wake1 ChTicks (cur s)) |>) = enter Lticks (ticked (cur s) s)).
  { exact (left_off_enter Lticks (ticked (cur s) s) Hok). }
  rewrite E. by rewrite (release_from Lticks e _ (ticked (cur s) s)).
Qed.

Lemma devintr_timer fuel e s k t : on_hart s k t -> cpu_ok k -> table_ready s -> free_lock s Lticks -> tp s = 0%nat ->
  scause (csr k) = 0x8000000000000005 ->
  wp (devintr fuel) e t (fun r t' => r = 2 /\ exists k',
    on_hart (ticked (cproc k) s) k' t' /\ noff k' = noff k /\ sie k' = sie k /\ cproc k' = cproc k /\ cpu_ok k' /\
    csr k' = csr k <| stimecmp := u64 (time_ (csr k) + 1000000) |>).
Proof.
  intros H Hk Hs Hl Htp Hcause. assert (Ht := on_hart_ready _ _ _ H Hk Hs). unfold devintr.
  apply wp_bind, wp_bind. eapply (wp_get_csr e s k t H). apply wp_ret. rewrite Hcause.
  change (0x8000000000000005 =? 0x8000000000000009) with false. change (0x8000000000000005 =? 0x8000000000000005) with true. cbn match.
  apply wp_bind. unfold clockintr. apply wp_bind. eapply (wp_cpuid e s k t H). rewrite Htp. cbn [Nat.eqb].
  apply wp_bind. eapply wp_call; [apply tick_Ret; [done|]; destruct H as [_ ->]; exact Hl|].
  rewrite (on_hart_cur _ _ _ H). assert (H1 : on_hart (ticked (cproc k) s) k (ticked (cproc k) t)).
  { destruct H as [H1 H2]. split; [done|]. rewrite H2. done. }
  apply (on_hart_cpu _ _ _ (pop_cpu ∘ push_cpu)) in H1. destruct (pop_push_same k Hk) as [Hn Hsi]. destruct (pop_push_csr k) as [Hc Hp].
  assert (Hok1 := pop_push_cpu_ok k Hk). unfold compose in H1. set (k1 := pop_cpu (push_cpu k)) in *. clearbody k1.
  change (on_cpu _ (ticked (cproc k) t)) with (left_off (ticked (cproc k) t)) in H1. set (t1 := left_off _) in *. clearbody t1.
  apply wp_bind, wp_bind. eapply (wp_get_csr e _ _ t1 H1). apply wp_ret.
  eapply (wp_set_csr e _ _ t1 H1). clear H1. intros t2 H2. apply wp_ret. split; [done|]. eexists. split; [exact H2|].
  cbn. rewrite Hc. done.
Qed.

(** [yield] up to the point where the scheduler takes over. *)
Lemma yield_blocks s k p pr : cpus s !! tp s = Some k -> cpu_ok k -> noff k = 0 -> cproc k = Some p ->
  table_ready s -> procs s !! p = Some pr ->
  yield [] s = Blocked (enter (Lproc p) s <| procs ::= alter (fun pr => pr <| state := RUNNABLE |>) p |>).
Proof.
  intros Hk Hok Hn Hp Ht Hpr. destruct Ht as (Hhart & Hlen & Hfree).
  assert (Hlt : (p < NPROC)%nat) by (rewrite <- Hlen; by eapply lookup_lt_Some).
  assert (Hcur : cur s = Some p) by (unfold cur; by rewrite (this_cpu_Some _ _ Hk)).
  unfold yield. rewrite bindE, (curproc_ready [] s p) by done. rewrite bindE, acquire_Ret by auto with sched. rewrite enter_left_off by done.
  rewrite bindE, (set_proc_Ret p _ [] (enter (Lproc p) s) pr) by done. rewrite bindE.
  rewrite (sched_switch [] _ p (push_cpu k) (pr <| state := RUNNABLE |>)); [done| | |done].
  - destruct (Hfree p Hlt) as [n Hl]. split; [by apply (on_cpu_here push_cpu)|done| |done|].
    + change (noff (push_cpu k)) with (Z.succ (noff k)). lia.
    + exists n. cbn. rewrite lookup_insert_eq. unfold held, lock_of. by rewrite Hl.
  - by apply lookup_alter_here.
Qed.

Lemma wp_killed e s k t p pr (Q : Z -> mach -> Prop) : on_hart s k t -> cpu_ok k -> table_ready s -> procs s !! p = Some pr ->
  (forall t', on_hart s (pop_cpu (push_cpu k)) t' -> Q (killed_ pr) t') -> wp (killed p) e t Q.
Proof.
  intros H Hk Hs Hpr HQ. eapply wp_call; [apply (killed_Ret p e t pr)|].
  - by eapply on_hart_ready.
  - destruct Hs as (_ & Hlen & _). rewrite <- Hlen. by eapply lookup_lt_Some.
  - destruct H as [_ ->]. exact Hpr.
  - apply HQ. by apply (on_hart_cpu s k t (pop_cpu ∘ push_cpu)).
Qed.

Lemma wp_then {A} (m : M A) e s Q : wp m e s Q -> exists a t, Q a t /\ forall B (k : A -> M B), (m ≫= k) e s = k a e t.
Proof. intros (a & t & E & HQ). exists a, t. split; [done|]. intros B k. by rewrite bindE, E. Qed.

(** The hart traps from user space with process [p] in slot [pr]. *)
Record from_user (s : mach) (k : cpu) (p : nat) (pr : proc) : Prop := mkFromUser {
  fu_cpu : cpus s !! tp s = Some k;
  fu_noff : noff k = 0;
  fu_sie : sie k = false;
  fu_spp : Z.land (sstatus_of k) SSTATUS_SPP = 0;
  fu_cur : cproc k = Some p;
  fu_table : table_ready s;
  fu_proc : procs s !! p = Some pr;
  fu_alive : killed_ pr = 0
}.

(** A hart between [push_off] and [pop_off] pairs, with its registers. *)
Definition settled (k k' : cpu) : Prop :=
  cpu_ok k' /\ noff k' = noff k /\ sie k' = sie k /\ cproc k' = cproc k /\ csr k' = csr k.

Lemma settled_pop_push k : cpu_ok k -> settled k (pop_cpu (push_cpu k)).
Proof.
  intros Hk. destruct (pop_push_same k Hk) as [H1 H2]. destruct (pop_push_csr k) as [H3 H4].
  split; [by apply pop_push_cpu_ok|]. done.
Qed.

(** The page tables and memory as the trap finds them, with the user's
    program counter saved. *)
Definition saved (pr : proc) (epc : Z) (s : mach) : mach := s <| mem ::= fun m => store64 m (trapframe pr + TF_EPC) epc |>.

Section traps.
Context `{LK : Linker} `{FS : FsOps} `{TP : TaggedPipe} `{PC : PathCalls} `{VC : Vectors} (fuel : nat).

Definition in_kernel (k : cpu) : cpu := k <| csr ::= fun r => r <| stvec := kernelvec |> |>.

(** [usertrap] up to the test of the cause. *)
Lemma usertrap_enters e s k p pr : from_user s k p pr ->
  exists t, on_hart (saved pr (sepc (csr k)) s) (pop_cpu (push_cpu (in_kernel k))) t /\
    usertrap fuel e s = (w ← trap_cause fuel p; trap_end p w) e t.
Proof.
  intros [Hk Hn Hsi Hspp Hcur Ht Hpr _]. assert (Hok : cpu_ok k) by (split; [lia|lia]).
  assert (H := on_hart_refl s k Hk). unfold usertrap.
  destruct (wp_then r_sstatus e s (fun a t => a = sstatus_of k /\ t = s)) as (a & t & [-> ->] & E).
  { by eapply (wp_r_sstatus e s k s H). }
  rewrite E. clear E. rewrite (proj2 (Z.eqb_eq _ _) Hspp). cbn [negb].
  destruct (wp_then (w_stvec kernelvec) e s (fun _ t => on_hart s (in_kernel k) t)) as ([] & t1 & H1 & E).
  { eapply (wp_set_csr e s k s H). auto. }
  rewrite E. clear E.
  destruct (wp_then curproc e t1 (fun a t => a = p /\ on_hart s (pop_cpu (push_cpu (in_kernel k))) t)) as (a & t2 & [-> H2] & E).
  { eapply (wp_curproc e s _ t1 H1 p); [exact Hok|exact Hcur|auto]. }
  rewrite E. clear E.
  rewrite bindE, (get_proc_Ret p e t2 pr) by (destruct H2 as [_ ->]; exact Hpr).
  destruct (wp_then r_sepc e t2 (fun a t => a = sepc (csr k) /\ t = t2)) as (a & t & [-> ->] & E).
  { apply wp_bind. eapply (wp_get_csr e s _ t2 H2). apply wp_ret. destruct (pop_push_csr (in_kernel k)) as [-> _]. done. }
  rewrite E. clear E.
  destruct (wp_then (store_word (trapframe pr + TF_EPC) (sepc (csr k))) e t2
    (fun _ t => on_hart (saved pr (sepc (csr k)) s) (pop_cpu (push_cpu (in_kernel k))) t)) as ([] & t3 & H3 & E).
  { eapply (wp_store_word e s _ t2 H2). auto. }
  rewrite E. by exists t3.
Qed.

Lemma wp_exit_if_killed e s k t p pr (Q : unit -> mach -> Prop) : on_hart s k t -> cpu_ok k -> table_ready s ->
  procs s !! p = Some pr -> killed_ pr = 0 ->
  (forall t', on_hart s (pop_cpu (push_cpu k)) t' -> Q tt t') -> wp (exit_if_killed p) e t Q.
Proof.
  intros H Hk Hs Hpr Hkill HQ. apply wp_bind. eapply wp_killed; [done..|]. intros t' H'. rewrite Hkill. apply wp_ret, HQ, H'.
Qed.

Lemma wp_trap_end e s k t p pr w : on_hart s k t -> cpu_ok k -> table_ready s -> cproc k = Some p ->
  procs s !! p = Some pr -> killed_ pr = 0 -> w <> 2 ->
  wp (trap_end p w) e t (fun r t' => r = MAKE_SATP (pagetable pr) /\ exists k',
    on_hart (s <| mem ::= fun m => frame_stores m (trapframe pr) (kstack pr) (satp (csr k)) (tp s) |>) k' t' /\
    user_ready k' (load64 (mem s) (trapframe pr + TF_EPC)) /\ cproc k' = Some p /\ noff k' = noff k).
Proof.
  intros H Hk Hs Hcur Hpr Hkill Hw. unfold trap_end. apply wp_bind. eapply wp_exit_if_killed; [done..|].
  clear t H. intros t H. rewrite (proj2 (Z.eqb_neq _ _) Hw). apply wp_bind, wp_ret.
  destruct (settled_pop_push k Hk) as (Hk1 & Hn & _ & Hc & Hcsr).
  eapply wp_mono; [apply (wp_usertrapret e s (pop_cpu (push_cpu k)) t p pr H Hk1); [by rewrite Hc|done]|].
  intros r t' (-> & k' & H' & Hu & Hcp & Hn'). split; [done|]. exists k'. rewrite Hcsr in H'. rewrite Hn in Hn'. done.
Qed.

(** C15. A system call from user space.  The call runs in the process that
    trapped, in supervisor mode with the kernel's trap vector and interrupts
    on, after the saved program counter was moved past the [ecall]
    instruction.  If it returns to a process that was not killed, the trap
    returns to user space: with the page table of the process, at the program
    counter of its trap frame, interrupts off until the switch, in user mode
    with interrupts enabled afterwards, and the trap frame ready for the next
    trap. *)
Theorem usertrap_syscall (e : env) (s : mach) (k : cpu) (p : nat) (pr : proc) :
  from_user s k p pr -> scause (csr k) = 8 ->
  exists t kt, on_hart (saved pr (u64 (u64 (sepc (csr k)) + 4)) (saved pr (sepc (csr k)) s)) kt t /\
    sie kt = true /\ stvec (csr kt) = kernelvec /\ cproc kt = Some p /\ noff kt = 0 /\
    forall e' s2 k2 pr2, syscall fuel e t = Ret tt e' s2 -> cpus s2 !! tp s2 = Some k2 -> cpu_ok k2 -> cproc k2 = Some p ->
      table_ready s2 -> procs s2 !! p = Some pr2 -> killed_ pr2 = 0 ->
      exists s3 k3, usertrap fuel e s = Ret (MAKE_SATP (pagetable pr2)) e' s3 /\
        cpus s3 !! tp s3 = Some k3 /\ user_ready k3 (load64 (mem s2) (trapframe pr2 + TF_EPC)) /\ cproc k3 = Some p /\
        frame_ready (mem s3) (trapframe pr2) (kstack pr2) (satp (csr k2)) (tp s2) /\ procs s3 = procs s2 /\ locks s3 = locks s2.
Proof.
  intros Hfrom Hcause. destruct (usertrap_enters e s k p pr Hfrom) as (t0 & H0 & E0). destruct Hfrom as [Hk Hn Hsi Hspp Hcur Ht Hpr Hkill].
  destruct (settled_pop_push (in_kernel k)) as (Hk1 & Hn1 & Hsi1 & Hc1 & Hcsr1); [cbn; split; [cbn; lia|done]|].
  set (k1 := pop_cpu (push_cpu (in_kernel k))) in *. set (s1 := saved pr (sepc (csr k)) s) in *.
  assert (Ht1 : table_ready s1) by exact Ht.
  set (s2 := saved pr (u64 (u64 (sepc (csr k)) + 4)) s1).
  destruct (settled_pop_push k1 Hk1) as (Hk2 & Hn2 & Hsi2 & Hc2 & Hcsr2). set (k2 := pop_cpu (push_cpu k1)) in *.
  assert (Hbody : exists t, on_hart s2 (k2 <| sie := true |>) t /\
    trap_cause fuel p e t0 = (syscall fuel;; mret 0) e t).
  { unfold trap_cause. destruct (wp_then r_scause e t0 (fun a t => a = 8 /\ t = t0)) as (a & t & [-> ->] & E).
    { apply wp_bind. eapply (wp_get_csr e s1 k1 t0 H0). apply wp_ret. rewrite Hcsr1. done. }
    rewrite E. clear E. change (8 =? 8) with true. cbn match.
    destruct (wp_then (exit_if_killed p) e t0 (fun _ t => on_hart s1 k2 t)) as ([] & t1 & H1 & E).
    { by eapply (wp_exit_if_killed e s1 k1 t0 p pr). }
    rewrite E. clear E. rewrite bindE, (get_proc_Ret p e t1 pr) by (destruct H1 as [_ ->]; exact Hpr).
    destruct (wp_then (load_word (trapframe pr + TF_EPC)) e t1 (fun a t => a = u64 (sepc (csr k)) /\ t = t1)) as (a & t & [-> ->] & E).
    { eapply (wp_load_word e s1 k2 t1 H1). split; [apply load64_store64|done]. }
    rewrite E. clear E.
    destruct (wp_then (store_word (trapframe pr + TF_EPC) (u64 (u64 (sepc (csr k)) + 4))) e t1 (fun _ t => on_hart s2 k2 t)) as ([] & t2 & H2 & E).
    { eapply (wp_store_word e s1 k2 t1 H1). auto. }
    rewrite E. clear E.
    destruct (wp_then intr_on e t2 (fun _ t => on_hart s2 (k2 <| sie := true |>) t)) as ([] & t3 & H3 & E).
    { eapply (wp_intr_on e s2 k2 t2 H2). auto. }
    rewrite E. by exists t3. }
  destruct Hbody as (t & H & E1). exists t, (k2 <| sie := true |>). split; [exact H|]. split; [done|].
  split; [cbn; rewrite Hcsr2, Hcsr1; done|]. split; [cbn; rewrite Hc2, Hc1; done|]. split; [cbn; rewrite Hn2, Hn1; done|].
  intros e' s3 k3 pr3 Hsys Hk3 Hok3 Hc3 Ht3 Hpr3 Hkill3. rewrite E0, bindE, E1, bindE, Hsys.
  destruct (wp_trap_end e' s3 k3 s3 p pr3 0 (on_hart_refl s3 k3 Hk3) Hok3 Ht3 Hc3 Hpr3 Hkill3) as (r & s4 & E4 & -> & k4 & H4 & Hu & Hc4 & _); [done|].
  exists s4, k4. split; [exact E4|]. split; [apply H4|]. split; [exact Hu|]. split; [exact Hc4|].
  destruct H4 as [_ ->]. split; [|done]. apply frame_stores_ready.
Qed.

(** C16. The clock preempts user programs.  When the timer interrupts a
    process in user space on hart 0, the tick is counted and the processes
    that sleep on the clock become runnable, the next interrupt is asked for,
    and the process gives up the processor: it is left runnable, its program
    counter saved in its trap frame, with only its own lock held. *)
Theorem timer_preempts (s : mach) (k : cpu) (p : nat) (pr : proc) :
  from_user s k p pr -> scause (csr k) = 0x8000000000000005 -> tp s = 0%nat -> free_lock s Lticks ->
  exists s', usertrap fuel [] s = Blocked s' /\
    ticks s' = u32 (ticks s + 1) /\ stimecmp (csr_of s') = u64 (time_ (csr k) + 1000000) /\
    procs s' !! p = Some (pr <| state := RUNNABLE |>) /\
    (forall i q, i <> p -> procs s !! i = Some q ->
       procs s' !! i = Some (if bool_decide (state q = SLEEPING /\ pchan q = Some ChTicks) then q <| state := RUNNABLE |> else q)) /\
    load64 (mem s') (trapframe pr + TF_EPC) = u64 (sepc (csr k)) /\
    held_by s' (Lproc p) = Some (tp s') /\ noff (this_cpu s') = 1 /\ free_lock s' Lticks.
Proof.
  intros Hfrom Hcause Htp Hl. destruct (usertrap_enters [] s k p pr Hfrom) as (t0 & H0 & E0). destruct Hfrom as [Hk Hn Hsi Hspp Hcur Ht Hpr Hkill].
  destruct (settled_pop_push (in_kernel k)) as (Hk1 & Hn1 & Hsi1 & Hc1 & Hcsr1); [cbn; split; [cbn; lia|done]|].
  set (k1 := pop_cpu (push_cpu (in_kernel k))) in *. set (s1 := saved pr (sepc (csr k)) s) in *.
  assert (Ht1 : table_ready s1) by exact Ht. rewrite E0. unfold trap_cause.
  destruct (wp_then (trap_cause fuel p) [] t0 (fun r t' => r = 2 /\ exists k', on_hart (ticked (Some p) s1) k' t' /\
    noff k' = 0 /\ cproc k' = Some p /\ cpu_ok k' /\ csr k' = csr k1 <| stimecmp := u64 (time_ (csr k1) + 1000000) |>)) as (r & t1 & (-> & k2 & H1 & Hn2 & Hc2 & Hk2 & Hcsr2) & E).
  { unfold trap_cause. apply wp_bind, wp_bind. eapply (wp_get_csr [] s1 k1 t0 H0). apply wp_ret. rewrite Hcsr1.
    change (scause (csr (in_kernel k))) with (scause (csr k)). rewrite Hcause. change (_ =? 8) with false. cbn match. apply wp_bind.
    eapply wp_mono; [eapply (devintr_timer fuel [] s1 k1 t0 H0); try done; rewrite Hcsr1; exact Hcause|].
    intros r t' (-> & k' & H' & Hn' & _ & Hc' & Hok' & Hcsr'). change (negb (2 =? 0)) with true. cbn match. apply wp_ret. split; [done|].
    exists k'. rewrite Hc1 in H', Hc'. change (cproc (in_kernel k)) with (cproc k) in H', Hc'. rewrite Hcur in H', Hc'.
    rewrite Hn1 in Hn'. change (noff (in_kernel k)) with (noff k) in Hn'. rewrite Hn in Hn'. split; [exact H'|]. split; [exact Hn'|]. split; [exact Hc'|]. split; [exact Hok'|rewrite <- Hcsr1; exact Hcsr']. }
  unfold trap_cause in E. rewrite E. clear E. unfold trap_end. set (s2 := ticked (Some p) s1) in *.
  assert (Ht2 : table_ready s2).
  { apply (table_ready_procs (s1 <| ticks ::= fun t => u32 (t + 1) |>) (imap (wake1 ChTicks (Some p)))); [intros; apply length_imap|exact Ht1]. }
  assert (Hpr2 : procs s2 !! p = Some pr).
  { unfold s2, ticked. cbn. rewrite list_lookup_imap, Hpr. cbn. unfold wake1. rewrite bool_decide_false; [done|]. by intros H. }
  destruct (wp_then (exit_if_killed p) [] t1 (fun _ t => on_hart s2 (pop_cpu (push_cpu k2)) t)) as ([] & t2 & H2 & E).
  { by eapply (wp_exit_if_killed [] s2 k2 t1 p pr). }
  rewrite E. clear E. destruct (settled_pop_push k2 Hk2) as (Hk3 & Hn3 & _ & Hc3 & Hcsr3). set (k3 := pop_cpu (push_cpu k2)) in *.
  change (2 =? 2) with true. cbn [when].
  assert (E2 : t2 = s2 <| cpus := cpus t2 |>) by apply H2.
  rewrite bindE, (yield_blocks t2 k3 p pr); [|apply H2|done|by rewrite Hn3|by rewrite Hc3|by eapply on_hart_ready|rewrite E2; exact Hpr2].
  set (s3 := enter (Lproc p) t2 <| procs ::= alter (fun pr => pr <| state := RUNNABLE |>) p |>). exists s3.
  assert (Hp3 : procs s3 = alter (fun pr => pr <| state := RUNNABLE |>) p (procs s2)) by (unfold s3; cbn; rewrite E2; done).
  split; [done|]. split; [unfold s3; cbn; rewrite E2; done|]. split; [|split; [|split; [|split; [|split; [|split]]]]].
  - unfold csr_of. rewrite (this_cpu_Some s3 (push_cpu k3)) by (apply (on_cpu_here push_cpu t2 k3), H2).
    change (csr (push_cpu k3)) with (csr k3). rewrite Hcsr3, Hcsr2. cbn. by rewrite Hcsr1.
  - rewrite Hp3. by apply lookup_alter_here.
  - intros i q Hi Hq. rewrite Hp3, list_lookup_alter_ne by done. unfold s2, ticked. cbn. rewrite list_lookup_imap, Hq. cbn. f_equal.
    unfold wake1. rewrite (bool_decide_true (Some p <> Some i)) by congruence. rewrite <- bool_decide_and, andb_true_l || rewrite andb_true_l, <- bool_decide_and. done.
  - unfold s3. cbn. rewrite E2. apply load64_store64.
  - unfold held_by, lock_of, s3. cbn. by rewrite lookup_insert_eq.
  - rewrite (this_cpu_Some s3 (push_cpu k3)) by (apply (on_cpu_here push_cpu t2 k3), H2).
    change (noff (push_cpu k3)) with (Z.succ (noff k3)). by rewrite Hn3, Hn2.
  - destruct Hl as [n Hl]. exists n. unfold s3. cbn. rewrite E2. by rewrite lookup_insert_ne.
Qed.

Lemma sstatus_restored k k2 : sie k = false ->
  sstatus_of (k2 <| csr ::= fun r => r <| sstatus := sstatus_of k |> |> <| sie := negb (Z.land (sstatus_of k) SSTATUS_SIE =? 0) |>) =
  sstatus_of k.
Proof.
  intros H. rewrite sstatus_sie, H. unfold sstatus_of. cbn. rewrite H, !Z.lor_0_r.
  apply Z.bits_inj'. intros i Hi. rewrite !Z.ldiff_spec. by destruct (Z.testbit SSTATUS_SIE i), (Z.testbit (sstatus (csr k)) i).
Qed.

(** C17. A trap in the kernel is transparent.  It panics when it does not come
    from supervisor mode or comes with interrupts enabled.  Otherwise, whatever
    the device handler did and whatever ran while the process gave up the
    processor, on this hart or another, the code that was interrupted resumes
    with the program counter and the status register it had. *)
Theorem kerneltrap_transparent (e : env) (s : mach) (k : cpu) :
  cpus s !! tp s = Some k ->
  (Z.land (sstatus_of k) SSTATUS_SPP = 0 -> kerneltrap fuel e s = Panic "kerneltrap: not from supervisor mode" s) /\
  (Z.land (sstatus_of k) SSTATUS_SPP <> 0 -> sie k = true -> kerneltrap fuel e s = Panic "kerneltrap: interrupts enabled" s) /\
  (Z.land (sstatus_of k) SSTATUS_SPP <> 0 -> sie k = false -> forall d e1 s1 e2 s2 k2,
     devintr fuel e s = Ret d e1 s1 -> d <> 0 -> kernel_yield d e1 s1 = Ret tt e2 s2 -> cpus s2 !! tp s2 = Some k2 ->
     exists s3 k3, kerneltrap fuel e s = Ret tt e2 s3 /\ on_hart s2 k3 s3 /\
       sepc (csr k3) = sepc (csr k) /\ sstatus_of k3 = sstatus_of k /\ cproc k3 = cproc k2 /\ noff k3 = noff k2).
Proof.
  intros Hk. assert (H := on_hart_refl s k Hk).
  assert (E : kerneltrap fuel e s =
    if Z.land (sstatus_of k) SSTATUS_SPP =? 0 then Panic "kerneltrap: not from supervisor mode" s
    else if sie k then Panic "kerneltrap: interrupts enabled" s
    else (which_dev ← devintr fuel;
      if which_dev =? 0 then
        epc ← r_sepc; stval ← r_stval;
        kprintf ("scause=0x%lx sepc=0x%lx stval=0x%lx" +:+ nl) [Printf.ALong (scause (csr k)); Printf.ALong epc; Printf.ALong stval];;
        panic "kerneltrap"%string
      else kernel_yield which_dev;; w_sepc (sepc (csr k));; w_sstatus (sstatus_of k)) e s).
  { unfold kerneltrap, r_sepc, r_scause. rewrite bindE, bindE, (get_csr_Ret e s k Hk). cbn [mret M_ret].
    rewrite bindE, (r_sstatus_Ret e s k Hk). fold (sstatus_of k).
    rewrite bindE, bindE, (get_csr_Ret e s k Hk). cbn [mret M_ret].
    destruct (Z.land (sstatus_of k) SSTATUS_SPP =? 0); [done|].
    rewrite bindE. unfold intr_get, cpuid. msimp. rewrite (get_cpu_Ret _ _ k Hk). cbn [mret M_ret]. by destruct (sie k). }
  rewrite E. clear E. split; [|split].
  - intros H0. by rewrite (proj2 (Z.eqb_eq _ _) H0).
  - intros H0 Hs. by rewrite (proj2 (Z.eqb_neq _ _) H0), Hs.
  - intros H0 Hs d e1 s1 e2 s2 k2 Hd Hne Hy Hk2. rewrite (proj2 (Z.eqb_neq _ _) H0), Hs, bindE, Hd, (proj2 (Z.eqb_neq _ _) Hne), bindE, Hy.
    assert (Hw : wp (w_sepc (sepc (csr k));; w_sstatus (sstatus_of k)) e2 s2 (fun _ s3 => exists k3, on_hart s2 k3 s3 /\
       sepc (csr k3) = sepc (csr k) /\ sstatus_of k3 = sstatus_of k /\ cproc k3 = cproc k2 /\ noff k3 = noff k2)).
    { apply wp_bind. eapply (wp_set_csr e2 s2 k2 s2 (on_hart_refl s2 k2 Hk2)). intros t1 H1.
      eapply (wp_w_sstatus e2 s2 _ t1 H1). intros t2 H2. eexists. split; [exact H2|]. split; [done|]. split; [|done].
      apply (sstatus_restored k (k2 <| csr ::= fun r => r <| sepc := sepc (csr k) |> |>)). exact Hs. }
    destruct Hw as ([] & s3 & E & k3 & H3). exists s3, k3. done.
Qed.
End traps.

(** ** Concrete traps *)

#[global] Instance some_vectors : Vectors :=
  {| kernelvec := KERNBASE + 0x5000; uservec := KERNBASE + 0x6000; userret := KERNBASE + 0x609c; usertrap_entry := KERNBASE + 0x2000 |}.

(** [machine_call] in user space at address 0x40, trapping with [cause]. *)
Definition user_csrs (cause : Z) : csrs := csrs0 <| sepc := 0x40 |> <| scause := cause |> <| time_ := 7 |>.

Definition trap_cpu (pr : option nat) (st cause : Z) : cpu :=
  mkCpu pr context0 0 false false (user_csrs cause <| sstatus := st |>).

Definition machine_trap (pr : option nat) (st cause : Z) : mach :=
  machine_call 77 0 0 <| cpus := [trap_cpu pr st cause] |>.

Lemma machine_trap_ready pr st cause : table_ready (machine_trap pr st cause).
Proof.
  destruct (machine_call_calling 77 0 0) as [(_ & Hlen & Hfree) _]. split; [|split; [exact Hlen|exact Hfree]].
  exists (trap_cpu pr st cause). split; [reflexivity|]. split; cbn; [lia|done].
Qed.

Lemma machine_trap_from_user cause : from_user (machine_trap (Some 0%nat) 0 cause) (trap_cpu (Some 0%nat) 0 cause) 0 caller.
Proof. split; try reflexivity. apply machine_trap_ready. Qed.

Lemma machine_trap_ticks pr st cause : free_lock (machine_trap pr st cause) Lticks.
Proof. eexists. vm_compute. reflexivity. Qed.

Lemma usertrap_syscall_witness : exists t kt,
  on_hart (saved caller (u64 (u64 0x40 + 4)) (saved caller 0x40 (machine_trap (Some 0%nat) 0 8))) kt t /\ sie kt = true.
Proof.
  destruct (@usertrap_syscall eight_pages no_fs no_tagged no_paths some_vectors 1 [] (machine_trap (Some 0%nat) 0 8)
    (trap_cpu (Some 0%nat) 0 8) 0 caller) as (t & kt & H1 & H2 & _).
  - apply machine_trap_from_user.
  - reflexivity.
  - exists t, kt. split; [exact H1|exact H2].
Defined.

Lemma timer_preempts_witness : exists s',
  @usertrap eight_pages no_fs no_tagged no_paths some_vectors 1 [] (machine_trap (Some 0%nat) 0 0x8000000000000005) = Blocked s' /\
  ticks s' = 1 /\ procs s' !! 1%nat = Some (sleeper <| state := RUNNABLE |>).
Proof.
  destruct (@timer_preempts eight_pages no_fs no_tagged no_paths some_vectors 1 (machine_trap (Some 0%nat) 0 0x8000000000000005)
    (trap_cpu (Some 0%nat) 0 0x8000000000000005) 0 caller) as (s' & H1 & H2 & _ & _ & H3 & _).
  - apply machine_trap_from_user.
  - reflexivity.
  - reflexivity.
  - apply machine_trap_ticks.
  - exists s'. split; [exact H1|]. split; [exact H2|]. exact (H3 1%nat sleeper ltac:(discriminate) eq_refl).
Defined.

(** The clock interrupts the scheduler, which runs no process. *)
Lemma kerneltrap_transparent_witness : exists s3 k3,
  kerneltrap 1 [] (machine_trap None 0x100 0x8000000000000005) = Ret tt [] s3 /\
  cpus s3 !! tp s3 = Some k3 /\ sepc (csr k3) = 0x40 /\ sstatus_of k3 = 0x100.
Proof.
  set (s := machine_trap None 0x100 0x8000000000000005). set (k := trap_cpu None 0x100 0x8000000000000005).
  destruct (kerneltrap_transparent 1 [] s k eq_refl) as (_ & _ & H).
  destruct (devintr_timer 1 [] s k s (on_hart_refl s k eq_refl)) as (r & s1 & E1 & -> & k1 & H1 & Hn1 & Hs1 & Hc1 & Hok1 & _).
  - split; cbn; [lia|done].
  - apply machine_trap_ready.
  - apply machine_trap_ticks.
  - reflexivity.
  - reflexivity.
  - assert (E2 : kernel_yield 2 [] s1 = Ret tt [] (left_off s1)).
    { unfold kernel_yield. change (2 =? 2) with true. cbn match. rewrite bindE, myproc_Ret by (exists k1; split; [apply H1|done]).
      rewrite (on_hart_cur _ _ _ H1), Hc1. reflexivity. }
    destruct (H ltac:(vm_compute; discriminate) eq_refl 2 [] s1 [] (left_off s1) (pop_cpu (push_cpu k1)) E1 ltac:(discriminate) E2) as (s3 & k3 & E3 & H3 & H4 & H5 & _).
    { apply (on_cpu_here (pop_cpu ∘ push_cpu)), H1. }
    exists s3, k3. split; [exact E3|]. split; [apply H3|]. split; [exact H4|]. rewrite H5. reflexivity.
Defined.
