(* ===== verification/Boot.v ===== *)
(** * Booting the kernel

    Model of [kernel/main.c], of [printfinit], [kvminithart], the loop of
    [scheduler] and [forkret].  [main] runs the initialisation of every
    component on hart 0, creates the first process and schedules it; the other
    harts wait for it.  The interaction of the harts is the environment: what
    the others did is seen where a hart waits for [started]. *)
From stdpp Require Import base tactics list numbers gmap strings.
From S2P Require Import Prelude Machine Wp Spinlock StringC Kalloc Vm VmRep VmInst VmKernel VmBytes Sched Uart Sleeplock Bio Virtio VirtioCalls Log File Proc Fs Itable Syscall SysPath Console Trap TrapCalls ProcFirst.

Open Scope Z_scope.

(** ** Code *)

Definition printfinit : M unit :=
  initlock Lpr "pr";;
  modify (fun s => s <| io ::= fun d => d <| locking := 1 |> |>).

Definition w_satp (x : Z) : M unit := set_csr (fun r => r <| satp := x |>).

(** The model has no translation cache to flush. *)
Definition kvminithart : M unit :=
  k ← read kernel_pagetable;
  w_satp (MAKE_SATP k).

Section boot.
Context `{LK : Linker} `{VC : Vectors} `{DK : Disk} `{DV : Devices} (fuel : nat).

(** [main] on hart 0, up to [started = 1]. *)
Definition main_first : M unit :=
  consoleinit;;
  printfinit;;
  kprintf nl [];;
  kprintf ("xv6 kernel is booting" +:+ nl) [];;
  kprintf nl [];;
  kinit fuel;;
  kvminit;;
  kvminithart;;
  procinit;;
  trapinit;;
  trapinithart;;
  plicinit;;
  plicinithart;;
  binit;;
  iinit;;
  fileinit;;
  virtio_disk_init;;
  userinit (FS := fs_ops fuel) initcode;;
  modify (fun s => s <| io ::= fun d => d <| started := 1 |> |>).

(** [while(started == 0);] *)
Definition started_step (_ : unit) : M (unit + unit) :=
  x ← read (fun s => started (io s));
  if x =? 0 then switch_out;; mret (inl tt) else mret (inr tt).

(** [main] on another hart. *)
Definition main_other : M unit :=
  loop fuel started_step tt;;
  hart ← cpuid;
  kprintf ("hart %d starting" +:+ nl) [Printf.AInt (Z.of_nat hart)];;
  kvminithart;;
  trapinithart;;
  plicinithart.

(** [scheduler] does not return. *)
Definition scheduler : M Empty_set :=
  c ← mycpu;
  set_cpu c (fun k => k <| cproc := None |>);;
  loop fuel (fun _ => scheduler_pass;; mret (inl tt)) tt.

Definition main : M Empty_set :=
  hart ← cpuid;
  (if (hart =? 0)%nat then main_first else main_other);;
  scheduler.

(** The result is the page table to return to user space with. *)
Definition forkret : M Z :=
  p ← curproc;
  release (Lproc p);;
  f ← read (fun s => first (io s));
  when (negb (f =? 0))
    (fsinit fuel ROOTDEV;;
     modify (fun s => s <| io ::= fun d => d <| first := 0 |> |>));;
  usertrapret.
End boot.

(** ** A hart that boots: no lock held, interrupts off *)

Definition quiet (s : mach) : Prop :=
  exists k, cpus s !! tp s = Some k /\ noff k = 0 /\ sie k = false /\ intena k = false.

Lemma quiet_hart_ok s : quiet s -> hart_ok s.
Proof. intros (k & Hk & Hn & Hs & _). exists k. split; [done|]. split; [lia|done]. Qed.

Lemma quiet_left_off s : quiet s -> left_off s = s.
Proof.
  intros (k & Hk & Hn & Hs & Hi). unfold left_off, on_cpu.
  assert (E : alter (pop_cpu ∘ push_cpu) (tp s) (cpus s) = cpus s).
  { apply list_eq. intros i. destruct (decide (i = tp s)) as [->|Hne]; [|by rewrite list_lookup_alter_ne].
    rewrite list_lookup_alter_eq, Hk. cbn [fmap option_fmap option_map]. f_equal. unfold compose, push_cpu, pop_cpu. destruct k. cbn in *. subst. reflexivity. }
  destruct s. cbn in *. by rewrite E.
Qed.

Lemma quiet_still s : quiet s -> still s.
Proof. intros H. split; [by apply quiet_hart_ok|by apply quiet_left_off]. Qed.

Lemma quiet_with_csr f s : quiet s -> quiet (with_csr f s).
Proof. intros (k & Hk & H). exists (k <| csr ::= f |>). split; [by apply on_cpu_here|done]. Qed.

(** A lock that is initialised and free, and locks that stay so. *)
Definition free_in (L : gmap lockid spinlock) (lk : lockid) : Prop := exists n, L !! lk = Some (mkSpinlock 0 n None).
Definition kept (L L' : gmap lockid spinlock) : Prop := forall lk, free_in L lk -> free_in L' lk.

Lemma free_in_insert L lk n lk' : lk = lk' \/ free_in L lk' -> free_in (<[lk := mkSpinlock 0 n None]> L) lk'.
Proof.
  intros H. destruct (decide (lk = lk')) as [->|Hne]; [eexists; apply lookup_insert_eq|]. destruct H as [|[m H]]; [done|].
  exists m. by rewrite lookup_insert_ne.
Qed.

Lemma kept_locks_refl L : kept L L.
Proof. by intros lk H. Qed.

Lemma kept_locks_trans L1 L2 L3 : kept L1 L2 -> kept L2 L3 -> kept L1 L3.
Proof. intros H1 H2 lk H. auto. Qed.

Lemma kept_insert L lk n : kept L (<[lk := mkSpinlock 0 n None]> L).
Proof. intros lk' H. apply free_in_insert. by right. Qed.

(** Initialisation that leaves the locks that are free free, and the table of
    sleep locks its length. *)
Definition keeps {A} (m : M A) : Prop := forall e s a e' t, m e s = Ret a e' t -> kept (locks s) (locks t) /\ length (sleeplocks t) = length (sleeplocks s).

Lemma keeps_ret {A} (a : A) : keeps (mret a).
Proof. intros e s b e' t E. injection E as _ _ <-. split; [apply kept_locks_refl|done]. Qed.

Lemma keeps_bind {A B} (m : M A) (k : A -> M B) : keeps m -> (forall a, keeps (k a)) -> keeps (m ≫= k).
Proof.
  intros Hm Hk e s b e' t H. apply M_bind_inv in H as (a & e1 & u & H1 & H2). apply Hm in H1 as [K1 L1]. apply Hk in H2 as [K2 L2].
  split; [by eapply kept_locks_trans|by rewrite L2].
Qed.

Lemma keeps_read {T} (g : mach -> T) : keeps (read g).
Proof. intros e s b e' t E. injection E as _ _ <-. split; [apply kept_locks_refl|done]. Qed.

Lemma keeps_or_fault {A} (o : option A) : keeps (or_fault o).
Proof. destruct o; [apply keeps_ret|intros e s b e' t E; discriminate E]. Qed.

Lemma keeps_modify g : (forall s, locks (g s) = locks s) -> (forall s, length (sleeplocks (g s)) = length (sleeplocks s)) -> keeps (modify g).
Proof. intros H H' e s b e' t E. injection E as _ _ <-. rewrite H, H'. split; [apply kept_locks_refl|done]. Qed.

Lemma keeps_initlock lk n : keeps (initlock lk n).
Proof. intros e s b e' t E. injection E as _ _ <-. split; [apply kept_insert|done]. Qed.

Lemma keeps_for_each {A} (f : A -> M unit) l : (forall x, keeps (f x)) -> keeps (for_each l f).
Proof. intros H. induction l as [|x l IH]; cbn [for_each]; [apply keeps_ret|]. by apply keeps_bind. Qed.

Ltac keeps_step := first [apply keeps_ret | apply keeps_read | apply keeps_or_fault | apply keeps_initlock | apply keeps_modify; [reflexivity|first [reflexivity|intros ?; apply length_alter]]
  | apply keeps_for_each; intros ? | apply keeps_bind; [|intros ?]].

Lemma keeps_initsleeplock n nm : keeps (initsleeplock n nm).
Proof. unfold initsleeplock, set_sleeplock, get_sleeplock. repeat keeps_step. Qed.

Lemma keeps_binit : keeps binit.
Proof. unfold binit. repeat (keeps_step || apply keeps_initsleeplock). Qed.

Lemma keeps_iinit : keeps iinit.
Proof. unfold iinit. repeat (keeps_step || apply keeps_initsleeplock). Qed.

Lemma keeps_procinit : keeps procinit.
Proof. unfold procinit, set_proc, get_proc. repeat keeps_step. Qed.

(** [printf] with its lock. *)
Lemma kprintf_Ret fmt args o e s : Printf.printf (path_bytes fmt) args = Done o -> quiet s -> locking (io s) = 1 -> free_lock s Lpr ->
  kprintf fmt args e s = Ret tt e (s <| console ::= cons (to_string o) |>).
Proof.
  intros Ho Hq Hl Hf. unfold kprintf. msimp. rewrite Hl. change (negb (1 =? 0)) with true. cbn [when]. rewrite Ho, acquire_Ret by (done || by apply quiet_hart_ok). msimp.
  rewrite (release_from Lpr e _ (s <| console ::= cons (to_string o) |>)); [|done|by apply quiet_hart_ok|done]. by rewrite quiet_left_off.
Qed.

(** ** The tables *)

Definition boot_slot (i : nat) (p : proc) : proc := p <| state := UNUSED |> <| kstack := KSTACK (Z.of_nat i) |>.

Lemma slot_next i (l : list proc) :
  alter (fun p => p <| kstack := KSTACK (Z.of_nat i) |>) i (alter (fun p => p <| state := UNUSED |>) i (imap (fun j p => if (j <? i)%nat then boot_slot j p else p) l)) =
  imap (fun j p => if (j <? S i)%nat then boot_slot j p else p) l.
Proof.
  apply list_eq. intros j. destruct (decide (j = i)) as [->|Hne].
  - rewrite !list_lookup_alter_eq, !list_lookup_imap. destruct (l !! i); [|done]. cbn [fmap option_fmap option_map]. f_equal.
    destruct (Nat.ltb_spec i i), (Nat.ltb_spec i (S i)); try lia. done.
  - rewrite !list_lookup_alter_ne, !list_lookup_imap by done. destruct (l !! j); [|done]. cbn [fmap option_fmap option_map]. f_equal.
    destruct (Nat.ltb_spec j i), (Nat.ltb_spec j (S i)); try lia; done.
Qed.

Lemma procinit_Ret e s : length (procs s) = NPROC ->
  exists L, procinit e s = Ret tt e (s <| locks := L |> <| procs := imap boot_slot (procs s) |>) /\ kept (locks s) L /\
    free_in L Lpid /\ free_in L Lwait /\ forall i, (i < NPROC)%nat -> free_in L (Lproc i).
Proof.
  intros Hlen.
  set (I := fun (i : nat) (t : mach) => exists L, t = s <| locks := L |> <| procs := imap (fun j p => if (j <? i)%nat then boot_slot j p else p) (procs s) |> /\
    free_in L Lpid /\ free_in L Lwait /\ forall j, (j < i)%nat -> free_in L (Lproc j)).
  assert (Hw : wp procinit e s (fun _ t => I NPROC t)).
  { unfold procinit. apply wp_bind, wp_modify, wp_bind, wp_modify. apply (wp_for_each _ I).
    - eexists. split; [|split; [apply free_in_insert; right; apply free_in_insert; by left|split; [apply free_in_insert; by left|intros j Hj; lia]]].
      assert (E : imap (fun j p => if (j <? 0)%nat then boot_slot j p else p) (procs s) = procs s).
      { apply list_eq. intros j. rewrite list_lookup_imap. by destruct (procs s !! j). }
      rewrite E. by destruct s.
    - intros i n t Hi (L & -> & H1 & H2 & H3). apply lookup_seq in Hi as [-> Hi]. cbn [Nat.add].
      destruct (lookup_lt_is_Some_2 (procs s) i) as [p Hp]; [lia|].
      assert (Hpi : imap (fun j p => if (j <? i)%nat then boot_slot j p else p) (procs s) !! i = Some p).
      { rewrite list_lookup_imap, Hp. cbn [fmap option_fmap option_map]. by rewrite Nat.ltb_irrefl. }
      apply wp_bind, wp_modify, wp_bind. eapply wp_set_proc_here; [exact Hpi|]. eapply wp_set_proc_here; [by eapply lookup_with_proc|].
      eexists. split; [|split; [|split]].
      + rewrite <- slot_next. reflexivity.
      + apply free_in_insert. by right.
      + apply free_in_insert. by right.
      + intros j Hj. apply free_in_insert. destruct (decide (j = i)) as [->|Hne]; [by left|]. right. apply H3. lia.
    - intros t Ht. exact Ht. }
  destruct Hw as ([] & t & E & L & -> & H1 & H2 & H3). assert (Hk := proj1 (keeps_procinit e s tt e _ E)). exists L. split; [|done].
  rewrite E. f_equal. assert (Ei : imap (fun j p => if (j <? NPROC)%nat then boot_slot j p else p) (procs s) = imap boot_slot (procs s)); [|by rewrite Ei].
  apply list_eq. intros j. rewrite !list_lookup_imap. destruct (procs s !! j) eqn:Ej; [|done]. cbn [fmap option_fmap option_map]. f_equal.
  apply lookup_lt_Some in Ej. destruct (Nat.ltb_spec j NPROC); [done|lia].
Qed.

Lemma iinit_Ret e s : (NBUF + NINODE <= length (sleeplocks s))%nat ->
  exists L SL, iinit e s = Ret tt e (s <| locks := L |> <| sleeplocks := SL |>) /\ kept (locks s) L /\ free_in L Litable /\
    (forall n, (n < NBUF)%nat -> SL !! n = sleeplocks s !! n) /\
    forall i, (i < NINODE)%nat -> free_in L (Lsleep (ilockid i)) /\ exists l, SL !! ilockid i = Some l /\ slocked l = 0.
Proof.
  intros Hlen.
  set (I := fun (i : nat) (t : mach) => exists L SL, t = s <| locks := L |> <| sleeplocks := SL |> /\ length SL = length (sleeplocks s) /\ free_in L Litable /\
    (forall n, (n < NBUF)%nat -> SL !! n = sleeplocks s !! n) /\
    forall j, (j < i)%nat -> free_in L (Lsleep (ilockid j)) /\ exists l, SL !! ilockid j = Some l /\ slocked l = 0).
  assert (Hw : wp iinit e s (fun _ t => I NINODE t)).
  { unfold iinit. apply wp_bind, wp_modify. apply (wp_for_each _ I).
    - do 2 eexists. split; [|split; [reflexivity|split; [apply free_in_insert; by left|split; [done|intros j Hj; lia]]]]. by destruct s.
    - intros i n t Hi (L & SL & -> & H0 & H1 & H2 & H3). apply lookup_seq in Hi as [-> Hi]. cbn [Nat.add].
      destruct (lookup_lt_is_Some_2 SL (ilockid i)) as [l El]; [unfold ilockid; lia|].
      eapply wp_call; [by eapply initsleeplock_Ret|]. do 2 eexists. split; [reflexivity|]. split; [|split; [|split]].
      + rewrite <- H0. apply length_alter.
      + apply free_in_insert. by right.
      + intros m Hm. rewrite list_lookup_alter_ne by (unfold ilockid in *; lia). by apply H2.
      + intros j Hj. destruct (decide (j = i)) as [->|Hne].
        * split; [apply free_in_insert; by left|]. eexists. split; [exact (lookup_alter_here _ _ _ _ El)|done].
        * destruct (H3 j ltac:(lia)) as [F G]. split; [apply free_in_insert; by right|]. rewrite list_lookup_alter_ne by (unfold ilockid in *; lia). exact G.
    - intros t Ht. exact Ht. }
  destruct Hw as ([] & t & E & L & SL & -> & H0 & H1 & H2 & H3). assert (Hk := proj1 (keeps_iinit e s tt e _ E)). by exists L, SL.
Qed.

(** ** Pages for the disk *)

Lemma vm_ok_move `{LK : Linker} s t root D l : vm_ok s root D l -> mem t = mem s -> freelist t = freelist s -> kmem_ready t -> vm_ok t root D l.
Proof. intros [V1 V2 V3 V4] Em Ef Hr. split; [done| |by rewrite Em|done]. unfold kmem_inv in *. by rewrite Em, Ef. Qed.

(** What the driver wants the device to say. *)
Record disk_present (r : Z -> Z) : Prop := mkDiskPresent {
  dp_magic : u32 (r VIRTIO_MMIO_MAGIC_VALUE) = 0x74726976;
  dp_version : u32 (r VIRTIO_MMIO_VERSION) = 2;
  dp_device : u32 (r VIRTIO_MMIO_DEVICE_ID) = 2;
  dp_vendor : u32 (r VIRTIO_MMIO_VENDOR_ID) = 0x554d4551;
  dp_features : Z.land (u32 (r VIRTIO_MMIO_STATUS)) VIRTIO_CONFIG_S_FEATURES_OK <> 0;
  dp_ready : u32 (r VIRTIO_MMIO_QUEUE_READY) = 0;
  dp_max : Z.of_nat NUM <= u32 (r VIRTIO_MMIO_QUEUE_NUM_MAX)
}.

Lemma upd_mem g s : s <| mem ::= g |> = with_vm (g (mem s)) (freelist s) s.
Proof. by destruct s. Qed.

Section disk.
Context `{LK : Linker}.
Hypothesis end_pos : 0 < kernel_end.

Lemma wp_kalloc_more e s root D a l : vm_ok s root D (a :: l) -> still s ->
  wp kalloc e s (fun r t => r = a /\ exists mm fl, t = with_vm mm fl s /\ vm_ok t root D l /\ (page_ok a /\ a ∉ l /\ forall p, D !! p <> Some a) /\
    forall va, leaf mm D va = leaf (mem s) D va).
Proof using end_pos.
  intros V Hs. assert (Hf := proj2 (vo_ready _ _ _ _ V)).
  assert (Ha : page_ok a /\ a ∉ l /\ forall p, D !! p <> Some a).
  { split; [eapply free_page; [apply (VmRep.vo_free _ _ _ _ V)|left]|]. split; [by destruct (proj1 (list.NoDup_cons _ _) (proj2 (VmRep.vo_free _ _ _ _ V)))|].
    intros p Hp. apply (vo_apart _ _ _ _ V) in Hp. apply Hp. left. }
  eapply wp_mono; [exact (wp_vm_only kalloc e s _ vm_only_kalloc Hs Hf (wp_kalloc end_pos e s root D (a :: l) V))|].
  intros r t ((-> & V' & _ & L & _) & mm & fl & ->). split; [done|]. exists mm, fl. done.
Qed.

Lemma wp_clear_page e s root D a l (Q : unit -> mach -> Prop) : vm_ok s root D l -> (page_ok a /\ a ∉ l /\ forall p, D !! p <> Some a) ->
  (forall m, let t := with_vm m (freelist s) s in vm_ok t root D l -> (forall va, leaf m D va = leaf (mem s) D va) -> Q tt t) ->
  wp (memset_mem a 0 PGSIZE) e s Q.
Proof using end_pos.
  intros V (Ha & Hl & Hd) HQ. assert (H0 := page_pos end_pos a Ha). unfold memset_mem. destruct (Z.eqb_spec a 0); [lia|]. apply wp_modify.
  destruct (vm_ok_write s root D l a (fun m => memset m a 0 PGSIZE) V Ha Hl Hd) as [V' L]; [intros b Hb; by apply load8_memset_out|].
  rewrite (upd_mem (fun m => memset m a 0 PGSIZE)) in *. by apply HQ.
Qed.

Definition with_disk (v : vdisk) (s : mach) : mach := s <| io ::= fun d => d <| vdk := v |> |>.

Lemma wp_disk_write g e s v (Q : unit -> mach -> Prop) : Q tt (with_disk (g v) s) -> wp (set_vdk g) e (with_disk v s) Q.
Proof using. intros H. apply wp_modify. by destruct s as [? ? ? ? ? ? ? ? ? ? ? ? ? ? ? ? ? ? []]. Qed.

(** A write to a register; what is written there is not followed. *)
Lemma wp_disk_command reg x e s v w (Q : unit -> mach -> Prop) : (forall w, Q tt (with_disk (v <| vwrites := w |>) s)) -> wp (mmio_write reg x) e (with_disk (v <| vwrites := w |>) s) Q.
Proof using. intros H. apply wp_disk_write, H. Qed.

Lemma wp_disk_read reg e s v w (Q : Z -> mach -> Prop) : let v' := v <| vwrites := w |> in Q (u32 (vregs v reg)) (with_disk v' s) -> wp (mmio_read reg) e (with_disk v' s) Q.
Proof using. intros v' H. unfold mmio_read. apply wp_bind, wp_get_vdk, wp_ret. by destruct s as [? ? ? ? ? ? ? ? ? ? ? ? ? ? ? ? ? ? []]. Qed.

Lemma with_disk_here s : with_disk (vdk (io s)) s = s.
Proof using. by destruct s as [? ? ? ? ? ? ? ? ? ? ? ? ? ? ? ? ? ? []]. Qed.

Lemma wp_virtio_disk_init e s root D a b c l : vm_ok s root D (a :: b :: c :: l) -> quiet s -> disk_present (vregs (vdk (io s))) ->
  length (info (vdk (io s))) = NUM -> length (ops (vdk (io s))) = NUM ->
  wp virtio_disk_init e s (fun _ t => exists mm fl nm v, t = with_vm mm fl (with_disk v (s <| locks ::= <[Lvdisk := mkSpinlock 0 nm None]> |>)) /\
    vm_ok t root D l /\ (forall va, leaf mm D va = leaf (mem s) D va) /\
    vdisk_ok v /\ dfree v = replicate NUM true /\ avail_idx v = 0 /\ used_count v = 0 /\ used_idx v = used_idx (vdk (io s)) /\ bdisk v = bdisk (vdk (io s)) /\ vregs v = vregs (vdk (io s))).
Proof using end_pos.
  intros V Hq [P1 P2 P3 P4 P5 P6 P7] Hi Ho. unfold virtio_disk_init. apply wp_bind, wp_modify.
  set (s1 := s <| locks ::= _ |>). assert (Hq1 : quiet s1) by exact Hq. set (v := vdk (io s)) in *.
  assert (V1 : vm_ok s1 root D (a :: b :: c :: l)).
  { apply (vm_ok_move s); [done..|]. split; [by apply quiet_hart_ok|]. apply free_in_insert. right. apply (vo_ready _ _ _ _ V). }
  assert (E1 : s1 = with_disk v s1) by exact (eq_sym (with_disk_here s1)). rewrite E1. assert (E2 : v = v <| vwrites := vwrites v |>) by by destruct v. rewrite E2 at 1.
  apply wp_bind, wp_disk_read, wp_bind, wp_disk_read, wp_bind, wp_disk_read, wp_bind, wp_disk_read. rewrite P1, P2, P3, P4. match goal with |- wp (if ?b then _ else _) _ _ _ => change b with false end. cbv match.
  do 3 (apply wp_bind; apply wp_disk_command; intros ?). apply wp_bind, wp_disk_read. do 2 (apply wp_bind; apply wp_disk_command; intros ?). apply wp_bind, wp_disk_read.
  destruct (Z.eqb_spec (Z.land (u32 (vregs v VIRTIO_MMIO_STATUS)) VIRTIO_CONFIG_S_FEATURES_OK) 0) as [E0|_]; [by destruct (P5 E0)|].
  apply wp_bind, wp_disk_command. intros w9. apply wp_bind, wp_disk_read. rewrite P6. change (negb (0 =? 0)) with false. cbv match. apply wp_bind, wp_disk_read.
  change (Z.of_nat NUM) with 8 in P7. destruct (Z.eqb_spec (u32 (vregs v VIRTIO_MMIO_QUEUE_NUM_MAX)) 0) as [E0|_]; [lia|].
  change (Z.of_nat NUM) with 8 at 1. destruct (Z.ltb_spec (u32 (vregs v VIRTIO_MMIO_QUEUE_NUM_MAX)) 8) as [E0|_]; [lia|].
  set (T0 := with_disk _ s1). assert (V0 : vm_ok T0 root D (a :: b :: c :: l)).
  { apply (vm_ok_move s1); [done..|]. split; [by apply quiet_hart_ok|]. apply (vo_ready _ _ _ _ V1). }
  apply wp_bind. eapply wp_mono; [apply (wp_kalloc_more e T0 root D a _ V0); by apply quiet_still|]. intros r t (-> & m1 & f1 & -> & Va & Fa & La).
  apply wp_bind. eapply wp_mono; [apply (wp_kalloc_more e _ root D b _ Va); by apply quiet_still|]. intros r t (-> & m2 & f2 & -> & Vb & Fb & Lb).
  apply wp_bind. eapply wp_mono; [apply (wp_kalloc_more e _ root D c _ Vb); by apply quiet_still|]. intros r t (-> & m3 & f3 & -> & Vc & Fc & Lc).
  set (T3 := with_vm m3 f3 _) in *. assert (Ha := page_pos end_pos a (proj1 Fa)). assert (Hb := page_pos end_pos b (proj1 Fb)). assert (Hc := page_pos end_pos c (proj1 Fc)).
  destruct (Z.eqb_spec a 0), (Z.eqb_spec b 0), (Z.eqb_spec c 0); try lia. cbn [orb].
  assert (Fa' : page_ok a /\ a ∉ l /\ forall p, D !! p <> Some a) by (destruct Fa as (F1 & F2 & F3); split; [done|]; split; [intros H; apply F2; by do 2 right|done]).
  assert (Fb' : page_ok b /\ b ∉ l /\ forall p, D !! p <> Some b) by (destruct Fb as (F1 & F2 & F3); split; [done|]; split; [intros H; apply F2; by right|done]).
  apply wp_bind, (wp_clear_page e T3 root D a l _ Vc Fa'). intros m4 T4 V4 L4. apply wp_bind, (wp_clear_page e T4 root D b l _ V4 Fb'). intros m5 T5 V5 L5.
  apply wp_bind, (wp_clear_page e T5 root D c l _ V5 Fc). intros m6 T6 V6 L6.
  change T6 with (with_disk (v <| vwrites := w9 |>) (with_vm m6 f3 s1)).
  apply wp_bind, wp_disk_write. do 8 (apply wp_bind; unfold mmio_write at 1; apply wp_disk_write). apply wp_bind, wp_disk_write. unfold mmio_write. apply wp_disk_write.
  do 4 eexists. split; [reflexivity|]. split; [|split; [|split]].
  - apply (vm_ok_move T6); [done..|]. split; [by apply quiet_hart_ok|]. apply (vo_ready _ _ _ _ V1).
  - intros va. rewrite L6. change (mem T5) with m5. rewrite L5. change (mem T4) with m4. rewrite L4. change (mem T3) with m3. rewrite Lc. change (mem (with_vm m2 f2 (with_vm m1 f1 T0))) with m2. rewrite Lb. change (mem (with_vm m1 f1 T0)) with m1. apply La.
  - split; cbn [desc dfree avail_ring used_ring info ops]; [reflexivity..|exact Hi|exact Ho].
  - done.
Qed.
End disk.

(** ** The boot of hart 0 *)

(** What the loader leaves: cleared tables, no page free yet, one disk. *)
Record power_on (s : mach) : Prop := mkPowerOn {
  po_hart : tp s = 0%nat /\ quiet s;
  po_free : freelist s = 0;
  po_procs : length (procs s) = NPROC;
  po_inodes : no_inodes s;
  po_sleep : (NBUF + NINODE <= length (sleeplocks s))%nat;
  po_cache : zero_cache (bc s);
  po_locks : free_lock s Llog;
  po_log : length (block (lh (slog s))) = Z.to_nat LOGSIZE;
  po_disk : disk_present (vregs (vdk (io s))) /\ length (info (vdk (io s))) = NUM /\ length (ops (vdk (io s))) = NUM
}.

(** The locks of the kernel: all but that of the log, which is still zero, are
    initialised by [main]. *)
Definition boot_lock (lk : lockid) : Prop :=
  match lk with
  | Lptable | Lpipe _ => False
  | Lproc i => (i < NPROC)%nat
  | Lsleep n => (n < NBUF + NINODE)%nat
  | _ => True
  end.

(** What [main] has made of [s] before it schedules: the pages [l0] were free
    when the first process was made, [l] still are; the kernel's table has the
    directories [D] and the stacks [sts]; the first process has the trap frame
    [tf], the page [pg] and the table [u] with the directories [U]. *)
Record booted `{LK : Linker} `{VC : Vectors} (s t : mach) (sts : list Z) (D U : dirs) (tf pg u : Z) (l0 l : list Z) : Prop := mkBooted {
  bt_hart : tp t = 0%nat /\ quiet t;
  bt_paging : satp (csr_of t) = MAKE_SATP (kernel_pagetable t) /\ stvec (csr_of t) = kernelvec;
  bt_kernel : vm_ok t (kernel_pagetable t) D l /\ exists f, kernel_space f sts /\ forall va, 0 <= va < MAXVA -> leaf (mem t) D va = f va;
  bt_stacks : length sts = NPROC /\ NoDup (sts ++ l0) /\ forall p a, D !! p = Some a -> a ∉ l0;
  bt_first : (forall p, procs s !! 0%nat = Some p -> procs t !! 0%nat = Some (init_slot (nextpid s) tf u (boot_slot 0 p))) /\ initproc t = Some 0%nat;
  bt_space : vm_ok t u U l /\ first_space initcode l0 (mem t) tf pg U;
  bt_apart : (forall p a, U !! p = Some a -> a ∈ l0 /\ a <> tf /\ a <> pg) /\ (forall a, a ∈ l -> a ∈ l0) /\ tf ∉ l /\ pg ∉ l;
  bt_procs : length (procs t) = NPROC;
  bt_rest : forall i p, (0 < i)%nat -> procs s !! i = Some p -> procs t !! i = Some (boot_slot i p);
  bt_locks : forall lk, boot_lock lk -> free_lock t lk;
  bt_cache : forall pid_, cache_rep (bc t) (sleeplocks t) pid_ (disk (bc s)) [] [];
  bt_sleep : forall i, (i < NINODE)%nat -> exists k, sleeplocks t !! ilockid i = Some k /\ slocked k = 0;
  bt_disk : vdisk_ok (vdk (io t)) /\ dfree (vdk (io t)) = replicate NUM true;
  bt_same : disk (bc t) = disk (bc s) /\ slog t = slog s /\ first (io t) = first (io s);
  bt_inodes : inodes t = alter root_ref 0%nat (inodes s);
  bt_said : console t = [nl; "xv6 kernel is booting" +:+ nl; nl] ++ console s;
  bt_started : started (io t) = 1
}.

Lemma consoleinit_Ret e s : exists g L, consoleinit e s = Ret tt e (s <| locks := L |> <| io ::= fun d => d <| serial ::= g |> |>) /\ kept (locks s) L /\ free_in L Lcons /\ free_in L Luart.
Proof.
  unfold consoleinit, uartinit, WriteReg, set_serial, initlock, set_lock.
  set (w := fun (r v : Z) (u : uart) => u <| uwrites ::= cons (r, u8 v) |>).
  exists (w IER (Z.lor IER_TX_ENABLE IER_RX_ENABLE) ∘ w FCR (Z.lor FCR_FIFO_ENABLE FCR_FIFO_CLEAR) ∘ w LCR LCR_EIGHT_BITS ∘ w 1 0 ∘ w 0 3 ∘ w LCR LCR_BAUD_LATCH ∘ w IER 0).
  eexists. split; [|split; [|split]].
  - destruct s as [? ? ? ? ? ? ? ? ? ? ? ? ? ? ? ? ? ? []]. reflexivity.
  - eapply kept_locks_trans; apply kept_insert.
  - apply free_in_insert. right. apply free_in_insert. by left.
  - apply free_in_insert. by left.
Qed.

Section main.
Context `{LK : Linker}.
Hypothesis end_pos : 0 < kernel_end.

Lemma pages_count (n : nat) l : kernel_end + Z.of_nat n * PGSIZE <= PHYSTOP -> (forall q, q ∈ l <-> page_ok q) -> (n <= length l)%nat.
Proof using.
  intros Hn Hl. set (L := (fun k => PHYSTOP - (Z.of_nat k + 1) * PGSIZE) <$> seq 0 n).
  assert (H : L ⊆+ l).
  { apply NoDup_submseteq.
    - apply NoDup_fmap_2_strong; [|apply NoDup_seq]. intros i j _ _ E. unfold PGSIZE in E. lia.
    - intros q (k & -> & Hk)%list_elem_of_fmap. apply elem_of_seq in Hk. apply Hl. split; [|unfold PGSIZE in *; lia].
      unfold PHYSTOP, KERNBASE, PGSIZE. apply Z.mod_divide; [done|]. exists (0x80000 + 0x8000 - (Z.of_nat k + 1)). lia. }
  apply submseteq_length in H. unfold L in H. by rewrite length_fmap, length_seq in H.
Qed.

Lemma vm_only_freerange fuel a b : vm_only (freerange fuel a b).
Proof using. unfold freerange, freerange_step. apply vm_only_loop. intros p. repeat vm_step. Qed.

Lemma vm_only_kvmmake : vm_only kvmmake.
Proof using. unfold kvmmake, kvmmap, proc_mapstacks, kvmmap. repeat vm_step. Qed.

Lemma wp_kinit fuel e s : quiet s -> freelist s = 0 -> kernel_end <= PHYSTOP -> (PHYSTOP - kernel_end) / PGSIZE < Z.of_nat fuel ->
  wp (kinit fuel) e s (fun _ t => exists nm mm fl l, t = with_vm mm fl (s <| locks ::= <[Lkmem := mkSpinlock 0 nm None]> |>) /\ kmem_inv t l /\ forall q, q ∈ l <-> page_ok q).
Proof using end_pos.
  intros Hq Hf Hle Hfuel. destruct (kinit_frees_all_pages end_pos fuel e s (quiet_hart_ok s Hq) Hf Hle Hfuel) as (t & l & E & _ & Hi & Hl).
  exists tt, t. split; [exact E|]. set (s1 := s <| locks ::= <[Lkmem := mkSpinlock 0 "kmem" None]> |>).
  assert (W : wp (freerange fuel kernel_end PHYSTOP) e s1 (fun _ t' => t' = t)) by by exists tt, t.
  apply wp_vm_only in W as ([] & t' & _ & -> & mm & fl & Et); [|apply vm_only_freerange|by apply quiet_still|by eexists; apply lookup_insert_eq].
  by exists "kmem"%string, mm, fl, l.
Qed.

Lemma wp_set_csr_quiet f e s (Q : unit -> mach -> Prop) : quiet s -> Q tt (with_csr f s) -> wp (set_csr f) e s Q.
Proof using. intros (k & Hk & _) HQ. eapply wp_call; [by apply (set_csr_Ret e s k Hk)|done]. Qed.

Context `{VC : Vectors} `{DK : Disk} `{DV : Devices}.
Hypothesis etext_aligned : etext mod PGSIZE = 0.
Hypothesis etext_range : KERNBASE < etext < PHYSTOP.
Hypothesis trampoline_range : 0 <= trampoline < 2 ^ 56.
Hypothesis enough_memory : kernel_end + 200 * PGSIZE <= PHYSTOP.

(** After the first half: the kernel runs in its own address space. *)
Record paged (s t : mach) (sts : list Z) (D : dirs) (l : list Z) : Prop := mkPaged {
  pg_hart : tp t = 0%nat /\ quiet t;
  pg_satp : satp (csr_of t) = MAKE_SATP (kernel_pagetable t);
  pg_vm : vm_ok t (kernel_pagetable t) D l /\ forall va, 0 <= va < MAXVA -> leaf (mem t) D va = stacks fixed_map sts va;
  pg_pages : length sts = NPROC /\ NoDup (sts ++ l) /\ (11 < length l)%nat;
  pg_locks : forall lk, lk = Lcons \/ lk = Luart \/ lk = Lpr \/ lk = Lkmem \/ lk = Llog -> free_lock t lk;
  pg_said : console t = [nl; "xv6 kernel is booting" +:+ nl; nl] ++ console s;
  pg_same : procs t = procs s /\ nextpid t = nextpid s /\ sleeplocks t = sleeplocks s /\ bc t = bc s /\ inodes t = inodes s /\ vdk (io t) = vdk (io s) /\
    slog t = slog s /\ first (io t) = first (io s)
}.

Lemma wp_paging fuel e s (k : M unit) Q : power_on s -> (PHYSTOP - kernel_end) / PGSIZE < Z.of_nat fuel ->
  (forall t sts D l, paged s t sts D l -> wp k e t Q) ->
  wp (consoleinit;; printfinit;; kprintf nl [];; kprintf ("xv6 kernel is booting" +:+ nl) [];; kprintf nl [];; kinit fuel;; kvminit;; kvminithart;; k) e s Q.
Proof using end_pos etext_aligned etext_range trampoline_range enough_memory.
  intros [[Ht Hq] Hfl _ _ _ _ Hlog _ _] Hfuel HQ.
  destruct (consoleinit_Ret e s) as (g1 & L1 & E1 & K1 & F1 & F1'). apply wp_bind. eapply wp_call; [exact E1|]. clear E1. set (s1 := s <| locks := L1 |> <| io ::= _ |>).
  apply wp_bind. unfold printfinit. apply wp_bind, wp_modify, wp_modify. set (s2 := _ <| io ::= _ |>).
  assert (F2 : free_lock s2 Lpr) by (apply free_in_insert; by left).
  apply wp_bind. eapply wp_call; [by eapply kprintf_Ret; [vm_compute; reflexivity|..]|]. apply wp_bind. eapply wp_call; [by eapply kprintf_Ret; [vm_compute; reflexivity|..]|]. apply wp_bind. eapply wp_call; [by eapply kprintf_Ret; [vm_compute; reflexivity|..]|].
  set (s3 := _ <| console ::= _ |>).
  apply wp_bind. eapply wp_mono; [apply (wp_kinit fuel e s3); [exact Hq|exact Hfl|unfold PGSIZE in *; lia|exact Hfuel]|].
  intros _ t (nm4 & m4 & f4 & l4 & -> & I4 & P4). set (s4 := with_vm m4 f4 _) in *.
  assert (N4 : (200 <= length l4)%nat) by by apply pages_count.
  assert (Q4 : quiet s4) by exact Hq. assert (F4 : free_lock s4 Lkmem) by (apply free_in_insert; by left).
  apply wp_bind. unfold kvminit. apply wp_bind.
  eapply wp_mono; [exact (wp_vm_only kvmmake e s4 _ vm_only_kvmmake (quiet_still _ Q4) F4 (wp_kvmmake end_pos etext_aligned etext_range trampoline_range e s4 l4 (conj (quiet_hart_ok _ Q4) F4) I4 ltac:(lia)))|].
  intros root t ((sts & D & l5 & Hsts & K & Hst & Hnd) & m5 & f5 & ->). apply wp_modify. set (s5 := with_vm m5 f5 s4 <| kernel_pagetable := root |>).
  assert (N5 : (11 < length l5)%nat).
  { assert (H := dirs_bound D kpaths (km_paths _ _ _ _ _ _ _ _ K)). assert (H' := km_count _ _ _ _ _ _ _ _ K). change (length kpaths) with 102%nat in H. unfold NPROC in *. lia. }
  destruct Hq as (k5 & Hk5 & Q5). change (cpus s !! tp s) with (cpus s5 !! tp s5) in Hk5.
  apply wp_bind. unfold kvminithart. apply wp_bind, wp_read. unfold w_satp. apply wp_set_csr_quiet; [by exists k5|].
  assert (Hk6 := with_csr_here s5 k5 Hk5 (fun r => r <| satp := MAKE_SATP root |>)).
  assert (Q6 : quiet (with_csr (fun r => r <| satp := MAKE_SATP root |>) s5)) by (eexists; by split).
  apply (HQ _ sts D l5). split.
  - by split.
  - exact (f_equal (fun k => satp (csr k)) (this_cpu_Some _ _ Hk6)).
  - split; [|apply K]. eapply vm_ok_move; [apply K|done|done|]. split; [by apply quiet_hart_ok|exact F4].
  - done.
  - intros lk [->|[->|[->|[->| ->]]]]; [..|exact F4|]; apply free_in_insert; right; apply free_in_insert; [by right|by right|by left|right; by apply K1].
  - done.
  - done.
Qed.

(** After the tables: every process slot, buffer and inode has its locks. *)
Record tabled (s t : mach) (sts : list Z) (D : dirs) (l : list Z) : Prop := mkTabled {
  tb_hart : tp t = 0%nat /\ quiet t;
  tb_paging : satp (csr_of t) = MAKE_SATP (kernel_pagetable t) /\ stvec (csr_of t) = kernelvec;
  tb_vm : vm_ok t (kernel_pagetable t) D l /\ forall va, 0 <= va < MAXVA -> leaf (mem t) D va = stacks fixed_map sts va;
  tb_pages : length sts = NPROC /\ NoDup (sts ++ l) /\ (11 < length l)%nat;
  tb_locks : forall lk, boot_lock lk -> lk <> Lvdisk -> free_lock t lk;
  tb_procs : procs t = imap boot_slot (procs s) /\ nextpid t = nextpid s;
  tb_cache : forall pid_, cache_rep (bc t) (sleeplocks t) pid_ (disk (bc s)) [] [];
  tb_sleep : forall i, (i < NINODE)%nat -> exists k, sleeplocks t !! ilockid i = Some k /\ slocked k = 0;
  tb_said : console t = [nl; "xv6 kernel is booting" +:+ nl; nl] ++ console s;
  tb_same : inodes t = inodes s /\ vdk (io t) = vdk (io s) /\ disk (bc t) = disk (bc s) /\ slog t = slog s /\ first (io t) = first (io s)
}.

Lemma binit_cache e t u : zero_cache (bc t) -> (NBUF <= length (sleeplocks t))%nat -> binit e t = Ret tt e u ->
  u = t <| locks := locks u |> <| sleeplocks := sleeplocks u |> <| bc := bc t <| lru := lru (bc u) |> |> /\
  (forall pid_, cache_rep (bc u) (sleeplocks u) pid_ (disk (bc t)) [] []) /\ free_lock u Lbcache /\ forall n, (n < NBUF)%nat -> free_lock u (Lsleep n).
Proof using.
  intros Hz Hn E. assert (H : forall pid_, u = t <| locks := locks u |> <| sleeplocks := sleeplocks u |> <| bc := bc t <| lru := lru (bc u) |> |> /\
    cache_rep (bc u) (sleeplocks u) pid_ (disk (bc t)) [] [] /\ free_lock u Lbcache /\ forall n, (n < NBUF)%nat -> free_lock u (Lsleep n)).
  { intros pid_. destruct (binit_empties e t pid_ Hz Hn) as (u' & E' & R & F & Eu). rewrite E in E'. injection E' as <-. done. }
  split; [apply (H 0)|]. split; [intros pid_; apply (H pid_)|]. apply (H 0).
Qed.

Lemma cache_rep_locks c sl sl' pid_ v h k : cache_rep c sl pid_ v h k -> (forall n, (n < NBUF)%nat -> sl' !! n = sl !! n) -> cache_rep c sl' pid_ v h k.
Proof using. exact (cache_rep_sl (proc0 <| pid := pid_ |>) c sl sl' v h k). Qed.

Lemma wp_tables e s t sts D l (k : M unit) Q : power_on s -> paged s t sts D l ->
  (forall u, tabled s u sts D l -> wp k e u Q) ->
  wp (procinit;; trapinit;; trapinithart;; plicinit;; plicinithart;; binit;; iinit;; fileinit;; k) e t Q.
Proof using.
  intros [_ _ Hpr _ Hsl Hbc _ _ _] [[Ht Hq] Hsatp [V L] Hpg Hlk Hsaid (E1 & E2 & E3 & E4 & E5 & E6 & E10 & E11)] HQ.
  destruct (procinit_Ret e t) as (L7 & E7 & K7 & F7 & F7' & F7''); [by rewrite E1|]. apply wp_bind. eapply wp_call; [exact E7|]. clear E7. set (t1 := t <| locks := L7 |> <| procs := _ |>).
  apply wp_bind. unfold trapinit. apply wp_modify. set (t2 := t1 <| locks ::= _ |>). change (t1 <| locks ::= _ |>) with t2.
  destruct Hq as (k5 & Hk5 & Q5). assert (Hk2 : cpus t2 !! tp t2 = Some k5) by exact Hk5.
  apply wp_bind. unfold trapinithart, w_stvec. apply wp_set_csr_quiet; [by exists k5|]. set (t3 := with_csr _ t2).
  assert (Hk3 := with_csr_here t2 k5 Hk2 (fun r => r <| stvec := kernelvec |>)). change (with_csr _ t2) with t3 in Hk3. set (k9 := k5 <| csr ::= _ |>) in Hk3.
  apply wp_bind. unfold plicinit, plic_write. apply wp_bind, wp_modify, wp_modify. apply wp_bind. unfold plicinithart, plic_write. apply wp_bind, wp_read, wp_bind, wp_modify, wp_modify.
  set (t4 := _ <| io ::= _ |>).
  assert (Hbc4 : zero_cache (bc t4)) by by change (bc t4) with (bc t); rewrite E4.
  assert (Hsl4 : (NBUF + NINODE <= length (sleeplocks t4))%nat) by by change (sleeplocks t4) with (sleeplocks t); rewrite E3.
  destruct (binit_empties e t4 0 Hbc4 ltac:(lia)) as (u & Eb & _). destruct (binit_cache e t4 u Hbc4 ltac:(lia) Eb) as (Eu & R & Fb & Fs).
  destruct (keeps_binit e t4 tt e u Eb) as [Kb Lb]. apply wp_bind. eapply wp_call; [exact Eb|]. clear Eb.
  assert (Hslu : (NBUF + NINODE <= length (sleeplocks u))%nat) by by rewrite Lb.
  destruct (iinit_Ret e u Hslu) as (L8 & SL & Ei & K8 & F8 & S8 & I8). apply wp_bind. eapply wp_call; [exact Ei|]. clear Ei.
  apply wp_bind. unfold fileinit. apply wp_modify. set (w := _ <| locks ::= _ |>).
  apply (HQ w). clear HQ. assert (Ecp : cpus u = cpus t3 /\ tp u = tp t3 /\ mem u = mem t /\ freelist u = freelist t /\ kernel_pagetable u = kernel_pagetable t /\ console u = console t /\
    procs u = imap boot_slot (procs t) /\ nextpid u = nextpid t /\ inodes u = inodes t /\ vdk (io u) = vdk (io t) /\
    disk (bc u) = disk (bc t) /\ slog u = slog t /\ first (io u) = first (io t)) by (rewrite Eu; done).
  destruct Ecp as (U1 & U2 & U3 & U4 & U5 & U6 & U7 & U8 & U9 & U10 & U11 & U12 & U13).
  assert (Hkw : cpus w !! tp w = Some k9) by (change (cpus u !! tp u = Some k9); by rewrite U1, U2).
  assert (Hqw : quiet w) by by exists k9.
  assert (Hku : kept (locks u) (locks w)) by (eapply kept_locks_trans; [exact K8|apply kept_insert]).
  assert (Hkt : kept (locks t2) (locks w)) by (eapply kept_locks_trans; [exact Kb|exact Hku]).
  assert (Hkept : kept L7 (locks w)) by (eapply kept_locks_trans; [|exact Hkt]; apply kept_insert).
  assert (Hfree : forall lk, free_lock t lk -> free_lock w lk) by (intros lk H; apply Hkept, K7, H).
  split.
  - split; [|done]. change (tp u = 0%nat). by rewrite U2.
  - split; [|by exact (f_equal (fun k => stvec (csr k)) (this_cpu_Some _ _ Hkw))]. change (kernel_pagetable w) with (kernel_pagetable u). rewrite U5, <- Hsatp.
    etransitivity; [exact (f_equal (fun k => satp (csr k)) (this_cpu_Some _ _ Hkw))|]. by exact (eq_sym (f_equal (fun k => satp (csr k)) (this_cpu_Some _ _ Hk5))).
  - change (kernel_pagetable w) with (kernel_pagetable u). change (mem w) with (mem u). rewrite U5, U3. split; [|done].
    apply (vm_ok_move t); [done|done|done|]. split; [by apply quiet_hart_ok|]. apply Hfree, Hlk. auto.
  - done.
  - intros [] Hb Hv; try done; try (apply Hfree, Hlk; by auto); try (by apply Hkept).
    + apply Hkt, free_in_insert. by left.
    + apply free_in_insert. by left.
    + by apply Hku.
    + apply free_in_insert. by right.
    + by apply Hkept, F7''.
    + destruct (decide (n < NBUF)%nat) as [Hn|Hn]; [by apply Hku, Fs|]. cbn [boot_lock] in Hb. replace n with (ilockid (n - NBUF)) by (unfold ilockid; lia). apply free_in_insert. right. apply I8. lia.
  - change (procs w) with (procs u). change (nextpid w) with (nextpid u). by rewrite U7, U8, E1, E2.
  - intros pid_. change (bc w) with (bc u). change (sleeplocks w) with SL. rewrite <- E4. by eapply cache_rep_locks; [apply R|].
  - intros i Hi. apply I8, Hi.
  - change (console w) with (console u). by rewrite U6.
  - change (inodes w) with (inodes u). change (io w) with (io u). change (bc w) with (bc u). change (slog w) with (slog u). by rewrite U9, U10, U11, U12, U13, <- E4.
Qed.

(** The disk and the first process. *)
Lemma wp_first fuel e s t sts D l : power_on s -> tabled s t sts D l ->
  wp (virtio_disk_init;; userinit (FS := fs_ops (S fuel)) initcode;; modify (fun s => s <| io ::= fun d => d <| started := 1 |> |>)) e t
    (fun _ u => exists U tf pg ut l0 l', booted s u sts D U tf pg ut l0 l').
Proof using end_pos etext_aligned etext_range trampoline_range.
  intros [_ _ Hpr Hin _ _ _ _ (Hd1 & Hd2 & Hd3)] [[Ht Hq] [Hsatp Hvec] [V L] (P1 & P2 & P3) Hlk (E1 & E2) Hc Hsl Hsaid (E3 & E4 & E5)].
  destruct l as [|a [|b [|c l]]]; cbn [length] in P3; try lia. rewrite <- E4 in Hd1, Hd2, Hd3.
  apply wp_bind. eapply wp_mono; [by apply (wp_virtio_disk_init end_pos e t (kernel_pagetable t) D a b c l)|].
  intros _ t1 (m1 & f1 & nm & v & -> & V1 & L1 & Hv & Hfr & _). set (t1 := with_vm m1 f1 _) in *.
  assert (F1 : forall lk, boot_lock lk -> free_lock t1 lk).
  { intros lk Hb. apply free_in_insert. destruct (decide (lk = Lvdisk)) as [->|Hne]; [by left|]. right. by apply Hlk. }
  assert (Q1 : quiet t1) by exact Hq. destruct (lookup_lt_is_Some_2 (procs s) 0) as [p0 Hp0]; [rewrite Hpr; unfold NPROC; lia|].
  assert (Hp1 : procs t1 !! 0%nat = Some (boot_slot 0 p0)) by (change (procs t1) with (procs t); by rewrite E1, list_lookup_imap, Hp0).
  apply wp_bind. eapply wp_mono; [apply (wp_userinit fuel initcode end_pos trampoline_range e t1 (boot_slot 0 p0) l)|].
  { by apply quiet_hart_ok. }
  { intros lk H. apply F1. repeat (apply list.elem_of_cons in H as [->|H]; [cbn; unfold NPROC; lia || done|]). by apply elem_of_nil in H. }
  { exact Hp1. }
  { done. }
  { intros i Hi. change (inodes t1) with (inodes t). rewrite E3. by apply Hin. }
  { apply (VmRep.vo_free _ _ _ _ V1). }
  { lia. }
  { by vm_compute. }
  intros _ t2 (tf & ut & m2 & f2 & pg & U & l' & -> & V2 & HU & Hl' & W & Htf & Hpg & Fs).
  assert (EI : inited tf ut m2 f2 t1 = with_vm m2 f2 (with_proc (init_slot (nextpid t1) tf ut) 0 (t1 <| nextpid ::= Z.succ |> <| initproc := Some 0%nat |> <| inodes ::= alter root_ref 0%nat |>))) by by apply quiet_left_off.
  rewrite EI in *. clear EI. set (t2 := with_vm m2 f2 _) in *. apply wp_modify. set (t3 := t2 <| io ::= _ |>).
  assert (W' : forall b, (forall x, x ∈ l -> ~ in_page x b) -> load8 m2 b = load8 m1 b) by exact W.
  assert (V2' : vm_ok t3 ut U l') by (apply (vm_ok_move t2); [exact V2|done|done|]; split; [by apply quiet_hart_ok|by apply (F1 Lkmem)]).
  destruct (vm_ok_frame t1 t3 (kernel_pagetable t) D l l' V1) as [V3 L3].
  { split; [by apply quiet_hart_ok|by apply (F1 Lkmem)]. }
  { apply (VmRep.vo_free _ _ _ _ V2'). }
  { intros x Hx p Hp. apply (vo_apart _ _ _ _ V1 _ _ Hp), Hl', Hx. }
  { intros p x y Hp Hy. change (load8 m2 y = load8 m1 y). apply W'. intros z Hz. apply (in_page_neq x); [by eapply (pr_page _ _ _ (vo_rep _ _ _ _ V1))|eapply free_page; [apply (VmRep.vo_free _ _ _ _ V1)|done]| |done].
    intros ->. by apply (vo_apart _ _ _ _ V1 _ _ Hp). }
  exists U, tf, pg, ut, l, l'. split.
  - done.
  - done.
  - split; [exact V3|]. exists (stacks fixed_map sts). split; [by apply fixed_space; [| |rewrite P1]|]. intros va Hva. rewrite L3, <- (L va Hva). apply L1.
  - split; [done|]. split.
    + apply list.NoDup_app in P2 as (N1 & N2 & N3). apply list.NoDup_app. split; [done|]. split; [intros x Hx Hx'; apply (N2 x Hx); by do 3 right|].
      by apply list.NoDup_cons in N3 as [_ [_ [_ N3]%list.NoDup_cons]%list.NoDup_cons].
    + intros p x Hp Hx. by apply (vo_apart _ _ _ _ V1 _ _ Hp).
  - split; [|done]. intros p Hp. rewrite Hp0 in Hp. injection Hp as <-. rewrite <- E2. exact (lookup_with_proc _ _ _ _ Hp1).
  - split; [exact V2'|exact Fs].
  - done.
  - transitivity (length (procs t1)); [apply length_alter|]. change (procs t1) with (procs t). by rewrite E1, length_imap.
  - intros i p Hi Hp. transitivity (procs t1 !! i); [apply list_lookup_alter_ne; lia|]. change (procs t1) with (procs t). by rewrite E1, list_lookup_imap, Hp.
  - exact F1.
  - exact Hc.
  - exact Hsl.
  - done.
  - exact E5.
  - transitivity (alter root_ref 0%nat (inodes t)); [done|]. by rewrite E3.
  - done.
  - done.
Qed.

Lemma wp_main_first fuel e s : power_on s -> (PHYSTOP - kernel_end) / PGSIZE < Z.of_nat (S fuel) ->
  wp (main_first (S fuel)) e s (fun _ t => exists sts D U tf pg u l0 l, booted s t sts D U tf pg u l0 l).
Proof using end_pos etext_aligned etext_range trampoline_range enough_memory.
  intros Hs Hfuel. apply (wp_paging (S fuel) e s _ _ Hs Hfuel). intros t sts D l Hp. apply (wp_tables e s t sts D l _ _ Hs Hp). intros u Hu.
  eapply wp_mono; [by apply (wp_first fuel e s u sts D l)|]. intros _ w (U & tf & pg & ut & l0 & l' & H). by exists sts, D, U, tf, pg, ut, l0, l'.
Qed.
End main.

(** ** The first process runs *)

Definition cpu_proc (p : option nat) (k : cpu) : cpu := k <| cproc := p |>.
Definition cpu_on (k : cpu) : cpu := k <| sie := true |>.

(** Hart 0 has switched to the first process, whose lock it holds. *)
Definition switched (u : mach) : mach :=
  on_cpu (cpu_proc (Some 0%nat)) (with_proc (fun p => p <| state := RUNNING |>) 0 (enter (Lproc 0) (on_cpu cpu_on (on_cpu (cpu_proc None) u)))).

Lemma on_cpu_Ret f e s k (Q : unit -> mach -> Prop) : cpus s !! tp s = Some k -> Q tt (on_cpu f s) -> wp (set_cpu (tp s) f) e s Q.
Proof. intros Hk HQ. eapply wp_call; [by apply (set_cpu_Ret f e s k)|done]. Qed.

Lemma scheduler_switches fuel u pr : quiet u -> free_lock u (Lproc 0) -> procs u !! 0%nat = Some pr -> state pr = RUNNABLE ->
  scheduler (S fuel) [] u = Blocked (switched u).
Proof.
  intros (k & Hk & Hn & Hs & Hi) Hf Hp Hst. unfold scheduler. rewrite bindE. unfold mycpu, cpuid. cbn [read].
  rewrite bindE, (set_cpu_Ret _ [] u k Hk). fold (cpu_proc None). set (u1 := on_cpu (cpu_proc None) u).
  assert (Hk1 : cpus u1 !! tp u1 = Some (cpu_proc None k)) by exact (on_cpu_here _ _ _ Hk).
  cbn [loop]. rewrite bindE, bindE. unfold scheduler_pass. rewrite bindE. unfold mycpu, cpuid. cbn [read].
  rewrite bindE. unfold intr_on. rewrite bindE. unfold cpuid. cbn [read]. rewrite (set_cpu_Ret _ [] u1 _ Hk1). fold cpu_on. set (u2 := on_cpu cpu_on u1).
  assert (Hk2 : cpus u2 !! tp u2 = Some (cpu_on (cpu_proc None k))) by exact (on_cpu_here _ _ _ Hk1).
  assert (Hok2 : hart_ok u2) by (eexists; split; [exact Hk2|]; split; cbn; lia).
  rewrite bindE. change proc_table with (0%nat :: seq 1 63). cbn [scheduler_loop]. rewrite bindE, acquire_Ret by done.
  set (u3 := enter (Lproc 0) u2). rewrite bindE, (get_proc_Ret 0 [] u3 pr) by done. rewrite bool_decide_eq_true_2 by done.
  rewrite bindE, bindE, (set_proc_with _ 0 [] u3 pr) by done. set (u4 := with_proc _ 0 u3).
  assert (Hk4 : cpus u4 !! tp u4 = Some (push_cpu (cpu_on (cpu_proc None k)))) by exact (on_cpu_here push_cpu _ _ Hk2).
  rewrite bindE. change (tp u) with (tp u4). rewrite (set_cpu_Ret _ [] u4 _ Hk4). reflexivity.
Qed.

Lemma main_switches `{LK : Linker} `{VC : Vectors} `{DK : Disk} `{DV : Devices} fuel s
  (Hend : 0 < kernel_end) (Ha : etext mod PGSIZE = 0) (He : KERNBASE < etext < PHYSTOP) (Ht : 0 <= trampoline < 2 ^ 56)
  (Hm : kernel_end + 200 * PGSIZE <= PHYSTOP) (Hf : (PHYSTOP - kernel_end) / PGSIZE < Z.of_nat (S fuel)) (Hs : power_on s) :
  exists u sts D U tf pg ut l0 l, main (S fuel) [] s = Blocked (switched u) /\ booted s u sts D U tf pg ut l0 l.
Proof.
  destruct (wp_main_first Hend Ha He Ht Hm fuel [] s Hs Hf) as ([] & u & E & sts & D & U & tf & pg & ut & l0 & l & B).
  exists u, sts, D, U, tf, pg, ut, l0, l. split; [|done]. destruct (bt_hart _ _ _ _ _ _ _ _ _ _ B) as [Htp Hq].
  destruct (lookup_lt_is_Some_2 (procs s) 0) as [p0 Hp0]; [rewrite (po_procs _ Hs); unfold NPROC; lia|]. assert (Hp := proj1 (bt_first _ _ _ _ _ _ _ _ _ _ B) p0 Hp0).
  unfold main. rewrite bindE. unfold cpuid. cbn [read]. rewrite (proj1 (po_hart _ Hs)). change (0 =? 0)%nat with true. cbv match. rewrite bindE, E.
  apply (scheduler_switches fuel u (init_slot (nextpid s) tf ut (boot_slot 0 p0)) Hq); [apply (bt_locks _ _ _ _ _ _ _ _ _ _ B); cbn; unfold NPROC; lia|exact Hp|done].
Qed.

(** C7. [main] on hart 0 of a machine with enough memory and a disk goes
    through without a panic and switches to the first process: paging is on with
    the kernel's page table and traps go to [kernelvec]; every lock is
    initialised and free but for the lock of that process; the buffer cache shows
    the disk; the descriptors of the disk are free; the first slot has the
    first process with its own page table, code and trap frame, the others are
    unused with their kernel stacks; the root inode has one reference; [started]
    lets the other harts go on. *)
Theorem main_boots `{LK : Linker} `{VC : Vectors} `{DK : Disk} `{DV : Devices} fuel s
  (Hend : 0 < kernel_end) (Ha : etext mod PGSIZE = 0) (He : KERNBASE < etext < PHYSTOP) (Ht : 0 <= trampoline < 2 ^ 56)
  (Hm : kernel_end + 200 * PGSIZE <= PHYSTOP) (Hf : (PHYSTOP - kernel_end) / PGSIZE < Z.of_nat (S fuel)) (Hs : power_on s) :
  exists u sts D U tf pg ut l0 l, main (S fuel) [] s = Blocked (switched u) /\ booted s u sts D U tf pg ut l0 l /\
    cur (switched u) = Some 0%nat /\ held_by (switched u) (Lproc 0) = Some 0%nat.
Proof.
  destruct (main_switches fuel s Hend Ha He Ht Hm Hf Hs) as (u & sts & D & U & tf & pg & ut & l0 & l & E & B).
  exists u, sts, D, U, tf, pg, ut, l0, l. destruct (bt_hart _ _ _ _ _ _ _ _ _ _ B) as [Htp (k & Hk & _)]. split; [done|]. split; [done|]. split.
  - exact (f_equal cproc (this_cpu_Some _ _ (on_cpu_here (cpu_proc (Some 0%nat)) _ _ (on_cpu_here push_cpu _ _ (on_cpu_here cpu_on _ _ (on_cpu_here (cpu_proc None) _ _ Hk)))))).
  - change (held_by (switched u) (Lproc 0)) with (held_by (enter (Lproc 0) u) (Lproc 0)). unfold held_by, enter, lock_of. cbn. rewrite lookup_insert_eq. cbn. by rewrite Htp.
Qed.

Lemma hart_line n : (n < NCPU)%nat -> exists o, Printf.printf (path_bytes ("hart %d starting" +:+ nl)) [Printf.AInt (Z.of_nat n)] = Done o.
Proof. intros Hn. unfold NCPU in Hn. do 8 (destruct n as [|n]; [eexists; vm_compute; reflexivity|]). lia. Qed.

(** Another hart waits until [started] is set, by [f], and then turns paging on
    with the same table. *)
Lemma main_other_joins `{LK : Linker} `{VC : Vectors} fuel e s f (Hw : started (io s) = 0) (Hs : started (io (f s)) = 1) (Hq : quiet (f s))
  (Hh : (tp (f s) < NCPU)%nat) (Hl : locking (io (f s)) = 1) (Hf : free_lock (f s) Lpr) :
  exists t line, main_other (S (S fuel)) (f :: e) s = Ret tt e t /\ console t = line :: console (f s) /\
    satp (csr_of t) = MAKE_SATP (kernel_pagetable (f s)) /\ stvec (csr_of t) = kernelvec /\ quiet t /\
    mem t = mem (f s) /\ procs t = procs (f s) /\ locks t = locks (f s) /\ tp t = tp (f s).
Proof.
  set (u := f s) in *. destruct (hart_line (tp u) Hh) as [o Ho]. destruct Hq as (k & Hk & Q).
  assert (E : loop (S (S fuel)) started_step tt (f :: e) s = Ret tt e u).
  { cbn [loop]. rewrite bindE. unfold started_step at 1. msimp. rewrite Hw. change (0 =? 0) with true. cbv match. rewrite bindE. cbn [switch_out mret M_ret].
    fold u. rewrite bindE. unfold started_step at 1. msimp. by rewrite Hs. }
  set (v := u <| console ::= cons (to_string o) |>). set (f1 := fun r : csrs => r <| satp := MAKE_SATP (kernel_pagetable u) |>). set (f2 := fun r : csrs => r <| stvec := kernelvec |>).
  assert (Hk1 := with_csr_here v k Hk f1). assert (Hk2 := with_csr_here (with_csr f1 v) _ Hk1 f2). set (w := with_csr f2 (with_csr f1 v)) in *.
  assert (W : wp (kprintf ("hart %d starting" +:+ nl) [Printf.AInt (Z.of_nat (tp u))];; kvminithart;; trapinithart;; plicinithart) e u (fun _ t => t = w <| io := io t |>)).
  { apply wp_bind. eapply wp_call; [apply (kprintf_Ret _ _ o e u Ho); [by exists k|done|done]|]. fold v.
    apply wp_bind. unfold kvminithart. apply wp_bind, wp_read. unfold w_satp. apply wp_set_csr_quiet; [by exists k|]. fold f1.
    apply wp_bind. unfold trapinithart, w_stvec. apply wp_set_csr_quiet; [by eexists; split; [exact Hk1|]|]. fold f2.
    unfold plicinithart, plic_write. apply wp_bind, wp_read, wp_bind, wp_modify, wp_modify. by destruct u as [? ? ? ? ? ? ? ? ? ? ? ? ? ? ? ? ? ? []]. }
  destruct W as ([] & t & Er & Et). exists t, (to_string o). split; [unfold main_other; rewrite bindE, E; exact Er|].
  assert (Hkt : cpus t !! tp t = Some (k <| csr ::= f1 |> <| csr ::= f2 |>)) by (rewrite Et; exact Hk2).
  split; [by rewrite Et|]. split; [exact (f_equal (fun k => satp (csr k)) (this_cpu_Some _ _ Hkt))|]. split; [exact (f_equal (fun k => stvec (csr k)) (this_cpu_Some _ _ Hkt))|].
  split; [by eexists; split; [exact Hkt|]|]. by rewrite Et.
Qed.

(** ** An instance *)

Definition disk_regs (r : Z) : Z :=
  if r =? VIRTIO_MMIO_MAGIC_VALUE then 0x74726976
  else if r =? VIRTIO_MMIO_VERSION then 2
  else if r =? VIRTIO_MMIO_DEVICE_ID then 2
  else if r =? VIRTIO_MMIO_VENDOR_ID then 0x554d4551
  else if r =? VIRTIO_MMIO_STATUS then VIRTIO_CONFIG_S_FEATURES_OK
  else if r =? VIRTIO_MMIO_QUEUE_NUM_MAX then 1024
  else 0.

(** A machine with the disk [d] that is switched on. *)
Definition machine_off (d : Z -> list Z) : mach :=
  mkMach 0 [mkCpu None context0 0 false false csrs0] {[ Llog := mkSpinlock 0 EmptyString None ]} ∅ 0 0 (replicate NPROC proc0) None 1 0
    (replicate (NBUF + NINODE) (mkSleeplock 0 "" 0)) ∅ (replicate NFILE (mkFile FD_NONE 0 0 0 0 None 0 0)) []
    (mkBcache (replicate NBUF zero_buf) [] d []) (no_log <| lh := mkLogheader 0 (replicate (Z.to_nat LOGSIZE) 0) |>) no_superblock (replicate NINODE no_inode)
    (no_devices <| vdk := mkVdisk [] [] [] 0 [] 0 0 (replicate NUM (None, 0)) (replicate NUM (false, 0)) (replicate NBUF 0) disk_regs [] |>).

Lemma machine_off_on d : (forall b, length (d b) = 1024%nat) -> power_on (machine_off d).
Proof.
  intros Hd.   split; try reflexivity.
  - split; [reflexivity|]. eexists. split; [reflexivity|]. done.
  - intros i Hi. exists no_inode. split; [by apply lookup_replicate_2|done].
  - by apply (zero_cache_boot d).
  - by eexists.
  - split; [|done]. split; by vm_compute.
Qed.

Lemma main_boots_witness :
  exists u sts D U tf pg ut l0 l, @main many_pages some_vectors (virtio_disk 1) (console_devices 1) 201 [] (machine_off (fun _ => replicate 1024 0)) = Blocked (switched u) /\
    @booted many_pages some_vectors (machine_off (fun _ => replicate 1024 0)) u sts D U tf pg ut l0 l /\
    cur (switched u) = Some 0%nat /\ held_by (switched u) (Lproc 0) = Some 0%nat.
Proof.
  refine (@main_boots many_pages some_vectors (virtio_disk 1) (console_devices 1) 200 (machine_off (fun _ => replicate 1024 0)) _ _ _ _ _ _ (machine_off_on (fun _ => replicate 1024 0) (fun _ => eq_refl))); apply (bool_decide_unpack _); by vm_compute.
Defined.
