(* ===== verification/FirstRun.v ===== *)
(** * The first run of a process

    [fsinit] and [forkret]: the first process mounts the file system, which
    recovers the log, and enters user space. *)
From stdpp Require Import base tactics list numbers gmap strings.
From S2P Require Import MkfsRep Virtio.
From S2P Require Import Prelude Machine Wp Spinlock StringC Kalloc Vm VmRep VmInst VmKernel Sched Sleeplock Bio Log LogCalls File Proc Fs Itable Syscall SysPath Console Trap TrapCalls ProcFirst Boot.

Open Scope Z_scope.

Section mount.
Context {DK : Disk} {DL : @DiskLaw DK} (fuel : nat) (p : nat) (pr : proc) (e : env).
Notation fs_rep := (fs_rep p pr).

Lemma fs_rep_initlog s v nm : fs_rep s v [] [] -> fs_rep (s <| locks ::= <[Llog := mkSpinlock 0 nm None]> |>) v [] [].
Proof using.
  intros [[T1 T2 T3 T4 T5 T6 T7 T8] R]. split; [|exact R]. destruct T1 as (H1 & H2 & H3).
  assert (F : forall lk, free_lock s lk -> free_lock (s <| locks ::= <[Llog := mkSpinlock 0 nm None]> |>) lk) by (intros lk H; apply free_in_insert; by right).
  split; try done; try by apply F.
  - split; [exact H1|]. split; [exact H2|]. intros i Hi. apply F, H3, Hi.
  - intros n Hn. apply F, T7, Hn.
Qed.

Lemma fs_rep_super s v b : fs_rep s v [] [] -> fs_rep (s <| sb := b |>) v [] [].
Proof using. intros [Hf R]. split; [by apply (fs_thread_same s)|done]. Qed.

Lemma wp_readsb s v (Q : superblock -> mach -> Prop) : fs_rep s v [] [] ->
  (forall t, fs_rep t v [] [] -> bio_step [] [] s t -> Q (super_of (v 1)) t) -> wp (readsb (S fuel) ROOTDEV) e s Q.
Proof using DL.
  intros R HQ. assert (HN : (0 < NBUF < 100)%nat) by (unfold NBUF; lia). unfold readsb. apply wp_bind.
  eapply wp_bread; [done|apply not_elem_of_nil|right; cbn; lia|cbn; lia|]. intros n t1 R1 H1 S1.
  apply wp_bind. eapply wp_get_buf; [done|done|]. intros b Hb _. apply wp_bind.
  eapply (wp_brelse p pr e n 1 _ _ _ _ [] []); [done|done|done|done|set_solver| |set_solver|].
  { right. rewrite (bs_disk _ _ _ _ S1). cbn [play foldr]. eapply fs_rep_clean; [done|apply not_elem_of_nil]. }
  intros t2 R2 S2. apply wp_ret. rewrite Hb. apply HQ; [done|]. by join ([] : list Z) S1 S2.
Qed.

Lemma cpus_left_off_trans (s t : mach) c : hart_ok s -> tp t = tp s -> cpus t = cpus s \/ cpus t = cpus (left_off s) -> c = cpus t \/ c = cpus (left_off t) ->
  c = cpus s \/ c = cpus (left_off s).
Proof using.
  intros Hok Ht H1 [->| ->]; [done|]. right. destruct H1 as [E|E]; unfold left_off, on_cpu in *; cbn in *; rewrite E, Ht; [done|].
  assert (Hi := left_off_idem s Hok). unfold left_off, on_cpu in Hi. apply (f_equal cpus) in Hi. exact Hi.
Qed.

(** [fsinit]: the super block is in memory and the log is recovered. *)
Lemma wp_fsinit s (Q : unit -> mach -> Prop) : let d := disk (bc s) in let b := super_of (d 1) in
  fs_rep s d [] [] -> magic b = FSMAGIC -> 0 <= logstart b -> logstart b + LOGSIZE < 2 ^ 31 -> length (block (lh (slog s))) = Z.to_nat LOGSIZE -> header_ok (logstart b) (d (logstart b)) ->
  (forall t v' nm, fs_rep t v' [] [] -> log_ok (slog t) [] -> (forall x, disk (bc t) x = recovered (logstart b) d x) ->
     t = s <| cpus := cpus t |> <| locks ::= <[Llog := mkSpinlock 0 nm None]> |> <| sleeplocks := sleeplocks t |> <| bc := bc t |> <| slog := slog t |> <| sb := b |> ->
     cpus t = cpus s \/ cpus t = cpus (left_off s) -> Q tt t) ->
  wp (fsinit (S fuel) ROOTDEV) e s Q.
Proof using DL.
  intros d b R Hm Hs0 Hs1 Hlen Hh HQ. unfold fsinit. apply wp_bind. eapply wp_readsb; [done|]. intros t1 R1 S1. fold b.
  apply wp_bind, wp_modify. rewrite Hm. change (negb (FSMAGIC =? FSMAGIC)) with false. cbv match.
  unfold initlog. change (BSIZE <=? 4 + 4 * LOGSIZE) with false. cbv match. do 4 (apply wp_bind, wp_modify).
  set (t2 := _ <| slog ::= _ |>).
  assert (R2 : fs_rep t2 d [] []) by (do 3 apply fs_rep_log; by apply fs_rep_initlog, fs_rep_super).
  assert (Elog : slog t1 = slog s) by exact (bs_log _ _ _ _ S1).
  assert (Hst : lstart (slog t2) = logstart b) by done.
  assert (Hfresh : log_fresh (slog t2)).
  { split; [done|]. rewrite Hst. split; [done|]. split; [done|]. transitivity (length (block (lh (slog t1)))); [done|]. by rewrite Elog. }
  eapply (wp_recover_from_log fuel p pr e t2 d); [done|done|by rewrite Hst|]. rewrite Hst. intros t3 v' R3 S3 L3.
  destruct (bs_frame _ _ _ _ S1) as [E1 C1]. destruct (bs_frame _ _ _ _ S3) as [E3 C3].
  apply (HQ t3 v' "log"%string); [done|done| | |].
  - intros x. rewrite (bs_disk _ _ _ _ S3). change (bc t2) with (bc t1). rewrite (play_ext _ _ d) by (intros y; by rewrite (bs_disk _ _ _ _ S1)).
    apply recovery_plays, Hh.
  - etransitivity; [exact E3|]. rewrite (bs_inodes _ _ _ _ S3). change (inodes t2) with (inodes t1). rewrite (bs_inodes _ _ _ _ S1). unfold t2. rewrite E1. by destruct s.
  - apply (cpus_left_off_trans s t1); [by eapply fs_rep_hart|by rewrite E1|done|exact C3].
Qed.
End mount.

(** ** [forkret] *)

Section forkret.
Context `{LK : Linker} `{VC : Vectors} {DK : Disk} {DL : @DiskLaw DK} (fuel : nat) (p : nat) (pr : proc) (e : env).
Notation fs_rep := (fs_rep p pr).

(** The disk has a super block, and a log that can be recovered. *)
Record mountable (d : Z -> list Z) : Prop := mkMountable {
  mo_magic : magic (super_of (d 1)) = FSMAGIC;
  mo_log : 0 <= logstart (super_of (d 1)) /\ logstart (super_of (d 1)) + LOGSIZE < 2 ^ 31;
  mo_header : header_ok (logstart (super_of (d 1))) (d (logstart (super_of (d 1))))
}.

(** The file system is mounted: [t] after [s]. *)
Record mounted (s t : mach) : Prop := mkMounted {
  mt_super : sb t = super_of (disk (bc s) 1);
  mt_log : log_ok (slog t) [];
  mt_disk : forall x, disk (bc t) x = recovered (logstart (sb t)) (disk (bc s)) x;
  mt_cache : exists v, cache_rep (bc t) (sleeplocks t) (pid pr) v [] [];
  mt_first : first (io t) = 0
}.

Lemma wp_forkret s k : fs_rep s (disk (bc s)) [] [] -> cpus s !! tp s = Some k -> first (io s) <> 0 -> mountable (disk (bc s)) -> length (block (lh (slog s))) = Z.to_nat LOGSIZE ->
  wp (forkret (S fuel)) e (enter (Lproc p) s) (fun r t => r = MAKE_SATP (pagetable pr) /\ mounted s t /\
    (exists k', cpus t !! tp t = Some k' /\ user_ready k' (load64 (mem s) (trapframe pr + TF_EPC)) /\ cproc k' = Some p /\ noff k' = noff k) /\
    mem t = frame_stores (mem s) (trapframe pr) (kstack pr) (satp (csr k)) (tp s) /\ tp t = tp s /\ procs t = procs s /\ inodes t = inodes s /\ freelist t = freelist s /\ kernel_pagetable t = kernel_pagetable s /\
    (forall lk, free_lock s lk -> free_lock t lk)).
Proof using DL.
  intros R Hk Hf [M1 [M2 M3] M4] Hlog. assert (Hok := fs_rep_hart _ _ _ _ _ _ R). destruct R as [T R].
  assert (Hcpu : cpu_ok k) by (destruct Hok as (k' & Hk' & H); rewrite Hk in Hk'; by injection Hk' as <-).
  unfold forkret. apply wp_bind. exists p, (enter (Lproc p) s). split.
  { rewrite (curproc_ready e (enter (Lproc p) s) p); [by rewrite nested_left_off_id by by apply enter_nested|by apply hart_ok_enter|]. destruct T as [_ Hc _ _ _ _ _ _].
    unfold cur in *. rewrite (this_cpu_Some _ _ Hk) in Hc. etransitivity; [exact (f_equal cproc (this_cpu_Some _ _ (on_cpu_here push_cpu _ _ Hk)))|exact Hc]. }
  assert (Hlp : free_lock s (Lproc p)) by (destruct T as [(_ & H2 & H3) _ Hp _ _ _ _ _]; apply H3; rewrite <- H2; by eapply lookup_lt_Some).
  apply wp_bind. eapply wp_call; [by apply release_enter|]. set (s1 := left_off s). assert (T1 := fs_thread_left_off _ _ _ T). fold s1 in T1.
  apply wp_bind, wp_read. change (first (io s1)) with (first (io s)). destruct (Z.eqb_spec (first (io s)) 0) as [|_]; [done|]. cbn [negb when].
  apply wp_bind, wp_bind. eapply (wp_fsinit fuel p pr e s1); [by split|done..|].
  intros t v' nm R2 L2 D2 Et Ec. apply wp_modify. set (t1 := t <| io ::= _ |>). change (disk (bc s1)) with (disk (bc s)) in *.
  set (kt := pop_cpu (push_cpu k)). destruct (pop_push_same k Hcpu) as [Hn _]. destruct (pop_push_csr k) as [Hcsr Hcp]. fold kt in Hn, Hcsr, Hcp.
  assert (Htp : tp t = tp s) by by rewrite Et. assert (Htc : cpus t = cpus s1) by (destruct Ec as [Ec|Ec]; [done|]; rewrite Ec; unfold s1; by rewrite left_off_idem).
  assert (Hkt : cpus t1 !! tp t1 = Some kt).
  { change (cpus t !! tp t = Some kt). rewrite Htc, Htp. exact (on_cpu_here (pop_cpu ∘ push_cpu) _ _ Hk). }
  assert (Hpr : procs t = procs s /\ mem t = mem s /\ inodes t = inodes s /\ freelist t = freelist s /\ sb t = super_of (disk (bc s) 1) /\ kernel_pagetable t = kernel_pagetable s) by (rewrite Et; done). destruct Hpr as (E1 & E2 & E3 & E4 & E5 & E6).
  assert (Hfl : forall lk, free_lock s lk -> free_lock t lk) by (intros lk H; rewrite Et; apply free_in_insert; by right).
  assert (Hps : procs s !! p = Some pr) by apply T. assert (Hcp' : cproc kt = Some p).
  { rewrite Hcp. destruct T as [_ Hc _ _ _ _ _ _]. unfold cur in Hc. by rewrite (this_cpu_Some _ _ Hk) in Hc. }
  eapply wp_mono; [apply (wp_usertrapret e t1 kt t1 p pr (on_hart_refl _ _ Hkt)); [|done|by change (procs t1) with (procs t); rewrite E1]|].
  { unfold kt. by apply (pop_push_cpu_ok k). }
  intros r u (-> & k' & [Hku Eu] & Hur & Hcu & Hnu). change (mem t1) with (mem t) in *. change (tp t1) with (tp t) in *. rewrite E2 in Hur.
  assert (F : bc u = bc t /\ sleeplocks u = sleeplocks t /\ slog u = slog t /\ sb u = sb t /\ first (io u) = 0 /\ tp u = tp t /\ procs u = procs t /\ inodes u = inodes t /\ freelist u = freelist t /\ locks u = locks t /\ kernel_pagetable u = kernel_pagetable t /\
    mem u = frame_stores (mem s) (trapframe pr) (kstack pr) (satp (csr kt)) (tp t)) by (rewrite <- E2, Eu; done).
  destruct F as (F1 & F2 & F3 & F4 & F5 & F6 & F7 & F8 & F9 & F10 & F12 & F11).
  rewrite Hcsr, Htp in F11. split; [done|]. split; [split; rewrite ?F1, ?F2, ?F3, ?F4, ?F5; try done|].
  - intros x. rewrite D2. by rewrite E5.
  - exists v'. apply R2.
  - split; [exists k'; by rewrite Hnu, Hn|]. split; [done|]. rewrite F6, F7, F8, F9, F12. do 5 (split; [done|]).
    intros lk H. unfold free_lock. rewrite F10. by apply Hfl.
Qed.
End forkret.

(** ** From [main] to user space *)

(** The first process on hart 0, but for its lock. *)
Definition resumed (u : mach) : mach :=
  on_cpu (cpu_proc (Some 0%nat)) (with_proc (fun p => p <| state := RUNNING |>) 0 (on_cpu cpu_on (on_cpu (cpu_proc None) u))).

Lemma switched_resumed u : switched u = enter (Lproc 0) (resumed u).
Proof.
  unfold switched, resumed, enter, on_cpu, with_proc, lock_of. destruct u. cbn. f_equal. apply list_eq. intros i.
  destruct (decide (i = tp)) as [->|Hne]; [|by rewrite !list_lookup_alter_ne]. rewrite !list_lookup_alter_eq. by destruct (cpus !! tp).
Qed.

Section thread.
Context `{LK : Linker} `{VC : Vectors} (s u : mach) (sts : list Z) (D U : dirs) (tf pg ut : Z) (l0 l : list Z).
Hypothesis on : power_on s.
Hypothesis boot : booted s u sts D U tf pg ut l0 l.

Lemma resumed_hart : exists k, cpus u !! tp u = Some k /\ noff k = 0 /\ cpus (resumed u) !! tp (resumed u) = Some (cpu_proc (Some 0%nat) (cpu_on (cpu_proc None k))).
Proof using boot.
  destruct (bt_hart _ _ _ _ _ _ _ _ _ _ boot) as [_ (k & Hk & Hn & _)]. exists k. split; [done|]. split; [done|].
  exact (on_cpu_here (cpu_proc (Some 0%nat)) _ _ (on_cpu_here cpu_on _ _ (on_cpu_here (cpu_proc None) _ _ Hk))).
Qed.

Lemma resumed_thread : exists pr, procs (resumed u) !! 0%nat = Some pr /\ pagetable pr = ut /\ trapframe pr = tf /\ kstack pr = KSTACK 0 /\ cwd pr = Some 0%nat /\ state pr = RUNNING /\
  fs_rep 0 pr (resumed u) (disk (bc s)) [] [].
Proof using on boot.
  destruct (lookup_lt_is_Some_2 (procs s) 0) as [p0 Hp0]; [rewrite (po_procs _ on); unfold NPROC; lia|].
  assert (Hp := proj1 (bt_first _ _ _ _ _ _ _ _ _ _ boot) p0 Hp0). assert (Hr := lookup_with_proc (fun p => p <| state := RUNNING |>) 0 (on_cpu cpu_on (on_cpu (cpu_proc None) u)) _ Hp).
  eexists. split; [exact Hr|]. do 5 (split; [done|]). destruct resumed_hart as (k & Hk & Hn & Hk').
  assert (Hlen : length (procs (resumed u)) = NPROC) by (rewrite <- (bt_procs _ _ _ _ _ _ _ _ _ _ boot); apply length_alter).
  assert (Hlk : forall lk, boot_lock lk -> free_lock (resumed u) lk) by apply (bt_locks _ _ _ _ _ _ _ _ _ _ boot).
  split; [split|apply (bt_cache _ _ _ _ _ _ _ _ _ _ boot)].
  - split; [|split; [done|intros i Hi; by apply Hlk]]. eexists. split; [exact Hk'|]. split; cbn; lia.
  - exact (f_equal cproc (this_cpu_Some _ _ Hk')).
  - done.
  - by apply Hlk.
  - by apply Hlk.
  - by apply Hlk.
  - intros n Hi. by apply Hlk.
  - intros q [i Hq]%list_elem_of_lookup Hs. exfalso. destruct (decide (i = 0%nat)) as [->|Hi].
    + assert (E := eq_trans (eq_sym Hq) Hr). injection E as ->. done.
    + assert (Hq' : procs u !! i = Some q) by (rewrite <- Hq; symmetry; by apply list_lookup_alter_ne).
      assert (Hlt := lookup_lt_Some _ _ _ Hq'). rewrite (bt_procs _ _ _ _ _ _ _ _ _ _ boot), <- (po_procs _ on) in Hlt. destruct (lookup_lt_is_Some_2 _ _ Hlt) as [q0 Hq0].
      rewrite (bt_rest _ _ _ _ _ _ _ _ _ _ boot i q0) in Hq' by (done || lia). injection Hq' as <-. done.
Qed.
End thread.

Lemma frame_stores_out `{VC : Vectors} m tf kst st h b : ~ in_page tf b -> load8 (frame_stores m tf kst st h) b = load8 m b.
Proof.
  intros Hb. unfold frame_stores.
  rewrite (load8_store64_out _ tf 4) by (done || lia). rewrite (load8_store64_out _ tf 2) by (done || lia). rewrite (load8_store64_out _ tf 1) by (done || lia). by rewrite (load8_store64_out _ tf 0) by (done || lia).
Qed.

(** The first process is about to execute the first instruction of its code. *)
Record in_user `{LK : Linker} `{VC : Vectors} (t : mach) (U : dirs) (tf pg ut : Z) (l : list Z) : Prop := mkInUser {
  iu_hart : exists k, cpus t !! tp t = Some k /\ user_ready k 0 /\ cproc k = Some 0%nat /\ noff k = 0;
  iu_proc : exists pr, procs t !! 0%nat = Some pr /\ state pr = RUNNING /\ pagetable pr = ut /\ trapframe pr = tf /\ cwd pr = Some 0%nat;
  iu_cwd : exists ip, inodes t !! 0%nat = Some ip /\ idev ip = ROOTDEV /\ inum ip = ROOTINO /\ iref ip = 1;
  iu_space : vm_ok t ut U l /\ forall va, 0 <= va < MAXVA -> leaf (mem t) U va = maps (umap tf) 0 pg URWX 1 va;
  iu_code : holds (mem t) pg initcode;
  iu_frame : load64 (mem t) (tf + TF_SP) = PGSIZE /\ frame_ready (mem t) tf (KSTACK 0) (MAKE_SATP (kernel_pagetable t)) 0
}.

(** C8. From [main] to user space.  On a machine with enough memory, a disk
    and a file system on it that can be mounted, [main] switches to the first
    process, and [forkret], which that process runs first, mounts the file system:
    the super block is read, the log is recovered once and cleared.  It returns
    the page table of the process, with the hart set to enter user space with
    interrupts off at address 0, where the page of [initcode] is mapped, its stack
    pointer at the end of that page and the trap frame ready for the first trap. *)
Theorem boots_to_user `{LK : Linker} `{VC : Vectors} {DK : Disk} {DL : @DiskLaw DK} `{DV : Devices} fuel e s
  (Hend : 0 < kernel_end) (Ha : etext mod PGSIZE = 0) (He : KERNBASE < etext < PHYSTOP) (Ht : 0 <= trampoline < 2 ^ 56)
  (Hm : kernel_end + 200 * PGSIZE <= PHYSTOP) (Hf : (PHYSTOP - kernel_end) / PGSIZE < Z.of_nat (S fuel)) (Hs : power_on s)
  (Hfirst : first (io s) <> 0) (Hd : mountable (disk (bc s))) :
  exists u t pr U tf pg ut l, main (S fuel) [] s = Blocked (switched u) /\ forkret (S fuel) e (switched u) = Ret (MAKE_SATP ut) e t /\
    mounted pr s t /\ in_user t U tf pg ut l.
Proof.
  destruct (main_switches fuel s Hend Ha He Ht Hm Hf Hs) as (u & sts & D & U & tf & pg & ut & l0 & l & E & B).
  destruct (resumed_thread s u sts D U tf pg ut l0 l Hs B) as (pr & Hp & P1 & P2 & P3 & P4 & P5 & R). destruct (resumed_hart s u sts D U tf pg ut l0 l B) as (k & Hk & Hn & Hk').
  destruct (bt_same _ _ _ _ _ _ _ _ _ _ B) as (S1 & S2 & S3). destruct (bt_hart _ _ _ _ _ _ _ _ _ _ B) as [Htp _].
  assert (Ed : disk (bc (resumed u)) = disk (bc s)) by exact S1. rewrite <- Ed in R, Hd.
  destruct (wp_forkret fuel 0 pr e (resumed u) _ R Hk') as (r & t & F & -> & Hmt & (k' & K1 & K2 & K3 & K4) & Em & Etp & Epr & Ein & Efl & Ekp & Hlk).
  { change (first (io (resumed u))) with (first (io u)). by rewrite S3. }
  { exact Hd. }
  { change (slog (resumed u)) with (slog u). rewrite S2. apply (po_log _ Hs). }
  rewrite P1 in F. rewrite P2, P3 in Em. rewrite P2 in K2. change (mem (resumed u)) with (mem u) in *.
  destruct (bt_space _ _ _ _ _ _ _ _ _ _ B) as [V [L C (Hepc & Hsp) (N1 & N2 & N3 & N4 & N5)]]. destruct (bt_apart _ _ _ _ _ _ _ _ _ _ B) as (A1 & A2 & A3 & A4).
  destruct (vm_ok_write u ut U l tf (fun m => frame_stores m tf (KSTACK 0) (satp (csr k)) (tp u)) V N3 A3) as [V' L'].
  { intros q Hq. by apply A1 in Hq as (_ & ? & _). }
  { intros b Hb. by apply frame_stores_out. }
  exists u, t, pr, U, tf, pg, ut, l. split; [done|]. split; [by rewrite switched_resumed|]. split.
  - destruct Hmt as [T1 T2 T3 T4 T5]. rewrite Ed in T1, T3. by split.
  - assert (Em' : mem t = frame_stores (mem u) tf (KSTACK 0) (satp (csr k)) (tp u)) by exact Em. clear Em.
    destruct (frame_stores_ready (mem u) tf (KSTACK 0) (satp (csr k)) (tp u)) as [Fr _]. rewrite <- Em' in Fr, L'.
    assert (Esatp : satp (csr k) = MAKE_SATP (kernel_pagetable t)) by (rewrite Ekp; transitivity (satp (csr_of u)); [by exact (eq_sym (f_equal (fun k => satp (csr k)) (this_cpu_Some _ _ Hk)))|apply (bt_paging _ _ _ _ _ _ _ _ _ _ B)]).
    split.
    + exists k'. rewrite Hepc in K2. split; [done|]. split; [done|]. split; [done|]. rewrite K4. exact Hn.
    + exists pr. by rewrite Epr.
    + rewrite Ein. change (inodes (resumed u)) with (inodes u). rewrite (bt_inodes _ _ _ _ _ _ _ _ _ _ B). destruct (po_inodes _ Hs 0%nat) as (ip & Hip & _); [unfold NINODE; lia|].
      exists (root_ref ip). by rewrite (lookup_alter_here root_ref _ _ _ Hip).
    + split; [|intros va Hva; by rewrite L', L]. eapply vm_ok_move; [exact V'|exact Em'|exact Efl|]. split; [|apply Hlk, (bt_locks _ _ _ _ _ _ _ _ _ _ B); done].
      exists k'. split; [done|]. split; [rewrite K4; change (0 <= noff k); lia|]. intros _. apply K2.
    + intros i Hi. rewrite Em', <- (C i Hi). apply frame_stores_out. apply (in_page_neq pg); [done|done|done|]. unfold in_page. lia.
    + rewrite <- Esatp, <- Htp. split; [|exact Fr]. rewrite Em', <- Hsp. unfold frame_stores, TF_KERNEL_SATP, TF_KERNEL_SP, TF_KERNEL_TRAP, TF_KERNEL_HARTID, TF_SP. by rewrite !load64_store64_other by lia.
Qed.

(** ** An instance *)

(** A disk with a super block, whose log starts at block 2 and is empty. *)
Definition small_disk (b : Z) : list Z :=
  if b =? 1 then [0x40; 0x30; 0x20; 0x10] ++ replicate 12 0 ++ [30; 0; 0; 0; 2; 0; 0; 0] ++ replicate 1000 0 else replicate 1024 0.

Lemma small_disk_mountable : mountable small_disk.
Proof. split; [by vm_compute|by vm_compute|]. split; [by vm_compute|]. apply (bool_decide_unpack _). by vm_compute. Qed.

Lemma small_disk_size b : length (small_disk b) = 1024%nat.
Proof. unfold small_disk. by destruct (b =? 1). Qed.

Lemma boots_to_user_witness :
  exists u t pr U tf pg ut l, @main many_pages some_vectors test_disk (console_devices 1) 201 [] (machine_off small_disk) = Blocked (switched u) /\
    @forkret many_pages some_vectors test_disk 201 [] (switched u) = Ret (MAKE_SATP ut) [] t /\
    mounted pr (machine_off small_disk) t /\ @in_user many_pages some_vectors t U tf pg ut l.
Proof.
  refine (@boots_to_user many_pages some_vectors test_disk test_disk_law (console_devices 1) 200 [] (machine_off small_disk) _ _ _ _ _ _ (machine_off_on _ small_disk_size) _ small_disk_mountable); apply (bool_decide_unpack _); by vm_compute.
Defined.
